(* ===== verification/_CoqProject ===== *)
-Q . S2P
Prelude.v
LList.v
Heap.v
HeapInv.v
HeapCtx.v
HeapSpec.v
HeapTheorems.v
Task.v
TaskInv.v
Watchdog.v
WatchdogTheorems.v
Sched.v
SchedSpec.v
SchedSteps.v
SchedFrame.v
SchedTheorems.v
Locks.v
MutexRuns.v
Paging.v
PagingInv.v
PagingTheorems.v
Cstr.v
Ports.v
Keyboard.v
Vga.v
Alloc.v
Vfs.v
Memfs.v
VfsInv.v
VfsTheorems.v
MemfsTheorems.v
Tar.v
Ramfs.v
Bdev.v
PageCache.v
PageCacheTheorems.v
UserMem.v
UserMemTheorems.v
AddrSpace.v
OnePage.v
ForkMem.v
Elf.v
ElfTheorems.v
Vm.v
Process.v
ProcessTheorems.v
ForkTheorems.v
ExecTheorems.v
Teardown.v
Syscall.v
SyscallTheorems.v
FsBoot.v
FileOps.v
FileCreate.v
FileStore.v
FsTheorems.v
FileCalls.v
User.v
Shell.v
ShellTheorems.v
Povi.v
PoviText.v
PoviTheorems.v
LocksTest.v
Ata.v
AtaTheorems.v
AtaBoot.v
Trap.v
TrapTheorems.v
Programs.v
Demos.v
Tailq.v
PageQueue.v
KernelMain.v
