(* ===== verification/Prelude.v ===== *)
(** * PokuOS kernel: a verification library

    PokuOS is a kernel for 32-bit x86 written in C, with some assembly and a string library
    in Rust.  This library models the C code under src/ as executable definitions and proves
    the theorems that make its parts correct.  Source names are relative to src/ below.

    ** The program and how its parts interact

    At the bottom is [kernel/paging.c]: physical frames with reference counts, and page tables
    that the kernel reaches through slot 1023 of the directory, which maps the directory into
    itself.  [kernel/heap.c] takes pages from it and is the allocator of everything else.
    [kernel/task.c] and [kernel/sched.c] keep the task table, run queues by tier and
    MLFQ level, and the timer interrupt, which also drives [kernel/watchdog.c];
    [kernel/locks.c] blocks tasks in wait queues that share the link field of the run queues.
    [vm/vm.c] resolves copy-on-write faults and keeps objects that own pages.  [fs/] is a
    VFS with a mount table and three file systems: memfs (in the heap), ramfs and tarfs (an
    archive, read through a page cache or from memory), block devices below.  [kernel/elf.c]
    loads a program into the address space in CR3, [kernel/process.c] forks, executes and
    waits under a sandbox (capabilities, memory limit, CPU quota, root directory, tier), and
    [kernel/syscall.c] is the entry from user mode: it checks capabilities and user pointers
    and calls the rest.  An exception goes to [kernel/trap.c] through the table of
    [kernel/idt.c].  [driver/ata.c] serves the block devices by port I/O.  Above the kernel run
    user programs: the shell [user/shell.c], the editor [user/povi/] and small ones, which see
    it only through the system calls of [user/lib/syscall.h].

    ** Files

    - Prelude: words that wrap at 32 bits, word memory, record updates, generic lemmas and
      tactics.  LList: singly linked lists in a store of next fields.
    - Heap ([kernel/heap.c]): one definition per function over word memory; the page source is
      the class [PageSource]: a page it reports as added is mapped, and a heap page that is not
      mapped faults.  HeapInv: boundary tags and free list as an invariant over the
      list of blocks.  HeapCtx, HeapSpec: how a local change of blocks changes memory, and the
      specification of each step.  HeapTheorems: first-fit refinement, freeing with
      coalescing, round trip, 32-bit overflow of a request and the sizes that corrupt the heap.  Alloc: the class [Allocator] that
      clients use, discharged by the heap and by a bump allocator for closed examples.
    - Task, TaskInv ([kernel/task.c]): tasks, run queues, creation and exit; queues as lists.
      Watchdog, WatchdogTheorems ([kernel/watchdog.c]).
    - Sched, SchedSpec, SchedSteps, SchedFrame, SchedTheorems ([kernel/sched.c], exit and
      timer): [schedule] on each branch, the timer interrupt, what both leave alone, and
      sequences of kernel events.
    - Locks ([kernel/locks.c]): spin locks, mutexes, priority inheritance.  MutexRuns: threads
      that share a mutex, under every schedule.  LocksTest ([kernel/locks_test.c]): the self
      test, run on the mutex and the scheduler.
    - Tailq ([include/sys/queue.h]): the tail queue macros on word memory, with the words a
      queue owns.  PageQueue: the array of page records of [kernel/paging.c] and its queue of
      free frames on top of it.
    - Paging, PagingInv, PagingTheorems ([kernel/paging.c], the page-table parts of [vm/vm.c]
      and [kernel/process.c]): frames, the MMU walk [translate], [map_page] and the rest.
    - Cstr (the string functions of [rust/src/lib.rs] that the kernel calls), Keyboard
      ([driver/keyboard.c]), Vga ([driver/vga.c]).
    - Vfs, VfsInv, VfsTheorems ([fs/vfs.c], [fs/mount.c]); Memfs, MemfsTheorems
      ([fs/memfs.c]); Tar ([fs/tar.c]); Ramfs ([fs/ramfs.c] and the mounting of [fs/tarfs.c]);
      Bdev ([fs/bdev.c]); PageCache, PageCacheTheorems ([fs/page_cache.c], [fs/tarfs.c]);
      FsBoot ([mount_roots], the mounts of [kernel/kernel.c], and executable checks of the
      invariants); FileOps, FileCreate: open, read, write, close and create on memfs through
      the VFS interface; FileStore: memfs as a map from names to contents with a table of open
      files; FsTheorems: lookup and read after write.
    - UserMem, UserMemTheorems (user pointers in [kernel/process.c] and [kernel/syscall.c]);
      AddrSpace: address spaces whose pages are different frames, apart from page tables and
      free frames, and the operations that keep them so; Elf, ElfTheorems ([kernel/elf.c]); Vm
      ([vm/vm.c]: objects and maps); Process, ProcessTheorems ([kernel/process.c]); ForkMem,
      ForkTheorems: the memory of a forked child; ExecTheorems: the argument stack of a new
      program; Teardown: the release of an address space; Syscall, SyscallTheorems
      ([kernel/syscall.c]); FileCalls: the file system calls as operations on [FileStore];
      OnePage: a small address space for closed examples.
    - Ports ([include/kernel/ports.h], [kernel/serial.c]): the port instructions as the class
      [PortIO], the serial port, and [Uart], what it needs of the hardware.  Ata
      ([driver/ata.c] and [bdev_selftest] of [kernel/kernel.c]); AtaTheorems: the laws of a
      PIO disk controller as the class [AtaController], with [QuietWhileBusy] for a
      controller whose other status bits read 0 while it is busy, which the driver relies on and
      the ATA standard does not promise; the driver on top of them, a simulated controller; AtaBoot: identification, registration and the self test.
    - Trap, TrapTheorems ([kernel/trap.c], [kernel/idt.c], [user/tss.c]): exceptions as they
      change the machine of Syscall, gates, the descriptor of the TSS.
    - User ([user/lib/syscall.h]): programs as trees of system calls, and [wp], what holds
      whatever a kernel answers.  Shell, ShellTheorems ([user/shell.c]); Povi, PoviText,
      PoviTheorems (all of [user/povi/]: strings, vectors, buffer, editor, files, screen);
      Programs ([user/args.c], [user/hello.c], [user/fork_test.c], [user/lib/crt0.c]); Demos
      ([user/burner.c], [user/sandbox_test.c], [user/cppdemo.cpp], [user/cpp_lib/]).
    - KernelMain ([kernel/kernel.c] from the boot module to the idle loop, and [process_char] of
      [init/init.c]).

    ** State and effects

    A component's state is a record; C structures reached by pointers are records in finite
    maps keyed by address, NULL is 0, static variables are fields.  Record updates are written
    [s <| field := v |>], and [s <| t # field := v |>] for task [t].  Numbers are [Z]; where
    the code can wrap, the definition wraps ([+w], [wrap32]).  A definition returns [option]
    where the code can fault, follow a dangling pointer or loop for ever: [None] is that, and
    never an error code of the program.  C return codes are values.  Interrupts are modelled
    by the places where the code is entered: a timer tick, a system call, a yield.

    ** Fuel

    Loops over linked lists in the task table run with fuel [QUEUE_FUEL] = 18, one more than
    the 16 tasks and the idle task; the theorems show that on well-formed queues it is never
    used up.  Heap lists use the number of smallest blocks that fit into the heap, directory chains one more
    than the number of entries, [vm_object_deallocate] one more than the number of objects,
    the doubling of a memfs buffer 32 steps (the width of its counter).  The walk over an
    archive takes its fuel as an argument; one more than the number of files is enough.  A loop
    that polls a device register runs [polls] times at most, a number that the laws of the
    device bound.  Loops over strings and arrays of user programs run over the array.  Every page loop runs a number of rounds computed from its
    bounds.  Theorems on these loops show a result ([Some]), not only its correctness.

    ** What the theorems show

    - Heap: [kmalloc] (but for a window of sizes near 4 GB, which corrupt the heap) and [kfree]
      refine first fit with coalescing on a list of blocks, return, and keep live payloads,
      over a page source that maps what it adds; [expand_heap] does so with two free frames.
    - Scheduling: run queues hold exactly the READY tasks through every event, as long as not
      every other task of the running one's queue is out of quota; picks follow priority;
      quotas, aging and demotion; mutexes wake and block exactly whom they should, and under
      every sequence of calls and interrupts of threads that unlock only what they hold and lock
      it once exclude each other, lose no wake-up and give every lent tier back;
      the watchdog restarts with exponential backoff and a bound.
    - Tail queues and the pool of free frames refine lists, through every sequence of operations.
    - Memory: [map_page] maps one page and nothing else, boot maps what it should, frames are
      freed with their last reference, copy-on-write in place, shadow chains are released
      without touching freed objects.
    - Files: lookup finds what the path names, memfs writes are read back, tar archives
      round-trip, the page cache is coherent, tarfs reads exact bytes, deferred writes are
      flushed newest first; sequences of open, read, write and close through [syscall_handler]
      behave as on a store of named files with a table of descriptors; a write behind the end
      of a file that was truncated while open shows old bytes or bytes of the heap.
    - Processes: user ranges are accepted exactly when mapped for user mode, strings are
      copied exactly, a program's segments are placed byte for byte and its arguments laid out
      on its stack, teardown returns every frame, fork copies the address
      space and records a sandbox no wider than the parent's (though a limit below one page is
      not enforced), wait reaps one child, each system call needs its capability.
    - Drivers: the keyboard is a bounded queue of the typed characters with correct shift
      state; the screen refines a terminal; the ATA driver behind the block-device layer
      refines a pair of disks, and the boot's self test changes one sector.
    - Exceptions: one in user mode is a resolved copy-on-write fault, or a report followed by
      [exit], unless the stack pointer of the program is bad, when the kernel faults;
      programs can raise two interrupts only.
    - Programs: no session of the shell or of the editor leaves its arrays, whatever is typed
      and answered; a typed line of at most four words runs as typed, completion completes;
      the editor refines a gap buffer, does not lose text silently when the kernel writes whole
      buffers, and runs out of its 64 KB only after more than 104 keys; what args prints.
    - Defects found on the way are theorems as well, where they concern these definitions.

    ** Simplifications

    The heap's page source is abstract, so that heap pages and [paging] are not one state in the
    kernel record; the serial messages of [kernel/elf.c] and [kernel/process.c] are left out; and the TLB is not modelled, a translation is always the current one.

    ** Not modelled

    The first part of [kernel_main], calls of the initialisers in a row, and [init_start] of
    [init/init.c], which nothing calls.  Assembly (boot, context switch, system-call and
    interrupt entries): a switch is the change of [current_task], CR3 and esp0.  The PIT and
    the interrupt controller are only programmed through ports.  In [MutexRuns] and [LocksTest]
    an interrupt comes between two calls, not inside one.  The wrappers of
    [user/cpp_lib/syscall.hpp] and [user/povi/syscall.hpp] repeat those of [user/lib/syscall.h].
    [vfs_readdir]: no file system of the repository implements it. *)

From Stdlib Require Export ZArith Lia.
From stdpp Require Export base numbers gmap sets strings option list.

#[global] Open Scope Z_scope.

Declare Scope kernel_scope.
Delimit Scope kernel_scope with K.

(** ** Machine words *)

(** [uint32_t], [size_t] and [uintptr_t] are 32 bits wide on i686: arithmetic wraps. *)
Definition wrap32 (x : Z) : Z := x mod 2 ^ 32.

Notation "x +w y" := (wrap32 (x + y)) (at level 50, left associativity) : kernel_scope.
Notation "x -w y" := (wrap32 (x - y)) (at level 50, left associativity) : kernel_scope.
Notation "x *w y" := (wrap32 (x * y)) (at level 40, left associativity) : kernel_scope.
#[global] Open Scope kernel_scope.

(** [if (x & m)] *)
Definition tst (x m : Z) : bool := negb (Z.land x m =? 0).

(** ** Word-addressed memory: a load of an unmapped word reads 0. *)
Definition rd (m : gmap Z Z) (a : Z) : Z := default 0 (m !! a).
Definition wr (m : gmap Z Z) (a v : Z) : gmap Z Z := <[a := v]> m.

Arguments rd : simpl never.
Arguments wr : simpl never.

(** ** Record update: [r <| field := v |>].  The setter of a field is found from the
    eta-expansion of the record, which an [Eta] instance gives for each record type. *)
Class Eta (R : Type) := eta_of : R -> R.
Class Setter {R E : Type} (proj : R -> E) := set_field : (E -> E) -> R -> R.
Arguments set_field {R E} proj {_} _ _ /.

Ltac derive_setter R proj :=
  let e := constr:(_ : Eta R) in
  let e := eval hnf in e in
  lazymatch eval pattern proj in e with
  | ?ctx _ => exact (fun f => ctx (fun r => f (proj r)))
  end.

#[export] Hint Extern 1 (@Setter ?R _ ?proj) => derive_setter R proj : typeclass_instances.

Notation "r <| proj := v |>" := (set_field proj (fun _ => v) r)
  (at level 1, left associativity, format "r  <| proj  :=  v |>") : kernel_scope.

(** ** Automation *)
Create HintDb kernel.

(** Split a conjunctive goal. *)
Ltac splits := repeat match goal with |- _ /\ _ => split end.

(** Linear arithmetic with division and remainder by constants. *)
Ltac zmod := Z.to_euclidean_division_equations; lia.

(** Turn boolean tests of the code into propositions. *)
Ltac bool_prop := repeat match goal with
  | H : (_ =? _) = true |- _ => apply Z.eqb_eq in H
  | H : (_ =? _) = false |- _ => apply Z.eqb_neq in H
  | H : (_ <? _) = true |- _ => apply Z.ltb_lt in H
  | H : (_ <? _) = false |- _ => apply Z.ltb_ge in H
  | H : (_ <=? _) = true |- _ => apply Z.leb_le in H
  | H : (_ <=? _) = false |- _ => apply Z.leb_gt in H
  | H : (_ && _)%bool = true |- _ => apply andb_true_iff in H as [? ?]
  | H : (_ || _)%bool = false |- _ => apply orb_false_iff in H as [? ?]
  | H : negb _ = true |- _ => apply negb_true_iff in H
  | H : negb _ = false |- _ => apply negb_false_iff in H
  end.

(** ** Shared lemmas *)

Lemma wrap32_small x : 0 <= x < 2 ^ 32 -> wrap32 x = x.
Proof. intros; by apply Z.mod_small. Qed.

Lemma wrap32_range x : 0 <= wrap32 x < 2 ^ 32.
Proof. by apply Z.mod_pos_bound. Qed.

Lemma rd_wr_eq m a v : rd (wr m a v) a = v.
Proof. unfold rd, wr. by rewrite lookup_insert_eq. Qed.

Lemma rd_wr_ne m a b v : a <> b -> rd (wr m a v) b = rd m b.
Proof. intros. unfold rd, wr. by rewrite lookup_insert_ne. Qed.

Lemma rd_wr m a b v : rd (wr m a v) b = if decide (a = b) then v else rd m b.
Proof. case_decide; subst; [apply rd_wr_eq | by apply rd_wr_ne]. Qed.

(** Clearing the two low bits of a word. *)
Lemma land_mask4 x : 0 <= x < 2 ^ 32 -> Z.land x 0xFFFFFFFC = x - x mod 4.
Proof.
  intros Hx.
  replace (Z.land x 0xFFFFFFFC) with (Z.ldiff x (Z.ones 2)).
  - rewrite Z.ldiff_ones_r by lia. rewrite Z.shiftl_mul_pow2, Z.shiftr_div_pow2 by lia.
    change (2 ^ 2) with 4. pose proof (Z.div_mod x 4). lia.
  - apply Z.bits_inj'. intros i Hi.
    rewrite Z.ldiff_spec, Z.land_spec.
    destruct (decide (i < 32)) as [H|H].
    + replace 0xFFFFFFFC with (Z.ldiff (Z.ones 32) (Z.ones 2)) by reflexivity.
      rewrite Z.ldiff_spec, (Z.ones_spec_low 32) by lia. done.
    + replace (Z.testbit x i) with false; [done|]. symmetry.
      rewrite <- (Z.mod_small x (2 ^ 32)) by lia. apply Z.mod_pow2_bits_high. lia.
Qed.

(** Setting a bit that is clear adds it. *)
Lemma lor_add x y : Z.land x y = 0 -> Z.lor x y = x + y.
Proof. intros. symmetry. by apply Z.add_nocarry_lor. Qed.

