(* ===== verification/LList.v ===== *)
(** * Singly linked lists threaded through a [next] field

    The heap's free list ([struct free_block]), the five run queues and the mutex wait
    queue ([struct task]) are null-terminated lists threaded through a field of their
    elements.  This file states their shape once, for an arbitrary [next] function from
    element address to element address, NULL being 0. *)

From S2P Require Import Prelude.

Section llist.
Context (next : Z -> Z).

(** [lseg p l q]: following [next] from [p] visits the elements [l] and arrives at [q]. *)
Fixpoint lseg (p : Z) (l : list Z) (q : Z) : Prop :=
  match l with
  | [] => p = q
  | x :: l' => p = x /\ x <> 0 /\ lseg (next x) l' q
  end.

Definition llist (p : Z) (l : list Z) : Prop := lseg p l 0.

Lemma lseg_app p l1 l2 q :
  lseg p (l1 ++ l2) q <-> exists r, lseg p l1 r /\ lseg r l2 q.
Proof.
  revert p. induction l1 as [|x l1 IH]; simpl; intros p.
  - split; [by eauto | by intros (r & -> & H)].
  - rewrite IH. split.
    + intros (? & ? & r & ? & ?). eauto 6.
    + intros (r & (? & ? & ?) & ?). eauto 6.
Qed.

Lemma llist_head p l : llist p l -> p = hd 0 l.
Proof. destruct l; [done | by intros [-> _]]. Qed.

Lemma llist_nil_iff p l : llist p l -> p = 0 <-> l = [].
Proof. destruct l; [done |]. intros (-> & ? & _). by split. Qed.

Lemma llist_nonzero p l x : llist p l -> x ∈ l -> x <> 0.
Proof.
  revert p. induction l as [|y l IH]; intros p Hl Hx; [by apply not_elem_of_nil in Hx|].
  destruct Hl as (_ & Hy & Hl). apply elem_of_cons in Hx as [->|Hx]; eauto.
Qed.

(** The elements reachable from a pointer are determined by it. *)
Lemma llist_unique p l1 l2 : llist p l1 -> llist p l2 -> l1 = l2.
Proof.
  revert p l2. induction l1 as [|x l1 IH]; intros p [|y l2]; simpl; try done.
  - by intros -> (? & ? & _).
  - by intros (-> & ? & _) ?.
  - intros (-> & ? & H1) (-> & ? & H2). f_equal. by apply (IH (next y)).
Qed.

(** Hence a null-terminated list has no cycle. *)
Lemma llist_NoDup p l : llist p l -> NoDup l.
Proof.
  revert p. induction l as [|x l IH]; intros p Hl; [constructor|].
  destruct Hl as (-> & Hx & Hl). constructor; [|eauto].
  intros Hin. apply list_elem_of_split in Hin as (l1 & l2 & ->).
  pose proof Hl as Hl'. apply lseg_app in Hl as (r & _ & Hr).
  pose proof Hr as (-> & _ & Hr').
  pose proof (llist_unique _ _ _ Hl' Hr') as E.
  apply (f_equal length) in E. rewrite length_app in E. simpl in E. lia.
Qed.

(** The last element of a non-empty list, NULL for the empty list: the [tail] pointer. *)
Definition lastp (l : list Z) : Z := default 0 (last l).

End llist.

Arguments lastp l /.

(** Only the [next] fields of the elements matter. *)
Lemma lseg_ext n1 n2 p l q :
  (forall x, x ∈ l -> n1 x = n2 x) -> lseg n1 p l q -> lseg n2 p l q.
Proof.
  revert p. induction l as [|x l IH]; simpl; intros p Hn; [done|].
  intros (? & ? & H). splits; [done..|].
  rewrite <- Hn by set_solver. apply IH; [set_solver | done].
Qed.

Lemma llist_ext n1 n2 p l :
  (forall x, x ∈ l -> n1 x = n2 x) -> llist n1 p l -> llist n2 p l.
Proof. apply lseg_ext. Qed.

(** Appending an element: the old last element now points to it. *)
Lemma llist_snoc n n' p l x t :
  llist n p (l ++ [x]) -> t <> 0 -> n' x = t -> n' t = 0 -> (forall y, y ∈ l -> n' y = n y) ->
  llist n' p (l ++ [x] ++ [t]).
Proof.
  intros Hl Ht Hx Ht0 Hag. apply lseg_app in Hl as (r & Hl & -> & Hx0 & _).
  apply lseg_app. exists x. split.
  - eapply lseg_ext; [|done]. intros y Hy. by rewrite Hag.
  - simpl. by rewrite Hx, Ht0.
Qed.

(** Unlinking the successor [y] of [x]. *)
Lemma llist_unlink n n' p l1 x y l2 :
  llist n p (l1 ++ x :: y :: l2) -> n' x = n y ->
  (forall z, z ∈ l1 \/ z ∈ l2 -> n' z = n z) ->
  llist n' p (l1 ++ x :: l2).
Proof.
  intros Hl Hx Hag. apply lseg_app in Hl as (r & Hl & -> & Hx0 & Ey & Hy0 & Hl2).
  apply lseg_app. exists x. split.
  - eapply lseg_ext; [|done]. intros z Hz. rewrite Hag; [done|by left].
  - simpl. splits; [done..|]. rewrite Hx. eapply lseg_ext; [|done].
    intros z Hz. rewrite Hag; [done|by right].
Qed.

(** Distinct elements of a bounded range: a bound on the length. *)
Lemma NoDup_range_length (l : list Z) (a : Z) (n : nat) :
  NoDup l -> (forall x, x ∈ l -> a <= x < a + Z.of_nat n) -> (length l <= n)%nat.
Proof.
  intros Hnd Hr. rewrite <- (Nat2Z.id n), <- (length_seqZ a (Z.of_nat n)).
  apply submseteq_length, NoDup_submseteq; [done|]. intros x Hx. apply elem_of_seqZ. auto.
Qed.

#[export] Hint Resolve llist_NoDup : kernel.
