(* ===== verification/Heap.v ===== *)
(** * The kernel heap allocator (src/kernel/heap.c)

    A boundary-tag allocator: every block carries a header word (size, FREE and PREV_FREE
    bits) and a footer word (size); free blocks are threaded into an address-ordered list
    through their second word.  The model keeps the heap's memory word by word, so headers,
    footers and list links are loads and stores at the addresses the code computes.

    Physical pages come from [paging.c]; the allocator sees them through the interface
    [PageSource]. *)

From S2P Require Import Prelude LList.

Definition HEAP_VIRT_START : Z := 0xD0000000.
Definition HEAP_INIT_PAGES : Z := 64.
Definition PAGE_SIZE : Z := 4096.
Definition BLOCK_FLAG_FREE : Z := 0x1.
Definition BLOCK_FLAG_PREV_FREE : Z := 0x2.
(** [~(size_t)0x3] *)
Definition BLOCK_SIZE_MASK : Z := 0xFFFFFFFC.
Definition MIN_BLOCK_SIZE : Z := 16.
(** [sizeof(struct block_header)] and [sizeof(size_t)] *)
Definition SIZEOF_HEADER : Z := 4.
Definition SIZEOF_SIZE_T : Z := 4.

(** What the heap needs of the paging layer: [expand_page v p] asks for a fresh frame at [v]
    and reports success (true) or failure (false); [avail] bounds the frames that can still
    be handed out; [mapped v p] says whether the page of [v] is mapped.  The laws
    [expand_mapped] and [expand_keeps] are what heap.c relies on when it writes the new
    pages: a success means that the page is mapped.  paging.c keeps this promise while two
    frames are free and breaks it with the last one (expand_heap_maps and
    expand_heap_silent_failure in PagingTheorems). *)
Class PageSource (P : Type) := {
  expand_page : Z -> P -> bool * P;
  avail : P -> Z;
  mapped : Z -> P -> bool;
  avail_nonneg p : 0 <= avail p;
  expand_ok v p p' : expand_page v p = (true, p') -> avail p' + 1 <= avail p;
  expand_fail v p p' : expand_page v p = (false, p') -> avail p' <= avail p;
  expand_mapped v p p' : expand_page v p = (true, p') -> mapped v p' = true;
  expand_keeps v w p ok p' : expand_page v p = (ok, p') -> mapped w p = true -> mapped w p' = true;
}.

(** The file-scope variables of heap.c, the memory they point into, and the page source. *)
Record heap (P : Type) := mk_heap {
  hmem : gmap Z Z;
  free_list : Z;
  heap_brk : Z;
  heap_end : Z;
  pages_src : P;
}.
Arguments mk_heap {P} _ _ _ _ _.
Arguments hmem {P} _.
Arguments free_list {P} _.
Arguments heap_brk {P} _.
Arguments heap_end {P} _.
Arguments pages_src {P} _.
#[export] Instance eta_heap P : Eta (heap P) :=
  fun h => mk_heap (hmem h) (free_list h) (heap_brk h) (heap_end h) (pages_src h).

(** [fb->next]: the second word of a free block. *)
Definition fb_next (m : gmap Z Z) (b : Z) : Z := rd m (b + SIZEOF_HEADER).

Definition block_size (m : gmap Z Z) (b : Z) : Z := Z.land (rd m b) BLOCK_SIZE_MASK.
Definition block_is_free (m : gmap Z Z) (b : Z) : bool := tst (rd m b) BLOCK_FLAG_FREE.
Definition block_payload (b : Z) : Z := b +w SIZEOF_HEADER.
Definition block_after (m : gmap Z Z) (b : Z) : Z := b +w block_size m b.
Definition block_footer (m : gmap Z Z) (b : Z) : Z := wrap32 (b + block_size m b - SIZEOF_SIZE_T).

Section operations.
Context {P : Type} `{PageSource P}.
Implicit Types h : heap P.

Definition block_in_heap h (b : Z) : bool :=
  (HEAP_VIRT_START <=? b) && (b +w SIZEOF_HEADER <=? heap_end h).

(** Store a word; overwrite the page source; the other fields are kept. *)
Definition store h (a v : Z) : heap P := h <| hmem := wr (hmem h) a v |>.

(** Loops over the free list take fuel: the list has at most one element per
    [MIN_BLOCK_SIZE] bytes of heap.  Running out of fuel is [None]. *)
Definition list_fuel h : nat :=
  Z.to_nat ((heap_end h - HEAP_VIRT_START) / MIN_BLOCK_SIZE + 1).

Definition expand_heap (vaddr : Z) h : bool * heap P :=
  let '(ok, p) := expand_page vaddr (pages_src h) in (ok, h <| pages_src := p |>).

(** The first loop of [heap_init]: results of [expand_heap] are ignored. *)
Fixpoint init_pages (n : nat) (i : Z) h : heap P :=
  match n with
  | O => h
  | S n' => init_pages n' (i + 1) (snd (expand_heap (heap_brk h +w i *w PAGE_SIZE) h))
  end.

Definition heap_init h : heap P :=
  let h := init_pages (Z.to_nat HEAP_INIT_PAGES) 0 h in
  let h := h <| free_list := HEAP_VIRT_START |> in
  let h := store h (free_list h) (Z.lor (HEAP_INIT_PAGES * PAGE_SIZE) BLOCK_FLAG_FREE) in
  let h := store h (free_list h + SIZEOF_HEADER) 0 in
  let h := store h (block_footer (hmem h) (free_list h)) (HEAP_INIT_PAGES * PAGE_SIZE) in
  let h := h <| heap_brk := heap_brk h +w HEAP_INIT_PAGES * PAGE_SIZE |> in
  h <| heap_end := heap_brk h |>.

Fixpoint insert_loop (fuel : nat) (m : gmap Z Z) (block prev curr : Z) : option (Z * Z) :=
  match fuel with
  | O => None
  | S fuel' =>
      if negb (curr =? 0) && (curr <? block)
      then insert_loop fuel' m block curr (fb_next m curr)
      else Some (prev, curr)
  end.

Definition insert_free (block : Z) h : option (heap P) :=
  '(prev, curr) ← insert_loop (list_fuel h) (hmem h) block 0 (free_list h);
  let h := store h (block + SIZEOF_HEADER) curr in
  Some (if negb (prev =? 0) then store h (prev + SIZEOF_HEADER) block
        else h <| free_list := block |>).

(** [remove_free]'s loop: [Some (Some prev)] when the block was found after [prev]. *)
Fixpoint remove_loop (fuel : nat) (m : gmap Z Z) (block prev curr : Z) : option (option Z) :=
  match fuel with
  | O => None
  | S fuel' =>
      if curr =? 0 then Some None
      else if curr =? block then Some (Some prev)
      else remove_loop fuel' m block curr (fb_next m curr)
  end.

Definition remove_free (block : Z) h : option (heap P) :=
  r ← remove_loop (list_fuel h) (hmem h) block 0 (free_list h);
  Some (match r with
        | None => h
        | Some prev =>
            if negb (prev =? 0)
            then store h (prev + SIZEOF_HEADER) (fb_next (hmem h) block)
            else h <| free_list := fb_next (hmem h) block |>
        end).

(** The page loop of [grow_heap]: [false] as soon as one [expand_heap] fails. *)
Fixpoint grow_pages (n : nat) (i : Z) h : bool * heap P :=
  match n with
  | O => (true, h)
  | S n' =>
      let '(ok, h') := expand_heap (heap_brk h +w i *w PAGE_SIZE) h in
      if ok then grow_pages n' (i + 1) h' else (false, h')
  end.

(** The pages the loop has added are mapped.  The stores that follow go to these pages: a
    page fault there is the result [None] of [grow_heap]. *)
Fixpoint pages_mapped (n : nat) (i : Z) h : bool :=
  match n with
  | O => true
  | S n' => mapped (heap_brk h +w i *w PAGE_SIZE) (pages_src h) && pages_mapped n' (i + 1) h
  end.

(** [grow_heap] when the last block [prev] is free: it absorbs the new pages. *)
Definition grow_merge (prev prev_size bytes : Z) h : option (bool * heap P) :=
  h ← remove_free prev h;
  let h := store h prev
             (Z.lor (Z.lor (prev_size +w bytes) BLOCK_FLAG_FREE)
                (Z.land (rd (hmem h) prev) BLOCK_FLAG_PREV_FREE)) in
  let h := h <| heap_brk := heap_brk h +w bytes |> in
  let h := h <| heap_end := heap_brk h |> in
  let h := store h (block_footer (hmem h) prev) (block_size (hmem h) prev) in
  let h := store h (prev + SIZEOF_HEADER) 0 in
  h ← insert_free prev h;
  Some (true, h).

(** [grow_heap] otherwise: the new pages become a block of their own. *)
Definition grow_new (bytes : Z) h : option (bool * heap P) :=
  let newblock := heap_brk h in
  let h := store h newblock (Z.lor bytes BLOCK_FLAG_FREE) in
  let h := store h (block_footer (hmem h) newblock) bytes in
  let h := store h (newblock + SIZEOF_HEADER) 0 in
  let h := h <| heap_brk := heap_brk h +w bytes |> in
  let h := h <| heap_end := heap_brk h |> in
  h ← insert_free newblock h;
  Some (true, h).

(** [grow_heap] returns 0 ([true]) or -1 ([false]); [None] is a page fault in the new pages. *)
Definition grow_heap (need_bytes : Z) h : option (bool * heap P) :=
  if need_bytes =? 0 then Some (false, h)
  else if 0xFE000000 <=? heap_brk h then Some (false, h)
  else
    let pages := wrap32 (need_bytes + PAGE_SIZE - 1) / PAGE_SIZE in
    let '(ok, h) := grow_pages (Z.to_nat pages) 0 h in
    if negb ok then Some (false, h)
    else if negb (pages_mapped (Z.to_nat pages) 0 h) then None
    else
      let bytes := pages *w PAGE_SIZE in
      let prev_size := rd (hmem h) (heap_brk h -w SIZEOF_SIZE_T) in
      let prev := heap_brk h -w prev_size in
      if (HEAP_VIRT_START <? heap_brk h)
         && (block_in_heap h prev && (prev +w prev_size =? heap_brk h)
             && block_is_free (hmem h) prev)
      then grow_merge prev prev_size bytes h
      else grow_new bytes h.

(** The first-fit search of [kmalloc]; NULL (0) when no block is large enough. *)
Fixpoint find_fit (fuel : nat) (m : gmap Z Z) (total fb : Z) : option Z :=
  match fuel with
  | O => None
  | S fuel' =>
      if fb =? 0 then Some 0
      else if total <=? block_size m fb then Some fb
      else find_fit fuel' m total (fb_next m fb)
  end.

(** [size] rounded up to a word, plus header and footer, at least [MIN_BLOCK_SIZE]. *)
Definition total_size (size : Z) : Z :=
  let size := Z.land (size +w 3) BLOCK_SIZE_MASK in
  let total := wrap32 (size + SIZEOF_HEADER + SIZEOF_SIZE_T) in
  if total <? MIN_BLOCK_SIZE then MIN_BLOCK_SIZE else total.

(** [if (block_in_heap(next)) next->size = g(next->size)] *)
Definition update_next (g : Z -> Z) (next : Z) h : heap P :=
  if block_in_heap h next then store h next (g (rd (hmem h) next)) else h.

(** The [remaining >= MIN_BLOCK_SIZE] branch of [kmalloc]: the tail becomes a free block. *)
Definition split_block (block total remaining : Z) h : option (heap P) :=
  let split := block +w total in
  let h := store h split (Z.lor remaining BLOCK_FLAG_FREE) in
  let h := update_next (fun w => Z.lor w BLOCK_FLAG_PREV_FREE)
             (block_after (hmem h) split) h in
  let h := store h (block_footer (hmem h) split) remaining in
  h ← insert_free split h;
  Some (store h block (Z.lor total (Z.land (rd (hmem h) block) BLOCK_FLAG_PREV_FREE))).

(** The end of [kmalloc]: the block is marked allocated. *)
Definition mark_used (block : Z) h : heap P :=
  let h := store h block (Z.land (rd (hmem h) block) (Z.lnot BLOCK_FLAG_FREE)) in
  let h := store h (block_footer (hmem h) block) (block_size (hmem h) block) in
  update_next (fun w => Z.land w (Z.lnot BLOCK_FLAG_PREV_FREE)) (block_after (hmem h) block) h.

(** The part of [kmalloc] after a block [fb] was chosen. *)
Definition kmalloc_take (fb total : Z) h : option (Z * heap P) :=
  h ← remove_free fb h;
  let remaining := block_size (hmem h) fb -w total in
  h ← (if MIN_BLOCK_SIZE <=? remaining then split_block fb total remaining h else Some h);
  Some (block_payload fb, mark_used fb h).

(** [kmalloc]: the returned pointer is 0 when the allocation fails. *)
Definition kmalloc (size : Z) h : option (Z * heap P) :=
  if size =? 0 then Some (0, h)
  else
    let total := total_size size in
    fb ← find_fit (list_fuel h) (hmem h) total (free_list h);
    if negb (fb =? 0) then kmalloc_take fb total h
    else
      '(ok, h) ← grow_heap total h;
      if negb ok then Some (0, h)
      else
        fb ← find_fit (list_fuel h) (hmem h) total (free_list h);
        if fb =? 0 then Some (0, h) else kmalloc_take fb total h.

(** Merge with a free predecessor, found through its footer. *)
Definition kfree_merge_prev (block : Z) h : option (Z * heap P) :=
  if tst (rd (hmem h) block) BLOCK_FLAG_PREV_FREE then
    let prev_size := rd (hmem h) (block -w SIZEOF_SIZE_T) in
    let prev := block -w prev_size in
    if block_in_heap h prev && (prev +w prev_size =? block) then
      h ← remove_free prev h;
      Some (prev, store h prev
                    (Z.lor (Z.lor (prev_size +w block_size (hmem h) block) BLOCK_FLAG_FREE)
                       (Z.land (rd (hmem h) prev) BLOCK_FLAG_PREV_FREE)))
    else Some (block, h)
  else Some (block, h).

(** Merge with a free successor. *)
Definition kfree_merge_next (block : Z) h : option (heap P) :=
  let next := block_after (hmem h) block in
  if block_in_heap h next && block_is_free (hmem h) next then
    h ← remove_free next h;
    Some (store h block
            (Z.lor (Z.lor (block_size (hmem h) block +w block_size (hmem h) next)
                      BLOCK_FLAG_FREE)
               (Z.land (rd (hmem h) block) BLOCK_FLAG_PREV_FREE)))
  else Some h.

(** The end of [kfree]: the merged block is marked free and linked. *)
Definition mark_free (block : Z) h : option (heap P) :=
  let h := update_next (fun w => Z.lor w BLOCK_FLAG_PREV_FREE) (block_after (hmem h) block) h in
  let h := store h block (Z.lor (rd (hmem h) block) BLOCK_FLAG_FREE) in
  let h := store h (block_footer (hmem h) block) (block_size (hmem h) block) in
  let h := store h (block + SIZEOF_HEADER) 0 in
  insert_free block h.

Definition kfree (ptr : Z) h : option (heap P) :=
  if ptr =? 0 then Some h
  else
    let block := ptr -w SIZEOF_HEADER in
    if negb (block_in_heap h block) || (block_size (hmem h) block =? 0) then Some h
    else
      '(block, h) ← kfree_merge_prev block h;
      h ← kfree_merge_next block h;
      mark_free block h.

Fixpoint count_loop (fuel : nat) (m : gmap Z Z) (fb n : Z) : option Z :=
  match fuel with
  | O => None
  | S fuel' => if fb =? 0 then Some n else count_loop fuel' m (fb_next m fb) (n +w 1)
  end.

Definition heap_free_block_count h : option Z :=
  count_loop (list_fuel h) (hmem h) (free_list h) 0.

Fixpoint largest_loop (fuel : nat) (m : gmap Z Z) (fb max : Z) : option Z :=
  match fuel with
  | O => None
  | S fuel' =>
      if fb =? 0 then Some max
      else let s := block_size m fb in
           largest_loop fuel' m (fb_next m fb) (if max <? s then s else max)
  end.

Definition heap_largest_free h : option Z :=
  largest_loop (list_fuel h) (hmem h) (free_list h) 0.

(** [heap_selftest], its serial output reduced to the two values it reports: the free
    block count after the frees and the size of the largest free block. *)
Definition heap_selftest h : option (Z * Z * heap P) :=
  '(a, h) ← kmalloc 64 h;
  '(b, h) ← kmalloc 256 h;
  '(c, h) ← kmalloc 64 h;
  '(d, h) ← kmalloc 512 h;
  '(e, h) ← kmalloc 128 h;
  h ← kfree b h;
  h ← kfree d h;
  '(big, h) ← kmalloc 600 h;
  h ← kfree a h;
  h ← kfree c h;
  h ← kfree e h;
  h ← kfree big h;
  n ← heap_free_block_count h;
  largest ← heap_largest_free h;
  Some (n, largest, h).

End operations.
