(* ===== verification/HeapInv.v ===== *)
(** * The heap's representation invariant and the effect of its list operations

    A heap state represents a list of blocks that tile the heap from [HEAP_VIRT_START] to
    [heap_end]: [heap_inv h bs]. *)

From S2P Require Import Prelude LList Heap.

(** ** Blocks *)

Record blk := Blk { bsz : Z; bfree : bool }.

(** The header word of a block. *)
Definition hdr (s : Z) (f pf : bool) : Z := s + Z.b2z f + 2 * Z.b2z pf.

Definition wf_size (s : Z) : Prop := 16 <= s /\ s mod 4 = 0.
Definition wf_blk (b : blk) : Prop := wf_size (bsz b).

Fixpoint blen (bs : list blk) : Z :=
  match bs with [] => 0 | b :: r => bsz b + blen r end.

(** Whether the block before the end of [bs] is free ([pf] for the empty list). *)
Fixpoint last_free (pf : bool) (bs : list blk) : bool :=
  match bs with [] => pf | b :: r => last_free (bfree b) r end.

(** Header and footer of every block, PREV_FREE telling the truth. *)
Fixpoint tiles (m : gmap Z Z) (a : Z) (pf : bool) (bs : list blk) : Prop :=
  match bs with
  | [] => True
  | b :: r =>
      rd m a = hdr (bsz b) (bfree b) pf /\ rd m (a + bsz b - 4) = bsz b /\
      tiles m (a + bsz b) (bfree b) r
  end.

(** No two neighbours are both free. *)
Fixpoint no_adj (pf : bool) (bs : list blk) : Prop :=
  match bs with [] => True | b :: r => ~ (pf /\ bfree b) /\ no_adj (bfree b) r end.

Fixpoint addrs (a : Z) (bs : list blk) : list Z :=
  match bs with [] => [] | b :: r => a :: addrs (a + bsz b) r end.

Fixpoint free_addrs (a : Z) (bs : list blk) : list Z :=
  match bs with
  | [] => []
  | b :: r => (if bfree b then [a] else []) ++ free_addrs (a + bsz b) r
  end.

(** Address and size of the allocated blocks. *)
Fixpoint used_at (a : Z) (bs : list blk) : list (Z * Z) :=
  match bs with
  | [] => []
  | b :: r => (if bfree b then [] else [(a, bsz b)]) ++ used_at (a + bsz b) r
  end.

(** The memory the page source can still add: 60 MB of frames above the first 4 MB. *)
Definition HEAP_MAX : Z := 15360 * 4096.

Record heap_inv {P} `{PageSource P} (h : heap P) (bs : list blk) : Prop := {
  hi_wf : Forall wf_blk bs;
  hi_end : HEAP_VIRT_START + blen bs = heap_end h;
  hi_brk : heap_brk h = heap_end h;
  hi_bound : blen bs + 4096 * avail (pages_src h) <= HEAP_MAX;
  hi_tiles : tiles (hmem h) HEAP_VIRT_START false bs;
  hi_adj : no_adj false bs;
  hi_list : llist (fb_next (hmem h)) (free_list h) (free_addrs HEAP_VIRT_START bs);
}.

(** The payloads of the allocated blocks [us] keep their contents. *)
Definition payload_kept (us : list (Z * Z)) (m m' : gmap Z Z) : Prop :=
  forall x s y, (x, s) ∈ us -> x + 4 <= y < x + s - 4 -> rd m' y = rd m y.

(** ** Header arithmetic *)

Lemma wf_size_4 s : wf_size s -> exists k, s = 4 * k /\ 4 <= k.
Proof. intros [? ?]. exists (s / 4). pose proof (Z.div_mod s 4). lia. Qed.

Ltac hdr_tac :=
  intros (k & -> & ?)%wf_size_4; destruct k as [|k|k]; [lia| |lia];
  repeat match goal with b : bool |- _ => destruct b end; reflexivity.

Lemma hdr_prev_bit s f pf : wf_size s -> Z.land (hdr s f pf) 2 = 2 * Z.b2z pf.
Proof. hdr_tac. Qed.
Lemma hdr_is_free s f pf : wf_size s -> tst (hdr s f pf) 1 = f.
Proof. hdr_tac. Qed.
Lemma hdr_is_prev s f pf : wf_size s -> tst (hdr s f pf) 2 = pf.
Proof. hdr_tac. Qed.
Lemma hdr_free_mk s pf : wf_size s -> Z.lor (Z.lor s 1) (2 * Z.b2z pf) = hdr s true pf.
Proof. hdr_tac. Qed.
Lemma hdr_used_mk s pf : wf_size s -> Z.lor s (2 * Z.b2z pf) = hdr s false pf.
Proof. hdr_tac. Qed.
Lemma hdr_lor1 s f pf : wf_size s -> Z.lor (hdr s f pf) 1 = hdr s true pf.
Proof. hdr_tac. Qed.
Lemma hdr_lor2 s f pf : wf_size s -> Z.lor (hdr s f pf) 2 = hdr s f true.
Proof. hdr_tac. Qed.
Lemma hdr_clr1 s f pf : wf_size s -> Z.land (hdr s f pf) (Z.lnot 1) = hdr s false pf.
Proof. hdr_tac. Qed.
Lemma hdr_clr2 s f pf : wf_size s -> Z.land (hdr s f pf) (Z.lnot 2) = hdr s f false.
Proof. hdr_tac. Qed.
Lemma hdr_free_new s : wf_size s -> Z.lor s 1 = hdr s true false.
Proof. hdr_tac. Qed.

Lemma hdr_size s f pf : wf_size s -> s < 2 ^ 31 -> Z.land (hdr s f pf) BLOCK_SIZE_MASK = s.
Proof.
  intros [Hs Hm] Hb. unfold BLOCK_SIZE_MASK. rewrite land_mask4.
  - unfold hdr. destruct f, pf; simpl; zmod.
  - unfold hdr. destruct f, pf; simpl; lia.
Qed.

Lemma wf_size_add s t : wf_size s -> wf_size t -> wf_size (s + t).
Proof. intros [] []. split; zmod. Qed.

Lemma wf_size_sub s t : wf_size s -> wf_size t -> 16 <= s - t -> wf_size (s - t).
Proof. intros [] [] ?. split; zmod. Qed.

(** ** Tilings *)

Lemma blen_app bs1 bs2 : blen (bs1 ++ bs2) = blen bs1 + blen bs2.
Proof. induction bs1; simpl; lia. Qed.

Lemma blen_nonneg bs : Forall wf_blk bs -> 0 <= blen bs.
Proof. induction 1 as [|b ? [? _]]; simpl in *; lia. Qed.

Lemma last_free_app pf bs1 bs2 : last_free pf (bs1 ++ bs2) = last_free (last_free pf bs1) bs2.
Proof. revert pf. by induction bs1; simpl. Qed.

Lemma tiles_app m a pf bs1 bs2 :
  tiles m a pf (bs1 ++ bs2) <->
  tiles m a pf bs1 /\ tiles m (a + blen bs1) (last_free pf bs1) bs2.
Proof.
  revert a pf. induction bs1 as [|b bs1 IH]; simpl; intros a pf.
  - replace (a + 0) with a by lia. tauto.
  - rewrite IH. replace (a + bsz b + blen bs1) with (a + (bsz b + blen bs1)) by lia. tauto.
Qed.

Lemma no_adj_app pf bs1 bs2 :
  no_adj pf (bs1 ++ bs2) <-> no_adj pf bs1 /\ no_adj (last_free pf bs1) bs2.
Proof. revert pf. induction bs1 as [|b bs1 IH]; simpl; intros pf; [tauto|]. rewrite IH. tauto. Qed.

Lemma addrs_app a bs1 bs2 : addrs a (bs1 ++ bs2) = addrs a bs1 ++ addrs (a + blen bs1) bs2.
Proof.
  revert a. induction bs1 as [|b bs1 IH]; simpl; intros a; [by replace (a + 0) with a by lia|].
  rewrite IH. do 2 f_equal. f_equal. lia.
Qed.

Lemma free_addrs_app a bs1 bs2 :
  free_addrs a (bs1 ++ bs2) = free_addrs a bs1 ++ free_addrs (a + blen bs1) bs2.
Proof.
  revert a. induction bs1 as [|b bs1 IH]; simpl; intros a; [by replace (a + 0) with a by lia|].
  rewrite IH, app_assoc. do 2 f_equal. lia.
Qed.

Lemma used_at_app a bs1 bs2 :
  used_at a (bs1 ++ bs2) = used_at a bs1 ++ used_at (a + blen bs1) bs2.
Proof.
  revert a. induction bs1 as [|b bs1 IH]; simpl; intros a; [by replace (a + 0) with a by lia|].
  rewrite IH, app_assoc. do 2 f_equal. lia.
Qed.

Lemma free_addrs_range a bs x :
  Forall wf_blk bs -> x ∈ free_addrs a bs -> a <= x /\ x + 16 <= a + blen bs.
Proof.
  intros Hwf. revert a. induction Hwf as [|b bs [Hb _] Hwf IH]; simpl; intros a Hx.
  { by apply not_elem_of_nil in Hx. }
  pose proof (blen_nonneg _ Hwf). apply elem_of_app in Hx as [Hx|Hx].
  - destruct (bfree b); [|by apply not_elem_of_nil in Hx].
    apply list_elem_of_singleton in Hx as ->. lia.
  - apply IH in Hx. lia.
Qed.

Lemma used_at_range a bs x s :
  Forall wf_blk bs -> (x, s) ∈ used_at a bs -> a <= x /\ 16 <= s /\ x + s <= a + blen bs.
Proof.
  intros Hwf. revert a. induction Hwf as [|b bs [Hb _] Hwf IH]; simpl; intros a Hx.
  { by apply not_elem_of_nil in Hx. }
  pose proof (blen_nonneg _ Hwf). apply elem_of_app in Hx as [Hx|Hx].
  - destruct (bfree b); [by apply not_elem_of_nil in Hx|].
    apply list_elem_of_singleton in Hx. simplify_eq. lia.
  - apply IH in Hx. lia.
Qed.

(** Memory may change at the link words of free blocks without disturbing the tiling. *)
Lemma tiles_frame m m' a pf bs :
  Forall wf_blk bs ->
  (forall y, a <= y < a + blen bs -> (forall x, x ∈ free_addrs a bs -> y <> x + 4) -> rd m' y = rd m y) ->
  tiles m a pf bs -> tiles m' a pf bs.
Proof.
  intros Hwf. revert a pf. induction Hwf as [|b bs [Hb _] Hwf IH]; simpl; intros a pf Hm; [done|].
  pose proof (blen_nonneg _ Hwf) as Hn.
  assert (Hlnk : forall y x, (y = a \/ y = a + bsz b - 4) ->
    x ∈ (if bfree b then [a] else []) ++ free_addrs (a + bsz b) bs -> y <> x + 4).
  { intros y x Hy [Hx|Hx]%elem_of_app.
    - destruct (bfree b); [apply list_elem_of_singleton in Hx; lia | by apply not_elem_of_nil in Hx].
    - apply free_addrs_range in Hx; [lia|done]. }
  intros (H1 & H2 & H3). splits.
  - rewrite Hm; eauto; lia.
  - rewrite Hm; eauto; lia.
  - eapply IH; [|done]. intros y Hy Hx. apply Hm; [lia|].
    intros x [Hx'|Hx']%elem_of_app; [|by apply Hx].
    destruct (bfree b); [apply list_elem_of_singleton in Hx'; lia | by apply not_elem_of_nil in Hx'].
Qed.

(** The word of an allocated payload is no header, footer or link of the tiling. *)
Lemma used_not_link a bs x s y z :
  Forall wf_blk bs -> (x, s) ∈ used_at a bs -> x + 4 <= y < x + s - 4 ->
  z ∈ free_addrs a bs -> y <> z + 4.
Proof.
  intros Hwf. revert a. induction Hwf as [|b bs [Hb _] Hwf IH]; simpl; intros a Hx Hy Hz.
  { by apply not_elem_of_nil in Hx. }
  apply elem_of_app in Hx as [Hx|Hx], Hz as [Hz|Hz]; [| | |by eauto].
  - destruct (bfree b); by apply not_elem_of_nil in Hx || apply not_elem_of_nil in Hz.
  - apply free_addrs_range in Hz; [|done].
    destruct (bfree b); [by apply not_elem_of_nil in Hx|].
    apply list_elem_of_singleton in Hx. simplify_eq. lia.
  - apply used_at_range in Hx; [|done].
    destruct (bfree b); [|by apply not_elem_of_nil in Hz].
    apply list_elem_of_singleton in Hz. simplify_eq. lia.
Qed.

(** Each free block comes from a split of the block list. *)
Lemma free_addrs_split a bs x :
  x ∈ free_addrs a bs ->
  exists bs1 s bs2, bs = bs1 ++ Blk s true :: bs2 /\ x = a + blen bs1.
Proof.
  revert a. induction bs as [|[s f] bs IH]; simpl; intros a Hx; [by apply not_elem_of_nil in Hx|].
  apply elem_of_app in Hx as [Hx|Hx].
  - destruct f; [|by apply not_elem_of_nil in Hx].
    apply list_elem_of_singleton in Hx as ->. exists [], s, bs. split; [done|simpl; lia].
  - apply IH in Hx as (bs1 & t & bs2 & -> & ->). exists (Blk s f :: bs1), t, bs2.
    split; [done|simpl; lia].
Qed.

(** The free list is no longer than its fuel. *)
Lemma free_addrs_length a bs :
  Forall wf_blk bs -> 16 * Z.of_nat (length (free_addrs a bs)) <= blen bs.
Proof.
  intros Hwf. revert a. induction Hwf as [|b bs [Hb _] Hwf IH]; simpl; intros a; [lia|].
  specialize (IH (a + bsz b)). rewrite length_app. destruct (bfree b); simpl length; lia.
Qed.

(** ** The free-list operations *)

Section list_ops.
Context {P : Type} `{PageSource P}.
Implicit Types h : heap P.

(** Everything but the memory and the list head is unchanged. *)
Definition same_globals h h' : Prop :=
  heap_brk h' = heap_brk h /\ heap_end h' = heap_end h /\ pages_src h' = pages_src h.

Lemma same_globals_trans h1 h2 h3 :
  same_globals h1 h2 -> same_globals h2 h3 -> same_globals h1 h3.
Proof. intros (? & ? & ?) (? & ? & ?). repeat split; congruence. Qed.

Lemma same_globals_store h a v : same_globals h (store h a v).
Proof. by repeat split. Qed.

(** The memory changed at most at the link words of [l]. *)
Definition links_only (l : list Z) (m m' : gmap Z Z) : Prop :=
  forall y, (forall x, x ∈ l -> y <> x + 4) -> rd m' y = rd m y.

Lemma insert_loop_spec fuel m b l1 l2 prev curr :
  llist (fb_next m) curr (l1 ++ l2) ->
  (forall x, x ∈ l1 -> x < b) -> (forall x, x ∈ l2 -> b < x) ->
  (length l1 < fuel)%nat ->
  insert_loop fuel m b prev curr = Some (default prev (last l1), hd 0 l2).
Proof.
  revert l1 prev curr. induction fuel as [|fuel IH]; intros l1 prev curr Hl H1 H2 Hf; [lia|].
  destruct l1 as [|x l1]; simpl.
  - pose proof (llist_head _ _ _ Hl) as ->. simpl. destruct l2 as [|y l2]; simpl; [done|].
    specialize (H2 y ltac:(set_solver)).
    destruct (Z.ltb_spec y b); [lia|]. by rewrite andb_false_r.
  - destruct Hl as (-> & Hx & Hl). destruct (Z.eqb_spec x 0); [done|].
    specialize (H1 x ltac:(set_solver)) as Hxb. destruct (Z.ltb_spec x b); [|lia]. simpl.
    rewrite (IH l1 x); [|done|set_solver|done|simpl in Hf; lia].
    f_equal. f_equal. by destruct l1 as [|? ?] using rev_ind; [|rewrite app_comm_cons, !last_snoc].
Qed.

Lemma last_split (l : list Z) : l <> [] -> exists l' x, l = l' ++ [x] /\ last l = Some x.
Proof. intros. destruct l as [|x l] using rev_ind; [done|]. exists l, x. by rewrite last_snoc. Qed.

Lemma fb_next_wr_ne m x y v : x <> y -> fb_next (wr m (y + 4) v) x = fb_next m x.
Proof. intros. unfold fb_next, SIZEOF_HEADER. apply rd_wr_ne. lia. Qed.

Lemma fb_next_wr_eq m x v : fb_next (wr m (x + 4) v) x = v.
Proof. apply rd_wr_eq. Qed.

Lemma insert_free_spec h b l1 l2 :
  llist (fb_next (hmem h)) (free_list h) (l1 ++ l2) ->
  (forall x, x ∈ l1 -> x < b) -> (forall x, x ∈ l2 -> b < x) -> b <> 0 ->
  (length (l1 ++ l2) < list_fuel h)%nat ->
  exists h', insert_free b h = Some h' /\
    llist (fb_next (hmem h')) (free_list h') (l1 ++ b :: l2) /\
    same_globals h h' /\ links_only (b :: l1) (hmem h) (hmem h').
Proof.
  intros Hl H1 H2 Hb Hf. unfold insert_free.
  rewrite (insert_loop_spec _ _ _ l1 l2); [|done..|rewrite length_app in Hf; lia].
  assert (Hnd : NoDup (l1 ++ l2)) by eauto with kernel.
  destruct (decide (l1 = [])) as [->|Hne]; simpl.
  - eexists; splits; [done| |done..|].
    + cbn. splits; [done..|]. rewrite fb_next_wr_eq. pose proof (llist_head _ _ _ Hl) as E.
      simpl in Hl, E. rewrite <- E. eapply llist_ext; [|done].
      intros x Hx. symmetry. apply fb_next_wr_ne. specialize (H2 x Hx). lia.
    + intros y Hy. cbn. apply rd_wr_ne. unfold SIZEOF_HEADER.
      specialize (Hy b ltac:(set_solver)). lia.
  - apply last_split in Hne as (l1' & p & -> & ->). simpl.
    rewrite <- app_assoc in Hl |- *. apply lseg_app in Hl as (r & Hl1 & -> & Hp & Hl2).
    destruct (Z.eqb_spec p 0); [done|]. simpl.
    assert (p < b) by (apply H1; set_solver).
    apply NoDup_app in Hnd as (Hnd & _ & _). apply NoDup_app in Hnd as (_ & Hdis & _).
    eexists; splits; [done| |done..|].
    + cbn -[llist]. apply lseg_app. exists p. split.
      * eapply lseg_ext; [|done]. intros x Hx. symmetry. unfold SIZEOF_HEADER.
        assert (x <> p) by (intros ->; apply (Hdis p); set_solver).
        assert (x < b) by (apply H1; set_solver).
        by rewrite !fb_next_wr_ne by lia.
      * unfold SIZEOF_HEADER. simpl. rewrite fb_next_wr_eq. splits; [done..|].
        rewrite fb_next_wr_ne, fb_next_wr_eq by lia. simpl in Hl2. pose proof (llist_head _ _ _ Hl2) as <-.
        eapply lseg_ext; [|done]. intros x Hx. symmetry.
        assert (b < x) by (apply H2; set_solver). by rewrite !fb_next_wr_ne by lia.
    + intros y Hy. cbn. unfold SIZEOF_HEADER. rewrite !rd_wr_ne; [done|..].
      * intros E. apply (Hy b); [set_solver|lia].
      * intros E. apply (Hy p); [set_solver|lia].
Qed.

Lemma remove_loop_spec fuel m b l1 l2 prev curr :
  llist (fb_next m) curr (l1 ++ b :: l2) -> (length l1 < fuel)%nat ->
  remove_loop fuel m b prev curr = Some (Some (default prev (last l1))).
Proof.
  intros Hl. pose proof (llist_NoDup _ _ _ Hl) as Hnd.
  revert l1 prev curr Hl Hnd. induction fuel as [|fuel IH]; intros l1 prev curr Hl Hnd Hf; [lia|].
  destruct l1 as [|x l1]; simpl.
  - destruct Hl as (-> & Hx & Hl). destruct (Z.eqb_spec b 0); [done|].
    by rewrite Z.eqb_refl.
  - destruct Hl as (-> & Hx & Hl). destruct (Z.eqb_spec x 0); [done|].
    apply NoDup_cons in Hnd as [Hxn Hnd].
    destruct (Z.eqb_spec x b); [subst; set_solver|].
    rewrite (IH l1 x); [|done|done|simpl in Hf; lia].
    do 2 f_equal. by destruct l1 as [|? ?] using rev_ind; [|rewrite app_comm_cons, !last_snoc].
Qed.

Lemma remove_free_spec h b l1 l2 :
  llist (fb_next (hmem h)) (free_list h) (l1 ++ b :: l2) ->
  (length (l1 ++ b :: l2) < list_fuel h)%nat ->
  exists h', remove_free b h = Some h' /\
    llist (fb_next (hmem h')) (free_list h') (l1 ++ l2) /\
    same_globals h h' /\ links_only l1 (hmem h) (hmem h').
Proof.
  intros Hl Hf. unfold remove_free.
  rewrite (remove_loop_spec _ _ _ l1 l2); [|done|rewrite length_app in Hf; lia].
  assert (Hnd : NoDup (l1 ++ b :: l2)) by eauto with kernel.
  destruct (decide (l1 = [])) as [->|Hne]; simpl.
  - eexists; splits; [done| |done..].
    by destruct Hl as (_ & _ & Hl).
  - apply last_split in Hne as (l1' & p & -> & ->). simpl.
    rewrite <- app_assoc in Hl, Hnd |- *. apply lseg_app in Hl as (r & Hl1 & -> & Hp & Eb & Hb & Hl2).
    destruct (Z.eqb_spec p 0); [done|]. simpl.
    apply NoDup_app in Hnd as (? & Hdis & Hnd). simpl in Hnd.
    apply NoDup_cons in Hnd as [Hpn Hnd].
    eexists; splits; [done| |done..|].
    + cbn -[llist]. unfold SIZEOF_HEADER. apply lseg_app. exists p. split.
      * eapply lseg_ext; [|done]. intros x Hx. symmetry. apply fb_next_wr_ne.
        intros ->. apply (Hdis p); set_solver.
      * simpl. splits; [done..|]. rewrite fb_next_wr_eq.
        eapply lseg_ext; [|done]. intros x Hx. symmetry. apply fb_next_wr_ne. set_solver.
    + intros y Hy. cbn. apply rd_wr_ne. unfold SIZEOF_HEADER.
      intros E. apply (Hy p); [set_solver|lia].
Qed.

End list_ops.

#[export] Hint Resolve same_globals_store : kernel.
