(* ===== verification/HeapCtx.v ===== *)
(** * Surgery on one block of the heap

    While [kmalloc], [kfree] and [grow_heap] rework one block, the blocks before it ([bs1])
    and after it ([bs2]) stay well formed.  [ctx m0 h bs1 s bs2 pf mid] says so: the region
    of [s] bytes after [bs1] is being worked on, [mid] are the addresses inside it that are
    currently linked into the free list, [pf] is what the PREV_FREE bit after the region
    says, and the payloads of the allocated blocks around it are still those of [m0]. *)

From S2P Require Import Prelude LList Heap HeapInv.

Section ctx.
Context {P : Type} `{PageSource P}.
Implicit Types h : heap P.

Record ctx (m0 : gmap Z Z) h (bs1 : list blk) (s : Z) (bs2 : list blk) (pf : bool) (mid : list Z)
    : Prop := {
  c_wf1 : Forall wf_blk bs1;
  c_wf2 : Forall wf_blk bs2;
  c_size : 0 <= s;
  c_end : HEAP_VIRT_START + blen bs1 + s + blen bs2 = heap_end h;
  c_brk : heap_brk h = heap_end h;
  c_bound : blen bs1 + s + blen bs2 + 4096 * avail (pages_src h) <= HEAP_MAX;
  c_t1 : tiles (hmem h) HEAP_VIRT_START false bs1;
  c_t2 : tiles (hmem h) (HEAP_VIRT_START + blen bs1 + s) pf bs2;
  c_adj1 : no_adj false bs1;
  c_adj2 : no_adj false bs2;
  c_mid : Forall (fun z => HEAP_VIRT_START + blen bs1 <= z /\
                           z + 16 <= HEAP_VIRT_START + blen bs1 + s) mid;
  c_len : 16 * Z.of_nat (length mid) <= s;
  c_list : llist (fb_next (hmem h)) (free_list h)
             (free_addrs HEAP_VIRT_START bs1 ++ mid ++
              free_addrs (HEAP_VIRT_START + blen bs1 + s) bs2);
  c_kept : payload_kept (used_at HEAP_VIRT_START bs1 ++
                         used_at (HEAP_VIRT_START + blen bs1 + s) bs2) m0 (hmem h);
}.

(** The sizes and addresses of a context fit in 31 and 32 bits. *)
Lemma ctx_range m0 h bs1 s bs2 pf mid :
  ctx m0 h bs1 s bs2 pf mid ->
  0 <= blen bs1 /\ 0 <= s /\ 0 <= blen bs2 /\ blen bs1 + s + blen bs2 <= HEAP_MAX /\
  HEAP_VIRT_START + blen bs1 + s + blen bs2 = heap_end h.
Proof.
  intros C. pose proof (blen_nonneg _ (c_wf1 _ _ _ _ _ _ _ C)).
  pose proof (blen_nonneg _ (c_wf2 _ _ _ _ _ _ _ C)).
  pose proof (avail_nonneg (pages_src h)). destruct C. lia.
Qed.

Lemma ctx_free_range m0 h bs1 s bs2 pf mid :
  ctx m0 h bs1 s bs2 pf mid ->
  (forall x, x ∈ free_addrs HEAP_VIRT_START bs1 -> x + 16 <= HEAP_VIRT_START + blen bs1) /\
  (forall x, x ∈ free_addrs (HEAP_VIRT_START + blen bs1 + s) bs2 ->
             HEAP_VIRT_START + blen bs1 + s <= x).
Proof.
  intros []. split; intros x Hx; apply free_addrs_range in Hx; try done; lia.
Qed.

(** Words of payloads around the region are outside it, and are not the next header. *)
Lemma ctx_used_range m0 h bs1 s bs2 pf mid x t y :
  ctx m0 h bs1 s bs2 pf mid ->
  (x, t) ∈ used_at HEAP_VIRT_START bs1 ++ used_at (HEAP_VIRT_START + blen bs1 + s) bs2 ->
  x + 4 <= y < x + t - 4 ->
  y < HEAP_VIRT_START + blen bs1 \/ HEAP_VIRT_START + blen bs1 + s + 4 <= y.
Proof.
  intros [] [Hx|Hx]%elem_of_app Hy; apply used_at_range in Hx; try done; lia.
Qed.

Lemma ctx_fuel m0 h bs1 s bs2 pf mid :
  ctx m0 h bs1 s bs2 pf mid ->
  (length (free_addrs HEAP_VIRT_START bs1 ++ mid ++
           free_addrs (HEAP_VIRT_START + blen bs1 + s) bs2) < list_fuel h)%nat.
Proof.
  intros [Hw1 Hw2]. unfold list_fuel. rewrite !length_app.
  pose proof (free_addrs_length HEAP_VIRT_START _ Hw1).
  pose proof (free_addrs_length (HEAP_VIRT_START + blen bs1 + s) _ Hw2).
  unfold MIN_BLOCK_SIZE. zmod.
Qed.

(** The general step: the memory changes inside the region, and at link words of the list. *)
Lemma ctx_step m0 h h' bs1 s bs2 pf mid mid' :
  ctx m0 h bs1 s bs2 pf mid ->
  same_globals h h' ->
  Forall (fun z => HEAP_VIRT_START + blen bs1 <= z /\
                   z + 16 <= HEAP_VIRT_START + blen bs1 + s) mid' ->
  16 * Z.of_nat (length mid') <= s ->
  llist (fb_next (hmem h')) (free_list h')
    (free_addrs HEAP_VIRT_START bs1 ++ mid' ++ free_addrs (HEAP_VIRT_START + blen bs1 + s) bs2) ->
  (forall y, ~ (HEAP_VIRT_START + blen bs1 <= y < HEAP_VIRT_START + blen bs1 + s) ->
     (forall x, x ∈ free_addrs HEAP_VIRT_START bs1 -> y <> x + 4) ->
     (forall x, x ∈ free_addrs (HEAP_VIRT_START + blen bs1 + s) bs2 -> y <> x + 4) ->
     rd (hmem h') y = rd (hmem h) y) ->
  ctx m0 h' bs1 s bs2 pf mid'.
Proof.
  intros C (Eb & Ee & Ep) Hmid Hlen Hl Hm.
  pose proof (ctx_free_range _ _ _ _ _ _ _ C) as [F1 F2]. pose proof (ctx_range _ _ _ _ _ _ _ C).
  pose proof C as []. constructor; rewrite ?Eb, ?Ee, ?Ep; try done.
  - eapply tiles_frame; [done| |done]. intros y Hy Hx. apply Hm; [lia|done|].
    intros x Hx'%F2. lia.
  - eapply tiles_frame; [done| |done]. intros y Hy Hx. apply Hm; [lia| |done].
    intros x Hx'%F1. lia.
  - intros x t y Hx Hy. rewrite <- (c_kept0 x t y Hx Hy).
    pose proof (ctx_used_range _ _ _ _ _ _ _ _ _ _ C Hx Hy).
    apply elem_of_app in Hx as [Hx|Hx].
    + pose proof (used_at_range _ _ _ _ c_wf3 Hx). apply Hm; [lia| |].
      * intros z Hz. by eapply (used_not_link HEAP_VIRT_START bs1).
      * intros z Hz%F2. lia.
    + pose proof (used_at_range _ _ _ _ c_wf4 Hx). apply Hm; [lia| |].
      * intros z Hz%F1. lia.
      * intros z Hz. by eapply (used_not_link _ bs2).
Qed.

(** A store inside the region, away from the links of [mid]. *)
Lemma ctx_store m0 h bs1 s bs2 pf mid w v :
  ctx m0 h bs1 s bs2 pf mid ->
  HEAP_VIRT_START + blen bs1 <= w < HEAP_VIRT_START + blen bs1 + s ->
  (forall z, z ∈ mid -> w <> z + 4) ->
  ctx m0 (store h w v) bs1 s bs2 pf mid.
Proof.
  intros C Hw Hz. pose proof (ctx_free_range _ _ _ _ _ _ _ C) as [F1 F2].
  eapply ctx_step; [done| | | | |]; [by split|by destruct C|by destruct C| |].
  - eapply llist_ext; [|by destruct C]. intros x Hx. unfold fb_next, SIZEOF_HEADER. cbn.
    rewrite rd_wr_ne; [done|].
    apply elem_of_app in Hx as [Hx%F1|[Hx|Hx%F2]%elem_of_app]; [lia|by apply Hz|lia].
  - intros y Hy _ _. cbn. apply rd_wr_ne. lia.
Qed.

(** Linking an address of the region into the list. *)
Lemma ctx_insert m0 h bs1 s bs2 pf z :
  ctx m0 h bs1 s bs2 pf [] ->
  HEAP_VIRT_START + blen bs1 <= z -> z + 16 <= HEAP_VIRT_START + blen bs1 + s ->
  exists h', insert_free z h = Some h' /\ ctx m0 h' bs1 s bs2 pf [z] /\ same_globals h h' /\
    (forall y, HEAP_VIRT_START + blen bs1 <= y < HEAP_VIRT_START + blen bs1 + s -> y <> z + 4 ->
       rd (hmem h') y = rd (hmem h) y).
Proof.
  intros C Hz1 Hz2. pose proof (ctx_free_range _ _ _ _ _ _ _ C) as [F1 F2].
  pose proof (ctx_range _ _ _ _ _ _ _ C). pose proof (ctx_fuel _ _ _ _ _ _ _ C) as Hf.
  edestruct (insert_free_spec h z) as (h' & -> & Hl & Hg & Hm);
    [by apply (c_list _ _ _ _ _ _ _ C)|by intros x ?%F1; lia|by intros x ?%F2; lia| |done|].
  { unfold HEAP_VIRT_START in *. lia. }
  exists h'. splits; [done| |by destruct Hg as (? & ? & ?)..|].
  - eapply ctx_step; [done..| | |done|].
    + by repeat constructor.
    + simpl. lia.
    + intros y Hy Hy1 Hy2. apply Hm. intros x [->|Hx]%elem_of_cons; [lia|by apply Hy1].
  - intros y Hy Hne. apply Hm. intros x [->|Hx]%elem_of_cons; [done|]. apply F1 in Hx. lia.
Qed.

(** Unlinking the address of the region. *)
Lemma ctx_remove m0 h bs1 s bs2 pf z :
  ctx m0 h bs1 s bs2 pf [z] ->
  exists h', remove_free z h = Some h' /\ ctx m0 h' bs1 s bs2 pf [] /\ same_globals h h' /\
    (forall y, HEAP_VIRT_START + blen bs1 <= y < HEAP_VIRT_START + blen bs1 + s ->
       rd (hmem h') y = rd (hmem h) y).
Proof.
  intros C. pose proof (ctx_free_range _ _ _ _ _ _ _ C) as [F1 F2].
  pose proof (ctx_fuel _ _ _ _ _ _ _ C) as Hf.
  edestruct (remove_free_spec h z) as (h' & -> & Hl & Hg & Hm);
    [by apply (c_list _ _ _ _ _ _ _ C)|done|].
  exists h'. splits; [done| |by destruct Hg as (? & ? & ?)..|].
  - eapply ctx_step; [done..| | |done|]; [done|by destruct C|].
    intros y Hy Hy1 Hy2. by apply Hm.
  - intros y Hy. apply Hm. intros x Hx%F1. lia.
Qed.

Lemma block_in_heap_iff h a :
  HEAP_VIRT_START <= a < 2 ^ 32 - 4 -> block_in_heap h a = (a + 4 <=? heap_end h).
Proof.
  intros. unfold block_in_heap, SIZEOF_HEADER. rewrite wrap32_small by (unfold HEAP_VIRT_START in *; lia).
  by destruct (Z.leb_spec HEAP_VIRT_START a); [|lia].
Qed.

(** Updating the PREV_FREE bit of the block after the region, when there is one. *)
Lemma ctx_next m0 h bs1 s bs2 pf pf' mid (g : Z -> Z) :
  ctx m0 h bs1 s bs2 pf mid ->
  (forall t f b, wf_size t -> g (hdr t f b) = hdr t f pf') ->
  let nxt := HEAP_VIRT_START + blen bs1 + s in
  let h' := if block_in_heap h nxt then store h nxt (g (rd (hmem h) nxt)) else h in
  ctx m0 h' bs1 s bs2 pf' mid /\ same_globals h h' /\
  (forall y, HEAP_VIRT_START + blen bs1 <= y < nxt -> rd (hmem h') y = rd (hmem h) y).
Proof.
  intros C Hg nxt h'. pose proof (ctx_free_range _ _ _ _ _ _ _ C) as [F1 F2].
  pose proof (ctx_range _ _ _ _ _ _ _ C) as (? & ? & ? & ? & ?).
  subst h' nxt. rewrite block_in_heap_iff by (unfold HEAP_MAX, HEAP_VIRT_START in *; lia).
  destruct bs2 as [|b bs2].
  - simpl in *. destruct (Z.leb_spec (HEAP_VIRT_START + blen bs1 + s + 4) (heap_end h)); [lia|].
    splits; [|done..]. by destruct C; constructor.
  - assert (Hb : wf_size (bsz b)) by (destruct C as [_ C2]; by inv C2).
    assert (0 <= blen bs2) by (apply blen_nonneg; destruct C as [_ C2]; by inv C2).
    simpl in *. destruct Hb as [Hb16 Hb4].
    destruct (Z.leb_spec (HEAP_VIRT_START + blen bs1 + s + 4) (heap_end h)) as [_|]; [|lia].
    splits; [|done..|].
    + pose proof C as []. simpl in *. destruct c_t4 as (Hh & Hft & Ht).
      constructor; try done; cbn.
      * eapply tiles_frame; [done| |done]. intros y Hy _. apply rd_wr_ne. lia.
      * rewrite rd_wr_eq, Hh, Hg by done. splits; [done|by rewrite rd_wr_ne by lia|].
        inv c_wf4. eapply tiles_frame; [done| |done]. intros y Hy _. apply rd_wr_ne. lia.
      * eapply llist_ext; [|done]. intros x Hx. unfold fb_next, SIZEOF_HEADER.
        rewrite rd_wr_ne; [done|]. rewrite Forall_forall in c_mid0.
        apply elem_of_app in Hx as [Hx%F1|[Hx%c_mid0|Hx%F2]%elem_of_app]; lia.
      * intros x t y Hx Hy. rewrite <- (c_kept0 x t y Hx Hy). apply rd_wr_ne.
        pose proof (ctx_used_range _ _ _ _ _ _ _ _ _ _ C Hx Hy). lia.
    + intros y Hy. cbn. apply rd_wr_ne. lia.
Qed.

End ctx.
