(* ===== verification/HeapSpec.v ===== *)
(** * Correctness of kmalloc, kfree and grow_heap

    The heap refines a list of blocks: [kmalloc] is first fit with splitting on that list,
    [kfree] is release with coalescing of both neighbours, and neither touches the payload
    of any other allocated block. *)

From S2P Require Import Prelude LList Heap HeapInv HeapCtx.

(** ** The abstract allocator *)

(** What an allocation of [total] bytes makes of a free block of [s] bytes. *)
Definition carve (total s : Z) : list blk :=
  if MIN_BLOCK_SIZE <=? s - total then [Blk total false; Blk (s - total) true]
  else [Blk s false].

(** The first free block of at least [total] bytes, with what surrounds it. *)
Fixpoint first_fit (total : Z) (bs : list blk) : option (list blk * Z * list blk) :=
  match bs with
  | [] => None
  | b :: r =>
      if bfree b && (total <=? bsz b) then Some ([], bsz b, r)
      else match first_fit total r with
           | Some (bs1, s, bs2) => Some (b :: bs1, s, bs2)
           | None => None
           end
  end.

(** A free block of [n] bytes joined with a free block at the end of [bs]. *)
Definition join_left (bs : list blk) (n : Z) : list blk * Z :=
  match last bs with
  | Some (Blk p true) => (removelast bs, p + n)
  | _ => (bs, n)
  end.

Definition join_right (n : Z) (bs : list blk) : Z * list blk :=
  match bs with Blk p true :: r => (n + p, r) | _ => (n, bs) end.

(** The block list after [grow_heap] added [n] bytes. *)
Definition extend (bs : list blk) (n : Z) : list blk :=
  let '(l, m) := join_left bs n in l ++ [Blk m true].

(** The block list after releasing a block of [s] bytes between [bs1] and [bs2]. *)
Definition release (bs1 : list blk) (s : Z) (bs2 : list blk) : list blk :=
  let '(l, n) := join_left bs1 s in
  let '(n, r) := join_right n bs2 in
  l ++ Blk n true :: r.

Section spec.
Context {P : Type} `{PageSource P}.
Implicit Types h : heap P.

(** ** Entering and leaving a context *)

Lemma inv_ctx h bs1 b bs2 :
  heap_inv h (bs1 ++ b :: bs2) ->
  let a := HEAP_VIRT_START + blen bs1 in
  ctx (hmem h) h bs1 (bsz b) bs2 (bfree b) (if bfree b then [a] else []) /\
  wf_size (bsz b) /\ rd (hmem h) a = hdr (bsz b) (bfree b) (last_free false bs1) /\
  rd (hmem h) (a + bsz b - 4) = bsz b /\
  ~ (last_free false bs1 /\ bfree b) /\ no_adj (bfree b) bs2.
Proof.
  intros [Hwf He Hb Hbd Ht Ha Hl] a.
  apply Forall_app in Hwf as [Hw1 [Hw Hw2]%Forall_cons].
  rewrite blen_app in He, Hbd. simpl in He, Hbd.
  apply tiles_app in Ht as [Ht1 (Hh & Hf & Ht2)].
  apply no_adj_app in Ha as [Ha1 [Ha Ha2]]. rewrite free_addrs_app in Hl.
  splits; try done. pose proof Hw as [? _].
  constructor; try done; try lia.
  - by destruct bs2 as [|c bs2]; simpl in *; [|destruct Ha2; split; [tauto|]].
  - destruct (bfree b); repeat constructor; lia.
  - destruct (bfree b); simpl; lia.
Qed.

Lemma ctx_inv m0 h bs1 s bs2 mids :
  let lf := last_free false bs1 in
  let a := HEAP_VIRT_START + blen bs1 in
  ctx m0 h bs1 s bs2 (last_free lf mids) (free_addrs a mids) ->
  blen mids = s -> Forall wf_blk mids -> tiles (hmem h) a lf mids ->
  no_adj lf mids -> no_adj (last_free lf mids) bs2 ->
  heap_inv h (bs1 ++ mids ++ bs2).
Proof.
  intros lf a [] <- Hwf Ht Ha Ha2. constructor; try done.
  - by rewrite !Forall_app.
  - rewrite !blen_app. lia.
  - rewrite !blen_app. lia.
  - rewrite !tiles_app. by splits.
  - rewrite !no_adj_app. by splits.
  - by rewrite !free_addrs_app.
Qed.

Lemma inv_bound h bs : heap_inv h bs -> 0 <= blen bs <= HEAP_MAX.
Proof.
  intros []. split; [by apply blen_nonneg|]. pose proof (avail_nonneg (pages_src h)). lia.
Qed.

Lemma option_bind_Some {A B} (f : A -> option B) x : Some x ≫= f = f x.
Proof. done. Qed.

(** Word arithmetic on heap addresses never wraps. *)
Ltac no_wrap :=
  repeat match goal with
  | |- context [wrap32 ?x] =>
      rewrite (wrap32_small x) by (unfold HEAP_VIRT_START, HEAP_MAX in *; lia)
  end.

Ltac wf_list := repeat (apply Forall_cons_2; [done|]); apply Forall_nil_2.

Lemma block_size_hdr m a s f pf :
  wf_size s -> s <= HEAP_MAX -> rd m a = hdr s f pf -> block_size m a = s.
Proof. intros ? ? E. unfold block_size. rewrite E. apply hdr_size; [done|unfold HEAP_MAX in *; lia]. Qed.

(** ** kmalloc on a chosen block *)

Lemma split_block_spec m0 h bs1 s bs2 total f lf :
  let a := HEAP_VIRT_START + blen bs1 in
  ctx m0 h bs1 s bs2 true [] -> rd (hmem h) a = hdr s f lf ->
  wf_size s -> wf_size total -> wf_size (s - total) ->
  exists h', split_block a total (s - total) h = Some h' /\
    ctx m0 h' bs1 s bs2 true [a + total] /\ same_globals h h' /\
    rd (hmem h') a = hdr total false lf /\
    rd (hmem h') (a + total) = hdr (s - total) true false /\
    rd (hmem h') (a + s - 4) = s - total.
Proof.
  intros a C Hh Hws Hwt Hwr. pose proof (ctx_range _ _ _ _ _ _ _ C) as (? & ? & ? & ? & Hend).
  pose proof Hwt as [? ?]. pose proof Hwr as [? ?]. pose proof Hws as [? ?].
  unfold split_block, BLOCK_FLAG_FREE, BLOCK_FLAG_PREV_FREE. no_wrap. rewrite (hdr_free_new _ Hwr).
  eapply (ctx_store _ _ _ _ _ _ _ (a + total) (hdr (s - total) true false)) in C as C1;
    [|subst a; lia|set_solver].
  remember (store h (a + total) (hdr (s - total) true false)) as h1 eqn:E1.
  assert (R1 : rd (hmem h1) (a + total) = hdr (s - total) true false) by (subst h1; apply rd_wr_eq).
  assert (R1a : rd (hmem h1) a = hdr s f lf) by (subst h1; cbn; rewrite rd_wr_ne by lia; done).
  unfold block_after. rewrite (block_size_hdr _ _ _ _ _ Hwr) by (done || lia). no_wrap.
  replace (a + total + (s - total)) with (HEAP_VIRT_START + blen bs1 + s) by (subst a; lia).
  edestruct (ctx_next _ _ _ _ _ _ true _ (fun w => Z.lor w 2) C1) as (C2 & G2 & M2).
  { intros. by apply hdr_lor2. }
  cbv zeta in C2, G2, M2. fold (update_next (fun w => Z.lor w 2) (HEAP_VIRT_START + blen bs1 + s) h1) in C2, G2, M2.
  remember (update_next _ _ h1) as h2 eqn:E2.
  rewrite <- M2 in R1, R1a by (subst a; lia).
  unfold block_footer. rewrite (block_size_hdr _ _ _ _ _ Hwr) by (done || lia).
  unfold SIZEOF_SIZE_T. no_wrap. replace (a + total + (s - total) - 4) with (a + s - 4) by lia.
  eapply (ctx_store _ _ _ _ _ _ _ (a + s - 4) (s - total)) in C2 as C3; [|subst a; lia|set_solver].
  remember (store h2 (a + s - 4) (s - total)) as h3 eqn:E3.
  destruct (ctx_insert _ _ _ _ _ _ (a + total) C3) as (h4 & -> & C4 & G4 & M4); [subst a; lia..|].
  rewrite option_bind_Some.
  assert (R4a : rd (hmem h4) a = hdr s f lf).
  { rewrite M4 by (subst a; lia). subst h3. cbn. by rewrite rd_wr_ne by lia. }
  rewrite R4a.
  rewrite hdr_prev_bit, hdr_used_mk by done.
  eexists; splits; [done| | | | |].
  - apply ctx_store; [done|subst a; lia|]. intros z ->%list_elem_of_singleton. lia.
  - eapply same_globals_trans; [|apply same_globals_store].
    eapply same_globals_trans; [|exact G4]. subst h3.
    eapply same_globals_trans; [|apply same_globals_store].
    eapply same_globals_trans; [|exact G2]. subst h1. apply same_globals_store.
  - cbn. apply rd_wr_eq.
  - cbn. rewrite rd_wr_ne, M4 by (subst a; lia). subst h3. cbn. by rewrite rd_wr_ne by lia.
  - cbn. rewrite rd_wr_ne, M4 by (subst a; lia). subst h3. cbn. apply rd_wr_eq.
Qed.

(** Writing header and footer of the region's first block, of [t] bytes. *)
Lemma ctx_hdr_ftr m0 h bs1 s bs2 pf mid t f lf :
  let a := HEAP_VIRT_START + blen bs1 in
  ctx m0 h bs1 s bs2 pf mid -> wf_size t -> t <= s ->
  (forall z, z ∈ mid -> z = a \/ a + t <= z) ->
  let h' := store (store h a (hdr t f lf)) (a + t - 4) t in
  ctx m0 h' bs1 s bs2 pf mid /\ rd (hmem h') a = hdr t f lf /\ rd (hmem h') (a + t - 4) = t /\
  (forall y, y <> a -> y <> a + t - 4 -> rd (hmem h') y = rd (hmem h) y).
Proof.
  intros a C [? ?] Hts Hmid h'. splits.
  - apply ctx_store; [apply ctx_store; [done|subst a; lia|]|subst a; lia|];
      intros z Hz%Hmid; lia.
  - cbn. rewrite rd_wr_ne by lia. apply rd_wr_eq.
  - apply rd_wr_eq.
  - intros y ? ?. cbn. by rewrite !rd_wr_ne by lia.
Qed.

Lemma mark_used_split m0 h bs1 s bs2 total lf :
  let a := HEAP_VIRT_START + blen bs1 in
  ctx m0 h bs1 s bs2 true [a + total] ->
  wf_size total -> wf_size (s - total) ->
  rd (hmem h) a = hdr total false lf ->
  rd (hmem h) (a + total) = hdr (s - total) true false ->
  rd (hmem h) (a + s - 4) = s - total ->
  let h' := mark_used a h in
  ctx m0 h' bs1 s bs2 true [a + total] /\ same_globals h h' /\
  tiles (hmem h') a lf [Blk total false; Blk (s - total) true].
Proof.
  intros a C Hwt Hwr Ra Rs Rf. pose proof (ctx_range _ _ _ _ _ _ _ C) as (? & ? & ? & ? & ?).
  pose proof Hwt as [? ?]. pose proof Hwr as [? ?].
  unfold mark_used, BLOCK_FLAG_FREE, BLOCK_FLAG_PREV_FREE. rewrite Ra, hdr_clr1 by done.
  unfold block_footer, block_after, SIZEOF_SIZE_T.
  rewrite !(block_size_hdr (hmem (store h a _)) a total false lf) by (apply rd_wr_eq || done || lia).
  no_wrap.
  destruct (ctx_hdr_ftr _ _ _ _ _ _ _ total false lf C) as (C1 & R1 & R2 & M1); [done|lia| |].
  { intros z ->%list_elem_of_singleton. subst a. lia. }
  fold a in C1, R1, R2, M1. cbv zeta in C1, R1, R2, M1.
  remember (store (store h a _) _ total) as h1 eqn:E1.
  rewrite (block_size_hdr _ _ _ _ _ Hwt) by (exact R1 || lia). no_wrap.
  rewrite <- M1 in Rs, Rf by lia.
  unfold update_next. rewrite block_in_heap_iff by (unfold HEAP_VIRT_START, HEAP_MAX in *; lia).
  assert (Ee : heap_end h1 = heap_end h) by by subst h1.
  destruct (Z.leb_spec (a + total + 4) (heap_end h1)) as [_|]; [|subst a; lia].
  rewrite Rs, hdr_clr2 by done. splits.
  - apply ctx_store; [done|subst a; lia|]. intros z ->%list_elem_of_singleton. lia.
  - by subst h1.
  - cbn. rewrite rd_wr_eq, !rd_wr_ne by lia.
    replace (a + total + (s - total) - 4) with (a + s - 4) by lia. by rewrite Rf.
Qed.

Lemma mark_used_whole m0 h bs1 s bs2 f lf :
  let a := HEAP_VIRT_START + blen bs1 in
  ctx m0 h bs1 s bs2 true [] -> wf_size s -> rd (hmem h) a = hdr s f lf ->
  let h' := mark_used a h in
  ctx m0 h' bs1 s bs2 false [] /\ same_globals h h' /\ tiles (hmem h') a lf [Blk s false].
Proof.
  intros a C Hws Ra. pose proof (ctx_range _ _ _ _ _ _ _ C) as (? & ? & ? & ? & ?).
  pose proof Hws as [? ?].
  unfold mark_used, BLOCK_FLAG_FREE, BLOCK_FLAG_PREV_FREE. rewrite Ra, hdr_clr1 by done.
  unfold block_footer, block_after, SIZEOF_SIZE_T.
  rewrite !(block_size_hdr (hmem (store h a _)) a s false lf) by (apply rd_wr_eq || done || lia).
  no_wrap.
  destruct (ctx_hdr_ftr _ _ _ _ _ _ _ s false lf C) as (C1 & R1 & R2 & M1); [done|lia|set_solver|].
  fold a in C1, R1, R2, M1. cbv zeta in C1, R1, R2, M1.
  remember (store (store h a _) _ s) as h1 eqn:E1.
  rewrite (block_size_hdr _ _ _ _ _ Hws) by (exact R1 || lia). no_wrap.
  edestruct (ctx_next _ _ _ _ _ _ false _ (fun w => Z.land w (Z.lnot 2)) C1) as (C2 & G2 & M2).
  { intros. by apply hdr_clr2. }
  splits; [done| |].
  - eapply same_globals_trans; [|exact G2]. subst h1. by split.
  - unfold update_next. cbn -[Z.lnot]. unfold a. rewrite !M2 by (subst a; lia). by splits.
Qed.

Lemma kmalloc_take_spec h bs1 s bs2 total :
  heap_inv h (bs1 ++ Blk s true :: bs2) -> wf_size total -> total <= s ->
  exists h', kmalloc_take (HEAP_VIRT_START + blen bs1) total h
             = Some (HEAP_VIRT_START + blen bs1 + 4, h') /\
    heap_inv h' (bs1 ++ carve total s ++ bs2) /\ same_globals h h' /\
    payload_kept (used_at HEAP_VIRT_START bs1 ++
                  used_at (HEAP_VIRT_START + blen bs1 + s) bs2) (hmem h) (hmem h').
Proof.
  intros Hi Hwt Hts.
  destruct (inv_ctx _ _ _ _ Hi) as (C & Hws & Hh & _ & Hadj & Hadj2). simpl in *.
  pose proof (ctx_range _ _ _ _ _ _ _ C) as (? & ? & ? & ? & Hend).
  assert (Hlf : last_free false bs1 = false) by (by destruct (last_free false bs1); [destruct Hadj|]).
  unfold kmalloc_take.
  destruct (ctx_remove _ _ _ _ _ _ _ C) as (h1 & -> & C1 & G1 & M1).
  rewrite option_bind_Some. pose proof Hws as [? ?]. pose proof Hwt as [? ?].
  rewrite <- M1 in Hh by lia. cbv zeta.
  rewrite (block_size_hdr _ _ _ _ _ Hws) by (exact Hh || lia).
  unfold block_payload, SIZEOF_HEADER. no_wrap.
  unfold carve, MIN_BLOCK_SIZE. destruct (Z.leb_spec 16 (s - total)) as [Hr|Hr].
  - assert (Hwr : wf_size (s - total)) by by apply wf_size_sub.
    destruct (split_block_spec _ _ _ _ _ _ _ _ C1 Hh Hws Hwt Hwr)
      as (h2 & -> & C2 & G2 & R1 & R2 & R3).
    destruct (mark_used_split _ _ _ _ _ _ _ C2 Hwt Hwr R1 R2 R3) as (C3 & G3 & T3).
    eexists; splits; [done| |eauto using same_globals_trans|by destruct C3].
    apply (ctx_inv (hmem h) _ _ s); [done|simpl; lia|by wf_list|done| |done].
    rewrite Hlf. simpl. tauto.
  - destruct (mark_used_whole _ _ _ _ _ _ _ C1 Hws Hh) as (C3 & G3 & T3).
    eexists; splits; [done| |eauto using same_globals_trans|by destruct C3].
    apply (ctx_inv (hmem h) _ _ s); [done|simpl; lia|by wf_list|done| |].
    + simpl. tauto.
    + by destruct C.
Qed.

(** ** Freeing: absorbing the neighbours *)

Lemma ctx_absorb_prev m0 h bs1 p s bs2 pf :
  ctx m0 h (bs1 ++ [Blk p true]) s bs2 pf [] ->
  let a := HEAP_VIRT_START + blen bs1 in
  ctx m0 h bs1 (p + s) bs2 pf [a] /\ wf_size p /\ last_free false bs1 = false /\
  rd (hmem h) a = hdr p true (last_free false bs1) /\ rd (hmem h) (a + p - 4) = p.
Proof.
  intros [Hw1 Hw2 ? He ? Hbd Ht1 Ht2 Ha1 Ha2 ? ? Hl Hk] a.
  apply Forall_app in Hw1 as [Hw1 [Hwp _]%Forall_cons].
  apply tiles_app in Ht1 as [Ht1 (Hh & Hf & _)]. apply no_adj_app in Ha1 as [Ha1 [Ha _]].
  rewrite blen_app in He, Hbd, Ht2, Hl, Hk. rewrite used_at_app in Hk. rewrite free_addrs_app in Hl.
  simpl in *. pose proof Hwp as [? _]. simpl in *.
  rewrite app_nil_r in Hk.
  replace (HEAP_VIRT_START + (blen bs1 + (p + 0)) + s) with (HEAP_VIRT_START + blen bs1 + (p + s)) in * by lia.
  splits; try done.
  - constructor; try done; try lia.
    + repeat constructor; subst a; lia.
    + simpl. lia.
    + by rewrite <- app_assoc in Hl.
  - by destruct (last_free false bs1); [destruct Ha|].
Qed.

Lemma ctx_absorb_next m0 h bs1 s n bs2 pf :
  ctx m0 h bs1 s (Blk n true :: bs2) pf [] ->
  let nxt := HEAP_VIRT_START + blen bs1 + s in
  ctx m0 h bs1 (s + n) bs2 true [nxt] /\ wf_size n /\
  rd (hmem h) nxt = hdr n true pf /\ no_adj true bs2.
Proof.
  intros [Hw1 Hw2 ? He ? Hbd Ht1 Ht2 Ha1 Ha2 ? ? Hl Hk] nxt.
  apply Forall_cons in Hw2 as [Hwn Hw2]. destruct Ht2 as (Hh & Hf & Ht2), Ha2 as [_ Ha2].
  simpl in *. pose proof Hwn as [? _]. simpl in *.
  replace (HEAP_VIRT_START + blen bs1 + s + n) with (HEAP_VIRT_START + blen bs1 + (s + n)) in * by lia.
  splits; try done.
  constructor; try done; try lia.
  - by destruct bs2 as [|c bs2]; simpl in *; [|destruct Ha2; split; [tauto|]].
  - repeat constructor; subst nxt; lia.
  - simpl. lia.
Qed.

Lemma block_in_heap_true m0 h bs1 s bs2 pf mid x :
  ctx m0 h bs1 s bs2 pf mid -> HEAP_VIRT_START <= x -> x + 4 <= heap_end h ->
  block_in_heap h x = true.
Proof.
  intros C ? ?. pose proof (ctx_range _ _ _ _ _ _ _ C).
  rewrite block_in_heap_iff by (unfold HEAP_VIRT_START, HEAP_MAX in *; lia). by apply Z.leb_le.
Qed.

Lemma kfree_merge_prev_spec m0 h bs1 s bs2 pf :
  let a := HEAP_VIRT_START + blen bs1 in
  ctx m0 h bs1 s bs2 pf [] -> wf_size s ->
  rd (hmem h) a = hdr s false (last_free false bs1) ->
  let '(l, n) := join_left bs1 s in
  exists h' f, kfree_merge_prev a h = Some (HEAP_VIRT_START + blen l, h') /\
    ctx m0 h' l n bs2 pf [] /\ wf_size n /\ last_free false l = false /\ same_globals h h' /\
    rd (hmem h') (HEAP_VIRT_START + blen l) = hdr n f false.
Proof.
  intros a C Hws Ra. pose proof (ctx_range _ _ _ _ _ _ _ C) as (? & ? & ? & ? & ?).
  pose proof Hws as [? ?].
  unfold kfree_merge_prev, BLOCK_FLAG_PREV_FREE. rewrite Ra, hdr_is_prev by done.
  unfold join_left. destruct bs1 as [|[p f] bs1 _] using rev_ind.
  { simpl. exists h, false. by splits. }
  rewrite last_snoc, last_free_app in *. simpl in Ra. destruct f.
  2:{ exists h, false. splits; try done. by rewrite last_free_app. }
  destruct (ctx_absorb_prev _ _ _ _ _ _ _ C) as (C1 & Hwp & Hlf & R1 & R2).
  rewrite removelast_last.
  set (a' := HEAP_VIRT_START + blen bs1) in *. pose proof Hwp as [? ?].
  pose proof (ctx_range _ _ _ _ _ _ _ C1) as (? & ? & ? & ? & ?).
  unfold SIZEOF_SIZE_T. assert (Ea : a = a' + p) by (subst a a'; rewrite blen_app; simpl; lia).
  clearbody a. subst a. no_wrap.
  rewrite R2. no_wrap. replace (a' + p - p) with a' by lia. no_wrap. rewrite Z.eqb_refl.
  rewrite (block_in_heap_true _ _ _ _ _ _ _ _ C1) by (subst a'; lia). simpl andb. cbv iota.
  destruct (ctx_remove _ _ _ _ _ _ _ C1) as (h1 & -> & C2 & G & M). fold a' in M.
  rewrite option_bind_Some, !M by lia.
  rewrite (block_size_hdr _ (a' + p) s false true) by (done || lia || by rewrite M by lia).
  unfold BLOCK_FLAG_FREE, BLOCK_FLAG_PREV_FREE. no_wrap.
  rewrite R1, hdr_prev_bit, hdr_free_mk by (done || by apply wf_size_add).
  eexists _, true. splits; [done|..].
  - apply ctx_store; [done|subst a'; lia|set_solver].
  - by apply wf_size_add.
  - done.
  - eapply same_globals_trans; [done|]. apply same_globals_store.
  - cbn. rewrite Hlf. apply rd_wr_eq.
Qed.

Lemma kfree_merge_next_spec m0 h bs1 s bs2 pf f lf :
  let a := HEAP_VIRT_START + blen bs1 in
  ctx m0 h bs1 s bs2 pf [] -> wf_size s -> rd (hmem h) a = hdr s f lf ->
  let '(n, r) := join_right s bs2 in
  exists h' pf' f', kfree_merge_next a h = Some h' /\
    ctx m0 h' bs1 n r pf' [] /\ wf_size n /\ no_adj true r /\ same_globals h h' /\
    rd (hmem h') a = hdr n f' lf.
Proof.
  intros a C Hws Ra. pose proof (ctx_range _ _ _ _ _ _ _ C) as (? & ? & ? & ? & Hend).
  pose proof Hws as [? ?].
  unfold kfree_merge_next, block_after. rewrite (block_size_hdr _ _ _ _ _ Hws) by (exact Ra || lia).
  no_wrap. destruct bs2 as [|[n g] bs2]; simpl join_right.
  { rewrite block_in_heap_iff by (unfold HEAP_VIRT_START, HEAP_MAX in *; lia). simpl in Hend.
    destruct (Z.leb_spec (a + s + 4) (heap_end h)); [subst a; lia|]. simpl. exists h, pf, f. by splits. }
  destruct g.
  - destruct (ctx_absorb_next _ _ _ _ _ _ _ C) as (C1 & Hwn & R1 & Hadj). fold a in C1, R1.
    pose proof (ctx_range _ _ _ _ _ _ _ C1) as (? & ? & ? & ? & ?). pose proof Hwn as [? ?].
    rewrite (block_in_heap_true _ _ _ _ _ _ _ _ C1) by (subst a; lia).
    unfold block_is_free, BLOCK_FLAG_FREE, BLOCK_FLAG_PREV_FREE.
    rewrite R1, hdr_is_free by done. simpl andb. cbv iota.
    destruct (ctx_remove _ _ _ _ _ _ _ C1) as (h1 & -> & C2 & G & M). fold a in M.
    rewrite option_bind_Some. rewrite <- M in Ra, R1 by lia.
    rewrite (block_size_hdr _ _ _ _ _ Hws) by (exact Ra || lia).
    rewrite (block_size_hdr _ _ _ _ _ Hwn) by (exact R1 || lia). no_wrap.
    rewrite Ra, hdr_prev_bit, hdr_free_mk by (done || by apply wf_size_add).
    eexists _, true, true. splits; [done|..].
    + apply ctx_store; [done|subst a; lia|set_solver].
    + by apply wf_size_add.
    + done.
    + eapply same_globals_trans; [done|]. apply same_globals_store.
    + apply rd_wr_eq.
  - destruct (c_t2 _ _ _ _ _ _ _ C) as (R1 & _ & _). fold a in R1. simpl in R1.
    unfold block_is_free, BLOCK_FLAG_FREE. rewrite R1, hdr_is_free by (by destruct C as [_ C2]; inv C2).
    rewrite andb_false_r. exists h, pf, f. splits; try done. destruct C. simpl in *. tauto.
Qed.

(** Footer, link and insertion of a region whose header already says it is free. *)
Lemma link_free_spec m0 h bs1 s bs2 :
  let a := HEAP_VIRT_START + blen bs1 in
  ctx m0 h bs1 s bs2 true [] -> wf_size s -> last_free false bs1 = false -> no_adj true bs2 ->
  rd (hmem h) a = hdr s true false ->
  exists h', insert_free a (store (store h (block_footer (hmem h) a) s) (a + SIZEOF_HEADER) 0)
             = Some h' /\
    heap_inv h' (bs1 ++ Blk s true :: bs2) /\ same_globals h h' /\
    payload_kept (used_at HEAP_VIRT_START bs1 ++
                  used_at (HEAP_VIRT_START + blen bs1 + s) bs2) m0 (hmem h').
Proof.
  intros a C Hws Hlf Hadj Ra. pose proof (ctx_range _ _ _ _ _ _ _ C) as (? & ? & ? & ? & ?).
  pose proof Hws as [? ?]. unfold block_footer, SIZEOF_SIZE_T, SIZEOF_HEADER.
  rewrite (block_size_hdr _ _ _ _ _ Hws) by (exact Ra || lia). no_wrap.
  eapply (ctx_store _ _ _ _ _ _ _ (a + s - 4) s) in C as C1; [|subst a; lia|set_solver].
  eapply (ctx_store _ _ _ _ _ _ _ (a + 4) 0) in C1 as C2; [|subst a; lia|set_solver].
  destruct (ctx_insert _ _ _ _ _ _ a C2) as (h' & -> & C3 & G & M); [subst a; lia..|].
  exists h'. splits; [done| | |by destruct C3].
  - change (Blk s true :: bs2) with ([Blk s true] ++ bs2).
    apply (ctx_inv m0 _ _ s); [done|simpl; lia|by wf_list| |by rewrite Hlf; simpl; tauto|done].
    simpl. fold a. rewrite !M, Hlf by (subst a; lia). cbn.
    rewrite !(rd_wr_ne _ (a + 4)) by lia. rewrite rd_wr_eq, rd_wr_ne by lia.
    by splits.
  - eapply same_globals_trans; [|done]. by split.
Qed.

Lemma mark_free_spec m0 h bs1 s bs2 pf f :
  let a := HEAP_VIRT_START + blen bs1 in
  ctx m0 h bs1 s bs2 pf [] -> wf_size s -> last_free false bs1 = false -> no_adj true bs2 ->
  rd (hmem h) a = hdr s f false ->
  exists h', mark_free a h = Some h' /\ heap_inv h' (bs1 ++ Blk s true :: bs2) /\
    same_globals h h' /\
    payload_kept (used_at HEAP_VIRT_START bs1 ++
                  used_at (HEAP_VIRT_START + blen bs1 + s) bs2) m0 (hmem h').
Proof.
  intros a C Hws Hlf Hadj Ra. pose proof (ctx_range _ _ _ _ _ _ _ C) as (? & ? & ? & ? & ?).
  pose proof Hws as [? ?].
  unfold mark_free, block_after, BLOCK_FLAG_FREE, BLOCK_FLAG_PREV_FREE.
  rewrite (block_size_hdr _ _ _ _ _ Hws) by (exact Ra || lia). no_wrap.
  edestruct (ctx_next _ _ _ _ _ _ true _ (fun w => Z.lor w 2) C) as (C1 & G1 & M1).
  { intros. by apply hdr_lor2. }
  cbv zeta in C1, G1, M1. fold (update_next (fun w => Z.lor w 2) (HEAP_VIRT_START + blen bs1 + s) h) in C1, G1, M1.
  fold a in C1, G1, M1. remember (update_next _ (a + s) h) as h1 eqn:E1.
  rewrite M1, Ra, hdr_lor1 by (done || lia).
  eapply (ctx_store _ _ _ _ _ _ _ a (hdr s true false)) in C1 as C2; [|subst a; lia|set_solver].
  rewrite (block_size_hdr (hmem (store h1 a _)) a s true false) by (apply rd_wr_eq || done || lia).
  destruct (link_free_spec _ _ _ _ _ C2) as (h' & E & Hi & G & K); [done..|apply rd_wr_eq|].
  exists h'. splits; try done. eapply same_globals_trans; [exact G1|].
  eapply same_globals_trans; [|exact G]. apply same_globals_store.
Qed.

Lemma join_left_used b bs s :
  let '(l, n) := join_left bs s in used_at b l = used_at b bs /\ blen l + n = blen bs + s.
Proof.
  unfold join_left. destruct bs as [|[p f] bs _] using rev_ind; [done|].
  rewrite last_snoc. destruct f; [|done]. rewrite removelast_last, used_at_app, blen_app. simpl.
  rewrite app_nil_r. split; [done|lia].
Qed.

Lemma join_right_used b s bs :
  let '(n, r) := join_right s bs in used_at (b + n) r = used_at (b + s) bs.
Proof. destruct bs as [|[p f] bs]; [done|]. destruct f; [|done]. simpl. f_equal. lia. Qed.

(** Releasing a block leaves exactly the other allocations. *)
Lemma release_used bs1 s bs2 :
  used_at HEAP_VIRT_START (release bs1 s bs2) =
  used_at HEAP_VIRT_START bs1 ++ used_at (HEAP_VIRT_START + blen bs1 + s) bs2.
Proof.
  unfold release. pose proof (join_left_used HEAP_VIRT_START bs1 s) as Hl.
  destruct (join_left bs1 s) as [l n]. destruct Hl as [Hl1 Hl2].
  pose proof (join_right_used (HEAP_VIRT_START + blen l) n bs2) as Hr.
  destruct (join_right n bs2) as [n' r]. rewrite used_at_app. simpl. rewrite Hl1, Hr.
  do 2 f_equal. lia.
Qed.

Lemma kfree_spec h bs1 s bs2 :
  heap_inv h (bs1 ++ Blk s false :: bs2) ->
  exists h', kfree (HEAP_VIRT_START + blen bs1 + 4) h = Some h' /\
    heap_inv h' (release bs1 s bs2) /\ same_globals h h' /\
    payload_kept (used_at HEAP_VIRT_START (release bs1 s bs2)) (hmem h) (hmem h').
Proof.
  intros Hi. destruct (inv_ctx _ _ _ _ Hi) as (C & Hws & Hh & _ & Hadj & Hadj2). simpl in *.
  pose proof (ctx_range _ _ _ _ _ _ _ C) as (? & ? & ? & ? & ?). pose proof Hws as [? ?].
  unfold kfree, SIZEOF_HEADER. set (a := HEAP_VIRT_START + blen bs1) in *.
  destruct (Z.eqb_spec (a + 4) 0) as [E|_]; [unfold HEAP_VIRT_START in *; lia|].
  no_wrap. replace (a + 4 - 4) with a by lia.
  rewrite (block_in_heap_true _ _ _ _ _ _ _ _ C) by (subst a; lia).
  rewrite (block_size_hdr _ _ _ _ _ Hws) by (exact Hh || lia).
  destruct (Z.eqb_spec s 0) as [|_]; [lia|]. simpl orb. cbv iota.
  rewrite release_used. unfold release.
  pose proof (join_left_used HEAP_VIRT_START bs1 s) as Hu.
  pose proof (kfree_merge_prev_spec _ _ _ _ _ _ C Hws Hh) as Hp. fold a in Hp.
  destruct (join_left bs1 s) as [l n]. destruct Hu as [Hu1 Hu2].
  destruct Hp as (h1 & f1 & -> & C1 & Hwn & Hlf & G1 & R1). rewrite option_bind_Some. cbv beta iota.
  pose proof (join_right_used (HEAP_VIRT_START + blen l) n bs2) as Hur.
  pose proof (kfree_merge_next_spec _ _ _ _ _ _ _ _ C1 Hwn R1) as Hn.
  destruct (join_right n bs2) as [n' r].
  destruct Hn as (h2 & pf2 & f2 & -> & C2 & Hwn' & Hadj' & G2 & R2). rewrite option_bind_Some.
  destruct (mark_free_spec _ _ _ _ _ _ _ C2 Hwn' Hlf Hadj' R2) as (h3 & -> & Hi3 & G3 & K3).
  exists h3. splits; try done.
  - eauto using same_globals_trans.
  - rewrite Hu1, Hur in K3. by replace (HEAP_VIRT_START + blen l + n) with (a + s) in K3 by (subst a; lia).
Qed.

(** ** Growing the heap *)

Lemma grow_pages_spec n i h :
  let '(ok, h') := grow_pages n i h in
  exists p, h' = h <| pages_src := p |> /\
    avail p + (if ok then Z.of_nat n else 0) <= avail (pages_src h).
Proof.
  revert i h. induction n as [|n IH]; intros i h; simpl.
  { exists (pages_src h). split; [by destruct h|lia]. }
  unfold expand_heap. destruct (expand_page _ (pages_src h)) as [[] p] eqn:E.
  - specialize (IH (i + 1) (h <| pages_src := p |>)).
    destruct (grow_pages n (i + 1) _) as [ok h'] eqn:E2. destruct IH as (p' & -> & Hp).
    exists p'. split; [done|]. apply expand_ok in E. cbn in *. destruct ok; lia.
  - exists p. split; [done|]. apply expand_fail in E. lia.
Qed.

(** What the page loop reports as added is mapped, also after the later pages. *)
Lemma grow_pages_keeps n i h v :
  mapped v (pages_src h) = true -> mapped v (pages_src (snd (grow_pages n i h))) = true.
Proof.
  revert i h. induction n as [|n IH]; intros i h Hv; simpl; [done|].
  unfold expand_heap. destruct (expand_page _ (pages_src h)) as [ok p] eqn:E.
  pose proof (expand_keeps _ _ _ _ _ E Hv). destruct ok; [by apply IH|done].
Qed.

Lemma grow_pages_mapped n i h h' : grow_pages n i h = (true, h') -> pages_mapped n i h' = true.
Proof.
  revert i h. induction n as [|n IH]; intros i h; simpl; [done|].
  unfold expand_heap. destruct (expand_page _ (pages_src h)) as [[] p] eqn:E; [|done].
  intros Eg. apply andb_true_intro. split; [|by eapply IH].
  pose proof (grow_pages_spec n (i + 1) (h <| pages_src := p |>)) as Hs.
  pose proof (grow_pages_keeps n (i + 1) (h <| pages_src := p |>) _ (expand_mapped _ _ _ E)) as Hk.
  unfold set_field in Hs, Hk, Eg. cbn -[grow_pages] in Hs, Hk, Eg.
  rewrite Eg in Hs, Hk. destruct Hs as (p' & -> & _). exact Hk.
Qed.

(** The page source may change as long as it does not promise more. *)
Lemma heap_inv_pages h bs p :
  heap_inv h bs -> avail p <= avail (pages_src h) -> heap_inv (h <| pages_src := p |>) bs.
Proof. intros [] ?. constructor; try done. cbn. lia. Qed.

(** Extending the heap by [n] bytes behind a region that ends it. *)
Lemma ctx_extend m0 h bs1 s pf p n :
  ctx m0 h bs1 s [] pf [] -> 0 <= n -> 4096 * avail p + n <= 4096 * avail (pages_src h) ->
  ctx m0 (mk_heap (hmem h) (free_list h) (heap_brk h + n) (heap_end h + n) p) bs1 (s + n) [] true [].
Proof.
  intros [] ? ?. simpl in *. constructor; simpl; try done; lia.
Qed.

Lemma grow_merge_spec m0 h bs1 s p n :
  let a := HEAP_VIRT_START + blen bs1 in
  ctx m0 h bs1 s [] true [a] -> wf_size s -> wf_size n -> last_free false bs1 = false ->
  rd (hmem h) a = hdr s true false ->
  4096 * avail p + n <= 4096 * avail (pages_src h) ->
  exists h', grow_merge a s n (h <| pages_src := p |>) = Some (true, h') /\
    heap_inv h' (bs1 ++ [Blk (s + n) true]) /\
    payload_kept (used_at HEAP_VIRT_START bs1) m0 (hmem h').
Proof.
  intros a C Hws Hwn Hlf Ra Hav. pose proof (ctx_range _ _ _ _ _ _ _ C) as (? & ? & ? & ? & Hend).
  pose proof Hws as [? ?]. pose proof Hwn as [? ?]. simpl in Hend.
  pose proof (avail_nonneg p). pose proof (c_bound _ _ _ _ _ _ _ C) as Hbd. simpl in Hbd.
  destruct (ctx_remove _ _ _ _ _ _ _ C) as (h1 & Er & C1 & (Gb & Ge & Gp) & M1).
  assert (Er' : remove_free a (h <| pages_src := p |>) = Some (h1 <| pages_src := p |>)).
  { revert Er. unfold remove_free, list_fuel. cbn. destruct (remove_loop _ _ _ _ _) as [[pr|]|]; simpl; [|by intros [= <-]..|done].
    destruct (negb (pr =? 0)); by intros [= <-]. }
  unfold grow_merge. rewrite Er', option_bind_Some.
  pose proof (ctx_extend _ _ _ _ _ p n C1 ltac:(lia) ltac:(rewrite Gp; lia)) as C2.
  eapply (ctx_store _ _ _ _ _ _ _ a (hdr (s + n) true false)) in C2; [|subst a; lia|set_solver].
  assert (Hwsn : wf_size (s + n)) by by apply wf_size_add.
  cbn -[insert_free block_footer block_size Z.lor Z.land rd wr]. rewrite M1, Ra by (subst a; lia).
  unfold BLOCK_FLAG_FREE, BLOCK_FLAG_PREV_FREE. rewrite hdr_prev_bit by done. no_wrap.
  rewrite hdr_free_mk by done.
  pose proof (c_brk _ _ _ _ _ _ _ C1) as Eb. rewrite Eb, Ge. no_wrap.
  destruct (link_free_spec _ _ _ _ _ C2 Hwsn Hlf I) as (h' & E & Hi & _ & K).
  { apply rd_wr_eq. }
  rewrite Eb, Ge in E.
  rewrite (block_size_hdr _ a (s + n) true false) by (apply rd_wr_eq || done || unfold HEAP_MAX in *; lia).
  unfold store, set_field in E |- *. cbn -[insert_free block_footer] in E |- *.
  fold a in E. change SIZEOF_HEADER with 4 in *.
  rewrite E. exists h'. splits; [done..|]. by rewrite app_nil_r in K.
Qed.

Lemma grow_new_spec h bs p n :
  heap_inv h bs -> wf_size n -> last_free false bs = false ->
  4096 * avail p + n <= 4096 * avail (pages_src h) ->
  exists h', grow_new n (h <| pages_src := p |>) = Some (true, h') /\
    heap_inv h' (bs ++ [Blk n true]) /\
    payload_kept (used_at HEAP_VIRT_START bs) (hmem h) (hmem h').
Proof.
  intros Hi Hwn Hlf Hav. pose proof (inv_bound _ _ Hi). pose proof Hwn as [? ?].
  pose proof Hi as [? Hend Hbrk Hbd ? ? Hl]. pose proof (avail_nonneg p).
  assert (C : ctx (hmem h) h bs 0 [] false []).
  { constructor; simpl; try done; try lia. by rewrite app_nil_r. }
  pose proof (ctx_extend _ _ _ _ _ p n C ltac:(lia) Hav) as C2.
  rewrite Z.add_0_l in C2. set (a := HEAP_VIRT_START + blen bs) in *.
  eapply (ctx_store _ _ _ _ _ _ _ a (hdr n true false)) in C2; [|subst a; lia|set_solver].
  destruct (link_free_spec _ _ _ _ _ C2 Hwn Hlf I) as (h' & E & Hi' & _ & K).
  { apply rd_wr_eq. }
  fold a in E. unfold grow_new, BLOCK_FLAG_FREE. rewrite (hdr_free_new _ Hwn).
  unfold store, set_field in E |- *. cbn -[insert_free block_footer] in E |- *.
  rewrite Hbrk, <- Hend in E |- *. fold a in E |- *. no_wrap.
  rewrite E. exists h'. splits; [done..|]. by rewrite app_nil_r in K.
Qed.

Lemma grow_heap_spec h bs need :
  heap_inv h bs -> 0 < need -> need + 4095 < 2 ^ 32 ->
  let n := (need + 4095) / 4096 * 4096 in
  exists h', (grow_heap need h = Some (false, h') /\ heap_inv h' bs /\ hmem h' = hmem h) \/
    (grow_heap need h = Some (true, h') /\ heap_inv h' (extend bs n) /\
     payload_kept (used_at HEAP_VIRT_START bs) (hmem h) (hmem h')).
Proof.
  intros Hi Hn1 Hn2 n. pose proof (inv_bound _ _ Hi). pose proof Hi as [_ Hend Hbrk _ _ _ _].
  unfold grow_heap, PAGE_SIZE. destruct (Z.eqb_spec need 0); [lia|].
  destruct (Z.leb_spec 0xFE000000 (heap_brk h)); [unfold HEAP_VIRT_START, HEAP_MAX in *; lia|].
  replace (need + 4096 - 1) with (need + 4095) by lia. rewrite (wrap32_small (need + 4095)) by lia.
  pose proof (grow_pages_spec (Z.to_nat ((need + 4095) / 4096)) 0 h) as Hg.
  assert (Hpos : 1 <= (need + 4095) / 4096) by zmod.
  destruct (grow_pages _ 0 h) as [[] h'] eqn:E; destruct Hg as (p & -> & Hp); simpl negb; cbv iota.
  2:{ eexists. left. splits; [done| |done]. apply heap_inv_pages; [done|lia]. }
  pose proof (grow_pages_mapped _ _ _ _ E) as Hmap. unfold set_field in Hmap.
  cbn -[pages_mapped Z.div Z.to_nat] in Hmap. rewrite Hmap. simpl negb. cbv iota.
  rewrite Z2Nat.id in Hp by lia.
  assert (Hav : 4096 * avail p + n <= 4096 * avail (pages_src h)) by (subst n; lia).
  pose proof (avail_nonneg p). pose proof (hi_bound _ _ Hi).
  assert (Hwn : wf_size n) by (subst n; split; zmod).
  rewrite (wrap32_small (_ / 4096 * 4096)) by (fold n; unfold HEAP_MAX in *; lia). fold n.
  cbn -[block_in_heap block_is_free grow_new grow_merge]. unfold extend, join_left.
  destruct bs as [|[s f] bs1 _] using rev_ind.
  { simpl in *. destruct (Z.ltb_spec HEAP_VIRT_START (heap_brk h)); [lia|]. simpl andb. cbv iota.
    destruct (grow_new_spec _ _ p n Hi) as (h' & E' & ? & ?); [done..|].
    unfold set_field in E'. cbn -[grow_new] in E'. rewrite E'. eauto. }
  destruct (inv_ctx _ _ _ _ Hi) as (C & Hws & Hh & Hf & Hadj & _). simpl in *.
  pose proof Hws as [? ?]. pose proof (ctx_range _ _ _ _ _ _ _ C) as (? & ? & _ & ? & Hend').
  simpl in Hend'. set (a := HEAP_VIRT_START + blen bs1) in *. rewrite last_snoc.
  assert (Hb : heap_brk h = a + s) by (rewrite Hbrk; subst a; lia).
  rewrite Hb. unfold SIZEOF_SIZE_T. no_wrap. rewrite Hf. no_wrap. replace (a + s - s) with a by lia.
  no_wrap. rewrite Z.eqb_refl. unfold block_is_free, BLOCK_FLAG_FREE. rewrite Hh, hdr_is_free by done.
  destruct (Z.ltb_spec HEAP_VIRT_START (a + s)); [|subst a; lia]. simpl andb.
  match goal with |- context [block_in_heap ?x a] =>
    change (block_in_heap x a) with (block_in_heap h a) end.
  rewrite (block_in_heap_true _ _ _ _ _ _ _ _ C) by (subst a; lia). simpl andb.
  destruct f; simpl; cbv iota.
  - assert (Hlf : last_free false bs1 = false) by (by destruct (last_free false bs1); [destruct Hadj|]).
    rewrite Hlf in Hh. rewrite removelast_last, used_at_app. simpl. rewrite app_nil_r.
    destruct (grow_merge_spec _ _ _ _ p n C Hws Hwn Hlf Hh Hav) as (h' & E' & ? & ?).
    fold a in E'. unfold set_field in E'. cbn -[grow_merge] in E'. rewrite Hb in E'. rewrite E'. eauto.
  - destruct (grow_new_spec _ _ p n Hi) as (h' & E' & ? & ?); [done|by rewrite last_free_app|done|].
    unfold set_field in E'. cbn -[grow_new] in E'. rewrite Hb in E'. rewrite E'. eauto.
Qed.
End spec.
