(* ===== verification/HeapTheorems.v ===== *)
(** * The contract of the kernel heap

    Top-level theorems on [kmalloc], [kfree], [heap_init] and [heap_selftest], stated
    against the list-of-blocks specification of [HeapSpec]. *)

From S2P Require Import Prelude LList Heap HeapInv HeapCtx HeapSpec.

Section theorems.
Context {P : Type} `{PageSource P}.
Implicit Types h : heap P.

(** ** Sizes *)

Lemma total_size_ok size :
  0 < size <= 0xFFFFE000 ->
  wf_size (total_size size) /\ size + 8 <= total_size size <= size + 15 + 8.
Proof.
  intros. unfold total_size, BLOCK_SIZE_MASK, SIZEOF_HEADER, SIZEOF_SIZE_T, MIN_BLOCK_SIZE.
  rewrite (wrap32_small (size + 3)), land_mask4, wrap32_small by zmod.
  destruct (Z.ltb_spec (size + 3 - (size + 3) mod 4 + 4 + 4) 16); (split; [split|]); zmod.
Qed.

(** The sizes whose total does not wrap when it is rounded up to pages: all but a window of
    less than a page below [2^32].  From 0xFFFFFFF5 on the total itself wraps, to 16. *)
Definition size_ok (size : Z) : Prop :=
  0 <= size <= 0xFFFFEFF8 \/ 0xFFFFFFF5 <= size < 2 ^ 32.

Lemma total_size_wraps size : 0xFFFFFFF5 <= size < 2 ^ 32 -> total_size size = 16.
Proof.
  intros Hs.
  assert (size = 0xFFFFFFF5 \/ size = 0xFFFFFFF6 \/ size = 0xFFFFFFF7 \/ size = 0xFFFFFFF8 \/
          size = 0xFFFFFFF9 \/ size = 0xFFFFFFFA \/ size = 0xFFFFFFFB \/ size = 0xFFFFFFFC \/
          size = 0xFFFFFFFD \/ size = 0xFFFFFFFE \/ size = 0xFFFFFFFF) as Hc by lia.
  by repeat destruct Hc as [->|Hc]; [..|subst].
Qed.

Lemma total_size_wf size :
  size_ok size -> size <> 0 -> wf_size (total_size size) /\ total_size size <= 0xFFFFF000.
Proof.
  intros [Hs|Hs] Hz; [|by rewrite total_size_wraps].
  unfold total_size, BLOCK_SIZE_MASK, SIZEOF_HEADER, SIZEOF_SIZE_T, MIN_BLOCK_SIZE.
  rewrite (wrap32_small (size + 3)), land_mask4, wrap32_small by zmod.
  destruct (Z.ltb_spec (size + 3 - (size + 3) mod 4 + 4 + 4) 16); (split; [split|]); zmod.
Qed.

Lemma first_fit_split total bs bs1 s bs2 :
  first_fit total bs = Some (bs1, s, bs2) ->
  bs = bs1 ++ Blk s true :: bs2 /\ total <= s /\
  Forall (fun b => bfree b -> bsz b < total) bs1.
Proof.
  revert bs1. induction bs as [|[t f] bs IH]; simpl; intros bs1 E; [done|].
  destruct (f && (total <=? t)) eqn:Ef.
  - simplify_eq. bool_prop. subst. splits; [done|done|constructor].
  - destruct (first_fit total bs) as [[[b1 s'] b2]|]; simplify_eq.
    destruct (IH _ eq_refl) as (-> & ? & ?). splits; [done|done|]. constructor; [|done].
    simpl. intros Hf. destruct f; [|done]. simpl in Ef. by bool_prop.
Qed.

Lemma first_fit_extend total bs n :
  Forall wf_blk bs -> total <= n -> is_Some (first_fit total (extend bs n)).
Proof.
  intros Hwf Hn. unfold extend, join_left.
  assert (Happ : forall l m, total <= m -> is_Some (first_fit total (l ++ [Blk m true]))).
  { intros l m Hm. induction l as [|b l [x IH]]; simpl.
    - by destruct (Z.leb_spec total m); [eauto|lia].
    - destruct (bfree b && _); [eauto|]. rewrite IH. destruct x as [[? ?] ?]. eauto. }
  destruct bs as [|[p f] bs _] using rev_ind; [by apply (Happ [])|].
  rewrite last_snoc. destruct f; [|by apply Happ]. rewrite removelast_last.
  apply Forall_app in Hwf as [_ [[? _] _]%Forall_cons]. simpl in *. apply Happ. lia.
Qed.

(** The search in memory is the search in the block list. *)
Lemma find_fit_refines fuel m total p a pf bs :
  Forall wf_blk bs -> blen bs <= HEAP_MAX -> tiles m a pf bs ->
  llist (fb_next m) p (free_addrs a bs) -> (length (free_addrs a bs) < fuel)%nat ->
  find_fit fuel m total p =
    Some (match first_fit total bs with Some (bs1, _, _) => a + blen bs1 | None => 0 end).
Proof.
  intros Hwf. revert fuel p a pf. induction Hwf as [|[s f] bs Hb Hwf IH];
    intros fuel p a pf Hmax Ht Hl Hf; simpl in *.
  { destruct fuel; [lia|]. simpl. by rewrite Hl. }
  destruct Ht as (Hh & _ & Ht). pose proof (blen_nonneg _ Hwf). pose proof Hb as [? _]. simpl in *.
  destruct f; simpl in *.
  - destruct Hl as (-> & Ha & Hl). destruct fuel as [|fuel]; [lia|]. simpl.
    destruct (Z.eqb_spec a 0); [done|].
    rewrite (block_size_hdr _ _ _ _ _ Hb) by (exact Hh || simpl; lia). simpl.
    destruct (Z.leb_spec total s); simpl; [by rewrite Z.add_0_r|].
    rewrite (IH fuel _ (a + s) true) by (done || lia).
    destruct (first_fit total bs) as [[[b1 ?] ?]|]; [|done]. simpl. f_equal. lia.
  - rewrite (IH fuel _ (a + s) false) by (done || lia).
    destruct (first_fit total bs) as [[[b1 ?] ?]|]; [|done]. simpl. f_equal. lia.
Qed.

Lemma find_fit_inv h bs total :
  heap_inv h bs ->
  find_fit (list_fuel h) (hmem h) total (free_list h) =
    Some (match first_fit total bs with
          | Some (bs1, _, _) => HEAP_VIRT_START + blen bs1 | None => 0 end).
Proof.
  intros Hi. pose proof (inv_bound _ _ Hi). pose proof Hi as [Hwf Hend ? ? ? ? ?].
  eapply find_fit_refines; try done; [lia|].
  pose proof (free_addrs_length HEAP_VIRT_START _ Hwf). unfold list_fuel, MIN_BLOCK_SIZE. zmod.
Qed.

(** Taking the first fit, the step shared by both searches of [kmalloc]. *)
Lemma take_first_fit h bs bs1 s bs2 total :
  heap_inv h bs -> wf_size total -> first_fit total bs = Some (bs1, s, bs2) ->
  exists h', kmalloc_take (HEAP_VIRT_START + blen bs1) total h
             = Some (HEAP_VIRT_START + blen bs1 + 4, h') /\
    heap_inv h' (bs1 ++ carve total s ++ bs2) /\
    payload_kept (used_at HEAP_VIRT_START bs) (hmem h) (hmem h').
Proof.
  intros Hi Hw (-> & Hle & _)%first_fit_split.
  destruct (kmalloc_take_spec _ _ _ _ _ Hi Hw Hle) as (h' & ? & ? & _ & Hk).
  exists h'. splits; [done..|]. by rewrite used_at_app.
Qed.

Lemma payload_kept_trans us m1 m2 m3 :
  payload_kept us m1 m2 -> payload_kept us m2 m3 -> payload_kept us m1 m3.
Proof. intros H1 H2 x s y Hx Hy. by rewrite (H2 x s y), (H1 x s y). Qed.

Lemma extend_used bs n :
  used_at HEAP_VIRT_START (extend bs n) = used_at HEAP_VIRT_START bs.
Proof. change (extend bs n) with (release bs n []). by rewrite release_used, app_nil_r. Qed.

Lemma heap_start_nz bs : Forall wf_blk bs -> HEAP_VIRT_START + blen bs <> 0.
Proof. intros Hwf%blen_nonneg. unfold HEAP_VIRT_START. lia. Qed.

Lemma first_fit_nz total h bs bs1 s bs2 :
  heap_inv h bs -> first_fit total bs = Some (bs1, s, bs2) -> HEAP_VIRT_START + blen bs1 <> 0.
Proof.
  intros [Hwf] (-> & _)%first_fit_split. apply heap_start_nz. by apply Forall_app in Hwf as [? _].
Qed.

(** [kmalloc] when the free list has a large enough block. *)
Lemma kmalloc_fit h bs bs1 s bs2 size :
  heap_inv h bs -> 0 < size -> wf_size (total_size size) ->
  first_fit (total_size size) bs = Some (bs1, s, bs2) ->
  exists h', kmalloc size h = Some (HEAP_VIRT_START + blen bs1 + 4, h') /\
    heap_inv h' (bs1 ++ carve (total_size size) s ++ bs2) /\
    payload_kept (used_at HEAP_VIRT_START bs) (hmem h) (hmem h').
Proof.
  intros Hi Hs Hw Hff. unfold kmalloc. destruct (Z.eqb_spec size 0); [lia|].
  rewrite (find_fit_inv _ _ _ Hi), Hff, option_bind_Some. cbv beta.
  destruct (Z.eqb_spec (HEAP_VIRT_START + blen bs1) 0) as [E|_];
    [by destruct (first_fit_nz _ _ _ _ _ _ Hi Hff)|]. simpl negb. cbv iota.
  by apply take_first_fit.
Qed.

Lemma join_left_used_last bs n : last_free false bs = false -> join_left bs n = (bs, n).
Proof.
  unfold join_left. destruct bs as [|[p f] bs _] using rev_ind; [done|].
  rewrite last_snoc, last_free_app. simpl. by intros ->.
Qed.

Lemma join_right_used_first bs n : no_adj true bs -> join_right n bs = (n, bs).
Proof. destruct bs as [|[p []] bs]; simpl; [done| |done]. intros [[] _]; done. Qed.

(** Releasing either result of [carve] gives the block back. *)
Lemma release_carve bs1 total s bs2 :
  last_free false bs1 = false -> no_adj true bs2 ->
  release bs1 total (Blk (s - total) true :: bs2) = bs1 ++ Blk s true :: bs2 /\
  release bs1 s bs2 = bs1 ++ Blk s true :: bs2.
Proof.
  intros Hl Ha. unfold release. rewrite !join_left_used_last by done.
  rewrite (join_right_used_first _ _ Ha). simpl. by replace (total + (s - total)) with s by lia.
Qed.

(** The full case analysis of [kmalloc]; see the theorem [kmalloc_refines]. *)
Lemma kmalloc_spec h bs size :
  heap_inv h bs -> size_ok size -> size <> 0 ->
  let total := total_size size in
  exists p h', kmalloc size h = Some (p, h') /\
    payload_kept (used_at HEAP_VIRT_START bs) (hmem h) (hmem h') /\
    match first_fit total bs with
    | Some (bs1, s, bs2) =>
        p = HEAP_VIRT_START + blen bs1 + 4 /\ heap_inv h' (bs1 ++ carve total s ++ bs2)
    | None =>
        (p = 0 /\ heap_inv h' bs) \/
        exists bs1 s bs2,
          first_fit total (extend bs ((total + 4095) / 4096 * 4096)) = Some (bs1, s, bs2) /\
          p = HEAP_VIRT_START + blen bs1 + 4 /\ heap_inv h' (bs1 ++ carve total s ++ bs2)
    end.
Proof.
  intros Hi Hs Hz total. destruct (total_size_wf size Hs Hz) as [Hw Ht]. fold total in Hw, Ht.
  pose proof Hw as [Hw16 _]. assert (0 < size) by (destruct Hs; lia).
  destruct (first_fit total bs) as [[[bs1 s] bs2]|] eqn:Hff.
  { destruct (kmalloc_fit h bs bs1 s bs2 size Hi ltac:(lia) Hw Hff) as (h' & ? & ? & ?). eauto 6. }
  unfold kmalloc. destruct (Z.eqb_spec size 0); [lia|]. cbv zeta. fold total.
  rewrite (find_fit_inv _ _ _ Hi), Hff, option_bind_Some. simpl negb. cbv iota.
  destruct (grow_heap_spec h bs total Hi) as (h1 & [(-> & Hi1 & Em)|(-> & Hi1 & Hk)]); [lia..| |];
    rewrite option_bind_Some; simpl negb; cbv beta iota.
  { exists 0, h1. splits; [done|by rewrite Em|by left]. }
  rewrite (find_fit_inv _ _ _ Hi1), option_bind_Some.
  destruct (first_fit_extend total bs ((total + 4095) / 4096 * 4096)) as [[[bs1 s] bs2] Hff1];
    [by destruct Hi|zmod|]. rewrite Hff1.
  destruct (Z.eqb_spec (HEAP_VIRT_START + blen bs1) 0) as [E|_];
    [by destruct (first_fit_nz _ _ _ _ _ _ Hi1 Hff1)|].
  destruct (take_first_fit _ _ _ _ _ _ Hi1 Hw Hff1) as (h' & -> & Hi' & Hk').
  eexists _, h'. splits; [done| |right; eauto 7].
  rewrite extend_used in Hk'. eauto using payload_kept_trans.
Qed.

(** C1: [kmalloc] refines first-fit allocation on the block list, for every request of at most
    0xFFFFEFF8 bytes and for those of 0xFFFFFFF5 bytes or more (which wrap to a block of 16
    bytes; the sizes in between wrap in [grow_heap] and corrupt the heap, see
    kmalloc_window_corrupts), over a page source whose successes are mapped pages.  It
    returns without running out of fuel and without a page fault in the pages it adds.
    A request of 0 bytes gets NULL and changes nothing.  If some free block is large enough
    for the rounded size with header and footer, the first such block is carved and its
    payload address returned; otherwise the heap grows by whole pages and an allocation in
    the grown heap succeeds, or NULL is returned and the block list is as before.  The
    invariant holds afterwards, and no word of the payload of an allocated block has
    changed. *)
Theorem kmalloc_refines h bs size :
  heap_inv h bs -> size_ok size ->
  let total := total_size size in
  exists p h', kmalloc size h = Some (p, h') /\
    payload_kept (used_at HEAP_VIRT_START bs) (hmem h) (hmem h') /\
    if size =? 0 then p = 0 /\ h' = h
    else match first_fit total bs with
    | Some (bs1, s, bs2) =>
        p = HEAP_VIRT_START + blen bs1 + 4 /\ heap_inv h' (bs1 ++ carve total s ++ bs2)
    | None =>
        (p = 0 /\ heap_inv h' bs) \/
        exists bs1 s bs2,
          first_fit total (extend bs ((total + 4095) / 4096 * 4096)) = Some (bs1, s, bs2) /\
          p = HEAP_VIRT_START + blen bs1 + 4 /\ heap_inv h' (bs1 ++ carve total s ++ bs2)
    end.
Proof.
  intros Hi Hs total. destruct (Z.eqb_spec size 0) as [->|Hz]; [|by apply kmalloc_spec].
  by exists 0, h.
Qed.

(** C2: [kfree] of a live allocation always returns, marks exactly that block free,
    coalesces it with both free neighbours, preserves the invariant and the payload of every
    other allocation, and leaves precisely the other allocations live. *)
Theorem kfree_refines h bs1 s bs2 :
  heap_inv h (bs1 ++ Blk s false :: bs2) ->
  exists h', kfree (HEAP_VIRT_START + blen bs1 + 4) h = Some h' /\
    heap_inv h' (release bs1 s bs2) /\
    used_at HEAP_VIRT_START (release bs1 s bs2) =
      used_at HEAP_VIRT_START bs1 ++ used_at (HEAP_VIRT_START + blen bs1 + s) bs2 /\
    payload_kept (used_at HEAP_VIRT_START (release bs1 s bs2)) (hmem h) (hmem h').
Proof.
  intros Hi. destruct (kfree_spec _ _ _ _ Hi) as (h' & ? & ? & _ & ?).
  exists h'. splits; try done. apply release_used.
Qed.

(** freeing what [kmalloc] just returned restores the block list it started from. *)
Theorem kmalloc_kfree_roundtrip h bs bs1 s bs2 size :
  heap_inv h bs -> 0 < size <= 0xFFFFE000 ->
  first_fit (total_size size) bs = Some (bs1, s, bs2) ->
  exists p h1 h2, kmalloc size h = Some (p, h1) /\ kfree p h1 = Some h2 /\ heap_inv h2 bs.
Proof.
  intros Hi Hs Hff. destruct (total_size_ok size Hs) as [Hw Ht].
  destruct (kmalloc_fit h bs bs1 s bs2 size Hi ltac:(lia) Hw Hff) as (h1 & Ek & Hi1 & _).
  destruct (first_fit_split _ _ _ _ _ Hff) as (-> & Hle & _).
  destruct (inv_ctx _ _ _ _ Hi) as (_ & Hws & _ & _ & Ha & Ha2). simpl in *.
  assert (Hlf : last_free false bs1 = false) by (by destruct (last_free false bs1); [destruct Ha|]).
  destruct (release_carve bs1 (total_size size) s bs2 Hlf Ha2) as [Hr1 Hr2].
  revert Hi1. unfold carve. destruct (_ <=? _); simpl; intros Hi1;
    destruct (kfree_spec _ _ _ _ Hi1) as (h2 & E2 & Hi2 & _).
  - rewrite Hr1 in Hi2. eauto 6.
  - rewrite Hr2 in Hi2. eauto 6.
Qed.

(** A new allocation is disjoint from every live one: the block [kmalloc] hands out
    lies inside the heap, holds at least [size] payload bytes, and its whole extent is
    disjoint from the extent of every block allocated before. *)
Theorem kmalloc_fresh h bs size p h' :
  heap_inv h bs -> 0 < size <= 0xFFFFE000 -> kmalloc size h = Some (p, h') -> p <> 0 ->
  exists n, size <= n /\ HEAP_VIRT_START + 4 <= p /\ p + n + 4 <= heap_end h' /\
    forall x s, (x, s) ∈ used_at HEAP_VIRT_START bs -> x + s <= p - 4 \/ p + n + 4 <= x.
Proof.
  intros Hi Hs Ek Hp. destruct (total_size_ok size Hs) as [Hw Ht].
  destruct (kmalloc_spec h bs size Hi ltac:(left; lia) ltac:(lia)) as (p' & h1 & Ek' & _ & Hm).
  rewrite Ek in Ek'. simplify_eq.
  assert (Hx : exists bs0 bs1 s bs2, used_at HEAP_VIRT_START bs0 = used_at HEAP_VIRT_START bs /\
    first_fit (total_size size) bs0 = Some (bs1, s, bs2) /\
    p' = HEAP_VIRT_START + blen bs1 + 4 /\ heap_inv h1 (bs1 ++ carve (total_size size) s ++ bs2)).
  { destruct (first_fit (total_size size) bs) as [[[bs1 s] bs2]|] eqn:Hff.
    - exists bs, bs1, s, bs2. by destruct Hm.
    - destruct Hm as [[? _]|(bs1 & s & bs2 & Hff1 & ? & ?)]; [done|].
      eexists _, bs1, s, bs2. splits; [apply extend_used|done..]. }
  destruct Hx as (bs0 & bs1 & s & bs2 & Hu & Hff & -> & Hi1).
  destruct (first_fit_split _ _ _ _ _ Hff) as (-> & Hle & _).
  destruct Hi1 as [Hwf Hend _ _ _ _ _]. rewrite !blen_app in Hend.
  apply Forall_app in Hwf as [Hw1 [Hwc Hw2]%Forall_app].
  pose proof (blen_nonneg _ Hw1). pose proof (blen_nonneg _ Hw2).
  assert (Hc : blen (carve (total_size size) s) = s).
  { unfold carve. destruct (_ <=? _); simpl; lia. }
  exists (total_size size - 8). splits; try lia.
  rewrite <- Hu, used_at_app. simpl. intros x t [Hx|Hx]%elem_of_app;
    apply used_at_range in Hx; simpl in *; try done; lia.
Qed.

Lemma heap_init_spec h :
  heap_brk h = HEAP_VIRT_START -> avail (pages_src h) <= 15360 ->
  fst (grow_pages (Z.to_nat HEAP_INIT_PAGES) 0 h) = true ->
  heap_inv (heap_init h) [Blk (HEAP_INIT_PAGES * PAGE_SIZE) true].
Proof.
  intros Hb Ha Hok.
  assert (Hinit : forall n i (h : heap P),
    fst (grow_pages n i h) = true -> init_pages n i h = snd (grow_pages n i h)).
  { clear. induction n as [|n IH]; intros i h; simpl; [done|].
    destruct (expand_heap _ h) as [[] h']; simpl; [apply IH|done]. }
  pose proof (grow_pages_spec (Z.to_nat HEAP_INIT_PAGES) 0 h) as Hg.
  unfold heap_init. rewrite Hinit by done.
  destruct (grow_pages _ 0 h) as [ok h1]. simpl in Hok. subst ok. simpl snd.
  destruct Hg as (p & -> & Hp). unfold HEAP_INIT_PAGES in Hp. change (Z.of_nat (Z.to_nat 64)) with 64 in Hp.
  cbn -[block_footer Z.lor Z.mul]. rewrite Hb.
  assert (Ef : forall m, rd m HEAP_VIRT_START = hdr 262144 true false ->
    block_footer m HEAP_VIRT_START = HEAP_VIRT_START + 262144 - 4).
  { intros m Hm. unfold block_footer. by rewrite (block_size_hdr _ _ 262144 true false). }
  rewrite Ef by (rewrite rd_wr_ne by done; apply rd_wr_eq).
  constructor; cbn -[Z.mul].
  - by repeat constructor.
  - done.
  - done.
  - unfold HEAP_MAX, HEAP_INIT_PAGES, PAGE_SIZE. lia.
  - change (Z.lor _ _) with (hdr 262144 true false). change (64 * 4096) with 262144.
    unfold SIZEOF_HEADER, HEAP_INIT_PAGES, PAGE_SIZE. change (64 * 4096) with 262144.
    rewrite rd_wr_eq, !rd_wr_ne by done. rewrite rd_wr_eq. done.
  - tauto.
  - unfold fb_next, SIZEOF_HEADER. rewrite rd_wr_ne, rd_wr_eq by done. done.
Qed.

(** On a fresh system [heap_init] establishes the invariant: one free block that
    covers the 64 initial pages. *)
Theorem heap_init_inv h :
  heap_brk h = HEAP_VIRT_START -> avail (pages_src h) <= 15360 ->
  fst (grow_pages (Z.to_nat HEAP_INIT_PAGES) 0 h) = true ->
  heap_inv (heap_init h) [Blk (HEAP_INIT_PAGES * PAGE_SIZE) true].
Proof. apply heap_init_spec. Qed.

Lemma count_loop_spec fuel m p l n :
  llist (fb_next m) p l -> (length l < fuel)%nat -> 0 <= n -> n + Z.of_nat (length l) < 2 ^ 32 ->
  count_loop fuel m p n = Some (n + Z.of_nat (length l)).
Proof.
  revert p l n. induction fuel as [|fuel IH]; intros p l n Hl Hf Hn Hb; [lia|].
  destruct l as [|x l]; simpl in *; [by rewrite Hl, Z.eqb_refl, Z.add_0_r|].
  destruct Hl as (-> & Hx & Hl). destruct (Z.eqb_spec x 0); [done|].
  rewrite wrap32_small by lia. rewrite (IH _ l) by (done || lia). f_equal. lia.
Qed.

Lemma largest_loop_spec fuel m p l acc :
  llist (fb_next m) p l -> (length l < fuel)%nat ->
  largest_loop fuel m p acc = Some (foldl (fun acc x => Z.max acc (block_size m x)) acc l).
Proof.
  revert p l acc. induction fuel as [|fuel IH]; intros p l acc Hl Hf; [lia|].
  destruct l as [|x l]; simpl in *; [by rewrite Hl, Z.eqb_refl|].
  destruct Hl as (-> & Hx & Hl). destruct (Z.eqb_spec x 0); [done|].
  rewrite (IH _ l) by (done || lia). do 2 f_equal.
  destruct (Z.ltb_spec acc (block_size m x)); lia.
Qed.

Lemma inv_fuel h bs :
  heap_inv h bs -> (length (free_addrs HEAP_VIRT_START bs) < list_fuel h)%nat.
Proof.
  intros [Hwf Hend _ _ _ _ _]. pose proof (free_addrs_length HEAP_VIRT_START _ Hwf).
  unfold list_fuel, MIN_BLOCK_SIZE. zmod.
Qed.

(** Tactics that run an allocation or a release on a concrete block list. *)
Ltac norm_blocks Hi := match type of Hi with
  heap_inv _ ?l => let l' := eval vm_compute in l in change l with l' in Hi end.
Ltac alloc_step Hi := match goal with |- context [kmalloc ?n ?h] =>
  let h' := fresh "h" in let E := fresh "E" in let Hi' := fresh "Hi" in
  destruct (kmalloc_fit h _ _ _ _ n Hi eq_refl ltac:(split; [by vm_compute|done]) eq_refl)
    as (h' & E & Hi' & _);
  rewrite E, option_bind_Some; cbv beta iota; clear E Hi; norm_blocks Hi'; rename Hi' into Hi end.
Ltac free_step Hi n := match type of Hi with heap_inv ?h ?l =>
  let b1 := eval vm_compute in (take n l) in
  let r := eval vm_compute in (drop n l) in
  match r with Blk ?s false :: ?b2 =>
    change l with (b1 ++ Blk s false :: b2) in Hi;
    match goal with |- context [kfree ?p h] =>
      change (kfree p h) with (kfree (HEAP_VIRT_START + blen b1 + 4) h) end;
    let h' := fresh "h" in let E := fresh "E" in let Hi' := fresh "Hi" in
    destruct (kfree_spec h b1 s b2 Hi) as (h' & E & Hi' & _);
    rewrite E, option_bind_Some; cbv beta iota; clear E Hi; norm_blocks Hi'; rename Hi' into Hi
  end end.

(** After [heap_selftest] on a freshly initialised heap exactly one free block is
    left and it spans the whole heap, so the self test reports COALESCE OK; every
    allocation in between succeeds. *)
Theorem heap_selftest_coalesces h :
  heap_inv h [Blk (HEAP_INIT_PAGES * PAGE_SIZE) true] ->
  exists h', heap_selftest h = Some (1, HEAP_INIT_PAGES * PAGE_SIZE, h') /\
    heap_inv h' [Blk (HEAP_INIT_PAGES * PAGE_SIZE) true].
Proof.
  intros Hi. unfold heap_selftest. norm_blocks Hi.
  do 5 alloc_step Hi. free_step Hi 1%nat. free_step Hi 3%nat. alloc_step Hi.
  free_step Hi 0%nat. free_step Hi 1%nat. free_step Hi 1%nat. free_step Hi 1%nat.
  unfold heap_free_block_count, heap_largest_free.
  pose proof (inv_fuel _ _ Hi) as Hf. pose proof (hi_list _ _ Hi) as Hl.
  rewrite (count_loop_spec _ _ _ _ _ Hl Hf) by done. rewrite option_bind_Some. cbv beta.
  rewrite (largest_loop_spec _ _ _ _ _ Hl Hf), option_bind_Some. cbv beta.
  eexists. split; [|exact Hi]. do 3 f_equal.
  destruct (hi_tiles _ _ Hi) as (Hh & _). simpl foldl.
  by rewrite (block_size_hdr _ _ 262144 true false) by done.
Qed.

(** the size computation of [kmalloc] wraps: a request of [2^32 - 11] bytes or more
    is served, as if it had succeeded, from a block whose payload is 8 bytes. *)
Theorem kmalloc_size_overflow h bs size bs1 s bs2 :
  heap_inv h bs -> 0xFFFFFFF5 <= size < 2 ^ 32 -> first_fit 16 bs = Some (bs1, s, bs2) ->
  total_size size = 16 /\
  exists h', kmalloc size h = Some (HEAP_VIRT_START + blen bs1 + 4, h') /\
    heap_inv h' (bs1 ++ carve 16 s ++ bs2).
Proof.
  intros Hi Hs Hff.
  pose proof (total_size_wraps size Hs) as Ht.
  split; [done|]. rewrite <- Ht in Hff.
  destruct (kmalloc_fit h bs bs1 s bs2 size Hi) as (h' & ? & Hi' & _); [lia| |done|].
  { rewrite Ht. by split. }
  rewrite Ht in Hi'. eauto.
Qed.
End theorems.

(** ** Witnesses

    A page source that hands out a fixed number of frames, in an address space where the
    heap area is mapped. *)
#[export] Instance counted_source : PageSource nat.
Proof.
  refine {| expand_page _ n := match n with O => (false, O) | S n' => (true, n') end;
            avail n := Z.of_nat n; mapped _ _ := true |}.
  - intros; lia.
  - intros _ [|n] n' ?; simplify_eq; lia.
  - intros _ [|n] n' ?; simplify_eq; lia.
  - done.
  - done.
Defined.

Definition boot_heap : heap nat :=
  heap_init (mk_heap ∅ 0 HEAP_VIRT_START HEAP_VIRT_START 100%nat).

Lemma boot_heap_inv : heap_inv boot_heap [Blk 262144 true].
Proof. by apply (heap_init_spec (mk_heap ∅ 0 HEAP_VIRT_START HEAP_VIRT_START 100%nat)). Qed.

Lemma kmalloc_refines_witness :
  exists p h', kmalloc 100 boot_heap = Some (p, h') /\ p = HEAP_VIRT_START + 4.
Proof.
  destruct (kmalloc_refines boot_heap _ 100 boot_heap_inv ltac:(left; lia)) as (p & h' & E & _ & Hp & _).
  exists p, h'. split; [exact E|exact Hp].
Defined.

(** The heap after a first allocation of 100 bytes. *)
Lemma boot_alloc :
  exists h1, kmalloc 100 boot_heap = Some (HEAP_VIRT_START + 4, h1) /\
    heap_inv h1 [Blk 108 false; Blk 262036 true].
Proof.
  destruct (kmalloc_fit boot_heap _ [] 262144 [] 100 boot_heap_inv) as (h1 & E & Hi & _);
    [lia|by split; [vm_compute|]|done|].
  exists h1. split; [exact E|exact Hi].
Qed.

Lemma kfree_refines_witness :
  exists h1 h', kmalloc 100 boot_heap = Some (HEAP_VIRT_START + 4, h1) /\
    kfree (HEAP_VIRT_START + 4) h1 = Some h' /\ heap_inv h' [Blk 262144 true].
Proof.
  destruct boot_alloc as (h1 & E & Hi).
  destruct (kfree_refines h1 [] 108 [Blk 262036 true] Hi) as (h' & Ek & Hi' & _).
  exists h1, h'. splits; [exact E|exact Ek|exact Hi'].
Defined.

Lemma kmalloc_kfree_roundtrip_witness :
  exists p h1 h2, kmalloc 100 boot_heap = Some (p, h1) /\ kfree p h1 = Some h2 /\ heap_inv h2 [Blk 262144 true].
Proof.
  apply (kmalloc_kfree_roundtrip boot_heap [Blk 262144 true] [] 262144 [] 100 boot_heap_inv); [lia|reflexivity].
Defined.

Lemma kmalloc_fresh_witness :
  exists h1, kmalloc 100 boot_heap = Some (HEAP_VIRT_START + 4, h1) /\
  exists n, 100 <= n /\ HEAP_VIRT_START + 4 <= HEAP_VIRT_START + 4 /\
    HEAP_VIRT_START + 4 + n + 4 <= heap_end h1.
Proof.
  destruct boot_alloc as (h1 & E & _). exists h1. split; [exact E|].
  destruct (kmalloc_fresh boot_heap _ 100 _ h1 boot_heap_inv ltac:(lia) E ltac:(discriminate)) as (n & ? & ? & ? & _).
  exists n. splits; assumption.
Defined.

Lemma heap_init_inv_witness : heap_inv boot_heap [Blk 262144 true].
Proof. by apply (heap_init_inv (mk_heap ∅ 0 HEAP_VIRT_START HEAP_VIRT_START 100%nat)). Defined.

Lemma heap_selftest_coalesces_witness :
  exists h', heap_selftest boot_heap = Some (1, 262144, h') /\ heap_inv h' [Blk 262144 true].
Proof. apply (heap_selftest_coalesces boot_heap). exact boot_heap_inv. Defined.

Lemma kmalloc_size_overflow_witness :
  total_size 0xFFFFFFFF = 16 /\
  exists h', kmalloc 0xFFFFFFFF boot_heap = Some (HEAP_VIRT_START + 4, h') /\
    heap_inv h' (carve 16 262144).
Proof.
  destruct (kmalloc_size_overflow boot_heap _ 0xFFFFFFFF [] 262144 [] boot_heap_inv ltac:(lia) eq_refl)
    as (E & h' & Ek & Hi).
  split; [exact E|]. exists h'. split; [exact Ek|]. by rewrite app_nil_r in Hi.
Defined.

(** A request in the window between 0xFFFFEFF9 and 0xFFFFFFF4 bytes makes [grow_heap] add no
    page at all and report success.  When the last block is allocated, its footer is
    overwritten with 0, a header is stored behind the end of the heap, and that address
    heads the free list. *)
Theorem kmalloc_window_corrupts :
  exists h1 h2, kmalloc (262144 - 8) boot_heap = Some (HEAP_VIRT_START + 4, h1) /\
    kmalloc 0xFFFFF000 h1 = Some (0, h2) /\ heap_end h2 = heap_end h1 /\
    rd (hmem h1) (heap_end h1 - 4) = 262144 /\ rd (hmem h2) (heap_end h2 - 4) = 0 /\
    rd (hmem h2) (heap_end h2) = 1 /\ free_list h2 = heap_end h2.
Proof.
  assert (Hc : match kmalloc (262144 - 8) boot_heap with
    | Some (p, h1) => match kmalloc 0xFFFFF000 h1 with
      | Some (q, h2) => bool_decide (p = HEAP_VIRT_START + 4 /\ q = 0 /\ heap_end h2 = heap_end h1 /\
          rd (hmem h1) (heap_end h1 - 4) = 262144 /\ rd (hmem h2) (heap_end h2 - 4) = 0 /\
          rd (hmem h2) (heap_end h2) = 1 /\ free_list h2 = heap_end h2)
      | None => false end | None => false end = true) by (vm_compute; reflexivity).
  destruct (kmalloc (262144 - 8) boot_heap) as [[p h1]|]; [|discriminate Hc]. exists h1.
  destruct (kmalloc 0xFFFFF000 h1) as [[q h2]|]; [|discriminate Hc]. exists h2.
  apply bool_decide_eq_true in Hc as (-> & -> & Hc). auto.
Qed.
