(* ===== verification/Task.v ===== *)
(** * Tasks and run queues (src/kernel/task.c, include/kernel/task.h, include/kernel/tier.h)

    Task structures live in a store indexed by their address: [tasks[i]] has address
    [i + 1], [idle_task] has address [IDLE], NULL is 0.  The five run queues are the lists
    threaded through [next] between [rq_head[q]] and [rq_tail[q]], exactly as in the code:
    every loop over a queue follows [next] and takes fuel, running out of it being [None]. *)

From S2P Require Import Prelude LList.

Definition MAX_TASKS : Z := 16.
Definition NR_QUEUES : Z := 5.
Definition FD_MAX : Z := 8.
Definition IDLE : Z := 17.

Definition TASK_RUNNING : Z := 0.
Definition TASK_READY : Z := 1.
Definition TASK_WAITING : Z := 2.
Definition TASK_EXITED : Z := 3.

Definition TASK_PRIO_NORMAL : Z := 10.
Definition TASK_PRIO_IDLE : Z := 1.
Definition TASK_TIMESLICE : Z := 20.

(** [tier_t] *)
Definition TIER_KERNEL : Z := 0.
Definition TIER_SYSTEM : Z := 1.
Definition TIER_USER : Z := 2.
Definition TIER_CRITICAL : Z := 3.

Definition TASK_INHERITED : Z := 0x1.

(** Capabilities (include/kernel/caps.h). *)
Definition CAP_WRITE : Z := Z.shiftl 1 0.
Definition CAP_READ : Z := Z.shiftl 1 1.
Definition CAP_GETCHAR : Z := Z.shiftl 1 2.
Definition CAP_PUTCHAR : Z := Z.shiftl 1 3.
Definition CAP_CLEAR : Z := Z.shiftl 1 4.
Definition CAP_EXIT : Z := Z.shiftl 1 5.
Definition CAP_FORK : Z := Z.shiftl 1 6.
Definition CAP_EXEC : Z := Z.shiftl 1 7.
Definition CAP_WAIT : Z := Z.shiftl 1 8.
Definition CAP_TIER_QUERY : Z := Z.shiftl 1 9.
Definition CAP_TIER_REQUEST : Z := Z.shiftl 1 10.
Definition CAP_REBOOT : Z := Z.shiftl 1 11.
Definition CAP_POWEROFF : Z := Z.shiftl 1 12.
Definition CAP_KILL : Z := Z.shiftl 1 13.
Definition CAP_MOUNT : Z := Z.shiftl 1 14.
Definition CAP_MLFQ_QUERY : Z := Z.shiftl 1 15.
Definition CAP_YIELD : Z := Z.shiftl 1 16.
Definition CAP_SET_TIER : Z := Z.shiftl 1 17.
Definition CAP_SANDBOX : Z := Z.shiftl 1 18.
Definition CAP_SANDBOX_QUERY : Z := Z.shiftl 1 19.
Definition CAP_ALL : Z := 0xFFFFFFFF.
Definition CAP_SYSTEM_DEFAULT : Z := CAP_ALL.
Definition CAP_USER_DEFAULT : Z :=
  foldr Z.lor 0 [CAP_WRITE; CAP_READ; CAP_GETCHAR; CAP_PUTCHAR; CAP_CLEAR; CAP_EXIT; CAP_FORK;
                 CAP_EXEC; CAP_WAIT; CAP_TIER_QUERY; CAP_MLFQ_QUERY; CAP_YIELD; CAP_SANDBOX_QUERY].

(** [struct task].  [kstack] is the part of [stack] between [esp] and its top, lowest
    address first; the saved callee registers have no content of their own here. *)
Record task := mk_task {
  pid : Z;
  kstack : list Z;
  priority : Z;
  timeslice : Z;
  state : Z;
  next : Z;
  cur_queue : Z;
  map_ptr : Z;
  cr3 : Z;
  tier : Z;
  user_entry : Z;
  user_stack : Z;
  exit_code : Z;
  parent : Z;
  in_use : Z;
  mlfq_level : Z;
  mlfq_cont_ticks : Z;
  caps : Z;
  mem_limit : Z;
  cpu_quota : Z;
  root_path : list Z;
  tier_override : Z;
  pages_charged : Z;
  quota_used_ticks : Z;
  quota_done : Z;
  kill_pending : Z;
  flags : Z;
  saved_tier : Z;
  wd_managed : Z;
  fd_table : list Z;
}.

#[export] Instance eta_task : Eta task := fun t => mk_task
  (pid t) (kstack t) (priority t) (timeslice t) (state t) (next t) (cur_queue t) (map_ptr t)
  (cr3 t) (tier t) (user_entry t) (user_stack t) (exit_code t) (parent t) (in_use t)
  (mlfq_level t) (mlfq_cont_ticks t) (caps t) (mem_limit t) (cpu_quota t) (root_path t)
  (tier_override t) (pages_charged t) (quota_used_ticks t) (quota_done t) (kill_pending t)
  (flags t) (saved_tier t) (wd_managed t) (fd_table t).

(** [memset(t, 0, sizeof(task_t))] *)
Definition zero_task : task := mk_task
  0 [] 0 0 0 0 0 0 0 0 0 0 0 0 0 0 0 0 0 0 [] 0 0 0 0 0 0 0 0 (replicate (Z.to_nat FD_MAX) 0).

(** The file-scope state of task.c and sched.c, and the two CPU registers a context switch
    sets: CR3 and the TSS kernel stack (recorded as the task that owns it). *)
Record sched := mk_sched {
  tasks : gmap Z task;
  rq_head : gmap Z Z;
  rq_tail : gmap Z Z;
  current_task : Z;
  pid_counter : Z;
  tick_count : Z;
  cpu_cr3 : Z;
  tss_stack : Z;
}.

#[export] Instance eta_sched : Eta sched := fun s => mk_sched
  (tasks s) (rq_head s) (rq_tail s) (current_task s) (pid_counter s) (tick_count s)
  (cpu_cr3 s) (tss_stack s).

(** [*t] *)
Definition tk (s : sched) (t : Z) : task := default zero_task (tasks s !! t).
Definition upd (s : sched) (t : Z) (f : task -> task) : sched :=
  s <| tasks := <[t := f (tk s t)]> (tasks s) |>.

(** [t->field = v] *)
Notation "s <| t # fld := v |>" := (upd s t (fun k => k <| fld := v |>))
  (at level 1, left associativity, format "s  <| t  #  fld  :=  v |>") : kernel_scope.

Definition set_head (s : sched) (q t : Z) : sched := s <| rq_head := wr (rq_head s) q t |>.
Definition set_tail (s : sched) (q t : Z) : sched := s <| rq_tail := wr (rq_tail s) q t |>.

(** A queue holds at most every task once, so this fuel is enough for every walk. *)
Definition QUEUE_FUEL : nat := 18.

Definition tier_to_queue_idx (tr : Z) : Z :=
  if tr =? TIER_KERNEL then 0
  else if tr =? TIER_SYSTEM then 1
  else if tr =? TIER_CRITICAL then 1
  else 2.

Definition clamp_level (l : Z) : Z := if l <? 0 then 0 else if 2 <? l then 2 else l.

Definition task_qidx (s : sched) (t : Z) : Z :=
  if t =? 0 then 2
  else if tier (tk s t) =? TIER_USER then 2 + clamp_level (mlfq_level (tk s t))
  else tier_to_queue_idx (tier (tk s t)).

Definition enqueue_task (t : Z) (s : sched) : sched :=
  if t =? 0 then s
  else
    let q := task_qidx s t in
    let s := s <| t # cur_queue := q |> in
    let s := s <| t # next := 0 |> in
    if negb (rd (rq_tail s) q =? 0) then
      let s := s <| (rd (rq_tail s) q) # next := t |> in
      set_tail s q t
    else set_head (set_tail s q t) q t.

(** [while (prev && prev->next != t) prev = prev->next;] *)
Fixpoint find_prev (fuel : nat) (s : sched) (t prev : Z) : option Z :=
  match fuel with
  | O => None
  | S fuel' =>
      if (prev =? 0) || (next (tk s prev) =? t) then Some prev
      else find_prev fuel' s t (next (tk s prev))
  end.

Definition dequeue_task (t : Z) (s : sched) : option sched :=
  if t =? 0 then Some s
  else
    let q := cur_queue (tk s t) in
    if (q <? 0) || (NR_QUEUES <=? q) then Some s
    else if rd (rq_head s) q =? t then
      let s := set_head s q (next (tk s t)) in
      let s := if rd (rq_head s) q =? 0 then set_tail s q 0 else s in
      Some (s <| t # next := 0 |>)
    else
      prev ← find_prev QUEUE_FUEL s t (rd (rq_head s) q);
      if prev =? 0 then Some s
      else
        let s := s <| prev # next := next (tk s t) |> in
        let s := if rd (rq_tail s) q =? t then set_tail s q prev else s in
        Some (s <| t # next := 0 |>).

(** [for (probe = t; probe; probe = probe->next) if (!probe->quota_done) ...]: the first
    task of the list with quota left, NULL if there is none. *)
Fixpoint probe_loop (fuel : nat) (s : sched) (p : Z) : option Z :=
  match fuel with
  | O => None
  | S fuel' =>
      if p =? 0 then Some 0
      else if quota_done (tk s p) =? 0 then Some p
      else probe_loop fuel' s (next (tk s p))
  end.

(** Move the head [t] of queue [q] behind its tail. *)
Definition rotate (q t : Z) (s : sched) : sched :=
  let s := set_head s q (next (tk s t)) in
  let s := s <| (rd (rq_tail s) q) # next := t |> in
  let s := set_tail s q t in
  s <| t # next := 0 |>.

(** [while (t->quota_done) { rotate; t = rq_head[q]; }] *)
Fixpoint skip_done (fuel : nat) (q t : Z) (s : sched) : option (Z * sched) :=
  match fuel with
  | O => None
  | S fuel' =>
      if quota_done (tk s t) =? 0 then Some (t, s)
      else let s := rotate q t s in skip_done fuel' q (rd (rq_head s) q) s
  end.

(** The end of the loop body: the chosen head [t] goes behind the tail, or leaves the
    queue empty when it is alone. *)
Definition pick_head (q t : Z) (s : sched) : option (Z * sched) :=
  if negb (next (tk s t) =? 0) then Some (t, rotate q t s)
  else Some (t, set_tail (set_head s q 0) q 0).

(** The body of the queue loop of [pick_next_task] and [pick_next_lower]: NULL means
    [continue]. *)
Definition pick_queue (q : Z) (s : sched) : option (Z * sched) :=
  let t := rd (rq_head s) q in
  if t =? 0 then Some (0, s)
  else if negb (quota_done (tk s t) =? 0) then
    found ← probe_loop QUEUE_FUEL s t;
    if found =? 0 then Some (0, s)
    else
      '(t, s) ← skip_done QUEUE_FUEL q t s;
      pick_head q t s
  else pick_head q t s.

(** [for (q = ...; q < NR_QUEUES; q++)] with [n] queues left. *)
Fixpoint pick_loop (n : nat) (q : Z) (s : sched) : option (Z * sched) :=
  match n with
  | O => Some (0, s)
  | S n' =>
      '(t, s') ← pick_queue q s;
      if t =? 0 then pick_loop n' (q + 1) s' else Some (t, s')
  end.

Definition pick_next_task (s : sched) : option (Z * sched) :=
  pick_loop (Z.to_nat NR_QUEUES) 0 s.

Definition pick_next_lower (min_q : Z) (s : sched) : option (Z * sched) :=
  pick_loop (Z.to_nat (NR_QUEUES - min_q)) min_q s.

Fixpoint peek_loop (n : nat) (q : Z) (s : sched) : option Z :=
  match n with
  | O => Some 0
  | S n' =>
      t ← probe_loop QUEUE_FUEL s (rd (rq_head s) q);
      if t =? 0 then peek_loop n' (q + 1) s else Some t
  end.

Definition peek_next_task (s : sched) : option Z := peek_loop (Z.to_nat NR_QUEUES) 0 s.

(** Addresses of [tasks[0]] .. [tasks[MAX_TASKS - 1]] in array order. *)
Definition task_slots : list Z := seqZ 1 MAX_TASKS.

Definition create_task_slot (s : sched) : Z * sched :=
  match list_find (fun t => in_use (tk s t) = 0) task_slots with
  | Some (_, t) =>
      let s := upd s t (fun _ => zero_task <| in_use := 1 |> <| cur_queue := -1 |>
                                           <| pid := pid_counter s |>) in
      (t, s <| pid_counter := pid_counter s + 1 |>)
  | None => (0, s)
  end.

Definition free_task_slot (t : Z) (s : sched) : sched :=
  if t =? 0 then s
  else if (t - 1 <? 0) || (MAX_TASKS <=? t - 1) then s
  else upd s t (fun _ => zero_task).

(** [create_task]: [func] and [task_exit_handler] are code addresses; [page_directory] is
    the kernel's page directory. *)
Definition create_task (page_directory task_exit_handler func prio : Z) (s : sched) : Z * sched :=
  let '(t, s) := create_task_slot s in
  if t =? 0 then (0, s)
  else
    (t, upd s t (fun k =>
      k <| priority := if 0 <? prio then prio else TASK_PRIO_NORMAL |>
        <| timeslice := TASK_TIMESLICE |> <| state := TASK_READY |> <| cr3 := page_directory |>
        <| tier := TIER_USER |> <| next := 0 |> <| map_ptr := 0 |> <| mlfq_level := 0 |>
        <| mlfq_cont_ticks := 0 |> <| caps := CAP_USER_DEFAULT |> <| mem_limit := 0 |>
        <| cpu_quota := 0 |> <| pages_charged := 0 |> <| quota_used_ticks := 0 |>
        <| quota_done := 0 |> <| wd_managed := 0 |> <| parent := 0 |> <| tier_override := -1 |>
        <| root_path := [] |> <| kstack := [func; task_exit_handler] |>)).

Definition task_set_tier (t tr : Z) (s : sched) : option sched :=
  if t =? 0 then Some s
  else
    let oldq := task_qidx s t in
    let newq := if tr =? TIER_USER then 2 + clamp_level (mlfq_level (tk s t))
                else tier_to_queue_idx tr in
    if negb (oldq =? newq) && (state (tk s t) =? TASK_READY) && negb (t =? current_task s) then
      s ← dequeue_task t s;
      Some (enqueue_task t (s <| t # tier := tr |>))
    else Some (s <| t # tier := tr |>).

Definition task_set_mlfq_level (t level : Z) (s : sched) : option sched :=
  if t =? 0 then Some s
  else
    let level := clamp_level level in
    if mlfq_level (tk s t) =? level then Some s
    else
      let oldq := task_qidx s t in
      let s := s <| t # mlfq_level := level |> in
      let newq := task_qidx s t in
      if negb (oldq =? newq) && (state (tk s t) =? TASK_READY) && negb (t =? current_task s) then
        s ← dequeue_task t s;
        Some (enqueue_task t s)
      else Some s.

Definition task_quota_period_reset (s : sched) : sched :=
  foldl (fun s t =>
    if negb (in_use (tk s t) =? 0)
    then s <| t # quota_used_ticks := 0 |> <| t # quota_done := 0 |>
    else s) s task_slots.

Definition task_find_child (p cpid : Z) (s : sched) : Z :=
  if p =? 0 then 0
  else match list_find (fun t => in_use (tk s t) <> 0 /\ parent (tk s t) = p /\
                                 (cpid = -1 \/ pid (tk s t) = cpid)) task_slots with
       | Some (_, t) => t
       | None => 0
       end.

Definition task_reap_orphans (s : sched) : sched :=
  foldl (fun s t =>
    if (in_use (tk s t) =? 0) || negb (state (tk s t) =? TASK_EXITED) then s
    else if negb (parent (tk s t) =? 0) || negb (wd_managed (tk s t) =? 0) then s
    else free_task_slot t s) s task_slots.

Definition task_init (page_directory task_exit_handler idle_loop : Z) (s : sched) : sched :=
  let s := foldl (fun s q => set_tail (set_head s q 0) q 0) s (seqZ 0 NR_QUEUES) in
  let s := upd s IDLE (fun _ =>
    zero_task <| priority := TASK_PRIO_IDLE |> <| timeslice := TASK_TIMESLICE |>
              <| state := TASK_READY |> <| cr3 := page_directory |> <| tier := TIER_KERNEL |>
              <| caps := CAP_ALL |> <| kstack := [idle_loop; task_exit_handler] |>) in
  s <| current_task := IDLE |>.

Definition task_mlfq_aging (s : sched) : option sched :=
  foldl (fun os t =>
    s ← os;
    if negb (in_use (tk s t) =? 0) && (tier (tk s t) =? TIER_USER) && (0 <? mlfq_level (tk s t))
       && (quota_done (tk s t) =? 0)
       && ((state (tk s t) =? TASK_READY) || (state (tk s t) =? TASK_RUNNING))
    then task_set_mlfq_level t (mlfq_level (tk s t) - 1) s
    else Some s) (Some s) task_slots.
