(* ===== verification/TaskInv.v ===== *)
(** * Run queues refine lists

    [rq_ok s qs]: the pointer structure of the five run queues represents the lists [qs q].
    Enqueueing appends, dequeueing removes, and [pick_next_task] takes the first task with
    quota left of the first queue that has one. *)

From S2P Require Import Prelude LList Task.

(** ** The abstract queues *)

Definition qset (qs : Z -> list Z) (q : Z) (l : list Z) : Z -> list Z :=
  fun q' => if decide (q = q') then l else qs q'.

Definition queue_range (q : Z) : Prop := 0 <= q < 5.
Definition valid_task (t : Z) : Prop := 1 <= t <= 17.

Definition ready (s : sched) (t : Z) : bool := quota_done (tk s t) =? 0.

(** Split a queue at its first task that satisfies [r]. *)
Fixpoint split_ready (r : Z -> bool) (l : list Z) : option (list Z * Z * list Z) :=
  match l with
  | [] => None
  | t :: l' =>
      if r t then Some ([], t, l')
      else match split_ready r l' with
           | Some (l1, x, l2) => Some (t :: l1, x, l2)
           | None => None
           end
  end.

(** The queue after its task [t], between [l1] and [l2], was picked: [t] goes to the end,
    and leaves the queue if it was alone. *)
Definition picked (l1 : list Z) (t : Z) (l2 : list Z) : list Z :=
  match l2 ++ l1 with [] => [] | l => l ++ [t] end.

(** The first of [n] queues from [q] on with a ready task, and its split. *)
Fixpoint choose (r : Z -> bool) (qs : Z -> list Z) (n : nat) (q : Z)
    : option (Z * (list Z * Z * list Z)) :=
  match n with
  | O => None
  | S n' => match split_ready r (qs q) with
            | Some x => Some (q, x)
            | None => choose r qs n' (q + 1)
            end
  end.

(** ** Representation *)

Definition nx (s : sched) (t : Z) : Z := next (tk s t).

Record rq_ok (s : sched) (qs : Z -> list Z) : Prop := {
  rq_list q : queue_range q -> llist (nx s) (rd (rq_head s) q) (qs q);
  rq_last q : queue_range q -> rd (rq_tail s) q = lastp (qs q);
  rq_mem q t : queue_range q -> t ∈ qs q -> cur_queue (tk s t) = q /\ valid_task t;
}.

(** Only [next] fields differ. *)
Definition eq_nonext (s s' : sched) : Prop :=
  (forall t, (tk s' t) <| next := 0 |> = (tk s t) <| next := 0 |>) /\
  current_task s' = current_task s /\ pid_counter s' = pid_counter s /\
  tick_count s' = tick_count s /\ cpu_cr3 s' = cpu_cr3 s /\ tss_stack s' = tss_stack s.

(** ** The store *)

Lemma tk_upd s t f t' : tk (upd s t f) t' = if decide (t = t') then f (tk s t) else tk s t'.
Proof.
  unfold tk, upd. cbn. rewrite lookup_insert. by case_decide.
Qed.

Lemma tk_upd_eq s t f : tk (upd s t f) t = f (tk s t).
Proof. rewrite tk_upd. by case_decide. Qed.

Lemma tk_upd_ne s t f t' : t <> t' -> tk (upd s t f) t' = tk s t'.
Proof. intros. rewrite tk_upd. by case_decide. Qed.

(** A projection that the update does not change. *)
Lemma tk_upd_proj {A} (F : task -> A) s t f t' :
  (forall k, F (f k) = F k) -> F (tk (upd s t f) t') = F (tk s t').
Proof. intros Hf. rewrite tk_upd. case_decide; [|done]. subst. apply Hf. Qed.

Lemma tk_set_head s q v t : tk (set_head s q v) t = tk s t.
Proof. done. Qed.
Lemma tk_set_tail s q v t : tk (set_tail s q v) t = tk s t.
Proof. done. Qed.
Lemma nx_set_head s q v t : nx (set_head s q v) t = nx s t.
Proof. done. Qed.
Lemma nx_set_tail s q v t : nx (set_tail s q v) t = nx s t.
Proof. done. Qed.
Lemma head_set_head s q v : rq_head (set_head s q v) = wr (rq_head s) q v.
Proof. done. Qed.
Lemma head_set_tail s q v : rq_head (set_tail s q v) = rq_head s.
Proof. done. Qed.
Lemma tail_set_head s q v : rq_tail (set_head s q v) = rq_tail s.
Proof. done. Qed.
Lemma tail_set_tail s q v : rq_tail (set_tail s q v) = wr (rq_tail s) q v.
Proof. done. Qed.
Lemma head_upd s t f : rq_head (upd s t f) = rq_head s.
Proof. done. Qed.
Lemma tail_upd s t f : rq_tail (upd s t f) = rq_tail s.
Proof. done. Qed.

Create Rewrite HintDb sched.
#[export] Hint Rewrite tk_set_head tk_set_tail nx_set_head nx_set_tail head_set_head
  head_set_tail tail_set_head tail_set_tail head_upd tail_upd tk_upd_eq rd_wr_eq : sched.
Arguments upd : simpl never.
Arguments tk : simpl never.
Arguments set_head : simpl never.
Arguments set_tail : simpl never.
Ltac sched := autorewrite with sched.

Lemma eq_nonext_refl s : eq_nonext s s.
Proof. by repeat split. Qed.

Lemma eq_nonext_trans s1 s2 s3 : eq_nonext s1 s2 -> eq_nonext s2 s3 -> eq_nonext s1 s3.
Proof.
  intros [Ha Hga] [Hb Hgb]. split; [intros t; by rewrite Hb, Ha|].
  destruct_and!. splits; congruence.
Qed.

Lemma eq_nonext_upd s t v : eq_nonext s (s <| t # next := v |>).
Proof.
  split; [|done]. intros t'. rewrite tk_upd. case_decide; [|done]. by subst.
Qed.

Lemma eq_nonext_proj {A} (F : task -> A) s s' t :
  (forall k v, F (k <| next := v |>) = F k) -> eq_nonext s s' -> F (tk s' t) = F (tk s t).
Proof.
  intros HF [H _]. specialize (H t). apply (f_equal F) in H. by rewrite !HF in H.
Qed.

Lemma eq_nonext_ready s s' t : eq_nonext s s' -> ready s' t = ready s t.
Proof. intros Heq. unfold ready. by rewrite (eq_nonext_proj quota_done s s'). Qed.

#[export] Hint Resolve eq_nonext_refl eq_nonext_upd : kernel.

Lemma nx_upd_ne s t v t' : t <> t' -> nx (s <| t # next := v |>) t' = nx s t'.
Proof. intros. unfold nx. by rewrite tk_upd_ne. Qed.

Lemma nx_upd_eq s t v : nx (s <| t # next := v |>) t = v.
Proof. unfold nx. by rewrite tk_upd_eq. Qed.

Lemma qset_eq qs q l : qset qs q l q = l.
Proof. unfold qset. by case_decide. Qed.

Lemma qset_ne qs q l q' : q <> q' -> qset qs q l q' = qs q'.
Proof. intros. unfold qset. by case_decide. Qed.

(** ** Consequences of the representation *)

Lemma rq_NoDup s qs q : rq_ok s qs -> queue_range q -> NoDup (qs q).
Proof. intros [Hl _ _] Hq. eauto with kernel. Qed.

Lemma rq_length s qs q : rq_ok s qs -> queue_range q -> (length (qs q) < QUEUE_FUEL)%nat.
Proof.
  intros Hr Hq. pose proof (rq_NoDup _ _ _ Hr Hq) as Hnd.
  enough (length (qs q) <= 17)%nat by (unfold QUEUE_FUEL; lia).
  apply (NoDup_range_length _ 1); [done|]. intros x Hx.
  destruct (rq_mem _ _ Hr q x Hq Hx) as [_ Hv]. unfold valid_task in Hv. lia.
Qed.

(** A task is in at most one queue. *)
Lemma rq_disjoint s qs q q' t :
  rq_ok s qs -> queue_range q -> queue_range q' -> t ∈ qs q -> t ∈ qs q' -> q = q'.
Proof.
  intros Hr Hq Hq' H1 H2. destruct (rq_mem _ _ Hr q t Hq H1), (rq_mem _ _ Hr q' t Hq' H2). congruence.
Qed.

Lemma task_qidx_range s t : queue_range (task_qidx s t).
Proof.
  unfold task_qidx, tier_to_queue_idx, clamp_level, queue_range.
  repeat case_match; bool_prop; lia.
Qed.

Lemma lastp_snoc l t : lastp (l ++ [t]) = t.
Proof. unfold lastp. by rewrite last_snoc. Qed.

(** ** Enqueue and dequeue *)

(** Replacing the list of one queue. *)
Lemma rq_ok_qset s s' qs q l :
  rq_ok s qs -> queue_range q ->
  llist (nx s') (rd (rq_head s') q) l -> rd (rq_tail s') q = lastp l ->
  (forall t, t ∈ l -> cur_queue (tk s' t) = q /\ valid_task t) ->
  (forall q', queue_range q' -> q' <> q ->
     rd (rq_head s') q' = rd (rq_head s) q' /\ rd (rq_tail s') q' = rd (rq_tail s) q' /\
     forall t, t ∈ qs q' -> nx s' t = nx s t /\ cur_queue (tk s' t) = cur_queue (tk s t)) ->
  rq_ok s' (qset qs q l).
Proof.
  intros Hr Hq Hl Hlast Hm Ho. constructor; [intros q' Hq'|intros q' Hq'|intros q' t Hq' Ht];
    unfold qset in *; case_decide; subst; auto;
    destruct (Ho q' Hq' ltac:(congruence)) as (Hh & Ht' & Hn).
  - rewrite Hh. eapply llist_ext; [|by apply (rq_list _ _ Hr)]. intros x Hx. by destruct (Hn x Hx).
  - rewrite Ht'. by apply (rq_last _ _ Hr).
  - destruct (Hn t Ht) as [_ ->]. by apply (rq_mem _ _ Hr).
Qed.

Definition unqueued (qs : Z -> list Z) (t : Z) : Prop := forall q, queue_range q -> t ∉ qs q.

Lemma enqueue_refines s qs t :
  rq_ok s qs -> valid_task t -> unqueued qs t ->
  let q := task_qidx s t in rq_ok (enqueue_task t s) (qset qs q (qs q ++ [t])).
Proof.
  intros Hr Hv Hu q. assert (Hq : queue_range q) by apply task_qidx_range.
  assert (Ht0 : t <> 0) by (unfold valid_task in Hv; lia).
  unfold enqueue_task. destruct (Z.eqb_spec t 0); [done|]. cbv zeta. fold q.
  set (s1 := s <| t # cur_queue := q |> <| t # next := 0 |>).
  assert (N1 : forall x, x <> t -> tk s1 x = tk s x) by (intros; unfold s1; by rewrite !tk_upd_ne).
  assert (Et : nx s1 t = 0) by (unfold s1; by rewrite nx_upd_eq).
  assert (Ec : cur_queue (tk s1 t) = q) by (unfold s1; by rewrite !tk_upd_eq).
  pose proof (rq_list _ _ Hr q Hq) as Hl. pose proof (rq_last _ _ Hr q Hq) as Hla.
  change (rq_tail s1) with (rq_tail s). rewrite Hla.
  destruct (qs q) as [|x l _] eqn:Eq using rev_ind.
  - simpl. apply rq_ok_qset with s; [done|done|..]; sched.
    + simpl. by sched.
    + done.
    + intros y ->%list_elem_of_singleton. by sched.
    + intros q' Hq' Hne. rewrite !rd_wr_ne by done. splits; [done..|].
      intros y Hy. assert (y <> t) by (intros ->; by apply (Hu q')). sched. unfold nx. by rewrite !N1.
  - assert (Hx : x ∈ qs q) by (rewrite Eq; set_solver).
    assert (Hxt : x <> t) by (intros ->; by apply (Hu q)).
    pose proof (llist_nonzero _ _ _ x Hl ltac:(set_solver)) as Hx0.
    unfold lastp. rewrite last_snoc. cbn [default from_option id]. destruct (Z.eqb_spec x 0); [done|]. cbn [negb].
    assert (Hnx : forall y, y <> x -> y <> t -> nx (s1 <| x # next := t |>) y = nx s y)
      by (intros; rewrite nx_upd_ne by done; unfold nx; by rewrite N1).
    apply rq_ok_qset with s; [done|done|..]; sched.
    + rewrite <- app_assoc. eapply llist_snoc; [exact Hl|done|..]; sched.
      * apply nx_upd_eq.
      * by rewrite nx_upd_ne.
      * intros y Hy. sched. apply Hnx.
        -- intros ->. apply llist_NoDup, NoDup_app in Hl as (_ & Hl & _). apply (Hl x Hy); set_solver.
        -- intros ->. apply (Hu q Hq). rewrite Eq. set_solver.
    + by rewrite lastp_snoc.
    + intros y [Hy| ->%list_elem_of_singleton]%elem_of_app; sched; rewrite (tk_upd_proj cur_queue) by done; [|done].
      assert (y <> t) by (intros ->; apply (Hu q Hq); by rewrite Eq). rewrite N1 by done.
      apply (rq_mem _ _ Hr); [done|by rewrite Eq].
    + intros q' Hq' Hne. rewrite rd_wr_ne by done. splits; [done..|]. intros y Hy.
      assert (y <> t) by (intros ->; by apply (Hu q')).
      assert (y <> x) by (intros ->; by apply Hne, (rq_disjoint s qs _ _ x)).
      sched. split; [by apply Hnx|]. by rewrite tk_upd_ne, N1.
Qed.

Lemma enqueue_fields {A} (F : task -> A) s t t' :
  (forall k v, F (k <| next := v |>) = F k) -> (forall k v, F (k <| cur_queue := v |>) = F k) ->
  F (tk (enqueue_task t s) t') = F (tk s t').
Proof.
  intros H1 H2. unfold enqueue_task. destruct (t =? 0); [done|]. cbv zeta.
  destruct (negb _); rewrite ?tk_set_head, ?tk_set_tail, !tk_upd_proj by auto; done.
Qed.

Lemma find_prev_spec fuel s t p l1 x l2 :
  llist (nx s) p (l1 ++ x :: t :: l2) -> (length l1 < fuel)%nat ->
  find_prev fuel s t p = Some x.
Proof.
  intros Hl. pose proof (llist_NoDup _ _ _ Hl) as Hnd. revert p l1 Hl Hnd.
  induction fuel as [|fuel IH]; intros p l1 Hl Hnd Hf; [lia|]. destruct l1 as [|y l1]; simpl.
  - destruct Hl as (-> & Hx & Ht & _). unfold nx in Ht. rewrite Ht, Z.eqb_refl, orb_true_r. done.
  - destruct Hl as (-> & Hy & Hl). apply NoDup_cons in Hnd as [Hy' Hnd].
    destruct (Z.eqb_spec y 0); [done|]. simpl.
    pose proof (llist_head _ _ _ Hl) as Eh. fold (nx s y).
    destruct (Z.eqb_spec (nx s y) t) as [Et|]; [|apply IH with l1; [done|done|simpl in Hf; lia]].
    exfalso. rewrite Eh in Et. destruct l1 as [|z l1]; simpl in Et; subst; [|].
    + apply NoDup_cons in Hnd as [Hnd _]. set_solver.
    + apply NoDup_cons in Hnd as [Hnd _]. set_solver.
Qed.

Lemma find_prev_none fuel s t p l :
  llist (nx s) p l -> t ∉ l -> t <> 0 -> (length l < fuel)%nat ->
  exists x, find_prev fuel s t p = Some x /\ x = 0.
Proof.
  revert p l. induction fuel as [|fuel IH]; intros p l Hl Ht Ht0 Hf; [lia|].
  destruct l as [|y l]; simpl.
  - rewrite Hl. exists 0. done.
  - destruct Hl as (-> & Hy & Hl). destruct (Z.eqb_spec y 0); [done|]. simpl. fold (nx s y).
    pose proof (llist_head _ _ _ Hl) as Eh.
    destruct (Z.eqb_spec (nx s y) t) as [Et|].
    + exfalso. rewrite Eh in Et. destruct l as [|z l]; simpl in Et; [done|]. subst. set_solver.
    + eapply IH; [done|set_solver|done|simpl in Hf; lia].
Qed.

(** [t] taken out of every queue. *)
Definition without (t : Z) (qs : Z -> list Z) : Z -> list Z :=
  fun q => filter (fun x => x <> t) (qs q).

Lemma rq_ok_ext s qs qs' :
  (forall q, queue_range q -> qs' q = qs q) -> rq_ok s qs -> rq_ok s qs'.
Proof.
  intros E [Hl Ht Hm]. split; intros q; intros; rewrite E in * by done; auto.
Qed.

Lemma filter_without (t : Z) (l : list Z) : t ∉ l -> filter (fun x => x <> t) l = l.
Proof.
  induction l as [|x l IH]; intros Ht; [done|]. rewrite filter_cons_True by set_solver.
  by rewrite IH by set_solver.
Qed.

Lemma without_split (t : Z) (l1 l2 : list Z) :
  NoDup (l1 ++ t :: l2) -> filter (fun x => x <> t) (l1 ++ t :: l2) = l1 ++ l2.
Proof.
  intros (_ & Hd & Hn)%NoDup_app. apply NoDup_cons in Hn as [Hn _].
  rewrite filter_app, filter_cons_False by auto. rewrite !filter_without; [done|done|].
  intros Ht. apply (Hd t Ht). set_solver.
Qed.

Lemma without_unqueued t qs : unqueued (without t qs) t.
Proof. intros q _. unfold without. rewrite list_elem_of_filter. tauto. Qed.

(** Unlinking a task, wherever it is in the list, given what the code wrote. *)
Lemma rq_ok_without s s' qs q t l1 l2 :
  rq_ok s qs -> queue_range q -> qs q = l1 ++ t :: l2 -> eq_nonext s s' ->
  llist (nx s') (rd (rq_head s') q) (l1 ++ l2) -> rd (rq_tail s') q = lastp (l1 ++ l2) ->
  (forall q', q' <> q -> rd (rq_head s') q' = rd (rq_head s) q' /\ rd (rq_tail s') q' = rd (rq_tail s) q') ->
  (forall x, x ∉ qs q -> nx s' x = nx s x) ->
  rq_ok s' (without t qs).
Proof.
  intros Hr Hq E Heq Hl Hla Ho Hn.
  assert (Hcq : forall x, cur_queue (tk s' x) = cur_queue (tk s x))
    by (intros; by apply (eq_nonext_proj cur_queue)).
  apply rq_ok_ext with (qset qs q (l1 ++ l2)).
  { intros q' Hq'. unfold without, qset. case_decide as Hd; [subst q'|].
    - rewrite E, without_split; [done|]. rewrite <- E. by apply (rq_NoDup s).
    - apply filter_without. intros Ht. apply Hd. apply (rq_disjoint s qs _ _ t); auto.
      rewrite E. set_solver. }
  apply rq_ok_qset with s; auto.
  - intros x Hx. rewrite Hcq. apply (rq_mem _ _ Hr); [done|]. rewrite E. set_solver.
  - intros q' Hq' Hne. destruct (Ho q' Hne). splits; auto. intros x Hx. split; [|done].
    apply Hn. intros Hx'. by apply Hne, (rq_disjoint s qs _ _ x).
Qed.

Lemma eq_nonext_set_head s q v : eq_nonext s (set_head s q v).
Proof. by repeat split. Qed.
Lemma eq_nonext_set_tail s q v : eq_nonext s (set_tail s q v).
Proof. by repeat split. Qed.
#[export] Hint Resolve eq_nonext_set_head eq_nonext_set_tail : kernel.

(** Chain [eq_nonext] through a sequence of writes. *)
Ltac nonext := repeat first
  [ apply eq_nonext_refl
  | eapply eq_nonext_trans; [|apply eq_nonext_upd]
  | eapply eq_nonext_trans; [|apply eq_nonext_set_head]
  | eapply eq_nonext_trans; [|apply eq_nonext_set_tail] ].

Lemma dequeue_head s qs q t l :
  rq_ok s qs -> queue_range q -> qs q = t :: l -> cur_queue (tk s t) = q -> t <> 0 ->
  exists s', dequeue_task t s = Some s' /\ rq_ok s' (without t qs) /\ eq_nonext s s'.
Proof.
  intros Hr Hq E Ecq Ht0. pose proof (rq_list _ _ Hr q Hq) as Hl. pose proof (rq_last _ _ Hr q Hq) as Hla.
  pose proof (rq_NoDup _ _ _ Hr Hq) as Hnd. rewrite E in *. apply NoDup_cons in Hnd as [Hnt _].
  destruct Hl as (Hh & _ & Hl). unfold dequeue_task. rewrite Ecq, Hh, Z.eqb_refl.
  destruct (Z.eqb_spec t 0); [done|].
  replace ((q <? 0) || (NR_QUEUES <=? q))%bool with false
    by (symmetry; unfold queue_range, NR_QUEUES in *; apply orb_false_iff; rewrite Z.ltb_ge, Z.leb_gt; lia).
  cbv zeta. sched. pose proof (llist_head _ _ _ Hl) as Hn. fold (nx s t).
  eexists; split; [done|]. split; [|destruct (_ =? _); nonext].
  assert (Hl' : llist (nx (s <| t # next := 0 |>)) (nx s t) l).
  { eapply llist_ext; [|done]. intros x Hx. symmetry. apply nx_upd_ne. by intros ->. }
  eapply (rq_ok_without s _ qs q t [] l); [done..| | | | |].
  - destruct (_ =? _); nonext.
  - destruct (Z.eqb_spec (nx s t) 0); sched; exact Hl'.
  - rewrite Hn. destruct l as [|y l]; simpl.
    + by sched.
    + destruct Hl as (_ & Hy & _). destruct (Z.eqb_spec y 0); [done|]. sched. rewrite Hla. done.
  - intros q' Hne. destruct (_ =? _); sched; by rewrite !rd_wr_ne.
  - intros x Hx. rewrite E in Hx. destruct (_ =? _); rewrite nx_upd_ne by set_solver; done.
Qed.

Lemma queue_range_guard q :
  queue_range q -> ((q <? 0) || (NR_QUEUES <=? q))%bool = false.
Proof. unfold queue_range, NR_QUEUES. rewrite orb_false_iff, Z.ltb_ge, Z.leb_gt. lia. Qed.

Lemma dequeue_inner s qs q t l1 x l2 :
  rq_ok s qs -> queue_range q -> qs q = l1 ++ x :: t :: l2 -> cur_queue (tk s t) = q -> t <> 0 ->
  exists s', dequeue_task t s = Some s' /\ rq_ok s' (without t qs) /\ eq_nonext s s'.
Proof.
  intros Hr Hq E Ecq Ht0. pose proof (rq_list _ _ Hr q Hq) as Hl. pose proof (rq_last _ _ Hr q Hq) as Hla.
  pose proof (rq_NoDup _ _ _ Hr Hq) as Hnd. pose proof (rq_length _ _ _ Hr Hq) as Hlen.
  rewrite E in *. rewrite length_app in Hlen. cbn in Hlen.
  pose proof (llist_nonzero _ _ _ x Hl ltac:(set_solver)) as Hx0.
  pose proof (find_prev_spec QUEUE_FUEL _ _ _ _ _ _ Hl ltac:(lia)) as Hf.
  assert (Hd : (t ∉ l1) /\ t <> x /\ (t ∉ l2) /\ (x ∉ l1) /\ (x ∉ l2)).
  { apply NoDup_app in Hnd as (_ & Hd & Hn). apply NoDup_cons in Hn as [Hxn Hn].
    apply NoDup_cons in Hn as [Htn _]. splits; try (intros ?; eapply Hd; [eassumption|]); set_solver. }
  destruct Hd as (D1 & D2 & D3 & D4 & D5).
  assert (Hh : rd (rq_head s) q <> t).
  { rewrite (llist_head _ _ _ Hl). destruct l1; simpl; set_solver. }
  unfold dequeue_task. rewrite Ecq, queue_range_guard by done. destruct (Z.eqb_spec t 0); [done|].
  destruct (Z.eqb_spec (rd (rq_head s) q) t); [done|]. rewrite Hf. cbn [mbind option_bind].
  destruct (Z.eqb_spec x 0); [done|]. cbv zeta. fold (nx s t). sched.
  eexists; split; [done|]. split; [|destruct (_ =? _); nonext].
  assert (Hnx : forall y, y <> t -> nx (s <| x # next := nx s t |> <| t # next := 0 |>) y =
                               if decide (y = x) then nx s t else nx s y).
  { intros y Hy. rewrite nx_upd_ne by done. case_decide; [subst; by rewrite nx_upd_eq|by rewrite nx_upd_ne]. }
  assert (Hl' : llist (nx (s <| x # next := nx s t |> <| t # next := 0 |>)) (rd (rq_head s) q) (l1 ++ x :: l2)).
  { eapply llist_unlink; [done| |].
    - rewrite Hnx by done. by rewrite decide_True.
    - intros z Hz. rewrite Hnx by (intros ->; tauto). rewrite decide_False; [done|]. intros ->; tauto. }
  eapply (rq_ok_without s _ qs q t (l1 ++ [x]) l2); [done|done|by rewrite <- app_assoc|..]; rewrite <- ?app_assoc; simpl app.
  - destruct (_ =? _); nonext.
  - destruct (_ =? _); sched; exact Hl'.
  - destruct (Z.eqb_spec (rd (rq_tail s) q) t) as [Et|Ne]; sched; rewrite Hla in *;
      destruct l2 as [|z l2 _] using rev_ind.
    + by rewrite lastp_snoc.
    + exfalso. rewrite !app_comm_cons, app_assoc, lastp_snoc in Et. set_solver.
    + exfalso. apply Ne. change (l1 ++ [x; t]) with (l1 ++ [x] ++ [t]). by rewrite app_assoc, lastp_snoc.
    + rewrite !app_comm_cons, !(app_assoc l1), !lastp_snoc. done.
  - intros q' Hne. destruct (_ =? _); sched; by rewrite ?rd_wr_ne.
  - intros y Hy. rewrite E in Hy. trans (nx (s <| x # next := nx s t |> <| t # next := 0 |>) y).
    + by destruct (_ =? _).
    + rewrite Hnx by set_solver. rewrite decide_False; [done|]. set_solver.
Qed.

Lemma dequeue_absent s qs t :
  rq_ok s qs -> t <> 0 -> unqueued qs t -> dequeue_task t s = Some s.
Proof.
  intros Hr Ht0 Hu. unfold dequeue_task. destruct (Z.eqb_spec t 0); [done|].
  set (q := cur_queue (tk s t)). destruct (_ || _)%bool eqn:Eg; [done|].
  assert (Hq : queue_range q) by (unfold queue_range, NR_QUEUES in *; bool_prop; lia).
  pose proof (rq_list _ _ Hr q Hq) as Hl. pose proof (Hu q Hq) as Hn.
  destruct (Z.eqb_spec (rd (rq_head s) q) t) as [E|].
  { exfalso. rewrite (llist_head _ _ _ Hl) in E. destruct (qs q); simpl in E; set_solver. }
  destruct (find_prev_none QUEUE_FUEL _ _ _ _ Hl Hn Ht0 (rq_length _ _ _ Hr Hq)) as (? & Hf & ->).
  by rewrite Hf.
Qed.

Lemma dequeue_refines s qs t :
  rq_ok s qs -> t <> 0 ->
  exists s', dequeue_task t s = Some s' /\ rq_ok s' (without t qs) /\ eq_nonext s s'.
Proof.
  intros Hr Ht0. destruct (decide (Exists (fun q => t ∈ qs q) (seqZ 0 5))) as [(q & Hq & Hin)%Exists_exists|Hno].
  - assert (queue_range q) by (apply elem_of_seqZ in Hq; unfold queue_range; lia).
    destruct (rq_mem _ _ Hr q t) as [Ecq _]; [done..|].
    apply list_elem_of_split in Hin as (l1 & l2 & E).
    destruct l1 as [|x l1 _] using rev_ind; [by eapply (dequeue_head s qs q t l2)|].
    rewrite <- app_assoc in E. by eapply (dequeue_inner s qs q t l1 x l2).
  - assert (Hu : unqueued qs t).
    { intros q Hq Hin. apply Hno, Exists_exists. exists q. split; [apply elem_of_seqZ; unfold queue_range in Hq; lia|done]. }
    exists s. split; [by eapply dequeue_absent|]. split; [|apply eq_nonext_refl].
    eapply rq_ok_ext; [|done]. intros q Hq. by apply filter_without, Hu.
Qed.

(** ** Picking the next task *)

Arguments rotate : simpl never.

(** A queue whose list was rewritten without touching the members' other fields. *)
Lemma rq_ok_requeue s s' qs q l :
  rq_ok s qs -> queue_range q -> eq_nonext s s' ->
  llist (nx s') (rd (rq_head s') q) l -> rd (rq_tail s') q = lastp l ->
  (forall x, x ∈ l -> x ∈ qs q) ->
  (forall q', q' <> q -> rd (rq_head s') q' = rd (rq_head s) q' /\ rd (rq_tail s') q' = rd (rq_tail s) q') ->
  (forall x, x ∉ qs q -> nx s' x = nx s x) ->
  rq_ok s' (qset qs q l).
Proof.
  intros Hr Hq Heq Hl Hla Hsub Ho Hn.
  assert (Hcq : forall x, cur_queue (tk s' x) = cur_queue (tk s x))
    by (intros; by apply (eq_nonext_proj cur_queue)).
  apply rq_ok_qset with s; auto.
  - intros x Hx. rewrite Hcq. apply (rq_mem _ _ Hr); auto.
  - intros q' Hq' Hne. destruct (Ho q' Hne). splits; auto. intros x Hx. split; [|done].
    apply Hn. intros Hx'. by apply Hne, (rq_disjoint s qs _ _ x).
Qed.

Lemma rotate_refines s qs q t l :
  rq_ok s qs -> queue_range q -> qs q = t :: l -> l <> [] ->
  rq_ok (rotate q t s) (qset qs q (l ++ [t])) /\ eq_nonext s (rotate q t s).
Proof.
  intros Hr Hq E Hne. pose proof (rq_list _ _ Hr q Hq) as Hl. pose proof (rq_last _ _ Hr q Hq) as Hla.
  pose proof (rq_NoDup _ _ _ Hr Hq) as Hnd. rewrite E in *.
  destruct l as [|x l _] using rev_ind; [done|]. clear Hne.
  rewrite app_comm_cons, lastp_snoc in Hla. apply NoDup_cons in Hnd as [Hnt Hnd].
  destruct Hl as (Hh & Ht0 & Hl). fold (nx s t) in Hl.
  assert (Heq : eq_nonext s (rotate q t s)) by (unfold rotate; cbv zeta; nonext).
  split; [|done]. unfold rotate in *. cbv zeta in *. fold (nx s t) in *.
  rewrite tail_set_head, Hla in *.
  assert (Hnx : forall y, nx (set_tail (set_head s q (nx s t)) <| x # next := t |> q t) <| t # next := 0 |> y =
     if decide (y = t) then 0 else if decide (y = x) then t else nx s y).
  { intros y. case_decide; [subst; by rewrite nx_upd_eq|]. rewrite nx_upd_ne by done. sched.
    case_decide; [subst; by rewrite nx_upd_eq|by rewrite nx_upd_ne]. }
  apply (rq_ok_requeue s); auto.
  - sched. rewrite <- app_assoc. eapply llist_snoc; [exact Hl|done|..]; intros; rewrite Hnx.
    + rewrite decide_False by set_solver. by rewrite decide_True.
    + by rewrite decide_True.
    + rewrite decide_False by set_solver. rewrite decide_False; [done|]. intros ->.
      apply NoDup_app in Hnd as (_ & Hd & _). apply (Hd x); set_solver.
  - sched. by rewrite lastp_snoc.
  - rewrite E. set_solver.
  - intros q' Hq'. sched. by rewrite !rd_wr_ne.
  - intros y Hy. rewrite E in Hy. rewrite Hnx, !decide_False by set_solver. done.
Qed.

Lemma split_ready_some r l l1 x l2 :
  split_ready r l = Some (l1, x, l2) <->
  l = l1 ++ x :: l2 /\ r x = true /\ Forall (fun y => r y = false) l1.
Proof.
  revert l1. induction l as [|y l IH]; intros l1; simpl.
  { split; [done|]. intros (H & _). by destruct l1. }
  destruct (r y) eqn:Ey.
  - split; [intros [= <- <- <-]; done|]. intros (H & Hx & Hf). destruct l1 as [|z l1]; simplify_eq/=; [done|].
    inv Hf. congruence.
  - destruct (split_ready r l) as [[[m1 x'] m2]|].
    + split.
      * intros [= <- <- <-]. destruct (IH m1) as [(-> & ? & ?) _]; [done|]. by repeat constructor.
      * intros (H & Hx & Hf). destruct l1 as [|z l1]; simplify_eq/=; [congruence|]. inv Hf.
        destruct (IH l1) as [_ IH']. specialize (IH' ltac:(done)). by simplify_eq.
    + split; [done|]. intros (H & Hx & Hf). destruct l1 as [|z l1]; simplify_eq/=; [congruence|]. inv Hf.
      destruct (IH l1) as [_ IH']. by specialize (IH' ltac:(done)).
Qed.

Lemma split_ready_ext r r' l : (forall x, r x = r' x) -> split_ready r l = split_ready r' l.
Proof. intros E. induction l as [|x l IH]; simpl; [done|]. by rewrite E, IH. Qed.

Lemma probe_loop_spec fuel s p l :
  llist (nx s) p l -> (length l < fuel)%nat ->
  probe_loop fuel s p =
    Some (match split_ready (ready s) l with Some (_, x, _) => x | None => 0 end).
Proof.
  revert p l. induction fuel as [|fuel IH]; intros p l Hl Hf; [lia|].
  destruct l as [|x l]; simpl; [by rewrite Hl|]. destruct Hl as (-> & Hx & Hl).
  destruct (Z.eqb_spec x 0); [done|]. unfold ready at 1. destruct (_ =? 0); [done|].
  rewrite (IH _ l); [|done|simpl in Hf; lia]. by destruct (split_ready _ l) as [[[? ?] ?]|].
Qed.

Lemma skip_done_ready fuel q t s : ready s t = true -> skip_done (S fuel) q t s = Some (t, s).
Proof. unfold ready. intros H. cbn [skip_done]. by rewrite H. Qed.

Lemma skip_done_refines fuel s qs q l1 x l2 :
  rq_ok s qs -> queue_range q -> qs q = l1 ++ x :: l2 -> ready s x = true ->
  Forall (fun y => ready s y = false) l1 -> (length l1 < fuel)%nat ->
  exists s', skip_done fuel q (rd (rq_head s) q) s = Some (x, s') /\
    rq_ok s' (qset qs q (x :: l2 ++ l1)) /\ eq_nonext s s'.
Proof.
  revert s qs l1 l2. induction fuel as [|fuel IH]; intros s qs l1 l2 Hr Hq E Hx Hf Hlt; [lia|].
  pose proof (llist_head _ _ _ (rq_list _ _ Hr q Hq)) as Hh. rewrite E in Hh. rewrite Hh.
  destruct l1 as [|y l1]; cbn [skip_done hd app].
  - unfold ready in Hx. rewrite Hx. exists s. split; [done|]. split; [|apply eq_nonext_refl].
    eapply rq_ok_ext; [|done]. intros q' _. unfold qset. case_decide; subst; [|done]. by rewrite app_nil_r.
  - inv Hf. unfold ready in H1. rewrite H1.
    destruct (rotate_refines s qs q y (l1 ++ x :: l2)) as [Hr' Heq]; [done..|by destruct l1|].
    edestruct (IH (rotate q y s) _ l1 (l2 ++ [y]) Hr' Hq) as (s' & -> & Hr'' & Heq').
    + by rewrite qset_eq, <- app_assoc.
    + by rewrite (eq_nonext_ready _ _ x Heq).
    + eapply Forall_impl; [done|]. intros z Hz. simpl. by rewrite (eq_nonext_ready _ _ z Heq).
    + simpl in Hlt. lia.
    + exists s'. split; [done|]. split; [|by eapply eq_nonext_trans].
      eapply rq_ok_ext; [|done]. intros q' _. unfold qset. case_decide; [|done]. by rewrite <- app_assoc.
Qed.

Lemma pick_head_refines s qs q t l :
  rq_ok s qs -> queue_range q -> qs q = t :: l ->
  exists s', pick_head q t s = Some (t, s') /\
    rq_ok s' (qset qs q (match l with [] => [] | _ => l ++ [t] end)) /\ eq_nonext s s'.
Proof.
  intros Hr Hq E. unfold pick_head. fold (nx s t).
  pose proof (rq_list _ _ Hr q Hq) as Hl. rewrite E in Hl. destruct Hl as (_ & _ & Hl).
  pose proof (llist_head _ _ _ Hl) as Hh. fold (nx s t) in Hh. rewrite Hh.
  destruct l as [|y l]; simpl.
  - eexists; split; [done|]. split; [|nonext].
    apply (rq_ok_requeue s); sched; auto; [nonext|by sched|set_solver|..].
    + intros q' Hne. by sched; rewrite !rd_wr_ne.
  - destruct Hl as (_ & Hy & _). destruct (Z.eqb_spec y 0); [done|].
    eexists; split; [done|]. by apply (rotate_refines s qs q t (y :: l)).
Qed.

(** The body of the queue loop on the lists. *)
Lemma pick_queue_refines s qs q :
  rq_ok s qs -> queue_range q ->
  match split_ready (ready s) (qs q) with
  | Some (l1, x, l2) => exists s', pick_queue q s = Some (x, s') /\
                          rq_ok s' (qset qs q (picked l1 x l2)) /\ eq_nonext s s'
  | None => pick_queue q s = Some (0, s)
  end.
Proof.
  intros Hr Hq. pose proof (rq_list _ _ Hr q Hq) as Hl. pose proof (llist_head _ _ _ Hl) as Hh.
  pose proof (probe_loop_spec QUEUE_FUEL _ _ _ Hl (rq_length _ _ _ Hr Hq)) as Hp.
  unfold pick_queue. destruct (split_ready (ready s) (qs q)) as [[[l1 x] l2]|] eqn:Es.
  - apply split_ready_some in Es as (E & Hx & Hf).
    assert (Hx0 : x <> 0) by (eapply (llist_nonzero _ _ _ x Hl); rewrite E; set_solver).
    destruct (skip_done_refines QUEUE_FUEL s qs q l1 x l2) as (s1 & Hs & Hr1 & Heq1); [done..| |].
    { pose proof (rq_length _ _ _ Hr Hq) as H. rewrite E, length_app in H. lia. }
    destruct (pick_head_refines s1 _ q x (l2 ++ l1) Hr1 Hq) as (s2 & Hph & Hr2 & Heq2); [by rewrite qset_eq|].
    assert (Hfin : rq_ok s2 (qset qs q (picked l1 x l2))).
    { eapply rq_ok_ext; [|exact Hr2]. intros q' _. unfold qset, picked. case_decide; [|done]. by destruct (l2 ++ l1). }
    rewrite E in Hh. destruct l1 as [|y l1].
    + simpl in Hh. rewrite Hh in *. destruct (Z.eqb_spec x 0); [done|].
      change QUEUE_FUEL with (S 17) in Hs. rewrite skip_done_ready in Hs by done. injection Hs as <-.
      unfold ready in Hx. rewrite Hx. cbn [negb].
      exists s2. auto.
    + simpl in Hh. rewrite Hh in *. assert (Hy0 : y <> 0) by (rewrite E in Hl; by destruct Hl as (_ & ? & _)).
      destruct (Z.eqb_spec y 0); [done|]. inv Hf. unfold ready in H1. rewrite H1. cbn [negb].
      rewrite Hp. cbn [mbind option_bind]. destruct (Z.eqb_spec x 0); [done|].
      rewrite Hs. exists s2. splits; auto. by eapply eq_nonext_trans.
  - rewrite Hh. destruct (qs q) as [|y l] eqn:E; [done|]. simpl hd.
    assert (Hy0 : y <> 0) by (by destruct Hl as (_ & ? & _)).
    destruct (Z.eqb_spec y 0); [done|]. simpl in Es. unfold ready in Es at 1.
    destruct (quota_done (tk s y) =? 0); [done|]. cbn [negb].
    rewrite Hh in Hp. simpl hd in Hp. by rewrite Hp.
Qed.

(** ... and the whole loop. *)
Lemma pick_loop_refines n s qs q :
  rq_ok s qs -> 0 <= q -> q + Z.of_nat n <= 5 ->
  match choose (ready s) qs n q with
  | Some (q', (l1, x, l2)) => exists s', pick_loop n q s = Some (x, s') /\
                                rq_ok s' (qset qs q' (picked l1 x l2)) /\ eq_nonext s s'
  | None => pick_loop n q s = Some (0, s)
  end.
Proof.
  revert q. induction n as [|n IH]; intros q Hr Hq0 Hq; simpl; [done|].
  assert (Hqr : queue_range q) by (unfold queue_range; lia).
  pose proof (pick_queue_refines s qs q Hr Hqr) as Hp.
  destruct (split_ready (ready s) (qs q)) as [[[l1 x] l2]|] eqn:Es.
  - destruct Hp as (s' & -> & ? & ?). apply split_ready_some in Es as (E & _).
    assert (Hx0 : x <> 0).
    { eapply llist_nonzero; [apply (rq_list _ _ Hr q Hqr)|]. rewrite E. set_solver. }
    cbn [mbind option_bind]. destruct (Z.eqb_spec x 0); [done|]. by exists s'.
  - rewrite Hp. apply IH; [done|lia..].
Qed.

Lemma peek_loop_refines n s qs q :
  rq_ok s qs -> 0 <= q -> q + Z.of_nat n <= 5 ->
  peek_loop n q s = Some (match choose (ready s) qs n q with Some (_, (_, x, _)) => x | None => 0 end).
Proof.
  revert q. induction n as [|n IH]; intros q Hr Hq0 Hq; cbn [peek_loop choose]; [done|].
  assert (Hqr : queue_range q) by (unfold queue_range; lia).
  pose proof (rq_list _ _ Hr q Hqr) as Hl.
  rewrite (probe_loop_spec _ _ _ _ Hl (rq_length _ _ _ Hr Hqr)). cbn [mbind option_bind].
  destruct (split_ready (ready s) (qs q)) as [[[l1 x] l2]|] eqn:Es; [|apply IH; auto; lia].
  apply split_ready_some in Es as (E & _).
  assert (Hx0 : x <> 0) by (eapply (llist_nonzero _ _ _ x Hl); rewrite E; set_solver).
  by destruct (Z.eqb_spec x 0).
Qed.

(** ** Frames: the links of tasks outside the queues do not change *)

Lemma lastp_in l : l <> [] -> lastp l ∈ l.
Proof.
  destruct l as [|x l _] using rev_ind; [done|]. intros _. rewrite lastp_snoc. set_solver.
Qed.

Lemma tail_queued s qs q y :
  rq_ok s qs -> queue_range q -> unqueued qs y -> rd (rq_tail s) q <> 0 -> rd (rq_tail s) q <> y.
Proof.
  intros Hr Hq Hu Hne E. apply (Hu q Hq). rewrite <- E, (rq_last _ _ Hr q Hq) in *.
  apply lastp_in. intros En. by rewrite En in Hne.
Qed.

Lemma enqueue_frame s qs t y :
  rq_ok s qs -> y <> t -> unqueued qs y -> nx (enqueue_task t s) y = nx s y.
Proof.
  intros Hr Hne Hu. unfold enqueue_task. destruct (t =? 0); [done|]. cbv zeta. set (q := task_qidx s t).
  assert (Hq : queue_range q) by apply task_qidx_range. sched.
  destruct (Z.eqb_spec (rd (rq_tail s) q) 0) as [|Ht]; cbn [negb]; sched; rewrite ?nx_upd_ne;
    try done; try by unfold nx; rewrite !tk_upd_ne by done.
  by apply (tail_queued s qs).
Qed.

Lemma find_prev_in fuel s t p l x :
  llist (nx s) p l -> find_prev fuel s t p = Some x -> x = 0 \/ x ∈ l.
Proof.
  revert p l. induction fuel as [|fuel IH]; intros p l Hl; cbn [find_prev]; [done|].
  destruct (_ || _)%bool eqn:E.
  - intros [= <-]. destruct l as [|z l]; [left; exact Hl|]. destruct Hl as (-> & _). right. by left.
  - bool_prop. destruct l as [|z l]; [by rewrite Hl in *|]. destruct Hl as (-> & _ & Hl). intros Hf.
    destruct (IH _ _ Hl Hf); [by left|right; by right].
Qed.

Lemma dequeue_frame s s' qs t y :
  rq_ok s qs -> dequeue_task t s = Some s' -> y <> t -> unqueued qs y -> nx s' y = nx s y.
Proof.
  intros Hr E Hne Hu. revert E. unfold dequeue_task. destruct (t =? 0); [by intros [= <-]|].
  destruct (_ || _)%bool eqn:Eg; [by intros [= <-]|]. set (q := cur_queue (tk s t)) in *.
  assert (Hq : queue_range q) by (unfold queue_range, NR_QUEUES in *; bool_prop; lia).
  cbv zeta. destruct (_ =? t).
  - intros <-%(inj Some). rewrite nx_upd_ne by done. by destruct (_ =? _).
  - destruct (find_prev _ _ _ _) as [p|] eqn:Ef; [|done]. cbn [mbind option_bind].
    destruct (Z.eqb_spec p 0); [by intros [= <-]|]. intros <-%(inj Some). rewrite nx_upd_ne by done.
    destruct (find_prev_in _ _ _ _ _ _ (rq_list _ _ Hr q Hq) Ef) as [|Hp]; [done|].
    assert (p <> y) by (intros ->; by apply (Hu q)). destruct (_ =? t); sched; by rewrite nx_upd_ne.
Qed.

Lemma rotate_frame s qs q t y :
  rq_ok s qs -> queue_range q -> t ∈ qs q -> unqueued qs y -> nx (rotate q t s) y = nx s y.
Proof.
  intros Hr Hq Ht Hu. unfold rotate. cbv zeta.
  assert (Htl : rd (rq_tail s) q ∈ qs q) by (rewrite (rq_last _ _ Hr q Hq); apply lastp_in; intros E; rewrite E in Ht; inv Ht).
  rewrite nx_upd_ne by (intros ->; by apply (Hu q)). sched. rewrite nx_upd_ne; [done|].
  intros E. apply (Hu q Hq). by rewrite <- E.
Qed.

Lemma unqueued_qset qs q l y : unqueued qs y -> y ∉ l -> unqueued (qset qs q l) y.
Proof. intros Hu Hl p Hp. unfold qset. case_decide; [done|by apply Hu]. Qed.

Lemma skip_done_frame fuel s s' qs q l1 x l2 z y :
  rq_ok s qs -> queue_range q -> qs q = l1 ++ x :: l2 -> ready s x = true ->
  skip_done fuel q (rd (rq_head s) q) s = Some (z, s') -> unqueued qs y -> nx s' y = nx s y.
Proof.
  revert s qs l1 l2. induction fuel as [|fuel IH]; intros s qs l1 l2 Hr Hq E Hx Hs Hu; [done|].
  pose proof (llist_head _ _ _ (rq_list _ _ Hr q Hq)) as Hh. rewrite E in Hh.
  destruct l1 as [|w l1]; rewrite Hh in Hs; cbn [hd app] in Hs.
  - rewrite skip_done_ready in Hs by done. by injection Hs as _ <-.
  - cbn [skip_done] in Hs. destruct (_ =? 0); [by injection Hs as _ <-|].
    destruct (rotate_refines s qs q w (l1 ++ x :: l2)) as [Hr' Heq]; [done..|by destruct l1|].
    rewrite <- (rotate_frame s qs q w) by (done || rewrite E; by left).
    eapply (IH (rotate q w s) _ l1 (l2 ++ [w]) Hr' Hq); [by rewrite qset_eq, <- app_assoc| |done|].
    + by rewrite (eq_nonext_ready _ _ x Heq).
    + apply unqueued_qset; [done|]. pose proof (Hu q Hq) as Hn. rewrite E in Hn. set_solver.
Qed.

Lemma pick_queue_frame s s' qs q x y :
  rq_ok s qs -> queue_range q -> pick_queue q s = Some (x, s') -> unqueued qs y -> nx s' y = nx s y.
Proof.
  intros Hr Hq E Hu. pose proof (pick_queue_refines s qs q Hr Hq) as Hp. revert E.
  pose proof (rq_list _ _ Hr q Hq) as Hl. pose proof (llist_head _ _ _ Hl) as Hh.
  destruct (split_ready (ready s) (qs q)) as [[[l1 z] l2]|] eqn:Es; [|rewrite Hp; by intros [= _ <-]].
  clear Hp. apply split_ready_some in Es as (Eq & Hz & Hf). unfold pick_queue.
  destruct (_ =? 0); [by intros [= _ <-]|].
  assert (Hph : forall s1 qs1 t s2 v, rq_ok s1 qs1 -> t ∈ qs1 q -> unqueued qs1 y ->
            pick_head q t s1 = Some (v, s2) -> nx s2 y = nx s1 y).
  { intros s1 qs1 t s2 v Hr1 Ht1 Hu1. unfold pick_head. destruct (negb _); intros [= _ <-]; [|done].
    by apply (rotate_frame s1 qs1). }
  destruct (negb _) eqn:En.
  - destruct (probe_loop _ _ _) as [f|]; [|done]. cbn [mbind option_bind]. destruct (f =? 0); [by intros [= _ <-]|].
    destruct (skip_done _ _ _ _) as [[t s1]|] eqn:Ek; [|done]. cbn [mbind option_bind]. intros E.
    destruct (skip_done_refines QUEUE_FUEL s qs q l1 z l2) as (s1' & Ek' & Hr1 & Heq1); [done..| |].
    { pose proof (rq_length _ _ _ Hr Hq) as H. rewrite Eq, length_app in H. lia. }
    rewrite Ek in Ek'. injection Ek' as -> <-.
    rewrite <- (skip_done_frame QUEUE_FUEL s s1 qs q l1 z l2 z y) by done.
    eapply (Hph s1 _ z); [exact Hr1|rewrite qset_eq; by left| |done].
    apply unqueued_qset; [done|]. pose proof (Hu q Hq) as Hn. rewrite Eq in Hn. clear - Hn. set_solver.
  - intros E. eapply (Hph s qs); [done| |done|done]. rewrite Hh, Eq. clear. destruct l1; set_solver.
Qed.

Lemma pick_loop_frame n s s' qs q x y :
  rq_ok s qs -> 0 <= q -> q + Z.of_nat n <= 5 -> pick_loop n q s = Some (x, s') -> unqueued qs y ->
  nx s' y = nx s y.
Proof.
  revert q. induction n as [|n IH]; intros q Hr Hq0 Hq; cbn [pick_loop]; [by intros [= _ <-]|].
  assert (Hqr : queue_range q) by (unfold queue_range; lia). intros E Hu.
  destruct (pick_queue q s) as [[t s1]|] eqn:Ep; [|done]. cbn [mbind option_bind] in E.
  destruct (Z.eqb_spec t 0) as [->|].
  - assert (s1 = s) as ->.
    { pose proof (pick_queue_refines s qs q Hr Hqr) as Hp.
      destruct (split_ready (ready s) (qs q)) as [[[l1 z] l2]|] eqn:Es; [|rewrite Hp in Ep; by injection Ep as ->].
      destruct Hp as (s2 & Hp & _). rewrite Hp in Ep. injection Ep as -> ->. exfalso.
      apply split_ready_some in Es as (Eq & _). eapply (llist_nonzero _ _ _ 0 (rq_list _ _ Hr q Hqr)); [|done].
      rewrite Eq. clear. set_solver. }
    by apply (IH (q + 1)); [|lia..|done|done].
  - injection E as _ <-. by apply (pick_queue_frame s s1 qs q t).
Qed.
