(* ===== verification/Watchdog.v ===== *)
(** * The watchdog (src/kernel/watchdog.c)

    [wd_table] is the list of the [wd_count] registered entries.  [watchdog_tick] runs in
    the timer interrupt and only decides; [watchdog_check] runs in the kernel's main loop
    and spawns.  [spawn_user_process] (src/kernel/process.c) is an argument here. *)

From S2P Require Import Prelude LList Task TaskInv.

Definition WD_MAX : Z := 8.
Definition WD_MAX_RESTARTS : Z := 5.
Definition WD_UNSTABLE_LIMIT : Z := 3.
Definition WD_BACKOFF_BASE : Z := 5.
Definition WD_UNSTABLE_TICKS : Z := 10.

Record wd_entry := mk_wd {
  wd_path : list Z;
  wd_tier : Z;
  wd_task : Z;
  restarts : Z;
  unstable : Z;
  delay_ticks : Z;
  spawn_due : Z;
  active : Z;
  spawn_tick : Z;
}.

#[export] Instance eta_wd : Eta wd_entry := fun e => mk_wd
  (wd_path e) (wd_tier e) (wd_task e) (restarts e) (unstable e) (delay_ticks e)
  (spawn_due e) (active e) (spawn_tick e).

Record wdog := mk_wdog { wd_table : list wd_entry; wd_tick : Z }.
#[export] Instance eta_wdog : Eta wdog := fun w => mk_wdog (wd_table w) (wd_tick w).

Definition wd_count (w : wdog) : Z := Z.of_nat (length (wd_table w)).

Definition watchdog_init (w : wdog) : wdog := mk_wdog [] 0.

(** [path = None] is the NULL pointer. *)
Definition watchdog_register (path : option (list Z)) (tr initial_task : Z) (ws : wdog * sched)
    : Z * (wdog * sched) :=
  let '(w, s) := ws in
  match path with
  | None => (-1, (w, s))
  | Some p =>
      if WD_MAX <=? wd_count w then (-1, (w, s))
      else
        let e := mk_wd p tr initial_task 0 0 0 0 1 (wd_tick w) in
        let w := w <| wd_table := wd_table w ++ [e] |> in
        (0, (w, if initial_task =? 0 then s else s <| initial_task # wd_managed := 1 |>))
  end.

(** The body of the loop of [watchdog_tick] for one entry. *)
Definition wd_entry_tick (now : Z) (e : wd_entry) (s : sched) : wd_entry * sched :=
  let t := wd_task e in
  if active e =? 0 then (e, s)
  else if negb (t =? 0) && negb (state (tk s t) =? TASK_EXITED) then (e, s)
  else if 0 <? delay_ticks e then
    let e := e <| delay_ticks := delay_ticks e - 1 |> in
    (if delay_ticks e =? 0 then e <| spawn_due := 1 |> else e, s)
  else if negb (t =? 0) then
    let life := now -w spawn_tick e in
    let e := if life <? WD_UNSTABLE_TICKS then e <| unstable := unstable e + 1 |>
             else e <| unstable := 0 |> in
    if WD_UNSTABLE_LIMIT <=? unstable e then
      (e <| wd_task := 0 |> <| active := 0 |>, free_task_slot t s)
    else
      let e := e <| restarts := restarts e + 1 |> in
      if WD_MAX_RESTARTS <? restarts e then
        (e <| wd_task := 0 |> <| active := 0 |>, free_task_slot t s)
      else
        let e := e <| delay_ticks := Z.shiftl WD_BACKOFF_BASE (restarts e - 1) |> in
        (e <| wd_task := 0 |>, free_task_slot t s)
  else (e <| spawn_due := 1 |>, s).

Fixpoint wd_loop (now : Z) (es : list wd_entry) (s : sched) : list wd_entry * sched :=
  match es with
  | [] => ([], s)
  | e :: es =>
      let '(e, s) := wd_entry_tick now e s in
      let '(es, s) := wd_loop now es s in
      (e :: es, s)
  end.

Definition watchdog_tick (ws : wdog * sched) : wdog * sched :=
  let '(w, s) := ws in
  let w := w <| wd_tick := wd_tick w +w 1 |> in
  let '(es, s) := wd_loop (wd_tick w) (wd_table w) s in
  (w <| wd_table := es |>, s).

(** The body of the loop of [watchdog_check], given the result of the spawn. *)
Definition wd_entry_check {A} (spawn : list Z -> A * sched -> Z * (A * sched)) (now : Z)
    (e : wd_entry) (st : A * sched) : wd_entry * (A * sched) :=
  if (active e =? 0) || (spawn_due e =? 0) then (e, st)
  else
    let e := e <| spawn_due := 0 |> in
    let '(t, (a, s)) := spawn (wd_path e) st in
    let e := e <| wd_task := t |> in
    if negb (t =? 0) then
      (e <| spawn_tick := now |>, (a, s <| t # wd_managed := 1 |>))
    else (e <| spawn_due := 1 |>, (a, s)).

Fixpoint wd_check_loop {A} (spawn : list Z -> A * sched -> Z * (A * sched)) (now : Z)
    (es : list wd_entry) (st : A * sched) : list wd_entry * (A * sched) :=
  match es with
  | [] => ([], st)
  | e :: es =>
      let '(e, st) := wd_entry_check spawn now e st in
      let '(es, st) := wd_check_loop spawn now es st in
      (e :: es, st)
  end.

Definition watchdog_check {A} (spawn : list Z -> A * sched -> Z * (A * sched))
    (w : wdog) (st : A * sched) : wdog * (A * sched) :=
  let '(es, st) := wd_check_loop spawn (wd_tick w) (wd_table w) st in
  (w <| wd_table := es |>, st).
