(* ===== verification/WatchdogTheorems.v ===== *)
(** * Theorems on the watchdog

    The life of one entry is a sequence of calls of the loop bodies of [watchdog_tick] and
    [watchdog_check], in any order and with any outcome of the spawns. *)

From S2P Require Import Prelude LList Task TaskInv Watchdog.

Inductive wd_event :=
  | WdTick (now : Z) (s : sched)
  | WdCheck (now : Z) (result : Z).

(** A spawn with outcome [r] that counts the successful calls. *)
Definition counting (r : Z) (_ : list Z) (st : Z * sched) : Z * (Z * sched) :=
  (r, (if r =? 0 then fst st else fst st + 1, snd st)).

(** The entry and the number of successful spawns so far. *)
Definition wd_step (en : wd_entry * Z) (ev : wd_event) : wd_entry * Z :=
  let '(e, n) := en in
  match ev with
  | WdTick now s => ((wd_entry_tick now e s).1, n)
  | WdCheck now r =>
      let '(e, (n, _)) := wd_entry_check (counting r) now e (n, mk_sched ∅ ∅ ∅ 0 0 0 0 0) in (e, n)
  end.

Record wd_inv (e : wd_entry) (n : Z) : Prop := {
  wi_count : n <= 6;
  wi_live : active e <> 0 -> 0 <= restarts e <= 5 /\ n <= restarts e + (if wd_task e =? 0 then 0 else 1);
  wi_delay : active e <> 0 -> 0 <= delay_ticks e;
  wi_task : active e <> 0 -> wd_task e <> 0 -> delay_ticks e = 0 /\ spawn_due e = 0;
  wi_due : active e <> 0 -> spawn_due e <> 0 -> delay_ticks e = 0;
}.

Lemma wd_tick_inv now e s n : wd_inv e n -> wd_inv (wd_entry_tick now e s).1 n.
Proof.
  intros [Hc Hl Hd Ht Hu]. unfold wd_entry_tick.
  destruct (Z.eqb_spec (active e) 0) as [|Ha]; [done|].
  destruct (Hl Ha) as [Hr Hn]. specialize (Hd Ha). specialize (Ht Ha). specialize (Hu Ha).
  destruct (negb (wd_task e =? 0) && _)%bool; [by split|].
  destruct (Z.ltb_spec 0 (delay_ticks e)).
  - destruct (Z.eqb_spec (wd_task e) 0) as [E|E]; [|destruct (Ht E); lia].
    cbv zeta. cbn [set_field delay_ticks]. simpl in Hn.
    destruct (Z.eqb_spec (delay_ticks e - 1) 0); split; simpl; intros; rewrite ?E; simpl; try done; try lia.
  - destruct (Z.eqb_spec (wd_task e) 0) as [E|E]; cbn [negb].
    + simpl in Hn. split; simpl; intros; rewrite ?E; simpl; try done; lia.
    + destruct (Ht E) as [Ed Es]. cbv zeta. set (e1 := if _ <? _ then _ else _).
      assert (restarts e1 = restarts e /\ spawn_due e1 = spawn_due e /\ active e1 = active e) as (R1 & S1 & A1)
        by (unfold e1; by destruct (_ <? _)).
      destruct (_ <=? _); [by split|]. cbn [set_field restarts]. rewrite R1.
      destruct (Z.ltb_spec WD_MAX_RESTARTS (restarts e + 1)); [by split|].
      unfold WD_MAX_RESTARTS in *. simpl in Hn.
      assert (0 <= Z.shiftl WD_BACKOFF_BASE (restarts e + 1 - 1)) by (by apply Z.shiftl_nonneg).
      split; simpl; intros; rewrite ?R1, ?S1 in *; try done; lia.
Qed.

Lemma wd_check_inv now r e n st :
  wd_inv e n ->
  let '(e', (n', _)) := wd_entry_check (counting r) now e (n, st) in wd_inv e' n'.
Proof.
  intros [Hc Hl Hd Ht Hu]. unfold wd_entry_check, counting. cbn [fst snd].
  destruct (Z.eqb_spec (active e) 0) as [|Ha]; [done|]. destruct (Z.eqb_spec (spawn_due e) 0) as [|Hs]; [done|].
  cbn [orb]. destruct (Hl Ha) as [Hr Hn]. specialize (Hd Ha). specialize (Ht Ha). specialize (Hu Ha).
  assert (E0 : wd_task e = 0). { destruct (decide (wd_task e = 0)) as [|E]; [done|]. by destruct (Ht E). }
  rewrite E0 in Hn. simpl in Hn. destruct (Z.eqb_spec r 0) as [->|Hr0]; cbn [negb].
  - split; simpl; intros; try done; lia.
  - split; simpl; intros; try (destruct (Z.eqb_spec r 0); done || lia); auto; lia.
Qed.

Lemma wd_steps_inv evs en : wd_inv en.1 en.2 -> wd_inv (foldl wd_step en evs).1 (foldl wd_step en evs).2.
Proof.
  revert en. induction evs as [|ev evs IH]; intros [e n] Hi; [done|]. cbn [foldl]. apply IH.
  destruct ev as [now s|now r]; [by apply wd_tick_inv|]. cbn [wd_step].
  pose proof (wd_check_inv now r e n (mk_sched ∅ ∅ ∅ 0 0 0 0 0) Hi) as Hc.
  by destruct (wd_entry_check _ _ _ _) as [e' [n' ?]].
Qed.

(** A freshly registered entry. *)
Definition wd_fresh (p : list Z) (tr t0 now : Z) : wd_entry := mk_wd p tr t0 0 0 0 0 1 now.

Lemma watchdog_register_fresh p tr t0 w s :
  wd_count w < WD_MAX ->
  watchdog_register (Some p) tr t0 (w, s) =
    (0, (w <| wd_table := wd_table w ++ [wd_fresh p tr t0 (wd_tick w)] |>,
         if t0 =? 0 then s else s <| t0 # wd_managed := 1 |>)).
Proof. intros H. unfold watchdog_register. by destruct (Z.leb_spec WD_MAX (wd_count w)); [lia|]. Qed.


(** [n] calls of the loop body on an entry whose service is down. *)
Definition wd_ticks (n : nat) (e : wd_entry) (s : sched) : wd_entry :=
  Nat.iter n (fun e => (wd_entry_tick 0 e s).1) e.

Lemma wd_countdown n e s :
  active e <> 0 -> wd_task e = 0 -> spawn_due e = 0 -> Z.of_nat n < delay_ticks e ->
  wd_ticks n e s = e <| delay_ticks := delay_ticks e - Z.of_nat n |>.
Proof.
  intros Ha Ht Hs. induction n as [|n IH]; intros Hn.
  - simpl. rewrite Z.sub_0_r. by destruct e.
  - unfold wd_ticks in *. rewrite Nat.iter_succ, IH by lia. unfold wd_entry_tick.
    cbn [set_field active wd_task delay_ticks]. rewrite Ht. destruct (Z.eqb_spec (active e) 0); [done|].
    cbn [negb andb Z.eqb]. destruct (Z.ltb_spec 0 (delay_ticks e - Z.of_nat n)); [|lia]. cbv zeta.
    destruct (Z.eqb_spec (delay_ticks e - Z.of_nat n - 1) 0); [lia|]. simpl.
    replace (delay_ticks e - Z.of_nat n - 1) with (delay_ticks e - Z.of_nat (S n)) by lia. done.
Qed.

(** C33: Exponential backoff.  When a managed service that ran for at least ten watchdog
    ticks exits after [r < 5] restarts, its slot is freed and the entry asks for a new spawn
    after exactly 5 * 2^r further watchdog ticks, not earlier. *)
Theorem wd_exponential_backoff now e s r :
  active e <> 0 -> wd_task e <> 0 -> state (tk s (wd_task e)) = TASK_EXITED ->
  delay_ticks e = 0 -> spawn_due e = 0 -> restarts e = r -> 0 <= r < 5 ->
  WD_UNSTABLE_TICKS <= now -w spawn_tick e ->
  let '(e', s') := wd_entry_tick now e s in
  s' = free_task_slot (wd_task e) s /\ restarts e' = r + 1 /\
  (forall n, Z.of_nat n < 5 * 2 ^ r -> spawn_due (wd_ticks n e' s') = 0) /\
  spawn_due (wd_ticks (Z.to_nat (5 * 2 ^ r)) e' s') = 1.
Proof.
  intros Ha Ht Hst Hd Hs Hr Hr5 Hlife. assert (Hpow : 0 < 2 ^ r) by (apply Z.pow_pos_nonneg; lia).
  set (e1 := e <| unstable := 0 |> <| restarts := r + 1 |> <| delay_ticks := 5 * 2 ^ r |> <| wd_task := 0 |>).
  assert (E : wd_entry_tick now e s = (e1, free_task_slot (wd_task e) s)).
  { unfold wd_entry_tick. destruct (Z.eqb_spec (active e) 0); [done|]. destruct (Z.eqb_spec (wd_task e) 0); [done|].
    rewrite Hst, Hd. cbn [negb andb Z.eqb TASK_EXITED Pos.eqb Z.ltb Z.compare].
    destruct (Z.ltb_spec (now -w spawn_tick e) WD_UNSTABLE_TICKS); [lia|]. cbv zeta.
    cbn [set_field unstable restarts]. change (WD_UNSTABLE_LIMIT <=? 0) with false. cbv iota. rewrite Hr.
    unfold WD_MAX_RESTARTS. destruct (Z.ltb_spec 5 (r + 1)); [lia|].
    unfold WD_BACKOFF_BASE. rewrite Z.shiftl_mul_pow2 by lia. by replace (r + 1 - 1) with r by lia. }
  rewrite E. splits; [done..| |].
  - intros n Hn. rewrite wd_countdown; done.
  - set (d := 5 * 2 ^ r) in *. assert (Ed : Z.to_nat d = S (Z.to_nat (d - 1))) by lia. rewrite Ed.
    unfold wd_ticks. rewrite Nat.iter_succ. fold (wd_ticks (Z.to_nat (d - 1)) e1 (free_task_slot (wd_task e) s)).
    rewrite wd_countdown; [|done..|simpl; lia]. unfold wd_entry_tick. cbn [set_field active wd_task delay_ticks].
    change (active e1) with (active e). change (wd_task e1) with 0. change (delay_ticks e1) with d.
    rewrite Z2Nat.id by lia. replace (d - (d - 1)) with 1 by lia.
    destruct (Z.eqb_spec (active e) 0); done.
Qed.

Lemma wd_exponential_backoff_witness :
  let e := (wd_fresh [] 1 1 0) <| restarts := 2 |> in
  let s := mk_sched {[ 1 := zero_task <| state := TASK_EXITED |> ]} ∅ ∅ IDLE 1 0 0 0 in
  let '(e', s') := wd_entry_tick 30 e s in
  s' = free_task_slot 1 s /\ restarts e' = 2 + 1 /\
  (forall n, Z.of_nat n < 5 * 2 ^ 2 -> spawn_due (wd_ticks n e' s') = 0) /\
  spawn_due (wd_ticks (Z.to_nat (5 * 2 ^ 2)) e' s') = 1.
Proof.
  intros e s. apply (wd_exponential_backoff 30 e s 2); try reflexivity; try discriminate.
  split; [discriminate|reflexivity].
Defined.
