(* ===== verification/Sched.v ===== *)
(** * The scheduler (src/kernel/sched.c, and the parts of task.c that call it)

    A call of [schedule] is the transition of the scheduler state up to the context switch:
    [switch_to] saves and restores registers and continues the chosen task where it had
    stopped, so everything after a call of [schedule] belongs to a later run of the caller.
    [None] is a queue walk that ran out of fuel, that is a corrupted queue. *)

From S2P Require Import Prelude LList Task TaskInv Watchdog.

Definition MLFQ_AGING_TICKS : Z := 300.
Definition MLFQ_DEMOTE_TICKS : Z := 3.
Definition QUOTA_PERIOD_TICKS : Z := 1000.

Definition tier_timeslice (k : task) : Z :=
  if tier k =? TIER_KERNEL then 1
  else if tier k =? TIER_SYSTEM then 2
  else if tier k =? TIER_CRITICAL then 2
  else if tier k =? TIER_USER then 3 - clamp_level (mlfq_level k)
  else 3.

Definition set_task_timeslice (t : Z) (s : sched) : sched :=
  s <| t # timeslice := tier_timeslice (tk s t) |>.

Definition switch_to_task (prev nxt : Z) (s : sched) : sched :=
  let s := s <| current_task := nxt |> in
  let s := s <| nxt # state := TASK_RUNNING |> in
  let s := set_task_timeslice nxt s in
  let s := s <| tss_stack := nxt |> in
  s <| cpu_cr3 := cr3 (tk s nxt) |>.

(** [cand = pick_next_task(); if (!cand) cand = idle_ref();] *)
Definition pick_or_idle (s : sched) : option (Z * sched) :=
  '(cand, s) ← pick_next_task s;
  Some (if cand =? 0 then IDLE else cand, s).

(** The branch of an exhausted time slice. *)
Definition schedule_expired (prev prev_q : Z) (s : sched) : option sched :=
  let s := s <| prev # state := TASK_READY |> in
  let s := enqueue_task prev s in
  '(cand, s) ← pick_or_idle s;
  if cand =? prev then
    '(lower, s) ← pick_next_lower (prev_q + 1) s;
    if negb (lower =? 0) then Some (switch_to_task prev lower (enqueue_task prev s))
    else Some (set_task_timeslice prev s)
  else Some (switch_to_task prev cand s).

(** The tail of [schedule]: [prev] still runs. *)
Definition schedule_running (prev : Z) (s : sched) : option sched :=
  s ← dequeue_task prev s;
  let prev_q := task_qidx s prev in
  let s := if 0 <? timeslice (tk s prev) then s <| prev # timeslice := timeslice (tk s prev) - 1 |> else s in
  cand ← peek_next_task s;
  let cand_q := if cand =? 0 then -1 else task_qidx s cand in
  if negb (cand =? 0) && (cand_q <? prev_q) then
    let s := s <| prev # state := TASK_READY |> in
    let s := enqueue_task prev s in
    '(cand, s) ← pick_or_idle s;
    Some (switch_to_task prev cand s)
  else if timeslice (tk s prev) <=? 0 then schedule_expired prev prev_q s
  else Some s.

Definition schedule (s : sched) : option sched :=
  let prev := current_task s in
  if prev =? 0 then Some s
  else if prev =? IDLE then
    '(cand, s) ← pick_next_task s;
    if cand =? 0 then Some s else Some (switch_to_task prev cand s)
  else if state (tk s prev) =? TASK_EXITED then
    '(cand, s) ← pick_or_idle s;
    Some (switch_to_task prev cand s)
  else if state (tk s prev) =? TASK_WAITING then
    s ← dequeue_task prev s;
    '(cand, s) ← pick_or_idle s;
    Some (switch_to_task prev cand s)
  else schedule_running prev s.

Definition yield (s : sched) : option sched :=
  let c := current_task s in
  if c =? 0 then Some s
  else
    s ← (if tier (tk s c) =? TIER_USER then
           let s := s <| c # mlfq_cont_ticks := 0 |> in
           if 0 <? mlfq_level (tk s c) then task_set_mlfq_level c 0 s else Some s
         else Some s);
    schedule (s <| c # state := TASK_READY |>).

(** [task_exit_handler], up to the context switch. *)
Definition task_exit_handler (s : sched) : option sched :=
  let c := current_task s in
  s ← (if negb (c =? 0) then
         s ← dequeue_task c s;
         Some (s <| c # state := TASK_EXITED |> <| c # exit_code := 0 |>)
       else Some s);
  schedule s.

(** One round of the loop of [sys_wait] (src/kernel/process.c) that blocks. *)
Definition wait_block (s : sched) : option sched :=
  let t := current_task s in
  s ← dequeue_task t (s <| t # state := TASK_WAITING |>);
  schedule s.

(** What [task_exit] uses of the file system and of the page allocator. *)
Class ExitServices (W : Type) := {
  vfs_close : Z -> W -> W;
  (** the frames released by [teardown_current_pd(pd_phys, _)] run under CR3 [cr3] *)
  teardown_frames (cr3 pd_phys : Z) : W -> W;
}.

Section Exit.
Context {W : Type} `{ExitServices W} (page_directory : Z).

Definition free_task_address_space (t : Z) (st : sched * W) : sched * W :=
  if t =? 0 then st
  else
    let '(s, w) := st in
    (s <| cpu_cr3 := page_directory |>, teardown_frames (cpu_cr3 s) (cr3 (tk s t)) w).

(** [for (i = 3; i < FD_MAX; i++)]: close what is open. *)
Fixpoint close_fds (i : nat) (fds : list Z) (w : W) : list Z * W :=
  match fds with
  | [] => ([], w)
  | f :: fds =>
      if (i <? 3)%nat || (f =? 0) then
        let '(fds, w) := close_fds (S i) fds w in (f :: fds, w)
      else
        let w := vfs_close f w in
        let '(fds, w) := close_fds (S i) fds w in (0 :: fds, w)
  end.

(** Wake the parent if it waits. *)
Definition wake_parent (p : Z) (s : sched) : sched :=
  if negb (p =? 0) && (state (tk s p) =? TASK_WAITING) then
    let s := s <| p # state := TASK_READY |> in
    let s := if tier (tk s p) =? TIER_USER
             then s <| p # mlfq_cont_ticks := 0 |> <| p # mlfq_level := 0 |> else s in
    enqueue_task p s
  else s.

Definition orphan_children (t : Z) (s : sched) : sched :=
  foldl (fun s c =>
    if negb (in_use (tk s c) =? 0) && (parent (tk s c) =? t) then s <| c # parent := 0 |> else s)
    s task_slots.

(** [task_exit], up to the context switch. *)
Definition task_exit (code : Z) (st : sched * W) : option (sched * W) :=
  let '(s, w) := st in
  let t := current_task s in
  if t =? 0 then Some (s, w)
  else
    s ← dequeue_task t s;
    let s := s <| t # state := TASK_EXITED |> <| t # exit_code := code |> in
    let '(fds, w) := close_fds 0 (fd_table (tk s t)) w in
    let s := s <| t # fd_table := fds |> in
    let s := wake_parent (parent (tk s t)) s in
    let s := orphan_children t s in
    let s := s <| t # flags := Z.ldiff (flags (tk s t)) TASK_INHERITED |> in
    let s := s <| t # saved_tier := TIER_USER |> in
    let '(s, w) := free_task_address_space t (s, w) in
    let s := s <| t # pages_charged := 0 |> in
    s ← schedule s;
    Some (s, w).

(** CPU quota accounting of one tick. *)
Definition quota_tick (s : sched) : sched :=
  let c := current_task s in
  if negb (c =? 0) && (0 <? cpu_quota (tk s c)) then
    let limit := (QUOTA_PERIOD_TICKS *w cpu_quota (tk s c)) / 100 in
    let limit := if limit =? 0 then 1 else limit in
    let s := s <| c # quota_used_ticks := quota_used_ticks (tk s c) +w 1 |> in
    if limit <=? quota_used_ticks (tk s c) then s <| c # quota_done := 1 |> else s
  else s.

(** MLFQ demotion of a USER task that does not give up the CPU. *)
Definition mlfq_tick (s : sched) : option sched :=
  let c := current_task s in
  if negb (c =? 0) && (tier (tk s c) =? TIER_USER) && (quota_done (tk s c) =? 0) then
    let s := s <| c # mlfq_cont_ticks := mlfq_cont_ticks (tk s c) + 1 |> in
    if (MLFQ_DEMOTE_TICKS <=? mlfq_cont_ticks (tk s c)) && (mlfq_level (tk s c) <? 2) then
      s ← task_set_mlfq_level c (mlfq_level (tk s c) + 1) s;
      Some (s <| c # mlfq_cont_ticks := 0 |>)
    else Some s
  else Some s.

(** [pit_handler]: a task that kills itself does not come back from [task_exit]. *)
Definition pit_handler (st : wdog * sched * W) : option (wdog * sched * W) :=
  let '(wd, s, w) := st in
  let s := s <| tick_count := tick_count s +w 1 |> in
  let c := current_task s in
  if negb (c =? 0) && negb (kill_pending (tk s c) =? 0) then
    '(s, w) ← task_exit (-9) (s <| c # kill_pending := 0 |>, w);
    Some (wd, s, w)
  else
    let s := quota_tick s in
    s ← mlfq_tick s;
    let '(wd, s) := if tick_count s mod 50 =? 0 then watchdog_tick (wd, s) else (wd, s) in
    s ← (if tick_count s mod MLFQ_AGING_TICKS =? 0 then task_mlfq_aging s else Some s);
    let s := if tick_count s mod QUOTA_PERIOD_TICKS =? 0 then task_quota_period_reset s else s in
    s ← schedule s;
    Some (wd, s, w).
End Exit.
