(* ===== verification/SchedSpec.v ===== *)
(** * Correctness of the scheduler

    [queues_ok ex s qs]: the run queues are well formed, hold exactly the READY tasks, each
    in the queue of its tier and level; the tasks of [ex] (the running one, one that is about
    to be queued) are exempt.  [schedule] keeps this for the task it switches to, and picks
    by priority among the tasks with quota left. *)

From S2P Require Import Prelude LList Task TaskInv Watchdog Sched.

Definition slot (t : Z) : Prop := 1 <= t <= 16.

Record queues_ok (ex : list Z) (s : sched) (qs : Z -> list Z) : Prop := {
  qo_rq : rq_ok s qs;
  qo_idle : unqueued qs IDLE;
  qo_ready q t : queue_range q -> t ∈ qs q -> t ∉ ex ->
    state (tk s t) = TASK_READY /\ task_qidx s t = q;
  qo_all t : slot t -> t ∉ ex -> in_use (tk s t) <> 0 -> state (tk s t) = TASK_READY ->
    exists q, queue_range q /\ t ∈ qs q;
}.

Record sched_ok (s : sched) (qs : Z -> list Z) : Prop := {
  so_queues : queues_ok [current_task s] s qs;
  so_cur : valid_task (current_task s);
  so_live : state (tk s (current_task s)) <> TASK_EXITED;
}.

(** What [schedule] needs: it is also called by a task that has just exited. *)
Record sched_pre (s : sched) (qs : Z -> list Z) : Prop := {
  sp_queues : queues_ok [current_task s] s qs;
  sp_cur : valid_task (current_task s);
  sp_exited : state (tk s (current_task s)) = TASK_EXITED ->
    current_task s <> IDLE /\ unqueued qs (current_task s);
}.

Lemma sched_ok_pre s qs : sched_ok s qs -> sched_pre s qs.
Proof. intros [? ? ?]. by split. Qed.

(** The fields of a task that the queues depend on. *)
Definition qview (k : task) : Z * Z * Z * Z := (state k, tier k, mlfq_level k, in_use k).

Lemma task_qidx_view s s' t : qview (tk s' t) = qview (tk s t) -> task_qidx s' t = task_qidx s t.
Proof. unfold qview. intros [= E1 E2 E3 E4]. unfold task_qidx. by rewrite E2, E3. Qed.

Lemma rq_ok_frame s s' qs :
  rq_head s' = rq_head s -> rq_tail s' = rq_tail s ->
  (forall q t, queue_range q -> t ∈ qs q -> nx s' t = nx s t /\ cur_queue (tk s' t) = cur_queue (tk s t)) ->
  rq_ok s qs -> rq_ok s' qs.
Proof.
  intros Eh Et Hf [Hl Hla Hm]. split; intros q; intros.
  - rewrite Eh. eapply llist_ext; [|by apply Hl]. intros x Hx. by destruct (Hf q x).
  - rewrite Et. by apply Hla.
  - destruct (Hf q t) as [_ ->]; auto.
Qed.

Lemma queues_ok_frame ex s s' qs :
  rq_head s' = rq_head s -> rq_tail s' = rq_tail s ->
  (forall q t, queue_range q -> t ∈ qs q -> nx s' t = nx s t /\ cur_queue (tk s' t) = cur_queue (tk s t)) ->
  (forall t, t ∉ ex -> qview (tk s' t) = qview (tk s t)) ->
  queues_ok ex s qs -> queues_ok ex s' qs.
Proof.
  intros Eh Et Hf Hv [Hr Hi Hq Ha]. split; auto.
  - by apply (rq_ok_frame s).
  - intros q t Hqr Ht Hn. rewrite (task_qidx_view s s') by auto. specialize (Hv t Hn).
    unfold qview in Hv. destruct (Hq q t) as [H1 H2]; auto. split; [congruence|done].
  - intros t Hs Hn Hu Hst. specialize (Hv t Hn). unfold qview in Hv. apply Ha; auto; congruence.
Qed.

Lemma queues_ok_weaken ex ex' s qs :
  (forall t, t ∈ ex -> t ∈ ex') -> queues_ok ex s qs -> queues_ok ex' s qs.
Proof. intros Hs [Hr Hi Hq Ha]. split; auto. Qed.

Lemma queues_ok_ext ex s qs qs' :
  (forall q, queue_range q -> qs' q = qs q) -> queues_ok ex s qs -> queues_ok ex s qs'.
Proof.
  intros E [Hr Hi Hq Ha]. split.
  - by eapply rq_ok_ext.
  - intros q Hqr. rewrite E by done. auto.
  - intros q t Hqr. rewrite E by done. auto.
  - intros t ? ? ? ?. destruct (Ha t) as (q & ? & ?); auto. exists q. by rewrite E.
Qed.

(** An exempt task may change in every field but its links. *)
Lemma queues_ok_upd ex s qs c f :
  (forall k, next (f k) = next k /\ cur_queue (f k) = cur_queue k) ->
  c ∈ ex \/ (forall k, qview (f k) = qview k) ->
  queues_ok ex s qs -> queues_ok ex (upd s c f) qs.
Proof.
  intros Hf Hc. apply queues_ok_frame; [done..| |].
  - intros q t _ _. unfold nx. rewrite tk_upd. case_decide; [|done]. subst. apply Hf.
  - intros t Ht. rewrite tk_upd. case_decide; [subst|done]. destruct Hc; [done|auto].
Qed.

Lemma eq_nonext_view s s' t : eq_nonext s s' -> qview (tk s' t) = qview (tk s t).
Proof. intros. by apply (eq_nonext_proj qview). Qed.

(** ** Queue operations *)

Lemma dequeue_ok ex c s qs :
  queues_ok ex s qs -> c ∈ ex -> c <> 0 ->
  exists s', dequeue_task c s = Some s' /\ queues_ok ex s' (without c qs) /\ eq_nonext s s'.
Proof.
  intros [Hr Hi Hq Ha] Hcx Hc. destruct (dequeue_refines s qs c Hr Hc) as (s' & E & Hr' & Heq).
  exists s'. splits; auto. pose proof (eq_nonext_view s s') as Hv. split; auto.
  - intros q Hqr Hin. apply list_elem_of_filter in Hin as [_ Hin]. by apply (Hi q).
  - intros q t Hqr [_ Ht]%list_elem_of_filter Hn. rewrite (task_qidx_view s s') by auto.
    specialize (Hv t Heq). unfold qview in Hv. destruct (Hq q t); auto. split; [congruence|done].
  - intros t Hs Hn Hu Hst. specialize (Hv t Heq). unfold qview in Hv.
    destruct (Ha t) as (q & Hqr & Hin); auto; try congruence. exists q. split; [done|].
    apply list_elem_of_filter. set_solver.
Qed.

Lemma enqueue_ok ex ex' s qs c :
  queues_ok ex s qs -> slot c -> unqueued qs c -> state (tk s c) = TASK_READY ->
  (forall t, t ∈ ex -> t = c \/ t ∈ ex') ->
  queues_ok ex' (enqueue_task c s) (qset qs (task_qidx s c) (qs (task_qidx s c) ++ [c])).
Proof.
  intros [Hr Hi Hq Ha] Hs Hu Hst Hex. set (q0 := task_qidx s c).
  assert (Hq0 : queue_range q0) by apply task_qidx_range.
  assert (Hv : forall t, qview (tk (enqueue_task c s) t) = qview (tk s t)) by (intros; by apply enqueue_fields).
  assert (Hin : forall q t, t ∈ qset qs q0 (qs q0 ++ [c]) q <-> t ∈ qs q \/ (t = c /\ q = q0)).
  { intros q t. unfold qset. case_decide; set_solver. }
  split.
  - apply enqueue_refines; auto. unfold slot, valid_task in *. lia.
  - intros q Hqr [Hc|[Hc _]]%Hin; [by apply (Hi q)|]. unfold slot, IDLE in *. lia.
  - intros q t Hqr Ht Hn. rewrite (task_qidx_view s) by auto. specialize (Hv t). unfold qview in Hv.
    destruct (decide (t = c)) as [->|Hne].
    + apply Hin in Ht as [Ht|[_ ->]]; [by destruct (Hu q Hqr)|]. split; [congruence|done].
    + apply Hin in Ht as [Ht|[? _]]; [|done]. destruct (Hq q t); auto; [|split; [congruence|done]].
      intros Hx. destruct (Hex t Hx); auto.
  - intros t Hst' Hn Hu' Hs'. specialize (Hv t). unfold qview in Hv. destruct (decide (t = c)) as [->|Hne].
    + exists q0. split; [done|]. apply Hin. auto.
    + destruct (Ha t) as (q & Hqr & Ht); auto; try congruence.
      * intros Hx. destruct (Hex t Hx); auto.
      * exists q. split; [done|]. apply Hin. auto.
Qed.

(** ** Picking *)

Lemma choose_some r qs n q q' l1 x l2 :
  choose r qs n q = Some (q', (l1, x, l2)) ->
  q <= q' < q + Z.of_nat n /\ qs q' = l1 ++ x :: l2 /\ r x = true /\
  Forall (fun y => r y = false) l1 /\ (forall p t, q <= p < q' -> t ∈ qs p -> r t = false).
Proof.
  revert q. induction n as [|n IH]; intros q; simpl; [done|].
  destruct (split_ready r (qs q)) as [[[m1 y] m2]|] eqn:E.
  - intros [= <- <- <- <-]. apply split_ready_some in E as (-> & ? & ?). splits; auto; [lia..|]. intros; lia.
  - intros H. destruct (IH _ H) as (? & ? & ? & ? & Hlow). splits; auto; [lia..|].
    intros p t Hp Ht. destruct (decide (p = q)) as [->|]; [|apply (Hlow p); [lia|done]].
    clear - E Ht. induction (qs q) as [|z l IH]; [set_solver|]. simpl in E.
    destruct (r z) eqn:Ez; [done|]. destruct (split_ready r l) as [[[? ?] ?]|]; [done|]. set_solver.
Qed.

Lemma choose_none r qs n q :
  choose r qs n q = None -> forall p t, q <= p < q + Z.of_nat n -> t ∈ qs p -> r t = false.
Proof.
  revert q. induction n as [|n IH]; intros q; simpl; [lia|].
  destruct (split_ready r (qs q)) as [[[m1 y] m2]|] eqn:E; [done|]. intros H p t Hp Ht.
  destruct (decide (p = q)) as [->|]; [|apply (IH _ H p); [lia|done]].
  clear - E Ht. induction (qs q) as [|z l IH]; [set_solver|]. simpl in E.
  destruct (r z) eqn:Ez; [done|]. destruct (split_ready r l) as [[[? ?] ?]|]; [done|]. set_solver.
Qed.

Lemma elem_of_picked l1 x l2 y : y ∈ picked l1 x l2 -> y ∈ l1 ++ x :: l2.
Proof. unfold picked. destruct (l2 ++ l1) eqn:E; [set_solver|]. rewrite <- E. set_solver. Qed.

Lemma picked_elem_of l1 x l2 y : y ∈ l1 ++ x :: l2 -> y <> x -> y ∈ picked l1 x l2.
Proof.
  unfold picked. intros Hy Hn. assert (Hin : y ∈ l2 ++ l1) by set_solver.
  destruct (l2 ++ l1) eqn:E; [set_solver|]. rewrite <- E in *. set_solver.
Qed.

(** The outcome of a loop over [n] queues from [q] on. *)
Record pick_out (n : nat) (q : Z) (s s' : sched) (qs qs' : Z -> list Z) (x q' : Z) (l1 l2 : list Z) : Prop := {
  po_range : q <= q' < q + Z.of_nat n;
  po_split : qs q' = l1 ++ x :: l2;
  po_skipped : Forall (fun y => ready s y = false) l1;
  po_ready : ready s x = true;
  po_above p t : q <= p < q' -> t ∈ qs p -> ready s t = false;
  po_result : qs' = qset qs q' (picked l1 x l2);
  po_eq : eq_nonext s s';
}.

Lemma pick_ok n q ex s qs :
  queues_ok ex s qs -> 0 <= q -> q + Z.of_nat n <= 5 ->
  (pick_loop n q s = Some (0, s) /\
     forall p t, q <= p < q + Z.of_nat n -> t ∈ qs p -> ready s t = false) \/
  (exists x s' qs' q' l1 l2, pick_loop n q s = Some (x, s') /\ slot x /\
     pick_out n q s s' qs qs' x q' l1 l2 /\ queues_ok (x :: ex) s' qs').
Proof.
  intros [Hr Hi Hq Ha] Hq0 Hn. pose proof (pick_loop_refines n s qs q Hr Hq0 Hn) as Hp.
  destruct (choose (ready s) qs n q) as [[q' [[l1 x] l2]]|] eqn:E.
  2: { left. split; [done|]. by apply choose_none. }
  right. destruct Hp as (s' & Ep & Hr' & Heq). apply choose_some in E as (Hrg & Es & Hx & Hsk & Hab).
  assert (Hqr : queue_range q') by (unfold queue_range; lia).
  assert (Hxin : x ∈ qs q') by (rewrite Es; set_solver).
  destruct (rq_mem _ _ Hr q' x Hqr Hxin) as [_ Hval].
  assert (Hslot : slot x).
  { unfold slot, valid_task in *. enough (x <> 17) by lia. intros ->. by apply (Hi q'). }
  exists x, s', (qset qs q' (picked l1 x l2)), q', l1, l2. splits; [done|done|by split|].
  pose proof (eq_nonext_view s s') as Hv.
  assert (Hsub : forall p t, t ∈ qset qs q' (picked l1 x l2) p -> t ∈ qs p).
  { intros p t. unfold qset. case_decide; [subst|done]. rewrite Es. apply elem_of_picked. }
  split; auto.
  - intros p Hp Hin. apply (Hi p Hp). auto.
  - intros p t Hp Ht Hne. rewrite (task_qidx_view s s') by auto. specialize (Hv t Heq). unfold qview in Hv.
    destruct (Hq p t); auto; [set_solver|]. split; [congruence|done].
  - intros t Hs Hne Hu Hst. specialize (Hv t Heq). unfold qview in Hv.
    destruct (Ha t) as (p & Hp & Hin); [done|set_solver|congruence|congruence|]. exists p. split; [done|].
    unfold qset. case_decide; [subst|done]. rewrite Es in Hin. apply picked_elem_of; set_solver.
Qed.

(** What a context switch leaves in the task store. *)
Lemma tk_switch p x s t :
  tk (switch_to_task p x s) t =
    if decide (x = t) then (tk s x) <| state := TASK_RUNNING |> <| timeslice := tier_timeslice (tk s x) |>
    else tk s t.
Proof.
  change (tk (switch_to_task p x s) t) with
    (tk (set_task_timeslice x ((s <| current_task := x |>) <| x # state := TASK_RUNNING |>)) t).
  unfold set_task_timeslice. rewrite !tk_upd. repeat case_decide; done.
Qed.

Lemma switch_ok p x s qs :
  queues_ok [x] s qs -> valid_task x -> sched_ok (switch_to_task p x s) qs.
Proof.
  intros Hq Hv. split; [|exact Hv|].
  - revert Hq. apply queues_ok_frame; [done..| |].
    + intros q t _ _. unfold nx. rewrite tk_switch. case_decide; subst; done.
    + intros t Ht. rewrite tk_switch. case_decide; [set_solver|done].
  - change (current_task _) with x. rewrite tk_switch, decide_True by done. done.
Qed.

(** A switch (or the decision not to switch) by priority and quota, [prev] being the task
    that ran. *)
Record choice_ok (prev : Z) (s s' : sched) (qs : Z -> list Z) : Prop := {
  ch_idle : current_task s' = IDLE -> forall q t, queue_range q -> t ∈ qs q -> ready s t = false;
  ch_quota : current_task s' <> IDLE -> current_task s' <> prev -> ready s (current_task s') = true;
  ch_prio : current_task s' <> IDLE -> forall q t, 0 <= q < task_qidx s' (current_task s') ->
    t ∈ qs q -> t <> prev -> ready s t = false;
}.

Lemma task_qidx_switch p x s t : task_qidx (switch_to_task p x s) t = task_qidx s t.
Proof. unfold task_qidx. rewrite tk_switch. case_decide; subst; done. Qed.

Lemma pick_idle_ok prev s qs :
  queues_ok [] s qs ->
  exists x s' qs', pick_or_idle s = Some (x, s') /\ queues_ok [x] s' qs' /\ valid_task x /\ eq_nonext s s' /\
    choice_ok prev s (switch_to_task prev x s') qs' /\
    (x <> IDLE -> exists q l1 l2, pick_out 5 0 s s' qs qs' x q l1 l2).
Proof.
  intros Hq. destruct (pick_ok 5 0 [] s qs Hq) as [[E Hno]|(x & s' & qs' & q' & l1 & l2 & E & Hs & Ho & Hq')];
    [lia..| |]; unfold pick_or_idle, pick_next_task; change (Z.to_nat NR_QUEUES) with 5%nat; rewrite E;
    cbn [mbind option_bind].
  - exists IDLE, s, qs.
    splits; [done|eapply queues_ok_weaken; [|done]; set_solver|done|apply eq_nonext_refl| |done].
    split; [|done..]. intros _ q t Hqr. apply Hno. unfold queue_range in *. lia.
  - destruct (Z.eqb_spec x 0); [unfold slot in *; lia|]. exists x, s', qs'.
    splits; [done|done|unfold slot, valid_task in *; lia|by destruct Ho| |intros _; by exists q', l1, l2].
    assert (Hcur : current_task (switch_to_task prev x s') = x) by done.
    split; rewrite Hcur; [unfold slot, IDLE in *; lia|by destruct Ho|].
    intros _ q t Hqlt Hin _. rewrite task_qidx_switch in Hqlt.
    destruct Ho as [Hrg Es Hsk Hx Hab -> Heq].
    destruct (qo_ready _ _ _ Hq q' x) as [_ Eq]; [unfold queue_range; lia|rewrite Es; set_solver|set_solver|].
    rewrite (task_qidx_view s s') in Hqlt by (by apply eq_nonext_view).
    rewrite qset_ne in Hin by lia. apply (Hab q); [lia|done].
Qed.

Lemma choice_ok_ready prev s s1 s' qs :
  (forall t, ready s1 t = ready s t) -> choice_ok prev s1 s' qs -> choice_ok prev s s' qs.
Proof.
  intros E [H1 H2 H3]. split; intros; rewrite <- E; [by apply (H1 ltac:(done) q t)|auto|by apply (H3 ltac:(done) q t)].
Qed.

(** An unqueued task that is not READY needs no exemption. *)
Lemma queues_ok_unexempt c s qs :
  queues_ok [c] s qs -> unqueued qs c -> (slot c -> state (tk s c) <> TASK_READY) -> queues_ok [] s qs.
Proof.
  intros [Hr Hi Hq Ha] Hu Hst. split; auto.
  - intros q t Hqr Ht _. apply Hq; auto. intros ->%list_elem_of_singleton. by apply (Hu q).
  - intros t Hs _ Hus Hst'. apply Ha; auto. intros ->%list_elem_of_singleton. by apply Hst.
Qed.

(** Leave the CPU to the best other task. *)
Lemma pick_switch_ok prev s qs :
  queues_ok [] s qs ->
  exists s' qs', ('(cand, s) ← pick_or_idle s; Some (switch_to_task prev cand s)) = Some s' /\
    sched_ok s' qs' /\ choice_ok prev s s' qs'.
Proof.
  intros Hq. destruct (pick_idle_ok prev s qs Hq) as (x & s' & qs' & -> & Hq' & Hv & _ & Hc & _).
  cbn [mbind option_bind]. eexists _, qs'. splits; [done|by apply switch_ok|done].
Qed.

(** The other tasks of the queue of [prev] are not all out of quota. *)
Definition not_starved (prev : Z) (s : sched) (qs : Z -> list Z) : Prop :=
  let others := without prev qs (task_qidx s prev) in
  others = [] \/ exists t, t ∈ others /\ ready s t = true.

Definition sched_result (s : sched) (r : option sched) : Prop :=
  exists s' qs', r = Some s' /\ sched_ok s' qs' /\ choice_ok (current_task s) s s' qs'.

Lemma ready_upd s t f t' :
  (forall k, quota_done (f k) = quota_done k) -> ready (upd s t f) t' = ready s t'.
Proof. intros Hf. unfold ready. by rewrite (tk_upd_proj quota_done). Qed.

Lemma ready_enqueue s t t' : ready (enqueue_task t s) t' = ready s t'.
Proof. unfold ready. by rewrite (enqueue_fields quota_done). Qed.

Lemma current_enqueue s t : current_task (enqueue_task t s) = current_task s.
Proof. unfold enqueue_task. destruct (t =? 0); [done|]. cbv zeta. by destruct (negb _). Qed.

(** [prev->state = TASK_READY; enqueue_task(prev)] *)
Lemma park_ok c s qs :
  queues_ok [c] s qs -> slot c -> unqueued qs c ->
  queues_ok [] (enqueue_task c (s <| c # state := TASK_READY |>))
    (qset qs (task_qidx s c) (qs (task_qidx s c) ++ [c])).
Proof.
  intros Hq Hs Hu. set (s1 := s <| c # state := TASK_READY |>).
  assert (Eq : task_qidx s1 c = task_qidx s c) by (unfold s1, task_qidx; by rewrite tk_upd_eq).
  rewrite <- Eq. apply (enqueue_ok [c] []); auto.
  - apply queues_ok_upd; [done|left; set_solver|done].
  - unfold s1. by rewrite tk_upd_eq.
  - set_solver.
Qed.

Lemma schedule_idle s qs :
  sched_pre s qs -> current_task s = IDLE ->
  sched_result s ('(cand, s') ← pick_next_task s; if cand =? 0 then Some s' else Some (switch_to_task IDLE cand s')).
Proof.
  intros [Hq Hv He] Hc. rewrite Hc in *.
  assert (Hq0 : queues_ok [] s qs).
  { apply queues_ok_unexempt with IDLE; [done|by destruct Hq|unfold slot, IDLE; lia]. }
  pose proof (pick_switch_ok IDLE s qs Hq0) as Hsw. unfold pick_or_idle in Hsw.
  destruct (pick_ok 5 0 [] s qs Hq0) as [[E Hno]|(x & s' & qs' & q' & l1 & l2 & E & Hs & Ho & Hq')];
    [lia..| |]; unfold pick_next_task, sched_result in *; change (Z.to_nat NR_QUEUES) with 5%nat in *;
    rewrite E in *; cbn [mbind option_bind] in *; rewrite Hc.
  - exists s, qs. splits; [done|split; rewrite Hc; [done..|]|].
    { intros He'. by destruct (He He'). }
    split; rewrite Hc; [|done..].
    intros _ q t Hqr. apply Hno. unfold queue_range in *. lia.
  - destruct (Z.eqb_spec x 0); [unfold slot in *; lia|]. done.
Qed.

Lemma without_notin t qs : unqueued qs t -> forall q, queue_range q -> without t qs q = qs q.
Proof. intros Hu q Hq. by apply filter_without, Hu. Qed.

Lemma qidx_nonext s s' t : eq_nonext s s' -> task_qidx s' t = task_qidx s t.
Proof. intros. by apply task_qidx_view, eq_nonext_view. Qed.

(** [prev] is the only task with quota left at its level: it was alone in its queue. *)
Lemma picked_alone (qs : Z -> list Z) q0 prev l1 l2 (r : Z -> bool) :
  prev ∉ qs q0 -> qs q0 = [] \/ (exists t, t ∈ qs q0 /\ r t = true) ->
  qs q0 ++ [prev] = l1 ++ prev :: l2 -> Forall (fun y => r y = false) l1 ->
  qs q0 = [] /\ picked l1 prev l2 = [].
Proof.
  intros Hn Hst E Hf. assert (El : l1 = qs q0 /\ l2 = []).
  { destruct l2 as [|y l2 _] using rev_ind.
    - apply app_inj_tail in E as [? _]. auto.
    - rewrite app_comm_cons, app_assoc in E. apply app_inj_tail in E as [E _]. exfalso.
      apply Hn. rewrite E. set_solver. }
  destruct El as [-> ->]. destruct Hst as [->|(t & Ht & Hr)]; [done|].
  rewrite Forall_forall in Hf. rewrite (Hf t Ht) in Hr. done.
Qed.

(** The fairness branch: [prev] has just been picked again and a lower queue is asked. *)
Lemma lower_ok prev s qs :
  let q0 := task_qidx s prev in
  queues_ok [prev] s qs -> slot prev -> unqueued qs prev -> current_task s = prev ->
  state (tk s prev) = TASK_READY -> qs q0 = [] ->
  (forall q t, 0 <= q < q0 -> t ∈ qs q -> ready s t = false) ->
  exists s' qs', ('(lower, s1) ← pick_next_lower (q0 + 1) s;
     if negb (lower =? 0) then Some (switch_to_task prev lower (enqueue_task prev s1))
     else Some (set_task_timeslice prev s1)) = Some s' /\ sched_ok s' qs' /\ choice_ok prev s s' qs'.
Proof.
  intros q0 Hq Hs Hu Hc Hst Hemp Hlow. pose proof (task_qidx_range s prev) as Hr0. fold q0 in Hr0.
  assert (Hidle : prev <> IDLE) by (unfold slot, IDLE in *; lia).
  unfold pick_next_lower, NR_QUEUES. set (n := Z.to_nat (5 - (q0 + 1))).
  assert (En : Z.of_nat n = 4 - q0) by (unfold n, queue_range in *; lia).
  destruct (pick_ok n (q0 + 1) [prev] s qs Hq) as [[E Hno]|(y & s2 & qs2 & q' & l1 & l2 & E & Hy & Ho & Hq2)];
    [unfold queue_range in *; lia..| |]; rewrite E; cbn [mbind option_bind].
  - rewrite Z.eqb_refl. cbn [negb]. eexists _, qs. split; [done|]. unfold set_task_timeslice. split.
    + split; change (current_task (upd _ _ _)) with (current_task s); rewrite Hc.
      * apply queues_ok_upd; [done|left; set_solver|done].
      * unfold slot, valid_task in *. lia.
      * rewrite tk_upd_eq. change (state (tk s prev) <> TASK_EXITED). by rewrite Hst.
    + split; change (current_task (upd _ _ _)) with (current_task s); rewrite Hc; [done..|].
      intros _ q t Hq'. unfold task_qidx in Hq'. rewrite !tk_upd_eq in Hq'.
      intros Ht _. apply (Hlow q); [exact Hq'|done].
  - destruct (Z.eqb_spec y 0); [unfold slot in *; lia|]. cbn [negb].
    destruct Ho as [Hrg Es Hsk Hyr Hab -> Heq].
    assert (Hu2 : unqueued (qset qs q' (picked l1 y l2)) prev).
    { intros q Hqr. unfold qset. case_decide; [subst|by apply Hu]. intros Hin%elem_of_picked.
      apply (Hu q Hqr). by rewrite Es. }
    set (qs3 := qset (qset qs q' (picked l1 y l2)) (task_qidx s2 prev) (qset qs q' (picked l1 y l2) (task_qidx s2 prev) ++ [prev])).
    assert (Hq3 : queues_ok [y] (enqueue_task prev s2) qs3).
    { apply (enqueue_ok [y; prev]); auto; [|set_solver].
      rewrite <- Hst. by apply (eq_nonext_proj state). }
    eexists _, qs3. split; [done|]. split; [apply switch_ok; [done|unfold slot, valid_task in *; lia]|].
    destruct (qo_ready _ _ _ Hq q' y) as [_ Eq]; [unfold queue_range in *; lia|rewrite Es; set_solver| |].
    { intros ->%list_elem_of_singleton. apply (Hu q'); [unfold queue_range in *; lia|]. rewrite Es. set_solver. }
    assert (Ey : current_task (switch_to_task prev y (enqueue_task prev s2)) = y) by done.
    split; rewrite Ey; [unfold slot, IDLE in *; lia|done|]. intros _ q t Hqlt Hin Hne.
    rewrite task_qidx_switch, (task_qidx_view s2), (qidx_nonext s s2), Eq in Hqlt
      by (done || by apply enqueue_fields).
    unfold qs3 in Hin. rewrite (qidx_nonext s s2) in Hin by done. fold q0 in Hin. unfold qset in Hin.
    repeat case_decide; subst; try lia.
    + rewrite Hemp in Hin. set_solver.
    + destruct (decide (q < q0)); [apply (Hlow q)|apply (Hab q)]; auto; lia.
Qed.

Lemma expired_ok prev s qs :
  let q0 := task_qidx s prev in
  queues_ok [prev] s qs -> slot prev -> unqueued qs prev -> current_task s = prev ->
  qs q0 = [] \/ (exists t, t ∈ qs q0 /\ ready s t = true) ->
  (forall q t, 0 <= q < q0 -> t ∈ qs q -> ready s t = false) ->
  exists s' qs', schedule_expired prev q0 s = Some s' /\ sched_ok s' qs' /\ choice_ok prev s s' qs'.
Proof.
  intros q0 Hq Hs Hu Hc Hst Hlow. pose proof (task_qidx_range s prev) as Hr0. fold q0 in Hr0.
  unfold schedule_expired. set (s1 := enqueue_task prev (s <| prev # state := TASK_READY |>)).
  pose proof (park_ok prev s qs Hq Hs Hu) as Hq1. fold s1 in Hq1. fold q0 in Hq1.
  assert (Hrdy : forall t, ready s1 t = ready s t) by (intros; unfold s1; by rewrite ready_enqueue, ready_upd).
  assert (Hqi : task_qidx s1 prev = q0).
  { unfold s1. rewrite (task_qidx_view (s <| prev # state := TASK_READY |>)) by (by apply enqueue_fields).
    unfold q0, task_qidx. by rewrite tk_upd_eq. }
  destruct (pick_idle_ok prev s1 _ Hq1) as (x & s2 & qs2 & E & Hq2 & Hv & Heq & Hch & Hout).
  rewrite E. cbn [mbind option_bind]. destruct (Z.eqb_spec x prev) as [->|Hne].
  2: { eexists _, qs2. splits; [done|by apply switch_ok|by apply (choice_ok_ready prev s s1)]. }
  destruct Hout as (q' & l1 & l2 & Ho); [unfold slot, IDLE in *; lia|].
  destruct Ho as [Hrg Es Hsk _ _ -> _].
  assert (q' = q0) as ->.
  { eapply (rq_disjoint s1 _ _ _ prev); [apply Hq1|unfold queue_range; lia|done|rewrite Es; set_solver|].
    rewrite qset_eq. set_solver. }
  rewrite qset_eq in Es. destruct (picked_alone qs q0 prev l1 l2 (ready s1)) as [Hemp Hpk]; auto.
  { destruct Hst as [?|(t & ? & ?)]; [auto|]. right. exists t. by rewrite Hrdy. }
  rewrite Hpk in *. rewrite <- (qidx_nonext s1 s2) in Hqi by done.
  destruct (lower_ok prev s2 (qset (qset qs q0 (qs q0 ++ [prev])) q0 [])) as (s' & qs' & E' & Hok & Hch');
    rewrite ?Hqi; auto.
  - intros q Hqr. unfold qset. repeat case_decide; [set_solver..|by apply Hu].
  - destruct Heq as (_ & -> & _). unfold s1. by rewrite current_enqueue.
  - rewrite (eq_nonext_proj state s1 s2) by done. unfold s1. rewrite enqueue_fields by done. by rewrite tk_upd_eq.
  - by rewrite qset_eq.
  - intros q t Hqlt. rewrite !qset_ne by lia. rewrite (eq_nonext_ready s1 s2), Hrdy by done. by apply Hlow.
  - rewrite Hqi in E'. exists s', qs'. splits; [done..|]. apply (choice_ok_ready prev s s2); [|done].
    intros t. by rewrite (eq_nonext_ready s1 s2), Hrdy.
Qed.

Lemma peek_ok ex s qs :
  queues_ok ex s qs -> (forall q t, queue_range q -> t ∈ qs q -> t ∉ ex) ->
  exists x, peek_next_task s = Some x /\
    ((x = 0 /\ forall q t, queue_range q -> t ∈ qs q -> ready s t = false) \/
     (x <> 0 /\ forall q t, 0 <= q < task_qidx s x -> t ∈ qs q -> ready s t = false)).
Proof.
  intros Hq Hex. unfold peek_next_task. change (Z.to_nat NR_QUEUES) with 5%nat.
  rewrite (peek_loop_refines 5 s qs 0) by (apply Hq || lia). eexists; split; [done|].
  destruct (choose (ready s) qs 5 0) as [[q' [[l1 x] l2]]|] eqn:E.
  - apply choose_some in E as (Hrg & Es & Hx & _ & Hab). right.
    assert (Hqr : queue_range q') by (unfold queue_range; lia).
    assert (Hin : x ∈ qs q') by (rewrite Es; set_solver).
    destruct (rq_mem _ _ (qo_rq _ _ _ Hq) q' x Hqr Hin) as [_ Hv]. split; [unfold valid_task in Hv; lia|].
    destruct (qo_ready _ _ _ Hq q' x) as [_ ->]; eauto.
  - left. split; [done|]. intros q t Hqr. apply (choose_none _ _ _ _ E). unfold queue_range in *. lia.
Qed.

Lemma running_ok s qs :
  let prev := current_task s in
  sched_pre s qs -> slot prev -> state (tk s prev) <> TASK_EXITED -> not_starved prev s qs ->
  sched_result s (schedule_running prev s).
Proof.
  intros prev [Hq _ _] Hs Hlive Hns. fold prev in Hq. unfold schedule_running, sched_result.
  destruct (dequeue_ok [prev] prev s qs Hq) as (s1 & -> & Hq1 & Heq); [set_solver|unfold slot in *; lia|].
  cbn [mbind option_bind]. fold prev. set (q0 := task_qidx s1 prev). set (qs1 := without prev qs) in *.
  assert (Hu : unqueued qs1 prev) by apply without_unqueued.
  set (s2 := if 0 <? timeslice (tk s1 prev) then _ else s1).
  assert (Hq2 : queues_ok [prev] s2 qs1).
  { unfold s2. destruct (_ <? _); [|done]. apply queues_ok_upd; [done|left; set_solver|done]. }
  assert (Hrdy : forall t, ready s2 t = ready s t).
  { intros t. rewrite <- (eq_nonext_ready s s1) by done. unfold s2. destruct (_ <? _); [by rewrite ready_upd|done]. }
  assert (Hqi : task_qidx s2 prev = q0).
  { unfold s2. destruct (_ <? _); [|done]. unfold q0, task_qidx. by rewrite tk_upd_eq. }
  assert (Hc2 : current_task s2 = prev).
  { transitivity (current_task s1); [|by destruct Heq as (_ & -> & _)]. unfold s2. by destruct (_ <? _). }
  destruct (peek_ok [prev] s2 qs1 Hq2) as (x & -> & Hx).
  { intros q t Hqr Ht ->%list_elem_of_singleton. by apply (Hu q). }
  cbn [mbind option_bind].
  destruct (negb (x =? 0) && _)%bool eqn:Eb.
  - pose proof (park_ok prev s2 qs1 Hq2 Hs Hu) as Hq3.
    destruct (pick_switch_ok prev _ _ Hq3) as (s' & qs' & -> & Hok & Hch). exists s', qs'. splits; auto.
    eapply choice_ok_ready; [|done]. intros t. by rewrite ready_enqueue, ready_upd.
  - assert (Hlow : forall q t, 0 <= q < q0 -> t ∈ qs1 q -> ready s2 t = false).
    { pose proof (task_qidx_range s1 prev) as Hr0. fold q0 in Hr0. unfold queue_range in *.
      intros q t Hqlt. destruct Hx as [[-> Hx]|[Hne Hx]]; apply Hx; [unfold queue_range; lia|].
      destruct (Z.eqb_spec x 0); [done|]. cbn [negb andb] in Eb. apply Z.ltb_ge in Eb. lia. }
    destruct (timeslice (tk s2 prev) <=? 0).
    + rewrite <- Hqi. destruct (expired_ok prev s2 qs1) as (s' & qs' & -> & Hok & Hch); auto.
      * rewrite Hqi. unfold not_starved in Hns. fold qs1 in Hns.
        unfold q0. rewrite (qidx_nonext s s1) by done.
        destruct Hns as [?|(t & ? & ?)]; [auto|]. right. exists t. by rewrite Hrdy.
      * by rewrite Hqi.
      * exists s', qs'. splits; auto. by apply (choice_ok_ready prev s s2).
    + exists s2, qs1. splits; [done|split; rewrite Hc2; auto|split; rewrite Hc2].
      * unfold slot, valid_task in *; lia.
      * rewrite <- (eq_nonext_proj state s s1) in Hlive by done. unfold s2.
        destruct (_ <? _); [by rewrite tk_upd_eq|done].
      * unfold slot, IDLE in *; lia.
      * done.
      * intros _ q t Hqlt Ht _. rewrite <- Hrdy. rewrite Hqi in Hqlt. by apply (Hlow q).
Qed.

Lemma schedule_spec s qs :
  sched_pre s qs -> not_starved (current_task s) s qs -> sched_result s (schedule s).
Proof.
  intros Hok Hns. pose proof Hok as [Hq Hv He]. unfold schedule. set (prev := current_task s) in *.
  destruct (Z.eqb_spec prev 0); [unfold valid_task in *; lia|].
  destruct (Z.eqb_spec prev IDLE) as [Hid|Hid]; [rewrite Hid; by eapply schedule_idle|].
  assert (Hs : slot prev) by (unfold slot, valid_task, IDLE in *; lia).
  destruct (Z.eqb_spec (state (tk s prev)) TASK_EXITED) as [Hst|].
  { apply (pick_switch_ok prev s qs), queues_ok_unexempt with prev; auto; [by apply He|by rewrite Hst]. }
  destruct (Z.eqb_spec (state (tk s prev)) TASK_WAITING) as [Hst|]; [|by apply (running_ok s qs)].
  destruct (dequeue_ok [prev] prev s qs Hq) as (s1 & -> & Hq1 & Heq); [set_solver|done|]. cbn [mbind option_bind].
  destruct (pick_switch_ok prev s1 (without prev qs)) as (s' & qs' & -> & Hok' & Hch).
  { apply queues_ok_unexempt with prev; [done|apply without_unqueued|].
    rewrite (eq_nonext_proj state s s1) by done. by rewrite Hst. }
  exists s', qs'. splits; auto. apply (choice_ok_ready prev s s1); [|done].
  intros t. by apply eq_nonext_ready.
Qed.
