(* ===== verification/SchedSteps.v ===== *)
(** * The callers of the scheduler keep its invariant

    Requeueing on a tier or level change, aging, the watchdog, yielding, exiting and the
    timer interrupt. *)

From S2P Require Import Prelude LList Task TaskInv Watchdog Sched SchedSpec.

(** ** Fields that queueing and switching leave alone *)

Definition sfield {A} (F : task -> A) : Prop :=
  (forall k v, F (k <| next := v |>) = F k) /\ (forall k v, F (k <| cur_queue := v |>) = F k) /\
  (forall k v, F (k <| state := v |>) = F k) /\ (forall k v, F (k <| timeslice := v |>) = F k).

Definition same {A} (F : task -> A) (s s' : sched) : Prop := forall t, F (tk s' t) = F (tk s t).

Lemma same_trans {A} (F : task -> A) s1 s2 s3 : same F s1 s2 -> same F s2 s3 -> same F s1 s3.
Proof. intros H1 H2 t. by rewrite H2, H1. Qed.

Lemma same_upd {A} (F : task -> A) s t f : (forall k, F (f k) = F k) -> same F s (upd s t f).
Proof. intros Hf t'. by apply tk_upd_proj. Qed.

Lemma same_dequeue_next {A} (F : task -> A) s s' t :
  (forall k v, F (k <| next := v |>) = F k) -> dequeue_task t s = Some s' -> same F s s'.
Proof.
  intros Hn. unfold dequeue_task. destruct (t =? 0); [by intros [= <-]|].
  destruct (_ || _)%bool; [by intros [= <-]|]. destruct (_ =? t).
  - intros [= <-]. eapply same_trans; [|apply same_upd; intros; apply Hn]. by destruct (_ =? _).
  - destruct (find_prev _ _ _ _) as [p|]; [|done]. cbn [mbind option_bind].
    destruct (p =? 0); [by intros [= <-]|]. intros [= <-].
    eapply same_trans; [|apply same_upd; intros; apply Hn]. destruct (_ =? t).
    + eapply (same_trans F _ (s <| p # next := next (tk s t) |>)); [apply same_upd; intros; apply Hn|done].
    + apply same_upd; intros; apply Hn.
Qed.

Section Fields.
Context {A : Type} (F : task -> A) (HF : sfield F).

Lemma same_refl s : same F s s.
Proof. done. Qed.
Lemma same_enqueue s t : same F s (enqueue_task t s).
Proof. intros t'. apply enqueue_fields; apply HF. Qed.

Lemma same_dequeue s s' t : dequeue_task t s = Some s' -> same F s s'.
Proof. apply same_dequeue_next, HF. Qed.

Lemma same_rotate s q t : same F s (rotate q t s).
Proof.
  destruct HF as (Hn & _). unfold rotate. cbv zeta. eapply same_trans; [|apply same_upd; intros; apply HF].
  intros t'. by rewrite tk_set_tail, (tk_upd_proj F), tk_set_head.
Qed.

Lemma same_skip fuel s s' q t x : skip_done fuel q t s = Some (x, s') -> same F s s'.
Proof.
  revert s t. induction fuel as [|fuel IH]; intros s t; cbn [skip_done]; [done|].
  destruct (_ =? 0); [by intros [= <- <-]|]. intros H. eapply same_trans; [apply same_rotate|by eapply IH].
Qed.

Lemma same_pick_head s s' q t x : pick_head q t s = Some (x, s') -> same F s s'.
Proof.
  unfold pick_head. destruct (negb _); intros [= <- <-]; [apply same_rotate|done].
Qed.

Lemma same_pick_loop n s s' q x : pick_loop n q s = Some (x, s') -> same F s s'.
Proof.
  revert s q. induction n as [|n IH]; intros s q; cbn [pick_loop]; [by intros [= <- <-]|].
  destruct (pick_queue q s) as [[t s1]|] eqn:E; [|done]. cbn [mbind option_bind].
  assert (H1 : same F s s1).
  { revert E. unfold pick_queue. destruct (_ =? 0); [by intros [= <- <-]|].
    destruct (negb _); [|apply same_pick_head].
    destruct (probe_loop _ _ _) as [f|]; [|done]. cbn [mbind option_bind].
    destruct (f =? 0); [by intros [= <- <-]|].
    destruct (skip_done _ _ _ _) as [[y s2]|] eqn:Es; [|done]. cbn [mbind option_bind]. intros H.
    eapply same_trans; [by eapply same_skip|by eapply same_pick_head]. }
  destruct (t =? 0); [intros H; eapply same_trans; eauto|by intros [= <- <-]].
Qed.

Lemma same_pick_idle s s' x : pick_or_idle s = Some (x, s') -> same F s s'.
Proof.
  unfold pick_or_idle, pick_next_task. destruct (pick_loop _ _ _) as [[y s1]|] eqn:E; [|done].
  cbn [mbind option_bind]. intros [= <- <-]. by eapply same_pick_loop.
Qed.

Lemma same_switch s p x : same F s (switch_to_task p x s).
Proof.
  destruct HF as (_ & _ & Hs & Ht). intros t. rewrite tk_switch. case_decide; subst; [|done].
  by rewrite Ht, Hs.
Qed.

Lemma same_expired prev q s s' : schedule_expired prev q s = Some s' -> same F s s'.
Proof.
  pose proof HF as (_ & _ & Hs & Ht). unfold schedule_expired. set (s1 := enqueue_task _ _).
  assert (H1 : same F s s1) by (eapply same_trans; [|apply same_enqueue]; apply same_upd; intros; apply HF).
  destruct (pick_or_idle s1) as [[c s2]|] eqn:E; [|done]. apply same_pick_idle in E.
  cbn [mbind option_bind]. pose proof (same_trans _ _ _ _ H1 E) as H2. destruct (c =? prev).
  - unfold pick_next_lower. destruct (pick_loop _ _ s2) as [[l s3]|] eqn:E3; [|done].
    apply same_pick_loop in E3. pose proof (same_trans _ _ _ _ H2 E3) as H3. cbn [mbind option_bind].
    destruct (negb _); intros [= <-]; (eapply same_trans; [exact H3|]).
    + eapply same_trans; [apply same_enqueue|apply same_switch].
    + apply same_upd; intros; apply HF.
  - intros [= <-]. eapply same_trans; [exact H2|apply same_switch].
Qed.

Lemma same_pick_switch s s' p :
  ('(cand, s) ← pick_or_idle s; Some (switch_to_task p cand s)) = Some s' -> same F s s'.
Proof.
  destruct (pick_or_idle s) as [[c s1]|] eqn:E; [|done]. cbn [mbind option_bind]. intros [= <-].
  eapply same_trans; [by eapply same_pick_idle|apply same_switch].
Qed.

(** [schedule] changes no other field of any task. *)
Lemma same_schedule s s' : schedule s = Some s' -> same F s s'.
Proof.
  pose proof HF as (_ & _ & Hs & Ht). unfold schedule. destruct (_ =? 0); [by intros [= <-]|].
  destruct (_ =? IDLE).
  { unfold pick_next_task. destruct (pick_loop _ _ _) as [[c s1]|] eqn:E; [|done].
    apply same_pick_loop in E. cbn [mbind option_bind].
    destruct (c =? 0); intros [= <-]; [done|]. eapply same_trans; [done|apply same_switch]. }
  destruct (_ =? TASK_EXITED); [apply same_pick_switch|].
  destruct (_ =? TASK_WAITING).
  { destruct (dequeue_task _ s) as [s1|] eqn:E; [|done]. cbn [mbind option_bind]. intros H.
    eapply same_trans; [by eapply same_dequeue|by eapply same_pick_switch]. }
  unfold schedule_running. destruct (dequeue_task _ s) as [s1|] eqn:E; [|done]. cbn [mbind option_bind].
  apply same_dequeue in E. set (s2 := if _ <? _ then _ else s1).
  assert (H2 : same F s s2).
  { eapply same_trans; [exact E|]. unfold s2. destruct (_ <? _); [apply same_upd; intros; apply HF|done]. }
  destruct (peek_next_task s2) as [c|]; [|done]. cbn [mbind option_bind].
  destruct (_ && _)%bool.
  - intros H%same_pick_switch. eapply same_trans; [exact H2|]. eapply same_trans; [|exact H].
    eapply same_trans; [|apply same_enqueue]; apply same_upd; intros; apply HF.
  - destruct (_ <=? 0); [|by intros [= <-]]. intros H%same_expired. by eapply same_trans.
Qed.
End Fields.

(** ** Changes of tier and level *)

(** Updates of a task that is neither queued nor READY, or that keep what the queues see. *)
Lemma queues_ok_set ex s qs t f :
  (forall k, next (f k) = next k /\ cur_queue (f k) = cur_queue k /\ in_use (f k) = in_use k /\ state (f k) = state k) ->
  t ∈ ex \/ state (tk s t) <> TASK_READY \/ task_qidx (upd s t f) t = task_qidx s t ->
  queues_ok ex s qs -> queues_ok ex (upd s t f) qs.
Proof.
  intros Hf Hc [Hr Hi Hq Ha]. split; auto.
  - apply (rq_ok_frame s); [done..| |done]. intros q x _ _. unfold nx. rewrite tk_upd.
    case_decide; [subst|done]. destruct (Hf (tk s x)) as (? & ? & _). done.
  - intros q x Hqr Hx Hn. destruct (Hq q x) as [H1 H2]; auto. destruct (decide (t = x)) as [->|Hne].
    + rewrite tk_upd_eq. destruct (Hf (tk s x)) as (_ & _ & _ & ->). split; [done|].
      destruct Hc as [?|[?|Hc]]; [done|done|congruence].
    + unfold task_qidx. rewrite tk_upd_ne by done. done.
  - intros x Hs Hn. rewrite tk_upd. case_decide; [subst|auto].
    destruct (Hf (tk s x)) as (_ & _ & -> & ->). auto.
Qed.

Lemma requeue_ok ex s qs t :
  queues_ok (t :: ex) s qs -> slot t -> state (tk s t) = TASK_READY ->
  exists s' qs', dequeue_task t s = Some s' /\ eq_nonext s s' /\ queues_ok (t :: ex) s' qs' /\ unqueued qs' t.
Proof.
  intros Hq Hs Hst. destruct (dequeue_ok (t :: ex) t s qs Hq) as (s' & E & Hq' & Heq); [set_solver|unfold slot in *; lia|].
  exists s', (without t qs). splits; auto. apply without_unqueued.
Qed.

(** The part of the state that the queues do not see, and that these operations keep. *)
Definition kview (k : task) : Z * Z * (Z * Z * Z * Z) :=
  (state k, in_use k, (cpu_quota k, quota_done k, parent k, kill_pending k)).

Definition kept (s s' : sched) : Prop :=
  current_task s' = current_task s /\ tick_count s' = tick_count s /\
  same kview s s'.

Lemma kept_refl s : kept s s.
Proof. by repeat split. Qed.

Lemma kept_trans s1 s2 s3 : kept s1 s2 -> kept s2 s3 -> kept s1 s3.
Proof. intros (? & ? & H1) (? & ? & H2). unfold kept. splits; [congruence..|]. by eapply same_trans. Qed.

Lemma kept_upd s t f :
  (forall k, kview (f k) = kview k) -> kept s (upd s t f).
Proof. intros Hf. unfold kept. splits; [done..|]. by apply same_upd. Qed.

Lemma kept_nonext s s' : eq_nonext s s' -> kept s s'.
Proof.
  intros Heq. unfold kept. splits; [apply Heq..|]. intros t.
  by apply (eq_nonext_proj kview).
Qed.

Lemma kept_enqueue s t : kept s (enqueue_task t s).
Proof.
  split; [apply current_enqueue|]. split.
  - unfold enqueue_task. destruct (t =? 0); [done|]. cbv zeta. by destruct (negb _).
  - intros t'. by apply (enqueue_fields kview).
Qed.

Lemma kept_state s s' t : kept s s' -> state (tk s' t) = state (tk s t).
Proof. intros (_ & _ & H). specialize (H t). unfold kview in H. congruence. Qed.

Lemma task_set_mlfq_level_ok s qs t level :
  sched_ok s qs -> slot t \/ t = current_task s ->
  exists s' qs', task_set_mlfq_level t level s = Some s' /\ sched_ok s' qs' /\ kept s s'.
Proof.
  intros [Hq Hv Hl] Ht. unfold task_set_mlfq_level.
  destruct (Z.eqb_spec t 0); [destruct Ht; unfold slot, valid_task in *; subst; lia|].
  destruct (_ =? _). { exists s, qs. splits; [done|by split|apply kept_refl]. }
  set (f := fun k : task => k <| mlfq_level := _ |>). set (s1 := upd s t f).
  assert (K1 : kept s s1) by (by apply kept_upd).
  assert (Hc1 : current_task s1 = current_task s) by done.
  destruct (negb _ && _ && _)%bool eqn:Eb.
  - bool_prop. assert (Hs : slot t) by (by destruct Ht).
    assert (Hq1 : queues_ok [t; current_task s] s1 qs).
    { apply queues_ok_set; [done|left; set_solver|]. eapply queues_ok_weaken; [|done]. set_solver. }
    destruct (requeue_ok [current_task s] s1 qs t Hq1 Hs) as (s2 & qs2 & E2 & Heq & Hq2 & Hu2).
    { done. }
    rewrite E2. cbn [mbind option_bind]. eexists _, _. split; [done|].
    assert (K2 : kept s (enqueue_task t s2)).
    { eapply kept_trans; [exact K1|]. eapply kept_trans; [by apply kept_nonext|apply kept_enqueue]. }
    split; [|done]. destruct K2 as (Ec & _ & K2). split; rewrite Ec; [|done|].
    + eapply (enqueue_ok [t; current_task s]); [done|done|done| |set_solver].
      rewrite (eq_nonext_proj state s1 s2) by done. done.
    + specialize (K2 (current_task s)). unfold kview in K2. congruence.
  - eexists s1, qs. splits; [done| |done]. split; rewrite ?Hc1; [|done|].
    + apply queues_ok_set; [done| |done].
      destruct (decide (t = current_task s)) as [->|Hne]; [left; set_solver|right].
      destruct (decide (state (tk s t) = TASK_READY)) as [Hst|]; [right|by left].
      destruct (Z.eqb_spec (task_qidx s t) (task_qidx s1 t)) as [E|]; [done|]. exfalso. cbn [negb andb] in Eb.
      unfold s1 in Eb. rewrite tk_upd_eq in Eb. change (state (f (tk s t))) with (state (tk s t)) in Eb.
      rewrite Hst in Eb. simpl in Eb. apply negb_false_iff in Eb. apply Z.eqb_eq in Eb. done.
    + rewrite (kept_state s s1) by done. done.
Qed.

Lemma task_set_tier_ok s qs t tr :
  sched_ok s qs -> slot t \/ t = current_task s ->
  exists s' qs', task_set_tier t tr s = Some s' /\ sched_ok s' qs' /\ kept s s'.
Proof.
  intros [Hq Hv Hl] Ht. unfold task_set_tier.
  destruct (Z.eqb_spec t 0); [destruct Ht; unfold slot, valid_task in *; subst; lia|].
  set (newq := if tr =? TIER_USER then _ else _).
  assert (Hnew : task_qidx (s <| t # tier := tr |>) t = newq).
  { unfold task_qidx. rewrite !tk_upd_eq. by destruct (Z.eqb_spec t 0). }
  destruct (negb _ && _ && _)%bool eqn:Eb.
  - bool_prop. assert (Hs : slot t) by (by destruct Ht).
    destruct (requeue_ok [current_task s] s qs t) as (s1 & qs1 & E1 & Heq & Hq1 & Hu1); auto.
    { eapply queues_ok_weaken; [|done]. set_solver. }
    rewrite E1. cbn [mbind option_bind]. eexists _, _. split; [done|].
    assert (K2 : kept s (enqueue_task t (s1 <| t # tier := tr |>))).
    { eapply kept_trans; [by apply kept_nonext|]. eapply kept_trans; [|apply kept_enqueue]. by apply kept_upd. }
    split; [|done]. pose proof K2 as (Ec & _). split; rewrite Ec; [|done|].
    + eapply (enqueue_ok [t; current_task s]); [|done|done| |set_solver].
      * apply queues_ok_upd; [done|left; set_solver|done].
      * rewrite tk_upd_eq. trans (state (tk s t)); [by apply (eq_nonext_proj state)|done].
    + by rewrite (kept_state s).
  - eexists _, qs. assert (K1 : kept s (s <| t # tier := tr |>)) by (by apply kept_upd).
    splits; [done| |done]. pose proof K1 as (Ec & _). split; rewrite Ec; [|done|by rewrite (kept_state s)].
    apply queues_ok_set; [done| |done].
    destruct (decide (t = current_task s)) as [->|Hne]; [left; set_solver|right].
    destruct (decide (state (tk s t) = TASK_READY)) as [Hst|]; [right|by left]. rewrite Hnew.
    destruct (Z.eqb_spec (task_qidx s t) newq) as [E|]; [done|]. exfalso. cbn [negb andb] in Eb.
    rewrite Hst in Eb. simpl in Eb. apply negb_false_iff, Z.eqb_eq in Eb. done.
Qed.

(** ** The passes over the task table *)

(** A pass that keeps an invariant of the state keeps it over the whole table. *)
Lemma foldl_inv {A B} (P : A -> Prop) (f : A -> B -> A) l a :
  (forall a b, b ∈ l -> P a -> P (f a b)) -> P a -> P (foldl f a l).
Proof.
  revert a. induction l as [|b l IH]; intros a Hf Ha; simpl; [done|].
  apply IH; [|apply Hf; [left|done]]. intros a' b' Hb'. apply Hf. by right.
Qed.

Lemma elem_of_slots t : t ∈ task_slots <-> slot t.
Proof. unfold task_slots, slot, MAX_TASKS. rewrite elem_of_seqZ. lia. Qed.

Lemma task_mlfq_aging_ok s qs :
  sched_ok s qs -> exists s' qs', task_mlfq_aging s = Some s' /\ sched_ok s' qs' /\ kept s s'.
Proof.
  intros Hok. unfold task_mlfq_aging.
  apply (foldl_inv (fun os => exists s' qs', os = Some s' /\ sched_ok s' qs' /\ kept s s')).
  - intros os t Ht%elem_of_slots (s1 & qs1 & -> & Hok1 & K1). cbn [mbind option_bind].
    destruct (_ && _)%bool; [|by exists s1, qs1].
    destruct (task_set_mlfq_level_ok s1 qs1 t (mlfq_level (tk s1 t) - 1)) as (s2 & qs2 & E & Hok2 & K2); auto.
    exists s2, qs2. splits; auto. by eapply kept_trans.
  - exists s, qs. splits; auto. apply kept_refl.
Qed.

(** Quota fields only. *)
Lemma task_quota_period_reset_ok s qs :
  sched_ok s qs ->
  sched_ok (task_quota_period_reset s) qs /\ current_task (task_quota_period_reset s) = current_task s /\
  same cpu_quota s (task_quota_period_reset s) /\
  (forall t, quota_done (tk s t) = 0 -> quota_done (tk (task_quota_period_reset s) t) = 0).
Proof.
  intros Hok. unfold task_quota_period_reset.
  apply (foldl_inv (fun s' => sched_ok s' qs /\ current_task s' = current_task s /\ same cpu_quota s s' /\
    (forall t, quota_done (tk s t) = 0 -> quota_done (tk s' t) = 0))).
  - intros s1 t _ ([Hq1 Hv1 Hl1] & E1 & Hs1 & Hd1). destruct (negb _); [|splits; [by split|done..]].
    set (s2 := s1 <| t # quota_used_ticks := 0 |>). splits.
    + split; [|done|].
      * apply queues_ok_upd; [done|by right|]. apply queues_ok_upd; [done|by right|done].
      * change (current_task (upd _ _ _)) with (current_task s1).
        unfold s2. by rewrite !(tk_upd_proj state).
    + done.
    + intros t'. unfold s2. rewrite !(tk_upd_proj cpu_quota) by done. apply Hs1.
    + intros t' Ht'. rewrite tk_upd. case_decide; [done|]. unfold s2. rewrite (tk_upd_proj quota_done) by done. auto.
  - splits; [done..|]. auto.
Qed.

(** ** Systems without CPU quotas *)

Definition rest_ok (t : Z) (k : task) : Prop :=
  cpu_quota k = 0 /\ quota_done k = 0 /\ (parent k = 0 \/ slot (parent k)) /\ (t = IDLE -> kill_pending k = 0).

(** The invariant of a system that uses no CPU quotas. *)
Record calm (s : sched) (qs : Z -> list Z) : Prop := {
  ca_ok : sched_ok s qs;
  ca_rest t : rest_ok t (tk s t);
}.

Lemma rest_ok_view t k k' :
  (cpu_quota k', quota_done k', parent k', kill_pending k') = (cpu_quota k, quota_done k, parent k, kill_pending k) ->
  rest_ok t k -> rest_ok t k'.
Proof. intros [= E1 E2 E3 E4]. unfold rest_ok. by rewrite E1, E2, E3, E4. Qed.

Lemma rest_ok_kept s s' t : kept s s' -> rest_ok t (tk s t) -> rest_ok t (tk s' t).
Proof. intros (_ & _ & H). specialize (H t). unfold kview in H. apply rest_ok_view. congruence. Qed.

Lemma no_quota_not_starved s qs t : (forall t, rest_ok t (tk s t)) -> not_starved t s qs.
Proof.
  intros Hn. unfold not_starved. cbv zeta. destruct (without t qs _) as [|x l]; [by left|]. right.
  exists x. split; [set_solver|]. unfold ready. destruct (Hn x) as (_ & -> & _). done.
Qed.

Lemma schedule_calm s qs :
  sched_pre s qs -> (forall t, rest_ok t (tk s t)) -> exists s' qs', schedule s = Some s' /\ calm s' qs'.
Proof.
  intros Hp Hr. destruct (schedule_spec s qs Hp) as (s' & qs' & E & Hok & _); [by apply no_quota_not_starved|].
  exists s', qs'. split; [done|]. split; [done|]. intros t.
  pose proof (same_schedule (fun k => (cpu_quota k, quota_done k, parent k, kill_pending k))
    ltac:(by repeat split) s s' E t) as H. exact (rest_ok_view t _ _ H (Hr t)).
Qed.

Lemma free_task_slot_ok s qs t :
  sched_ok s qs -> t <> current_task s -> state (tk s t) <> TASK_READY ->
  sched_ok (free_task_slot t s) qs.
Proof.
  intros Hok Hne Hst. unfold free_task_slot. destruct (t =? 0); [done|]. destruct (_ || _)%bool; [done|].
  destruct Hok as [[Hr Hi Hq Ha] Hv Hl].
  assert (Hnq : unqueued qs t). { intros q Hqr Hin. destruct (Hq q t) as [? _]; auto. set_solver. }
  split; change (current_task (upd _ _ _)) with (current_task s); [|done|by rewrite tk_upd_ne].
  split; auto.
  - apply (rq_ok_frame s); [done..| |done]. intros q x Hqr Hx. unfold nx.
    rewrite tk_upd_ne; [done|]. intros ->. by apply (Hnq q).
  - intros q x Hqr Hx Hn. assert (t <> x) by (intros ->; by apply (Hnq q)).
    unfold task_qidx. rewrite !tk_upd_ne by done. auto.
  - intros x Hs Hn. rewrite tk_upd. case_decide; [done|auto].
Qed.

Lemma free_task_slot_rest s t x : rest_ok x (tk s x) -> rest_ok x (tk (free_task_slot t s) x).
Proof.
  intros Hx. unfold free_task_slot. destruct (t =? 0); [done|]. destruct (_ || _)%bool; [done|].
  rewrite tk_upd. case_decide; [|done]. unfold rest_ok. splits; [done|done|by left|done].
Qed.

Lemma free_task_slot_globals s t :
  current_task (free_task_slot t s) = current_task s /\ tick_count (free_task_slot t s) = tick_count s.
Proof. unfold free_task_slot. destruct (t =? 0); [done|]. by destruct (_ || _)%bool. Qed.

Lemma wd_entry_tick_ok now e s qs :
  calm s qs -> let s' := (wd_entry_tick now e s).2 in
  calm s' qs /\ current_task s' = current_task s /\ tick_count s' = tick_count s.
Proof.
  intros Hc. unfold wd_entry_tick. destruct (active e =? 0); [done|].
  destruct (negb (wd_task e =? 0) && negb (state (tk s (wd_task e)) =? TASK_EXITED))%bool eqn:Eg; [done|].
  destruct (0 <? _); [done|]. destruct (Z.eqb_spec (wd_task e) 0) as [|Ht]; [done|]. cbn [negb].
  simpl negb in Eg. cbn [andb] in Eg. apply negb_false_iff, Z.eqb_eq in Eg.
  assert (Hf : calm (free_task_slot (wd_task e) s) qs).
  { destruct Hc as [Hok Hr]. split; [|intros; by apply free_task_slot_rest].
    apply free_task_slot_ok; [done| |by rewrite Eg]. intros E. destruct Hok as [_ _ Hl]. by rewrite <- E in Hl. }
  cbv zeta. repeat case_match; simpl; (split; [done|apply free_task_slot_globals]).
Qed.

Lemma watchdog_tick_ok wd s qs :
  calm s qs -> let s' := (watchdog_tick (wd, s)).2 in
  calm s' qs /\ current_task s' = current_task s /\ tick_count s' = tick_count s.
Proof.
  intros Hc. unfold watchdog_tick. set (wd' := wd <| wd_tick := _ |>).
  generalize (wd_tick wd') as now. intros now. destruct (wd_loop now (wd_table wd') s) as [es s'] eqn:E. simpl.
  revert s s' es Hc E. induction (wd_table wd') as [|e l IH]; intros s s' es Hc; cbn [wd_loop]; [by intros [= <- <-]|].
  pose proof (wd_entry_tick_ok now e s qs Hc) as H1. destruct (wd_entry_tick now e s) as [e1 s1]. simpl in H1.
  destruct H1 as (H1 & E1 & E1'). destruct (wd_loop now l s1) as [es2 s2] eqn:E2. intros [= <- <-].
  destruct (IH s1 s2 es2 H1 E2) as (? & ? & ?). splits; [done|congruence..].
Qed.

Lemma task_quota_period_reset_rest s t : rest_ok t (tk s t) -> rest_ok t (tk (task_quota_period_reset s) t).
Proof.
  intros Ht. unfold task_quota_period_reset. apply (foldl_inv (fun s' => rest_ok t (tk s' t))); [|done].
  intros s1 x _ H1. destruct (negb _); [|done]. rewrite !tk_upd. repeat case_decide; try done; subst;
    destruct H1 as (? & ? & ? & ?); by repeat split.
Qed.

(** ** Exiting *)

Definition rview (k : task) : Z * Z * Z * Z := (cpu_quota k, quota_done k, parent k, kill_pending k).

Lemma wake_parent_ok c s qs p :
  queues_ok [c] s qs -> p = 0 \/ slot p -> state (tk s c) = TASK_EXITED ->
  exists qs', queues_ok [c] (wake_parent p s) qs' /\ (unqueued qs c -> unqueued qs' c) /\
    current_task (wake_parent p s) = current_task s /\ state (tk (wake_parent p s) c) = state (tk s c) /\
    same rview s (wake_parent p s).
Proof.
  intros Hq Hp Hce. unfold wake_parent. destruct (negb (p =? 0) && _)%bool eqn:Eb; [|by exists qs].
  bool_prop. destruct Hp as [|Hs]; [done|].
  assert (Hne : p <> c) by (intros ->; by rewrite Hce in *).
  set (s1 := s <| p # state := TASK_READY |>). set (s2 := if tier (tk s1 p) =? _ then _ else s1).
  assert (Hu : unqueued qs p).
  { intros q Hqr Hin. destruct (qo_ready _ _ _ Hq q p) as [Hst _]; auto; [set_solver|]. rewrite Hst in *. done. }
  assert (Hq2 : queues_ok [p; c] s2 qs).
  { assert (queues_ok [p; c] s1 qs).
    { apply queues_ok_upd; [done|left; set_solver|]. eapply queues_ok_weaken; [|done]. set_solver. }
    unfold s2. destruct (_ =? _); [|done]. do 2 (apply queues_ok_upd; [done|left; set_solver|]). done. }
  assert (Hst : state (tk s2 p) = TASK_READY).
  { unfold s2. destruct (_ =? _); rewrite ?(tk_upd_proj state) by done; unfold s1; by rewrite tk_upd_eq. }
  assert (Hsame : same rview s s2).
  { intros t. unfold s2, s1. destruct (_ =? _); by rewrite !(tk_upd_proj rview). }
  eexists. splits.
  - eapply (enqueue_ok [p; c]); [exact Hq2|done|exact Hu|exact Hst|set_solver].
  - intros Hc q Hqr. unfold qset. case_decide; [|by apply Hc]. subst. rewrite elem_of_app, list_elem_of_singleton.
    intros [Hin|Hin]; [by apply (Hc _ Hqr)|congruence].
  - rewrite current_enqueue. unfold s2. by destruct (_ =? _).
  - rewrite enqueue_fields by done. unfold s2, s1. destruct (_ =? _); by rewrite !tk_upd_ne.
  - eapply same_trans; [exact Hsame|]. by apply same_enqueue.
Qed.

Lemma orphan_children_ok ex t s qs :
  queues_ok ex s qs ->
  let s' := orphan_children t s in
  queues_ok ex s' qs /\ current_task s' = current_task s /\ same state s s' /\
  (forall x, rest_ok x (tk s x) -> rest_ok x (tk s' x)).
Proof.
  intros Hq. unfold orphan_children. cbv zeta.
  apply (foldl_inv (fun s' => queues_ok ex s' qs /\ current_task s' = current_task s /\ same state s s' /\
    (forall x, rest_ok x (tk s x) -> rest_ok x (tk s' x)))); [|by auto].
  intros s1 c _ (Hq1 & E1 & Hs1 & Hr1). destruct (_ && _)%bool; [|done]. splits.
  - apply queues_ok_upd; [done|by right|done].
  - done.
  - intros x. rewrite (tk_upd_proj state) by done. apply Hs1.
  - intros x Hx. apply Hr1 in Hx. rewrite tk_upd. case_decide; [subst|done].
    destruct Hx as (? & ? & _ & ?). unfold rest_ok. splits; [done|done|by left|done].
Qed.

(** The registers and the clock are not seen by the queues. *)
Lemma queues_ok_cr3 ex s qs v : queues_ok ex s qs -> queues_ok ex (s <| cpu_cr3 := v |>) qs.
Proof. by apply queues_ok_frame. Qed.

Lemma tk_cr3 s v t : tk (s <| cpu_cr3 := v |>) t = tk s t.
Proof. done. Qed.

Section ExitOk.
Context {W : Type} `{ExitServices W} (page_directory : Z).

Lemma task_exit_calm code s qs w :
  calm s qs -> current_task s <> IDLE ->
  exists s' qs' w', task_exit page_directory code (s, w) = Some (s', w') /\ calm s' qs'.
Proof.
  intros [[Hq Hv Hl] Hr] Hidle. unfold task_exit. set (t := current_task s) in *.
  assert (Hslot : slot t) by (unfold slot, valid_task, IDLE in *; lia).
  destruct (Z.eqb_spec t 0); [unfold slot in *; lia|].
  destruct (dequeue_ok [t] t s qs Hq) as (s1 & -> & Hq1 & Heq1); [set_solver|done|]. cbn [mbind option_bind].
  set (s2 := s1 <| t # state := TASK_EXITED |> <| t # exit_code := code |>).
  destruct (close_fds 0 _ w) as [fds w2]. set (s3 := s2 <| t # fd_table := fds |>).
  assert (Hq3 : queues_ok [t] s3 (without t qs)).
  { do 3 (apply queues_ok_upd; [done|left; by left|]). done. }
  assert (Hst3 : state (tk s3 t) = TASK_EXITED).
  { unfold s3, s2. do 2 rewrite (tk_upd_proj state) by done. by rewrite tk_upd_eq. }
  assert (Hr3 : same rview s s3).
  { intros x. unfold s3, s2. rewrite !(tk_upd_proj rview) by done. by apply (eq_nonext_proj rview). }
  assert (Hp : parent (tk s3 t) = 0 \/ slot (parent (tk s3 t))).
  { specialize (Hr3 t). unfold rview in Hr3. replace (parent (tk s3 t)) with (parent (tk s t)) by congruence.
    apply (Hr t). }
  destruct (wake_parent_ok t s3 (without t qs) _ Hq3 Hp Hst3) as (qs4 & Hq4 & Hu4 & Hc4 & Hst4 & Hr4).
  set (s4 := wake_parent _ s3) in *. pose proof (without_unqueued t qs) as Hu3.
  destruct (orphan_children_ok [t] t s4 qs4 Hq4) as (Hq5 & Hc5 & Hst5 & Hr5).
  set (s5 := orphan_children t s4) in *.
  set (s6 := s5 <| t # flags := _ |> <| t # saved_tier := TIER_USER |>).
  unfold free_task_address_space. destruct (Z.eqb_spec t 0); [done|].
  set (s7 := (s6 <| cpu_cr3 := page_directory |>) <| t # pages_charged := 0 |>).
  assert (Hq7 : queues_ok [t] s7 qs4).
  { apply queues_ok_upd; [done|left; by left|]. apply queues_ok_cr3.
    do 2 (apply queues_ok_upd; [done|left; by left|]). exact Hq5. }
  assert (E7 : same (fun k => (state k, rview k)) s5 s7).
  { intros x. unfold s7. rewrite (tk_upd_proj (fun k => (state k, rview k))) by done.
    rewrite tk_cr3. unfold s6. by rewrite !(tk_upd_proj (fun k => (state k, rview k))). }
  assert (Hc7 : current_task s7 = t).
  { change (current_task s7) with (current_task s5). rewrite Hc5, Hc4.
    change (current_task s3) with (current_task s1). by destruct Heq1 as (_ & -> & _). }
  destruct (schedule_calm s7 qs4) as (s8 & qs8 & -> & Hcalm); [| |by exists s8, qs8, (teardown_frames (cpu_cr3 s6) (cr3 (tk s6 t)) w2)].
  - split; rewrite Hc7; [done|done|]. intros _. auto.
  - intros x. apply (rest_ok_view x (tk s5 x)).
    { exact (f_equal snd (E7 x)). }
    apply Hr5. apply (rest_ok_view x (tk s x)); [|apply Hr].
    exact (same_trans rview s s3 s4 Hr3 Hr4 x).
Qed.
End ExitOk.

(** ** Yielding, waiting and the timer interrupt *)

Lemma calm_upd_current s qs c f :
  calm s qs -> current_task s = c ->
  (forall k, next (f k) = next k /\ cur_queue (f k) = cur_queue k) -> (forall k, kview (f k) = kview k) ->
  calm (upd s c f) qs.
Proof.
  intros [[Hq Hv Hl] Hr] Hc Hf Hk. assert (K : kept s (upd s c f)) by (by apply kept_upd).
  split; [split|intros t; by apply (rest_ok_kept s)]; change (current_task (upd s c f)) with (current_task s).
  - apply queues_ok_upd; [done|left; subst; by left|done].
  - done.
  - by rewrite (kept_state s).
Qed.

Lemma set_level_calm s qs t level :
  calm s qs -> slot t \/ t = current_task s ->
  exists s' qs', task_set_mlfq_level t level s = Some s' /\ calm s' qs' /\ kept s s'.
Proof.
  intros [Hok Hr] Ht. destruct (task_set_mlfq_level_ok s qs t level Hok Ht) as (s' & qs' & E & Hok' & K).
  exists s', qs'. splits; auto. split; [done|]. intros x. by apply (rest_ok_kept s).
Qed.

(** The running task changes its own state and calls the scheduler. *)
Lemma resched_calm s qs c v :
  calm s qs -> current_task s = c -> v <> TASK_EXITED ->
  exists s' qs', schedule (s <| c # state := v |>) = Some s' /\ calm s' qs'.
Proof.
  intros [[Hq Hv Hl] Hr] Hc Hne. apply (schedule_calm _ qs).
  - split; change (current_task (upd s c _)) with (current_task s); rewrite Hc in *; [|done|].
    + apply queues_ok_upd; [done|left; by left|done].
    + rewrite tk_upd_eq. done.
  - intros t. rewrite tk_upd. case_decide; [subst|done]. by apply (rest_ok_view _ (tk s (current_task s))).
Qed.

Lemma yield_calm s qs : calm s qs -> exists s' qs', yield s = Some s' /\ calm s' qs'.
Proof.
  intros Hc. unfold yield. pose proof (so_cur _ _ (ca_ok _ _ Hc)) as Hv.
  destruct (Z.eqb_spec (current_task s) 0); [unfold valid_task in *; lia|]. set (c := current_task s) in *.
  destruct (tier (tk s c) =? TIER_USER); cbn [mbind option_bind]; [|by apply (resched_calm s qs)].
  set (s1 := s <| c # mlfq_cont_ticks := 0 |>).
  assert (Hc1 : calm s1 qs) by (by apply calm_upd_current).
  destruct (0 <? _); cbn [mbind option_bind]; [|by apply (resched_calm s1 qs)].
  destruct (set_level_calm s1 qs c 0 Hc1) as (s2 & qs2 & -> & Hc2 & K); [by right|].
  cbn [mbind option_bind]. apply (resched_calm s2 qs2); [done|by destruct K as (-> & _)|done].
Qed.

Lemma wait_block_calm s qs : calm s qs -> exists s' qs', wait_block s = Some s' /\ calm s' qs'.
Proof.
  intros Hc. unfold wait_block. destruct Hc as [[Hq Hv Hl] Hr]. set (c := current_task s) in *.
  destruct (dequeue_ok [c] c (s <| c # state := TASK_WAITING |>) qs) as (s1 & -> & Hq1 & Heq).
  - apply queues_ok_upd; [done|left; by left|done].
  - by left.
  - unfold valid_task in *. lia.
  - cbn [mbind option_bind]. apply (schedule_calm _ (without c qs)).
    + pose proof Heq as (_ & Ec & _). change (current_task (upd s c _)) with c in Ec.
      split; rewrite Ec; [done..|].
      rewrite (eq_nonext_proj state (s <| c # state := TASK_WAITING |>) s1) by done. by rewrite tk_upd_eq.
    + intros t. apply (rest_ok_view t (tk s t)); [|apply Hr].
      trans (rview (tk (s <| c # state := TASK_WAITING |>) t)); [by apply (eq_nonext_proj rview)|].
      by apply (tk_upd_proj rview).
Qed.

Lemma mlfq_tick_calm s qs :
  calm s qs -> exists s' qs', mlfq_tick s = Some s' /\ calm s' qs' /\ tick_count s' = tick_count s.
Proof.
  intros Hc. unfold mlfq_tick. set (c := current_task s). destruct (_ && _)%bool; [|by exists s, qs].
  set (s1 := upd s c _). assert (Hc1 : calm s1 qs) by (by apply calm_upd_current).
  destruct (_ && _)%bool; [|by exists s1, qs].
  destruct (set_level_calm s1 qs c (mlfq_level (tk s1 c) + 1) Hc1) as (s2 & qs2 & -> & Hc2 & K); [by right|].
  cbn [mbind option_bind]. eexists _, qs2. splits; [done| |by destruct K as (_ & ? & _)].
  apply calm_upd_current; [done|by destruct K as (-> & _)|done..].
Qed.

Section PitOk.
Context {W : Type} `{ExitServices W} (page_directory : Z).

Lemma pit_handler_calm wd s qs w :
  calm s qs -> exists wd' s' qs' w', pit_handler page_directory (wd, s, w) = Some (wd', s', w') /\ calm s' qs'.
Proof.
  intros Hc. unfold pit_handler. set (s0 := s <| tick_count := _ |>).
  assert (Hc0 : calm s0 qs).
  { destruct Hc as [[Hq Hv Hl] Hr]. split; [split|]; try done. by apply (queues_ok_frame _ s). }
  clearbody s0. clear Hc. set (c := current_task s0).
  destruct (negb (c =? 0) && negb (kill_pending (tk s0 c) =? 0))%bool eqn:Ek.
  - assert (Hni : c <> IDLE).
    { intros E. destruct (ca_rest _ _ Hc0 c) as (_ & _ & _ & Hk). rewrite (Hk E) in Ek. by rewrite andb_false_r in Ek. }
    assert (Hc1 : calm (s0 <| c # kill_pending := 0 |>) qs).
    { destruct Hc0 as [[Hq Hv Hl] Hr]. split; [split|]; change (current_task (upd s0 c _)) with c.
      - apply queues_ok_upd; [done|left; by left|done].
      - done.
      - by rewrite (tk_upd_proj state).
      - intros t. rewrite tk_upd. case_decide; [subst|done]. destruct (Hr c) as (? & ? & ? & _). by repeat split. }
    destruct (task_exit_calm page_directory (-9) _ qs w Hc1 Hni) as (s' & qs' & w' & -> & Hc').
    cbn [mbind option_bind]. by exists wd, s', qs', w'.
  - assert (quota_tick s0 = s0) as ->.
    { unfold quota_tick. fold c. destruct (ca_rest _ _ Hc0 c) as (-> & _). by rewrite andb_false_r. }
    destruct (mlfq_tick_calm s0 qs Hc0) as (s1 & qs1 & -> & Hc1 & E1). cbn [mbind option_bind].
    destruct (if tick_count s1 mod 50 =? 0 then _ else _) as [wd2 s2] eqn:E2.
    assert (Hc2 : calm s2 qs1).
    { pose proof (watchdog_tick_ok wd s1 qs1 Hc1) as (Hw & _).
      destruct (tick_count s1 mod 50 =? 0); [|by injection E2 as <- <-].
      by rewrite E2 in Hw. }
    assert (exists s3 qs3, (if tick_count s2 mod MLFQ_AGING_TICKS =? 0 then task_mlfq_aging s2 else Some s2) = Some s3 /\
              calm s3 qs3) as (s3 & qs3 & -> & Hc3).
    { destruct (tick_count s2 mod MLFQ_AGING_TICKS =? 0); [|by exists s2, qs1]. destruct Hc2 as [Hok Hr].
      destruct (task_mlfq_aging_ok s2 qs1 Hok) as (s3 & qs3 & -> & Hok3 & K). exists s3, qs3. split; [done|].
      split; [done|]. intros t. by apply (rest_ok_kept s2). }
    cbn [mbind option_bind]. set (s4 := if _ =? 0 then task_quota_period_reset s3 else s3).
    assert (Hc4 : calm s4 qs3).
    { unfold s4. destruct (tick_count s3 mod _ =? 0); [|done]. destruct Hc3 as [Hok Hr].
      split; [by apply task_quota_period_reset_ok|]. intros t. apply task_quota_period_reset_rest. apply Hr. }
    destruct (schedule_calm s4 qs3) as (s5 & qs5 & -> & Hc5); [apply sched_ok_pre, Hc4|apply Hc4|].
    cbn [mbind option_bind]. by exists wd2, s5, qs5, w.
Qed.
End PitOk.

(** ** Tasks outside the queues keep their links *)

Lemma nx_switch p x s y : nx (switch_to_task p x s) y = nx s y.
Proof. unfold nx. rewrite tk_switch. by case_decide; subst. Qed.

Lemma pick_idle_frame s s' qs x y :
  rq_ok s qs -> pick_or_idle s = Some (x, s') -> unqueued qs y ->
  nx s' y = nx s y /\ exists qs', rq_ok s' qs' /\ unqueued qs' y.
Proof.
  intros Hr. unfold pick_or_idle, pick_next_task. change (Z.to_nat NR_QUEUES) with 5%nat.
  destruct (pick_loop 5 0 s) as [[z s1]|] eqn:E; [|done]. cbn [mbind option_bind]. intros Es Hu.
  assert (s1 = s') as -> by congruence. split; [by apply (pick_loop_frame 5 s s' qs 0 z)|].
  pose proof (pick_loop_refines 5 s qs 0 Hr ltac:(lia) ltac:(lia)) as Hp.
  destruct (choose (ready s) qs 5 0) as [[q' [[l1 w] l2]]|] eqn:Ec; [|rewrite Hp in E; assert (s' = s) as -> by congruence; by exists qs].
  destruct Hp as (s2 & Hp & Hr' & _). assert (s2 = s') as -> by congruence.
  exists (qset qs q' (picked l1 w l2)). split; [done|]. apply unqueued_qset; [done|].
  apply choose_some in Ec as (Hrg & Eq & _). intros Hin%elem_of_picked. rewrite <- Eq in Hin.
  apply (Hu q'); [unfold queue_range; lia|done].
Qed.

Lemma pick_switch_frame p s s' qs y :
  rq_ok s qs -> ('(cand, s) ← pick_or_idle s; Some (switch_to_task p cand s)) = Some s' ->
  unqueued qs y -> nx s' y = nx s y.
Proof.
  intros Hr. destruct (pick_or_idle s) as [[x s1]|] eqn:E; [|done]. cbn [mbind option_bind].
  intros <-%(inj Some) Hu. rewrite nx_switch. by apply (pick_idle_frame s s1 qs x).
Qed.

Lemma park_frame c s qs y :
  queues_ok [c] s qs -> slot c -> unqueued qs c -> unqueued qs y -> y <> c ->
  let s1 := enqueue_task c (s <| c # state := TASK_READY |>) in
  nx s1 y = nx s y /\ exists qs1, rq_ok s1 qs1 /\ unqueued qs1 y.
Proof.
  intros Hq Hs Hc Hu Hne. cbv zeta. split.
  - rewrite (enqueue_frame _ qs); [|apply (qo_rq [c])|done|done].
    + unfold nx. by rewrite (tk_upd_proj next).
    + apply queues_ok_upd; [done|left; by left|done].
  - eexists. split; [by apply (park_ok c s qs)|]. apply unqueued_qset; [done|].
    rewrite elem_of_app, list_elem_of_singleton. intros [Hin|]; [|done].
    by apply (Hu (task_qidx s c) (task_qidx_range s c)).
Qed.

Lemma expired_frame prev s s' qs q0 y :
  queues_ok [prev] s qs -> slot prev -> unqueued qs prev -> unqueued qs y -> y <> prev ->
  queue_range q0 -> schedule_expired prev q0 s = Some s' -> nx s' y = nx s y.
Proof.
  intros Hq Hs Hc Hu Hne Hq0. unfold schedule_expired.
  destruct (park_frame prev s qs y Hq Hs Hc Hu Hne) as (E1 & qs1 & Hr1 & Hu1). set (s1 := enqueue_task _ _) in *.
  destruct (pick_or_idle s1) as [[x s2]|] eqn:E; [|done]. cbn [mbind option_bind].
  destruct (pick_idle_frame s1 s2 qs1 x y Hr1 E Hu1) as (E2 & qs2 & Hr2 & Hu2). rewrite <- E1, <- E2.
  destruct (x =? prev); [|intros <-%(inj Some); apply nx_switch]. unfold pick_next_lower.
  destruct (pick_loop _ _ s2) as [[l s3]|] eqn:E3; [|done]. cbn [mbind option_bind]. unfold NR_QUEUES, queue_range in *.
  assert (Hn : Z.of_nat (Z.to_nat (5 - (q0 + 1))) = 4 - q0) by lia.
  rewrite <- (pick_loop_frame (Z.to_nat (5 - (q0 + 1))) s2 s3 qs2 (q0 + 1) l y Hr2 ltac:(lia) ltac:(lia) E3 Hu2).
  destruct (negb _); intros <-%(inj Some).
  - rewrite nx_switch. pose proof (pick_loop_refines (Z.to_nat (5 - (q0 + 1))) s2 qs2 (q0 + 1) Hr2 ltac:(lia) ltac:(lia)) as Hp.
    destruct (choose _ _ _ _) as [[q' [[l1 w] l2]]|] eqn:Ec.
    + destruct Hp as (s4 & Hp & Hr' & _). assert (s4 = s3) as -> by congruence.
      apply (enqueue_frame _ _ _ _ Hr'); [done|]. apply unqueued_qset; [done|].
      apply choose_some in Ec as (Hrg & Eq & _). intros Hin%elem_of_picked. rewrite <- Eq in Hin.
      apply (Hu2 q'); [unfold queue_range; lia|done].
    + assert (s3 = s2) as -> by congruence. by apply (enqueue_frame s2 qs2).
  - unfold set_task_timeslice, nx. by rewrite (tk_upd_proj next).
Qed.

Lemma schedule_frame s s' qs y :
  sched_pre s qs -> schedule s = Some s' -> unqueued qs y -> y <> current_task s -> nx s' y = nx s y.
Proof.
  intros [Hq Hv He] E Hu Hne. revert E. unfold schedule. set (prev := current_task s) in *.
  destruct (Z.eqb_spec prev 0); [unfold valid_task in *; lia|].
  destruct (Z.eqb_spec prev IDLE) as [Hid|Hid].
  { unfold pick_next_task. change (Z.to_nat NR_QUEUES) with 5%nat.
    destruct (pick_loop 5 0 s) as [[c s1]|] eqn:E1; [|done]. cbn [mbind option_bind].
    destruct (c =? 0); intros <-%(inj Some); rewrite ?nx_switch; (apply (pick_loop_frame 5 s s1 qs 0 c y); [apply Hq|lia|lia|done|done]). }
  assert (Hs : slot prev) by (unfold slot, valid_task, IDLE in *; lia).
  destruct (Z.eqb_spec (state (tk s prev)) TASK_EXITED) as [Hst|].
  { intros E. by apply (pick_switch_frame prev s s' qs); [apply Hq|..]. }
  destruct (dequeue_ok [prev] prev s qs Hq) as (s1 & E1 & Hq1 & Heq); [by left|done|].
  assert (Hu1 : unqueued (without prev qs) y).
  { intros q Hqr Hin. apply list_elem_of_filter in Hin as [_ Hin]. by apply (Hu q). }
  rewrite <- (dequeue_frame s s1 qs prev y); [|apply Hq|done|done|done].
  destruct (Z.eqb_spec (state (tk s prev)) TASK_WAITING) as [Hst|].
  { rewrite E1. cbn [mbind option_bind]. intros E. by apply (pick_switch_frame prev s1 s' (without prev qs)); [apply Hq1|..]. }
  unfold schedule_running. rewrite E1. cbn [mbind option_bind].
  set (s2 := if 0 <? timeslice (tk s1 prev) then _ else s1).
  assert (Hq2 : queues_ok [prev] s2 (without prev qs)).
  { unfold s2. destruct (_ <? _); [|done]. apply queues_ok_upd; [done|left; by left|done]. }
  assert (E2 : nx s2 y = nx s1 y).
  { unfold s2. destruct (_ <? _); [|done]. unfold nx. by rewrite (tk_upd_proj next). }
  rewrite <- E2. destruct (peek_next_task s2) as [c|]; [|done]. cbn [mbind option_bind].
  destruct (_ && _)%bool.
  - destruct (park_frame prev s2 _ y Hq2 Hs (without_unqueued prev qs) Hu1 Hne) as (E3 & qs3 & Hr3 & Hu3).
    intros E. rewrite <- E3. by apply (pick_switch_frame prev _ s' qs3).
  - destruct (_ <=? 0); [|by intros <-%(inj Some)]. intros E.
    eapply expired_frame; [exact Hq2|done|apply without_unqueued|done|done| |exact E]. apply task_qidx_range.
Qed.

(** A task that put itself to sleep, already out of the queues, calls the scheduler: nothing
    outside the queues changes but the task that starts to run. *)
Lemma schedule_block s qs :
  let me := current_task s in
  sched_pre s qs -> slot me -> state (tk s me) = TASK_WAITING -> unqueued qs me ->
  exists s' qs', schedule s = Some s' /\ sched_ok s' qs' /\
    forall t, slot t -> unqueued qs t ->
      current_task s' <> t /\ nx s' t = nx s t /\ state (tk s' t) = state (tk s t).
Proof.
  intros me [Hq Hv He] Hs Hst Hu. unfold schedule. fold me in Hq |- *.
  assert (me <> 0 /\ me <> IDLE) as [H0 Hi] by (unfold slot, IDLE in *; lia).
  destruct (Z.eqb_spec me 0); [done|]. destruct (Z.eqb_spec me IDLE); [done|]. rewrite Hst.
  cbn [Z.eqb TASK_WAITING TASK_EXITED Pos.eqb]. rewrite (dequeue_absent s qs me (qo_rq _ _ _ Hq) H0 Hu).
  cbn [mbind option_bind].
  assert (Hq0 : queues_ok [] s qs) by (apply queues_ok_unexempt with me; auto; by rewrite Hst).
  destruct (pick_idle_ok me s qs Hq0) as (x & s1 & qs1 & E & Hq1 & Hvx & Heq & _ & Hout).
  rewrite E. cbn [mbind option_bind]. eexists _, qs1. splits; [done|by apply switch_ok|].
  intros t Ht Hut. change (current_task (switch_to_task me x s1)) with x.
  assert (Hxt : x <> t).
  { intros ->. destruct Hout as (q & l1 & l2 & Ho); [unfold slot, IDLE in *; lia|].
    destruct Ho as [Hrg Es _ _ _ _ _]. apply (Hut q); [unfold queue_range; lia|]. rewrite Es. clear. set_solver. }
  destruct (pick_idle_frame s s1 qs x t (qo_rq _ _ _ Hq) E Hut) as (En & _). splits; [done| |].
  - by rewrite nx_switch.
  - rewrite tk_switch, decide_False by done. by apply (eq_nonext_proj state).
Qed.
