(* ===== verification/SchedFrame.v ===== *)
(** * What scheduling leaves alone

    The scheduler starts only tasks that were queued, it changes the state of nobody but the
    task that stops and the task that starts, and a timer interrupt does not touch a sleeping
    task: its state and the link it lends to a wait queue stay. *)

From S2P Require Import Prelude LList Task TaskInv Watchdog Sched SchedSpec SchedSteps.

(** ** Who runs next *)

Definition queued (qs : Z -> list Z) (t : Z) : Prop := exists q, queue_range q /\ t ∈ qs q.

Lemma queued_unqueued qs t : queued qs t -> unqueued qs t -> False.
Proof. intros (q & Hq & Ht) Hu. by apply (Hu q). Qed.

Lemma queued_without qs c t : queued (without c qs) t -> queued qs t.
Proof. intros (q & Hq & [_ Ht]%list_elem_of_filter). by exists q. Qed.

(** A pick returns a queued task and changes links only. *)
Lemma pick_loop_out n q s s' qs x :
  rq_ok s qs -> 0 <= q -> q + Z.of_nat n <= 5 -> pick_loop n q s = Some (x, s') ->
  (x = 0 \/ queued qs x) /\ eq_nonext s s' /\ exists qs', rq_ok s' qs' /\ forall y, queued qs' y -> queued qs y.
Proof.
  intros Hr H0 H5 E. pose proof (pick_loop_refines n s qs q Hr H0 H5) as Hp.
  destruct (choose (ready s) qs n q) as [[q' [[l1 z] l2]]|] eqn:Ec.
  - destruct Hp as (s1 & Hp & Hr1 & Heq). rewrite Hp in E. injection E as -> ->.
    apply choose_some in Ec as (Hrg & Eq & _). assert (Hq' : queue_range q') by (unfold queue_range; lia).
    splits; [|done|].
    + right. exists q'. split; [done|]. rewrite Eq. set_solver.
    + exists (qset qs q' (picked l1 x l2)). split; [done|]. intros y (p & Hpr & Hy). revert Hy. unfold qset.
      case_decide as Hd; intros Hy; [|by exists p]. subst p. exists q'. split; [done|].
      apply elem_of_picked in Hy. by rewrite Eq.
  - rewrite Hp in E. injection E as <- <-. splits; [by left|done|]. by exists qs.
Qed.

Lemma pick_idle_out s s' qs x :
  rq_ok s qs -> pick_or_idle s = Some (x, s') ->
  (x = IDLE \/ queued qs x) /\ eq_nonext s s' /\ exists qs', rq_ok s' qs' /\ forall y, queued qs' y -> queued qs y.
Proof.
  intros Hr. unfold pick_or_idle, pick_next_task. change (Z.to_nat NR_QUEUES) with 5%nat.
  destruct (pick_loop 5 0 s) as [[z s1]|] eqn:E; [|done]. cbn [mbind option_bind]. intros [= <- <-].
  destruct (pick_loop_out 5 0 s s1 qs z Hr ltac:(lia) ltac:(lia) E) as ([->|Hz] & H); split; try done; [by left|].
  destruct (Z.eqb_spec z 0); auto.
Qed.

(** ** The effect of [schedule] on states *)

(** [s'] runs a task that ran, or that was queued in [qs], or the idle task; the states of the
    tasks other than that one and [prev] are those of [s]. *)
Record switched (prev : Z) (qs : Z -> list Z) (s s' : sched) : Prop := {
  sw_cur : current_task s' = prev \/ current_task s' = IDLE \/ queued qs (current_task s');
  sw_state t : t <> current_task s' -> t <> prev -> state (tk s' t) = state (tk s t);
}.

Lemma state_switch p x s t : t <> x -> state (tk (switch_to_task p x s) t) = state (tk s t).
Proof. intros. by rewrite tk_switch, decide_False. Qed.

Lemma pick_switch_out p s s' qs :
  rq_ok s qs -> ('(cand, s) ← pick_or_idle s; Some (switch_to_task p cand s)) = Some s' ->
  (current_task s' = IDLE \/ queued qs (current_task s')) /\
  (forall t, t <> current_task s' -> state (tk s' t) = state (tk s t)) /\
  state (tk s' (current_task s')) = TASK_RUNNING.
Proof.
  intros Hr. destruct (pick_or_idle s) as [[x s1]|] eqn:E; [|done]. cbn [mbind option_bind]. intros <-%(inj Some).
  change (current_task (switch_to_task p x s1)) with x.
  destruct (pick_idle_out s s1 qs x Hr E) as (Hx & Heq & _). splits; [done| |by rewrite tk_switch, decide_True].
  intros t Ht. rewrite state_switch by done. by apply (eq_nonext_proj state).
Qed.

(** The running task is put back into its queue. *)
Lemma park_out c s qs :
  queues_ok [c] s qs -> slot c -> unqueued qs c ->
  let s1 := enqueue_task c (s <| c # state := TASK_READY |>) in
  (exists qs1, rq_ok s1 qs1 /\ forall y, queued qs1 y -> y = c \/ queued qs y) /\
  (forall t, state (tk s1 t) = if decide (c = t) then TASK_READY else state (tk s t)).
Proof.
  intros Hq Hs Hu s1. split.
  - eexists. split; [by apply (park_ok c s qs)|]. intros y (p & Hp & Hy). revert Hy. unfold qset.
    case_decide; [|intros Hy; right; by exists p]. rewrite elem_of_app, list_elem_of_singleton. intros [Hy|]; [|by left].
    right. exists (task_qidx s c). split; [apply task_qidx_range|done].
  - intros t. unfold s1. rewrite enqueue_fields by done. rewrite tk_upd. by case_decide.
Qed.

Lemma expired_out prev q s s' qs :
  queues_ok [prev] s qs -> slot prev -> unqueued qs prev -> queue_range q -> current_task s = prev ->
  schedule_expired prev q s = Some s' ->
  switched prev qs s s' /\ (state (tk s' prev) = TASK_READY \/ current_task s' = prev /\ state (tk s' prev) = TASK_RUNNING) /\
  (current_task s' <> prev -> state (tk s' (current_task s')) = TASK_RUNNING).
Proof.
  intros Hq Hs Hu Hqr Hc. unfold schedule_expired.
  destruct (park_out prev s qs Hq Hs Hu) as ((qs1 & Hr1 & Hin1) & Hst1). set (s1 := enqueue_task _ _) in *.
  assert (Hc1 : current_task s1 = prev) by (unfold s1; by rewrite current_enqueue).
  destruct (pick_or_idle s1) as [[x s2]|] eqn:E; [|done]. cbn [mbind option_bind].
  destruct (pick_idle_out s1 s2 qs1 x Hr1 E) as (Hx & Heq2 & qs2 & Hr2 & Hin2).
  assert (Hst2 : forall t, state (tk s2 t) = if decide (prev = t) then TASK_READY else state (tk s t)).
  { intros t. rewrite <- Hst1. by apply (eq_nonext_proj state). }
  destruct (Z.eqb_spec x prev) as [->|Hxp].
  2: { intros <-%(inj Some). change (current_task (switch_to_task prev x s2)) with x. splits; [split; change (current_task _) with x| |].
       - destruct Hx as [->|Hx]; [auto|]. destruct (Hin1 x Hx); auto.
       - intros t Ht Htp. rewrite state_switch, Hst2, decide_False by done. done.
       - left. rewrite state_switch, Hst2, decide_True by done. done.
       - by rewrite tk_switch, decide_True. }
  unfold pick_next_lower. destruct (pick_loop _ _ s2) as [[l s3]|] eqn:E3; [|done]. cbn [mbind option_bind].
  unfold NR_QUEUES, queue_range in *.
  destruct (pick_loop_out (Z.to_nat (5 - (q + 1))) (q + 1) s2 s3 qs2 l Hr2 ltac:(lia) ltac:(lia) E3) as (Hl & Heq3 & _).
  assert (Hst3 : forall t, state (tk s3 t) = if decide (prev = t) then TASK_READY else state (tk s t)).
  { intros t. rewrite <- Hst2. by apply (eq_nonext_proj state). }
  destruct (Z.eqb_spec l 0) as [->|Hl0]; cbn [negb]; intros <-%(inj Some).
  - assert (Ec : current_task (set_task_timeslice prev s3) = prev).
    { change (current_task (set_task_timeslice prev s3)) with (current_task s3).
      destruct Heq3 as (_ & -> & _), Heq2 as (_ & -> & _). done. }
    splits; [split; rewrite Ec; [by left|]| |by rewrite Ec].
    2: { left. unfold set_task_timeslice. by rewrite (tk_upd_proj state), Hst3, decide_True. }
    intros t _ Ht. unfold set_task_timeslice. rewrite tk_upd_ne by done. rewrite Hst3, decide_False by done. done.
  - destruct Hl as [|Hl]; [done|]. change (current_task (switch_to_task prev l _)) with l.
    splits; [split; change (current_task (switch_to_task prev l _)) with l| |].
    + destruct (Hin1 l (Hin2 l Hl)); auto.
    + intros t Ht Htp. rewrite state_switch, enqueue_fields, Hst3, decide_False by done. done.
    + rewrite tk_switch. case_decide; [by right|]. left. by rewrite enqueue_fields, Hst3, decide_True by done.
    + by rewrite tk_switch, decide_True.
Qed.

(** A task that sleeps or has exited stops; another one stops only to be READY. *)
Definition stopped (s : sched) (t : Z) : Prop := state (tk s t) = TASK_EXITED \/ state (tk s t) = TASK_WAITING.
#[export] Instance stopped_dec s t : Decision (stopped s t).
Proof. unfold stopped. apply _. Defined.

(** [schedule] starts a queued task, the idle task or goes on with one that can run; a task
    that is interrupted is READY afterwards. *)
Lemma schedule_out s s' qs :
  sched_pre s qs -> schedule s = Some s' ->
  let prev := current_task s in
  switched prev qs s s' /\
  (prev <> IDLE -> current_task s' = prev -> ~ stopped s prev /\ ~ stopped s' prev) /\
  (prev <> IDLE -> current_task s' <> prev ->
    state (tk s' prev) = (if decide (stopped s prev) then state (tk s prev) else TASK_READY)) /\
  (current_task s' <> prev -> state (tk s' (current_task s')) = TASK_RUNNING).
Proof.
  intros [Hq Hv He] E prev. revert E. unfold schedule. fold prev. fold prev in Hq, Hv, He.
  destruct (Z.eqb_spec prev 0); [unfold valid_task in *; lia|].
  destruct (Z.eqb_spec prev IDLE) as [Hid|Hid].
  { unfold pick_next_task. change (Z.to_nat NR_QUEUES) with 5%nat.
    destruct (pick_loop 5 0 s) as [[c s1]|] eqn:E1; [|done]. cbn [mbind option_bind].
    destruct (pick_loop_out 5 0 s s1 qs c (qo_rq _ _ _ Hq) ltac:(lia) ltac:(lia) E1) as (Hx & Heq & _).
    assert (Hst : forall t, state (tk s1 t) = state (tk s t)) by (intros t; by apply (eq_nonext_proj state)).
    destruct (Z.eqb_spec c 0) as [|Hc]; intros <-%(inj Some); splits; try done.
    - split; [left; by destruct Heq as (_ & -> & _)|done].
    - by destruct Heq as (_ & -> & _).
    - split; change (current_task (switch_to_task prev c s1)) with c; [destruct Hx; auto; done|].
      intros t Ht _. by rewrite state_switch.
    - intros _. change (current_task (switch_to_task prev c s1)) with c. by rewrite tk_switch, decide_True. }
  assert (Hs : slot prev) by (unfold slot, valid_task, IDLE in *; lia).
  destruct (Z.eqb_spec (state (tk s prev)) TASK_EXITED) as [Hst|Hne].
  { intros (Hc & Ht & Hr)%(pick_switch_out prev s s' qs); [|apply Hq].
    assert (Hcp : current_task s' <> prev).
    { intros Ec. rewrite Ec in Hc. destruct Hc as [|Hc]; [done|]. eapply queued_unqueued; [done|]. by apply He. }
    splits; [split; [by right|auto]|done| |auto]. intros _ _. rewrite decide_True by (by left). auto. }
  destruct (dequeue_ok [prev] prev s qs Hq) as (s1 & E1 & Hq1 & Heq); [by left|done|].
  assert (Hst1 : forall t, state (tk s1 t) = state (tk s t)) by (intros t; by apply (eq_nonext_proj state)).
  assert (Hu : unqueued (without prev qs) prev) by apply without_unqueued.
  destruct (Z.eqb_spec (state (tk s prev)) TASK_WAITING) as [Hst|Hnw].
  { rewrite E1. cbn [mbind option_bind]. intros (Hc & Ht & Hr)%(pick_switch_out prev s1 s' (without prev qs)); [|apply Hq1].
    assert (Hcp : current_task s' <> prev).
    { intros Ec. rewrite Ec in Hc. destruct Hc as [|Hc]; [done|]. by eapply queued_unqueued. }
    splits; [split; [right; destruct Hc; [by left|right; by eapply queued_without]|intros t ? _; by rewrite Ht]|done| |auto].
    intros _ _. rewrite decide_True by (by right). rewrite Ht by auto. done. }
  assert (Hns : ~ stopped s prev) by (unfold stopped; tauto).
  unfold schedule_running. rewrite E1. cbn [mbind option_bind].
  set (s2 := if 0 <? timeslice (tk s1 prev) then _ else s1).
  assert (Hq2 : queues_ok [prev] s2 (without prev qs)).
  { unfold s2. destruct (_ <? _); [|done]. apply queues_ok_upd; [done|left; by left|done]. }
  assert (Hst2 : forall t, state (tk s2 t) = state (tk s t)).
  { intros t. rewrite <- Hst1. unfold s2. destruct (_ <? _); [|done]. by rewrite (tk_upd_proj state). }
  assert (Hc2 : current_task s2 = prev).
  { transitivity (current_task s1); [unfold s2; by destruct (_ <? _)|]. by destruct Heq as (_ & -> & _). }
  destruct (peek_next_task s2) as [c|]; [|done]. cbn [mbind option_bind]. destruct (_ && _)%bool.
  - destruct (park_out prev s2 _ Hq2 Hs Hu) as ((qs3 & Hr3 & Hin3) & Hst3).
    intros (Hc & Ht & Hr)%(pick_switch_out prev _ s' qs3); [|done]. splits; [split| | |auto].
    + destruct Hc as [|Hc]; [auto|]. destruct (Hin3 _ Hc); [auto|]. right. right. by eapply queued_without.
    + intros t Hn Hp. rewrite Ht, Hst3, decide_False by auto. done.
    + intros _ Hp. split; [done|]. unfold stopped. rewrite <- Hp, Hr. by intros [|].
    + intros _ Hp. rewrite decide_False, Ht, Hst3, decide_True by auto. done.
  - destruct (_ <=? 0).
    + intros E. destruct (expired_out prev _ s2 s' _ Hq2 Hs Hu (task_qidx_range s1 prev) Hc2 E) as ([Hc Ht] & Hp & Hr).
      splits; [split| | |auto].
      * destruct Hc as [|[|Hc]]; [auto..|]. right. right. by eapply queued_without.
      * intros t ? ?. by rewrite Ht.
      * intros _ _. split; [done|]. unfold stopped. destruct Hp as [-> | [_ ->]]; by intros [|].
      * intros _ Hd. rewrite decide_False by done. by destruct Hp as [|[? _]].
    + intros <-%(inj Some). rewrite Hc2. splits; [split; [by left|intros; apply Hst2]| |done|done].
      intros _ _. unfold stopped in *. by rewrite Hst2.
Qed.

(** ** Sleeping tasks *)

Definition asleep (s : sched) (t : Z) : Prop := slot t /\ state (tk s t) = TASK_WAITING /\ t <> current_task s.

Lemma asleep_unqueued s qs t : sched_ok s qs -> asleep s t -> unqueued qs t.
Proof.
  intros [Hq _ _] (_ & Hst & Hne) q Hqr Hin. destruct (qo_ready _ _ _ Hq q t) as [H _]; auto; [set_solver|]. by rewrite Hst in H.
Qed.

(** What a mutex and its users see of a task. *)
Definition tview (k : task) : Z * Z * (Z * Z * Z) * Z :=
  (state k, in_use k, (tier k, flags k, saved_tier k), kill_pending k).

(** A change that keeps the running task, the tasks that have not exited and the links of
    the sleeping ones; slots of exited tasks may be cleared. *)
Record quiet (s s' : sched) : Prop := {
  qt_cur : current_task s' = current_task s;
  qt_view t : tview (tk s' t) = tview (tk s t) \/
    (state (tk s t) = TASK_EXITED /\ tview (tk s' t) = tview zero_task);
  qt_link t : asleep s t -> nx s' t = nx s t;
}.

Lemma quiet_refl s : quiet s s.
Proof. split; auto. Qed.

Lemma quiet_live s s' t : quiet s s' -> state (tk s t) <> TASK_EXITED -> tview (tk s' t) = tview (tk s t).
Proof. intros [_ Hv _] Ht. by destruct (Hv t) as [|[? _]]. Qed.

Lemma quiet_asleep s s' t : quiet s s' -> asleep s t -> asleep s' t.
Proof.
  intros Hqt (Hs & Hst & Hc). pose proof (quiet_live s s' t Hqt) as Hv. rewrite Hst in Hv.
  specialize (Hv ltac:(done)). injection Hv as Est _ _ _ _ _. split; [done|]. rewrite (qt_cur _ _ Hqt), Est. done.
Qed.

Lemma quiet_trans s1 s2 s3 : quiet s1 s2 -> quiet s2 s3 -> quiet s1 s3.
Proof.
  intros H12 H23. split.
  - by rewrite (qt_cur _ _ H23), (qt_cur _ _ H12).
  - intros t. destruct (qt_view _ _ H12 t) as [E|[Hx E]], (qt_view _ _ H23 t) as [E'|[Hx' E']]; rewrite E'; auto.
    right. split; [|done]. injection E as <- _ _ _ _ _. done.
  - intros t Ht. rewrite (qt_link _ _ H23) by (by eapply quiet_asleep). by apply H12.
Qed.

(** Fields that neither queues nor locks see. *)
Lemma quiet_upd s t f :
  (forall k, tview (f k) = tview k /\ next (f k) = next k) -> quiet s (upd s t f).
Proof.
  intros Hf. split; [done| |].
  - intros x. left. apply (tk_upd_proj tview). intros k. by apply Hf.
  - intros x _. apply (tk_upd_proj next). intros k. by apply Hf.
Qed.

Lemma kept_quiet s s' :
  kept s s' -> same (fun k => (tier k, flags k, saved_tier k)) s s' ->
  (forall t, asleep s t -> nx s' t = nx s t) -> quiet s s'.
Proof.
  intros (Hc & _ & Hk) Hf Hl. split; [done| |done]. intros t. left. specialize (Hk t). specialize (Hf t).
  unfold kview, tview in *. cbv beta in Hf. congruence.
Qed.

(** A level change requeues a READY task and nobody else. *)
Lemma set_level_frame s s' qs t level y :
  sched_ok s qs -> task_set_mlfq_level t level s = Some s' -> unqueued qs y ->
  y <> t \/ t = current_task s -> nx s' y = nx s y.
Proof.
  intros Hok E Hu Hne. revert E. unfold task_set_mlfq_level. destruct (Z.eqb_spec t 0); [by intros [= <-]|].
  destruct (_ =? _); [by intros [= <-]|]. set (s1 := upd s t _).
  assert (E0 : nx s1 y = nx s y) by (unfold nx, s1; by rewrite (tk_upd_proj next)).
  destruct (negb _ && _ && _)%bool eqn:Eb; [|by intros <-%(inj Some)]. bool_prop.
  assert (Hyt : y <> t) by (destruct Hne; [done|]; by subst t).
  assert (Hr1 : rq_ok s1 qs).
  { apply (rq_ok_frame s); [done..| |apply Hok]. intros q x _ _. unfold nx, s1.
    by rewrite (tk_upd_proj next), (tk_upd_proj cur_queue). }
  destruct (dequeue_refines s1 qs t Hr1) as (s2 & E2 & Hr2 & Heq); [done|].
  rewrite E2. cbn [mbind option_bind]. intros <-%(inj Some). rewrite (enqueue_frame _ (without t qs)); [|done|done|].
  - rewrite <- E0. by apply (dequeue_frame s1 s2 qs t).
  - intros q Hqr Hin. apply list_elem_of_filter in Hin as [_ Hin]. by apply (Hu q).
Qed.

Lemma set_level_same {A} (F : task -> A) s s' t level :
  sfield F -> (forall k v, F (k <| mlfq_level := v |>) = F k) -> task_set_mlfq_level t level s = Some s' -> same F s s'.
Proof.
  intros HF Hm. unfold task_set_mlfq_level. destruct (t =? 0); [by intros [= <-]|].
  destruct (_ =? _); [by intros [= <-]|]. set (s1 := upd s t _).
  assert (H1 : same F s s1) by (apply same_upd; intros; apply Hm).
  destruct (_ && _)%bool; [|by intros <-%(inj Some)]. destruct (dequeue_task t s1) as [s2|] eqn:E; [|done].
  cbn [mbind option_bind]. intros <-%(inj Some). eapply same_trans; [exact H1|].
  eapply same_trans; [by eapply same_dequeue|by apply same_enqueue].
Qed.

Lemma set_level_quiet s qs t level s' :
  sched_ok s qs -> slot t \/ t = current_task s -> (state (tk s t) <> TASK_WAITING \/ t = current_task s) ->
  task_set_mlfq_level t level s = Some s' -> quiet s s'.
Proof.
  intros Hok Ht Hw E. destruct (task_set_mlfq_level_ok s qs t level Hok Ht) as (s1 & qs1 & E1 & _ & K).
  assert (s1 = s') as -> by congruence. apply kept_quiet; [done| |].
  - by eapply set_level_same.
  - intros y Hy. eapply set_level_frame; [done..|by eapply asleep_unqueued|].
    destruct Hy as (_ & Hst & _). destruct Hw as [Hw|]; [left|by right]. congruence.
Qed.

(** ** The timer interrupt *)

Lemma mlfq_tick_quiet s qs s' : sched_ok s qs -> mlfq_tick s = Some s' -> quiet s s'.
Proof.
  intros Hok. unfold mlfq_tick. set (c := current_task s). destruct (_ && _)%bool; [|intros [= <-]; apply quiet_refl].
  set (s1 := upd s c _). assert (H1 : quiet s s1) by (by apply quiet_upd).
  assert (Hok1 : sched_ok s1 qs).
  { destruct Hok as [Hq Hv Hl]. split; change (current_task s1) with c; [|done|].
    - apply queues_ok_upd; [done|left; by left|done].
    - unfold s1. by rewrite (tk_upd_proj state). }
  destruct (_ && _)%bool; [|by intros [= <-]].
  destruct (task_set_mlfq_level c _ s1) as [s2|] eqn:E; [|done]. cbn [mbind option_bind]. intros <-%(inj Some).
  eapply quiet_trans; [exact H1|]. eapply quiet_trans; [|by apply quiet_upd].
  eapply (set_level_quiet s1 qs c); [done|by right|by right|exact E].
Qed.

Lemma free_dead_quiet s t : state (tk s t) = TASK_EXITED -> quiet s (free_task_slot t s).
Proof.
  intros Ht. unfold free_task_slot. destruct (t =? 0); [apply quiet_refl|]. destruct (_ || _)%bool; [apply quiet_refl|].
  split; [done| |].
  - intros x. rewrite tk_upd. case_decide; [subst; by right|by left].
  - intros x (_ & Hx & _). unfold nx. rewrite tk_upd_ne; [done|]. intros ->. by rewrite Ht in Hx.
Qed.

Lemma wd_entry_tick_quiet now e s : quiet s (wd_entry_tick now e s).2.
Proof.
  unfold wd_entry_tick. destruct (active e =? 0); [apply quiet_refl|].
  destruct (negb (wd_task e =? 0) && negb (state (tk s (wd_task e)) =? TASK_EXITED))%bool eqn:Eg; [apply quiet_refl|].
  destruct (0 <? _); [apply quiet_refl|]. destruct (Z.eqb_spec (wd_task e) 0) as [|Ht]; [apply quiet_refl|]. cbn [negb].
  simpl negb in Eg. cbn [andb] in Eg. apply negb_false_iff, Z.eqb_eq in Eg.
  cbv zeta. repeat case_match; simpl; by apply free_dead_quiet.
Qed.

Lemma watchdog_tick_quiet wd s : quiet s (watchdog_tick (wd, s)).2.
Proof.
  unfold watchdog_tick. set (wd' := wd <| wd_tick := _ |>).
  generalize (wd_tick wd') as now. intros now. destruct (wd_loop now (wd_table wd') s) as [es s'] eqn:E. simpl.
  revert s s' es E. induction (wd_table wd') as [|e l IH]; intros s s' es; cbn [wd_loop]; [intros [= <- <-]; apply quiet_refl|].
  pose proof (wd_entry_tick_quiet now e s) as H1. destruct (wd_entry_tick now e s) as [e1 s1].
  destruct (wd_loop now l s1) as [es2 s2] eqn:E2. intros [= <- <-]. by eapply quiet_trans; [|eapply IH].
Qed.

Lemma aging_quiet s qs s' : sched_ok s qs -> task_mlfq_aging s = Some s' -> quiet s s'.
Proof.
  intros Hok. unfold task_mlfq_aging. set (f := fun os t => _).
  enough (exists s1 qs1, foldl f (Some s) task_slots = Some s1 /\ sched_ok s1 qs1 /\ quiet s s1) as (s1 & qs1 & -> & _ & H).
  { by intros [= <-]. }
  apply (foldl_inv (fun os => exists s1 qs1, os = Some s1 /\ sched_ok s1 qs1 /\ quiet s s1)).
  - intros os t Ht%elem_of_slots (s1 & qs1 & -> & Hok1 & K1). unfold f. cbn [mbind option_bind].
    destruct (_ && _)%bool eqn:Eb; [|by exists s1, qs1]. bool_prop.
    destruct (task_set_mlfq_level_ok s1 qs1 t (mlfq_level (tk s1 t) - 1)) as (s2 & qs2 & E & Hok2 & _); auto.
    exists s2, qs2. splits; auto. eapply quiet_trans; [exact K1|]. eapply (set_level_quiet s1 qs1); [done|by left| |exact E].
    left. intros Hw. rewrite Hw in *. done.
  - exists s, qs. splits; auto. apply quiet_refl.
Qed.

Lemma quota_reset_quiet s : quiet s (task_quota_period_reset s).
Proof.
  unfold task_quota_period_reset. apply (foldl_inv (fun s' => quiet s s')); [|apply quiet_refl].
  intros s1 t _ H1. destruct (negb _); [|done]. eapply quiet_trans; [exact H1|].
  eapply quiet_trans; by apply quiet_upd.
Qed.

Section Pit.
Context {W : Type} `{ExitServices W} (page_directory : Z).

(** A timer interrupt in a task that nobody killed is a quiet change followed by a call of
    the scheduler. *)
Lemma pit_handler_quiet wd s qs w :
  calm s qs -> kill_pending (tk s (current_task s)) = 0 ->
  exists wd' s1 qs1 s', pit_handler page_directory (wd, s, w) = Some (wd', s', w) /\
    calm s1 qs1 /\ quiet s s1 /\ schedule s1 = Some s'.
Proof.
  intros Hc Hk. unfold pit_handler. set (s0 := s <| tick_count := _ |>).
  assert (Hc0 : calm s0 qs).
  { destruct Hc as [[Hq Hv Hl] Hr]. split; [split|]; try done. by apply (queues_ok_frame _ s). }
  assert (H0 : quiet s s0) by (split; auto). change (current_task s) with (current_task s0) in Hk.
  change (tk s (current_task s0)) with (tk s0 (current_task s0)) in Hk.
  clearbody s0. clear Hc. rewrite Hk, andb_false_r.
  assert (quota_tick s0 = s0) as ->.
  { unfold quota_tick. destruct (ca_rest _ _ Hc0 (current_task s0)) as (-> & _). by rewrite andb_false_r. }
  destruct (mlfq_tick_calm s0 qs Hc0) as (s1 & qs1 & E1 & Hc1 & _). rewrite E1. cbn [mbind option_bind].
  pose proof (quiet_trans _ _ _ H0 (mlfq_tick_quiet s0 qs s1 (ca_ok _ _ Hc0) E1)) as H1.
  destruct (if tick_count s1 mod 50 =? 0 then _ else _) as [wd2 s2] eqn:E2.
  assert (calm s2 qs1 /\ quiet s1 s2) as [Hc2 H2].
  { pose proof (watchdog_tick_ok wd s1 qs1 Hc1) as (Hw & _). pose proof (watchdog_tick_quiet wd s1) as Hwq.
    destruct (tick_count s1 mod 50 =? 0); [rewrite E2 in Hw, Hwq; done|injection E2 as <- <-]. split; [done|apply quiet_refl]. }
  assert (exists s3 qs3, (if tick_count s2 mod MLFQ_AGING_TICKS =? 0 then task_mlfq_aging s2 else Some s2) = Some s3 /\
            calm s3 qs3 /\ quiet s2 s3) as (s3 & qs3 & -> & Hc3 & H3).
  { destruct (tick_count s2 mod MLFQ_AGING_TICKS =? 0); [|exists s2, qs1; splits; [done..|apply quiet_refl]].
    destruct Hc2 as [Hok Hr]. destruct (task_mlfq_aging_ok s2 qs1 Hok) as (s3 & qs3 & E3 & Hok3 & K). exists s3, qs3.
    splits; [done| |by eapply aging_quiet]. split; [done|]. intros t. by apply (rest_ok_kept s2). }
  cbn [mbind option_bind]. set (s4 := if _ =? 0 then task_quota_period_reset s3 else s3).
  assert (calm s4 qs3 /\ quiet s3 s4) as [Hc4 H4].
  { unfold s4. destruct (tick_count s3 mod _ =? 0); [|split; [done|apply quiet_refl]]. destruct Hc3 as [Hok Hr].
    split; [|apply quota_reset_quiet].
    split; [by apply task_quota_period_reset_ok|]. intros t. apply task_quota_period_reset_rest. apply Hr. }
  destruct (schedule_calm s4 qs3) as (s5 & qs5 & E5 & Hc5); [apply sched_ok_pre, Hc4|apply Hc4|].
  rewrite E5. cbn [mbind option_bind]. exists wd2, s4, qs3, s5. splits; [done|done| |done].
  eapply quiet_trans; [exact H1|]. eapply quiet_trans; [exact H2|]. by eapply quiet_trans.
Qed.
End Pit.

(** Yielding is a quiet change, the state READY, and a call of the scheduler. *)
Lemma yield_quiet s qs :
  calm s qs ->
  exists s1 qs1 s', yield s = Some s' /\ calm s1 qs1 /\ quiet s s1 /\
    schedule (s1 <| (current_task s) # state := TASK_READY |>) = Some s'.
Proof.
  intros Hc. unfold yield. pose proof (so_cur _ _ (ca_ok _ _ Hc)) as Hv.
  destruct (Z.eqb_spec (current_task s) 0); [unfold valid_task in *; lia|]. set (c := current_task s) in *.
  assert (Hgo : forall s1 qs1, calm s1 qs1 -> quiet s s1 ->
    exists s1' qs1' s', schedule (s1 <| c # state := TASK_READY |>) = Some s' /\ calm s1' qs1' /\ quiet s s1' /\
      schedule (s1' <| c # state := TASK_READY |>) = Some s').
  { intros s1 qs1 Hc1 H1. destruct (resched_calm s1 qs1 c TASK_READY Hc1) as (s' & qs' & E & _); [apply H1|done|].
    by exists s1, qs1, s'. }
  destruct (tier (tk s c) =? TIER_USER); cbn [mbind option_bind]; [|by apply (Hgo s qs), quiet_refl].
  set (s1 := s <| c # mlfq_cont_ticks := 0 |>).
  assert (Hc1 : calm s1 qs) by (by apply calm_upd_current). assert (H1 : quiet s s1) by (by apply quiet_upd).
  destruct (0 <? _); cbn [mbind option_bind]; [|by apply (Hgo s1 qs)].
  destruct (set_level_calm s1 qs c 0 Hc1) as (s2 & qs2 & E2 & Hc2 & K); [by right|].
  rewrite E2. cbn [mbind option_bind]. apply (Hgo s2 qs2); [done|]. eapply quiet_trans; [exact H1|].
  eapply (set_level_quiet s1 qs c 0); [apply Hc1|by right|by right|done].
Qed.
