(* ===== verification/SchedTheorems.v ===== *)
(** * Theorems on tasks, run queues and the scheduler *)

From S2P Require Import Prelude LList Task TaskInv Watchdog Sched SchedSpec SchedSteps SchedFrame.

(** ** Executable checks of the invariants, used to validate concrete states *)
Module Check.

Fixpoint lsegb (n : Z -> Z) (p : Z) (l : list Z) : bool :=
  match l with
  | [] => p =? 0
  | x :: l' => (p =? x) && negb (x =? 0) && lsegb n (n x) l'
  end.

Definition queues : list Z := [0; 1; 2; 3; 4].

Definition rq_okb (s : sched) (qs : Z -> list Z) : bool :=
  forallb (fun q =>
    lsegb (nx s) (rd (rq_head s) q) (qs q) && (rd (rq_tail s) q =? lastp (qs q)) &&
    forallb (fun t => (cur_queue (tk s t) =? q) && (1 <=? t) && (t <=? 17)) (qs q)) queues.

Definition queues_okb (ex : list Z) (s : sched) (qs : Z -> list Z) : bool :=
  rq_okb s qs &&
  forallb (fun q => forallb (fun t => negb (t =? IDLE) &&
    (bool_decide (t ∈ ex) || ((state (tk s t) =? TASK_READY) && (task_qidx s t =? q)))) (qs q)) queues &&
  forallb (fun t => bool_decide (t ∈ ex) || (in_use (tk s t) =? 0) || negb (state (tk s t) =? TASK_READY) ||
    existsb (fun q => bool_decide (t ∈ qs q)) queues) task_slots.

Definition sched_okb (s : sched) (qs : Z -> list Z) : bool :=
  queues_okb [current_task s] s qs && (1 <=? current_task s) && (current_task s <=? 17) &&
  negb (state (tk s (current_task s)) =? TASK_EXITED).

Definition calmb (s : sched) (qs : Z -> list Z) : bool :=
  sched_okb s qs &&
  forallb (fun '(t, k) => (cpu_quota k =? 0) && (quota_done k =? 0) &&
    ((parent k =? 0) || ((1 <=? parent k) && (parent k <=? 16))) &&
    (negb (t =? IDLE) || (kill_pending k =? 0))) (map_to_list (tasks s)).

Lemma lsegb_sound n p l : lsegb n p l = true -> llist n p l.
Proof.
  revert p. induction l as [|x l IH]; intros p; simpl; intros; bool_prop; subst; [done|].
  split; [done|]. split; [done|]. by apply IH.
Qed.

Lemma forallb_at {A} (f : A -> bool) l x : forallb f l = true -> x ∈ l -> f x = true.
Proof. intros H Hx. rewrite forallb_forall in H. apply H. by apply list_elem_of_In. Qed.

Lemma elem_of_queues q : queue_range q -> q ∈ queues.
Proof. unfold queue_range, queues. intros. assert (q = 0 \/ q = 1 \/ q = 2 \/ q = 3 \/ q = 4) by lia. set_solver. Qed.

Lemma rq_okb_sound s qs : rq_okb s qs = true -> rq_ok s qs.
Proof.
  intros H. split; intros q; intros; pose proof (forallb_at _ _ q H (elem_of_queues q ltac:(done))) as Hc;
    cbv beta in Hc; bool_prop.
  - by apply lsegb_sound.
  - done.
  - pose proof (forallb_at _ _ t ltac:(eassumption) ltac:(eassumption)) as Hm. cbv beta in Hm. bool_prop.
    unfold valid_task. split; [done|lia].
Qed.

Lemma queues_okb_sound ex s qs : queues_okb ex s qs = true -> queues_ok ex s qs.
Proof.
  unfold queues_okb. intros [[Hrq Hqm]%andb_true_iff Hsl]%andb_true_iff.
  assert (Hm : forall q t, queue_range q -> t ∈ qs q -> t <> IDLE /\
    (t ∉ ex -> state (tk s t) = TASK_READY /\ task_qidx s t = q)).
  { intros q t Hq Ht. pose proof (forallb_at _ _ q Hqm (elem_of_queues q Hq)) as Hc. cbv beta in Hc.
    pose proof (forallb_at _ _ t Hc Ht) as Hd. cbv beta in Hd. bool_prop. split; [done|]. intros Hn.
    rewrite bool_decide_eq_false_2 in * by done. simpl in *. bool_prop. done. }
  split.
  - by apply rq_okb_sound.
  - intros q Hq Hin. by destruct (Hm q IDLE Hq Hin).
  - intros q t Hq Ht. by apply Hm.
  - intros t Hs Hn Hu Hst. pose proof (forallb_at _ _ t Hsl ltac:(by apply elem_of_slots)) as Hc.
    cbv beta in Hc. rewrite bool_decide_eq_false_2 in Hc by done. rewrite Hst in Hc.
    destruct (Z.eqb_spec (in_use (tk s t)) 0); [done|]. cbn [orb negb Z.eqb TASK_READY Pos.eqb] in Hc.
    apply existsb_exists in Hc as (q & Hq & Hin%bool_decide_eq_true_1). exists q. split; [|done].
    apply list_elem_of_In in Hq. unfold queues, queue_range in *. set_unfold in Hq. naive_solver lia.
Qed.

Lemma sched_okb_sound s qs : sched_okb s qs = true -> sched_ok s qs.
Proof.
  unfold sched_okb. intros H. bool_prop. split; [by apply queues_okb_sound|unfold valid_task; lia|done].
Qed.

Lemma calmb_sound s qs : calmb s qs = true -> calm s qs.
Proof.
  unfold calmb. intros H. bool_prop. split; [by apply sched_okb_sound|]. intros t. unfold tk.
  destruct (tasks s !! t) as [k|] eqn:E; [|unfold rest_ok; splits; [done|done|by left|done]]. simpl.
  apply elem_of_map_to_list in E. pose proof (forallb_at _ _ _ ltac:(eassumption) E) as Hc. cbv beta iota in Hc.
  bool_prop. unfold rest_ok, slot. splits; [done|done| |].
  - apply orb_true_iff in H3 as [H3|H3]; bool_prop; [by left|right; lia].
  - intros ->. simpl in H2. by apply Z.eqb_eq in H2.
Qed.
End Check.

(** ** Example states *)

(** A USER task of level [lvl] in state [st], in queue [q] with successor [nxt]. *)
Definition demo_task (st lvl q nxt slice done_ : Z) : task :=
  zero_task <| in_use := 1 |> <| state := st |> <| tier := TIER_USER |> <| mlfq_level := lvl |>
            <| cur_queue := q |> <| next := nxt |> <| timeslice := slice |> <| quota_done := done_ |>.

Definition demo_sched (ts : list (Z * task)) (heads tails : list (Z * Z)) : sched :=
  mk_sched (list_to_map ((IDLE, zero_task) :: ts)) (list_to_map heads) (list_to_map tails) 1 4 0 0 1.

(** Task 1 runs its last tick, tasks 2 and 3 wait in queues 2 and 3. *)
Definition demo (done2 : Z) : sched :=
  demo_sched [(1, demo_task TASK_RUNNING 0 2 0 1 0); (2, demo_task TASK_READY 0 2 0 3 done2);
              (3, demo_task TASK_READY 1 3 0 2 0)] [(2, 2); (3, 3)] [(2, 2); (3, 3)].
Definition demo_qs : Z -> list Z := qset (qset (fun _ => []) 2 [2]) 3 [3].

Lemma demo_ok d : d = 0 \/ d = 1 -> sched_ok (demo d) demo_qs.
Proof. intros [-> | ->]; by apply Check.sched_okb_sound. Qed.

Lemma demo_calm : calm (demo 0) demo_qs.
Proof. by apply Check.calmb_sound. Qed.

(** ** Run queues *)

(** Enqueueing a task that is in no queue appends it to the list of the queue of its
    tier and MLFQ level and leaves the four other lists as they are. *)
Theorem enqueue_appends s qs t :
  rq_ok s qs -> valid_task t -> unqueued qs t ->
  rq_ok (enqueue_task t s) (qset qs (task_qidx s t) (qs (task_qidx s t) ++ [t])).
Proof. apply enqueue_refines. Qed.

Lemma enqueue_appends_witness :
  rq_ok (enqueue_task 1 (demo 0)) (qset demo_qs 2 ([2] ++ [1])).
Proof.
  apply (enqueue_appends (demo 0) demo_qs 1).
  - apply (qo_rq [1]). apply (demo_ok 0). by left.
  - by unfold valid_task.
  - intros q Hq. unfold demo_qs, qset. repeat case_decide; set_solver.
Defined.

(** Dequeueing terminates whatever task it is given, takes exactly that task out of the
    queues, and changes nothing but [next] links. *)
Theorem dequeue_removes s qs t :
  rq_ok s qs -> t <> 0 ->
  exists s', dequeue_task t s = Some s' /\ rq_ok s' (without t qs) /\ eq_nonext s s'.
Proof. apply dequeue_refines. Qed.

Lemma dequeue_removes_witness :
  exists s', dequeue_task 3 (demo 0) = Some s' /\ rq_ok s' (without 3 demo_qs) /\ eq_nonext (demo 0) s'.
Proof.
  apply (dequeue_removes (demo 0) demo_qs 3); [|done]. apply (qo_rq [1]). apply (demo_ok 0). by left.
Defined.

(** C27: [pick_next_task] returns the first task with quota left of the highest-priority queue
    that has one, moves it behind the others of its queue (and out of the queue when it was
    alone); it returns NULL and changes nothing when no queued task has quota left. *)
Theorem pick_next_task_refines s qs :
  rq_ok s qs ->
  match choose (ready s) qs 5 0 with
  | Some (q, (l1, x, l2)) => exists s', pick_next_task s = Some (x, s') /\
                               rq_ok s' (qset qs q (picked l1 x l2)) /\ eq_nonext s s'
  | None => pick_next_task s = Some (0, s)
  end.
Proof. intros Hr. by apply (pick_loop_refines 5). Qed.

Lemma pick_next_task_refines_witness :
  exists s', pick_next_task (demo 1) = Some (3, s') /\ rq_ok s' (qset demo_qs 3 []) /\ eq_nonext (demo 1) s'.
Proof.
  refine (pick_next_task_refines (demo 1) demo_qs _). apply (qo_rq [1]). apply (demo_ok 1). by right.
Defined.

(** [peek_next_task] returns the task that [pick_next_task] would return. *)
Theorem peek_agrees_with_pick s qs :
  rq_ok s qs -> exists x s', peek_next_task s = Some x /\ pick_next_task s = Some (x, s').
Proof.
  intros Hr. pose proof (pick_loop_refines 5 s qs 0 Hr) as Hp.
  pose proof (peek_loop_refines 5 s qs 0 Hr) as Hk. specialize (Hp ltac:(lia) ltac:(lia)).
  specialize (Hk ltac:(lia) ltac:(lia)). unfold peek_next_task, pick_next_task.
  change (Z.to_nat NR_QUEUES) with 5%nat. rewrite Hk.
  destruct (choose _ _ _ _) as [[q [[l1 x] l2]]|]; [destruct Hp as (s' & -> & _); by exists x, s'|].
  by exists 0, s.
Qed.

Lemma peek_agrees_with_pick_witness :
  exists x s', peek_next_task (demo 1) = Some x /\ pick_next_task (demo 1) = Some (x, s').
Proof.
  apply (peek_agrees_with_pick (demo 1) demo_qs). apply (qo_rq [1]). apply (demo_ok 1). by right.
Defined.

(** ** The scheduler *)

(** C3: When the other tasks in the running task's queue are not all out of CPU quota (without
    that the claim is false, see [schedule_double_enqueue]), [schedule] terminates and loses
    no task.  It goes on with the running task, starts the idle task or starts a task that
    was queued; an interrupted task that neither sleeps nor has exited is READY and in the
    queue of its tier and level; a task that sleeps or has exited is in no queue and keeps
    its state; every other task keeps its state, and those that were queued still are; and
    the queues are well formed and hold exactly the READY tasks other than the running one. *)
Theorem schedule_keeps_ready_tasks s qs :
  sched_pre s qs -> not_starved (current_task s) s qs ->
  exists s' qs', schedule s = Some s' /\ sched_ok s' qs' /\
    let prev := current_task s in
    let cur := current_task s' in
    (cur = prev \/ cur = IDLE \/ queued qs cur) /\
    (forall t, t <> prev -> t <> cur -> state (tk s' t) = state (tk s t)) /\
    (forall t, slot t -> in_use (tk s t) <> 0 -> t <> prev -> t <> cur -> queued qs t -> queued qs' t) /\
    (slot prev -> cur <> prev ->
      if decide (stopped s prev)
      then state (tk s' prev) = state (tk s prev) /\ unqueued qs' prev
      else state (tk s' prev) = TASK_READY /\ (in_use (tk s prev) <> 0 -> prev ∈ qs' (task_qidx s' prev))).
Proof.
  intros Hp Hn. destruct (schedule_spec s qs Hp Hn) as (s' & qs' & E & Hok & _). exists s', qs'.
  destruct (schedule_out s s' qs Hp E) as ([Hc Hst] & _ & Hprev & _).
  pose proof (same_schedule in_use ltac:(by repeat split) s s' E) as Hu. pose proof Hok as [Hq _ _].
  assert (Hin : forall t, slot t -> in_use (tk s t) <> 0 -> t <> current_task s' -> state (tk s' t) = TASK_READY ->
    t ∈ qs' (task_qidx s' t)).
  { intros t Hs Hi Hne Hr. destruct (qo_all _ _ _ Hq t Hs) as (q & Hqr & Hin); [set_solver|by rewrite Hu|done|].
    destruct (qo_ready _ _ _ Hq q t) as [_ ->]; [done..|set_solver|done]. }
  splits; [done..|]. cbv zeta. splits; [done|auto| |].
  - intros t Hs Hi Hnp Hnc (q & Hqr & Hqt). exists (task_qidx s' t). split; [apply task_qidx_range|].
    apply Hin; auto. rewrite Hst by done. by apply (qo_ready _ _ _ (sp_queues _ _ Hp) q t); [..|set_solver].
  - intros Hs Hne. assert (Hni : current_task s <> IDLE) by (unfold slot, IDLE in *; lia).
    specialize (Hprev Hni Hne). case_decide as Hd; (split; [done|]); [|intros Hi; by apply Hin].
    intros q Hqr Hqt. destruct (qo_ready _ _ _ Hq q (current_task s)) as [Hr _]; [done..|set_solver|].
    rewrite Hprev in Hr. destruct Hd as [Hd|Hd]; by rewrite Hd in Hr.
Qed.

Lemma demo_not_starved : not_starved 1 (demo 0) demo_qs.
Proof. right. exists 2. split; [by left|done]. Qed.

(** The task whose slice is over goes to the tail of its queue, behind the one that starts. *)
Lemma schedule_keeps_ready_tasks_witness :
  exists s' qs', schedule (demo 0) = Some s' /\ sched_ok s' qs' /\ current_task s' = 2 /\
    state (tk s' 1) = TASK_READY /\ 1 ∈ qs' (task_qidx s' 1) /\ queued qs' 3.
Proof.
  destruct (schedule_keeps_ready_tasks (demo 0) demo_qs) as (s' & qs' & E & Hok & Hc & Hst & Hq & Hp);
    [apply sched_ok_pre, demo_ok; by left|exact demo_not_starved|].
  assert (Hcur : option_map current_task (schedule (demo 0)) = Some 2) by (vm_compute; reflexivity).
  rewrite E in Hcur. injection Hcur as Hcur. rewrite Hcur in *.
  exists s', qs'. destruct Hp as [Hr Hin]; [split; discriminate|discriminate|].
  splits; [exact E|exact Hok|exact Hcur|exact Hr|apply Hin; discriminate|].
  apply (Hq 3); [split; discriminate|discriminate|discriminate|discriminate|].
  exists 3. split; [split; [discriminate|reflexivity]|by left].
Defined.

(** C28: When the other tasks in the running task's queue are not all out of CPU quota,
    [schedule] respects quotas and priorities: a task is switched to only with quota left, the idle task runs only when no queued task has quota left, and no task with quota
    left waits in a queue of higher priority than that of the running task, except the task
    that has just used up its time slice. *)
Theorem schedule_by_priority s qs :
  sched_pre s qs -> not_starved (current_task s) s qs ->
  exists s' qs', schedule s = Some s' /\ rq_ok s' qs' /\ choice_ok (current_task s) s s' qs'.
Proof.
  intros Hp Hn. destruct (schedule_spec s qs Hp Hn) as (s' & qs' & E & Hok & Hc). exists s', qs'.
  splits; [done|apply Hok|done].
Qed.

Lemma schedule_by_priority_witness :
  exists s' qs', schedule (demo 0) = Some s' /\ rq_ok s' qs' /\ choice_ok 1 (demo 0) s' qs'.
Proof.
  apply (schedule_by_priority (demo 0) demo_qs); [|exact demo_not_starved].
  apply sched_ok_pre, demo_ok. by left.
Defined.


(** ** Sequences of kernel events *)

(** What can happen next: a timer interrupt, or a call by the running task.  The idle task
    makes no calls. *)
Inductive event := EvTick | EvYield | EvWait | EvExit (code : Z).

Section Events.
Context {W : Type} `{ExitServices W} (page_directory : Z).

(** One event, run through the code that handles it.  The idle task runs a halt loop and makes
    no system call, so that an exit can only come from another task: an exit event that
    finds the idle task running is none. *)
Definition run_event (st : wdog * sched * W) (ev : event) : option (wdog * sched * W) :=
  let '(wd, s, w) := st in
  match ev with
  | EvTick => pit_handler page_directory st
  | EvYield => s ← yield s; Some (wd, s, w)
  | EvWait => s ← wait_block s; Some (wd, s, w)
  | EvExit code =>
      if current_task s =? IDLE then Some st
      else '(s, w) ← task_exit page_directory code (s, w); Some (wd, s, w)
  end.

Definition run_events (evs : list event) (st : wdog * sched * W) : option (wdog * sched * W) :=
  foldl (fun ost ev => st ← ost; run_event st ev) (Some st) evs.

Lemma run_event_calm ev wd s w qs :
  calm s qs -> exists wd' s' w' qs', run_event (wd, s, w) ev = Some (wd', s', w') /\ calm s' qs'.
Proof.
  intros Hc. destruct ev as [| | |code]; cbn [run_event].
  - destruct (pit_handler_calm page_directory wd s qs w Hc) as (wd' & s' & qs' & w' & -> & ?). by exists wd', s', w', qs'.
  - destruct (yield_calm s qs Hc) as (s' & qs' & -> & ?). by exists wd, s', w, qs'.
  - destruct (wait_block_calm s qs Hc) as (s' & qs' & -> & ?). by exists wd, s', w, qs'.
  - destruct (Z.eqb_spec (current_task s) IDLE); [by exists wd, s, w, qs|].
    destruct (task_exit_calm page_directory code s qs w Hc) as (s' & qs' & w' & -> & ?); [done|].
    by exists wd, s', w', qs'.
Qed.

Lemma run_events_calm evs wd s w qs :
  calm s qs -> exists wd' s' w' qs', run_events evs (wd, s, w) = Some (wd', s', w') /\ calm s' qs'.
Proof.
  unfold run_events. intros Hc. apply (foldl_inv (fun o => exists wd' s' w' qs', o = Some (wd', s', w') /\ calm s' qs')).
  - intros o ev _ (wd' & s' & w' & qs' & -> & Hc'). by apply (run_event_calm ev _ _ _ qs').
  - by exists wd, s, w, qs.
Qed.
End Events.

#[export] Instance unit_services : ExitServices unit := {
  vfs_close _ w := w; teardown_frames _ _ w := w }.

(** C5: In a system without CPU quotas every sequence of timer interrupts, yields, waits and
    exits (of tasks other than the idle task) runs to completion (no queue walk diverges) and keeps the invariant of the
    scheduler, including aging, demotion and the watchdog's reclaiming of slots. *)
Theorem kernel_events_safe {W} `{ExitServices W} page_directory evs wd s (w : W) qs :
  calm s qs ->
  exists wd' s' w' qs', run_events page_directory evs (wd, s, w) = Some (wd', s', w') /\ sched_ok s' qs'.
Proof.
  intros Hc. destruct (run_events_calm page_directory evs wd s w qs Hc) as (wd' & s' & w' & qs' & E & [Hok _]).
  by exists wd', s', w', qs'.
Qed.

Lemma kernel_events_safe_witness :
  exists wd' s' w' qs', run_events 0 [EvTick; EvYield; EvWait; EvExit 7; EvTick] (mk_wdog [] 0, demo 0, tt) =
    Some (wd', s', w') /\ sched_ok s' qs'.
Proof. apply (kernel_events_safe 0 _ (mk_wdog [] 0) (demo 0) tt demo_qs), demo_calm. Defined.

(** ** Quotas, levels and time slices *)

Lemma quota_tick_step s c :
  current_task s = c -> c <> 0 -> 0 < cpu_quota (tk s c) <= 100 ->
  0 <= quota_used_ticks (tk s c) < 2 ^ 32 - 1 ->
  let s' := quota_tick s in
  current_task s' = c /\ cpu_quota (tk s' c) = cpu_quota (tk s c) /\
  quota_used_ticks (tk s' c) = quota_used_ticks (tk s c) + 1 /\
  quota_done (tk s' c) = if 10 * cpu_quota (tk s c) <=? quota_used_ticks (tk s c) + 1 then 1 else quota_done (tk s c).
Proof.
  intros Hc Hne Hq Hu. unfold quota_tick. rewrite Hc. destruct (Z.eqb_spec c 0); [done|].
  replace (0 <? cpu_quota (tk s c)) with true by (symmetry; apply Z.ltb_lt; lia). cbn [negb andb].
  replace ((QUOTA_PERIOD_TICKS *w cpu_quota (tk s c)) / 100) with (10 * cpu_quota (tk s c)).
  2: { unfold QUOTA_PERIOD_TICKS. rewrite wrap32_small by lia.
       replace (1000 * cpu_quota (tk s c)) with (10 * cpu_quota (tk s c) * 100) by lia. by rewrite Z.div_mul. }
  replace (10 * cpu_quota (tk s c) =? 0) with false by (symmetry; apply Z.eqb_neq; lia).
  cbv zeta. rewrite !tk_upd_eq. cbn [set_field quota_used_ticks]. rewrite wrap32_small by lia.
  destruct (_ <=? _); rewrite !tk_upd_eq; done.
Qed.

(** A task with a CPU quota of [p] percent is marked as out of quota exactly at the tick
    in which its use of the current period reaches 10 * p of the 1000 ticks. *)
Theorem quota_enforced s c (n : nat) :
  current_task s = c -> c <> 0 -> 0 < cpu_quota (tk s c) <= 100 -> Z.of_nat n <= 1000 ->
  quota_used_ticks (tk s c) = 0 -> quota_done (tk s c) = 0 ->
  let s' := Nat.iter n quota_tick s in
  quota_used_ticks (tk s' c) = Z.of_nat n /\
  quota_done (tk s' c) = if 10 * cpu_quota (tk s c) <=? Z.of_nat n then 1 else 0.
Proof.
  intros Hc Hne Hq Hn Hu Hd.
  enough (Hall : current_task (Nat.iter n quota_tick s) = c /\
    cpu_quota (tk (Nat.iter n quota_tick s) c) = cpu_quota (tk s c) /\
    quota_used_ticks (tk (Nat.iter n quota_tick s) c) = Z.of_nat n /\
    quota_done (tk (Nat.iter n quota_tick s) c) = if 10 * cpu_quota (tk s c) <=? Z.of_nat n then 1 else 0)
    by (destruct Hall as (_ & _ & ? & ?); by split).
  induction n as [|n IH].
  - simpl Nat.iter. splits; auto. rewrite Hd. by destruct (Z.leb_spec (10 * cpu_quota (tk s c)) (Z.of_nat 0)); [lia|].
  - destruct IH as (Ic & Iq & Iu & Id); [lia|]. rewrite Nat.iter_succ. set (s1 := Nat.iter n quota_tick s) in *.
    destruct (quota_tick_step s1 c) as (H1 & H2 & H3 & H4); auto; [lia..|].
    rewrite H2, H3, H4, Iu, Iq, Id. splits; auto; [lia|]. rewrite Nat2Z.inj_succ.
    unfold Z.succ. destruct (Z.leb_spec (10 * cpu_quota (tk s c)) (Z.of_nat n + 1)); [done|].
    by destruct (Z.leb_spec (10 * cpu_quota (tk s c)) (Z.of_nat n)); [lia|].
Qed.

Lemma quota_enforced_witness :
  let s := (demo 0) <| 1 # cpu_quota := 5 |> in
  let s' := Nat.iter 50 quota_tick s in
  quota_used_ticks (tk s' 1) = 50 /\ quota_done (tk s' 1) = if 10 * 5 <=? 50 then 1 else 0.
Proof.
  intros s. refine (quota_enforced s 1 50 _ _ _ _ _ _); try reflexivity; try discriminate.
  split; [reflexivity|discriminate].
Defined.

Lemma mlfq_tick_count s c k :
  current_task s = c -> c <> 0 -> tier (tk s c) = TIER_USER -> quota_done (tk s c) = 0 ->
  mlfq_cont_ticks (tk s c) = k -> k < 2 ->
  mlfq_tick s = Some (s <| c # mlfq_cont_ticks := k + 1 |>).
Proof.
  intros Hc Hne Ht Hd Hk Hk2. unfold mlfq_tick. rewrite Hc, Ht, Hd, Hk. destruct (Z.eqb_spec c 0); [done|].
  cbn [negb andb Z.eqb TIER_USER Pos.eqb]. rewrite tk_upd_eq. cbn [set_field mlfq_cont_ticks].
  replace (MLFQ_DEMOTE_TICKS <=? k + 1) with false; [done|]. symmetry. apply Z.leb_gt. unfold MLFQ_DEMOTE_TICKS. lia.
Qed.

(** A USER task that keeps the CPU for three ticks drops by one MLFQ level: its level
    grows by one, its next queue is the next lower one, its next time slice is one tick
    shorter and its tick counter starts again. *)
Theorem mlfq_demotes_after_three_ticks s c :
  current_task s = c -> c <> 0 -> tier (tk s c) = TIER_USER -> quota_done (tk s c) = 0 ->
  mlfq_cont_ticks (tk s c) = 0 -> 0 <= mlfq_level (tk s c) < 2 ->
  exists s', (s1 ← mlfq_tick s; s2 ← mlfq_tick s1; mlfq_tick s2) = Some s' /\
    mlfq_level (tk s' c) = mlfq_level (tk s c) + 1 /\ mlfq_cont_ticks (tk s' c) = 0 /\
    task_qidx s' c = task_qidx s c + 1 /\ tier_timeslice (tk s' c) = tier_timeslice (tk s c) - 1.
Proof.
  intros Hc Hne Ht Hd Hk Hl. rewrite (mlfq_tick_count s c 0) by (done || lia). cbn [mbind option_bind].
  set (s1 := s <| c # mlfq_cont_ticks := 0 + 1 |>).
  rewrite (mlfq_tick_count s1 c 1) by (unfold s1; rewrite ?tk_upd_eq; done || lia). cbn [mbind option_bind].
  set (s2 := s1 <| c # mlfq_cont_ticks := 1 + 1 |>).
  assert (E2 : tk s2 c = (tk s c) <| mlfq_cont_ticks := 2 |>) by (unfold s2, s1; by rewrite !tk_upd_eq).
  assert (Ht2 : tier (tk s2 c) = TIER_USER) by (by rewrite E2).
  assert (Hd2 : quota_done (tk s2 c) = 0) by (by rewrite E2).
  unfold mlfq_tick. change (current_task s2) with (current_task s). rewrite Hc, Ht2, Hd2.
  destruct (Z.eqb_spec c 0); [done|]. cbn [negb andb Z.eqb TIER_USER Pos.eqb].
  set (s3 := s2 <| c # mlfq_cont_ticks := _ |>).
  assert (E3 : tk s3 c = (tk s c) <| mlfq_cont_ticks := 3 |>) by (unfold s3; rewrite tk_upd_eq, E2; done).
  assert (El3 : mlfq_level (tk s3 c) = mlfq_level (tk s c)) by (by rewrite E3).
  assert (Ec3 : mlfq_cont_ticks (tk s3 c) = 3) by (by rewrite E3).
  rewrite El3, Ec3.
  replace (mlfq_level (tk s c) <? 2) with true by (symmetry; apply Z.ltb_lt; lia). cbn [andb Z.leb Z.compare MLFQ_DEMOTE_TICKS Pos.compare Pos.compare_cont].
  unfold task_set_mlfq_level. destruct (Z.eqb_spec c 0); [done|]. rewrite El3.
  assert (El : clamp_level (mlfq_level (tk s c) + 1) = mlfq_level (tk s c) + 1).
  { unfold clamp_level. repeat case_match; bool_prop; lia. }
  rewrite El. replace (mlfq_level (tk s c) =? mlfq_level (tk s c) + 1) with false by (symmetry; apply Z.eqb_neq; lia).
  change (current_task (upd s3 c _)) with (current_task s). rewrite Hc, Z.eqb_refl, andb_false_r.
  cbn [mbind option_bind]. eexists; split; [done|].
  assert (El0 : clamp_level (mlfq_level (tk s c)) = mlfq_level (tk s c)).
  { unfold clamp_level. repeat case_match; bool_prop; lia. }
  unfold task_qidx, tier_timeslice. rewrite !tk_upd_eq, E3. destruct (Z.eqb_spec c 0); [done|].
  cbn [set_field mlfq_level mlfq_cont_ticks tier]. rewrite Ht. cbn. rewrite El, El0. splits; [done..|lia|lia].
Qed.

Lemma mlfq_demotes_after_three_ticks_witness :
  exists s', (s1 ← mlfq_tick (demo 0); s2 ← mlfq_tick s1; mlfq_tick s2) = Some s' /\
    mlfq_level (tk s' 1) = 0 + 1 /\ mlfq_cont_ticks (tk s' 1) = 0 /\
    task_qidx s' 1 = 2 + 1 /\ tier_timeslice (tk s' 1) = 3 - 1.
Proof.
  refine (mlfq_demotes_after_three_ticks (demo 0) 1 _ _ _ _ _ _); try reflexivity; try discriminate.
  split; [discriminate|reflexivity].
Defined.
