(* ===== verification/Locks.v ===== *)
(** * Locks (src/kernel/locks.c)

    A mutex is a value threaded with the scheduler state; its wait queue is linked through
    the [next] fields of the waiting tasks.  The arguments are not NULL (each function of the
    code returns at once otherwise).  Spin locks are modelled with the interrupt flag that
    [cli] and [sti] change. *)

From S2P Require Import Prelude LList Task TaskInv Watchdog Sched SchedSpec SchedSteps SchedFrame SchedTheorems.

(** ** Spin locks *)

Record spinlock := mk_spin { sl_locked : Z }.

Definition locks_init (l : spinlock) : spinlock := mk_spin 0.

(** The lock and the interrupt flag.  A held lock makes [spin_lock] spin for ever on this
    single-processor kernel, since interrupts are off: [None]. *)
Definition spin_lock (l : spinlock) (iflag : bool) : option (spinlock * bool) :=
  let iflag := false in
  if sl_locked l =? 0 then Some (mk_spin 1, iflag) else None.

Definition spin_unlock (l : spinlock) (iflag : bool) : spinlock * bool := (mk_spin 0, true).

Definition spin_trylock (l : spinlock) (iflag : bool) : Z * (spinlock * bool) :=
  let iflag := false in
  if negb (sl_locked l =? 0) then (0, (mk_spin 1, true)) else (1, (mk_spin 1, iflag)).

(** ** Mutexes *)

Definition LOCK_FLAG_INHERIT : Z := 0x1.

Record mutex := mk_mutex {
  locked : Z;
  holder : Z;
  waitq : Z;
  mflags : Z;
  mname : list Z;
}.

#[export] Instance eta_mutex : Eta mutex := fun m => mk_mutex
  (locked m) (holder m) (waitq m) (mflags m) (mname m).

Definition mutex_init (name : list Z) (flags : Z) (m : mutex) : mutex := mk_mutex 0 0 0 flags name.

(** Priority inheritance: raise the holder to the tier of the waiter [me]. *)
Definition inherit (m : mutex) (me : Z) (s : sched) : option sched :=
  let h := holder m in
  if tst (mflags m) LOCK_FLAG_INHERIT && negb (h =? 0) && (tier (tk s me) <? tier (tk s h)) then
    let s := if negb (tst (flags (tk s h)) TASK_INHERITED)
             then s <| h # saved_tier := tier (tk s h) |> else s in
    s ← task_set_tier h (tier (tk s me)) s;
    Some (s <| h # flags := Z.lor (flags (tk s h)) TASK_INHERITED |>)
  else Some s.

(** One round of the loop of [mutex_lock]: [true] when it returns with the lock, [false] when
    the caller went to sleep and will run the next round after it is woken. *)
Definition mutex_lock_round (m : mutex) (s : sched) : option (bool * mutex * sched) :=
  let me := current_task s in
  if me =? 0 then Some (true, m, s)
  else if locked m =? 0 then Some (true, m <| locked := 1 |> <| holder := me |>, s)
  else
    s ← inherit m me s;
    s ← dequeue_task me s;
    let s := s <| me # state := TASK_WAITING |> in
    let s := s <| me # next := waitq m |> in
    let m := m <| waitq := me |> in
    s ← schedule s;
    Some (false, m, s).

Definition mutex_trylock (m : mutex) (s : sched) : Z * mutex :=
  if negb (locked m =? 0) then (0, m)
  else (1, m <| locked := 1 |> <| holder := current_task s |>).

(** The holder gets its own tier back. *)
Definition restore_tier (h : Z) (s : sched) : option sched :=
  if negb (h =? 0) && tst (flags (tk s h)) TASK_INHERITED then
    let s := s <| h # flags := Z.ldiff (flags (tk s h)) TASK_INHERITED |> in
    s ← task_set_tier h (saved_tier (tk s h)) s;
    Some (s <| h # saved_tier := TIER_USER |>)
  else Some s.

Definition mutex_unlock (m : mutex) (s : sched) : option (mutex * sched) :=
  s ← restore_tier (holder m) s;
  let m := m <| locked := 0 |> <| holder := 0 |> in
  let w := waitq m in
  if negb (w =? 0) then
    let m := m <| waitq := next (tk s w) |> in
    let s := s <| w # next := 0 |> in
    let s := s <| w # state := TASK_READY |> in
    Some (m, enqueue_task w s)
  else Some (m, s).

(** ** Priority inheritance *)

(** The tier a task has when nobody lends it one. *)
Definition base_tier (s : sched) (t : Z) : Z :=
  if tst (flags (tk s t)) TASK_INHERITED then saved_tier (tk s t) else tier (tk s t).

(** [task_set_tier] sets the tier and only moves the task between queues. *)
Lemma task_set_tier_fields {A} (F : task -> A) s s' t tr :
  (forall k v, F (k <| next := v |>) = F k) -> (forall k v, F (k <| cur_queue := v |>) = F k) ->
  t <> 0 -> task_set_tier t tr s = Some s' ->
  forall x, F (tk s' x) = F (if decide (t = x) then (tk s x) <| tier := tr |> else tk s x).
Proof.
  intros Hn Hc Ht. unfold task_set_tier. destruct (Z.eqb_spec t 0); [done|].
  assert (Hu : forall s0 x, F (tk (s0 <| t # tier := tr |>) x) =
    F (if decide (t = x) then (tk s0 x) <| tier := tr |> else tk s0 x)).
  { intros s0 x. rewrite tk_upd. case_decide; subst; done. }
  destruct (_ && _)%bool; [|intros [= <-]; apply Hu].
  destruct (dequeue_task t s) as [s1|] eqn:E; [|done]. cbn [mbind option_bind]. intros [= <-] x.
  rewrite enqueue_fields by done. rewrite Hu.
  destruct (decide (t = x)) as [->|].
  - apply (same_dequeue_next (fun k => F (k <| tier := tr |>)) s s1 x); [|done].
    intros k v. exact (Hn (k <| tier := tr |>) v).
  - by apply (same_dequeue_next F s s1 t).
Qed.

Lemma inherited_set f : tst (Z.lor f TASK_INHERITED) TASK_INHERITED = true.
Proof.
  unfold tst, TASK_INHERITED. apply negb_true_iff, Z.eqb_neq. intros H.
  apply (f_equal (fun x => Z.testbit x 0)) in H. rewrite Z.land_spec, Z.lor_spec in H.
  by rewrite orb_true_r in H.
Qed.

Lemma inherited_clear f : tst (Z.ldiff f TASK_INHERITED) TASK_INHERITED = false.
Proof.
  unfold tst, TASK_INHERITED. apply negb_false_iff, Z.eqb_eq. apply Z.bits_inj'. intros i Hi.
  rewrite Z.land_spec, Z.ldiff_spec, Z.bits_0. by destruct (Z.testbit f i), (Z.testbit 1 i).
Qed.

Lemma sched_ok_upd s qs t f :
  (forall k, next (f k) = next k /\ cur_queue (f k) = cur_queue k) -> (forall k, qview (f k) = qview k) ->
  sched_ok s qs -> sched_ok (upd s t f) qs.
Proof.
  intros Hf Hv [Hq Hc Hl]. split; change (current_task (upd s t f)) with (current_task s); [|done|].
  - apply queues_ok_upd; [done|by right|done].
  - rewrite tk_upd. case_decide; [subst|done]. specialize (Hv (tk s (current_task s))). unfold qview in Hv. congruence.
Qed.

Lemma inherit_spec m me s qs :
  sched_ok s qs -> holder m <> me -> slot (holder m) \/ holder m = 0 ->
  exists s' qs', inherit m me s = Some s' /\ sched_ok s' qs' /\ current_task s' = current_task s /\
    (forall t, base_tier s' t = base_tier s t).
Proof.
  intros Hok Hne Hh. unfold inherit. set (h := holder m) in *.
  destruct (_ && _)%bool eqn:Eb; [|by exists s, qs]. bool_prop.
  destruct Hh as [Hs|]; [|done].
  set (s1 := if negb _ then _ else s).
  assert (Hok1 : sched_ok s1 qs) by (unfold s1; destruct (negb _); [by apply sched_ok_upd|done]).
  destruct (task_set_tier_ok s1 qs h (tier (tk s1 me)) Hok1) as (s2 & qs2 & E2 & Hok2 & K2); [by left|].
  rewrite E2. cbn [mbind option_bind]. eexists _, qs2. split; [done|]. splits.
  - by apply sched_ok_upd.
  - destruct K2 as (E & _). transitivity (current_task s1); [done|]. unfold s1. by destruct (negb _).
  - intros t. unfold base_tier. rewrite tk_upd.
    assert (Hb : forall x, (flags (tk s2 x), saved_tier (tk s2 x)) = (flags (tk s1 x), saved_tier (tk s1 x))).
    { intros x. rewrite (task_set_tier_fields (fun k => (flags k, saved_tier k)) s1 s2 h _ ltac:(done) ltac:(done) ltac:(done) E2 x).
      by case_decide. }
    case_decide as Ht.
    + subst t. cbn [set_field flags saved_tier]. rewrite inherited_set.
      specialize (Hb h). injection Hb as _ ->. unfold s1.
      destruct (tst (flags (tk s h)) TASK_INHERITED); cbn [negb]; [done|]. by rewrite tk_upd_eq.
    + specialize (Hb t). injection Hb as -> ->.
      assert (E1 : tk s1 t = tk s t) by (unfold s1; destruct (negb _); [by rewrite tk_upd_ne|done]). rewrite E1.
      assert (E3 : tier (tk s2 t) = tier (tk s1 t)).
      { rewrite (task_set_tier_fields tier s1 s2 h _ ltac:(done) ltac:(done) ltac:(done) E2 t). by rewrite decide_False. }
      rewrite E3, E1. done.
Qed.

Lemma restore_tier_spec h s qs :
  sched_ok s qs -> slot h \/ h = 0 ->
  exists s' qs', restore_tier h s = Some s' /\ sched_ok s' qs' /\
    (h <> 0 -> tier (tk s' h) = base_tier s h /\ tst (flags (tk s' h)) TASK_INHERITED = false).
Proof.
  intros Hok Hh. unfold restore_tier, base_tier.
  destruct (Z.eqb_spec h 0) as [|Hne]; [by exists s, qs|]. cbn [negb andb].
  destruct (tst (flags (tk s h)) TASK_INHERITED) eqn:Ef; [|by exists s, qs].
  destruct Hh as [Hs|]; [|done]. set (s1 := s <| h # flags := _ |>).
  assert (Hok1 : sched_ok s1 qs) by (by apply sched_ok_upd).
  destruct (task_set_tier_ok s1 qs h (saved_tier (tk s1 h)) Hok1) as (s2 & qs2 & E2 & Hok2 & K2); [by left|].
  rewrite E2. cbn [mbind option_bind]. eexists _, qs2. split; [done|]. split; [by apply sched_ok_upd|].
  intros _. rewrite tk_upd_eq. cbn [set_field tier flags].
  pose proof (task_set_tier_fields (fun k => (tier k, flags k)) s1 s2 h _ ltac:(done) ltac:(done) Hne E2 h) as Hf.
  cbv beta in Hf. rewrite decide_True in Hf by done. cbn [set_field tier flags] in Hf. injection Hf as -> ->.
  unfold s1. rewrite !tk_upd_eq. split; [done|apply inherited_clear].
Qed.

(** Lending and returning a tier touches nothing but the holder's tier and marks, and links. *)
Lemma inherit_other {A} (F : task -> A) m me s s' t :
  (forall k v, F (k <| next := v |>) = F k) -> (forall k v, F (k <| cur_queue := v |>) = F k) ->
  inherit m me s = Some s' -> t <> holder m -> F (tk s' t) = F (tk s t).
Proof.
  intros Hn Hc E Ht. revert E. unfold inherit. destruct (_ && _)%bool eqn:Eb; [|by intros [= <-]]. bool_prop.
  set (s1 := if negb _ then _ else s). destruct (task_set_tier _ _ s1) as [s2|] eqn:E2; [|done].
  cbn [mbind option_bind]. intros <-%(inj Some). rewrite tk_upd_ne by done.
  rewrite (task_set_tier_fields F s1 s2 (holder m) _ Hn Hc ltac:(done) E2 t), decide_False by done.
  unfold s1. destruct (negb _); [by rewrite tk_upd_ne|done].
Qed.

Lemma inherit_same {A} (F : task -> A) m me s s' :
  (forall k v, F (k <| next := v |>) = F k) -> (forall k v, F (k <| cur_queue := v |>) = F k) ->
  (forall k v, F (k <| tier := v |>) = F k) -> (forall k v, F (k <| flags := v |>) = F k) ->
  (forall k v, F (k <| saved_tier := v |>) = F k) -> inherit m me s = Some s' -> same F s s'.
Proof.
  intros Hn Hc Ht Hf Hs. unfold inherit. destruct (_ && _)%bool eqn:Eb; [|by intros [= <-]]. bool_prop.
  set (s1 := if negb _ then _ else s). destruct (task_set_tier _ _ s1) as [s2|] eqn:E2; [|done].
  cbn [mbind option_bind]. intros <-%(inj Some) t. rewrite (tk_upd_proj F) by (intros; apply Hf).
  rewrite (task_set_tier_fields F s1 s2 (holder m) _ Hn Hc ltac:(done) E2 t).
  transitivity (F (tk s1 t)); [by case_decide|]. unfold s1. destruct (negb _); [|done]. apply tk_upd_proj. intros; apply Hs.
Qed.

Lemma restore_other {A} (F : task -> A) h s s' t :
  (forall k v, F (k <| next := v |>) = F k) -> (forall k v, F (k <| cur_queue := v |>) = F k) ->
  restore_tier h s = Some s' -> t <> h -> F (tk s' t) = F (tk s t).
Proof.
  intros Hn Hc E Ht. revert E. unfold restore_tier. destruct (_ && _)%bool eqn:Eb; [|by intros [= <-]]. bool_prop.
  set (s1 := s <| h # flags := _ |>). destruct (task_set_tier _ _ s1) as [s2|] eqn:E2; [|done].
  cbn [mbind option_bind]. intros <-%(inj Some). rewrite tk_upd_ne by done.
  rewrite (task_set_tier_fields F s1 s2 h _ Hn Hc ltac:(done) E2 t), decide_False by done.
  unfold s1. by rewrite tk_upd_ne.
Qed.

Lemma restore_same {A} (F : task -> A) h s s' :
  (forall k v, F (k <| next := v |>) = F k) -> (forall k v, F (k <| cur_queue := v |>) = F k) ->
  (forall k v, F (k <| tier := v |>) = F k) -> (forall k v, F (k <| flags := v |>) = F k) ->
  (forall k v, F (k <| saved_tier := v |>) = F k) -> restore_tier h s = Some s' -> same F s s'.
Proof.
  intros Hn Hc Ht Hf Hs. unfold restore_tier. destruct (_ && _)%bool eqn:Eb; [|by intros [= <-]]. bool_prop.
  set (s1 := s <| h # flags := _ |>). destruct (task_set_tier _ _ s1) as [s2|] eqn:E2; [|done].
  cbn [mbind option_bind]. intros <-%(inj Some) t. rewrite (tk_upd_proj F) by (intros; apply Hs).
  rewrite (task_set_tier_fields F s1 s2 h _ Hn Hc ltac:(done) E2 t).
  transitivity (F (tk s1 t)); [by case_decide|]. apply tk_upd_proj. intros; apply Hf.
Qed.

(** ** The wait queue *)

(** The wait queue of [m] is the list [ws] of sleeping tasks, and the lock is held by a task
    that does not wait for it. *)
Record mutex_ok (m : mutex) (s : sched) (qs : Z -> list Z) (ws : list Z) : Prop := {
  mo_sched : sched_ok s qs;
  mo_list : llist (nx s) (waitq m) ws;
  mo_wait t : t ∈ ws -> slot t /\ state (tk s t) = TASK_WAITING /\ t <> current_task s;
  mo_lock : (locked m = 0 /\ holder m = 0) \/ (locked m <> 0 /\ slot (holder m) /\ holder m ∉ ws);
}.

(** A task that is neither READY nor running is in no run queue. *)
Lemma waiting_unqueued s qs t :
  sched_ok s qs -> state (tk s t) <> TASK_READY -> t <> current_task s -> unqueued qs t.
Proof.
  intros [Hq _ _] Hst Hne q Hqr Hin. destruct (qo_ready _ _ _ Hq q t) as [? _]; auto. set_solver.
Qed.

Lemma mutex_waiters m s qs ws t : mutex_ok m s qs ws -> t ∈ ws -> unqueued qs t.
Proof.
  intros [Hok _ Hw _] Ht. destruct (Hw t Ht) as (_ & Hst & Hne). apply (waiting_unqueued s); auto. by rewrite Hst.
Qed.

(** The links of a sleeping task survive a change of tier of another task. *)
Lemma task_set_tier_frame s s' qs t tr y :
  sched_ok s qs -> task_set_tier t tr s = Some s' -> unqueued qs y -> y <> t -> nx s' y = nx s y.
Proof.
  intros Hok E Hu Hne. revert E. unfold task_set_tier. destruct (Z.eqb_spec t 0); [by intros [= <-]|].
  destruct (_ && _)%bool; [|intros <-%(inj Some); unfold nx; by rewrite (tk_upd_proj next)].
  pose proof (qo_rq _ _ _ (so_queues _ _ Hok)) as Hr.
  destruct (dequeue_refines s qs t Hr) as (s1 & E1 & Hr1 & Heq); [done|].
  rewrite E1. cbn [mbind option_bind]. intros <-%(inj Some).
  rewrite (enqueue_frame _ (without t qs)).
  - unfold nx. rewrite (tk_upd_proj next) by done. by apply (dequeue_frame s s1 qs t).
  - apply (rq_ok_frame s1); [done..| |done]. intros q x _ _. unfold nx. by rewrite (tk_upd_proj next), (tk_upd_proj cur_queue).
  - done.
  - intros q Hqr Hin. apply list_elem_of_filter in Hin as [_ Hin]. by apply (Hu q).
Qed.

Lemma inherit_frame m me s s' qs y :
  sched_ok s qs -> inherit m me s = Some s' -> unqueued qs y -> y <> holder m ->
  nx s' y = nx s y /\ state (tk s' y) = state (tk s y).
Proof.
  intros Hok E Hu Hne. revert E. unfold inherit. destruct (_ && _)%bool eqn:Eb; [|by intros [= <-]].
  bool_prop. set (s1 := if negb _ then _ else s).
  assert (Hok1 : sched_ok s1 qs) by (unfold s1; destruct (negb _); [by apply sched_ok_upd|done]).
  destruct (task_set_tier _ _ s1) as [s2|] eqn:E2; [|done]. cbn [mbind option_bind]. intros <-%(inj Some).
  assert (E1 : tk s1 y = tk s y) by (unfold s1; destruct (negb _); [by rewrite tk_upd_ne|done]).
  unfold nx. rewrite tk_upd_ne by done. fold (nx s2 y) (nx s y). split.
  - rewrite (task_set_tier_frame s1 s2 qs _ _ y Hok1 E2 Hu Hne). unfold nx. by rewrite E1.
  - rewrite (task_set_tier_fields state s1 s2 (holder m) _ ltac:(done) ltac:(done) ltac:(done) E2 y).
    rewrite decide_False by done. by rewrite E1.
Qed.
(** [me] goes from the run queues to the wait queue. *)
Lemma sleep_ok me s qs v :
  queues_ok [me] s qs -> unqueued qs me ->
  queues_ok [me] (s <| me # state := TASK_WAITING |> <| me # next := v |>) qs.
Proof.
  intros Hq Hu. apply (queues_ok_frame [me] (s <| me # state := TASK_WAITING |>)); [done..| | |].
  - intros q t Hqr Ht. assert (me <> t) by (intros <-; by apply (Hu q)). unfold nx. by rewrite tk_upd_ne.
  - intros t Ht. rewrite tk_upd_ne; [done|]. intros <-. apply Ht. by left.
  - apply queues_ok_upd; [done|left; by left|done].
Qed.

(** The state [s1] in which a caller of [mutex_lock] that has to wait calls the scheduler. *)
Record before_switch (m : mutex) (s s1 : sched) : Prop := {
  bs_cur : current_task s1 = current_task s;
  bs_me : state (tk s1 (current_task s)) = TASK_WAITING;
  bs_state t : t <> current_task s -> state (tk s1 t) = state (tk s t);
  bs_same : same (fun k => (in_use k, rview k)) s s1;
  bs_base t : base_tier s1 t = base_tier s t;
  bs_flags t : t <> holder m -> flags (tk s1 t) = flags (tk s t);
}.

Lemma lock_before_switch m me s s1 s2 v :
  (forall t, base_tier s1 t = base_tier s t) ->
  inherit m me s = Some s1 -> dequeue_task me s1 = Some s2 ->
  let s3 := s2 <| me # state := TASK_WAITING |> <| me # next := v |> in
  current_task s = me -> current_task s3 = me -> before_switch m s s3.
Proof.
  intros Hb E1 E2 s3 Hc Hc3.
  assert (Hd : forall A (F : task -> A), (forall k v, F (k <| next := v |>) = F k) -> (forall k v, F (k <| state := v |>) = F k) ->
    same F s1 s3).
  { intros A F Hn Hs t. unfold s3. rewrite !(tk_upd_proj F) by auto. by apply (same_dequeue_next F s1 s2 me). }
  split.
  - congruence.
  - unfold s3. rewrite Hc, (tk_upd_proj state) by done. by rewrite tk_upd_eq.
  - intros t Ht. rewrite Hc in Ht. unfold s3. rewrite !tk_upd_ne by done.
    rewrite (same_dequeue_next state s1 s2 me ltac:(done) E2 t). by apply (inherit_same state m me s s1).
  - eapply same_trans; [by apply (inherit_same (fun k => (in_use k, rview k)) m me s s1)|by apply Hd].
  - intros t. rewrite <- Hb. pose proof (Hd _ (fun k => (flags k, saved_tier k, tier k)) ltac:(done) ltac:(done) t) as E.
    injection E as Ef Es Et. unfold base_tier. by rewrite Ef, Es, Et.
  - intros t Ht. rewrite (Hd _ flags ltac:(done) ltac:(done) t). by apply (inherit_other flags m me s s1).
Qed.

Lemma mutex_lock_blocks_spec m s qs ws :
  let me := current_task s in
  mutex_ok m s qs ws -> slot me -> locked m <> 0 -> holder m <> me ->
  exists m' s' qs', mutex_lock_round m s = Some (false, m', s') /\ mutex_ok m' s' qs' (me :: ws) /\
    locked m' = locked m /\ holder m' = holder m /\
    exists s1 qs1, before_switch m s s1 /\ sched_pre s1 qs1 /\ schedule s1 = Some s'.
Proof.
  intros me Hm Hs Hlk Hne. pose proof Hm as [Hok Hl Hw Hlo].
  destruct Hlo as [[? _]|(_ & Hhs & Hhw)]; [done|].
  assert (Hmw : me ∉ ws) by (intros Hin; by destruct (Hw me Hin) as (_ & _ & ?)).
  unfold mutex_lock_round. fold me. destruct (Z.eqb_spec me 0); [unfold slot in *; lia|].
  destruct (Z.eqb_spec (locked m) 0); [done|].
  destruct (inherit_spec m me s qs Hok Hne) as (s1 & qs1 & E1 & Hok1 & Hc1 & Hb1); [by left|].
  rewrite E1. cbn [mbind option_bind].
  assert (F1 : forall t, t ∈ ws -> nx s1 t = nx s t /\ state (tk s1 t) = TASK_WAITING /\ t <> me /\ unqueued qs1 t).
  { intros t Ht. destruct (Hw t Ht) as (_ & Hst & Hnc).
    destruct (inherit_frame m me s s1 qs t Hok E1) as [En Est]; [by apply (mutex_waiters m s qs ws)|by intros ->|].
    rewrite Est. splits; [done..|]. apply (waiting_unqueued s1); [done|by rewrite Est, Hst|by rewrite Hc1]. }
  destruct (dequeue_ok [me] me s1 qs1) as (s2 & E2 & Hq2 & Heq2); [|by left|done|].
  { unfold me. rewrite <- Hc1. apply Hok1. }
  rewrite E2. cbn [mbind option_bind]. set (qs2 := without me qs1) in *.
  assert (Hu2 : unqueued qs2 me) by apply without_unqueued.
  set (s3 := s2 <| me # state := TASK_WAITING |> <| me # next := waitq m |>).
  assert (Hq3 : queues_ok [me] s3 qs2) by (by apply sleep_ok).
  assert (Hc3 : current_task s3 = me).
  { transitivity (current_task s2); [done|]. destruct Heq2 as (_ & -> & _). exact Hc1. }
  assert (Hst3 : state (tk s3 me) = TASK_WAITING) by (unfold s3; by rewrite !tk_upd_eq).
  assert (F3 : forall t, t ∈ ws -> slot t /\ nx s3 t = nx s t /\ state (tk s3 t) = TASK_WAITING /\ unqueued qs2 t).
  { intros t Ht. destruct (F1 t Ht) as (En & Est & Htm & Hut). destruct (Hw t Ht) as (Hts & _). unfold nx, s3.
    rewrite !tk_upd_ne by done. splits; [done| | |].
    - fold (nx s2 t) (nx s t). rewrite <- En. apply (dequeue_frame s1 s2 qs1 me t); [apply Hok1|done|done|done].
    - rewrite <- Est. by apply (eq_nonext_proj state).
    - intros q Hqr Hin. apply list_elem_of_filter in Hin as [_ Hin]. by apply (Hut q). }
  assert (Hp3 : sched_pre s3 qs2) by (split; rewrite Hc3; [done|unfold slot, valid_task in *; lia|by rewrite Hst3]).
  destruct (schedule_block s3 qs2) as (s4 & qs4 & E4 & Hok4 & F4); rewrite ?Hc3; auto.
  rewrite E4. cbn [mbind option_bind]. eexists _, s4, qs4. split; [done|]. split; [split; [done| | |]|].
  - split; [done|]. split; [unfold slot in *; lia|]. destruct (F4 me Hs Hu2) as (_ & -> & _).
    unfold s3 at 1. rewrite nx_upd_eq. eapply llist_ext; [|exact Hl]. intros t Ht.
    destruct (F3 t Ht) as (Hts & En & _ & Hut). destruct (F4 t Hts Hut) as (_ & -> & _). by rewrite En.
  - intros t [->|Ht]%elem_of_cons.
    + destruct (F4 me Hs Hu2) as (Hc & _ & Est). rewrite Est, Hst3. splits; [done..|]. congruence.
    + destruct (F3 t Ht) as (Hts & En & Est3 & Hut). destruct (F4 t Hts Hut) as (Hc & _ & Est).
      rewrite Est, Est3. splits; [done..|]. congruence.
  - right. splits; [done..|]. set_solver.
  - splits; [done..|]. exists s3, qs2. splits; [|done..].
    pose proof (lock_before_switch m me s s1 s2 (waitq m) Hb1 E1 E2) as Hbs. fold s3 in Hbs. apply Hbs; done.
Qed.

Lemma restore_tier_frame h s s' qs y :
  sched_ok s qs -> restore_tier h s = Some s' -> unqueued qs y -> y <> h ->
  nx s' y = nx s y /\ state (tk s' y) = state (tk s y).
Proof.
  intros Hok E Hu Hne. revert E. unfold restore_tier. destruct (_ && _)%bool eqn:Eb; [|by intros [= <-]].
  bool_prop. set (s1 := s <| h # flags := _ |>). assert (Hok1 : sched_ok s1 qs) by (by apply sched_ok_upd).
  destruct (task_set_tier _ _ s1) as [s2|] eqn:E2; [|done]. cbn [mbind option_bind]. intros <-%(inj Some).
  assert (E1 : tk s1 y = tk s y) by (unfold s1; by rewrite tk_upd_ne).
  unfold nx. rewrite tk_upd_ne by done. fold (nx s2 y) (nx s y). split.
  - rewrite (task_set_tier_frame s1 s2 qs _ _ y Hok1 E2 Hu Hne). unfold nx. by rewrite E1.
  - rewrite (task_set_tier_fields state s1 s2 h _ ltac:(done) ltac:(done) ltac:(done) E2 y).
    rewrite decide_False by done. by rewrite E1.
Qed.

Lemma restore_tier_current h s s' : restore_tier h s = Some s' -> current_task s' = current_task s.
Proof.
  unfold restore_tier. destruct (_ && _)%bool; [|by intros [= <-]].
  destruct (task_set_tier _ _ _) as [s2|] eqn:E2; [|done]. cbn [mbind option_bind]. intros <-%(inj Some).
  change (current_task (upd s2 h _)) with (current_task s2). revert E2. unfold task_set_tier.
  destruct (h =? 0); [by intros <-%(inj Some)|]. destruct (_ && _)%bool; [|by intros <-%(inj Some)].
  destruct (dequeue_task _ _) as [s3|] eqn:E3; [|done]. cbn [mbind option_bind]. intros <-%(inj Some).
  rewrite current_enqueue. change (current_task (upd s3 h _)) with (current_task s3).
  revert E3. unfold dequeue_task. cbv zeta. repeat case_match; try (by intros <-%(inj Some)); try done.
  all: destruct (find_prev _ _ _ _); cbn [mbind option_bind]; [|done]; repeat case_match; by intros <-%(inj Some).
Qed.

Lemma mutex_unlock_spec m s qs ws :
  mutex_ok m s qs ws ->
  exists m' s' qs', mutex_unlock m s = Some (m', s') /\ mutex_ok m' s' qs' (tail ws) /\
    locked m' = 0 /\ holder m' = 0 /\
    (forall w, head ws = Some w -> state (tk s' w) = TASK_READY /\ w ∈ qs' (task_qidx s' w)).
Proof.
  intros Hm. pose proof Hm as [Hok Hl Hw Hlo]. unfold mutex_unlock.
  assert (Hh : slot (holder m) \/ holder m = 0) by (destruct Hlo as [[_ ?]|(_ & ? & _)]; auto).
  assert (Hhw : holder m ∉ ws).
  { destruct Hlo as [[_ ->]|(_ & _ & ?)]; [|done]. intros Hin. by apply (llist_nonzero _ _ _ 0 Hl Hin). }
  destruct (restore_tier_spec (holder m) s qs Hok Hh) as (s1 & qs1 & E1 & Hok1 & _). rewrite E1. cbn [mbind option_bind].
  pose proof (restore_tier_current _ _ _ E1) as Hc1.
  assert (F1 : forall t, t ∈ ws -> slot t /\ nx s1 t = nx s t /\ state (tk s1 t) = TASK_WAITING /\ t <> current_task s1).
  { intros t Ht. destruct (Hw t Ht) as (Hts & Hst & Hnc).
    destruct (restore_tier_frame (holder m) s s1 qs t Hok E1) as [En Est]; [by apply (mutex_waiters m s qs ws)|by intros ->|].
    rewrite Est, Hc1. done. }
  cbv zeta. change (waitq (m <| locked := 0 |> <| holder := 0 |>)) with (waitq m). destruct ws as [|w ws].
  - assert (waitq m = 0) as E0 by exact Hl. rewrite E0. cbn [negb Z.eqb]. eexists _, s1, qs1. split; [done|].
    split; [|done]. split; [done|done|intros t Ht; inv Ht|by left].
  - assert (waitq m = w /\ w <> 0 /\ llist (nx s) (nx s w) ws) as (Ew & Hw0 & Hl') by exact Hl.
    rewrite Ew. destruct (Z.eqb_spec w 0); [done|]. cbn [negb].
    destruct (F1 w ltac:(by left)) as (Hws & Enw & Hstw & Hcw).
    assert (Huw : unqueued qs1 w) by (apply (waiting_unqueued s1); auto; by rewrite Hstw).
    pose proof (llist_NoDup _ _ _ Hl) as Hnd. apply NoDup_cons in Hnd as [Hnw _].
    set (s2 := s1 <| w # next := 0 |> <| w # state := TASK_READY |>).
    assert (Hq2 : queues_ok [w; current_task s1] s2 qs1).
    { assert (Hq1 : queues_ok [w; current_task s1] s1 qs1).
      { eapply queues_ok_weaken; [|apply Hok1]. intros x Hx. by right. }
      apply (queues_ok_frame _ s1); [done..| | |done].
      - intros q t Hqr Ht. assert (w <> t) by (intros <-; by apply (Huw q)). unfold nx, s2. by rewrite !tk_upd_ne.
      - intros t Ht. unfold s2. rewrite !tk_upd_ne; [done|..]; intros <-; apply Ht; by left. }
    set (q := task_qidx s2 w). set (qs2 := qset qs1 q (qs1 q ++ [w])).
    assert (Hq3 : queues_ok [current_task s1] (enqueue_task w s2) qs2).
    { apply (enqueue_ok [w; current_task s1]); [done..| |set_solver]. unfold s2. by rewrite tk_upd_eq. }
    assert (Hcur : current_task (enqueue_task w s2) = current_task s1) by (by rewrite current_enqueue).
    assert (Hstt : forall t, t <> w -> state (tk (enqueue_task w s2) t) = state (tk s1 t)).
    { intros t Hne. rewrite enqueue_fields by done. unfold s2. by rewrite !tk_upd_ne. }
    eexists _, _, qs2. split; [done|]. split; [|split; [done|split; [done|]]].
    + split.
      * split; rewrite Hcur; [done|apply Hok1|]. rewrite Hstt by done. apply Hok1.
      * cbn [tail waitq set_field]. fold (nx s1 w). rewrite Enw. eapply llist_ext; [|exact Hl']. intros t Ht.
        assert (t <> w) by (by intros ->). destruct (F1 t ltac:(by right)) as (_ & <- & Hst & Hct).
        symmetry. rewrite (enqueue_frame s2 qs1 w t); [|apply Hq2|done|apply (waiting_unqueued s1); auto; by rewrite Hst].
        unfold nx, s2. by rewrite !tk_upd_ne.
      * cbn [tail]. intros t Ht. assert (t <> w) by (by intros ->). rewrite Hcur, Hstt by done.
        destruct (F1 t ltac:(by right)) as (? & _ & ? & ?). done.
      * by left.
    + intros ? [= <-]. assert (Est : state (tk (enqueue_task w s2) w) = TASK_READY).
      { rewrite enqueue_fields by done. unfold s2. by rewrite tk_upd_eq. }
      split; [exact Est|]. assert (Hin : w ∈ qs2 q) by (unfold qs2; rewrite qset_eq; set_solver).
      destruct (qo_ready _ _ _ Hq3 q w (task_qidx_range s2 w) Hin) as [_ ->]; [|done].
      intros Hx%list_elem_of_singleton. done.
Qed.

(** What releasing leaves alone. *)
Lemma mutex_unlock_out m s qs ws m' s' :
  mutex_ok m s qs ws -> mutex_unlock m s = Some (m', s') ->
  current_task s' = current_task s /\ (forall t, head ws <> Some t -> state (tk s' t) = state (tk s t)) /\
  same (fun k => (in_use k, rview k)) s s' /\ (forall t, base_tier s' t = base_tier s t) /\
  (forall t, t <> holder m -> flags (tk s' t) = flags (tk s t)) /\
  (holder m <> 0 -> tst (flags (tk s' (holder m))) TASK_INHERITED = false).
Proof.
  intros Hm. pose proof Hm as [Hok Hl Hw Hlo]. unfold mutex_unlock.
  assert (Hh : slot (holder m) \/ holder m = 0) by (destruct Hlo as [[_ ?]|(_ & ? & _)]; auto).
  destruct (restore_tier_spec (holder m) s qs Hok Hh) as (s1 & qs1 & E1 & _ & Hb). rewrite E1. cbn [mbind option_bind].
  pose proof (restore_tier_current _ _ _ E1) as Hc1.
  assert (Hs1 : same state s s1) by (by apply (restore_same state (holder m) s s1)).
  assert (Hv1 : same (fun k => (in_use k, rview k)) s s1) by (by apply (restore_same _ (holder m) s s1)).
  assert (Hf1 : forall t, t <> holder m -> (flags (tk s1 t), saved_tier (tk s1 t), tier (tk s1 t)) =
    (flags (tk s t), saved_tier (tk s t), tier (tk s t))).
  { intros t. by apply (restore_other (fun k => (flags k, saved_tier k, tier k)) (holder m) s s1). }
  assert (Hb1 : forall t, base_tier s1 t = base_tier s t).
  { intros t. destruct (decide (t = holder m)) as [->|Ht].
    - destruct (decide (holder m = 0)) as [E0|Hh0]; [|destruct (Hb Hh0) as [Et Ef]; unfold base_tier at 1; by rewrite Ef].
      revert E1. rewrite E0. unfold restore_tier. cbn [negb Z.eqb andb]. by intros [= <-].
    - specialize (Hf1 t Ht). injection Hf1 as E2 E3 E4. unfold base_tier. by rewrite E2, E3, E4. }
  assert (Hh1 : holder m <> 0 -> tst (flags (tk s1 (holder m))) TASK_INHERITED = false) by (intros Hh0; by apply Hb).
  cbv zeta. change (waitq (m <| locked := 0 |> <| holder := 0 |>)) with (waitq m). destruct ws as [|w ws].
  - assert (waitq m = 0) as E0 by exact Hl. rewrite E0. cbn [negb Z.eqb]. intros [= <- <-].
    splits; [done|done|done|done| |done]. intros t Ht. specialize (Hf1 t Ht). congruence.
  - assert (waitq m = w /\ w <> 0) as (-> & Hw0) by (by destruct Hl as (? & ? & _)).
    destruct (Z.eqb_spec w 0); [done|]. cbn [negb]. intros [= <- <-].
    assert (Hd : forall A (F : task -> A), (forall k v, F (k <| next := v |>) = F k) -> (forall k v, F (k <| state := v |>) = F k) ->
      (forall k v, F (k <| cur_queue := v |>) = F k) ->
      same F s1 (enqueue_task w (s1 <| w # next := 0 |> <| w # state := TASK_READY |>))).
    { intros A F Hn Hs Hq t. rewrite enqueue_fields by auto. by rewrite !(tk_upd_proj F) by auto. }
    splits.
    + by rewrite current_enqueue.
    + intros t Ht. rewrite enqueue_fields by done. rewrite tk_upd_ne by (intros ->; done). rewrite (tk_upd_proj state) by done. apply Hs1.
    + eapply same_trans; [exact Hv1|by apply Hd].
    + intros t. rewrite <- Hb1. pose proof (Hd _ (fun k => (flags k, saved_tier k, tier k)) ltac:(done) ltac:(done) ltac:(done) t) as E.
      injection E as Ef Es Et. unfold base_tier. by rewrite Ef, Es, Et.
    + intros t Ht. rewrite (Hd _ flags) by done. specialize (Hf1 t Ht). congruence.
    + intros Hh0. rewrite (Hd _ flags) by done. auto.
Qed.

(** Priority inheritance, whatever the order of waiters and however often it happens,
    does not change the tier a task falls back to; and the scheduler's invariant holds after
    the holder was moved to the queue of its new tier. *)
Theorem inherit_keeps_base_tier m me s qs :
  sched_ok s qs -> holder m <> me -> slot (holder m) \/ holder m = 0 ->
  exists s' qs', inherit m me s = Some s' /\ sched_ok s' qs' /\ forall t, base_tier s' t = base_tier s t.
Proof.
  intros Hok Hne Hh. destruct (inherit_spec m me s qs Hok Hne Hh) as (s' & qs' & E & Hok' & _ & Hb). by exists s', qs'.
Qed.

(** Releasing a mutex gives its holder back the tier it had before anybody lent it one
    and clears the inheritance mark. *)
Theorem unlock_restores_tier h s qs :
  sched_ok s qs -> slot h ->
  exists s' qs', restore_tier h s = Some s' /\ sched_ok s' qs' /\
    tier (tk s' h) = base_tier s h /\ tst (flags (tk s' h)) TASK_INHERITED = false.
Proof.
  intros Hok Hh. destruct (restore_tier_spec h s qs Hok) as (s' & qs' & E & Hok' & Hb); [by left|].
  exists s', qs'. destruct Hb as [? ?]; [unfold slot in *; lia|]. by splits.
Qed.

(** Locking a held mutex puts the caller to sleep at the head of the wait queue and
    switches away: the wait queue, threaded through the same [next] fields as the run queues,
    stays a list of sleeping tasks, and the run queues keep their invariant. *)
Theorem mutex_lock_blocks m s qs ws :
  let me := current_task s in
  mutex_ok m s qs ws -> slot me -> locked m <> 0 -> holder m <> me ->
  exists m' s' qs', mutex_lock_round m s = Some (false, m', s') /\ mutex_ok m' s' qs' (me :: ws) /\
    locked m' = locked m /\ holder m' = holder m.
Proof.
  intros me Hm Hs Hl Hne. destruct (mutex_lock_blocks_spec m s qs ws Hm Hs Hl Hne) as (m' & s' & qs' & E & Hm' & E1 & E2 & _).
  by exists m', s', qs'.
Qed.

(** C29: Unlocking frees the mutex, takes the head of the wait queue out of it, and makes
    exactly that task READY and queued; the others keep waiting. *)
Theorem mutex_unlock_wakes m s qs ws :
  mutex_ok m s qs ws ->
  exists m' s' qs', mutex_unlock m s = Some (m', s') /\ mutex_ok m' s' qs' (tail ws) /\
    locked m' = 0 /\ holder m' = 0 /\
    (forall w, head ws = Some w -> state (tk s' w) = TASK_READY /\ w ∈ qs' (task_qidx s' w)).
Proof. apply mutex_unlock_spec. Qed.

(** A mutex with inheritance held by task 2 while task 1 runs. *)
Definition demo_mutex : mutex := mk_mutex 1 2 0 LOCK_FLAG_INHERIT [].

Lemma demo_mutex_ok : mutex_ok demo_mutex (demo 0) demo_qs [].
Proof.
  split; [apply demo_ok; by left|done|intros t Ht; inv Ht|]. right. split; [done|]. split; [done|]. intros H; inv H.
Qed.

Lemma mutex_lock_blocks_witness :
  exists m' s' qs', mutex_lock_round demo_mutex (demo 0) = Some (false, m', s') /\
    mutex_ok m' s' qs' [1] /\ locked m' = 1 /\ holder m' = 2.
Proof. apply (mutex_lock_blocks demo_mutex (demo 0) demo_qs []); [exact demo_mutex_ok|done..]. Defined.

(** Task 1 runs and holds the mutex, tasks 2 and 3 sleep in its wait queue. *)
Definition wake_sched : sched :=
  demo_sched [(1, demo_task TASK_RUNNING 0 2 0 1 0); (2, demo_task TASK_WAITING 0 2 3 3 0);
              (3, demo_task TASK_WAITING 1 3 0 2 0)] [] [].
Definition wake_mutex : mutex := mk_mutex 1 1 2 LOCK_FLAG_INHERIT [].

Lemma wake_mutex_ok : mutex_ok wake_mutex wake_sched (fun _ => []) [2; 3].
Proof.
  split; [by apply Check.sched_okb_sound|cbn; by repeat split| |].
  - intros t Ht. repeat (apply elem_of_cons in Ht as [->|Ht]; [split; [split; discriminate|split; [reflexivity|discriminate]]|]). inv Ht.
  - right. split; [done|]. split; [split; discriminate|]. by rewrite !not_elem_of_cons; repeat split; try discriminate; intros H; inv H.
Qed.

(** The first of two waiters is woken, the other one goes on waiting. *)
Lemma mutex_unlock_wakes_witness :
  exists m' s' qs', mutex_unlock wake_mutex wake_sched = Some (m', s') /\ mutex_ok m' s' qs' [3] /\
    locked m' = 0 /\ holder m' = 0 /\ state (tk s' 2) = TASK_READY /\ 2 ∈ qs' (task_qidx s' 2).
Proof.
  destruct (mutex_unlock_wakes wake_mutex wake_sched (fun _ => []) [2; 3] wake_mutex_ok)
    as (m' & s' & qs' & E & Hm & Hl & Hh & Hw).
  destruct (Hw 2 eq_refl) as [Hr Hq].
  exists m', s', qs'. splits; [exact E|exact Hm|exact Hl|exact Hh|exact Hr|exact Hq].
Defined.

Lemma inherit_keeps_base_tier_witness :
  exists s' qs', inherit demo_mutex 1 (demo 0) = Some s' /\ sched_ok s' qs' /\
    forall t, base_tier s' t = base_tier (demo 0) t.
Proof.
  apply (inherit_keeps_base_tier demo_mutex 1 (demo 0) demo_qs); [apply demo_ok; by left|done|by left].
Defined.

Lemma unlock_restores_tier_witness :
  exists s' qs', restore_tier 2 (demo 0) = Some s' /\ sched_ok s' qs' /\
    tier (tk s' 2) = base_tier (demo 0) 2 /\ tst (flags (tk s' 2)) TASK_INHERITED = false.
Proof. apply (unlock_restores_tier 2 (demo 0) demo_qs); [apply demo_ok; by left|done]. Defined.

(** Task 1 (USER) runs, task 2 (CRITICAL) waits in queue 1. *)
Definition critical_demo : sched :=
  demo_sched [(1, demo_task TASK_RUNNING 0 2 0 1 0);
              (2, (demo_task TASK_READY 0 1 0 3 0) <| tier := TIER_CRITICAL |>)] [(1, 2)] [(1, 2)].

(** Priority inheritance compares tier numbers, in which CRITICAL (3) is above USER (2)
    although it is scheduled before it: a USER task that waits for a mutex moves its CRITICAL
    holder from queue 1 down to queue 2. *)
Theorem inherit_demotes_critical :
  exists m s qs s', mutex_ok m s qs [] /\ inherit m (current_task s) s = Some s' /\
    tier (tk s (holder m)) = TIER_CRITICAL /\ task_qidx s (holder m) = 1 /\
    tier (tk s' (holder m)) = TIER_USER /\ task_qidx s' (holder m) = 2.
Proof.
  assert (Hc : option_map (fun s' => (tier (tk s' 2), task_qidx s' 2)) (inherit demo_mutex 1 critical_demo) =
    Some (TIER_USER, 2)) by (by vm_compute).
  destruct (inherit demo_mutex 1 critical_demo) as [s'|] eqn:E; [|done]. cbn in Hc. injection Hc as E1 E2.
  exists demo_mutex, critical_demo, (qset (fun _ => []) 1 [2]), s'. splits; try done.
  split; [by apply Check.sched_okb_sound|done|intros t Ht; inv Ht|].
  right. split; [done|]. split; [done|]. intros H; inv H.
Qed.

(** [spin_unlock] always enables interrupts: releasing the inner of two nested spin locks
    leaves interrupts on while the outer one is still held. *)
Theorem nested_spin_unlock_enables_interrupts :
  exists a b, spin_lock (mk_spin 0) true = Some (a, false) /\ spin_lock (mk_spin 0) false = Some (b, false) /\
    spin_unlock b false = (mk_spin 0, true) /\ sl_locked a = 1.
Proof. by exists (mk_spin 1), (mk_spin 1). Qed.
