(* ===== verification/MutexRuns.v ===== *)
(** * A mutex under every schedule (src/kernel/locks.c with task.c and sched.c)

    Kernel threads that share a mutex, run by the scheduler and interrupted by the timer.  A
    call of [mutex_lock] that has to wait goes on with the next round of its loop when the
    scheduler starts the thread again, so that a thread is [Out], [Trying] or [In] the
    section that the mutex protects. *)

From S2P Require Import Prelude LList Task TaskInv Watchdog Sched SchedSpec SchedSteps SchedFrame SchedTheorems Locks.

Inductive pc := Out | Trying | In.
#[export] Instance pc_eq_dec : EqDecision pc.
Proof. solve_decision. Defined.

Record mrun := mk_mrun { mx : mutex; sc : sched; wdg : wdog; pcs : gmap Z pc }.
#[export] Instance eta_mrun : Eta mrun := fun r => mk_mrun (mx r) (sc r) (wdg r) (pcs r).

Definition pc_of (r : mrun) (t : Z) : pc := default Out (pcs r !! t).

(** What can happen next: a timer interrupt, or the running thread yields, sleeps
    ([current_task->state = TASK_WAITING; schedule()]), or runs [mutex_lock] (the next round
    of its loop), [mutex_trylock] or [mutex_unlock]. *)
Inductive mevent := MTick | MYield | MSleep | MLock | MTry | MUnlock.
#[export] Instance mevent_eq_dec : EqDecision mevent.
Proof. solve_decision. Defined.

(** The code of the running thread.  Inside the loop of [mutex_lock] a thread can only go on
    with the next round of it; elsewhere every call runs, also a lock of what the thread
    holds already and an unlock of what it does not hold. *)
Definition thread_event (ev : mevent) (r : mrun) : option mrun :=
  let c := current_task (sc r) in
  match pc_of r c, ev with
  | Trying, _ | _, MLock =>
      '(got, m, s) ← mutex_lock_round (mx r) (sc r);
      Some (r <| mx := m |> <| sc := s |> <| pcs := <[c := if (got : bool) then In else Trying]> (pcs r) |>)
  | _, MYield => s ← yield (sc r); Some (r <| sc := s |>)
  | _, MSleep => s ← schedule ((sc r) <| c # state := TASK_WAITING |>); Some (r <| sc := s |>)
  | p, MTry =>
      let '(got, m) := mutex_trylock (mx r) (sc r) in
      Some (r <| mx := m |> <| pcs := <[c := if got =? 0 then p else In]> (pcs r) |>)
  | _, MUnlock =>
      '(m, s) ← mutex_unlock (mx r) (sc r);
      Some (r <| mx := m |> <| sc := s |> <| pcs := <[c := Out]> (pcs r) |>)
  | _, MTick => Some r
  end.

(** How a thread is meant to use the mutex: it does not lock what it holds, and unlocks only
    what it holds. *)
Definition fits (ev : mevent) (r : mrun) : bool :=
  match ev, pc_of r (current_task (sc r)) with
  | MLock, In | MUnlock, Out => false
  | _, _ => true
  end.

Section Runs.
Context {W : Type} `{ExitServices W} (page_directory : Z).

(** The idle thread makes no calls. *)
Definition run_mevent (st : mrun * W) (ev : mevent) : option (mrun * W) :=
  let '(r, w) := st in
  match ev with
  | MTick => '(wd, s, w) ← pit_handler page_directory (wdg r, sc r, w); Some (r <| wdg := wd |> <| sc := s |>, w)
  | _ => if current_task (sc r) =? IDLE then Some (r, w) else r ← thread_event ev r; Some (r, w)
  end.

Definition run_mevents (evs : list mevent) (st : mrun * W) : option (mrun * W) :=
  foldl (fun ost ev => st ← ost; run_mevent st ev) (Some st) evs.

(** Every call of the run is one that [fits]. *)
Fixpoint disciplined (evs : list mevent) (st : mrun * W) : bool :=
  match evs with
  | [] => true
  | ev :: evs =>
      ((current_task (sc (fst st)) =? IDLE) || fits ev (fst st)) &&
      match run_mevent st ev with Some st => disciplined evs st | None => true end
  end.
End Runs.

(** ** The invariant *)

Definition awake (s : sched) (t : Z) : Prop := slot t /\ (t = current_task s \/ state (tk s t) = TASK_READY).
Definition live (s : sched) (t : Z) : Prop := slot t /\ in_use (tk s t) <> 0 /\ state (tk s t) <> TASK_EXITED.

(** The threads: nobody is killed, a thread in the loop of [mutex_lock] that is not in the wait
    queue [ws] can run, and only the holder [h] has a tier that is not its own ([bt]). *)
Record users_ok (bt : Z -> Z) (p : Z -> pc) (ws : list Z) (h : Z) (s : sched) : Prop := {
  us_rest t : rest_ok t (tk s t);
  us_kill t : kill_pending (tk s t) = 0;
  us_used t : slot t -> t = current_task s \/ state (tk s t) = TASK_READY \/ state (tk s t) = TASK_WAITING ->
    in_use (tk s t) <> 0;
  us_try t : p t = Trying -> t ∉ ws -> awake s t;
  us_base t : live s t -> base_tier s t = bt t;
  us_boost t : live s t -> tst (flags (tk s t)) TASK_INHERITED = true -> t = h;
}.

(** The running thread is not asleep. *)
Definition runs (s : sched) : Prop := slot (current_task s) -> ~ stopped s (current_task s).

Record mrun_ok (bt : Z -> Z) (r : mrun) (qs : Z -> list Z) (ws : list Z) : Prop := {
  mr_mutex : mutex_ok (mx r) (sc r) qs ws;
  mr_users : users_ok bt (pc_of r) ws (holder (mx r)) (sc r);
  mr_runs : runs (sc r);
  mr_in t : pc_of r t = In <-> t = holder (mx r) /\ t <> 0;
  mr_wait t : t ∈ ws -> pc_of r t = Trying;
  mr_wake : ws <> [] -> locked (mx r) <> 0 \/ exists t, pc_of r t = Trying /\ t ∉ ws;
}.

Lemma mrun_calm bt r qs ws : mrun_ok bt r qs ws -> calm (sc r) qs.
Proof. intros Hr. split; [apply Hr|apply (us_rest _ _ _ _ _ (mr_users _ _ _ _ Hr))]. Qed.

Lemma base_tier_view s s' t :
  (tier (tk s' t), flags (tk s' t), saved_tier (tk s' t)) = (tier (tk s t), flags (tk s t), saved_tier (tk s t)) ->
  base_tier s' t = base_tier s t.
Proof. intros [= E1 E2 E3]. unfold base_tier. by rewrite E1, E2, E3. Qed.

(** ** Quiet changes *)

Lemma users_quiet bt p ws h s s' :
  users_ok bt p ws h s -> state (tk s (current_task s)) <> TASK_EXITED -> quiet s s' ->
  (forall t, rest_ok t (tk s' t)) -> users_ok bt p ws h s'.
Proof.
  intros [Hr Hk Hu Ht Hb Hi] Hl Hq Hr'.
  assert (Hv : forall t, live s' t -> tview (tk s' t) = tview (tk s t)).
  { intros t (_ & Hin & _). destruct (qt_view _ _ Hq t) as [|[_ E]]; [done|]. injection E as _ E _ _ _ _. by rewrite E in Hin. }
  assert (Hlv : forall t, live s' t -> live s t).
  { intros t Hlt. pose proof (Hv t Hlt) as E. injection E as E1 E2 _ _ _ _. destruct Hlt as (? & ? & ?). unfold live. by rewrite <- E1, <- E2. }
  split; [done| | | | |].
  - intros t. destruct (qt_view _ _ Hq t) as [E|[_ E]]; injection E as _ _ _ _ _ ->; [apply Hk|done].
  - intros t Hs Hc. destruct (qt_view _ _ Hq t) as [E|[Hx E]]; injection E as E1 E2 _ _ _ _.
    + rewrite E2. apply Hu; [done|]. by rewrite <- (qt_cur _ _ Hq), <- E1.
    + rewrite E1, (qt_cur _ _ Hq) in Hc. destruct Hc as [->|[|]]; done.
  - intros t Hp Hw. destruct (Ht t Hp Hw) as [Hs Ha]. split; [done|]. rewrite (qt_cur _ _ Hq).
    destruct Ha as [|Ha]; [by left|right]. pose proof (quiet_live s s' t Hq) as E. rewrite Ha in E.
    specialize (E ltac:(done)). injection E as -> _ _ _ _ _. done.
  - intros t Hlt. rewrite <- Hb by auto. apply base_tier_view. pose proof (Hv t Hlt) as E. unfold tview in E. congruence.
  - intros t Hlt. pose proof (Hv t Hlt) as E. injection E as _ _ _ -> _ _. auto.
Qed.

Lemma mutex_quiet m s s' qs qs' ws :
  mutex_ok m s qs ws -> quiet s s' -> sched_ok s' qs' -> mutex_ok m s' qs' ws.
Proof.
  intros [Hok Hl Hw Hlo] Hq Hok'. split; [done| | |done].
  - eapply llist_ext; [|exact Hl]. intros t Ht. symmetry. by apply (qt_link _ _ Hq), Hw.
  - intros t Ht. by apply (quiet_asleep s), Hw.
Qed.

Lemma mrun_quiet bt r qs ws s' qs' :
  mrun_ok bt r qs ws -> quiet (sc r) s' -> calm s' qs' -> mrun_ok bt (r <| sc := s' |>) qs' ws.
Proof.
  intros [Hm Hu Hr Hin Hwt Hwk] Hq [Hok' Hr']. pose proof (so_live _ _ (mo_sched _ _ _ _ Hm)) as Hl. split; [| | |done..].
  - by apply (mutex_quiet _ (sc r) s' qs).
  - by apply (users_quiet bt _ ws _ (sc r)).
  - unfold runs in *. cbn [sc set_field]. rewrite (qt_cur _ _ Hq). intros Hs. unfold stopped in *.
    pose proof (quiet_live (sc r) s' _ Hq Hl) as E. injection E as -> _ _ _ _ _. auto.
Qed.

(** ** Calls of the scheduler *)

(** The running thread may have stopped itself, unless it is in the loop of [mutex_lock] and
    not in the wait queue. *)
Definition may_stop (p : Z -> pc) (ws : list Z) (s : sched) : Prop :=
  slot (current_task s) -> stopped s (current_task s) ->
  state (tk s (current_task s)) = TASK_WAITING /\ (p (current_task s) = Trying -> current_task s ∈ ws).

(** A task that runs after the call and did not before was READY. *)
Lemma new_current s s' qs :
  sched_pre s qs -> switched (current_task s) qs s s' -> slot (current_task s') -> current_task s' <> current_task s ->
  state (tk s (current_task s')) = TASK_READY.
Proof.
  intros [Hq _ _] [Hc _] Hs Hne. destruct Hc as [|[Hi|(q & Hqr & Hin)]]; [done|rewrite Hi in Hs; unfold slot, IDLE in Hs; lia|].
  apply (qo_ready _ _ _ Hq q _ Hqr Hin). set_solver.
Qed.

Lemma users_schedule bt p ws h s s' qs :
  users_ok bt p ws h s -> sched_pre s qs -> may_stop p ws s -> schedule s = Some s' ->
  users_ok bt p ws h s' /\ runs s'.
Proof.
  intros [Hr Hk Hu Ht Hb Hi] Hpre Hms E.
  destruct (schedule_out s s' qs Hpre E) as (Hsw & Hsame & Hprev & Hnew). set (c := current_task s) in *.
  pose proof (same_schedule (fun k => (in_use k, rview k, (tier k, flags k, saved_tier k))) ltac:(by repeat split) s s' E) as Hf.
  assert (Hslot : slot c -> c <> IDLE) by (unfold slot, IDLE; lia).
  assert (Hx : forall t, slot t -> state (tk s t) = TASK_EXITED -> state (tk s' t) = TASK_EXITED).
  { intros t Hs Hst. destruct (decide (t = c)) as [->|Htc].
    - destruct (Hms Hs) as [Hw _]; [by left|]. fold c in Hw. by rewrite Hst in Hw.
    - destruct (decide (t = current_task s')) as [->|Htn]; [|by rewrite (sw_state _ _ _ _ Hsw)].
      by rewrite (new_current s s' qs) in Hst. }
  assert (Hlv : forall t, live s' t -> live s t).
  { intros t (Hs & Hin & Hst). specialize (Hf t). cbv beta in Hf. split; [done|]. split; [congruence|]. intros Hst'. by apply Hst, Hx. }
  split; [split|].
  - intros t. apply (rest_ok_view t (tk s t)); [|done]. specialize (Hf t). unfold rview in Hf. congruence.
  - intros t. specialize (Hf t). unfold rview in Hf. rewrite <- (Hk t). congruence.
  - intros t Hs Hc. specialize (Hf t). assert (in_use (tk s' t) = in_use (tk s t)) as -> by congruence. apply Hu; [done|]. fold c.
    destruct (decide (t = c)) as [|Htc]; [by left|]. right. destruct (decide (t = current_task s')) as [->|Htn].
    + left. by apply (new_current s s' qs).
    + rewrite <- (sw_state _ _ _ _ Hsw t Htn Htc). by destruct Hc.
  - intros t Hp Hw. destruct (Ht t Hp Hw) as [Hs Ha]. split; [done|].
    destruct (decide (t = current_task s')) as [|Htn]; [by left|right]. fold c in Ha.
    destruct (decide (t = c)) as [->|Htc].
    + rewrite Hprev by auto. rewrite decide_False; [done|]. intros Hst. apply Hw. by apply Hms.
    + rewrite (sw_state _ _ _ _ Hsw t Htn Htc). by destruct Ha.
  - intros t Hlt. rewrite <- Hb by auto. apply base_tier_view. specialize (Hf t). congruence.
  - intros t Hlt. specialize (Hf t). assert (flags (tk s' t) = flags (tk s t)) as -> by congruence. auto.
  - intros Hs Hst. destruct (decide (current_task s' = c)) as [Ec|Hne].
    + rewrite Ec in *. by apply Hsame; auto.
    + specialize (Hnew Hne). unfold stopped in Hst. rewrite Hnew in Hst. by destruct Hst.
Qed.

(** Sleeping threads stay where they are. *)
Lemma mutex_schedule m s s' qs qs' ws :
  sched_pre s qs -> llist (nx s) (waitq m) ws -> (forall t, t ∈ ws -> asleep s t) ->
  (locked m = 0 /\ holder m = 0) \/ (locked m <> 0 /\ slot (holder m) /\ holder m ∉ ws) ->
  schedule s = Some s' -> sched_ok s' qs' -> mutex_ok m s' qs' ws.
Proof.
  intros Hpre Hl Hw Hlo E Hok'. destruct (schedule_out s s' qs Hpre E) as (Hsw & _).
  assert (Hu : forall t, t ∈ ws -> unqueued qs t).
  { intros t Ht q Hqr Hin. destruct (Hw t Ht) as (_ & Hst & Hne).
    destruct (qo_ready _ _ _ (sp_queues _ _ Hpre) q t) as [H _]; auto; [set_solver|]. by rewrite Hst in H. }
  assert (Hnc : forall t, t ∈ ws -> t <> current_task s').
  { intros t Ht Ec. destruct (Hw t Ht) as (Hs & Hst & Hne). rewrite Ec in Hs, Hst, Hne.
    by rewrite (new_current s s' qs) in Hst. }
  split; [done| | |done].
  - eapply llist_ext; [|exact Hl]. intros t Ht. symmetry. apply (schedule_frame s s' qs); [done|done|by apply Hu|by apply Hw].
  - intros t Ht. destruct (Hw t Ht) as (Hs & Hst & Hne). splits; [done| |by apply Hnc].
    rewrite (sw_state _ _ _ _ Hsw); auto.
Qed.

(** The running thread sets its state and calls the scheduler. *)
Lemma mrun_resched bt r qs ws v :
  let c := current_task (sc r) in
  mrun_ok bt r qs ws -> v = TASK_READY \/ (v = TASK_WAITING /\ pc_of r c <> Trying) -> slot c ->
  exists s' qs', schedule ((sc r) <| c # state := v |>) = Some s' /\ mrun_ok bt (r <| sc := s' |>) qs' ws.
Proof.
  intros c Hok Hv Hsl. pose proof Hok as [Hm Hu Hr Hin Hwt Hwk]. pose proof (mrun_calm _ _ _ _ Hok) as Hc.
  set (s := sc r) in *. set (s1 := s <| c # state := v |>).
  assert (Hpre : sched_pre s1 qs).
  { destruct Hc as [[Hq Hvt Hl] _]. split; change (current_task s1) with c; [|done|].
    - apply queues_ok_upd; [done|left; by left|done].
    - unfold s1. rewrite tk_upd_eq. cbn [set_field state]. by destruct Hv as [-> | [-> _]]. }
  destruct (resched_calm s qs c v Hc) as (s' & qs' & E & Hc'); [done|by destruct Hv as [-> | [-> _]]|].
  fold s1 in E. exists s', qs'. split; [done|].
  assert (Hcw : c ∉ ws) by (intros Hx; by apply (mo_wait _ _ _ _ Hm c Hx)).
  assert (Hu1 : users_ok bt (pc_of r) ws (holder (mx r)) s1).
  { destruct Hu as [H1 H2 H3 H4 H5 H6]. assert (Hlv : forall t, live s1 t -> live s t).
    { intros t (Hs & Hi & Hst). unfold live, s1 in *. rewrite tk_upd in Hi, Hst. case_decide; [subst t|done].
      splits; [done|done|]. apply (so_live _ _ (ca_ok _ _ Hc)). }
    split.
    - intros t. apply (rest_ok_view t (tk s t)); [|done]. by apply (tk_upd_proj rview).
    - intros t. unfold s1. rewrite (tk_upd_proj kill_pending) by done. auto.
    - intros t Hs. unfold s1. rewrite (tk_upd_proj in_use) by done. rewrite tk_upd. case_decide; [subst t; auto|auto].
    - intros t Hp Hw. destruct (H4 t Hp Hw) as [Hs Ha]. split; [done|]. unfold s1. rewrite tk_upd. case_decide; [by left|done].
    - intros t Hlt. rewrite <- H5 by auto. apply base_tier_view. unfold s1.
      by apply (tk_upd_proj (fun k => (tier k, flags k, saved_tier k))).
    - intros t Hlt. unfold s1. rewrite (tk_upd_proj flags) by done. auto. }
  destruct (users_schedule _ _ _ _ s1 s' qs Hu1 Hpre) as [Hu' Hr']; [|done|].
  { intros _ Hst. change (current_task s1) with c in *. revert Hst. unfold stopped, s1. rewrite tk_upd_eq. cbn [set_field state].
    destruct Hv as [-> | [-> Hp]]; [by intros [|]|done]. }
  split; [|done..]. cbn [mx sc set_field]. apply (mutex_schedule _ s1 s' qs); [done| | |apply Hm|done|apply Hc'].
  - eapply llist_ext; [|apply Hm]. intros t Ht. symmetry. unfold nx, s1. by rewrite (tk_upd_proj next).
  - intros t Ht. destruct (mo_wait _ _ _ _ Hm t Ht) as (Hs & Hst & Hne). unfold asleep, s1. by rewrite tk_upd_ne.
Qed.

Lemma mrun_preempt bt r qs ws :
  mrun_ok bt r qs ws -> exists s' qs', schedule (sc r) = Some s' /\ mrun_ok bt (r <| sc := s' |>) qs' ws.
Proof.
  intros Hok. pose proof Hok as [Hm Hu Hr Hin Hwt Hwk]. destruct (mrun_calm _ _ _ _ Hok) as [Hs Hrest].
  pose proof (sched_ok_pre _ _ Hs) as Hpre.
  destruct (schedule_calm _ _ Hpre Hrest) as (s' & qs' & E & Hc'). exists s', qs'. split; [done|].
  destruct (users_schedule _ _ _ _ (sc r) s' qs Hu Hpre) as [Hu' Hr']; [|done|].
  { intros Hsl Hst. exfalso. by apply (Hr Hsl). }
  split; [|done..]. cbn [mx sc set_field]. apply (mutex_schedule _ (sc r) s' qs); [done|apply Hm|apply Hm|apply Hm|done|apply Hc'].
Qed.

(** ** The calls *)

Lemma pc_of_set r m s c x t :
  pc_of (r <| mx := m |> <| sc := s |> <| pcs := <[c := x]> (pcs r) |>) t = if decide (c = t) then x else pc_of r t.
Proof. unfold pc_of. cbn [pcs set_field]. rewrite lookup_insert. by case_decide. Qed.

Lemma runs_not_waiting m s qs ws : mutex_ok m s qs ws -> current_task s ∉ ws.
Proof. intros Hm Hx. by apply (mo_wait _ _ _ _ Hm _ Hx). Qed.

(** The lock is free: the caller holds it. *)
Lemma mrun_take bt r qs ws :
  let c := current_task (sc r) in
  mrun_ok bt r qs ws -> slot c -> locked (mx r) = 0 ->
  mrun_ok bt (r <| mx := (mx r) <| locked := 1 |> <| holder := c |> |> <| sc := sc r |> <| pcs := <[c := In]> (pcs r) |>) qs ws.
Proof.
  intros c [Hm Hu Hr Hin Hwt Hwk] Hs Hl0. pose proof (runs_not_waiting _ _ _ _ Hm) as Hcw. fold c in Hcw.
  assert (Hh0 : holder (mx r) = 0) by (by destruct (mo_lock _ _ _ _ Hm) as [[_ ?]|[? _]]).
  destruct Hm as [H1 H2 H3 _]. split.
  - split; [done..|]. right. done.
  - destruct Hu as [Hu1 Hu2 Hu3 Hu4 Hu5 Hu6]. split; [done..| |done|].
    + intros t. rewrite pc_of_set. case_decide; [done|apply Hu4].
    + intros t Hlt Hf. pose proof (Hu6 t Hlt Hf) as Et. destruct Hlt as [Hst _]. unfold slot in *. lia.
  - done.
  - intros t. rewrite pc_of_set. cbn [mx holder set_field]. case_decide as Hd; [subst t; unfold slot in *; split; [split; [done|lia]|done]|].
    rewrite Hin, Hh0. split; intros [? ?]; congruence.
  - intros t Ht. rewrite pc_of_set. rewrite decide_False; [by apply Hwt|]. by intros <-.
  - by left.
Qed.

(** The lock is held by another thread: the caller goes to the wait queue. *)
Lemma mrun_block bt r qs ws :
  let c := current_task (sc r) in
  mrun_ok bt r qs ws -> slot c -> locked (mx r) <> 0 -> pc_of r c <> In ->
  exists m' s' qs', mutex_lock_round (mx r) (sc r) = Some (false, m', s') /\
    mrun_ok bt (r <| mx := m' |> <| sc := s' |> <| pcs := <[c := Trying]> (pcs r) |>) qs' (c :: ws).
Proof.
  intros c [Hm Hu Hr Hin Hwt Hwk] Hs Hl0 Hpc.
  assert (Hne : holder (mx r) <> c).
  { intros Eh. apply Hpc, Hin. unfold slot in Hs. split; [done|lia]. }
  destruct (mutex_lock_blocks_spec (mx r) (sc r) qs ws Hm Hs Hl0 Hne)
    as (m' & s' & qs' & E & Hm' & El & Eh & s1 & qs1 & [Ec Hme Hst Hsame Hbase Hflags] & Hpre & Es).
  fold c in Ec, Hme, Hst. exists m', s', qs'. split; [done|].
  set (r' := r <| mx := m' |> <| sc := s' |> <| pcs := _ |>).
  assert (Hf : forall t, in_use (tk s1 t) = in_use (tk (sc r) t) /\ rview (tk s1 t) = rview (tk (sc r) t)).
  { intros t. exact (conj (f_equal fst (Hsame t)) (f_equal snd (Hsame t))). }
  assert (Hu1 : users_ok bt (pc_of r') (c :: ws) (holder m') s1).
  { destruct Hu as [Hu1 Hu2 Hu3 Hu4 Hu5 Hu6]. assert (Hlv : forall t, live s1 t -> live (sc r) t).
    { intros t (Ht & Hi & Hx). destruct (Hf t) as [Ef _]. rewrite Ef in Hi. unfold live. splits; [done..|].
      destruct (decide (t = c)) as [->|Htc]; [apply (so_live _ _ (mo_sched _ _ _ _ Hm))|by rewrite <- Hst]. }
    split.
    - intros t. apply (rest_ok_view t (tk (sc r) t)); [apply Hf|done].
    - intros t. destruct (Hf t) as [_ Ef]. rewrite <- (Hu2 t). unfold rview in Ef. congruence.
    - intros t Ht. rewrite Ec. destruct (Hf t) as [-> _]. intros Hcase. apply Hu3; [done|]. fold c.
      destruct (decide (t = c)) as [|Htc]; [by left|right]. rewrite <- Hst by done. by destruct Hcase.
    - intros t. unfold r'. rewrite pc_of_set. case_decide as Hd; [subst t; intros _ Hw; by destruct Hw; left|].
      intros Hp Hw. rewrite not_elem_of_cons in Hw. destruct (Hu4 t Hp) as [Ht Ha]; [tauto|]. fold c in Ha. split; [done|]. right.
      rewrite Hst by auto. destruct Ha; [congruence|done].
    - intros t Hlt. rewrite Hbase. auto.
    - intros t Hlt Hfl. rewrite Eh. destruct (decide (t = holder (mx r))); [done|]. rewrite Hflags in Hfl by done. auto. }
  destruct (users_schedule _ _ _ _ s1 s' qs1 Hu1 Hpre) as [Hu' Hr']; [|done|].
  { intros _ _. rewrite Ec. split; [done|]. intros _. by left. }
  split; [done|done|done| | |].
  - intros t. unfold r'. rewrite pc_of_set. cbn [mx set_field]. rewrite Eh. case_decide as Hd; [|apply Hin]. subst t.
    split; [done|]. by intros [-> _].
  - intros t. unfold r'. rewrite pc_of_set. intros [->|Ht]%elem_of_cons; [by rewrite decide_True|]. case_decide; [done|by apply Hwt].
  - intros _. left. change (locked m' <> 0). by rewrite El.
Qed.

Lemma mrun_unlock bt r qs ws :
  let c := current_task (sc r) in
  mrun_ok bt r qs ws -> pc_of r c = In ->
  exists m' s' qs', mutex_unlock (mx r) (sc r) = Some (m', s') /\
    mrun_ok bt (r <| mx := m' |> <| sc := s' |> <| pcs := <[c := Out]> (pcs r) |>) qs' (tail ws).
Proof.
  intros c [Hm Hu Hr Hin Hwt Hwk] Hpc. destruct (proj1 (Hin c) Hpc) as [Eh Hc0].
  destruct (mutex_unlock_spec (mx r) (sc r) qs ws Hm) as (m' & s' & qs' & E & Hm' & El & Eh' & Hwoken).
  destruct (mutex_unlock_out _ _ _ _ _ _ Hm E) as (Ec & Hst & Hsame & Hbase & Hflags & Hclear).
  pose proof (runs_not_waiting _ _ _ _ Hm) as Hcw. fold c in Hcw, Ec.
  assert (Hhead : forall t, head ws = Some t -> t ∈ ws) by (intros t; destruct ws; [done|intros [= ->]; by left]).
  exists m', s', qs'. split; [done|]. set (r' := r <| mx := m' |> <| sc := s' |> <| pcs := _ |>).
  assert (Hf : forall t, in_use (tk s' t) = in_use (tk (sc r) t) /\ rview (tk s' t) = rview (tk (sc r) t)).
  { intros t. exact (conj (f_equal fst (Hsame t)) (f_equal snd (Hsame t))). }
  split; [done| | | | |].
  - destruct Hu as [Hu1 Hu2 Hu3 Hu4 Hu5 Hu6]. assert (Hlv : forall t, live s' t -> live (sc r) t).
    { intros t (Ht & Hi & Hx). destruct (Hf t) as [Ef _]. rewrite Ef in Hi. unfold live. splits; [done..|].
      destruct (decide (head ws = Some t)) as [Hh|Hh]; [|by rewrite <- Hst].
      destruct (mo_wait _ _ _ _ Hm t) as (_ & -> & _); [auto|done]. }
    change (users_ok bt (pc_of r') (tail ws) (holder m') s'). split.
    + intros t. apply (rest_ok_view t (tk (sc r) t)); [apply Hf|done].
    + intros t. destruct (Hf t) as [_ Ef]. rewrite <- (Hu2 t). unfold rview in Ef. congruence.
    + intros t Ht Hcase. destruct (Hf t) as [-> _]. apply Hu3; [done|]. fold c. rewrite Ec in Hcase.
      destruct (decide (head ws = Some t)) as [Hh|Hh]; [|by rewrite <- Hst].
      right. right. apply (mo_wait _ _ _ _ Hm t). auto.
    + intros t. unfold r'. rewrite pc_of_set. case_decide; [done|]. intros Hp Hw. unfold awake. rewrite Ec.
      destruct (decide (head ws = Some t)) as [Hh|Hh].
      * split; [apply (mo_wait _ _ _ _ Hm t); auto|]. right. by apply Hwoken.
      * rewrite Hst by done. apply Hu4; [done|]. destruct ws as [|w ws]; [done|]. cbn in *. rewrite not_elem_of_cons. split; congruence.
    + intros t Hlt. rewrite Hbase. auto.
    + intros t Hlt Hfl. exfalso. destruct (decide (t = holder (mx r))) as [->|Hth].
      * rewrite Hclear in Hfl by (by rewrite <- Eh). done.
      * rewrite Hflags in Hfl by done. by apply Hth, Hu6; [apply Hlv|].
  - unfold runs, stopped in *. change (sc r') with s'. rewrite Ec. intros Hs. rewrite Hst; [by apply Hr|].
    intros Hh. apply Hcw. auto.
  - intros t. unfold r'. rewrite pc_of_set. cbn [mx set_field]. rewrite Eh'. case_decide as Hd; [subst t; split; [done|intros [? ?]; congruence]|].
    rewrite Hin. split; intros [? ?]; congruence.
  - intros t Ht. unfold r'. rewrite pc_of_set. assert (Ht' : t ∈ ws) by (destruct ws; [done|by right]).
    rewrite decide_False; [by apply Hwt|]. by intros <-.
  - intros Hne. right. destruct ws as [|w ws]; [done|]. cbn [tail] in *. exists w. unfold r'. rewrite pc_of_set.
    rewrite decide_False by (intros <-; apply Hcw; by left). split; [apply Hwt; by left|].
    pose proof (llist_NoDup _ _ _ (mo_list _ _ _ _ Hm)) as Hnd. by apply NoDup_cons in Hnd as [? _].
Qed.

(** A failed [mutex_trylock] changes nothing. *)
Lemma mrun_skip bt r qs ws c :
  mrun_ok bt r qs ws -> mrun_ok bt (r <| mx := mx r |> <| pcs := <[c := pc_of r c]> (pcs r) |>) qs ws.
Proof.
  intros [Hm [H1 H2 H3 H4 H5 H6] Hr Hin Hwt Hwk]. set (r' := r <| mx := mx r |> <| pcs := _ |>).
  assert (Hp : forall t, pc_of r' t = pc_of r t).
  { intros t. unfold r'. change (r <| mx := mx r |> <| pcs := <[c := pc_of r c]> (pcs r) |>)
      with (r <| mx := mx r |> <| sc := sc r |> <| pcs := <[c := pc_of r c]> (pcs r) |>). rewrite pc_of_set. by case_decide; subst. }
  split; [done|split; try done; intros t; rewrite Hp; auto|done| | |].
  - intros t. rewrite Hp. apply Hin.
  - intros t Ht. rewrite Hp. auto.
  - intros Hne. destruct (Hwk Hne) as [|(t & Ht)]; [by left|right]. exists t. by rewrite Hp.
Qed.

(** ** Sequences of events *)

(** A step that keeps the invariant for some wait queue. *)
Definition good (bt : Z -> Z) (or : option mrun) : Prop := exists r qs ws, or = Some r /\ mrun_ok bt r qs ws.

Lemma good_intro bt r qs ws : mrun_ok bt r qs ws -> good bt (Some r).
Proof. intros Hr. by exists r, qs, ws. Qed.
#[local] Hint Resolve good_intro : core.

(** The next round of [mutex_lock]. *)
Lemma lock_round_ok bt r qs ws :
  let c := current_task (sc r) in
  mrun_ok bt r qs ws -> slot c -> pc_of r c <> In ->
  good bt ('(got, m, s) ← mutex_lock_round (mx r) (sc r);
    Some (r <| mx := m |> <| sc := s |> <| pcs := <[c := if (got : bool) then In else Trying]> (pcs r) |>)).
Proof.
  intros c Hok Hs Hpc. assert (Hc0 : c <> 0) by (unfold slot in Hs; lia).
  destruct (decide (locked (mx r) = 0)) as [Hl|Hl].
  - unfold mutex_lock_round. fold c. rewrite Hl. destruct (Z.eqb_spec c 0); [done|]. cbn [Z.eqb mbind option_bind].
    eapply good_intro. by apply (mrun_take bt r qs ws).
  - destruct (mrun_block bt r qs ws Hok Hs Hl) as (m' & s' & qs' & E & Hok'); [done|].
    rewrite E. cbn [mbind option_bind]. by eapply good_intro.
Qed.

Lemma yield_event_ok bt r qs ws :
  mrun_ok bt r qs ws -> slot (current_task (sc r)) -> pc_of r (current_task (sc r)) <> Trying ->
  good bt (s ← yield (sc r); Some (r <| sc := s |>)).
Proof.
  intros Hok Hs Hpc.
  destruct (yield_quiet (sc r) qs (mrun_calm _ _ _ _ Hok)) as (s1 & qs1 & s' & -> & Hc1 & Hq & E).
  pose proof (mrun_quiet _ _ _ _ _ _ Hok Hq Hc1) as Hok1. cbn [mbind option_bind].
  destruct (mrun_resched bt (r <| sc := s1 |>) qs1 ws TASK_READY Hok1) as (s2 & qs2 & E2 & Hok2);
    [by left|change (slot (current_task s1)); by rewrite (qt_cur _ _ Hq)|].
  change (sc (r <| sc := s1 |>)) with s1 in E2. rewrite (qt_cur _ _ Hq) in E2.
  assert (s2 = s') as -> by congruence. by eapply good_intro.
Qed.

Lemma try_event_ok bt r qs ws :
  let c := current_task (sc r) in
  mrun_ok bt r qs ws -> slot c ->
  good bt (let '(got, m) := mutex_trylock (mx r) (sc r) in
           Some (r <| mx := m |> <| pcs := <[c := if got =? 0 then pc_of r c else In]> (pcs r) |>)).
Proof.
  intros c Hok Hs. unfold mutex_trylock. fold c.
  destruct (Z.eqb_spec (locked (mx r)) 0) as [Hl|Hl]; cbn [negb Z.eqb]; eapply good_intro.
  - exact (mrun_take bt r qs ws Hok Hs Hl).
  - by apply mrun_skip.
Qed.

Lemma thread_event_ok bt ev r qs ws :
  mrun_ok bt r qs ws -> slot (current_task (sc r)) -> fits ev r = true -> good bt (thread_event ev r).
Proof.
  intros Hok Hs. unfold thread_event, fits. set (c := current_task (sc r)) in *.
  pose proof (lock_round_ok bt r qs ws Hok Hs) as Hlock. pose proof (try_event_ok bt r qs ws Hok Hs) as Htry.
  pose proof (yield_event_ok bt r qs ws Hok Hs) as Hyield. fold c in Hlock, Htry, Hyield.
  destruct (pc_of r c) eqn:Hpc, ev; intros Hfit; try discriminate Hfit; try (by eapply good_intro); auto.
  1,2: destruct (mrun_resched bt r qs ws TASK_WAITING Hok) as (s' & qs' & E & Hok'); [right; fold c; by rewrite Hpc|done|];
    fold c in E; rewrite E; cbn [mbind option_bind]; by eapply good_intro.
  destruct (mrun_unlock bt r qs ws Hok Hpc) as (m' & s' & qs' & E & Hok').
  rewrite E. cbn [mbind option_bind]. by eapply good_intro.
Qed.

Section RunsOk.
Context {W : Type} `{ExitServices W} (page_directory : Z).

Lemma run_mevent_ok bt ev r (w : W) qs ws :
  mrun_ok bt r qs ws -> (current_task (sc r) =? IDLE) || fits ev r = true ->
  exists r' w' qs' ws', run_mevent page_directory (r, w) ev = Some (r', w') /\ mrun_ok bt r' qs' ws'.
Proof.
  intros Hok Hfit. destruct (decide (ev = MTick)) as [->|Hev].
  - cbn [run_mevent]. pose proof (us_kill _ _ _ _ _ (mr_users _ _ _ _ Hok)) as Hk.
    destruct (pit_handler_quiet page_directory (wdg r) (sc r) qs w (mrun_calm _ _ _ _ Hok) (Hk _))
      as (wd' & s1 & qs1 & s' & -> & Hc1 & Hq & E). cbn [mbind option_bind].
    destruct (mrun_preempt bt _ _ _ (mrun_quiet _ _ _ _ _ _ Hok Hq Hc1)) as (s2 & qs2 & E2 & Hok2).
    change (sc (r <| sc := s1 |>)) with s1 in E2. assert (s2 = s') as -> by congruence.
    eexists _, w, qs2, ws. split; [done|]. destruct Hok2 as [G1 G2 G3 G4 G5 G6]. by split.
  - assert (run_mevent page_directory (r, w) ev =
      if current_task (sc r) =? IDLE then Some (r, w) else r ← thread_event ev r; Some (r, w)) as -> by (by destruct ev).
    destruct (Z.eqb_spec (current_task (sc r)) IDLE) as [|Hi]; [by exists r, w, qs, ws|].
    destruct (thread_event_ok bt ev r qs ws Hok) as (r' & qs' & ws' & -> & Hok'); [|done|by exists r', w, qs', ws'].
    pose proof (so_cur _ _ (mo_sched _ _ _ _ (mr_mutex _ _ _ _ Hok))) as Hv. unfold slot, valid_task, IDLE in *. lia.
Qed.

Lemma run_mevents_ok bt evs r (w : W) qs ws :
  mrun_ok bt r qs ws -> disciplined page_directory evs (r, w) = true ->
  exists r' w' qs' ws', run_mevents page_directory evs (r, w) = Some (r', w') /\ mrun_ok bt r' qs' ws'.
Proof.
  revert r w qs ws. induction evs as [|ev evs IH]; intros r w qs ws Hok; [by exists r, w, qs, ws|].
  cbn [disciplined fst]. intros [Hfit Hd]%andb_prop.
  destruct (run_mevent_ok bt ev r w qs ws Hok Hfit) as (r1 & w1 & qs1 & ws1 & E & Hok1). rewrite E in Hd.
  destruct (IH r1 w1 qs1 ws1 Hok1 Hd) as (r2 & w2 & qs2 & ws2 & E2 & Hok2). exists r2, w2, qs2, ws2.
  split; [|done]. unfold run_mevents in *. cbn [foldl mbind option_bind]. by rewrite E.
Qed.
End RunsOk.

(** A kernel state before anybody uses the mutex. *)
Record fresh (s : sched) (qs : Z -> list Z) : Prop := {
  fr_calm : calm s qs;
  fr_kill t : kill_pending (tk s t) = 0;
  fr_used t : slot t -> t = current_task s \/ state (tk s t) = TASK_READY \/ state (tk s t) = TASK_WAITING ->
    in_use (tk s t) <> 0;
  fr_tier t : tst (flags (tk s t)) TASK_INHERITED = false;
  fr_runs : runs s;
}.

Lemma fresh_ok name fl m wd s qs :
  fresh s qs -> mrun_ok (fun t => tier (tk s t)) (mk_mrun (mutex_init name fl m) s wd ∅) qs [].
Proof.
  intros [Hc Hk Hu Hf Hr]. assert (Hp : forall t, pc_of (mk_mrun (mutex_init name fl m) s wd ∅) t = Out) by (intros t; done).
  split.
  - split; [apply Hc|done|intros t Ht; inv Ht|by left].
  - split; [apply Hc|done..| | |].
    + intros t Ht. by rewrite Hp in Ht.
    + intros t _. unfold base_tier. by rewrite Hf.
    + intros t _ Ht. by rewrite Hf in Ht.
  - done.
  - intros t. rewrite Hp. cbn. split; [done|]. by intros [-> ?].
  - intros t Ht. inv Ht.
  - done.
Qed.


Lemma demo_fresh : fresh (demo 0) demo_qs.
Proof.
  assert (Hd : forall (P : task -> Prop), P zero_task -> P (tk (demo 0) 1) -> P (tk (demo 0) 2) -> P (tk (demo 0) 3) ->
    forall t, P (tk (demo 0) t)).
  { intros P H0 H1 H2 H3 t. destruct (decide (t = 1)) as [->|]; [done|]. destruct (decide (t = 2)) as [->|]; [done|].
    destruct (decide (t = 3)) as [->|]; [done|]. unfold tk, demo, demo_sched. cbn [tasks].
    destruct (decide (t = IDLE)) as [->|]; [done|]. simpl. by rewrite !lookup_insert_ne by done. }
  split.
  - apply demo_calm.
  - by apply (Hd (fun k => kill_pending k = 0)).
  - intros t _ [->|Ht]; [done|]. revert Ht.
    apply (Hd (fun k => state k = TASK_READY \/ state k = TASK_WAITING -> in_use k <> 0)); try done. by intros [|].
  - by apply (Hd (fun k => tst (flags k) TASK_INHERITED = false)).
  - intros _ [|]; done.
Qed.


(** ** Undisciplined use *)

(** [mutex_unlock] does not compare the caller with the holder: a thread that unlocks what
    another one holds lets a third call in, and two threads are between a lock and its unlock. *)
Theorem foreign_unlock_breaks_exclusion :
  fresh (demo 0) demo_qs /\
  exists r, run_mevents 0 [MLock; MYield; MUnlock; MLock]
      (mk_mrun (mutex_init [] 0 demo_mutex) (demo 0) (mk_wdog [] 0) ∅, tt) = Some (r, tt) /\
    pc_of r 1 = In /\ pc_of r 2 = In.
Proof.
  split; [exact demo_fresh|]. set (o := run_mevents 0 _ _).
  assert (Ho : option_map (fun x => (pc_of x.1 1, pc_of x.1 2)) o = Some (In, In)) by (by vm_compute).
  destruct o as [[r []]|]; [|done]. exists r. split; [done|]. cbn in Ho. by injection Ho.
Qed.

(** [mutex_lock] by the holder waits for itself: it sleeps in the wait queue of the mutex it
    holds. *)
Theorem relock_deadlocks :
  exists r, run_mevents 0 [MLock; MLock]
      (mk_mrun (mutex_init [] 0 demo_mutex) (demo 0) (mk_wdog [] 0) ∅, tt) = Some (r, tt) /\
    holder (mx r) = 1 /\ waitq (mx r) = 1 /\ state (tk (sc r) 1) = TASK_WAITING.
Proof.
  set (o := run_mevents 0 _ _).
  assert (Ho : option_map (fun x => (holder (mx x.1), waitq (mx x.1), state (tk (sc x.1) 1))) o = Some (1, 1, TASK_WAITING))
    by (by vm_compute).
  destruct o as [[r []]|]; [|done]. exists r. split; [done|]. cbn in Ho. by injection Ho.
Qed.

(** ** Two weaknesses *)

(** Task 1 (USER) runs and is a child of task 3; task 2 (SYSTEM) and task 3 (USER) are READY. *)
Definition inv_demo : sched :=
  demo_sched [(1, (demo_task TASK_RUNNING 0 2 0 3 0) <| parent := 3 |>);
              (2, (demo_task TASK_READY 0 1 0 3 0) <| tier := TIER_SYSTEM |>);
              (3, demo_task TASK_READY 0 2 0 3 0)] [(1, 2); (2, 3)] [(1, 2); (2, 3)].
Definition inv_qs : Z -> list Z := qset (qset (fun _ => []) 1 [2]) 2 [3].
Definition inv_run : mrun := mk_mrun (mutex_init [] LOCK_FLAG_INHERIT demo_mutex) inv_demo (mk_wdog [] 0) ∅.

(** Task 1 locks, task 2 waits and lends it its tier, task 3 waits too. *)
Definition inv_events : list mevent := [MLock; MYield; MLock; MYield; MYield; MLock].

(** The wait queue is last in, first out, and inheritance looks at the holder only when a
    thread begins to wait: after an unlock the USER thread that came last holds the mutex with its
    own tier while the SYSTEM thread still waits for it. *)
Theorem handover_drops_inheritance :
  calm inv_demo inv_qs /\
  exists r, run_mevents 0 (inv_events ++ [MUnlock; MSleep; MLock]) (inv_run, tt) = Some (r, tt) /\
    holder (mx r) = 3 /\ waitq (mx r) = 2 /\
    tier (tk (sc r) 3) = TIER_USER /\ tier (tk (sc r) 2) = TIER_SYSTEM /\ state (tk (sc r) 2) = TASK_WAITING.
Proof.
  split; [by apply Check.calmb_sound|]. set (o := run_mevents 0 _ _).
  assert (Ho : option_map (fun x => (holder (mx x.1), waitq (mx x.1), tier (tk (sc x.1) 3), tier (tk (sc x.1) 2), state (tk (sc x.1) 2))) o
    = Some (3, 2, TIER_USER, TIER_SYSTEM, TASK_WAITING)) by (by vm_compute).
  destruct o as [[r []]|]; [|done]. exists r. split; [done|]. cbn in Ho. injection Ho as -> -> -> -> ->. done.
Qed.

(** A task that exits wakes its parent whatever it waits for: a parent that waits in
    [mutex_lock] gets into a run queue with the link that held the rest of the wait queue, and
    the threads behind it are in no queue any more. *)
Theorem exit_breaks_wait_queue :
  exists r s', run_mevents 0 inv_events (inv_run, tt) = Some (r, tt) /\
    llist (nx (sc r)) (waitq (mx r)) [3; 2] /\ current_task (sc r) = 1 /\
    task_exit 0 0 (sc r, tt) = Some (s', tt) /\
    state (tk s' 3) <> TASK_WAITING /\ nx s' (waitq (mx r)) = 0 /\ state (tk s' 2) = TASK_WAITING.
Proof.
  set (o := run_mevents 0 _ _).
  assert (Ho : option_map (fun x => (waitq (mx x.1), nx (sc x.1) 3, nx (sc x.1) 2, current_task (sc x.1),
      option_map (fun y => (state (tk y.1 3), nx y.1 3, state (tk y.1 2))) (task_exit 0 0 (sc x.1, tt)))) o
    = Some (3, 2, 0, 1, Some (TASK_RUNNING, 0, TASK_WAITING))) by (by vm_compute).
  destruct o as [[r []]|]; [|done]. cbn [option_map fst] in Ho.
  destruct (task_exit 0 0 (sc r, tt)) as [[s' []]|] eqn:E; [|discriminate Ho]. cbn [option_map fst] in Ho.
  injection Ho as E1 E2 E3 E4 E6 E7 E8. exists r, s'. rewrite E1. splits; [reflexivity| |exact E4|exact E|by rewrite E6|exact E7|exact E8].
  cbn. by rewrite E2, E3.
Qed.
