(* ===== verification/Paging.v ===== *)
(** * Physical frames and page tables (src/kernel/paging.c, parts of src/vm/vm.c)

    Physical memory is word addressed.  The code reaches the page tables through the
    recursive mapping in slot 1023 of the page directory; the model does the same: every
    access goes through [translate], the two-level walk of the MMU from CR3, and an access to
    an address that is not mapped is [None] (a page fault in the kernel).  The queue of free
    frames is a list of frame numbers, [TAILQ_FIRST] being its head. *)

From S2P Require Import Prelude LList Heap Task.

Definition PTE_PRESENT : Z := 0x001.
Definition PTE_RW : Z := 0x002.
Definition PTE_USER : Z := 0x004.
Definition NUM_PAGES : Z := 64 * 1024 * 1024 / PAGE_SIZE.
Definition PAGE_START_INDEX : Z := 1024.
Definition PG_BUSY : Z := 0x01.
Definition PG_FREE : Z := 0x02.
Definition FREE_PAGES_CRITICAL : Z := 64.
Definition FREE_PAGES_WARN : Z := 128.
Definition FRAME_MASK : Z := 0xFFFFF000.

(** [vm_page_array] (its [ref_count] and [flags]; [phys_addr] of entry [i] is [i * 4096]),
    the free queue, physical memory and [pressure_triggered]. *)
Record paging := mk_paging {
  pmem : gmap Z Z;
  freeq : list Z;
  ref_count : gmap Z Z;
  pg_flags : gmap Z Z;
  pressure_triggered : Z;
}.

#[export] Instance eta_paging : Eta paging := fun p => mk_paging
  (pmem p) (freeq p) (ref_count p) (pg_flags p) (pressure_triggered p).

(** ** Frames *)

Definition alloc_phys_page (p : paging) : Z * paging :=
  match freeq p with
  | [] => (0, p)
  | i :: q =>
      let p := p <| freeq := q |> in
      let p := p <| pg_flags := wr (pg_flags p) i (Z.ldiff (rd (pg_flags p) i) PG_FREE) |> in
      (i * PAGE_SIZE, p)
  end.

Definition free_phys_page (phys_addr : Z) (p : paging) : paging :=
  let idx := Z.shiftr phys_addr 12 in
  if (PAGE_START_INDEX <=? idx) && (idx <? NUM_PAGES) then
    let p := p <| pg_flags := wr (pg_flags p) idx (Z.lor (rd (pg_flags p) idx) PG_FREE) |> in
    p <| freeq := idx :: freeq p |>
  else p.

Definition free_pages_count (p : paging) : Z := Z.of_nat (length (freeq p)).

(** Out of frames: the running USER task becomes CRITICAL. *)
Definition vm_handle_pressure (st : paging * sched) : paging * sched :=
  let '(p, s) := st in
  let current := current_task s in
  if current =? 0 then (p, s)
  else
    let free := free_pages_count p in
    if (free <? FREE_PAGES_CRITICAL) && (tier (tk s current) =? TIER_USER) then
      (p <| pressure_triggered := 1 |>, s <| current # tier := TIER_CRITICAL |>)
    else (p, s).

Definition vm_release_pressure (st : paging * sched) : paging * sched :=
  let '(p, s) := st in
  let current := current_task s in
  if current =? 0 then (p, s)
  else
    let free := free_pages_count p in
    if negb (pressure_triggered p =? 0) && (tier (tk s current) =? TIER_CRITICAL)
       && (FREE_PAGES_WARN <=? free) then
      (p <| pressure_triggered := 0 |>, s <| current # tier := TIER_USER |>)
    else (p, s).

Definition set_ref (phys v : Z) (p : paging) : paging :=
  let idx := Z.shiftr phys 12 in
  if idx <? NUM_PAGES then p <| ref_count := wr (ref_count p) idx v |> else p.

Definition alloc_page_frame (st : paging * sched) : Z * (paging * sched) :=
  let '(p, s) := st in
  let '(phys, p) := alloc_phys_page p in
  if negb (phys =? 0) then (phys, (set_ref phys 1 p, s))
  else
    let '(p, s) := vm_handle_pressure (p, s) in
    let '(phys, p) := alloc_phys_page p in
    if negb (phys =? 0) then (phys, (set_ref phys 1 p, s)) else (0, (p, s)).

Definition free_page_frame (phys : Z) (p : paging) : paging :=
  let idx := Z.shiftr phys 12 in
  if idx <? NUM_PAGES then
    let p := if 0 <? rd (ref_count p) idx
             then p <| ref_count := wr (ref_count p) idx (rd (ref_count p) idx - 1) |> else p in
    if 0 <? rd (ref_count p) idx then p else free_phys_page phys p
  else free_phys_page phys p.

(** ** The MMU *)

Definition pd_index (v : Z) : Z := Z.shiftr v 22.
Definition pt_index (v : Z) : Z := Z.land (Z.shiftr v 12) 0x3FF.

Definition translate (cr3 : Z) (m : gmap Z Z) (v : Z) : option Z :=
  let pde := rd m (cr3 + 4 * pd_index v) in
  if tst pde PTE_PRESENT then
    let pte := rd m (Z.land pde FRAME_MASK + 4 * pt_index v) in
    if tst pte PTE_PRESENT then Some (Z.land pte FRAME_MASK + Z.land v 0xFFF) else None
  else None.

(** Loads and stores of words through virtual addresses. *)
Definition vload (cr3 : Z) (p : paging) (v : Z) : option Z :=
  a ← translate cr3 (pmem p) v; Some (rd (pmem p) a).
Definition vstore (cr3 : Z) (v w : Z) (p : paging) : option paging :=
  a ← translate cr3 (pmem p) v; Some (p <| pmem := wr (pmem p) a w |>).

(** The addresses of [pd[i]] and [pt[j]], [pd] being at 0xFFFFF000 and [pt] at
    [0xFFC00000 + (i << 12)]. *)
Definition pd_slot (i : Z) : Z := 0xFFFFF000 + 4 * i.
Definition pt_slot (i j : Z) : Z := 0xFFC00000 + Z.shiftl i 12 + 4 * j.

(** [for (k = 0; k < n; k++) f(k)] *)
Fixpoint for_loop {A} (n : nat) (k : Z) (f : Z -> A -> option A) (a : A) : option A :=
  match n with
  | O => Some a
  | S n' => a ← f k a; for_loop n' (k + 1) f a
  end.

(** ** Mappings *)

(** The page-table entry of [virt] is set; [Some (false, _)]: the early return when there is
    no frame for a page table. *)
Definition ensure_pt (cr3 pd_idx : Z) (p : paging) : option (bool * paging) :=
  pde ← vload cr3 p (pd_slot pd_idx);
  if negb (tst pde PTE_PRESENT) then
    let '(pt_phys, p) := alloc_phys_page p in
    if pt_phys =? 0 then Some (false, p)
    else
      p ← vstore cr3 (pd_slot pd_idx)
            (Z.lor (Z.lor (Z.lor pt_phys PTE_PRESENT) PTE_RW) PTE_USER) p;
      p ← for_loop 1024 0 (fun i p => vstore cr3 (pt_slot pd_idx i) 0 p) p;
      Some (true, p)
  else Some (true, p).

Definition map_page (cr3 virt phys flags : Z) (p : paging) : option paging :=
  let pd_idx := pd_index virt in
  let pt_idx := pt_index virt in
  '(ok, p) ← ensure_pt cr3 pd_idx p;
  if negb ok then Some p
  else vstore cr3 (pt_slot pd_idx pt_idx) (Z.lor phys (Z.land flags 0xFFF)) p.

Definition page_present (cr3 virt : Z) (p : paging) : option Z :=
  let pd_idx := pd_index virt in
  let pt_idx := pt_index virt in
  pde ← vload cr3 p (pd_slot pd_idx);
  if negb (tst pde PTE_PRESENT) then Some 0
  else
    pte ← vload cr3 p (pt_slot pd_idx pt_idx);
    Some (if tst pte PTE_PRESENT then 1 else 0).

Definition unmap_page (cr3 virt : Z) (p : paging) : option paging :=
  let pd_idx := pd_index virt in
  let pt_idx := pt_index virt in
  pde ← vload cr3 p (pd_slot pd_idx);
  if negb (tst pde PTE_PRESENT) then Some p
  else vstore cr3 (pt_slot pd_idx pt_idx) 0 p.

(** A page directory for a new task, filled through a window at 0xE0002000. *)
Definition TASK_PD_WINDOW : Z := 0xE0002000.
Definition paging_create_task_pd (st : paging * sched) : option (Z * (paging * sched)) :=
  let '(pd_phys, (p, s)) := alloc_page_frame st in
  if pd_phys =? 0 then Some (0, (p, s))
  else
    let cr3 := cpu_cr3 s in
    p ← map_page cr3 TASK_PD_WINDOW pd_phys (Z.lor PTE_PRESENT PTE_RW) p;
    p ← for_loop 1024 0 (fun i p =>
          if (i =? 0) || (768 <=? i) then
            w ← vload cr3 p (pd_slot i); vstore cr3 (TASK_PD_WINDOW + 4 * i) w p
          else vstore cr3 (TASK_PD_WINDOW + 4 * i) 0 p) p;
    p ← vstore cr3 (TASK_PD_WINDOW + 4 * 1023) (Z.lor (Z.lor pd_phys PTE_PRESENT) PTE_RW) p;
    p ← unmap_page cr3 TASK_PD_WINDOW p;
    Some (pd_phys, (p, s)).

(** Copy a frame through two windows. *)
Definition vm_copy_phys (cr3 old_phys new_phys : Z) (p : paging) : option paging :=
  p ← map_page cr3 0xE0000000 old_phys (Z.lor PTE_PRESENT PTE_RW) p;
  p ← map_page cr3 0xE0001000 new_phys (Z.lor PTE_PRESENT PTE_RW) p;
  p ← for_loop 1024 0 (fun i p =>
        w ← vload cr3 p (0xE0000000 + 4 * i); vstore cr3 (0xE0001000 + 4 * i) w p) p;
  p ← unmap_page cr3 0xE0000000 p;
  unmap_page cr3 0xE0001000 p.

(** [vm_fault_cow] for a task that has a [vm_map]. *)
Definition vm_fault_cow (vaddr : Z) (st : paging * sched) : option (Z * (paging * sched)) :=
  let '(p, s) := st in
  let cr3 := cpu_cr3 s in
  let pd_idx := pd_index vaddr in
  let pt_idx := pt_index vaddr in
  pde ← vload cr3 p (pd_slot pd_idx);
  if negb (tst pde PTE_PRESENT) then Some (-1, (p, s))
  else
    pte ← vload cr3 p (pt_slot pd_idx pt_idx);
    if negb (tst pte PTE_PRESENT) then Some (-1, (p, s))
    else if negb (tst pte PTE_USER) then Some (-1, (p, s))
    else if tst pte PTE_RW then Some (0, (p, s))
    else
      let old_phys := Z.land pte FRAME_MASK in
      if rd (ref_count p) (Z.shiftr old_phys 12) =? 1 then
        w ← vload cr3 p (pt_slot pd_idx pt_idx);
        p ← vstore cr3 (pt_slot pd_idx pt_idx) (Z.lor w PTE_RW) p;
        Some (0, (p, s))
      else
        let '(new_phys, (p, s)) := alloc_page_frame (p, s) in
        if new_phys =? 0 then Some (-1, (p, s))
        else
          p ← vm_copy_phys cr3 old_phys new_phys p;
          let p := free_page_frame old_phys p in
          p ← vstore cr3 (pt_slot pd_idx pt_idx)
                (Z.lor (Z.lor new_phys (Z.land pte 0xFFF)) PTE_RW) p;
          Some (0, (p, s)).

(** [has_map]: the task's [map] is not NULL. *)
Definition vm_fault (has_map : bool) (vaddr error_code : Z) (st : paging * sched)
    : option (Z * (paging * sched)) :=
  if has_map && tst error_code 4 && tst error_code 1 && tst error_code 2
  then vm_fault_cow vaddr st else Some (-1, st).

(** ** The passes over the user part of the page tables (slots 1 to 767) *)

(** [for (i = 1; i < 768; i++) { if (!(pd[i] & 1)) continue; for (j ...) f(i, j, pt[j]); }] *)
Definition for_user_ptes {A} (cr3 : Z) (get : A -> paging) (f : Z -> Z -> Z -> A -> option A) (a : A) : option A :=
  for_loop 767 1 (fun i a =>
    pde ← vload cr3 (get a) (pd_slot i);
    if negb (tst pde PTE_PRESENT) then Some a
    else for_loop 1024 0 (fun j a => pte ← vload cr3 (get a) (pt_slot i j); f i j pte a) a) a.

Definition count_user_pages (cr3 : Z) (p : paging) : option Z :=
  r ← for_user_ptes cr3 fst (fun _ _ pte '(p, n) =>
        Some (p, if tst pte PTE_PRESENT then n +w 1 else n)) (p, 0);
  Some (snd r).

Definition vm_protect_readonly (cr3 : Z) (p : paging) : option paging :=
  for_user_ptes cr3 id (fun i j pte p =>
    if negb (tst pte PTE_PRESENT) || negb (tst pte PTE_USER) then Some p
    else
      p ← vstore cr3 (pt_slot i j) (Z.ldiff pte PTE_RW) p;
      w ← vload cr3 p (pt_slot i j);
      Some (p <| ref_count := wr (ref_count p) (Z.shiftr (Z.land w FRAME_MASK) 12) 1 |>)) p.

(** The frames that [teardown_current_pd] (src/kernel/process.c) releases, before it loads
    the new CR3. *)
Definition teardown_current_pd (cr3 pd_phys : Z) (p : paging) : option paging :=
  p ← for_loop 767 1 (fun i p =>
        pde ← vload cr3 p (pd_slot i);
        if negb (tst pde PTE_PRESENT) then Some p
        else
          p ← for_loop 1024 0 (fun j p =>
                pte ← vload cr3 p (pt_slot i j);
                Some (if tst pte PTE_PRESENT then free_page_frame (Z.land pte FRAME_MASK) p else p)) p;
          let p := free_page_frame (Z.land pde FRAME_MASK) p in
          vstore cr3 (pd_slot i) 0 p) p;
  Some (free_page_frame pd_phys p).

(** The queue that [paging_init] builds. *)
Definition init_freeq : list Z := seqZ PAGE_START_INDEX (NUM_PAGES - PAGE_START_INDEX).

(** [for (k = 0; k < n; k++) a[k] = f(k)] on an array of words at address [a]. *)
Definition fill (a : Z) (n : Z) (f : Z -> Z) (m : gmap Z Z) : gmap Z Z :=
  foldl (fun m k => wr m (a + 4 * k) (f k)) m (seqZ 0 n).

(** [paging_init]: [pd], [pt0] and [physmap] are the addresses of the static tables
    [page_directory], [page_table_0] and [page_table_physmap].  Paging is off until the end,
    so the stores are to physical addresses.  Returns the first free address. *)
Definition paging_init (pd pt0 physmap mem_start : Z) (p : paging) : Z * paging :=
  let m := pmem p in
  let m := fill pd 1024 (fun _ => 0) m in
  let m := fill pt0 1024 (fun _ => 0) m in
  let m := fill pt0 1024 (fun i => Z.lor (Z.lor (i * PAGE_SIZE) PTE_PRESENT) PTE_RW) m in
  let refs := foldl (fun r i => wr r i 0) (ref_count p) (seqZ 0 NUM_PAGES) in
  let fl := foldl (fun r i => wr r i PG_FREE) (pg_flags p) (seqZ 0 NUM_PAGES) in
  let m := wr m pd (Z.lor (Z.lor pt0 PTE_PRESENT) PTE_RW) in
  let m := wr m (pd + 4 * 1023) (Z.lor (Z.lor pd PTE_PRESENT) PTE_RW) in
  let m := foldl (fun m i =>
    let m := wr m (pd + 4 * (768 + i)) (Z.lor (Z.lor (physmap + 4096 * i) PTE_PRESENT) PTE_RW) in
    fill (physmap + 4096 * i) 1024 (fun j => Z.lor (Z.lor ((i * 1024 + j) * PAGE_SIZE) PTE_PRESENT) PTE_RW) m)
    m (seqZ 0 16) in
  (PAGE_SIZE * (wrap32 (mem_start + PAGE_SIZE - 1) / PAGE_SIZE),
   mk_paging m init_freeq refs fl (pressure_triggered p)).
