(* ===== verification/PagingInv.v ===== *)
(** * Page tables: the recursive window and the invariant of the translation

    [pt_wf cr3 m]: slot 1023 of the directory at [cr3] is the directory itself, and the page
    tables of the other slots are different frames. *)

From S2P Require Import Prelude LList Heap Task Paging.

(** ** Entries *)

(** A table entry: frame address and low bits. *)
Definition frame_addr (f : Z) : Prop := f mod 4096 = 0 /\ 0 <= f < 2 ^ 32.
Definition entry (f fl : Z) : Z := f + fl.

Lemma land_low_high x y n : 0 <= n -> 0 <= y < 2 ^ n -> Z.land (x * 2 ^ n) y = 0.
Proof.
  intros Hn Hy. apply Z.bits_inj'. intros i Hi. rewrite Z.land_spec, Z.bits_0.
  destruct (Z.ltb_spec i n).
  - rewrite Z.mul_pow2_bits_low by lia. done.
  - replace y with (y mod 2 ^ n) by (by rewrite Z.mod_small). rewrite Z.mod_pow2_bits_high by lia. by rewrite andb_false_r.
Qed.

Lemma frame_split f : frame_addr f -> exists k, f = k * 2 ^ 12 /\ 0 <= k < 2 ^ 20.
Proof. intros [Hm Hr]. exists (f / 4096). change (2 ^ 12) with 4096. zmod. Qed.

Lemma entry_lor f fl : frame_addr f -> 0 <= fl < 4096 -> Z.lor f fl = entry f fl.
Proof. intros (k & -> & _)%frame_split Hf. unfold entry. apply lor_add. by apply (land_low_high k fl 12). Qed.

Lemma entry_frame f fl : frame_addr f -> 0 <= fl < 4096 -> Z.land (entry f fl) FRAME_MASK = f.
Proof.
  intros Hf Hfl. rewrite <- entry_lor by done. destruct (frame_split f Hf) as (k & -> & Hk).
  rewrite Z.land_lor_distr_l. replace (Z.land fl FRAME_MASK) with 0.
  2: { symmetry. rewrite Z.land_comm. apply (land_low_high 0xFFFFF fl 12); lia. }
  rewrite Z.lor_0_r. change FRAME_MASK with (Z.ones 20 * 2 ^ 12). rewrite <- !Z.shiftl_mul_pow2 by lia.
  rewrite <- Z.shiftl_land, Z.land_ones by lia. by rewrite Z.mod_small.
Qed.

Lemma entry_tst f fl b : frame_addr f -> 0 <= fl < 4096 -> 0 <= b < 4096 -> tst (entry f fl) b = tst fl b.
Proof.
  intros Hf Hfl Hb. rewrite <- entry_lor by done. destruct (frame_split f Hf) as (k & -> & _).
  unfold tst. rewrite Z.land_lor_distr_l, (land_low_high k b 12) by lia. done.
Qed.

(** ** Indices *)

Lemma pd_index_div v : pd_index v = v / 2 ^ 22.
Proof. unfold pd_index. by rewrite Z.shiftr_div_pow2. Qed.

Lemma pt_index_div v : pt_index v = v / 4096 mod 1024.
Proof. unfold pt_index. rewrite Z.shiftr_div_pow2 by lia. change 0x3FF with (Z.ones 10). by rewrite Z.land_ones. Qed.

Lemma land_offset v : Z.land v 0xFFF = v mod 4096.
Proof. change 0xFFF with (Z.ones 12). by rewrite Z.land_ones. Qed.

Lemma pd_index_range v : 0 <= v < 2 ^ 32 -> 0 <= pd_index v < 1024.
Proof. rewrite pd_index_div. intros. zmod. Qed.

Lemma pt_index_range v : 0 <= pt_index v < 1024.
Proof. rewrite pt_index_div. zmod. Qed.

Lemma pd_slot_index i : 0 <= i < 1024 ->
  pd_index (pd_slot i) = 1023 /\ pt_index (pd_slot i) = 1023 /\ Z.land (pd_slot i) 0xFFF = 4 * i.
Proof. intros Hi. rewrite pd_index_div, pt_index_div, land_offset. unfold pd_slot. repeat split; zmod. Qed.

Lemma pt_slot_index i j : 0 <= i < 1024 -> 0 <= j < 1024 ->
  pd_index (pt_slot i j) = 1023 /\ pt_index (pt_slot i j) = i /\ Z.land (pt_slot i j) 0xFFF = 4 * j.
Proof.
  intros Hi Hj. rewrite pd_index_div, pt_index_div, land_offset. unfold pt_slot.
  rewrite Z.shiftl_mul_pow2 by lia. change (2 ^ 12) with 4096. repeat split; zmod.
Qed.

(** ** The recursive window *)

(** Directory slot [i] holds frame [f] with low bits [fl]. *)
Definition pde_is (cr3 : Z) (m : gmap Z Z) (i f fl : Z) : Prop :=
  rd m (cr3 + 4 * i) = entry f fl /\ frame_addr f /\ 0 <= fl < 4096.

Definition self_map (cr3 : Z) (m : gmap Z Z) : Prop :=
  exists fl, pde_is cr3 m 1023 cr3 fl /\ tst fl PTE_PRESENT = true.

Lemma rec_translate cr3 m v f fl :
  self_map cr3 m -> pd_index v = 1023 -> 0 <= pt_index v < 1024 ->
  pde_is cr3 m (pt_index v) f fl ->
  translate cr3 m v = if tst fl PTE_PRESENT then Some (f + Z.land v 0xFFF) else None.
Proof.
  intros (fl0 & (E & Hf & Hfl) & Hp) Hd Ht (E' & Hf' & Hfl'). unfold translate. rewrite Hd, E.
  rewrite (entry_tst cr3), Hp, entry_frame, E' by (done || unfold PTE_PRESENT; lia).
  rewrite (entry_tst f), entry_frame by (done || unfold PTE_PRESENT; lia). done.
Qed.

Lemma self_frame cr3 m : self_map cr3 m -> frame_addr cr3.
Proof. by intros (fl & (_ & H & _) & _). Qed.

(** Reading and writing [pd[i]]. *)
Lemma pd_translate cr3 m i : self_map cr3 m -> 0 <= i < 1024 -> translate cr3 m (pd_slot i) = Some (cr3 + 4 * i).
Proof.
  intros Hs Hi. destruct (pd_slot_index i Hi) as (E1 & E2 & E3). pose proof Hs as (fl & Hp & Ht).
  rewrite (rec_translate cr3 m _ cr3 fl) by (rewrite ?E2; done). by rewrite Ht, E3.
Qed.

(** Reading and writing [pt[j]] of slot [i]. *)
Lemma pt_translate cr3 m i j f fl :
  self_map cr3 m -> 0 <= i < 1024 -> 0 <= j < 1024 -> pde_is cr3 m i f fl -> tst fl PTE_PRESENT = true ->
  translate cr3 m (pt_slot i j) = Some (f + 4 * j).
Proof.
  intros Hs Hi Hj Hp Ht. destruct (pt_slot_index i j Hi Hj) as (E1 & E2 & E3).
  rewrite (rec_translate cr3 m _ f fl) by (rewrite ?E2; done || lia). by rewrite Ht, E3.
Qed.

(** ** Well-formed page tables *)

Record pt_wf (cr3 : Z) (m : gmap Z Z) : Prop := {
  pw_self : self_map cr3 m;
  pw_entry i : 0 <= i < 1024 -> exists f fl, pde_is cr3 m i f fl;
  pw_distinct i j f fl f' fl' : 0 <= i < 1024 -> 0 <= j < 1024 -> i <> j ->
    pde_is cr3 m i f fl -> tst fl PTE_PRESENT = true ->
    pde_is cr3 m j f' fl' -> tst fl' PTE_PRESENT = true -> f <> f';
}.

Lemma addr_inj f f' a b :
  frame_addr f -> frame_addr f' -> 0 <= a < 1024 -> 0 <= b < 1024 -> f + 4 * a = f' + 4 * b -> f = f' /\ a = b.
Proof. intros [? ?] [? ?] ? ? ?. zmod. Qed.

Lemma pde_is_ext cr3 m m' i f fl :
  rd m' (cr3 + 4 * i) = rd m (cr3 + 4 * i) -> pde_is cr3 m' i f fl <-> pde_is cr3 m i f fl.
Proof. intros E. unfold pde_is. by rewrite E. Qed.

Lemma pt_wf_ext cr3 m m' :
  (forall i, 0 <= i < 1024 -> rd m' (cr3 + 4 * i) = rd m (cr3 + 4 * i)) -> pt_wf cr3 m -> pt_wf cr3 m'.
Proof.
  intros E [Hs He Hd]. split.
  - destruct Hs as (fl & Hp & Ht). exists fl. split; [|done]. apply (pde_is_ext cr3 m); [apply E; lia|done].
  - intros i Hi. destruct (He i Hi) as (f & fl & Hp). exists f, fl. by apply (pde_is_ext cr3 m); [apply E|].
  - intros i j f fl f' fl' Hi Hj Hne Hp Ht Hp' Ht'.
    apply (pde_is_ext cr3 m) in Hp; [|by apply E]. apply (pde_is_ext cr3 m) in Hp'; [|by apply E].
    by apply (Hd i j f fl f' fl').
Qed.

Lemma pde_is_fun cr3 m i f fl f' fl' : pde_is cr3 m i f fl -> pde_is cr3 m i f' fl' -> f = f' /\ fl = fl'.
Proof. intros (E & [Hm ?] & ?) (E' & [Hm' ?] & ?). unfold entry in *. rewrite E in E'. zmod. Qed.

(** The page table of a slot other than the window is not the directory. *)
Lemma pt_not_pd cr3 m i f fl :
  pt_wf cr3 m -> 0 <= i < 1023 -> pde_is cr3 m i f fl -> tst fl PTE_PRESENT = true -> f <> cr3.
Proof.
  intros [Hs _ Hd] Hi Hp Ht. destruct Hs as (fl0 & Hp0 & Ht0).
  apply (Hd i 1023 f fl cr3 fl0); auto; lia.
Qed.

Lemma translate_unfold cr3 m v f fl :
  0 <= v < 2 ^ 32 -> pde_is cr3 m (pd_index v) f fl ->
  translate cr3 m v =
    if tst fl PTE_PRESENT then
      let pte := rd m (f + 4 * pt_index v) in
      if tst pte PTE_PRESENT then Some (Z.land pte FRAME_MASK + v mod 4096) else None
    else None.
Proof.
  intros Hv (E & Hf & Hfl). unfold translate. rewrite E, land_offset.
  rewrite (entry_tst f), entry_frame by (done || unfold PTE_PRESENT; lia). done.
Qed.

(** Writing entry [j] of the page table of slot [i] remaps that page and no other. *)
Lemma translate_pt_write cr3 m i j f fl w :
  pt_wf cr3 m -> 0 <= i < 1023 -> 0 <= j < 1024 -> pde_is cr3 m i f fl -> tst fl PTE_PRESENT = true ->
  pt_wf cr3 (wr m (f + 4 * j) w) /\
  forall v, 0 <= v < 2 ^ 32 -> pd_index v <> 1023 ->
    translate cr3 (wr m (f + 4 * j) w) v =
      if decide (pd_index v = i /\ pt_index v = j)
      then (if tst w PTE_PRESENT then Some (Z.land w FRAME_MASK + v mod 4096) else None)
      else translate cr3 m v.
Proof.
  intros Hw Hi Hj Hp Ht. pose proof (pt_not_pd _ _ _ _ _ Hw Hi Hp Ht) as Hne.
  pose proof (self_frame _ _ (pw_self _ _ Hw)) as Hcf. pose proof Hp as (_ & Hff & _).
  assert (Hpd : forall k, 0 <= k < 1024 -> rd (wr m (f + 4 * j) w) (cr3 + 4 * k) = rd m (cr3 + 4 * k)).
  { intros k Hk. apply rd_wr_ne. intros E. by destruct (addr_inj f cr3 j k). }
  split; [by apply (pt_wf_ext cr3 m)|]. intros v Hv Hvr.
  pose proof (pd_index_range v Hv) as Hr. pose proof (pt_index_range v) as Hr'.
  destruct (pw_entry _ _ Hw (pd_index v) Hr) as (f2 & fl2 & Hp2).
  rewrite (translate_unfold cr3 m v f2 fl2) by done.
  rewrite (translate_unfold cr3 _ v f2 fl2); [|done|by apply (pde_is_ext cr3 m); [apply Hpd|]]. cbv zeta.
  destruct (decide (pd_index v = i /\ pt_index v = j)) as [[E1 E2]|Hn].
  - rewrite E1 in Hp2. destruct (pde_is_fun _ _ _ _ _ _ _ Hp Hp2) as [<- <-]. rewrite Ht, E2, rd_wr_eq. done.
  - destruct (tst fl2 PTE_PRESENT) eqn:Ht2; [|done]. rewrite rd_wr_ne; [done|]. intros E.
    pose proof Hp2 as (_ & Hf2 & _). destruct (addr_inj f f2 j (pt_index v)) as [-> ->]; auto. apply Hn.
    split; [|done]. destruct (decide (i = pd_index v)) as [|Hd]; [done|]. exfalso.
    by apply (pw_distinct _ _ Hw i (pd_index v) f2 fl f2 fl2); auto; lia.
Qed.

Lemma vstore_pt cr3 p i j f fl w :
  pt_wf cr3 (pmem p) -> 0 <= i < 1024 -> 0 <= j < 1024 -> pde_is cr3 (pmem p) i f fl -> tst fl PTE_PRESENT = true ->
  vstore cr3 (pt_slot i j) w p = Some (p <| pmem := wr (pmem p) (f + 4 * j) w |>).
Proof. intros Hw Hi Hj Hp Ht. unfold vstore. by rewrite (pt_translate _ _ i j f fl) by (done || apply Hw). Qed.

Lemma vload_pd cr3 p i :
  pt_wf cr3 (pmem p) -> 0 <= i < 1024 -> vload cr3 p (pd_slot i) = Some (rd (pmem p) (cr3 + 4 * i)).
Proof. intros Hw Hi. unfold vload. by rewrite pd_translate by (done || apply Hw). Qed.

Lemma vload_pt cr3 p i j f fl :
  pt_wf cr3 (pmem p) -> 0 <= i < 1024 -> 0 <= j < 1024 -> pde_is cr3 (pmem p) i f fl -> tst fl PTE_PRESENT = true ->
  vload cr3 p (pt_slot i j) = Some (rd (pmem p) (f + 4 * j)).
Proof. intros Hw Hi Hj Hp Ht. unfold vload. by rewrite (pt_translate _ _ i j f fl) by (done || apply Hw). Qed.

(** ** Adding a page table *)

(** The frames of the free queue are not page tables of the current directory. *)
Record free_wf (cr3 : Z) (p : paging) : Prop := {
  fw_nodup : NoDup (freeq p);
  fw_range k : k ∈ freeq p -> 0 < k < 2 ^ 20;
  fw_tables k i f fl : k ∈ freeq p -> 0 <= i < 1024 -> pde_is cr3 (pmem p) i f fl ->
    tst fl PTE_PRESENT = true -> f <> k * 4096;
}.

Lemma frame_mul k : 0 <= k < 2 ^ 20 -> frame_addr (k * 4096).
Proof. intros. split; [apply Z.mod_mul; lia|lia]. Qed.

Lemma new_pde_wf cr3 m i k fl :
  pt_wf cr3 m -> 0 <= i < 1023 -> 0 <= k < 2 ^ 20 -> 0 <= fl < 4096 ->
  (forall j f fl, 0 <= j < 1024 -> pde_is cr3 m j f fl -> tst fl PTE_PRESENT = true -> f <> k * 4096) ->
  pt_wf cr3 (wr m (cr3 + 4 * i) (entry (k * 4096) fl)) /\
  pde_is cr3 (wr m (cr3 + 4 * i) (entry (k * 4096) fl)) i (k * 4096) fl.
Proof.
  intros Hw Hi Hk Hfl Hfr. set (m' := wr m _ _).
  assert (Hnew : pde_is cr3 m' i (k * 4096) fl).
  { split; [apply rd_wr_eq|]. split; [by apply frame_mul|done]. }
  assert (Hold : forall j f fl, j <> i -> pde_is cr3 m' j f fl <-> pde_is cr3 m j f fl).
  { intros j f fl' Hj. apply pde_is_ext. apply rd_wr_ne. lia. }
  split; [|done]. destruct Hw as [Hs He Hd]. split.
  - destruct Hs as (fl0 & Hp0 & Ht0). exists fl0. split; [|done]. apply Hold; [lia|done].
  - intros j Hj. destruct (decide (j = i)) as [->|Hne]; [by eauto|].
    destruct (He j Hj) as (f & fl' & Hp). exists f, fl'. by apply Hold.
  - intros a b f fl1 f' fl2 Ha Hb Hne Hp Ht Hp' Ht'.
    destruct (decide (a = i)) as [->|Hai].
    + destruct (pde_is_fun _ _ _ _ _ _ _ Hnew Hp) as [<- <-]. apply Hold in Hp'; [|done].
      intros E. by apply (Hfr b f' fl2).
    + apply Hold in Hp; [|done]. destruct (decide (b = i)) as [->|Hbi].
      * destruct (pde_is_fun _ _ _ _ _ _ _ Hnew Hp') as [<- <-]. by apply (Hfr a f fl1).
      * apply Hold in Hp'; [|done]. by apply (Hd a b f fl1 f' fl2).
Qed.

Lemma zero_loop_spec n cr3 i f fl k p :
  pt_wf cr3 (pmem p) -> 0 <= i < 1023 -> pde_is cr3 (pmem p) i f fl -> tst fl PTE_PRESENT = true ->
  0 <= k -> k + Z.of_nat n <= 1024 ->
  exists m', for_loop n k (fun j p => vstore cr3 (pt_slot i j) 0 p) p = Some (p <| pmem := m' |>) /\
    (forall j, k <= j < k + Z.of_nat n -> rd m' (f + 4 * j) = 0) /\
    (forall a, (forall j, 0 <= j < 1024 -> a <> f + 4 * j) -> rd m' a = rd (pmem p) a) /\
    (forall j, 0 <= j < k -> rd m' (f + 4 * j) = rd (pmem p) (f + 4 * j)).
Proof.
  revert k p. induction n as [|n IH]; intros k p Hw Hi Hp Ht Hk Hn; cbn [for_loop].
  - exists (pmem p). splits; [by destruct p|intros; lia|done|done].
  - rewrite (vstore_pt cr3 p i k f fl) by (done || lia). cbn [mbind option_bind].
    set (p1 := p <| pmem := _ |>).
    destruct (translate_pt_write cr3 (pmem p) i k f fl 0) as [Hw1 _]; [done..|lia|done|done|].
    assert (Hp1 : pde_is cr3 (pmem p1) i f fl).
    { pose proof (pt_not_pd _ _ _ _ _ Hw Hi Hp Ht) as Hne. pose proof Hp as (_ & Hff & _).
      apply (pde_is_ext cr3 (pmem p)); [|done]. apply rd_wr_ne. intros E.
      destruct (addr_inj f cr3 k i) as [? _]; auto; [apply (self_frame _ _ (pw_self _ _ Hw))|lia|lia]. }
    destruct (IH (k + 1) p1 Hw1 Hi Hp1 Ht ltac:(lia) ltac:(lia)) as (m' & E & Hz & Hf & Hb).
    exists m'. splits; [exact E| | |].
    + intros j Hj. destruct (decide (j = k)) as [->|Hne]; [|apply Hz; lia].
      rewrite Hb by lia. apply rd_wr_eq.
    + intros a Ha. rewrite Hf by done. apply rd_wr_ne. intros <-. by apply (Ha k); [lia|].
    + intros j Hj. rewrite Hb by lia. apply rd_wr_ne. lia.
Qed.

Lemma new_entry k : 0 <= k < 2 ^ 20 ->
  Z.lor (Z.lor (Z.lor (k * 4096) PTE_PRESENT) PTE_RW) PTE_USER = entry (k * 4096) 7.
Proof.
  intros Hk. rewrite <- !Z.lor_assoc. change (Z.lor _ (Z.lor PTE_RW PTE_USER)) with 7.
  apply entry_lor; [by apply frame_mul|lia].
Qed.

(** Both invariants together. *)
Definition mm_ok (cr3 : Z) (p : paging) : Prop := pt_wf cr3 (pmem p) /\ free_wf cr3 p.

(** Every user or kernel page outside the window keeps its translation. *)
Definition same_space (cr3 : Z) (m m' : gmap Z Z) : Prop :=
  forall v, 0 <= v < 2 ^ 32 -> pd_index v <> 1023 -> translate cr3 m' v = translate cr3 m v.

Definition slot_absent (cr3 : Z) (m : gmap Z Z) (i : Z) : Prop := tst (rd m (cr3 + 4 * i)) PTE_PRESENT = false.

Lemma pde_tst cr3 m i f fl : pde_is cr3 m i f fl -> tst (rd m (cr3 + 4 * i)) PTE_PRESENT = tst fl PTE_PRESENT.
Proof. intros (-> & Hf & Hfl). apply entry_tst; [done|done|unfold PTE_PRESENT; lia]. Qed.

(** ** Steps of the page tables *)

(** The frames that a walk from [cr3] reads: the directory (slot 1023) and the page tables. *)
Definition table (cr3 : Z) (m : gmap Z Z) (f : Z) : Prop :=
  exists i fl, 0 <= i < 1024 /\ pde_is cr3 m i f fl /\ tst fl PTE_PRESENT = true.

Definition frame_of (x : Z) : Z := x / 4096 * 4096.

Lemma frame_of_add f o : frame_addr f -> 0 <= o < 4096 -> frame_of (f + o) = f.
Proof. intros [? ?] ?. unfold frame_of. zmod. Qed.

(** What the operations on page tables may do: take frames from the front of the free queue,
    use them as page tables, add slots to the directory, and write to page tables and to the
    frames in [D]. *)
Record evolves (cr3 : Z) (D : Z -> Prop) (p p' : paging) : Prop := {
  ev_taken : exists taken : list Z, freeq p = taken ++ freeq p' /\
    forall f, table cr3 (pmem p') f -> table cr3 (pmem p) f \/ exists k, k ∈ taken /\ f = k * 4096;
  ev_slots i f fl : 0 <= i < 1024 -> pde_is cr3 (pmem p) i f fl -> tst fl PTE_PRESENT = true -> pde_is cr3 (pmem p') i f fl;
  ev_writes x : ~ table cr3 (pmem p') (frame_of x) -> ~ D (frame_of x) -> rd (pmem p') x = rd (pmem p) x;
}.

Definition no_data (f : Z) : Prop := False.

Lemma ev_tables cr3 D p p' f : evolves cr3 D p p' -> table cr3 (pmem p) f -> table cr3 (pmem p') f.
Proof. intros [_ Hs _] (i & fl & Hi & Hp & Ht). exists i, fl. split; [done|]. split; [by apply Hs|done]. Qed.

#[export] Instance evolves_preorder cr3 D : PreOrder (evolves cr3 D).
Proof.
  split.
  - intros p. split; [exists []; split; [done|by left]|done|done].
  - intros p q r H1 H2. pose proof H1 as [(t1 & E1 & T1) S1 W1]. pose proof H2 as [(t2 & E2 & T2) S2 W2]. split.
    + exists (t1 ++ t2). split; [by rewrite E1, E2, app_assoc|]. intros f [[?|(k & ? & ->)]%T1|(k & ? & ->)]%T2.
      * by left.
      * right. exists k. split; [apply elem_of_app; by left|done].
      * right. exists k. split; [apply elem_of_app; by right|done].
    + intros i f fl Hi Hp Ht. by apply S2, Ht; [|apply S1].
    + intros x Hx Hd. rewrite W2 by done. apply W1; [|done]. intros Ht. by apply Hx, (ev_tables _ _ _ _ _ H2).
Qed.

Lemma evolves_weaken cr3 (D D' : Z -> Prop) p p' : (forall f, D f -> D' f) -> evolves cr3 D p p' -> evolves cr3 D' p p'.
Proof. intros HD [Ht Hs Hw]. split; [done|done|]. intros x Hx Hd. apply Hw; [done|]. intros H. by apply Hd, HD. Qed.

Lemma table_ext cr3 m m' f :
  (forall i, 0 <= i < 1024 -> rd m' (cr3 + 4 * i) = rd m (cr3 + 4 * i)) -> table cr3 m f -> table cr3 m' f.
Proof. intros E (i & fl & Hi & Hp & Ht). exists i, fl. splits; [lia|lia| |done]. apply (pde_is_ext cr3 m); [by apply E|done]. Qed.

(** Installing a zeroed page table in an absent slot. *)
Lemma install_pt cr3 p i k q :
  mm_ok cr3 p -> 0 <= i < 1023 -> slot_absent cr3 (pmem p) i -> freeq p = k :: q ->
  exists p', (p1 ← vstore cr3 (pd_slot i) (entry (k * 4096) 7) (snd (alloc_phys_page p));
              for_loop 1024 0 (fun j p => vstore cr3 (pt_slot i j) 0 p) p1) = Some p' /\
    mm_ok cr3 p' /\ pde_is cr3 (pmem p') i (k * 4096) 7 /\ same_space cr3 (pmem p) (pmem p') /\ freeq p' = q /\
    evolves cr3 no_data p p'.
Proof.
  intros [Hw Hfw] Hi Hab Eq. pose proof Hfw as [Hnd Hrg Htb]. rewrite Eq in Hnd. apply NoDup_cons in Hnd as [Hkq Hnd].
  assert (Hk : 0 < k < 2 ^ 20) by (apply Hrg; rewrite Eq; by left).
  assert (Hkf : forall j f fl, 0 <= j < 1024 -> pde_is cr3 (pmem p) j f fl -> tst fl PTE_PRESENT = true -> f <> k * 4096).
  { intros j f fl. apply Htb. rewrite Eq. by left. }
  unfold alloc_phys_page. rewrite Eq. cbn [snd]. set (p0 := (p <| freeq := q |>) <| pg_flags := _ |>).
  assert (E0 : vstore cr3 (pd_slot i) (entry (k * 4096) 7) p0 =
    Some (p0 <| pmem := wr (pmem p) (cr3 + 4 * i) (entry (k * 4096) 7) |>)).
  { unfold vstore. change (pmem p0) with (pmem p). by rewrite pd_translate by (apply Hw || lia). }
  rewrite E0. cbn [mbind option_bind]. set (p1 := p0 <| pmem := _ |>).
  destruct (new_pde_wf cr3 (pmem p) i k 7 Hw Hi) as [Hw1 Hp1]; [lia|lia|done|].
  change (wr _ _ _) with (pmem p1) in Hw1, Hp1.
  destruct (zero_loop_spec 1024 cr3 i (k * 4096) 7 0 p1) as (m' & E & Hz & Hf & _); [done..|].
  rewrite E. eexists; split; [done|].
  assert (Hcr : k * 4096 <> cr3) by (apply (pt_not_pd cr3 (pmem p1) i (k * 4096) 7); done).
  pose proof (self_frame _ _ (pw_self _ _ Hw)) as Hcf.
  assert (Hpd : forall j, 0 <= j < 1024 -> rd m' (cr3 + 4 * j) = rd (pmem p1) (cr3 + 4 * j)).
  { intros j Hj. apply Hf. intros a Ha E'. destruct (addr_inj (k * 4096) cr3 a j); auto. apply frame_mul. lia. }
  assert (Hwm : pt_wf cr3 m') by (by apply (pt_wf_ext cr3 (pmem p1))).
  assert (Hpi : pde_is cr3 m' i (k * 4096) 7) by (apply (pde_is_ext cr3 (pmem p1)); [apply Hpd; lia|done]).
  assert (Hold : forall j, 0 <= j < 1024 -> j <> i -> rd m' (cr3 + 4 * j) = rd (pmem p) (cr3 + 4 * j)).
  { intros j Hj Hne. rewrite Hpd by done. apply rd_wr_ne. lia. }
  splits; [|done| |done|].
  - split; [done|]. split; [done| |].
    + intros x Hx. apply Hrg. rewrite Eq. by right.
    + intros x j f fl Hx Hj Hp Ht. change (pmem (_ <| pmem := m' |>)) with m' in Hp.
      change (freeq (_ <| pmem := m' |>)) with q in Hx. destruct (decide (j = i)) as [->|Hne].
      * destruct (pde_is_fun _ _ _ _ _ _ _ Hpi Hp) as [<- _]. intros E'. assert (x = k) by lia. by subst.
      * apply (pde_is_ext cr3 (pmem p)) in Hp; [|by apply Hold]. apply (Htb x j f fl); auto. rewrite Eq. by right.
  - intros v Hv Hvr. change (pmem (_ <| pmem := m' |>)) with m'. pose proof (pd_index_range v Hv) as Hr.
    pose proof (pt_index_range v) as Hr'. destruct (decide (pd_index v = i)) as [<-|Hne].
    + rewrite (translate_unfold cr3 m' v (k * 4096) 7) by done. cbv zeta. rewrite Hz by lia.
      destruct (pw_entry _ _ Hw (pd_index v) Hr) as (f & fl & Hp). rewrite (translate_unfold cr3 (pmem p) v f fl) by done.
      unfold slot_absent in Hab. rewrite (pde_tst _ _ _ _ _ Hp) in Hab. by rewrite Hab.
    + destruct (pw_entry _ _ Hw (pd_index v) Hr) as (f & fl & Hp). rewrite (translate_unfold cr3 (pmem p) v f fl) by done.
      rewrite (translate_unfold cr3 m' v f fl); [|done|by apply (pde_is_ext cr3 (pmem p)); [apply Hold|]]. cbv zeta.
      destruct (tst fl PTE_PRESENT) eqn:Ht; [|done]. rewrite Hf.
      * unfold p1. cbn [pmem set_field]. rewrite rd_wr_ne; [done|]. intros E'. pose proof Hp as (_ & Hff & _).
        destruct (addr_inj cr3 f i (pt_index v)) as [-> _]; auto; [lia|].
        destruct (pw_self _ _ Hw) as (fl0 & Hp0 & Ht0).
        by apply (pw_distinct _ _ Hw 1023 (pd_index v) f fl0 f fl); auto; lia.
      * intros a Ha E'. pose proof Hp as (_ & Hff & _). destruct (addr_inj f (k * 4096) (pt_index v) a) as [-> _]; auto.
        { apply frame_mul. lia. } by apply (Hkf (pd_index v) (k * 4096) fl).
  - change (pmem (_ <| pmem := m' |>)) with m'. split.
    + exists [k]. split; [done|]. intros f (j & fl & Hj & Hp & Ht). destruct (decide (j = i)) as [->|Hne].
      * right. exists k. destruct (pde_is_fun _ _ _ _ _ _ _ Hpi Hp) as [<- _]. split; [by left|done].
      * left. exists j, fl. splits; [lia|lia| |done]. by apply (pde_is_ext cr3 (pmem p)) in Hp; [|apply Hold].
    + intros j f fl Hj Hp Ht. apply (pde_is_ext cr3 (pmem p)); [apply Hold; [done|]|done]. intros ->.
      unfold slot_absent in Hab. rewrite (pde_tst _ _ _ _ _ Hp) in Hab. congruence.
    + intros x Hx _. change (pmem (_ <| pmem := m' |>)) with m'. rewrite Hf.
      * unfold p1. cbn [pmem set_field]. apply rd_wr_ne. intros <-. apply Hx. rewrite frame_of_add by (done || lia).
        destruct (pw_self _ _ Hwm) as (fl0 & Hp0 & Ht0). exists 1023, fl0. done.
      * intros j Hj ->. apply Hx. rewrite frame_of_add by (apply frame_mul || idtac; lia).
        exists i, 7. splits; [lia|lia|done|done].
Qed.

Lemma ensure_pt_spec cr3 p i :
  mm_ok cr3 p -> 0 <= i < 1023 ->
  exists ok p', ensure_pt cr3 i p = Some (ok, p') /\ mm_ok cr3 p' /\ same_space cr3 (pmem p) (pmem p') /\
    (ok = true -> exists f fl, pde_is cr3 (pmem p') i f fl /\ tst fl PTE_PRESENT = true) /\
    (ok = false -> p' = p /\ slot_absent cr3 (pmem p) i /\ freeq p = []) /\
    (~ slot_absent cr3 (pmem p) i -> p' = p) /\
    evolves cr3 no_data p p' /\ (length (freeq p) <= length (freeq p') + 1)%nat.
Proof.
  intros Hok Hi. pose proof Hok as [Hw Hfw]. unfold ensure_pt. rewrite vload_pd by (done || lia). cbn [mbind option_bind].
  destruct (tst (rd (pmem p) (cr3 + 4 * i)) PTE_PRESENT) eqn:Ht; cbn [negb].
  - exists true, p. splits; [done|done|done| |done|done|done|lia]. intros _.
    destruct (pw_entry _ _ Hw i ltac:(lia)) as (f & fl & Hp). exists f, fl. split; [done|].
    by rewrite <- (pde_tst _ _ _ _ _ Hp).
  - destruct (freeq p) as [|k q] eqn:Eq.
    { assert (alloc_phys_page p = (0, p)) as -> by (unfold alloc_phys_page; by rewrite Eq). rewrite Z.eqb_refl.
      exists false, p. rewrite Eq. splits; try done. lia. }
    destruct (install_pt cr3 p i k q Hok Hi Ht Eq) as (p' & E & Hok' & Hp' & Hss & Eq' & Hgr).
    assert (Hk : 0 < k < 2 ^ 20) by (apply (fw_range _ _ Hfw); rewrite Eq; by left).
    destruct (alloc_phys_page p) as [pt_phys p0] eqn:Ea.
    assert (pt_phys = k * 4096) as ->.
    { unfold alloc_phys_page in Ea. rewrite Eq in Ea. by injection Ea as <- _. }
    destruct (Z.eqb_spec (k * 4096) 0); [lia|]. rewrite new_entry by lia. cbn [snd] in E.
    destruct (vstore cr3 (pd_slot i) (entry (k * 4096) 7) p0) as [p1|]; [|done]. cbn [mbind option_bind] in *.
    rewrite E. cbn [mbind option_bind]. exists true, p'. splits; [done..| |done|done|done|].
    + intros _. by exists (k * 4096), 7.
    + rewrite Eq'. simpl. lia.
Qed.
