(* ===== verification/PagingTheorems.v ===== *)
(** * Theorems on frames and page tables, and the page source of the heap *)

From S2P Require Import Prelude LList Heap Task TaskInv Paging PagingInv.

(** ** Mapping and unmapping *)

Lemma free_wf_pmem cr3 p m :
  (forall i, 0 <= i < 1024 -> rd m (cr3 + 4 * i) = rd (pmem p) (cr3 + 4 * i)) ->
  free_wf cr3 p -> free_wf cr3 (p <| pmem := m |>).
Proof.
  intros E [Hn Hr Ht]. split; [done|done|]. intros k i f fl Hk Hi Hp Hpr.
  apply (pde_is_ext cr3 (pmem p)) in Hp; [|by apply E]. by apply (Ht k i f fl).
Qed.

(** A store to entry [j] of the page table of slot [i]. *)
Lemma pt_store_ok cr3 p i j f fl w :
  mm_ok cr3 p -> 0 <= i < 1023 -> 0 <= j < 1024 -> pde_is cr3 (pmem p) i f fl -> tst fl PTE_PRESENT = true ->
  exists p', vstore cr3 (pt_slot i j) w p = Some p' /\ mm_ok cr3 p' /\ freeq p' = freeq p /\ evolves cr3 no_data p p' /\
    forall v, 0 <= v < 2 ^ 32 -> pd_index v <> 1023 ->
      translate cr3 (pmem p') v =
        if decide (pd_index v = i /\ pt_index v = j)
        then (if tst w PTE_PRESENT then Some (Z.land w FRAME_MASK + v mod 4096) else None)
        else translate cr3 (pmem p) v.
Proof.
  intros [Hw Hf] Hi Hj Hp Ht. rewrite (vstore_pt cr3 p i j f fl) by (done || lia). eexists; split; [done|].
  destruct (translate_pt_write cr3 (pmem p) i j f fl w Hw Hi Hj Hp Ht) as [Hw' Htr].
  assert (Hpd : forall k, 0 <= k < 1024 -> rd (wr (pmem p) (f + 4 * j) w) (cr3 + 4 * k) = rd (pmem p) (cr3 + 4 * k)).
  { intros k Hk. apply rd_wr_ne. intros E.
    pose proof Hp as (_ & Hff & _). pose proof (pt_not_pd _ _ _ _ _ Hw Hi Hp Ht).
    destruct (addr_inj f cr3 j k) as [? _]; auto. apply (self_frame _ _ (pw_self _ _ Hw)). }
  splits; [|done| |done].
  - split; [exact Hw'|]. by apply free_wf_pmem.
  - assert (Hb : forall g, table cr3 (wr (pmem p) (f + 4 * j) w) g <-> table cr3 (pmem p) g).
    { intros g. split; apply table_ext; intros k Hk; by rewrite Hpd. }
    split; cbn [pmem set_field eta_paging]; [exists []; split; [done|]; intros g Hg; left; by apply Hb|
      intros k g fl' Hk Hg _; apply (pde_is_ext cr3 (pmem p)); [by apply Hpd|done]|].
    intros x Hx _. apply rd_wr_ne. intros <-. apply Hx. rewrite frame_of_add by (apply Hp || lia). apply Hb.
    exists i, fl. splits; [lia|lia|done|done].
Qed.

Definition same_page (v v' : Z) : Prop := pd_index v' = pd_index v /\ pt_index v' = pt_index v.
#[export] Instance same_page_dec v v' : Decision (same_page v v').
Proof. unfold same_page. apply _. Defined.

Lemma map_page_spec cr3 v phys flags p :
  mm_ok cr3 p -> 0 <= v < 2 ^ 32 -> pd_index v <> 1023 -> frame_addr phys -> 0 <= flags < 4096 ->
  tst flags PTE_PRESENT = true ->
  exists p', map_page cr3 v phys flags p = Some p' /\ mm_ok cr3 p' /\
    evolves cr3 no_data p p' /\ (length (freeq p) <= length (freeq p') + 1)%nat /\
    (~ slot_absent cr3 (pmem p) (pd_index v) -> freeq p' = freeq p) /\
    ((p' = p /\ slot_absent cr3 (pmem p) (pd_index v) /\ freeq p = []) \/
     (forall v', 0 <= v' < 2 ^ 32 -> pd_index v' <> 1023 ->
        translate cr3 (pmem p') v' =
          if decide (same_page v v') then Some (phys + v' mod 4096) else translate cr3 (pmem p) v')).
Proof.
  intros Hok Hv Hvr Hph Hfl Hpr. pose proof (pd_index_range v Hv) as Hr. unfold map_page.
  destruct (ensure_pt_spec cr3 p (pd_index v) Hok) as (ok & p1 & -> & Hok1 & Hss & Hyes & Hno & Hpres & Hgr & Hlen); [lia|].
  cbn [mbind option_bind]. destruct ok; cbn [negb].
  - destruct (Hyes eq_refl) as (f & fl & Hp & Ht).
    destruct (pt_store_ok cr3 p1 (pd_index v) (pt_index v) f fl (Z.lor phys (Z.land flags 0xFFF)) Hok1)
      as (p2 & -> & Hok2 & Eq & Hgr2 & Htr); [lia|apply pt_index_range|done|done|].
    exists p2. splits; [done|done|by etrans|by rewrite Eq|intros Hpr'; by rewrite Eq, Hpres|]. right. intros v' Hv' Hvr'. rewrite Htr by done.
    assert (Ef : Z.lor phys (Z.land flags 0xFFF) = entry phys flags).
    { rewrite land_offset, Z.mod_small by lia. by apply entry_lor. }
    rewrite Ef, entry_frame, (entry_tst phys), Hpr by (done || unfold PTE_PRESENT; lia).
    unfold same_page. repeat case_decide; try tauto. by rewrite Hss.
  - destruct (Hno eq_refl) as (-> & Hab & Eq). exists p. splits; [done|done|done|lia|done|by left].
Qed.

(** C4: [map_page] on well-formed page tables terminates without a fault and either maps
    the page: all its bytes translate to the frame, and every other page outside the
    recursive window keeps its translation, also when a page table had to be allocated and
    cleared; or, when no frame is left for a missing page table, changes nothing. *)
Theorem map_page_maps cr3 v phys flags p :
  mm_ok cr3 p -> 0 <= v < 2 ^ 32 -> pd_index v <> 1023 -> frame_addr phys -> 0 <= flags < 4096 ->
  tst flags PTE_PRESENT = true ->
  exists p', map_page cr3 v phys flags p = Some p' /\ mm_ok cr3 p' /\
    ((p' = p /\ slot_absent cr3 (pmem p) (pd_index v) /\ freeq p = []) \/
     (forall v', 0 <= v' < 2 ^ 32 -> pd_index v' <> 1023 ->
        translate cr3 (pmem p') v' =
          if decide (same_page v v') then Some (phys + v' mod 4096) else translate cr3 (pmem p) v')).
Proof.
  intros Hok Hv Hvr Hph Hfl Hpr.
  destruct (map_page_spec cr3 v phys flags p Hok Hv Hvr Hph Hfl Hpr) as (p' & E & Hok' & _ & _ & _ & H). by exists p'.
Qed.

Lemma unmap_page_spec cr3 v p :
  mm_ok cr3 p -> 0 <= v < 2 ^ 32 -> pd_index v <> 1023 ->
  exists p', unmap_page cr3 v p = Some p' /\ mm_ok cr3 p' /\ freeq p' = freeq p /\ evolves cr3 no_data p p' /\
    forall v', 0 <= v' < 2 ^ 32 -> pd_index v' <> 1023 ->
      translate cr3 (pmem p') v' = if decide (same_page v v') then None else translate cr3 (pmem p) v'.
Proof.
  intros Hok Hv Hvr. pose proof Hok as [Hw Hf]. pose proof (pd_index_range v Hv) as Hr. unfold unmap_page.
  rewrite vload_pd by (done || lia). cbn [mbind option_bind].
  destruct (pw_entry _ _ Hw (pd_index v) Hr) as (f & fl & Hp). rewrite (pde_tst _ _ _ _ _ Hp).
  destruct (tst fl PTE_PRESENT) eqn:Ht; cbn [negb].
  - destruct (pt_store_ok cr3 p (pd_index v) (pt_index v) f fl 0 Hok)
      as (p2 & -> & Hok2 & Eq & Hgr & Htr); [lia|apply pt_index_range|done|done|].
    exists p2. splits; [done..|]. intros v' Hv' Hvr'. rewrite Htr by done.
    unfold same_page. repeat case_decide; tauto.
  - exists p. splits; [done..|]. intros v' Hv' Hvr'. case_decide as Hs; [|done]. destruct Hs as [E1 E2].
    rewrite (translate_unfold cr3 (pmem p) v' f fl) by (rewrite ?E1; done). by rewrite Ht.
Qed.

(** [unmap_page] removes the translation of exactly one page. *)
Theorem unmap_page_unmaps cr3 v p :
  mm_ok cr3 p -> 0 <= v < 2 ^ 32 -> pd_index v <> 1023 ->
  exists p', unmap_page cr3 v p = Some p' /\ mm_ok cr3 p' /\
    forall v', 0 <= v' < 2 ^ 32 -> pd_index v' <> 1023 ->
      translate cr3 (pmem p') v' = if decide (same_page v v') then None else translate cr3 (pmem p) v'.
Proof.
  intros Hok Hv Hvr. destruct (unmap_page_spec cr3 v p Hok Hv Hvr) as (p' & E & Hok' & _ & _ & H). by exists p'.
Qed.

(** [page_present] answers whether the MMU translates the address. *)
Theorem page_present_correct cr3 v p :
  mm_ok cr3 p -> 0 <= v < 2 ^ 32 ->
  page_present cr3 v p = Some (if translate cr3 (pmem p) v is Some _ then 1 else 0).
Proof.
  intros [Hw Hf] Hv. pose proof (pd_index_range v Hv) as Hr. unfold page_present.
  rewrite vload_pd by (done || lia). cbn [mbind option_bind].
  destruct (pw_entry _ _ Hw (pd_index v) Hr) as (f & fl & Hp). rewrite (pde_tst _ _ _ _ _ Hp).
  rewrite (translate_unfold cr3 (pmem p) v f fl) by done.
  destruct (tst fl PTE_PRESENT) eqn:Ht; cbn [negb]; [|done].
  rewrite (vload_pt cr3 p (pd_index v) (pt_index v) f fl) by (done || apply pt_index_range).
  cbn [mbind option_bind]. cbv zeta. by destruct (tst (rd _ _) PTE_PRESENT).
Qed.

(** ** The heap's pages: [expand_heap] *)

Lemma vstore_freeq cr3 v w p p' : vstore cr3 v w p = Some p' -> freeq p' = freeq p.
Proof. unfold vstore. destruct (translate _ _ _); [|done]. cbn [mbind option_bind]. by intros <-%(inj Some). Qed.

Lemma for_loop_inv {A} (P : A -> Prop) n k f a a' :
  (forall i a a', f i a = Some a' -> P a -> P a') -> for_loop n k f a = Some a' -> P a -> P a'.
Proof.
  intros Hf. revert k a. induction n as [|n IH]; intros k a; cbn [for_loop]; [by intros <-%(inj Some)|].
  destruct (f k a) as [a1|] eqn:E; [|done]. cbn [mbind option_bind]. intros H Ha. by eapply IH; [|eapply Hf].
Qed.

Lemma map_page_freeq cr3 v phys flags p p' :
  map_page cr3 v phys flags p = Some p' -> (length (freeq p') <= length (freeq p))%nat.
Proof.
  unfold map_page, ensure_pt. destruct (vload _ _ _); [|done]. cbn [mbind option_bind]. destruct (negb _).
  - destruct (alloc_phys_page p) as [f p0] eqn:E. assert (H0 : (length (freeq p0) <= length (freeq p))%nat).
    { unfold alloc_phys_page in E. destruct (freeq p) as [|k q] eqn:Eq; injection E as _ <-; simpl; [by rewrite Eq|lia]. }
    destruct (f =? 0); cbn [mbind option_bind negb]; [by intros <-%(inj Some)|].
    destruct (vstore _ _ _ p0) as [p1|] eqn:E1; [|done]. cbn [mbind option_bind]. apply vstore_freeq in E1.
    destruct (for_loop _ _ _ p1) as [p2|] eqn:E2; [|done]. cbn [mbind option_bind negb].
    apply (for_loop_inv (fun p => freeq p = freeq p0)) in E2; [|intros; by erewrite vstore_freeq|done].
    intros E3%vstore_freeq. by rewrite E3, E2.
  - cbn [mbind option_bind negb]. intros E%vstore_freeq. by rewrite E.
Qed.

(** [expand_heap] of heap.c: [None] is a fault in [map_page].  It reports success as soon as
    it has a frame, whether or not [map_page] could map it. *)
Definition expand_frame (vaddr : Z) (st : paging * sched) : option (bool * (paging * sched)) :=
  let '(phys, (p, s)) := alloc_page_frame st in
  if phys =? 0 then Some (false, (p, s))
  else p' ← map_page (cpu_cr3 s) vaddr phys (Z.lor PTE_PRESENT PTE_RW) p; Some (true, (p', s)).

Lemma mm_ok_freeq cr3 p q :
  mm_ok cr3 p -> NoDup q -> (forall k, k ∈ q -> k ∈ freeq p) -> mm_ok cr3 (p <| freeq := q |>).
Proof.
  intros [Hw [_ Hr Ht]] Hn Hsub. split; [exact Hw|]. split; cbn [freeq pmem set_field]; auto.
  intros k i f fl Hk. apply Ht. auto.
Qed.

Lemma mm_ok_same cr3 p p' : pmem p' = pmem p -> freeq p' = freeq p -> mm_ok cr3 p -> mm_ok cr3 p'.
Proof. intros Em Eq [Hw [H1 H2 H3]]. split; [by rewrite Em|]. split; rewrite ?Eq, ?Em; done. Qed.

(** While two frames are free, [expand_heap] keeps the promise of the class [PageSource]: it
    maps the page it reports, keeps every other translation, and takes at least one frame. *)
Theorem expand_heap_maps v p s k k' q :
  mm_ok (cpu_cr3 s) p -> 0 <= v < 2 ^ 32 -> pd_index v <> 1023 -> freeq p = k :: k' :: q ->
  exists p', expand_frame v (p, s) = Some (true, (p', s)) /\ mm_ok (cpu_cr3 s) p' /\
    (length (freeq p') + 1 <= length (freeq p))%nat /\
    forall v', 0 <= v' < 2 ^ 32 -> pd_index v' <> 1023 ->
      translate (cpu_cr3 s) (pmem p') v' =
        if decide (same_page v v') then Some (k * 4096 + v' mod 4096) else translate (cpu_cr3 s) (pmem p) v'.
Proof.
  intros Hok Hv Hvr Eq. set (cr3 := cpu_cr3 s) in *. pose proof Hok as [_ Hf].
  assert (Hk : 0 < k < 2 ^ 20) by (apply (fw_range _ _ Hf); rewrite Eq; by left).
  unfold expand_frame, alloc_page_frame, alloc_phys_page. rewrite Eq. change PAGE_SIZE with 4096.
  destruct (Z.eqb_spec (k * 4096) 0) as [|Hk0]; [lia|]. cbn [negb].
  set (p1 := (p <| freeq := k' :: q |>) <| pg_flags := _ |>). set (p2 := set_ref (k * 4096) 1 p1).
  destruct (Z.eqb_spec (k * 4096) 0); [done|].
  assert (E2 : pmem p2 = pmem p /\ freeq p2 = k' :: q) by (unfold p2, set_ref; by destruct (_ <? _)).
  destruct E2 as [Em Eq2].
  assert (Hok2 : mm_ok cr3 p2).
  { pose proof (fw_nodup _ _ Hf) as Hnd. rewrite Eq in Hnd. apply NoDup_cons in Hnd as [_ Hnd].
    apply (mm_ok_same cr3 (p <| freeq := k' :: q |>)); [exact Em|exact Eq2|]. apply mm_ok_freeq; [exact Hok|exact Hnd|].
    intros j Hj. rewrite Eq. by right. }
  destruct (map_page_spec cr3 v (k * 4096) (Z.lor PTE_PRESENT PTE_RW) p2 Hok2 Hv Hvr)
    as (p' & Ep & Hok' & _ & _ & _ & [(_ & _ & E)|Htr]); [apply frame_mul; lia|by vm_compute|done| |].
  { by rewrite Eq2 in E. }
  fold cr3. rewrite Ep. exists p'. splits; [done|done| |by rewrite <- Em].
  apply map_page_freeq in Ep. rewrite Eq2 in Ep. simpl in Ep |- *. lia.
Qed.

(** ** Frames *)

Lemma free_step phys k p :
  phys = k * 4096 -> PAGE_START_INDEX <= k < NUM_PAGES -> 0 < rd (ref_count p) k ->
  let p' := free_page_frame phys p in
  rd (ref_count p') k = rd (ref_count p) k - 1 /\
  freeq p' = if rd (ref_count p) k =? 1 then k :: freeq p else freeq p.
Proof.
  intros -> Hk Hr. unfold free_page_frame. rewrite Z.shiftr_div_pow2 by lia. change (2 ^ 12) with 4096.
  rewrite Z.div_mul by lia. destruct (Z.ltb_spec k NUM_PAGES); [|lia].
  destruct (Z.ltb_spec 0 (rd (ref_count p) k)); [|lia]. set (p1 := p <| ref_count := _ |>).
  assert (E : rd (ref_count p1) k = rd (ref_count p) k - 1) by apply rd_wr_eq. rewrite E.
  destruct (Z.ltb_spec 0 (rd (ref_count p) k - 1)).
  - split; [done|]. destruct (Z.eqb_spec (rd (ref_count p) k) 1); [lia|done].
  - unfold free_phys_page. rewrite Z.shiftr_div_pow2 by lia. change (2 ^ 12) with 4096. rewrite Z.div_mul by lia.
    destruct (Z.leb_spec PAGE_START_INDEX k); [|lia]. destruct (Z.ltb_spec k NUM_PAGES); [|lia]. cbn [andb].
    split; [exact E|]. destruct (Z.eqb_spec (rd (ref_count p) k) 1); [done|lia].
Qed.

(** A frame with [r] references goes back to the free queue with the [r]-th call of
    [free_page_frame] and not earlier. *)
Theorem frame_freed_with_last_reference k p (n : nat) :
  PAGE_START_INDEX <= k < NUM_PAGES -> Z.of_nat n <= rd (ref_count p) k ->
  freeq (Nat.iter n (free_page_frame (k * 4096)) p) =
    if (0 <? Z.of_nat n) && (Z.of_nat n =? rd (ref_count p) k) then k :: freeq p else freeq p.
Proof.
  intros Hk Hn.
  enough (H : freeq (Nat.iter n (free_page_frame (k * 4096)) p) =
      (if (0 <? Z.of_nat n) && (Z.of_nat n =? rd (ref_count p) k) then k :: freeq p else freeq p) /\
    rd (ref_count (Nat.iter n (free_page_frame (k * 4096)) p)) k = rd (ref_count p) k - Z.of_nat n) by apply H.
  induction n as [|n IH]; [split; [done|simpl; lia]|]. destruct IH as [IH1 IH2]; [lia|].
  rewrite Nat.iter_succ. set (p1 := Nat.iter n _ p) in *.
  destruct (free_step (k * 4096) k p1 eq_refl Hk) as [E1 E2]; [lia|]. cbv zeta in *.
  rewrite E1, E2, IH1, IH2. split; [|lia].
  destruct (Z.ltb_spec 0 (Z.of_nat (S n))); [|lia].
  destruct (Z.eqb_spec (Z.of_nat n) (rd (ref_count p) k)); [lia|]. rewrite andb_false_r. cbn [andb].
  destruct (Z.eqb_spec (rd (ref_count p) k - Z.of_nat n) 1), (Z.eqb_spec (Z.of_nat (S n)) (rd (ref_count p) k)); done || lia.
Qed.

(** [alloc_page_frame] hands out the head of the free queue with one reference, never a
    frame that is still in the queue, and [free_page_frame] puts it back. *)
Theorem alloc_free_frame_roundtrip p s k q :
  freeq p = k :: q -> NoDup (freeq p) -> PAGE_START_INDEX <= k < NUM_PAGES ->
  exists p1, alloc_page_frame (p, s) = (k * 4096, (p1, s)) /\ freeq p1 = q /\ (k ∉ q) /\
    rd (ref_count p1) k = 1 /\ freeq (free_page_frame (k * 4096) p1) = freeq p.
Proof.
  intros Eq Hnd Hk. rewrite Eq in Hnd. apply NoDup_cons in Hnd as [Hkq _].
  assert (Hk0 : 1024 <= k < 16384) by exact Hk.
  unfold alloc_page_frame, alloc_phys_page. rewrite Eq. change PAGE_SIZE with 4096.
  destruct (Z.eqb_spec (k * 4096) 0); [lia|]. cbn [negb].
  eexists; split; [done|]. unfold set_ref. rewrite Z.shiftr_div_pow2 by lia. change (2 ^ 12) with 4096.
  rewrite Z.div_mul by lia. destruct (Z.ltb_spec k NUM_PAGES); [|lia]. set (p1 := _ <| ref_count := _ |>).
  assert (E1 : rd (ref_count p1) k = 1) by apply rd_wr_eq. splits; [done|done|done|].
  destruct (free_step (k * 4096) k p1 eq_refl Hk) as [_ ->]; [lia|]. by rewrite E1.
Qed.

(** ** The initial page tables *)

Lemma fill_snoc a n f m : 0 <= n -> fill a (n + 1) f m = wr (fill a n f m) (a + 4 * n) (f n).
Proof. intros Hn. unfold fill. rewrite seqZ_app by lia. rewrite foldl_app. done. Qed.

Lemma rd_fill a n f m x :
  0 <= n ->
  (forall k, 0 <= k < n -> rd (fill a n f m) (a + 4 * k) = f k) /\
  ((forall k, 0 <= k < n -> x <> a + 4 * k) -> rd (fill a n f m) x = rd m x).
Proof.
  intros Hn. revert x. revert n Hn. apply (natlike_ind (fun n => forall x, (forall k, 0 <= k < n -> rd (fill a n f m) (a + 4 * k) = f k) /\
    ((forall k, 0 <= k < n -> x <> a + 4 * k) -> rd (fill a n f m) x = rd m x))).
  - intros x. split; [intros; lia|done].
  - intros n Hn IH x. unfold Z.succ. rewrite fill_snoc by done. split.
    + intros k Hk. destruct (decide (k = n)) as [->|Hne]; [apply rd_wr_eq|].
      rewrite rd_wr_ne by lia. apply (IH 0). lia.
    + intros Hx. rewrite rd_wr_ne by (intros E; by apply (Hx n); [lia|]). apply IH. intros k Hk. apply Hx. lia.
Qed.

Lemma rd_fill_in a n f m k : 0 <= k < n -> rd (fill a n f m) (a + 4 * k) = f k.
Proof. intros Hk. by apply (rd_fill a n f m 0); [lia|]. Qed.

(** A word of another frame. *)
Lemma rd_fill_frame a f m b k :
  frame_addr a -> frame_addr b -> a <> b -> 0 <= k < 1024 -> rd (fill a 1024 f m) (b + 4 * k) = rd m (b + 4 * k).
Proof.
  intros Ha Hb Hne Hk. apply rd_fill; [lia|]. intros j Hj E. by destruct (addr_inj b a k j).
Qed.

Lemma rd_wr_frame a j w m b k :
  frame_addr a -> frame_addr b -> a <> b -> 0 <= j < 1024 -> 0 <= k < 1024 ->
  rd (wr m (a + 4 * j) w) (b + 4 * k) = rd m (b + 4 * k).
Proof. intros Ha Hb Hne Hj Hk. apply rd_wr_ne. intros E. by destruct (addr_inj a b j k). Qed.

Lemma lor3 f : frame_addr f -> Z.lor (Z.lor f PTE_PRESENT) PTE_RW = entry f 3.
Proof. intros Hf. rewrite <- Z.lor_assoc. change (Z.lor PTE_PRESENT PTE_RW) with 3. by apply entry_lor. Qed.

(** The static tables are different frames of the first 4 MB. *)
Record tables_ok (pd pt0 physmap : Z) : Prop := {
  to_pd : frame_addr pd; to_pt0 : frame_addr pt0;
  to_pm i : 0 <= i < 16 -> frame_addr (physmap + 4096 * i);
  to_low : 0 < pd < 0x400000 /\ 0 < pt0 < 0x400000 /\ 0 < physmap /\ physmap + 4096 * 16 <= 0x400000;
  to_ne : pd <> pt0 /\ (forall i, 0 <= i < 16 -> physmap + 4096 * i <> pd /\ physmap + 4096 * i <> pt0);
}.

(** What the loop over the 16 direct-map tables leaves. *)
Lemma physmap_loop pd pt0 physmap m n :
  tables_ok pd pt0 physmap -> 0 <= n <= 16 ->
  let m' := foldl (fun m i =>
    let m := wr m (pd + 4 * (768 + i)) (Z.lor (Z.lor (physmap + 4096 * i) PTE_PRESENT) PTE_RW) in
    fill (physmap + 4096 * i) 1024 (fun j => Z.lor (Z.lor ((i * 1024 + j) * PAGE_SIZE) PTE_PRESENT) PTE_RW) m)
    m (seqZ 0 n) in
  (forall i, 0 <= i < 1024 -> rd m' (pd + 4 * i) =
     if (768 <=? i) && (i <? 768 + n) then entry (physmap + 4096 * (i - 768)) 3 else rd m (pd + 4 * i)) /\
  (forall j, 0 <= j < 1024 -> rd m' (pt0 + 4 * j) = rd m (pt0 + 4 * j)) /\
  (forall i j, 0 <= i < n -> 0 <= j < 1024 -> rd m' (physmap + 4096 * i + 4 * j) = entry ((i * 1024 + j) * 4096) 3).
Proof.
  intros [Hpd Hpt Hpm Hlow [Hne Hne']] Hn. destruct Hn as [Hn0 Hn]. cbv zeta.
  revert n Hn0 Hn. refine (natlike_ind _ _ _).
  - intros _. splits; [|done|intros; lia]. intros i Hi.
    destruct (Z.leb_spec 768 i), (Z.ltb_spec i (768 + 0)); simpl; try lia; done.
  - intros n Hn IH Hle. specialize (IH ltac:(lia)). unfold Z.succ. rewrite seqZ_app by lia. rewrite foldl_app.
    change (seqZ (0 + n) 1) with [0 + n]. cbn [foldl]. rewrite Z.add_0_l. set (m1 := foldl _ m (seqZ 0 n)) in *.
    destruct IH as (I1 & I2 & I3). pose proof (Hpm n ltac:(lia)) as Hfn. destruct (Hne' n ltac:(lia)) as [Hn1 Hn2].
    rewrite lor3 by done. splits.
    + intros i Hi. rewrite rd_fill_frame by done. rewrite rd_wr.
      case_decide as Hd.
      * assert (i = 768 + n) as -> by lia. replace (768 + n - 768) with n by lia.
        destruct (Z.leb_spec 768 (768 + n)), (Z.ltb_spec (768 + n) (768 + (n + 1))); simpl; lia || done.
      * rewrite I1 by done. destruct (Z.leb_spec 768 i), (Z.ltb_spec i (768 + n)), (Z.ltb_spec i (768 + (n + 1)));
          simpl; lia || done.
    + intros j Hj. rewrite rd_fill_frame by done. rewrite rd_wr_frame by (done || lia). by apply I2.
    + intros i j Hi Hj. destruct (decide (i = n)) as [->|Hni].
      * rewrite rd_fill_in by done. apply lor3. apply frame_mul. lia.
      * rewrite rd_fill_frame by (done || (apply Hpm; lia) || lia).
        rewrite rd_wr_frame; [apply I3; lia|done|apply Hpm; lia|destruct (Hne' i ltac:(lia)); congruence|lia|done].
Qed.

Lemma paging_init_tables pd pt0 physmap mem_start p :
  tables_ok pd pt0 physmap ->
  let m := pmem (snd (paging_init pd pt0 physmap mem_start p)) in
  (forall i, 0 <= i < 1024 -> rd m (pd + 4 * i) =
     if i =? 0 then entry pt0 3 else if i =? 1023 then entry pd 3
     else if (768 <=? i) && (i <? 784) then entry (physmap + 4096 * (i - 768)) 3 else 0) /\
  (forall j, 0 <= j < 1024 -> rd m (pt0 + 4 * j) = entry (j * 4096) 3) /\
  (forall i j, 0 <= i < 16 -> 0 <= j < 1024 -> rd m (physmap + 4096 * i + 4 * j) = entry ((i * 1024 + j) * 4096) 3).
Proof.
  intros Ht. pose proof Ht as [Hpd Hpt Hpm Hlow [Hne Hne']]. unfold paging_init. cbn [snd pmem].
  set (m0 := wr (wr _ pd _) _ _).
  destruct (physmap_loop pd pt0 physmap m0 16 Ht ltac:(lia)) as (I1 & I2 & I3). cbv zeta in *.
  set (m' := foldl _ m0 (seqZ 0 16)) in *. splits; [| |done].
  - intros i Hi. rewrite I1 by done. change (768 + 16) with 784.
    assert (H0 : rd m0 (pd + 4 * i) = if i =? 0 then entry pt0 3 else if i =? 1023 then entry pd 3 else 0).
    { unfold m0. rewrite !lor3 by done. destruct (Z.eqb_spec i 1023) as [->|H1]; [by rewrite rd_wr_eq|].
      rewrite rd_wr_ne by lia. destruct (Z.eqb_spec i 0) as [->|H2]; [by rewrite Z.add_0_r, rd_wr_eq|].
      rewrite rd_wr_ne by lia. rewrite !rd_fill_frame by (done || congruence). by rewrite rd_fill_in. }
    rewrite H0. by destruct (Z.leb_spec 768 i), (Z.ltb_spec i 784), (Z.eqb_spec i 0), (Z.eqb_spec i 1023); simpl; try lia.
  - intros j Hj. rewrite I2 by done. unfold m0. rewrite rd_wr_frame by (done || lia).
    assert (H0 : forall m w, rd (wr m pd w) (pt0 + 4 * j) = rd m (pt0 + 4 * j)).
    { intros m w. rewrite <- (rd_wr_frame pd 0 w m pt0 j) by (done || lia). by rewrite Z.add_0_r. }
    rewrite H0, rd_fill_in by done. apply lor3. apply (frame_mul j). lia.
Qed.

Lemma paging_init_wf pd pt0 physmap mem_start p :
  tables_ok pd pt0 physmap -> mm_ok pd (snd (paging_init pd pt0 physmap mem_start p)).
Proof.
  intros Ht. pose proof (paging_init_tables pd pt0 physmap mem_start p Ht) as (H1 & _). cbv zeta in H1.
  pose proof Ht as [Hpd Hpt Hpm Hlow [Hne Hne']]. set (p' := snd _) in *.
  assert (Hp : forall i, 0 <= i < 1024 -> exists f fl, pde_is pd (pmem p') i f fl /\
    (tst fl PTE_PRESENT = true -> fl = 3 /\
      ((i = 0 /\ f = pt0) \/ (i = 1023 /\ f = pd) \/ (768 <= i < 784 /\ f = physmap + 4096 * (i - 768))))).
  { intros i Hi. unfold pde_is. rewrite H1 by done. destruct (Z.eqb_spec i 0); [exists pt0, 3; auto 10 with lia|].
    destruct (Z.eqb_spec i 1023); [exists pd, 3; auto 10 with lia|].
    destruct (Z.leb_spec 768 i), (Z.ltb_spec i 784); cbn [andb].
    - exists (physmap + 4096 * (i - 768)), 3. split; [|auto 10 with lia]. split; [done|]. split; [apply Hpm; lia|lia].
    - exists 0, 0. split; [|done]. by repeat split.
    - exists 0, 0. split; [|done]. by repeat split.
    - exists 0, 0. split; [|done]. by repeat split. }
  assert (Hinv : forall i f fl, 0 <= i < 1024 -> pde_is pd (pmem p') i f fl -> tst fl PTE_PRESENT = true -> fl = 3 /\
      ((i = 0 /\ f = pt0) \/ (i = 1023 /\ f = pd) \/ (768 <= i < 784 /\ f = physmap + 4096 * (i - 768)))).
  { intros i f fl Hi Hpi Hti. destruct (Hp i Hi) as (f' & fl' & Hpi' & Hx).
    destruct (pde_is_fun _ _ _ _ _ _ _ Hpi' Hpi) as [<- <-]. auto. }
  split.
  - split.
    + destruct (Hp 1023 ltac:(lia)) as (f & fl & Hpi & _). exists 3. split; [|done].
      split; [by rewrite H1 by lia|]. split; [done|lia].
    + intros i Hi. destruct (Hp i Hi) as (f & fl & Hpi & _). eauto.
    + intros i j f fl f' fl' Hi Hj Hij Hpi Hti Hpj Htj E.
      apply Hinv in Hpi as (_ & Hpi); [|done..]. apply Hinv in Hpj as (_ & Hpj); [|done..].
      assert (Hpp : forall k, 768 <= k < 784 -> physmap + 4096 * (k - 768) <> pd /\ physmap + 4096 * (k - 768) <> pt0)
        by (intros; apply Hne'; lia).
      destruct Hpi as [[-> ->]|[[-> ->]|[Hi' ->]]], Hpj as [[-> ->]|[[-> ->]|[Hj' ->]]]; try lia;
        (destruct (Hpp i ltac:(lia)) || destruct (Hpp j ltac:(lia))); congruence.
  - assert (Eq : freeq p' = init_freeq) by done. split; rewrite Eq.
    + apply NoDup_seqZ.
    + intros k Hk. unfold init_freeq in Hk. apply elem_of_seqZ in Hk.
      change (PAGE_START_INDEX + (NUM_PAGES - PAGE_START_INDEX)) with 16384 in Hk. unfold PAGE_START_INDEX in Hk. lia.
    + intros k i f fl Hk Hi Hpi Hti. unfold init_freeq in Hk. apply elem_of_seqZ in Hk.
      unfold PAGE_START_INDEX in Hk. apply Hinv in Hpi as (_ & Hpi); [|done..]. lia.
Qed.

(** C31: [paging_init] builds well-formed page tables with an empty set of used frames:
    the first 4 MB are mapped to themselves, 64 MB of physical memory are mapped at
    0xC0000000, and the directory maps itself. *)
Theorem paging_init_maps pd pt0 physmap mem_start p :
  tables_ok pd pt0 physmap ->
  let p' := snd (paging_init pd pt0 physmap mem_start p) in
  mm_ok pd p' /\
  (forall v, 0 <= v < 0x400000 -> translate pd (pmem p') v = Some v) /\
  (forall x, 0 <= x < 64 * 1024 * 1024 -> translate pd (pmem p') (0xC0000000 + x) = Some x).
Proof.
  intros Ht. cbv zeta. split; [by apply paging_init_wf|].
  pose proof (paging_init_tables pd pt0 physmap mem_start p Ht) as (H1 & H2 & H3). cbv zeta in *.
  pose proof Ht as [Hpd Hpt Hpm Hlow [Hne Hne']]. set (p' := snd _) in *. clearbody p'.
  assert (Hgo : forall v f k, 0 <= v < 2 ^ 32 -> pde_is pd (pmem p') (pd_index v) f 3 ->
    rd (pmem p') (f + 4 * pt_index v) = entry (k * 4096) 3 -> 0 <= k < 2 ^ 20 ->
    translate pd (pmem p') v = Some (k * 4096 + v mod 4096)).
  { intros v f k Hv Hp Hr Hk. rewrite (translate_unfold pd (pmem p') v f 3) by done. cbv zeta. rewrite Hr.
    rewrite (entry_tst (k * 4096)), entry_frame by (first [by apply frame_mul | done | unfold PTE_PRESENT; lia]). done. }
  split.
  - intros v Hv. rewrite (Hgo v pt0 (v / 4096)); [f_equal; zmod|lia| | |zmod].
    + rewrite pd_index_div. replace (v / 2 ^ 22) with 0 by zmod. split; [by rewrite H1 by lia|]. split; [done|lia].
    + rewrite H2 by apply pt_index_range. rewrite pt_index_div. do 2 f_equal. zmod.
  - intros x Hx. set (i := x / 2 ^ 22). assert (Hi : 0 <= i < 16) by (unfold i; zmod).
    assert (Ei : pd_index (0xC0000000 + x) = 768 + i) by (rewrite pd_index_div; unfold i; zmod).
    assert (Ej : pt_index (0xC0000000 + x) = x / 4096 - i * 1024) by (rewrite pt_index_div; unfold i; zmod).
    rewrite (Hgo _ (physmap + 4096 * i) (x / 4096)); [f_equal; zmod|lia| | |zmod].
    + rewrite Ei. split; [|split; [by apply Hpm|lia]]. rewrite H1 by lia.
      destruct (Z.eqb_spec (768 + i) 0), (Z.eqb_spec (768 + i) 1023); try lia.
      destruct (Z.leb_spec 768 (768 + i)), (Z.ltb_spec (768 + i) 784); try lia. cbn [andb].
      by replace (768 + i - 768) with i by lia.
    + rewrite Ej, H3 by (done || unfold i; zmod). do 2 f_equal. lia.
Qed.

(** ** Running out of frames *)

(** With one frame left and no page table for the address, growing the heap reports
    success although nothing was mapped: [map_page] returns silently when it finds no frame
    for the page table, and the one frame left was already taken for the data page. *)
Theorem expand_heap_silent_failure v p s k :
  mm_ok (cpu_cr3 s) p -> 0 <= v < 2 ^ 32 -> pd_index v <> 1023 -> slot_absent (cpu_cr3 s) (pmem p) (pd_index v) ->
  freeq p = [k] ->
  exists p', expand_frame v (p, s) = Some (true, (p', s)) /\ translate (cpu_cr3 s) (pmem p') v = None /\ freeq p' = [].
Proof.
  intros [Hw Hf] Hv Hvr Hab Eq. set (cr3 := cpu_cr3 s) in *. pose proof (pd_index_range v Hv) as Hr.
  assert (Hk : 0 < k < 2 ^ 20) by (apply (fw_range _ _ Hf); rewrite Eq; by left).
  unfold expand_frame, alloc_page_frame, alloc_phys_page. rewrite Eq. change PAGE_SIZE with 4096.
  destruct (Z.eqb_spec (k * 4096) 0) as [|Hk0]; [lia|]. cbn [negb].
  set (p1 := (p <| freeq := [] |>) <| pg_flags := _ |>). set (p2 := set_ref (k * 4096) 1 p1).
  destruct (Z.eqb_spec (k * 4096) 0); [done|].
  assert (E2 : pmem p2 = pmem p /\ freeq p2 = []) by (unfold p2, set_ref; by destruct (_ <? _)). destruct E2 as [Em Eq2].
  assert (Hmap : map_page cr3 v (k * 4096) (Z.lor PTE_PRESENT PTE_RW) p2 = Some p2).
  { unfold map_page, ensure_pt. rewrite vload_pd by (rewrite ?Em; done || lia). rewrite Em.
    cbn [mbind option_bind]. unfold slot_absent in Hab. rewrite Hab. cbn [negb].
    assert (alloc_phys_page p2 = (0, p2)) as -> by (unfold alloc_phys_page; by rewrite Eq2). done. }
  fold cr3. rewrite Hmap. exists p2. splits; [done| |done]. rewrite Em.
  destruct (pw_entry _ _ Hw (pd_index v) Hr) as (f & fl & Hp). rewrite (translate_unfold cr3 (pmem p) v f fl) by done.
  unfold slot_absent in Hab. by rewrite (pde_tst _ _ _ _ _ Hp) in Hab; rewrite Hab.
Qed.

(** ** Copy on write *)

(** A write fault on a present, user, read-only page whose frame has one reference is
    resolved in place: the entry becomes writable, the page keeps its frame, and no other
    page changes. *)
Theorem cow_exclusive_in_place v p s f fl pf pfl :
  let cr3 := cpu_cr3 s in
  mm_ok cr3 p -> 0 <= v < 2 ^ 32 -> pd_index v <> 1023 ->
  pde_is cr3 (pmem p) (pd_index v) f fl -> tst fl PTE_PRESENT = true ->
  rd (pmem p) (f + 4 * pt_index v) = entry pf pfl -> frame_addr pf -> 0 <= pfl < 4096 ->
  tst pfl PTE_PRESENT = true -> tst pfl PTE_USER = true -> tst pfl PTE_RW = false ->
  rd (ref_count p) (pf / 4096) = 1 ->
  exists p', vm_fault_cow v (p, s) = Some (0, (p', s)) /\ mm_ok cr3 p' /\ freeq p' = freeq p /\
    rd (pmem p') (f + 4 * pt_index v) = Z.lor (entry pf pfl) PTE_RW /\ same_space cr3 (pmem p) (pmem p').
Proof.
  intros cr3 Hok Hv Hvr Hp Ht Hpte Hpf Hpfl Hpr Hus Hrw Href. pose proof Hok as [Hw Hf].
  pose proof (pd_index_range v Hv) as Hr. pose proof (pt_index_range v) as Hr'.
  unfold vm_fault_cow. fold cr3. rewrite vload_pd by (done || lia). cbn [mbind option_bind].
  rewrite (pde_tst _ _ _ _ _ Hp), Ht. cbn [negb].
  rewrite (vload_pt cr3 p (pd_index v) (pt_index v) f fl) by done. cbn [mbind option_bind]. rewrite Hpte.
  assert (Hb : forall b, 0 <= b < 4096 -> tst (entry pf pfl) b = tst pfl b) by (intros; by apply entry_tst).
  rewrite !Hb by (unfold PTE_PRESENT, PTE_USER, PTE_RW; lia). rewrite Hpr, Hus, Hrw. cbn [negb].
  rewrite entry_frame, Z.shiftr_div_pow2 by (done || lia). change (2 ^ 12) with 4096. rewrite Href.
  cbn [Z.eqb Pos.eqb].
  destruct (pt_store_ok cr3 p (pd_index v) (pt_index v) f fl (Z.lor (entry pf pfl) PTE_RW) Hok)
    as (p2 & E2 & Hok2 & Eq & _ & Htr); [lia|done|done|done|].
  rewrite E2. cbn [mbind option_bind]. exists p2. splits; [done|done|done| |].
  - rewrite (vstore_pt cr3 p _ _ f fl) in E2 by (done || lia). apply (inj Some) in E2. rewrite <- E2. apply rd_wr_eq.
  - intros v' Hv' Hvr'. rewrite Htr by done. case_decide as Hd; [|done]. destruct Hd as [Ed Et].
    rewrite (translate_unfold cr3 (pmem p) v' f fl) by (rewrite ?Ed; done). rewrite Ht. cbv zeta. rewrite Et, Hpte, Hb, Hpr by (unfold PTE_PRESENT; lia).
    rewrite entry_frame by done. rewrite <- (entry_lor pf pfl), <- Z.lor_assoc by done.
    assert (Hl : 0 <= Z.lor pfl PTE_RW < 4096).
    { split; [apply Z.lor_nonneg; unfold PTE_RW; lia|].
      assert (Hland : Z.land (Z.lor pfl PTE_RW) 4095 = Z.lor pfl PTE_RW).
      { rewrite Z.land_lor_distr_l, land_offset, Z.mod_small by lia. done. }
      rewrite <- Hland, land_offset. by apply Z.mod_pos_bound. }
    rewrite entry_lor, (entry_tst pf), entry_frame by (done || unfold PTE_PRESENT; lia).
    replace (tst (Z.lor pfl PTE_RW) PTE_PRESENT) with true; [done|]. symmetry.
    unfold tst in *. rewrite Z.land_lor_distr_l. change (Z.land PTE_RW PTE_PRESENT) with 0. by rewrite Z.lor_0_r.
Qed.

(** ** Witnesses *)

Lemma boot_tables : tables_ok 0x100000 0x101000 0x102000.
Proof. split; [done|done| |lia|split; [lia|intros; lia]]. intros i Hi. split; [zmod|lia]. Qed.

Definition boot_paging : paging := snd (paging_init 0x100000 0x101000 0x102000 0 (mk_paging ∅ [] ∅ ∅ 0)).

Lemma boot_mm_ok : mm_ok 0x100000 boot_paging.
Proof. apply paging_init_wf, boot_tables. Qed.

Lemma paging_init_maps_witness :
  let p' := snd (paging_init 0x100000 0x101000 0x102000 0 (mk_paging ∅ [] ∅ ∅ 0)) in
  mm_ok 0x100000 p' /\
  (forall v, 0 <= v < 0x400000 -> translate 0x100000 (pmem p') v = Some v) /\
  (forall x, 0 <= x < 64 * 1024 * 1024 -> translate 0x100000 (pmem p') (0xC0000000 + x) = Some x).
Proof. exact (paging_init_maps 0x100000 0x101000 0x102000 0 (mk_paging ∅ [] ∅ ∅ 0) boot_tables). Defined.

Lemma map_page_maps_witness :
  exists p', map_page 0x100000 0xD0000000 0x400000 3 boot_paging = Some p' /\ mm_ok 0x100000 p' /\
    ((p' = boot_paging /\ slot_absent 0x100000 (pmem boot_paging) (pd_index 0xD0000000) /\ freeq boot_paging = []) \/
     (forall v', 0 <= v' < 2 ^ 32 -> pd_index v' <> 1023 ->
        translate 0x100000 (pmem p') v' =
          if decide (same_page 0xD0000000 v') then Some (0x400000 + v' mod 4096)
          else translate 0x100000 (pmem boot_paging) v')).
Proof.
  apply (map_page_maps 0x100000 0xD0000000 0x400000 3 boot_paging); [exact boot_mm_ok|lia|discriminate|split; [reflexivity|lia]|lia|reflexivity].
Defined.

Lemma unmap_page_unmaps_witness :
  exists p', unmap_page 0x100000 0x1000 boot_paging = Some p' /\ mm_ok 0x100000 p' /\
    forall v', 0 <= v' < 2 ^ 32 -> pd_index v' <> 1023 ->
      translate 0x100000 (pmem p') v' =
        if decide (same_page 0x1000 v') then None else translate 0x100000 (pmem boot_paging) v'.
Proof. apply (unmap_page_unmaps 0x100000 0x1000 boot_paging); [exact boot_mm_ok|lia|discriminate]. Defined.

Lemma page_present_correct_witness :
  page_present 0x100000 0x1000 boot_paging =
    Some (if translate 0x100000 (pmem boot_paging) 0x1000 is Some _ then 1 else 0).
Proof. apply (page_present_correct 0x100000 0x1000 boot_paging); [exact boot_mm_ok|lia]. Defined.

Definition demo_cpu : sched := mk_sched ∅ ∅ ∅ IDLE 1 0 0x100000 0.

Lemma alloc_free_frame_roundtrip_witness :
  exists p1, alloc_page_frame (mk_paging ∅ [1024; 1025] ∅ ∅ 0, demo_cpu) = (1024 * 4096, (p1, demo_cpu)) /\
    freeq p1 = [1025] /\ (1024 ∉ [1025]) /\ rd (ref_count p1) 1024 = 1 /\
    freeq (free_page_frame (1024 * 4096) p1) = [1024; 1025].
Proof.
  apply (alloc_free_frame_roundtrip (mk_paging ∅ [1024; 1025] ∅ ∅ 0) demo_cpu 1024 [1025]); [reflexivity| |].
  - apply (bool_decide_unpack (NoDup [1024; 1025])). reflexivity.
  - split; [discriminate|reflexivity].
Defined.

Lemma frame_freed_with_last_reference_witness :
  freeq (Nat.iter 2 (free_page_frame (1024 * 4096)) (mk_paging ∅ [] {[ 1024 := 2 ]} ∅ 0)) = [1024].
Proof.
  rewrite (frame_freed_with_last_reference 1024 (mk_paging ∅ [] {[ 1024 := 2 ]} ∅ 0) 2);
    [vm_compute; reflexivity|split; [discriminate|reflexivity]|vm_compute; discriminate].
Defined.

Lemma paging_init_freeq pd pt0 physmap ms p : freeq (snd (paging_init pd pt0 physmap ms p)) = init_freeq.
Proof. done. Qed.

Lemma boot_one_frame : mm_ok 0x100000 (boot_paging <| freeq := [1024] |>).
Proof.
  apply mm_ok_freeq; [exact boot_mm_ok|apply NoDup_singleton|]. intros k ->%list_elem_of_singleton.
  unfold boot_paging. rewrite paging_init_freeq. unfold init_freeq. apply elem_of_seqZ. by vm_compute.
Qed.

Lemma boot_absent : slot_absent 0x100000 (pmem (boot_paging <| freeq := [1024] |>)) (pd_index 0xD0000000).
Proof. vm_compute. reflexivity. Qed.

Lemma expand_heap_silent_failure_witness :
  exists p', expand_frame 0xD0000000 (boot_paging <| freeq := [1024] |>, demo_cpu) = Some (true, (p', demo_cpu)) /\
    translate (cpu_cr3 demo_cpu) (pmem p') 0xD0000000 = None /\ freeq p' = [].
Proof.
  exact (expand_heap_silent_failure 0xD0000000 (boot_paging <| freeq := [1024] |>) demo_cpu 1024
    boot_one_frame ltac:(lia) ltac:(discriminate) boot_absent eq_refl).
Defined.

(** A user page at 0x1000, read-only, in the exclusively owned frame 1024. *)
Definition cow_demo : paging :=
  (boot_paging <| pmem := wr (pmem boot_paging) (0x101000 + 4 * 1) 0x400005 |>) <| ref_count := {[ 1024 := 1 ]} |>.

Lemma mm_ok_store cr3 p m r :
  (forall i, 0 <= i < 1024 -> rd m (cr3 + 4 * i) = rd (pmem p) (cr3 + 4 * i)) ->
  mm_ok cr3 p -> mm_ok cr3 ((p <| pmem := m |>) <| ref_count := r |>).
Proof.
  intros E [Hw [H1 H2 H3]]. split; [by apply (pt_wf_ext cr3 (pmem p))|]. split; [exact H1|exact H2|].
  intros k i f fl Hk Hi Hp Ht. apply (pde_is_ext cr3 (pmem p)) in Hp; [|by apply E]. by apply (H3 k i f fl).
Qed.

Lemma cow_demo_ok : mm_ok 0x100000 cow_demo.
Proof. apply mm_ok_store; [|exact boot_mm_ok]. intros i Hi. apply rd_wr_ne. lia. Qed.

Lemma cow_demo_pde : pde_is 0x100000 (pmem cow_demo) (pd_index 0x1000) 0x101000 3.
Proof. split; [vm_compute; reflexivity|]. split; [split; [reflexivity|lia]|lia]. Qed.

Lemma cow_demo_pte : rd (pmem cow_demo) (0x101000 + 4 * pt_index 0x1000) = entry 0x400000 5.
Proof. apply rd_wr_eq. Qed.

Lemma cow_exclusive_in_place_witness :
  exists p', vm_fault_cow 0x1000 (cow_demo, demo_cpu) = Some (0, (p', demo_cpu)) /\ mm_ok (cpu_cr3 demo_cpu) p' /\
    freeq p' = freeq cow_demo /\ rd (pmem p') (0x101000 + 4 * pt_index 0x1000) = Z.lor (entry 0x400000 5) PTE_RW /\
    same_space (cpu_cr3 demo_cpu) (pmem cow_demo) (pmem p').
Proof.
  exact (cow_exclusive_in_place 0x1000 cow_demo demo_cpu 0x101000 3 0x400000 5
    cow_demo_ok ltac:(lia) ltac:(discriminate) cow_demo_pde eq_refl cow_demo_pte
    (frame_mul 1024 ltac:(lia)) ltac:(lia) eq_refl eq_refl eq_refl eq_refl).
Defined.
