(* ===== verification/Cstr.v ===== *)
(** * C strings (src/rust/src/lib.rs, include/kernel/kstring.h)

    A NUL-terminated string is the list of its bytes before the NUL.  The comparison
    functions are those of the kernel's string library, which read the NUL as byte 0. *)

From S2P Require Import Prelude.

Definition cstr (s : list Z) : Prop := Forall (fun c => 0 < c < 256) s.

(** [s[i]], the NUL included. *)
Definition char_at (s : list Z) (i : nat) : Z := default 0 (s !! i).

Definition strlen (s : list Z) : Z := Z.of_nat (length s).

Fixpoint strcmp (s1 s2 : list Z) : Z :=
  let a := char_at s1 0 in
  let b := char_at s2 0 in
  match s1, s2 with
  | _ :: s1', _ :: s2' => if (a =? 0) || negb (a =? b) then a - b else strcmp s1' s2'
  | _, _ => a - b
  end.

Fixpoint strncmp (s1 s2 : list Z) (n : nat) : Z :=
  match n with
  | O => 0
  | S n' =>
      let a := char_at s1 0 in
      let b := char_at s2 0 in
      if negb (a =? b) || (a =? 0) then a - b else strncmp (tail s1) (tail s2) n'
  end.

(** The index of the first [c], [None] being NULL. *)
Fixpoint strchr (s : list Z) (c : Z) : option nat :=
  match s with
  | [] => None
  | x :: s' => if x =? c then Some 0%nat else S <$> strchr s' c
  end.

Definition SLASH : Z := 47.

(** The bytes of a literal. *)
Fixpoint lit (s : string) : list Z :=
  match s with
  | EmptyString => []
  | String c s' => Z.of_N (Ascii.N_of_ascii c) :: lit s'
  end.

(** A literal with a line feed at its end. *)
Definition NL : Z := 10.
Definition line (s : string) : list Z := lit s ++ [NL].

(** The bytes before the first NUL. *)
Fixpoint until_nul (l : list Z) : list Z :=
  match l with
  | [] => []
  | c :: l' => if c =? 0 then [] else c :: until_nul l'
  end.

(** ** Lemmas *)

Lemma strcmp_eq s1 s2 : cstr s1 -> cstr s2 -> strcmp s1 s2 = 0 <-> s1 = s2.
Proof.
  intros H1. revert s2. induction H1 as [|a s1 Ha H1 IH]; intros [|b s2] H2;
    unfold char_at; cbn [strcmp char_at lookup list_lookup default]; try (apply Forall_cons_1 in H2 as [Hb H2]).
  - done.
  - unfold char_at; simpl. split; [lia|done].
  - unfold char_at; simpl. split; [lia|done].
  - unfold char_at; simpl. replace (a =? 0) with false by lia. simpl.
    destruct (Z.eqb_spec a b) as [->|Hne]; simpl.
    + rewrite IH by done. split; congruence.
    + split; [lia|congruence].
Qed.

Lemma strncmp_prefix s p :
  cstr s -> cstr p -> strncmp s p (length p) = 0 <-> p `prefix_of` s.
Proof.
  intros Hs Hp. revert s Hs. induction Hp as [|b p Hb Hp IH]; intros s Hs; cbn [length strncmp].
  - split; [|done]. intros _. apply prefix_nil.
  - change (char_at (b :: p) 0) with b.
    destruct s as [|a s]; [change (char_at [] 0) with 0 | change (char_at (a :: s) 0) with a]; cbn [tail].
    + replace (0 =? b) with false by lia. cbn [negb orb]. split; [lia|]. intros H. by apply prefix_nil_not in H.
    + apply Forall_cons_1 in Hs as [Ha Hs]. replace (a =? 0) with false by lia.
      rewrite orb_false_r. destruct (Z.eqb_spec a b) as [->|Hne]; simpl.
      * rewrite IH by done. split; [apply prefix_cons|apply prefix_cons_inv_2].
      * split; [lia|]. intros H. by apply prefix_cons_inv_1 in H.
Qed.

(** With [strncmp mp path (strlen mp)] the first argument is the prefix. *)
Lemma strncmp_sym0 s p n : strncmp s p n = 0 <-> strncmp p s n = 0.
Proof.
  revert s p. induction n as [|n IH]; intros s p; simpl; [done|].
  destruct (Z.eqb_spec (char_at s 0) (char_at p 0)) as [E|E].
  - rewrite E, Z.eqb_refl. simpl. destruct (char_at p 0 =? 0); [lia|]. apply IH.
  - replace (char_at p 0 =? char_at s 0) with false by lia. simpl. lia.
Qed.

Lemma char_at_app_r s t : char_at (s ++ t) (length s) = char_at t 0.
Proof. unfold char_at. rewrite lookup_app_r by done. by rewrite Nat.sub_diag. Qed.

Lemma strchr_spec s c :
  match strchr s c with
  | Some i => exists s1 s2, s = s1 ++ c :: s2 /\ length s1 = i /\ c ∉ s1
  | None => c ∉ s
  end.
Proof.
  induction s as [|x s IH]; simpl; [set_solver|].
  destruct (Z.eqb_spec x c) as [->|Hne].
  - exists [], s. split; [done|]. split; [done|]. set_solver.
  - destruct (strchr s c) as [i|]; simpl; [|set_solver].
    destruct IH as (s1 & s2 & -> & <- & Hn). exists (x :: s1), s2. set_solver.
Qed.

Lemma cstr_app s t : cstr (s ++ t) <-> cstr s /\ cstr t.
Proof. apply Forall_app. Qed.

(** A decision procedure for concrete strings. *)
#[export] Instance cstr_decision s : Decision (cstr s) := _.

Lemma cstr_check s : bool_decide (cstr s) = true -> cstr s.
Proof. apply bool_decide_eq_true. Qed.
