(* ===== verification/Ports.v ===== *)
(** * Port I/O and the serial port (src/include/kernel/ports.h, src/kernel/serial.c)

    Hardware behind the I/O ports is a state [D] with the four port instructions, the class
    [PortIO].  A loop that polls a status register runs at most [polls] times; [None] is a
    loop that goes on. *)

From S2P Require Import Prelude Cstr.

Class PortIO (D : Type) := {
  inb : Z -> D -> Z * D;
  inw : Z -> D -> Z * D;
  outb : Z -> Z -> D -> D;
  outw : Z -> Z -> D -> D;
  polls : nat;
}.

(** ** serial.c *)

Definition COM1 : Z := 0x3F8.

Section Serial.
Context {D : Type} `{PortIO D}.
Implicit Types d : D.

Definition serial_transmit_empty d : bool * D := let '(s, d) := inb (COM1 + 5) d in (tst s 0x20, d).

Fixpoint serial_wait (n : nat) d : option D :=
  match n with
  | O => None
  | S n' => let '(b, d) := serial_transmit_empty d in if b then Some d else serial_wait n' d
  end.

Definition serial_write_char (c : Z) d : option D :=
  d ← serial_wait polls d;
  Some (outb COM1 c d).

Fixpoint serial_write (s : list Z) d : option D :=
  match s with
  | [] => Some d
  | c :: s' =>
      d ← (if c =? NL then serial_write_char 13 d else Some d);
      d ← serial_write_char c d;
      serial_write s' d
  end.

Definition serial_init d : D :=
  let d := outb (COM1 + 1) 0x00 d in
  let d := outb (COM1 + 3) 0x80 d in
  let d := outb (COM1 + 0) 0x03 d in
  let d := outb (COM1 + 1) 0x00 d in
  let d := outb (COM1 + 3) 0x03 d in
  let d := outb (COM1 + 2) 0xC7 d in
  outb (COM1 + 4) 0x0B d.

(** The digits, from the last one. *)
Fixpoint serial_hex_loop (n : nat) (num : Z) (buf : list Z) : list Z :=
  match n with
  | O => buf
  | S n' => serial_hex_loop n' (Z.shiftr num 4) (char_at (lit "0123456789ABCDEF") (Z.to_nat (Z.land num 0xF)) :: buf)
  end.

(** What [serial_write_hex] writes. *)
Definition hex_text (n : Z) : list Z := serial_hex_loop 8 (wrap32 n) [].

Definition serial_write_hex (num : Z) d : option D := serial_write (serial_hex_loop 8 (wrap32 num) []) d.

(** ** A serial port that is ready in time

    [sent] is what the line has carried, [delay] how many more polls find the transmitter
    busy.  Reading the line status does not send; a byte written to the data port of a ready
    transmitter is sent. *)
Class Uart := {
  sent : D -> list Z;
  delay : D -> nat;
  uart_delay d : (delay d < polls)%nat;
  uart_poll d :
    let '(s, d') := inb (COM1 + 5) d in
    sent d' = sent d /\ (if tst s 0x20 then True else (delay d' < delay d)%nat);
  uart_send c d : sent (outb COM1 c d) = sent d ++ [c];
}.

Context `{!Uart}.

Lemma serial_wait_spec n d : (delay d < n)%nat -> exists d', serial_wait n d = Some d' /\ sent d' = sent d.
Proof.
  revert d. induction n as [|n IH]; intros d Hd; [lia|]. cbn [serial_wait]. unfold serial_transmit_empty.
  pose proof (uart_poll d) as Hp. destruct (inb (COM1 + 5) d) as [s d']. destruct Hp as [Hs Ht].
  destruct (tst s 0x20); [by exists d'|]. destruct (IH d') as (d2 & -> & E); [lia|]. exists d2. split; [done|]. congruence.
Qed.

Lemma serial_write_char_spec c d : exists d', serial_write_char c d = Some d' /\ sent d' = sent d ++ [c].
Proof.
  unfold serial_write_char. destruct (serial_wait_spec polls d (uart_delay d)) as (d' & -> & E). simpl.
  eexists. split; [done|]. by rewrite uart_send, E.
Qed.

(** A carriage return in front of every line feed. *)
Definition crlf (s : list Z) : list Z := s ≫= (fun c => if c =? NL then [13; c] else [c]).

Lemma serial_write_spec s d : exists d', serial_write s d = Some d' /\ sent d' = sent d ++ crlf s.
Proof.
  revert d. induction s as [|c s IH]; intros d; cbn [serial_write].
  - exists d. split; [done|]. by rewrite app_nil_r.
  - assert (exists d1, (if c =? NL then serial_write_char 13 d else Some d) = Some d1
              /\ sent d1 = sent d ++ (if c =? NL then [13] else [])) as (d1 & -> & E1).
    { destruct (c =? NL); [apply serial_write_char_spec|]. exists d. by rewrite app_nil_r. }
    simpl. destruct (serial_write_char_spec c d1) as (d2 & -> & E2). simpl.
    destruct (IH d2) as (d3 & -> & E3). exists d3. split; [done|]. rewrite E3, E2, E1.
    unfold crlf. cbn [mbind list_bind]. destruct (c =? NL); by rewrite <- !app_assoc.
Qed.
End Serial.

(** ** Hexadecimal output *)

Definition hex_value (c : Z) : Z := if c <? 65 then c - 48 else c - 55.

Fixpoint parse_hex (s : list Z) (acc : Z) : Z :=
  match s with [] => acc | c :: s' => parse_hex s' (acc * 16 + hex_value c) end.

Lemma parse_hex_app s t acc : parse_hex (s ++ t) acc = parse_hex t (parse_hex s acc).
Proof. revert acc. induction s as [|c s IH]; intros acc; simpl; [done|]. apply IH. Qed.

Lemma hex_char v : 0 <= v ->
  let c := char_at (lit "0123456789ABCDEF") (Z.to_nat (Z.land v 0xF)) in 48 <= c /\ hex_value c = v mod 16.
Proof.
  intros Hv. change 0xF with (Z.ones 4). rewrite Z.land_ones by lia. change (2 ^ 4) with 16.
  assert (exists n, (n < 16)%nat /\ v mod 16 = Z.of_nat n) as (n & Hn & ->).
  { pose proof (Z.mod_pos_bound v 16 ltac:(lia)). exists (Z.to_nat (v mod 16)). lia. }
  rewrite Nat2Z.id. do 16 (destruct n as [|n]; [split; [by vm_compute|done]|]). lia.
Qed.

Lemma serial_hex_loop_app n v p : serial_hex_loop n v p = serial_hex_loop n v [] ++ p.
Proof.
  revert v p. induction n as [|n IH]; intros v p; cbn [serial_hex_loop]; [done|].
  rewrite IH, (IH _ [_]), <- app_assoc. done.
Qed.

Lemma serial_hex_loop_spec n v acc : 0 <= v ->
  let s := serial_hex_loop n v [] in
  length s = n /\ Forall (fun c => 48 <= c) s /\ parse_hex s acc = acc * 16 ^ Z.of_nat n + v mod 16 ^ Z.of_nat n.
Proof.
  revert v acc. induction n as [|n IH]; intros v acc Hv; cbn [serial_hex_loop].
  - split; [done|]. split; [constructor|]. simpl. rewrite Z.mod_1_r. lia.
  - destruct (hex_char v Hv) as [Hc1 Hc2]. set (c := char_at _ _) in *.
    destruct (IH (Z.shiftr v 4) acc) as (H1 & H2 & H3); [by apply Z.shiftr_nonneg|].
    rewrite serial_hex_loop_app. split; [rewrite length_app; cbn; lia|]. split; [apply Forall_app; by repeat constructor|].
    rewrite parse_hex_app, H3. cbn [parse_hex]. rewrite Hc2.
    rewrite Z.shiftr_div_pow2 by lia. change (2 ^ 4) with 16.
    replace (Z.of_nat (S n)) with (Z.of_nat n + 1) by lia. rewrite Z.pow_add_r, Z.pow_1_r by lia.
    assert (0 < 16 ^ Z.of_nat n) by (apply Z.pow_pos_nonneg; lia).
    rewrite (Z.mul_comm (16 ^ Z.of_nat n)), (Z.rem_mul_r v 16) by lia. lia.
Qed.

Lemma crlf_plain s : Forall (fun c => 48 <= c) s -> crlf s = s.
Proof.
  induction 1 as [|c s Hc _ IH]; [done|]. unfold crlf in *. cbn [mbind list_bind].
  replace (c =? NL) with false by (unfold NL; lia). simpl. by f_equal.
Qed.

Section SerialTheorems.
Context {D : Type} `{PortIO D, !Uart}.

(** [serial_write_hex] on a port that gets ready in time sends eight hexadecimal digits,
    and reading them back gives the 32-bit number. *)
Theorem serial_write_hex_roundtrip num (d : D) :
  exists d' digits, serial_write_hex num d = Some d' /\ sent d' = sent d ++ digits
    /\ length digits = 8%nat /\ parse_hex digits 0 = wrap32 num.
Proof.
  pose proof (wrap32_range num) as Hr. unfold serial_write_hex.
  destruct (serial_hex_loop_spec 8 (wrap32 num) 0) as (H1 & H2 & H3); [lia|].
  set (digits := serial_hex_loop 8 (wrap32 num) []) in *.
  destruct (serial_write_spec digits d) as (d' & -> & E). exists d', digits. split; [done|].
  rewrite crlf_plain in E by done. split; [done|]. split; [done|]. rewrite H3. simpl. apply Z.mod_small. exact Hr.
Qed.
End SerialTheorems.

(** ** A port that is always ready *)
Definition serial_log : Type := list Z.
#[global] Instance serial_log_ports : PortIO serial_log := {|
  inb port d := (0x20, d); inw port d := (0, d);
  outb port v d := if port =? COM1 then d ++ [v] else d; outw port v d := d; polls := 1 |}.
#[global] Instance serial_log_uart : Uart.
Proof.
  refine {| sent := fun d : serial_log => d; delay := fun _ => 0%nat |}; [intros d; simpl; lia|done|done].
Defined.

Lemma serial_hello : serial_write (line "ok") ([] : serial_log) = Some [111; 107; 13; 10].
Proof. reflexivity. Qed.
