(* ===== verification/Keyboard.v ===== *)
(** * Keyboard driver (src/driver/keyboard.c)

    The scancode state machine and the ring buffer of typed characters.  [keyboard_handler]
    takes the byte that the code reads from port 0x60; the end-of-interrupt commands to the
    interrupt controller are not modelled. *)

From S2P Require Import Prelude Cstr.

Definition BUFFER_SIZE : Z := 256.
Definition KG_SHIFT : Z := 0.

Definition KEY_UP : Z := 1.
Definition KEY_DOWN : Z := 2.
Definition KEY_LEFT : Z := 3.
Definition KEY_RIGHT : Z := 4.
Definition KEY_HOME : Z := 0x10.
Definition KEY_END : Z := 0x11.
Definition KEY_PGUP : Z := 0x12.
Definition KEY_PGDN : Z := 0x13.
Definition KEY_INS : Z := 0x14.
Definition KEY_DEL : Z := 0x15.

Record kbd := mk_kbd {
  key_buffer : gmap Z Z;
  head : Z;
  tail : Z;
  key_down : gmap Z Z;
  k_down : gmap Z Z;
  shift_state : Z;
  caps_lock : Z;
  num_lock : Z;
  rep : Z;
  prev_scancode : Z;
}.

#[export] Instance eta_kbd : Eta kbd := fun k => mk_kbd
  (key_buffer k) (head k) (tail k) (key_down k) (k_down k) (shift_state k) (caps_lock k)
  (num_lock k) (rep k) (prev_scancode k).

Definition kbd_zero : kbd := mk_kbd ∅ 0 0 ∅ ∅ 0 0 0 0 0.

Definition scancode_to_ascii : list Z :=
  [0; 27] ++ lit "1234567890-=" ++ [8; 9] ++ lit "qwertyuiop[]" ++ [10; 0] ++ lit "asdfghjkl;'`"
  ++ [0] ++ lit "\zxcvbnm,./" ++ [0] ++ lit "*" ++ [0] ++ lit " " ++ replicate 70 0.

Definition shift_symbols : list Z := lit "!@#$%^&*(".

Definition push_to_buffer (c : Z) (k : kbd) : kbd :=
  let next := (head k + 1) mod BUFFER_SIZE in
  if negb (next =? tail k) then
    k <| key_buffer := wr (key_buffer k) (head k) c |> <| head := next |>
  else k.

Definition getchar (k : kbd) : Z * kbd :=
  if tail k =? head k then (0, k)
  else (rd (key_buffer k) (tail k), k <| tail := (tail k + 1) mod BUFFER_SIZE |>).

Definition test_bit (nr : Z) (addr : gmap Z Z) : Z :=
  Z.land (Z.shiftr (rd addr (Z.shiftr nr 5)) (Z.land nr 31)) 1.

Definition set_bit (nr : Z) (addr : gmap Z Z) : gmap Z Z :=
  let i := Z.shiftr nr 5 in wr addr i (Z.lor (rd addr i) (Z.shiftl 1 (Z.land nr 31))).

Definition clear_bit (nr : Z) (addr : gmap Z Z) : gmap Z Z :=
  let i := Z.shiftr nr 5 in wr addr i (Z.ldiff (rd addr i) (Z.shiftl 1 (Z.land nr 31))).

Definition do_shift (value : Z) (up_flag : bool) (k : kbd) : kbd :=
  if negb (rep k =? 0) then k
  else
    let k :=
      if up_flag then
        if negb (rd (k_down k) value =? 0)
        then k <| k_down := wr (k_down k) value (rd (k_down k) value - 1) |> else k
      else k <| k_down := wr (k_down k) value (rd (k_down k) value + 1) |> in
    if negb (rd (k_down k) value =? 0)
    then k <| shift_state := Z.lor (shift_state k) (Z.shiftl 1 value) |>
    else k <| shift_state := Z.ldiff (shift_state k) (Z.shiftl 1 value) |>.

(** [x = !x] *)
Definition lnot (x : Z) : Z := if x =? 0 then 1 else 0.

Definition caps_toggle (k : kbd) : kbd :=
  if negb (rep k =? 0) then k else k <| caps_lock := lnot (caps_lock k) |>.

Definition push_arrow (scancode : Z) (k : kbd) : kbd :=
  if scancode =? 0x47 then push_to_buffer KEY_HOME k
  else if scancode =? 0x48 then push_to_buffer KEY_UP k
  else if scancode =? 0x49 then push_to_buffer KEY_PGUP k
  else if scancode =? 0x4B then push_to_buffer KEY_LEFT k
  else if scancode =? 0x4D then push_to_buffer KEY_RIGHT k
  else if scancode =? 0x4F then push_to_buffer KEY_END k
  else if scancode =? 0x50 then push_to_buffer KEY_DOWN k
  else if scancode =? 0x51 then push_to_buffer KEY_PGDN k
  else if scancode =? 0x52 then push_to_buffer KEY_INS k
  else if scancode =? 0x53 then push_to_buffer KEY_DEL k
  else k.

Definition kp_num : list Z := lit "789-456+1230.".

Definition handle_keypad (scancode : Z) (k : kbd) : kbd :=
  if scancode =? 0x4A then push_to_buffer 45 k
  else if scancode =? 0x4E then push_to_buffer 43 k
  else if scancode =? 0x37 then push_to_buffer 42 k
  else if (0x47 <=? scancode) && (scancode <=? 0x53) then
    if tst (num_lock k) 1 then push_to_buffer (char_at kp_num (Z.to_nat (scancode - 0x47))) k
    else push_arrow scancode k
  else k.

(** The shifted character of a key that is not a letter. *)
Definition shifted (c : Z) : Z :=
  if (49 <=? c) && (c <=? 57) then char_at shift_symbols (Z.to_nat (c - 49))
  else if c =? 48 then 41
  else if c =? 45 then 95
  else if c =? 61 then 43
  else if c =? 91 then 123
  else if c =? 93 then 125
  else if c =? 59 then 58
  else if c =? 39 then 34
  else if c =? 96 then 126
  else if c =? 92 then 124
  else if c =? 44 then 60
  else if c =? 46 then 62
  else if c =? 47 then 63
  else c.

(** The last part of the handler: an ordinary key. *)
Definition type_key (scancode : Z) (k : kbd) : kbd :=
  let c := char_at scancode_to_ascii (Z.to_nat scancode) in
  if negb (c =? 0) then
    let c :=
      if (97 <=? c) && (c <=? 122) then
        if tst (Z.lxor (shift_state k) (caps_lock k)) 1 then c - 32 else c
      else if tst (shift_state k) 1 then shifted c
      else c in
    push_to_buffer c k
  else k.

Definition is_shift (scancode : Z) : bool := (scancode =? 0x2A) || (scancode =? 0x36).

(** A key after an E0 or E1 byte. *)
Definition prefixed_key (scancode : Z) (up_flag : bool) (k : kbd) : kbd :=
  let k := k <| prev_scancode := 0 |> in
  if is_shift scancode then k
  else if negb up_flag then
    if scancode =? 0x1C then push_to_buffer 10 k
    else if scancode =? 0x35 then push_to_buffer 47 k
    else push_arrow scancode k
  else k.

Definition key_up (scancode : Z) (k : kbd) : kbd :=
  let k := k <| key_down := clear_bit scancode (key_down k) |> <| rep := 0 |> in
  if is_shift scancode then do_shift KG_SHIFT true k else k.

Definition key_press (scancode : Z) (k : kbd) : kbd :=
  let k := k <| rep := test_bit scancode (key_down k) |> in
  let k := k <| key_down := set_bit scancode (key_down k) |> in
  if is_shift scancode then do_shift KG_SHIFT false k
  else if scancode =? 0x3A then (if rep k =? 0 then caps_toggle k else k)
  else if scancode =? 0x45 then
    (if rep k =? 0 then k <| num_lock := lnot (num_lock k) |> else k)
  else if (scancode =? 0x37) || (scancode =? 0x4A) || ((0x47 <=? scancode) && (scancode <=? 0x53))
  then handle_keypad scancode k
  else type_key scancode k.

Definition keyboard_handler (scancode : Z) (k : kbd) : kbd :=
  if (scancode =? 0xE0) || (scancode =? 0xE1) then k <| prev_scancode := scancode |>
  else
    let up_flag := tst scancode 0x80 in
    let scancode := Z.land scancode 0x7F in
    if negb (prev_scancode k =? 0) then prefixed_key scancode up_flag k
    else if up_flag then key_up scancode k
    else key_press scancode k.

(** ** The ring buffer is a bounded queue *)

Definition kb_ok (k : kbd) : Prop := 0 <= head k < 256 /\ 0 <= tail k < 256.

(** The characters typed and not yet read. *)
Definition typed (k : kbd) : list Z :=
  map (fun i => rd (key_buffer k) ((tail k + i) mod 256)) (seqZ 0 ((head k - tail k) mod 256)).

(** The same driver state with an empty buffer. *)
Definition drained (k : kbd) : kbd := k <| key_buffer := ∅ |> <| head := 0 |> <| tail := 0 |>.

Inductive kb_event := Scan (scancode : Z) | Get.

(** What the calls of [getchar] return. *)
Fixpoint kb_run (evs : list kb_event) (k : kbd) : list Z :=
  match evs with
  | [] => []
  | Scan sc :: evs => kb_run evs (keyboard_handler sc k)
  | Get :: evs => let '(c, k) := getchar k in c :: kb_run evs k
  end.

(** Specification: a queue [q] of at most 255 characters; a scancode appends what the
    handler types into an empty buffer; [getchar] takes the oldest character, or 0. *)
Fixpoint kb_spec (evs : list kb_event) (d : kbd) (q : list Z) : list Z :=
  match evs with
  | [] => []
  | Scan sc :: evs =>
      let d' := keyboard_handler sc d in
      kb_spec evs (drained d') (take 255 (q ++ typed d'))
  | Get :: evs => char_at q 0 :: kb_spec evs d (drop 1 q)
  end.

Lemma typed_length k : kb_ok k -> Z.of_nat (length (typed k)) = (head k - tail k) mod 256.
Proof.
  intros _. unfold typed. rewrite length_map, length_seqZ. apply Z2Nat.id. by apply Z.mod_pos_bound.
Qed.

Lemma typed_bound k : kb_ok k -> (length (typed k) <= 255)%nat.
Proof. intros H. pose proof (typed_length k H). zmod. Qed.

Lemma map_seqZ_ext {A} (f g : Z -> A) n :
  (forall i, 0 <= i < n -> f i = g i) -> map f (seqZ 0 n) = map g (seqZ 0 n).
Proof. intros H. apply map_ext_in. intros i Hi%list_elem_of_In%elem_of_seqZ. apply H. lia. Qed.

Lemma map_seqZ_shift {A} (f : Z -> A) m n : map f (seqZ m n) = map (fun i => f (m + i)) (seqZ 0 n).
Proof. replace m with (m + 0) at 1 by lia. rewrite <- fmap_add_seqZ. apply map_map. Qed.

Lemma push_typed c k : kb_ok k -> typed (push_to_buffer c k) = take 255 (typed k ++ [c]) /\ kb_ok (push_to_buffer c k).
Proof.
  intros Hk. pose proof Hk as [Hh Ht]. pose proof (typed_length k Hk) as Hl.
  unfold push_to_buffer, BUFFER_SIZE. destruct (Z.eqb_spec ((head k + 1) mod 256) (tail k)) as [E|E]; cbn [negb].
  - split; [|done]. rewrite take_app_le, take_ge by zmod. done.
  - assert (Hn : ((head k + 1) mod 256 - tail k) mod 256 = (head k - tail k) mod 256 + 1) by zmod.
    split; [|split; cbn; zmod]. rewrite take_ge by (rewrite length_app; cbn; zmod).
    unfold typed. cbn [key_buffer head tail set_field eta_kbd].
    rewrite Hn, (seqZ_app 0 ((head k - tail k) mod 256) 1), map_app by zmod. f_equal.
    + apply map_seqZ_ext. intros i Hi. apply rd_wr_ne. zmod.
    + rewrite seqZ_cons by lia. cbn [map Z.pred]. f_equal. rewrite Z.add_0_l.
      replace ((tail k + (head k - tail k) mod 256) mod 256) with (head k) by zmod. apply rd_wr_eq.
Qed.

Lemma getchar_typed k c k' :
  kb_ok k -> getchar k = (c, k') ->
  c = char_at (typed k) 0 /\ typed k' = drop 1 (typed k) /\ kb_ok k' /\ drained k' = drained k.
Proof.
  intros Hk. pose proof Hk as [Hh Ht]. unfold getchar, BUFFER_SIZE.
  destruct (Z.eqb_spec (tail k) (head k)) as [E|E]; intros [= <- <-].
  - unfold typed. rewrite E, Z.sub_diag. done.
  - assert (Hn : (head k - tail k) mod 256 = 1 + (head k - (tail k + 1) mod 256) mod 256) by zmod.
    splits; [| |split; cbn; zmod|done].
    + unfold typed, char_at. rewrite Hn, seqZ_cons by zmod. cbn. by rewrite Z.add_0_r, Z.mod_small.
    + unfold typed. cbn [key_buffer head tail set_field eta_kbd].
      rewrite Hn, (seqZ_cons 0 (1 + _)) by zmod. cbn [map drop]. rewrite (map_seqZ_shift _ (Z.succ 0)).
      replace (Z.pred (1 + (head k - (tail k + 1) mod 256) mod 256)) with ((head k - (tail k + 1) mod 256) mod 256) by lia.
      apply map_seqZ_ext. intros i Hi. f_equal. zmod.
Qed.

(** [k] behaves like [d] with an empty buffer and queue [q]. *)
Definition kb_sim (k d : kbd) (q : list Z) : Prop := kb_ok k /\ typed k = q /\ drained k = d.

Lemma drained_push c k : drained (push_to_buffer c k) = drained k.
Proof. unfold push_to_buffer. by destruct (negb _). Qed.

Lemma drained_ok k : kb_ok (drained k).
Proof. unfold kb_ok; cbn; lia. Qed.

Definition push_opt (o : option Z) (k : kbd) : kbd :=
  match o with Some c => push_to_buffer c k | None => k end.

(** The action [f] types at most one character, and does not look at the buffer. *)
Definition acts (f : kbd -> kbd) (k : kbd) : Prop :=
  exists o k1, (key_buffer k1, head k1, tail k1) = (key_buffer k, head k, tail k) /\
    f k = push_opt o k1 /\ f (drained k) = push_opt o (drained k1).

Ltac act_leaf k := solve
  [ exists None, k; done
  | match goal with |- acts (fun x => push_to_buffer ?c x) _ => exists (Some c), k; done end
  | match goal with |- exists o k1, _ /\ push_to_buffer ?c ?x = _ /\ _ => exists (Some c), x; done
    | |- exists o k1, _ /\ ?x = _ /\ _ => exists None, x; done end ].

Lemma push_arrow_acts sc k : acts (push_arrow sc) k.
Proof. unfold acts, push_arrow. repeat (destruct (sc =? _); [act_leaf k|]). act_leaf k. Qed.

Lemma handle_keypad_acts sc k : acts (handle_keypad sc) k.
Proof.
  unfold acts, handle_keypad. repeat (destruct (sc =? _); [act_leaf k|]).
  destruct (_ && _); [|act_leaf k]. cbn [num_lock drained set_field eta_kbd].
  destruct (tst (num_lock k) 1); [act_leaf k|]. apply push_arrow_acts.
Qed.

Lemma type_key_acts sc k : acts (type_key sc) k.
Proof.
  unfold acts, type_key. cbn [shift_state caps_lock drained set_field eta_kbd].
  destruct (negb _); act_leaf k.
Qed.

Lemma do_shift_acts v u k : acts (do_shift v u) k.
Proof.
  unfold acts, do_shift. destruct k as [kb h t kd kdn ss cl nl rp ps]. cbn.
  destruct (rp =? 0); cbn; [|by exists None, (mk_kbd kb h t kd kdn ss cl nl rp ps)].
  destruct u; [destruct (rd kdn v =? 0) eqn:E|]; cbn; rewrite ?E; cbn;
    repeat match goal with |- context [if ?b then _ else _] => destruct b; cbn end;
    match goal with |- exists o k1, _ /\ ?x = _ /\ _ => by exists None, x end.
Qed.

Lemma acts_pre g f k :
  (key_buffer (g k), head (g k), tail (g k)) = (key_buffer k, head k, tail k) ->
  g (drained k) = drained (g k) -> acts f (g k) -> acts (fun k => f (g k)) k.
Proof. intros E1 E2 (o & k1 & E3 & E4 & E5). exists o, k1. rewrite E2. by rewrite E3, E1. Qed.

Lemma keyboard_handler_acts sc k : acts (keyboard_handler sc) k.
Proof.
  unfold acts, keyboard_handler. destruct (_ || _); [act_leaf k|]. cbn [prev_scancode drained set_field eta_kbd].
  set (s := Z.land sc 0x7F). set (u := tst sc 0x80). clearbody s u.
  destruct (negb (prev_scancode k =? 0)).
  { apply (acts_pre (fun k => k <| prev_scancode := 0 |>) (fun k =>
      if is_shift s then k else if negb u then
        if s =? 0x1C then push_to_buffer 10 k else if s =? 0x35 then push_to_buffer 47 k else push_arrow s k
      else k)); [done|done|]. unfold acts.
    destruct (is_shift s); [act_leaf k|]. destruct (negb u); [|act_leaf k].
    repeat (destruct (s =? _); [act_leaf k|]). apply push_arrow_acts. }
  destruct u.
  { apply (acts_pre (fun k => k <| key_down := clear_bit s (key_down k) |> <| rep := 0 |>)
      (fun k => if is_shift s then do_shift KG_SHIFT true k else k)); [done|done|].
    destruct (is_shift s); [apply do_shift_acts|unfold acts; act_leaf k]. }
  apply (acts_pre (fun k => k <| rep := test_bit s (key_down k) |> <| key_down := set_bit s (key_down k) |>)
    (fun k =>
      if is_shift s then do_shift KG_SHIFT false k
      else if s =? 0x3A then (if rep k =? 0 then caps_toggle k else k)
      else if s =? 0x45 then (if rep k =? 0 then k <| num_lock := lnot (num_lock k) |> else k)
      else if (s =? 0x37) || (s =? 0x4A) || ((0x47 <=? s) && (s <=? 0x53)) then handle_keypad s k
      else type_key s k)); [done|done|].
  set (k' := _ <| key_down := _ |>). clearbody k'.
  destruct (is_shift s); [apply do_shift_acts|]. unfold acts. cbn [rep drained set_field eta_kbd].
  destruct (s =? 0x3A).
  { unfold caps_toggle. cbn [rep drained set_field eta_kbd]. destruct (rep k' =? 0); cbn [negb]; act_leaf k'. }
  destruct (s =? 0x45); [destruct (rep k' =? 0); act_leaf k'|].
  destruct (_ || _ || _); [apply handle_keypad_acts|apply type_key_acts].
Qed.

Lemma scan_sim sc k d q :
  kb_sim k d q ->
  kb_sim (keyboard_handler sc k) (drained (keyboard_handler sc d)) (take 255 (q ++ typed (keyboard_handler sc d))).
Proof.
  intros (Hk & <- & <-). destruct (keyboard_handler_acts sc k) as (o & k1 & [= E1 E2 E3] & -> & ->).
  assert (H1 : kb_ok k1) by (unfold kb_ok; by rewrite E2, E3).
  assert (Ht : typed k1 = typed k) by (unfold typed; by rewrite E1, E2, E3).
  destruct o as [c|]; cbn [push_opt].
  - destruct (push_typed c k1 H1) as [F1 ?]. destruct (push_typed c (drained k1) (drained_ok k1)) as [F2 _].
    split; [done|]. by rewrite F1, F2, !drained_push, Ht.
  - split; [done|]. rewrite Ht. split; [|done]. cbn. rewrite app_nil_r, take_ge; [done|by apply typed_bound].
Qed.

(** C35: The keyboard buffer is a bounded FIFO queue: whatever the interleaving of scancodes
    and [getchar] calls, [getchar] returns the typed characters in order, 0 when there are
    none, and characters typed while 255 are waiting are dropped without damage to the
    others. *)
Theorem keyboard_fifo evs k : kb_ok k -> kb_run evs k = kb_spec evs (drained k) (typed k).
Proof.
  intros Hk. assert (Hs : kb_sim k (drained k) (typed k)) by done.
  revert Hs. generalize (drained k), (typed k). clear Hk. revert k.
  induction evs as [|[sc|] evs IH]; intros k d q Hs; cbn [kb_run kb_spec]; [done|by apply IH, scan_sim|].
  destruct Hs as (Hk & <- & <-). destruct (getchar k) as [c k'] eqn:E.
  destruct (getchar_typed k c k' Hk E) as (-> & E2 & ? & E4). f_equal. by apply IH.
Qed.

Lemma keyboard_fifo_witness :
  kb_ok kbd_zero /\
  kb_run [Scan 0x1E; Scan 0x2A; Scan 0x30; Get; Get; Get] kbd_zero = [97; 66; 0].
Proof.
  assert (H : kb_ok kbd_zero) by (unfold kb_ok; cbn; lia).
  split; [done|]. rewrite (keyboard_fifo _ kbd_zero H). vm_compute. reflexivity.
Defined.

(** ** The shift keys *)

Lemma land31 x : Z.land x 31 = x mod 32.
Proof. change 31 with (Z.ones 5). by rewrite Z.land_ones. Qed.

Lemma test_bit_testbit s m : 0 <= s -> test_bit s m = Z.b2z (Z.testbit (rd m (s / 32)) (s mod 32)).
Proof.
  intros Hs. unfold test_bit. rewrite land31, (Z.shiftr_div_pow2 s) by lia. change (2 ^ 5) with 32.
  change 1 with (Z.ones 1). rewrite Z.land_ones by lia. change (2 ^ 1) with 2.
  rewrite <- Z.bit0_mod, Z.shiftr_spec by lia. done.
Qed.

Lemma bit_mask_spec n i : 0 <= n -> Z.testbit (Z.shiftl 1 n) i = (i =? n).
Proof. intros. rewrite Z.shiftl_1_l, Z.pow2_bits_eqb by lia. apply Z.eqb_sym. Qed.

Lemma test_set_bit nr s m : 0 <= nr -> 0 <= s ->
  test_bit s (set_bit nr m) = if decide (s = nr) then 1 else test_bit s m.
Proof.
  intros Hn Hs. rewrite !test_bit_testbit by done. unfold set_bit.
  rewrite land31, Z.shiftr_div_pow2, rd_wr by lia. change (2 ^ 5) with 32.
  case_decide as H1; [|rewrite decide_False; [done|congruence]].
  rewrite Z.lor_spec, bit_mask_spec, H1 by zmod.
  destruct (Z.eqb_spec (s mod 32) (nr mod 32)); [rewrite decide_True by zmod; by rewrite orb_true_r|].
  rewrite decide_False by congruence. by rewrite orb_false_r.
Qed.

Lemma test_clear_bit nr s m : 0 <= nr -> 0 <= s ->
  test_bit s (clear_bit nr m) = if decide (s = nr) then 0 else test_bit s m.
Proof.
  intros Hn Hs. rewrite !test_bit_testbit by done. unfold clear_bit.
  rewrite land31, Z.shiftr_div_pow2, rd_wr by lia. change (2 ^ 5) with 32.
  case_decide as H1; [|rewrite decide_False; [done|congruence]].
  rewrite Z.ldiff_spec, bit_mask_spec, H1 by zmod.
  destruct (Z.eqb_spec (s mod 32) (nr mod 32)); [rewrite decide_True by zmod; by rewrite andb_false_r|].
  rewrite decide_False by congruence. by rewrite andb_true_r.
Qed.

(** The keys that are held down, from the bytes the keyboard sent: a prefixed key is not
    recorded. *)
Definition held_step (st : bool * gset Z) (b : Z) : bool * gset Z :=
  let '(pfx, H) := st in
  if (b =? 0xE0) || (b =? 0xE1) then (true, H)
  else if pfx then (false, H)
  else if tst b 0x80 then (false, H ∖ {[Z.land b 0x7F]})
  else (false, {[Z.land b 0x7F]} ∪ H).

(** Only keys that are held are released. *)
Fixpoint wf_bytes (st : bool * gset Z) (bs : list Z) : bool :=
  match bs with
  | [] => true
  | b :: bs =>
      ((b =? 0xE0) || (b =? 0xE1) || fst st || negb (tst b 0x80) || bool_decide (Z.land b 0x7F ∈ snd st))
      && wf_bytes (held_step st b) bs
  end.

(** 0x2A and 0x36 are the two shift keys. *)
Definition shifts_held (H : gset Z) : Z :=
  (if decide (0x2A ∈ H) then 1 else 0) + (if decide (0x36 ∈ H) then 1 else 0).

Record shift_inv (k : kbd) (st : bool * gset Z) : Prop := {
  si_prefix : negb (prev_scancode k =? 0) = fst st;
  si_bits s : 0 <= s < 128 -> test_bit s (key_down k) = if decide (s ∈ snd st) then 1 else 0;
  si_count : rd (k_down k) KG_SHIFT = shifts_held (snd st);
  si_state : shift_state k = if rd (k_down k) KG_SHIFT =? 0 then 0 else 1;
}.

(** The part of the state that the invariant is about. *)
Definition sview (k : kbd) := (prev_scancode k, key_down k, k_down k, shift_state k).

Lemma sview_push c k : sview (push_to_buffer c k) = sview k.
Proof. unfold push_to_buffer. by destruct (negb _). Qed.

Lemma sview_arrow sc k : sview (push_arrow sc k) = sview k.
Proof. unfold push_arrow. repeat (destruct (sc =? _); [apply sview_push|]). done. Qed.

Lemma sview_keypad sc k : sview (handle_keypad sc k) = sview k.
Proof.
  unfold handle_keypad. repeat (destruct (sc =? _); [apply sview_push|]).
  destruct (_ && _); [|done]. destruct (tst _ _); [apply sview_push|apply sview_arrow].
Qed.

Lemma sview_type sc k : sview (type_key sc k) = sview k.
Proof. unfold type_key. destruct (negb _); [apply sview_push|done]. Qed.

Lemma shift_inv_view k k' st : sview k' = sview k -> shift_inv k st -> shift_inv k' st.
Proof. unfold sview. intros [= E1 E2 E3 E4] [H1 H2 H3 H4]. split; by rewrite ?E1, ?E2, ?E3, ?E4. Qed.

Lemma is_shift_held sc H : is_shift sc = false ->
  shifts_held ({[sc]} ∪ H) = shifts_held H /\ shifts_held (H ∖ {[sc]}) = shifts_held H.
Proof.
  intros [H1 H2]%orb_false_iff. bool_prop. unfold shifts_held.
  split; repeat case_decide; try reflexivity; exfalso; set_solver.
Qed.

Lemma shift_press sc H : is_shift sc = true -> sc ∉ H -> shifts_held ({[sc]} ∪ H) = shifts_held H + 1.
Proof.
  intros [->%Z.eqb_eq| ->%Z.eqb_eq]%orb_true_iff Hn; unfold shifts_held;
    repeat case_decide; try reflexivity; exfalso; set_solver.
Qed.

Lemma shift_release sc H : is_shift sc = true -> sc ∈ H -> shifts_held (H ∖ {[sc]}) = shifts_held H - 1.
Proof.
  intros [->%Z.eqb_eq| ->%Z.eqb_eq]%orb_true_iff Hn; unfold shifts_held;
    repeat case_decide; try reflexivity; exfalso; set_solver.
Qed.

Lemma shifts_held_range H : 0 <= shifts_held H <= 2.
Proof. unfold shifts_held. repeat case_decide; lia. Qed.

Lemma do_shift_inv k H n up :
  rep k = 0 -> prev_scancode k = 0 ->
  (forall s, 0 <= s < 128 -> test_bit s (key_down k) = if decide (s ∈ H) then 1 else 0) ->
  rd (k_down k) KG_SHIFT = n -> shift_state k = (if n =? 0 then 0 else 1) ->
  shifts_held H = (if (up : bool) then n - 1 else n + 1) -> 0 <= n ->
  shift_inv (do_shift KG_SHIFT up k) (false, H).
Proof.
  intros Hr Hp Hb Hn Hs Hc H0. unfold do_shift. rewrite Hr. pose proof (shifts_held_range H). cbn [negb Z.eqb].
  destruct up; [replace (rd (k_down k) KG_SHIFT =? 0) with false by lia|];
    cbn [negb k_down shift_state set_field eta_kbd]; rewrite rd_wr_eq;
    destruct (_ =? 0) eqn:E in |- *; cbn [negb]; split; cbn [fst snd prev_scancode key_down k_down shift_state set_field eta_kbd];
    rewrite ?rd_wr_eq, ?Hp, ?E; auto; try lia; rewrite Hs; destruct (n =? 0); reflexivity || (bool_prop; lia).
Qed.

Lemma key_up_inv sc k H :
  shift_inv k (false, H) -> 0 <= sc < 128 -> sc ∈ H -> shift_inv (key_up sc k) (false, H ∖ {[sc]}).
Proof.
  intros [Hp Hb Hc Hs] Hr Hin. cbn [fst snd] in *. unfold key_up.
  assert (Hb' : forall s, 0 <= s < 128 -> test_bit s (clear_bit sc (key_down k)) = if decide (s ∈ H ∖ {[sc]}) then 1 else 0).
  { intros s Hs'. rewrite test_clear_bit, Hb by lia. repeat case_decide; set_solver. }
  destruct (is_shift sc) eqn:E.
  - apply (do_shift_inv _ _ (rd (k_down k) KG_SHIFT)); auto; [bool_prop; done| |].
    + rewrite shift_release, Hc by done. done.
    + rewrite Hc. apply shifts_held_range.
  - split; auto. cbn [snd k_down set_field eta_kbd]. rewrite Hc. symmetry. by apply is_shift_held.
Qed.

Lemma key_press_inv sc k H :
  shift_inv k (false, H) -> 0 <= sc < 128 -> shift_inv (key_press sc k) (false, {[sc]} ∪ H).
Proof.
  intros [Hp Hb Hc Hs] Hr. cbn [fst snd] in *. unfold key_press.
  assert (Hb' : forall s, 0 <= s < 128 -> test_bit s (set_bit sc (key_down k)) = if decide (s ∈ {[sc]} ∪ H) then 1 else 0).
  { intros s Hs'. rewrite test_set_bit, Hb by lia. repeat case_decide; set_solver. }
  pose proof (Hb sc Hr) as Hrep. cbn [key_down rep set_field eta_kbd]. rewrite Hrep.
  destruct (is_shift sc) eqn:E.
  - destruct (decide (sc ∈ H)) as [Hin|Hin].
    + unfold do_shift. cbn [rep set_field eta_kbd Z.eqb negb]. replace ({[sc]} ∪ H) with H in * by set_solver. by split.
    + apply (do_shift_inv _ _ (rd (k_down k) KG_SHIFT)); auto; [bool_prop; done| |].
      * rewrite shift_press, Hc by done. done.
      * rewrite Hc. apply shifts_held_range.
  - assert (Hi : forall x, sview x = (prev_scancode k, set_bit sc (key_down k), k_down k, shift_state k) -> shift_inv x (false, {[sc]} ∪ H)).
    { intros x [= E1 E2 E3 E4]. split; rewrite ?E1, ?E2, ?E3, ?E4; auto. cbn [snd]. rewrite Hc. symmetry. by apply is_shift_held. }
    unfold caps_toggle. cbn [rep set_field eta_kbd].
    repeat (destruct (sc =? _) in |- *; [repeat (case_decide; cbn [Z.eqb negb]); apply Hi; try done; cbn [orb]; apply sview_keypad|]).
    destruct (_ || _); apply Hi; [apply sview_keypad|apply sview_type].
Qed.

Lemma prefixed_view sc u k : sview (prefixed_key sc u k) = (0, key_down k, k_down k, shift_state k).
Proof.
  unfold prefixed_key. destruct (is_shift sc); [done|]. destruct (negb u); [|done].
  repeat (destruct (sc =? _); [by rewrite sview_push|]). by rewrite sview_arrow.
Qed.

Lemma handler_inv b k st :
  shift_inv k st -> 0 <= b < 256 -> wf_bytes st [b] = true -> shift_inv (keyboard_handler b k) (held_step st b).
Proof.
  destruct st as [pfx H]. intros Hi Hb Hw. unfold keyboard_handler, held_step. cbn [wf_bytes fst snd] in Hw.
  assert (Hl : 0 <= Z.land b 0x7F < 128) by (change 0x7F with (Z.ones 7); rewrite Z.land_ones by lia; zmod).
  pose proof Hi as [Hp Hbits Hc Hs]. cbn [fst snd] in *.
  destruct ((b =? 0xE0) || (b =? 0xE1)) eqn:E.
  { split; auto. apply orb_true_iff in E as [->%Z.eqb_eq| ->%Z.eqb_eq]; done. }
  rewrite Hp. destruct pfx; cbn [orb negb] in *.
  - pose proof (prefixed_view (Z.land b 0x7F) (tst b 0x80) k) as [= E1 E2 E3 E4].
    split; rewrite ?E1, ?E2, ?E3, ?E4; auto.
  - destruct (tst b 0x80); cbn [negb orb andb] in *; [|by apply key_press_inv].
    rewrite andb_true_r in Hw. apply key_up_inv; [done..|]. by apply bool_decide_eq_true in Hw.
Qed.

Lemma shift_inv_run bs k st :
  shift_inv k st -> Forall (fun b => 0 <= b < 256) bs -> wf_bytes st bs = true ->
  shift_inv (foldl (fun k b => keyboard_handler b k) k bs) (foldl held_step st bs).
Proof.
  intros Hi Hb. revert k st Hi. induction Hb as [|b bs Hb Hbs IH]; intros k st Hi Hw; [done|].
  cbn [wf_bytes] in Hw. apply andb_true_iff in Hw as [Hw1 Hw2]. cbn [foldl]. apply IH; [|done].
  apply handler_inv; auto. cbn [wf_bytes]. by rewrite Hw1.
Qed.

(** The shift state follows the keys: after any sequence of bytes in which only held keys
    are released, with auto-repeat, both shift keys and prefixed keys (whose fake shift codes
    are ignored) in any order, shift is on exactly when one of the two shift keys is down. *)
Theorem shift_tracks_keys bs :
  Forall (fun b => 0 <= b < 256) bs -> wf_bytes (false, ∅) bs = true ->
  shift_state (foldl (fun k b => keyboard_handler b k) kbd_zero bs) =
    if decide (0x2A ∈ (foldl held_step (false, ∅) bs).2 \/ 0x36 ∈ (foldl held_step (false, ∅) bs).2) then 1 else 0.
Proof.
  intros Hb Hw. assert (Hi : shift_inv kbd_zero (false, ∅)).
  { split; [done| |done|done]. intros s Hs. rewrite decide_False by set_solver.
    rewrite test_bit_testbit by lia. cbn. unfold rd. rewrite lookup_empty. cbn. by rewrite Z.testbit_0_l. }
  destruct (shift_inv_run bs _ _ Hi Hb Hw) as [_ _ Hc ->]. rewrite Hc. unfold shifts_held.
  repeat case_decide; (done || tauto).
Qed.

Lemma shift_tracks_keys_witness :
  let bs := [0x2A; 0x2A; 0x36; 0xAA; 0x1E; 0xE0; 0xAA] in
  wf_bytes (false, ∅) bs = true /\ shift_state (foldl (fun k b => keyboard_handler b k) kbd_zero bs) = 1.
Proof.
  intros bs. assert (H : wf_bytes (false, ∅) bs = true) by (vm_compute; reflexivity).
  assert (Hb : Forall (fun b => 0 <= b < 256) bs) by (subst bs; repeat (apply Forall_cons; split; [lia|]); constructor).
  split; [exact H|]. transitivity (if decide (0x2A ∈ (foldl held_step (false, ∅) bs).2 \/ 0x36 ∈ (foldl held_step (false, ∅) bs).2) then 1 else 0).
  - exact (shift_tracks_keys bs Hb H).
  - vm_compute. reflexivity.
Defined.

(** The Pause key sends E1 1D 45 E1 9D C5; the E1 prefix is taken to cover one byte, so the
    45 is handled as the NumLock key. *)
Lemma pause_toggles_num_lock :
  num_lock (foldl (fun k b => keyboard_handler b k) kbd_zero [0xE1; 0x1D; 0x45; 0xE1; 0x9D; 0xC5]) = 1.
Proof. vm_compute. reflexivity. Qed.
