(* ===== verification/Vga.v ===== *)
(** * VGA text console (src/driver/vga.c)

    The text buffer is a map from cell numbers to 16-bit cells (attribute and character);
    [crtc] holds the cursor registers 0x0E and 0x0F that [vga_update_cursor] programs.
    Characters are signed. *)

From S2P Require Import Prelude Cstr.

Definition VGA_WIDTH : Z := 80.
Definition VGA_HEIGHT : Z := 25.

Record vga := mk_vga {
  vga_buffer : gmap Z Z;
  cursor_x : Z;
  cursor_y : Z;
  crtc : gmap Z Z;
}.

#[export] Instance eta_vga : Eta vga := fun v => mk_vga (vga_buffer v) (cursor_x v) (cursor_y v) (crtc v).

(** [0x0F00 | ' '] *)
Definition blank : Z := Z.lor 0x0F00 32.

Definition vga_update_cursor (v : vga) : vga :=
  let pos := (cursor_y v * VGA_WIDTH + cursor_x v) mod 2 ^ 16 in
  v <| crtc := wr (wr (crtc v) 0x0F (Z.land pos 0xFF)) 0x0E (Z.land (Z.shiftr pos 8) 0xFF) |>.

Definition vga_scroll (v : vga) : vga :=
  let m := foldl (fun m y =>
    foldl (fun m x => wr m ((y - 1) * VGA_WIDTH + x) (rd m (y * VGA_WIDTH + x))) m (seqZ 0 VGA_WIDTH))
    (vga_buffer v) (seqZ 1 (VGA_HEIGHT - 1)) in
  v <| vga_buffer := foldl (fun m x => wr m ((VGA_HEIGHT - 1) * VGA_WIDTH + x) blank) m (seqZ 0 VGA_WIDTH) |>.

(** [cursor_y++] and scrolling at the bottom. *)
Definition next_line (v : vga) : vga :=
  let v := v <| cursor_x := 0 |> <| cursor_y := cursor_y v + 1 |> in
  if VGA_HEIGHT <=? cursor_y v then (vga_scroll v) <| cursor_y := VGA_HEIGHT - 1 |> else v.

Definition set_cell (c : Z) (v : vga) : vga :=
  v <| vga_buffer := wr (vga_buffer v) (cursor_y v * VGA_WIDTH + cursor_x v) c |>.

(** A backspace moves the cursor back, over the line start too. *)
Definition step_back (v : vga) : vga :=
  if 0 <? cursor_x v then v <| cursor_x := cursor_x v - 1 |>
  else if 0 <? cursor_y v then v <| cursor_y := cursor_y v - 1 |> <| cursor_x := VGA_WIDTH - 1 |>
  else v.

Definition vga_putchar (c : Z) (v : vga) : vga :=
  if c =? 10 then vga_update_cursor (next_line v)
  else if c =? 13 then vga_update_cursor (v <| cursor_x := 0 |>)
  else if c =? 8 then
    vga_update_cursor (set_cell (Z.lor (Z.shiftl 0x0F 8) 32) (step_back v))
  else
    let v := set_cell (Z.lor (Z.shiftl 0x0F 8) c mod 2 ^ 16) v in
    let v := v <| cursor_x := cursor_x v + 1 |> in
    vga_update_cursor (if VGA_WIDTH <=? cursor_x v then next_line v else v).

Definition vga_write (s : list Z) (v : vga) : vga := foldl (fun v c => vga_putchar c v) v s.

Definition vga_clear (v : vga) : vga :=
  let v := v <| vga_buffer := foldl (fun m i => wr m i blank) (vga_buffer v) (seqZ 0 (VGA_WIDTH * VGA_HEIGHT)) |> in
  vga_update_cursor (v <| cursor_x := 0 |> <| cursor_y := 0 |>).

Definition vga_init (v : vga) : vga := vga_clear v.

(** ** Specification: a terminal of 25 lines of 80 cells *)

Record term := mk_term { lines : list (list Z); tx : nat; ty : nat }.

Definition blank_line : list Z := replicate 80 blank.

Definition term_newline (t : term) : term :=
  if decide (ty t = 24%nat) then mk_term (drop 1 (lines t) ++ [blank_line]) 0 24
  else mk_term (lines t) 0 (S (ty t)).

Definition term_cell (c : Z) (t : term) : list (list Z) := alter (fun l => <[tx t := c]> l) (ty t) (lines t).

(** Newline, carriage return, backspace (which erases, and goes back over the line start),
    and other characters, which wrap at the right margin. *)
Definition term_put (t : term) (c : Z) : term :=
  if decide (c = 10) then term_newline t
  else if decide (c = 13) then mk_term (lines t) 0 (ty t)
  else if decide (c = 8) then
    let t' := match tx t, ty t with
              | S x, y => mk_term (lines t) x y
              | O, S y => mk_term (lines t) 79 y
              | O, O => t
              end in
    mk_term (term_cell blank t') (tx t') (ty t')
  else
    let l := term_cell (Z.lor 0x0F00 c mod 2 ^ 16) t in
    if decide (tx t = 79%nat) then term_newline (mk_term l 0 (ty t)) else mk_term l (S (tx t)) (ty t).

(** The terminal that the driver state shows. *)
Definition row (m : gmap Z Z) (y : Z) : list Z := (fun x => rd m (y * 80 + x)) <$> seqZ 0 80.
Definition screen (v : vga) : term :=
  mk_term (row (vga_buffer v) <$> seqZ 0 25) (Z.to_nat (cursor_x v)) (Z.to_nat (cursor_y v)).

Definition vga_ok (v : vga) : Prop := 0 <= cursor_x v < 80 /\ 0 <= cursor_y v < 25.

(** ** Loops over cells *)

Lemma fold_seqZ_snoc {A} (f : A -> Z -> A) a m n :
  0 <= n -> foldl f a (seqZ m (n + 1)) = f (foldl f a (seqZ m n)) (m + n).
Proof. intros Hn. rewrite seqZ_app, foldl_app by lia. rewrite (seqZ_cons (m + n)) by lia. done. Qed.

Lemma rd_copy_row m y n i :
  0 <= n <= 80 ->
  rd (foldl (fun m x => wr m ((y - 1) * 80 + x) (rd m (y * 80 + x))) m (seqZ 0 n)) i =
    if decide ((y - 1) * 80 <= i < (y - 1) * 80 + n) then rd m (i + 80) else rd m i.
Proof.
  intros [Hn Hn']. revert i Hn'. pattern n. apply natlike_ind; [|clear n Hn|done].
  - intros i _. rewrite decide_False by lia. done.
  - intros n Hn IH i Hn'. rewrite <- Z.add_1_r, fold_seqZ_snoc by done. cbn beta. rewrite rd_wr, !IH by lia.
    repeat case_decide; try lia; f_equal; lia.
Qed.

Lemma rd_copy_rows m n i :
  0 <= n <= 24 ->
  rd (foldl (fun m y => foldl (fun m x => wr m ((y - 1) * 80 + x) (rd m (y * 80 + x))) m (seqZ 0 80)) m (seqZ 1 n)) i =
    if decide (0 <= i < n * 80) then rd m (i + 80) else rd m i.
Proof.
  intros [Hn Hn']. revert i Hn'. pattern n. apply natlike_ind; [|clear n Hn|done].
  - intros i _. rewrite decide_False by lia. done.
  - intros n Hn IH i Hn'. rewrite <- Z.add_1_r, fold_seqZ_snoc by done. rewrite rd_copy_row, !IH by lia.
    repeat case_decide; try lia; done.
Qed.

Lemma rd_const a m n c i :
  0 <= n -> rd (foldl (fun m x => wr m (a + x) c) m (seqZ 0 n)) i = if decide (a <= i < a + n) then c else rd m i.
Proof.
  intros Hn. revert i. pattern n. apply natlike_ind; [|clear n Hn|done].
  - intros i. rewrite decide_False by lia. done.
  - intros n Hn IH i. rewrite <- Z.add_1_r, fold_seqZ_snoc by done. cbn beta. rewrite rd_wr, !IH.
    repeat case_decide; try lia; done.
Qed.

Lemma rd_scroll v i :
  rd (vga_buffer (vga_scroll v)) i =
    if decide (0 <= i < 1920) then rd (vga_buffer v) (i + 80)
    else if decide (1920 <= i < 2000) then blank else rd (vga_buffer v) i.
Proof.
  unfold vga_scroll, VGA_WIDTH, VGA_HEIGHT. cbn [vga_buffer set_field eta_vga].
  rewrite rd_const, rd_copy_rows by lia. repeat case_decide; try lia; done.
Qed.

(** ** The screen after a change of the buffer *)

Lemma fmap_seqZ_eq {A} (f g : Z -> A) m n :
  (forall i, m <= i < m + n -> f i = g i) -> f <$> seqZ m n = g <$> seqZ m n.
Proof. intros H. apply list_fmap_ext. intros i x [-> Hi]%lookup_seqZ. apply H. lia. Qed.

Lemma alter_fmap_seqZ {A} (f : Z -> A) g n y :
  0 <= y -> alter g (Z.to_nat y) (f <$> seqZ 0 n) = (fun i => if decide (i = y) then g (f i) else f i) <$> seqZ 0 n.
Proof.
  intros Hy. apply list_eq. intros i. rewrite list_lookup_alter. case_decide as Hd; [subst i|]; rewrite !list_lookup_fmap;
    (destruct (seqZ 0 n !! _) as [z|] eqn:E; [|done]); apply lookup_seqZ in E as [-> E]; cbn; case_decide; done || lia.
Qed.

Lemma lines_scroll v :
  row (vga_buffer (vga_scroll v)) <$> seqZ 0 25 = drop 1 (row (vga_buffer v) <$> seqZ 0 25) ++ [blank_line].
Proof.
  change (seqZ 0 25) with (seqZ 0 24 ++ [24]) at 1. change (seqZ 0 25) with (0 :: (Z.add 1 <$> seqZ 0 24)).
  rewrite fmap_app. cbn [fmap list_fmap drop]. rewrite <- list_fmap_compose. f_equal.
  - apply fmap_seqZ_eq. intros y Hy. apply fmap_seqZ_eq. intros x Hx. rewrite rd_scroll, decide_True by lia. f_equal. lia.
  - f_equal. change blank_line with ((fun _ => blank) <$> seqZ 0 80). apply fmap_seqZ_eq. intros x Hx.
    rewrite rd_scroll, decide_False, decide_True by lia. done.
Qed.

Lemma lines_set_cell v c :
  vga_ok v -> row (vga_buffer (set_cell c v)) <$> seqZ 0 25 = term_cell c (screen v).
Proof.
  intros [Hx Hy]. unfold term_cell, screen. cbn [lines tx ty]. rewrite alter_fmap_seqZ by lia.
  apply fmap_seqZ_eq. intros y Hy'. unfold row. rewrite list_insert_alter, alter_fmap_seqZ by lia.
  unfold set_cell, VGA_WIDTH. cbn [vga_buffer set_field eta_vga].
  destruct (decide (y = cursor_y v)) as [->|Hne]; apply fmap_seqZ_eq; intros x Hx'; rewrite rd_wr; repeat case_decide; lia || done.
Qed.

Lemma next_line_spec v y :
  cursor_y v = y -> 0 <= y < 25 ->
  screen (next_line v) = term_newline (mk_term (row (vga_buffer v) <$> seqZ 0 25) 0 (Z.to_nat y)) /\ vga_ok (next_line v).
Proof.
  intros <- Hy. unfold next_line, term_newline, VGA_HEIGHT. cbn [cursor_y ty lines set_field eta_vga].
  destruct (Z.leb_spec 25 (cursor_y v + 1)).
  - rewrite decide_True by lia. split; [|split; cbn; lia]. unfold screen.
    cbn [vga_buffer cursor_x cursor_y set_field eta_vga].
    rewrite lines_scroll. done.
  - rewrite decide_False by lia. split; [|split; cbn; lia]. unfold screen. cbn. f_equal. lia.
Qed.

Lemma screen_cursor v : screen (vga_update_cursor v) = screen v /\ (vga_ok v -> vga_ok (vga_update_cursor v)).
Proof. done. Qed.

Lemma putchar_refines c v :
  vga_ok v -> screen (vga_putchar c v) = term_put (screen v) c /\ vga_ok (vga_putchar c v).
Proof.
  intros Hok. pose proof Hok as [Hx Hy]. unfold vga_putchar, term_put.
  destruct (Z.eqb_spec c 10) as [->|H1].
  { rewrite decide_True by done. destruct (next_line_spec v (cursor_y v)) as [E ?]; [done|done|]. split; [|done].
    destruct (screen_cursor (next_line v)) as [-> _]. rewrite E. unfold term_newline, screen. cbn [ty lines]. done. }
  rewrite (decide_False (P := c = 10)) by done.
  destruct (Z.eqb_spec c 13) as [->|H2].
  { rewrite decide_True by done. split; [|split; cbn; lia]. done. }
  rewrite (decide_False (P := c = 13)) by done.
  destruct (Z.eqb_spec c 8) as [->|H3].
  - rewrite decide_True by done. set (v' := step_back v).
    assert (Hv : vga_ok v').
    { unfold v', step_back, vga_ok, VGA_WIDTH. destruct (Z.ltb_spec 0 (cursor_x v)); [cbn; lia|]. destruct (Z.ltb_spec 0 (cursor_y v)); cbn; lia. }
    assert (Hs : screen v' = match tx (screen v), ty (screen v) with
              | S x, y => mk_term (lines (screen v)) x y
              | O, S y => mk_term (lines (screen v)) 79 y
              | O, O => screen v end).
    { unfold v', step_back, screen, VGA_WIDTH. cbn [tx ty lines]. destruct (Z.ltb_spec 0 (cursor_x v)).
      - destruct (Z.to_nat (cursor_x v)) eqn:E; [lia|]. cbn. f_equal. lia.
      - replace (Z.to_nat (cursor_x v)) with 0%nat by lia. destruct (Z.ltb_spec 0 (cursor_y v)).
        + destruct (Z.to_nat (cursor_y v)) eqn:E; [lia|]. cbn. f_equal; lia.
        + replace (Z.to_nat (cursor_y v)) with 0%nat by lia. cbn. f_equal; lia. }
    split; [|done]. rewrite <- Hs. clearbody v'. destruct (screen_cursor (set_cell (Z.lor (Z.shiftl 0x0F 8) 32) v')) as [-> _].
    unfold screen at 1. rewrite lines_set_cell by done. done.
  - rewrite (decide_False (P := c = 8)) by done. set (ch := Z.lor (Z.shiftl 0x0F 8) c mod 2 ^ 16).
    change (Z.lor 0x0F00 c mod 2 ^ 16) with ch. cbn zeta.
    rewrite <- (lines_set_cell v ch) by done. set (w := set_cell ch v).
    assert (Ew : cursor_x w = cursor_x v /\ cursor_y w = cursor_y v) by done. destruct Ew as [E1 E2].
    cbn [cursor_x set_field eta_vga]. clearbody w. unfold VGA_WIDTH. rewrite E1.
    change (tx (screen v)) with (Z.to_nat (cursor_x v)). change (ty (screen v)) with (Z.to_nat (cursor_y v)).
    destruct (Z.leb_spec 80 (cursor_x v + 1)).
    + rewrite decide_True by lia. destruct (next_line_spec (w <| cursor_x := cursor_x w + 1 |>) (cursor_y v)) as [E ?]; [done|lia|].
      rewrite E1 in *. by split.
    + rewrite decide_False by lia. split; [|split; cbn; lia]. unfold screen. cbn. rewrite E2. f_equal. lia.
Qed.

Lemma write_refines s v :
  vga_ok v -> screen (vga_write s v) = foldl term_put (screen v) s /\ vga_ok (vga_write s v).
Proof.
  revert v. induction s as [|c s IH]; intros v Hv; cbn [vga_write foldl]; [done|].
  destruct (putchar_refines c v Hv) as [E ?]. rewrite <- E. by apply IH.
Qed.

(** ** Nothing outside the screen is written *)

Lemma buffer_cursor_y v y : vga_buffer (v <| cursor_y := y |>) = vga_buffer v.
Proof. done. Qed.

Lemma next_line_frame v i : ~ 0 <= i < 2000 -> rd (vga_buffer (next_line v)) i = rd (vga_buffer v) i.
Proof.
  intros Hi. unfold next_line. destruct (VGA_HEIGHT <=? _); [|done].
  rewrite buffer_cursor_y, rd_scroll, !decide_False by lia. done.
Qed.

Lemma set_cell_frame c v i : vga_ok v -> ~ 0 <= i < 2000 -> rd (vga_buffer (set_cell c v)) i = rd (vga_buffer v) i.
Proof. intros [Hx Hy] Hi. unfold set_cell, VGA_WIDTH. cbn [vga_buffer set_field eta_vga]. apply rd_wr_ne. lia. Qed.

Lemma step_back_ok v : vga_ok v -> vga_ok (step_back v) /\ vga_buffer (step_back v) = vga_buffer v.
Proof.
  intros [Hx Hy]. unfold step_back, vga_ok, VGA_WIDTH.
  destruct (Z.ltb_spec 0 (cursor_x v)); [split; [cbn; lia|done]|].
  destruct (Z.ltb_spec 0 (cursor_y v)); split; done || (cbn; lia).
Qed.

Lemma putchar_frame c v i : vga_ok v -> ~ 0 <= i < 2000 -> rd (vga_buffer (vga_putchar c v)) i = rd (vga_buffer v) i.
Proof.
  intros Hv Hi. unfold vga_putchar. destruct (c =? 10); [by apply next_line_frame|]. destruct (c =? 13); [done|].
  destruct (step_back_ok v Hv) as [Hb Eb]. destruct (c =? 8).
  - change (rd (vga_buffer (set_cell (Z.lor (Z.shiftl 0x0F 8) 32) (step_back v))) i = rd (vga_buffer v) i).
    rewrite set_cell_frame by done. by rewrite Eb.
  - cbn zeta. rewrite <- (set_cell_frame (Z.lor (Z.shiftl 0x0F 8) c mod 2 ^ 16) v i) by done.
    set (w := set_cell _ v). clearbody w. destruct (VGA_WIDTH <=? _); [|done].
    change (rd (vga_buffer (next_line (w <| cursor_x := cursor_x w + 1 |>))) i = rd (vga_buffer w) i). by rewrite next_line_frame.
Qed.

(** C36: The driver implements a terminal of 25 lines of 80 cells: for every string of any
    characters the screen and the cursor are those of the line-based specification
    (newline, return, erasing backspace, wrapping, scrolling by one line), the cursor stays
    on the screen, and no cell outside the text buffer is written. *)
Theorem vga_write_refines s v :
  vga_ok v ->
  screen (vga_write s v) = foldl term_put (screen v) s /\ vga_ok (vga_write s v) /\
  forall i, ~ 0 <= i < 2000 -> rd (vga_buffer (vga_write s v)) i = rd (vga_buffer v) i.
Proof.
  intros Hv. destruct (write_refines s v Hv) as [E1 E2]. split; [done|]. split; [done|]. intros i Hi.
  clear E1 E2. revert v Hv. induction s as [|c s IH]; intros v Hv; [done|]. cbn [vga_write foldl].
  rewrite <- (putchar_frame c v i) by done. apply IH. by apply putchar_refines.
Qed.

Lemma vga_write_refines_witness :
  let v := vga_init (mk_vga ∅ 0 0 ∅) in
  vga_ok v /\ (cursor_x (vga_write (lit "hi" ++ [10; 120; 8]) v), cursor_y (vga_write (lit "hi" ++ [10; 120; 8]) v)) = (0, 1) /\
  vga_ok (vga_write (lit "hi" ++ [10; 120; 8]) v).
Proof.
  intros v. assert (H : vga_ok v) by (split; cbn; lia).
  split; [exact H|]. split; [vm_compute; reflexivity|].
  exact (proj1 (proj2 (vga_write_refines (lit "hi" ++ [10; 120; 8]) v H))).
Defined.

(** A character above 0x7F is negative and sets all attribute bits of its cell. *)
Lemma negative_char_sets_attribute v :
  rd (vga_buffer (vga_putchar (-1) (v <| cursor_x := 0 |> <| cursor_y := 0 |>))) 0 = 0xFFFF.
Proof. unfold vga_putchar. cbn -[rd wr]. apply rd_wr_eq. Qed.
