(* ===== verification/Alloc.v ===== *)
(** * The allocator as its clients see it

    [Allocator A] is what the file systems rely on: [kmalloc] returns NULL or an address that
    was not live, and not NULL while there is room; [kfree] of a live address makes exactly
    that address dead; both return.  What the bytes of a new block hold ([al_bytes]) is left
    open: no law speaks of it.  The kernel heap of heap.c is an instance, by the
    refinement lemmas of [HeapSpec] and [HeapTheorems]. *)

From S2P Require Import Prelude LList Heap HeapInv HeapCtx HeapSpec HeapTheorems.

(** [al_bytes a p n]: the [n] bytes from [p] on, by offset, as the memory happens to hold them.
    [al_ok a L k]: the state is sound, the live addresses are [L], and there is room for [k]
    bytes, where an allocation of [n] bytes takes at most [n + 40]. *)
Class Allocator (A : Type) := {
  al_malloc : Z -> A -> option (Z * A);
  al_free : Z -> A -> option A;
  al_bytes : A -> Z -> Z -> gmap Z Z;
  al_ok : A -> gset Z -> Z -> Prop;
  al_malloc_spec a L k n :
    al_ok a L k -> 0 < n <= 0xFFFFE000 ->
    exists p a', al_malloc n a = Some (p, a') /\
      ((p = 0 /\ k < n + 40 /\ al_ok a' L k) \/
       (0 < p < 2 ^ 32 /\ (p ∉ L) /\ al_ok a' ({[p]} ∪ L) (k - (n + 40))));
  al_free_spec a L k p :
    al_ok a L k -> p ∈ L -> exists a', al_free p a = Some a' /\ al_ok a' (L ∖ {[p]}) k;
  al_live_nonzero a L k p : al_ok a L k -> p ∈ L -> p <> 0;
  al_weaken a L k k' : al_ok a L k -> k' <= k -> al_ok a L k';
}.

Section heap_allocator.
Context {P : Type} `{PageSource P}.

(** Payload addresses of the allocated blocks. *)
Definition live_addrs (bs : list blk) : list Z := (fun u => u.1 + 4) <$> used_at HEAP_VIRT_START bs.

(** Some free block has at least [k] bytes. *)
Definition room (bs : list blk) (k : Z) : Prop := k <= 0 \/ exists s, Blk s true ∈ bs /\ k <= s.

Definition heap_live (h : heap P) (L : gset Z) (k : Z) : Prop :=
  exists bs, heap_inv h bs /\ L = list_to_set (live_addrs bs) /\ room bs k.

Lemma elem_of_live x bs : x ∈ (list_to_set (live_addrs bs) : gset Z) <-> exists s, (x - 4, s) ∈ used_at HEAP_VIRT_START bs.
Proof.
  rewrite elem_of_list_to_set. unfold live_addrs. rewrite list_elem_of_fmap. split.
  - intros ([y s] & -> & Hy). exists s. cbn. by replace (y + 4 - 4) with y by lia.
  - intros (s & Hs). exists (x - 4, s). cbn. split; [lia|done].
Qed.

Lemma carve_used a total s : exists n, used_at a (carve total s) = [(a, n)].
Proof. unfold carve. destruct (_ <=? _); cbn; eauto. Qed.

Lemma carve_len total s : blen (carve total s) = s.
Proof. unfold carve, blen. destruct (_ <=? _); cbn; lia. Qed.

Lemma live_carve bs1 s bs2 total x :
  (exists n, (x, n) ∈ used_at HEAP_VIRT_START (bs1 ++ carve total s ++ bs2)) <->
  x = HEAP_VIRT_START + blen bs1 \/ exists n, (x, n) ∈ used_at HEAP_VIRT_START (bs1 ++ Blk s true :: bs2).
Proof.
  destruct (carve_used (HEAP_VIRT_START + blen bs1) total s) as [n0 E].
  rewrite !used_at_app, E, carve_len. cbn [used_at bfree bsz app]. set_solver.
Qed.

Lemma carve_wf bs1 s bs2 total :
  Forall wf_blk (bs1 ++ carve total s ++ bs2) -> Forall wf_blk bs1 /\ 16 <= s /\ Forall wf_blk bs2.
Proof.
  intros [H1 [Hc H2]%Forall_app]%Forall_app. splits; [done| |done]. revert Hc. unfold carve, MIN_BLOCK_SIZE.
  destruct (Z.leb_spec 16 (s - total)); intros [[Hw _] _]%Forall_cons; cbn in *; lia.
Qed.

Lemma fresh_carve bs1 s bs2 n :
  Forall wf_blk bs1 -> 16 <= s -> Forall wf_blk bs2 ->
  (HEAP_VIRT_START + blen bs1, n) ∉ used_at HEAP_VIRT_START (bs1 ++ Blk s true :: bs2).
Proof.
  intros H1 Hs H2 Hin. rewrite used_at_app in Hin. cbn [used_at bfree bsz app] in *.
  apply elem_of_app in Hin as [Hin|Hin]; apply used_at_range in Hin; lia || done.
Qed.

Lemma room_carve bs1 s bs2 total k n :
  room (bs1 ++ Blk s true :: bs2) k -> total <= n + 23 -> 0 < n -> room (bs1 ++ carve total s ++ bs2) (k - (n + 40)).
Proof.
  intros [Hk|(s0 & Hin & Hk)] Ht Hn; [left; lia|].
  apply elem_of_app in Hin as [Hin|[[= ->]|Hin]%elem_of_cons].
  - right. exists s0. split; [|lia]. apply elem_of_app. by left.
  - unfold carve, MIN_BLOCK_SIZE. destruct (Z.leb_spec 16 (s - total)); [|left; lia].
    right. exists (s - total). split; [|lia]. rewrite elem_of_app. right. cbn. right. left.
  - right. exists s0. split; [|lia]. rewrite !elem_of_app. auto.
Qed.

(** What [kmalloc] returns when it succeeds, from either search. *)
Lemma take_live h' bs bs0 bs1 s bs2 total k :
  used_at HEAP_VIRT_START bs0 = used_at HEAP_VIRT_START bs ->
  first_fit total bs0 = Some (bs1, s, bs2) -> heap_inv h' (bs1 ++ carve total s ++ bs2) ->
  room (bs1 ++ carve total s ++ bs2) k ->
  let p := HEAP_VIRT_START + blen bs1 + 4 in
  0 < p < 2 ^ 32 /\ (p ∉ (list_to_set (live_addrs bs) : gset Z)) /\
  heap_live h' ({[p]} ∪ list_to_set (live_addrs bs)) k.
Proof.
  intros Eu (-> & Hle & _)%first_fit_split Hi' Hk p. pose proof (inv_bound _ _ Hi') as Hb.
  destruct (carve_wf _ _ _ _ (hi_wf _ _ Hi')) as (H1 & Hs & H2).
  pose proof (blen_nonneg _ H1). pose proof (blen_nonneg _ H2). rewrite !blen_app, carve_len in Hb.
  splits.
  - unfold p, HEAP_VIRT_START, HEAP_MAX in *. lia.
  - unfold p, HEAP_VIRT_START, HEAP_MAX in *. lia.
  - intros (n & Hn)%elem_of_live. rewrite <- Eu in Hn. revert Hn. unfold p.
    replace (HEAP_VIRT_START + blen bs1 + 4 - 4) with (HEAP_VIRT_START + blen bs1) by lia. by apply fresh_carve.
  - eexists. split; [exact Hi'|]. split; [|done]. apply set_eq. intros x. rewrite elem_of_union, elem_of_singleton, !elem_of_live.
    rewrite live_carve, Eu. unfold p. split; intros [E|E]; (by right) || (left; lia).
Qed.

(** A free block that is large enough is found. *)
Lemma room_first_fit bs k total : room bs k -> 0 < total <= k -> is_Some (first_fit total bs).
Proof.
  intros [Hk|(s & Hin & Hk)] Ht; [lia|]. induction bs as [|[t f] bs IH]; [by apply not_elem_of_nil in Hin|].
  cbn [first_fit bfree bsz]. destruct (f && (total <=? t)) eqn:E; [eauto|].
  apply elem_of_cons in Hin as [[= <- <-]|Hin]; [cbn in E; bool_prop; lia|].
  destruct (IH Hin) as [[[? ?] ?] ->]. eauto.
Qed.

Lemma heap_malloc_spec h L k n :
  heap_live h L k -> 0 < n <= 0xFFFFE000 ->
  exists p h', kmalloc n h = Some (p, h') /\
    ((p = 0 /\ k < n + 40 /\ heap_live h' L k) \/
     (0 < p < 2 ^ 32 /\ (p ∉ L) /\ heap_live h' ({[p]} ∪ L) (k - (n + 40)))).
Proof.
  intros (bs & Hi & -> & Hr) Hn. destruct (kmalloc_spec h bs n Hi ltac:(left; lia) ltac:(lia)) as (p & h' & -> & _ & Hm).
  destruct (total_size_ok n Hn) as [[Hw _] Ht]. exists p, h'. split; [done|].
  destruct (first_fit _ bs) as [[[bs1 s] bs2]|] eqn:Hff.
  - destruct Hm as [-> Hi']. right. apply (take_live _ bs bs bs1 s bs2 (total_size n)); try done.
    apply first_fit_split in Hff as (-> & _). apply room_carve; [done|lia|lia].
  - assert (Hk : k < n + 40).
    { destruct (Z.ltb_spec k (n + 40)); [done|].
      destruct (room_first_fit bs k (total_size n) Hr) as [? E]; [lia|congruence]. }
    destruct Hm as [[-> Hi']|(bs1 & s & bs2 & Hff' & -> & Hi')].
    + left. split; [done|]. split; [done|]. by exists bs.
    + right. eapply take_live; [apply extend_used|exact Hff'|exact Hi'|left; lia].
Qed.

(** Releasing a block only makes free blocks larger. *)
Lemma room_release bs1 s bs2 k :
  Forall wf_blk bs1 -> 16 <= s -> Forall wf_blk bs2 ->
  room (bs1 ++ Blk s false :: bs2) k -> room (release bs1 s bs2) k.
Proof.
  intros H1 Hs H2 [Hk|(s0 & Hin & Hk)]; [by left|]. right. unfold release, join_left.
  assert (Hl : exists l n, (match last bs1 with Some (Blk p true) => (removelast bs1, p + s) | _ => (bs1, s) end) = (l, n) /\
     s <= n /\ (Blk s0 true ∈ bs1 -> Blk s0 true ∈ l \/ s0 <= n)).
  { destruct bs1 as [|[p f] bs1 _] using rev_ind; [exists [], s; splits; [done|lia|auto]|].
    rewrite last_snoc. apply Forall_app in H1 as [_ [[Hp _] _]%Forall_cons]. cbn in Hp.
    destruct f; [|exists (bs1 ++ [Blk p false]), s; splits; [done|lia|auto]].
    rewrite removelast_last. exists bs1, (p + s). splits; [done|lia|].
    intros [?|[[= ->]|?%not_elem_of_nil]%elem_of_cons]%elem_of_app; [by left|right; lia|done]. }
  destruct Hl as (l & n & -> & Hn & Hin1). unfold join_right.
  apply elem_of_app in Hin as [Hin|[?|Hin]%elem_of_cons]; [|done|].
  - destruct (Hin1 Hin) as [?|?]; (destruct bs2 as [|[p []] bs2]; [| |]);
      try (exists s0; split; [apply elem_of_app; by left|lia]).
    + exists n. split; [apply elem_of_app; right; left|lia].
    + apply Forall_cons in H2 as [[Hp _] _]. cbn in Hp. exists (n + p). split; [apply elem_of_app; right; left|lia].
    + exists n. split; [apply elem_of_app; right; left|lia].
  - destruct bs2 as [|[p []] bs2]; [by apply not_elem_of_nil in Hin| |].
    + apply elem_of_cons in Hin as [[= ->]|Hin].
      * exists (n + p). split; [apply elem_of_app; right; left|lia].
      * exists s0. split; [apply elem_of_app; right; by right|lia].
    + exists s0. split; [apply elem_of_app; right; by right|lia].
Qed.

(** An allocated address belongs to a block. *)
Lemma used_split a bs x s :
  (x, s) ∈ used_at a bs -> exists bs1 bs2, bs = bs1 ++ Blk s false :: bs2 /\ x = a + blen bs1.
Proof.
  revert a. induction bs as [|[t f] bs IH]; intros a Hin; cbn [used_at bfree bsz] in Hin; [set_solver|].
  apply elem_of_app in Hin as [Hin|Hin].
  - destruct f; [set_solver|]. apply list_elem_of_singleton in Hin. simplify_eq. exists [], bs. cbn. split; [done|lia].
  - destruct (IH _ Hin) as (b1 & b2 & -> & ->). exists (Blk t f :: b1), b2. cbn. split; [done|lia].
Qed.

Lemma heap_free_spec h L k p :
  heap_live h L k -> p ∈ L -> exists h', kfree p h = Some h' /\ heap_live h' (L ∖ {[p]}) k.
Proof.
  intros (bs & Hi & -> & Hr) (s & Hs)%elem_of_live. destruct (used_split _ _ _ _ Hs) as (bs1 & bs2 & -> & E).
  destruct (kfree_spec _ _ _ _ Hi) as (h' & Ek & Hi' & _). replace p with (HEAP_VIRT_START + blen bs1 + 4) by lia.
  exists h'. split; [done|]. eexists. split; [exact Hi'|].
  pose proof (hi_wf _ _ Hi) as [H1 [[Hw _] H2]%Forall_cons]%Forall_app. cbn in Hw.
  split; [|by apply room_release]. apply set_eq. intros x.
  rewrite elem_of_difference, elem_of_singleton, !elem_of_live, release_used, used_at_app. cbn [used_at bfree bsz app].
  split.
  - intros [(n & [Hx|Hx]%elem_of_app) Hne].
    + exists n. apply elem_of_app. by left.
    + apply elem_of_cons in Hx as [[= Hx _]|Hx]; [lia|]. exists n. apply elem_of_app. by right.
  - intros (n & [Hx|Hx]%elem_of_app).
    + split; [exists n; apply elem_of_app; by left|]. apply used_at_range in Hx; lia || done.
    + split; [exists n; apply elem_of_app; right; apply elem_of_cons; by right|]. apply used_at_range in Hx; lia || done.
Qed.

Lemma heap_live_nonzero h L k p : heap_live h L k -> p ∈ L -> p <> 0.
Proof.
  intros (bs & Hi & -> & _) (s & Hs)%elem_of_live. apply used_at_range in Hs; [|by destruct Hi].
  unfold HEAP_VIRT_START in Hs. lia.
Qed.

Lemma heap_live_weaken h L k k' : heap_live h L k -> k' <= k -> heap_live h L k'.
Proof.
  intros (bs & Hi & -> & Hr) Hk. exists bs. split; [done|]. split; [done|].
  destruct Hr as [?|(s & ? & ?)]; [left; lia|right]. exists s. split; [done|lia].
Qed.

(** The bytes of the words of the heap. *)
Definition heap_bytes (h : heap P) (p n : Z) : gmap Z Z :=
  list_to_map ((fun i => (i, Z.land (Z.shiftr (rd (hmem h) (p + i - (p + i) mod 4)) (8 * ((p + i) mod 4))) 0xFF)) <$> seqZ 0 n).

#[export] Instance heap_allocator : Allocator (heap P) := {
  al_malloc := kmalloc;
  al_free := kfree;
  al_bytes := heap_bytes;
  al_ok := heap_live;
  al_malloc_spec := heap_malloc_spec;
  al_free_spec := heap_free_spec;
  al_live_nonzero := heap_live_nonzero;
  al_weaken := heap_live_weaken;
}.
End heap_allocator.

(** ** An allocator for concrete runs *)

(** Addresses from a counter; new blocks are full of the byte 0xCC. *)
Record bump := mk_bump { b_next : Z; b_live : gset Z }.

Definition bump_ok (a : bump) (L : gset Z) (k : Z) : Prop :=
  b_live a = L /\ 0 < b_next a /\ b_next a + k <= 2 ^ 32 - 1 /\ forall p, p ∈ L -> 0 < p < b_next a.

Definition bump_malloc (n : Z) (a : bump) : option (Z * bump) :=
  if b_next a + n + 40 <? 2 ^ 32 then Some (b_next a, mk_bump (b_next a + n) ({[b_next a]} ∪ b_live a)) else Some (0, a).

#[export, refine] Instance bump_allocator : Allocator bump := {
  al_malloc := bump_malloc;
  al_free p a := Some (mk_bump (b_next a) (b_live a ∖ {[p]}));
  al_bytes _ _ n := list_to_map ((fun i => (i, 0xCC)) <$> seqZ 0 n);
  al_ok := bump_ok;
}.
Proof.
  - intros a L k n (HL & H0 & Hk & Hp) Hn. unfold bump_malloc. destruct (Z.ltb_spec (b_next a + n + 40) (2 ^ 32)).
    + exists (b_next a), (mk_bump (b_next a + n) ({[b_next a]} ∪ b_live a)). split; [done|]. right. split; [lia|].
      split; [intros Hx%Hp; lia|]. unfold bump_ok. cbn. splits; [by rewrite HL|lia|lia|].
      intros p [->%elem_of_singleton|Hx%Hp]%elem_of_union; lia.
    + exists 0, a. split; [done|]. left. split; [done|]. split; [lia|]. by unfold bump_ok.
  - intros a L k p (HL & H0 & Hk & Hp) Hx. eexists. split; [done|]. unfold bump_ok. cbn. splits; [by rewrite HL|lia|lia|].
    intros q [Hq%Hp _]%elem_of_difference. lia.
  - intros a L k p (_ & _ & _ & Hp) Hx%Hp. lia.
  - intros a L k k' (HL & H0 & Hk & Hp) Hle. unfold bump_ok. splits; try done; lia.
Defined.
