(* ===== verification/Vfs.v ===== *)
(** * The virtual file system (src/fs/vfs.c, src/fs/mount.c, include/fs/vfs.h)

    Inodes, directory entries, open files and names are heap objects: the state holds a store
    of objects per type, indexed by the address that [kmalloc] returned, beside the state of
    the allocator.  Following a pointer that is NULL or was freed is [None]: a theorem that
    an operation returns [Some] also says that it touches no freed object.  The operation
    tables of file systems are indexed by the addresses of the static tables. *)

From S2P Require Import Prelude LList Cstr Heap HeapInv HeapSpec HeapTheorems Alloc.

Definition S_IFREG : Z := 0x8000.
Definition S_IFDIR : Z := 0x4000.
Definition O_RDONLY : Z := 0x0000.
Definition O_CREAT : Z := 0x0100.
Definition O_TRUNC : Z := 0x0200.

(** [sizeof] of the structures on i686 *)
Definition SIZEOF_INODE : Z := 44.
Definition SIZEOF_DENTRY : Z := 20.
Definition SIZEOF_FILE : Z := 24.
Definition SIZEOF_SUPER : Z := 20.
Definition SIZEOF_MOUNT : Z := 116.

Record inode := mk_inode {
  i_ino : Z; i_mode : Z; i_size : Z; i_links : Z; i_sb : Z;
  i_op : Z; i_fop : Z; i_private : Z; i_children : Z;
}.
#[export] Instance eta_inode : Eta inode := fun i => mk_inode
  (i_ino i) (i_mode i) (i_size i) (i_links i) (i_sb i) (i_op i) (i_fop i) (i_private i) (i_children i).

Record dentry := mk_dentry { d_name : Z; d_inode : Z; d_parent : Z; d_next : Z }.
#[export] Instance eta_dentry : Eta dentry := fun d => mk_dentry (d_name d) (d_inode d) (d_parent d) (d_next d).

Record file := mk_file { f_dentry : Z; f_pos : Z; f_flags : Z; f_op : Z; f_private : Z }.
#[export] Instance eta_file : Eta file := fun f => mk_file (f_dentry f) (f_pos f) (f_flags f) (f_op f) (f_private f).

Record super_block := mk_super { s_root : Z; s_op : Z; s_fs_info : Z }.
#[export] Instance eta_super : Eta super_block := fun b => mk_super (s_root b) (s_op b) (s_fs_info b).

(** Private data of the file systems: [struct memfs_inode] (memfs.c), with its data buffers
    (contents by offset), and [struct ramfs_inode] (ramfs.c), whose data lie in the image. *)
Record memfs_inode := mk_memfs { m_size : Z; m_capacity : Z; m_data : Z }.
Record ramfs_inode := mk_ramfs { r_size : Z; r_data : Z }.
(** [struct tarfs_inode] (tarfs.c); [struct tarfs_file] is its field [last_pgoff]. *)
Record tarfs_inode := mk_tarfs { ti_offset : Z; ti_size : Z }.

Record vfs (A : Type) := mk_vfs {
  mem : A;
  inodes : gmap Z inode;
  dentries : gmap Z dentry;
  names : gmap Z (list Z);
  files : gmap Z file;
  supers : gmap Z super_block;
  memnodes : gmap Z memfs_inode;
  ramnodes : gmap Z ramfs_inode;
  tarnodes : gmap Z tarfs_inode;
  tarfiles : gmap Z Z;
  bufs : gmap Z (gmap Z Z);
  image : gmap Z Z;
  vfs_root : Z;
  vfs_ino_next : Z;
  mounts : list (list Z * Z);
  memfs_sb : Z;
  ramfs_sb : Z;
}.
Arguments mk_vfs {A} _ _ _ _ _ _ _ _ _ _ _ _ _ _ _ _ _.
Arguments mem {A} _. Arguments inodes {A} _. Arguments dentries {A} _. Arguments names {A} _.
Arguments files {A} _. Arguments supers {A} _. Arguments memnodes {A} _. Arguments ramnodes {A} _. Arguments tarnodes {A} _. Arguments tarfiles {A} _.
Arguments bufs {A} _. Arguments image {A} _. Arguments vfs_root {A} _. Arguments vfs_ino_next {A} _.
Arguments mounts {A} _. Arguments memfs_sb {A} _. Arguments ramfs_sb {A} _.
#[export] Instance eta_vfs A : Eta (vfs A) := fun v => mk_vfs
  (mem v) (inodes v) (dentries v) (names v) (files v) (supers v) (memnodes v) (ramnodes v) (tarnodes v) (tarfiles v)
  (bufs v) (image v) (vfs_root v) (vfs_ino_next v) (mounts v) (memfs_sb v) (ramfs_sb v).

(** [struct file_operations] and [struct inode_operations] over a state [S]; a read returns
    the bytes it copies to the buffer. *)
Record file_operations (S : Type) := mk_fops {
  op_read : option (Z -> Z -> S -> option (Z * list Z * S));
  op_write : option (Z -> list Z -> S -> option (Z * S));
  op_open : option (Z -> Z -> S -> option (Z * S));
  op_release : option (Z -> Z -> S -> option (Z * S));
}.
Arguments mk_fops {S} _ _ _ _. Arguments op_read {S} _. Arguments op_write {S} _.
Arguments op_open {S} _. Arguments op_release {S} _.

Record inode_operations (S : Type) := mk_iops {
  op_lookup : option (Z -> list Z -> S -> option (Z * S));
  op_create : option (Z -> Z -> Z -> S -> option (Z * S));
}.
Arguments mk_iops {S} _ _. Arguments op_lookup {S} _. Arguments op_create {S} _.

Section Vfs.
Context {A : Type} `{Allocator A}.
Implicit Types v : vfs A.

(** The operation tables at an address; [None] for NULL. *)
Variable iops : Z -> option (inode_operations (vfs A)).
Variable fops : Z -> option (file_operations (vfs A)).

(** [kmalloc] and [kfree] in this state. *)
Definition malloc (n : Z) v : option (Z * vfs A) :=
  '(p, a) ← al_malloc n (mem v); Some (p, v <| mem := a |>).
Definition free (p : Z) v : option (vfs A) :=
  a ← al_free p (mem v); Some (v <| mem := a |>).

Definition set_inode (p : Z) (i : inode) v : vfs A := v <| inodes := <[p := i]> (inodes v) |>.
Definition set_dentry (p : Z) (d : dentry) v : vfs A := v <| dentries := <[p := d]> (dentries v) |>.
Definition set_file (p : Z) (f : file) v : vfs A := v <| files := <[p := f]> (files v) |>.

Definition vfs_new_inode (mode : Z) v : option (Z * vfs A) :=
  '(p, v) ← malloc SIZEOF_INODE v;
  if p =? 0 then Some (0, v)
  else
    let i := mk_inode (vfs_ino_next v) mode 0 1 0 0 0 0 0 in
    Some (p, (set_inode p i v) <| vfs_ino_next := vfs_ino_next v +w 1 |>).

Definition vfs_new_dentry (name : list Z) (ino parent : Z) v : option (Z * vfs A) :=
  '(p, v) ← malloc SIZEOF_DENTRY v;
  if p =? 0 then Some (0, v)
  else
    '(n, v) ← malloc (strlen name + 1) v;
    if n =? 0 then v ← free p v; Some (0, v)
    else
      let v := v <| names := <[n := name]> (names v) |> in
      if negb (parent =? 0) then
        pd ← dentries v !! parent;
        pi ← inodes v !! d_inode pd;
        let v := set_dentry p (mk_dentry n ino parent (i_children pi)) v in
        Some (p, set_inode (d_inode pd) (pi <| i_children := p |>) v)
      else Some (p, set_dentry p (mk_dentry n ino parent 0) v).

Definition vfs_free_dentry (d : Z) v : option (vfs A) :=
  if d =? 0 then Some v
  else
    de ← dentries v !! d;
    v ← (if negb (d_name de =? 0)
         then v ← free (d_name de) v; Some (v <| names := delete (d_name de) (names v) |>)
         else Some v);
    v ← free d v;
    Some (v <| dentries := delete d (dentries v) |>).

Definition vfs_mount_root (root_inode : Z) v : option (Z * vfs A) :=
  if root_inode =? 0 then Some (-1, v)
  else
    i ← inodes v !! root_inode;
    if negb (tst (i_mode i) S_IFDIR) then Some (-1, v)
    else
      '(d, v) ← vfs_new_dentry [SLASH] root_inode 0 v;
      if d =? 0 then Some (-1, v) else Some (0, v <| vfs_root := d |>).

(** The walk over the children of a directory; every entry is visited once, so the number of
    entries bounds it. *)
Fixpoint children_loop (fuel : nat) (child : Z) (name : list Z) v : option Z :=
  match fuel with
  | O => None
  | S fuel' =>
      if child =? 0 then Some 0
      else
        de ← dentries v !! child;
        n ← names v !! d_name de;
        if strcmp n name =? 0 then Some child else children_loop fuel' (d_next de) name v
  end.

(** [vfs_generic_lookup(dir, dentry)] with the name of [dentry]. *)
Definition vfs_generic_lookup (dir : Z) (name : list Z) v : option (Z * vfs A) :=
  i ← inodes v !! dir;
  r ← children_loop (S (size (dentries v))) (i_children i) name v;
  Some (r, v).

Definition vfs_lookup_component (dir : Z) (name : list Z) v : option (Z * vfs A) :=
  dd ← dentries v !! dir;
  di ← inodes v !! d_inode dd;
  match iops (i_op di) ≫= op_lookup with
  | None => Some (0, v)
  | Some lookup =>
      '(tmp, v) ← malloc SIZEOF_DENTRY v;
      if tmp =? 0 then Some (0, v)
      else
        '(n, v) ← malloc (strlen name + 1) v;
        if n =? 0 then v ← free tmp v; Some (0, v)
        else
          '(res, v) ← lookup (d_inode dd) name v;
          v ← free n v;
          v ← free tmp v;
          Some (res, v)
  end.

(** The loop over the components of a path; it consumes a slash per step. *)
Fixpoint walk (fuel : nat) (cur : Z) (token : list Z) v : option (Z * vfs A) :=
  match fuel with
  | O => None
  | S fuel' =>
      match strchr token SLASH with
      | Some i =>
          '(cur, v) ← vfs_lookup_component cur (take i token) v;
          if cur =? 0 then Some (0, v) else walk fuel' cur (drop (S i) token) v
      | None =>
          if 0 <? strlen token then vfs_lookup_component cur token v else Some (cur, v)
      end
  end.

Definition vfs_lookup_from (base : Z) (path : list Z) v : option (Z * vfs A) :=
  if base =? 0 then Some (0, v)
  else
    let path := if char_at path 0 =? SLASH then drop 1 path else path in
    if char_at path 0 =? 0 then Some (base, v)
    else
      '(copy, v) ← malloc (strlen path + 1) v;
      if copy =? 0 then Some (0, v)
      else
        '(cur, v) ← walk (S (length path)) base path v;
        v ← free copy v;
        Some (cur, v).

Definition is_path_allowed (path root : list Z) : bool :=
  if char_at root 0 =? 0 then true
  else if negb (strncmp path root (length root) =? 0) then false
  else if negb (char_at path (length root) =? 0) && negb (char_at path (length root) =? SLASH) then false
  else true.

(** ** Mounts: [mounts] is the list from [mount_root], newest first *)

Definition vfs_mount (path : list Z) (sb : Z) v : option (Z * vfs A) :=
  if sb =? 0 then Some (-1, v)
  else
    '(node, v) ← malloc SIZEOF_MOUNT v;
    if node =? 0 then Some (-1, v)
    else
      '(p, v) ← malloc (strlen path + 1) v;
      if p =? 0 then v ← free node v; Some (-1, v)
      else Some (0, v <| mounts := (path, sb) :: mounts v |>).

Fixpoint find_mount_loop (ms : list (list Z * Z)) (path : list Z) (best : option Z) (best_len : nat)
    : option Z * nat :=
  match ms with
  | [] => (best, best_len)
  | (mp, sb) :: ms =>
      let len := length mp in
      let hit := (strncmp mp path len =? 0) && ((char_at path len =? 0) || (char_at path len =? SLASH)) in
      if hit && (best_len <? len)%nat then find_mount_loop ms path (Some sb) len
      else find_mount_loop ms path best best_len
  end.

(** The super block (0 for NULL) and the rest of the path. *)
Definition vfs_find_mount (path : list Z) v : Z * list Z :=
  let '(best, best_len) := find_mount_loop (mounts v) path None 0 in
  (default 0 best, drop best_len path).

(** [vfs_lookup]: [root] is the [root_path] of the current task, empty when there is none. *)
Definition vfs_lookup (root path : list Z) v : option (Z * vfs A) :=
  if (char_at path 0 =? 0) || (vfs_root v =? 0) then Some (0, v)
  else if negb (char_at root 0 =? 0) && negb (strcmp root [SLASH] =? 0) &&
          (negb (char_at path 0 =? SLASH) || negb (is_path_allowed path root))
  then Some (0, v)
  else
    let '(sb, rest) := vfs_find_mount path v in
    if negb (sb =? 0) then
      b ← supers v !! sb;
      if negb (s_root b =? 0) then vfs_lookup_from (s_root b) rest v
      else vfs_lookup_from (vfs_root v) path v
    else vfs_lookup_from (vfs_root v) path v.

(** The end of [vfs_open] and [vfs_create]: a file structure, and the file system's [open]. *)
Definition open_dentry (dentry ino flags : Z) v : option (Z * vfs A) :=
  '(filp, v) ← malloc SIZEOF_FILE v;
  if filp =? 0 then Some (0, v)
  else
    i ← inodes v !! ino;
    let v := set_file filp (mk_file dentry 0 flags (i_fop i) 0) v in
    match fops (i_fop i) ≫= op_open with
    | None => Some (filp, v)
    | Some open =>
        '(r, v) ← open ino filp v;
        if negb (r =? 0) then
          v ← free filp v; Some (0, v <| files := delete filp (files v) |>)
        else Some (filp, v)
    end.

Definition vfs_open (root path : list Z) (flags : Z) v : option (Z * vfs A) :=
  '(d, v) ← vfs_lookup root path v;
  if d =? 0 then Some (0, v)
  else
    de ← dentries v !! d;
    if d_inode de =? 0 then Some (0, v)
    else open_dentry d (d_inode de) flags v.

(** The index after the last slash. *)
Fixpoint after_last_slash (s : list Z) (i base : nat) : nat :=
  match s with
  | [] => base
  | c :: s => after_last_slash s (S i) (if c =? SLASH then S i else base)
  end.

Definition vfs_create (path : list Z) (mode : Z) v : option (Z * vfs A) :=
  if (char_at path 0 =? 0) || (vfs_root v =? 0) then Some (0, v)
  else
    let '(sb, rest) := vfs_find_mount path v in
    base ← (if negb (sb =? 0) then
              b ← supers v !! sb; Some (if negb (s_root b =? 0) then s_root b else vfs_root v)
            else Some (vfs_root v));
    '(copy, v) ← malloc (strlen rest + 1) v;
    if copy =? 0 then Some (0, v)
    else
      let i := after_last_slash rest 0 0 in
      let base_name := drop i rest in
      let dir_name := if (0 <? i)%nat then take (i - 1) rest else rest in
      if char_at base_name 0 =? 0 then v ← free copy v; Some (0, v)
      else
        '(dir, v) ← (if char_at dir_name 0 =? 0 then Some (base, v) else vfs_lookup_from base dir_name v);
        if dir =? 0 then v ← free copy v; Some (0, v)
        else
          '(old, v) ← vfs_lookup_component dir base_name v;
          if negb (old =? 0) then v ← free copy v; Some (0, v)
          else
            '(d, v) ← vfs_new_dentry base_name 0 dir v;
            v ← free copy v;
            if d =? 0 then Some (0, v)
            else
              dd ← dentries v !! dir;
              di ← inodes v !! d_inode dd;
              '(r, v) ← (match iops (i_op di) ≫= op_create with
                         | None => Some (-1, v)
                         | Some create => create (d_inode dd) d mode v
                         end);
              if negb (r =? 0) then v ← vfs_free_dentry d v; Some (0, v)
              else
                de ← dentries v !! d;
                open_dentry d (d_inode de) 0 v.

Definition vfs_read (filp len : Z) v : option (Z * list Z * vfs A) :=
  if filp =? 0 then Some (-1, [], v)
  else
    f ← files v !! filp;
    match fops (f_op f) ≫= op_read with
    | None => Some (-1, [], v)
    | Some read => read filp len v
    end.

Definition vfs_write (filp : Z) (buf : list Z) v : option (Z * vfs A) :=
  if filp =? 0 then Some (-1, v)
  else
    f ← files v !! filp;
    match fops (f_op f) ≫= op_write with
    | None => Some (-1, v)
    | Some write => write filp buf v
    end.

Definition vfs_close (filp : Z) v : option (Z * vfs A) :=
  if filp =? 0 then Some (-1, v)
  else
    f ← files v !! filp;
    '(ret, v) ← (match fops (f_op f) ≫= op_release with
                 | None => Some (0, v)
                 | Some release => de ← dentries v !! f_dentry f; release (d_inode de) filp v
                 end);
    v ← free filp v;
    Some (ret, v <| files := delete filp (files v) |>).
End Vfs.
