(* ===== verification/Memfs.v ===== *)
(** * The writable in-memory file system and the boot image file system
    (src/fs/memfs.c, src/fs/ramfs.c), and the operation tables

    The bytes of a memfs file are in a data buffer of its own, contents by offset; a new
    buffer holds what the memory of the heap happened to hold ([al_bytes], of which nothing
    is assumed).  Growing a buffer doubles its capacity until the data fit; the doubling loop has
    32 rounds of fuel, as many as a 32-bit capacity can be doubled. *)

From S2P Require Import Prelude LList Cstr Heap HeapInv HeapSpec HeapTheorems Alloc Vfs.

Definition SIZEOF_MEMFS_INODE : Z := 12.
Definition SIZEOF_RAMFS_INODE : Z := 8.

(** The addresses of the static operation tables. *)
Definition MEMFS_OPS : Z := 1.
Definition RAMFS_OPS : Z := 2.
Definition TARFS_OPS : Z := 3.

(** [memcpy] into a buffer at [off], and out of one. *)
Definition copy_in (off : Z) (bs : list Z) (m : gmap Z Z) : gmap Z Z :=
  list_to_map (imap (fun i b => (off + Z.of_nat i, b)) bs) ∪ m.
Definition copy_out (off len : Z) (m : gmap Z Z) : list Z := (fun i => rd m (off + i)) <$> seqZ 0 len.

(** [while (cap < need) cap *= 2;] *)
Fixpoint grow_cap (fuel : nat) (cap need : Z) : option Z :=
  match fuel with
  | O => None
  | S fuel' => if cap <? need then grow_cap fuel' (cap *w 2) need else Some cap
  end.

Section Memfs.
Context {A : Type} `{Allocator A}.
Implicit Types v : vfs A.

Definition set_memnode (p : Z) (n : memfs_inode) v : vfs A := v <| memnodes := <[p := n]> (memnodes v) |>.
Definition set_buf (p : Z) (b : gmap Z Z) v : vfs A := v <| bufs := <[p := b]> (bufs v) |>.

Definition memfs_alloc_inode (mode : Z) v : option (Z * vfs A) :=
  '(ino, v) ← vfs_new_inode mode v;
  if ino =? 0 then Some (0, v)
  else
    '(p, v) ← malloc SIZEOF_MEMFS_INODE v;
    if p =? 0 then v ← free ino v; Some (0, v <| inodes := delete ino (inodes v) |>)
    else
      let v := set_memnode p (mk_memfs 0 0 0) v in
      i ← inodes v !! ino;
      Some (ino, set_inode ino (i <| i_private := p |> <| i_fop := 0 |>) v).

Definition memfs_create (dir dentry mode : Z) v : option (Z * vfs A) :=
  '(ino, v) ← memfs_alloc_inode mode v;
  if ino =? 0 then Some (-1, v)
  else
    i ← inodes v !! ino;
    let v := set_inode ino (i <| i_fop := MEMFS_OPS |>) v in
    de ← dentries v !! dentry;
    Some (0, set_dentry dentry (de <| d_inode := ino |>) v).

(** [filp->f_dentry->d_inode->i_private]; 0 where the code returns -1 for a NULL. *)
Definition file_private (filp : Z) v : option Z :=
  f ← files v !! filp;
  if f_dentry f =? 0 then Some 0
  else
    de ← dentries v !! f_dentry f;
    if d_inode de =? 0 then Some 0
    else i ← inodes v !! d_inode de; Some (i_private i).

(** [size > *off ? size - *off : 0] *)
Definition remaining (size off : Z) : Z := if off <? size then size - off else 0.

Definition advance (filp n : Z) v : option (vfs A) :=
  f ← files v !! filp;
  Some (set_file filp (f <| f_pos := (f_pos f + n) mod 2 ^ 64 |>) v).

Definition memfs_read (filp len : Z) v : option (Z * list Z * vfs A) :=
  p ← file_private filp v;
  if p =? 0 then Some (-1, [], v)
  else
    n ← memnodes v !! p;
    if m_data n =? 0 then Some (-1, [], v)
    else
      f ← files v !! filp;
      let off := f_pos f in
      let avail := remaining (m_size n) off in
      let len := if avail <? len then avail else len in
      b ← bufs v !! m_data n;
      v ← advance filp len v;
      Some (len, copy_out off len b, v).

(** A larger data buffer with the old contents. *)
Definition memfs_grow (p need : Z) v : option (bool * vfs A) :=
  n ← memnodes v !! p;
  if m_capacity n <? need then
    cap ← grow_cap 32 (if negb (m_capacity n =? 0) then m_capacity n else 64) need;
    '(nd, v) ← malloc cap v;
    if nd =? 0 then Some (false, v)
    else
      let junk := al_bytes (mem v) nd cap in
      let v := set_buf nd junk v in
      v ← (if negb (m_data n =? 0) then
             b ← bufs v !! m_data n;
             let v := set_buf nd (copy_in 0 (copy_out 0 (m_size n) b) junk) v in
             v ← free (m_data n) v;
             Some (v <| bufs := delete (m_data n) (bufs v) |>)
           else Some v);
      Some (true, set_memnode p (mk_memfs (m_size n) cap nd) v)
  else Some (true, v).

Definition memfs_write (filp : Z) (buf : list Z) v : option (Z * vfs A) :=
  p ← file_private filp v;
  if p =? 0 then Some (-1, v)
  else
    f ← files v !! filp;
    let off := f_pos f in
    let len := Z.of_nat (length buf) in
    let need := wrap32 off +w wrap32 len in
    '(ok, v) ← memfs_grow p need v;
    if negb ok then Some (-1, v)
    else
      n ← memnodes v !! p;
      v ← (if 0 <? len then b ← bufs v !! m_data n; Some (set_buf (m_data n) (copy_in off buf b) v) else Some v);
      v ← advance filp len v;
      f ← files v !! filp;
      let v := if m_size n <? f_pos f then set_memnode p (mk_memfs (wrap32 (f_pos f)) (m_capacity n) (m_data n)) v else v in
      Some (len, v).

Definition memfs_open (ino filp : Z) v : option (Z * vfs A) :=
  i ← inodes v !! ino;
  if i_private i =? 0 then Some (-1, v)
  else
    f ← files v !! filp;
    if tst (f_flags f) O_TRUNC then
      n ← memnodes v !! i_private i;
      let v := set_memnode (i_private i) (mk_memfs 0 (m_capacity n) (m_data n)) v in
      Some (0, set_file filp (f <| f_pos := 0 |>) v)
    else Some (0, v).

Definition memfs_release (ino filp : Z) v : option (Z * vfs A) := Some (0, v).

Definition memfs_fops : file_operations (vfs A) :=
  mk_fops (Some memfs_read) (Some memfs_write) (Some memfs_open) (Some memfs_release).
Definition memfs_iops : inode_operations (vfs A) := mk_iops (Some vfs_generic_lookup) (Some memfs_create).

Definition memfs_mount v : option (Z * vfs A) :=
  if negb (memfs_sb v =? 0) then Some (memfs_sb v, v)
  else
    '(sb, v) ← malloc SIZEOF_SUPER v;
    if sb =? 0 then Some (0, v)
    else
      let v := v <| supers := <[sb := mk_super 0 0 0]> (supers v) |> in
      '(ino, v) ← memfs_alloc_inode (Z.lor S_IFDIR 0x1ED) v;
      if ino =? 0 then v ← free sb v; Some (0, v <| supers := delete sb (supers v) |>)
      else
        i ← inodes v !! ino;
        let v := set_inode ino (i <| i_op := MEMFS_OPS |>) v in
        '(d, v) ← vfs_new_dentry [SLASH] ino 0 v;
        if d =? 0 then
          v ← free (i_private i) v;
          let v := v <| memnodes := delete (i_private i) (memnodes v) |> in
          v ← free ino v;
          let v := v <| inodes := delete ino (inodes v) |> in
          v ← free sb v;
          Some (0, v <| supers := delete sb (supers v) |>)
        else
          let v := v <| supers := <[sb := mk_super d 0 0]> (supers v) |> in
          Some (sb, v <| memfs_sb := sb |>).

(** ** ramfs: files whose data lie in the boot image *)

Definition ramfs_alloc_inode (mode : Z) v : option (Z * vfs A) :=
  '(ino, v) ← vfs_new_inode mode v;
  if ino =? 0 then Some (0, v)
  else
    '(p, v) ← malloc SIZEOF_RAMFS_INODE v;
    if p =? 0 then v ← free ino v; Some (0, v <| inodes := delete ino (inodes v) |>)
    else
      let v := v <| ramnodes := <[p := mk_ramfs 0 0]> (ramnodes v) |> in
      i ← inodes v !! ino;
      Some (ino, set_inode ino (i <| i_private := p |>) v).

Definition ramfs_read (filp len : Z) v : option (Z * list Z * vfs A) :=
  p ← file_private filp v;
  if p =? 0 then Some (-1, [], v)
  else
    n ← ramnodes v !! p;
    if r_data n =? 0 then Some (-1, [], v)
    else
      f ← files v !! filp;
      let off := f_pos f in
      let avail := remaining (r_size n) off in
      let len := if avail <? len then avail else len in
      v ← advance filp len v;
      Some (len, copy_out (r_data n + off) len (image v), v).

Definition ramfs_fops : file_operations (vfs A) := mk_fops (Some ramfs_read) None None None.
Definition ramfs_iops : inode_operations (vfs A) := mk_iops (Some vfs_generic_lookup) None.

(** ** The tables.  The file operations of tarfs, which go through the page cache, are a
    parameter. *)

Definition tarfs_iops : inode_operations (vfs A) := mk_iops (Some vfs_generic_lookup) None.

Definition iops_at (p : Z) : option (inode_operations (vfs A)) :=
  if p =? MEMFS_OPS then Some memfs_iops
  else if p =? RAMFS_OPS then Some ramfs_iops
  else if p =? TARFS_OPS then Some tarfs_iops else None.
Definition fops_at (tarfs_fops : file_operations (vfs A)) (p : Z) : option (file_operations (vfs A)) :=
  if p =? MEMFS_OPS then Some memfs_fops
  else if p =? RAMFS_OPS then Some ramfs_fops
  else if p =? TARFS_OPS then Some tarfs_fops else None.
End Memfs.
