(* ===== verification/VfsInv.v ===== *)
(** * The directory tree: invariant and path resolution

    [fs_ok v T]: [T] gives the type of every heap object of the file systems; directory
    entries have names and inodes, and the children of a directory form a null-terminated
    list.  [resolves v d names r]: walking [names] from the entry [d] leads to [r]. *)

From S2P Require Import Prelude LList Cstr Heap HeapInv HeapSpec HeapTheorems Alloc Vfs Memfs.

Inductive kind := KInode | KDentry | KName | KFile | KSuper | KMem | KRam | KTar | KTarFile | KBuf.
#[export] Instance kind_eq_dec : EqDecision kind.
Proof. solve_decision. Defined.

Section inv.
Context {A : Type} `{Allocator A}.
Implicit Types v : vfs A.

Definition dnext v (d : Z) : Z := from_option d_next 0 (dentries v !! d).
Definition dname v (d : Z) : option (list Z) := de ← dentries v !! d; names v !! d_name de.

Record fs_ok v (T : gmap Z kind) : Prop := {
  fo_inode p : is_Some (inodes v !! p) <-> T !! p = Some KInode;
  fo_dentry p : is_Some (dentries v !! p) <-> T !! p = Some KDentry;
  fo_name p : is_Some (names v !! p) <-> T !! p = Some KName;
  fo_file p : is_Some (files v !! p) <-> T !! p = Some KFile;
  fo_super p : is_Some (supers v !! p) <-> T !! p = Some KSuper;
  fo_mem p : is_Some (memnodes v !! p) <-> T !! p = Some KMem;
  fo_ram p : is_Some (ramnodes v !! p) <-> T !! p = Some KRam;
  fo_tar p : is_Some (tarnodes v !! p) <-> T !! p = Some KTar;
  fo_tarfile p : is_Some (tarfiles v !! p) <-> T !! p = Some KTarFile;
  fo_buf p : is_Some (bufs v !! p) <-> T !! p = Some KBuf;
  fo_entry d de : dentries v !! d = Some de ->
    is_Some (inodes v !! d_inode de) /\ exists n, names v !! d_name de = Some n /\ cstr n;
  fo_children i ino : inodes v !! i = Some ino ->
    exists ds, llist (dnext v) (i_children ino) ds /\ Forall (fun d => is_Some (dentries v !! d)) ds;
}.

(** The objects are live and there is room for [k] bytes. *)
Definition mem_ok v (T : gmap Z kind) (L : gset Z) (k : Z) : Prop := al_ok (mem v) L k /\ dom T ⊆ L.

(** ** Path components *)

(** Split at slashes; a trailing empty component is dropped. *)
Fixpoint split_path (fuel : nat) (s : list Z) : list (list Z) :=
  match fuel with
  | O => []
  | S fuel' =>
      match strchr s SLASH with
      | Some i => take i s :: split_path fuel' (drop (S i) s)
      | None => if decide (s = []) then [] else [s]
      end
  end.

Definition components (path : list Z) : list (list Z) :=
  let path := if char_at path 0 =? SLASH then drop 1 path else path in
  split_path (S (length path)) path.

(** [c] is the first entry called [name] in the directory of entry [d]. *)
Definition is_child v (d : Z) (name : list Z) (c : Z) : Prop :=
  exists de di ds1 ds2, dentries v !! d = Some de /\ inodes v !! d_inode de = Some di /\
    is_Some (iops_at (A := A) (i_op di)) /\
    llist (dnext v) (i_children di) (ds1 ++ c :: ds2) /\ dname v c = Some name /\
    (forall x, x ∈ ds1 -> dname v x <> Some name).

Inductive resolves v : Z -> list (list Z) -> Z -> Prop :=
| res_nil d : resolves v d [] d
| res_cons d n ns c r : is_child v d n c -> resolves v c ns r -> resolves v d (n :: ns) r.

(** Entries are determined by their names. *)
Lemma is_child_fun v d n c c' : is_child v d n c -> is_child v d n c' -> c = c'.
Proof.
  intros (de & di & ds1 & ds2 & E1 & E2 & _ & Hl & Hn & Hf) (de' & di' & ds1' & ds2' & E1' & E2' & _ & Hl' & Hn' & Hf').
  simplify_eq. pose proof (llist_unique _ _ _ _ Hl Hl') as E. clear Hl Hl'. revert ds1' E Hf'.
  induction ds1 as [|x ds1 IH]; intros [|y ds1'] E Hf'; cbn in E; injection E as E0 E.
  - done.
  - destruct (Hf' y); [by left|]. by rewrite <- E0.
  - destruct (Hf x); [by left|]. by rewrite E0.
  - apply (IH (fun z Hz => Hf z (proj2 (elem_of_cons _ _ _) (or_intror Hz))) ds1' E). intros z Hz. apply Hf'. by right.
Qed.

Lemma resolves_fun v d ns r r' : resolves v d ns r -> resolves v d ns r' -> r = r'.
Proof.
  intros Hr. revert r'. induction Hr as [|d n ns c r Hc Hr IH]; intros r' Hr'; inversion Hr' as [|? ? ? c' ? Hc' Hr'']; subst; [done|].
  apply IH. by rewrite (is_child_fun v d n c c' Hc Hc').
Qed.

(** ** The walk over the children *)

Lemma children_loop_spec v T fuel p ds name :
  fs_ok v T -> cstr name -> llist (dnext v) p ds -> Forall (fun d => is_Some (dentries v !! d)) ds ->
  (length ds < fuel)%nat ->
  exists r, children_loop fuel p name v = Some r /\
    ((r = 0 /\ forall x, x ∈ ds -> dname v x <> Some name) \/
     (r <> 0 /\ exists ds1 ds2, ds = ds1 ++ r :: ds2 /\ dname v r = Some name /\
        forall x, x ∈ ds1 -> dname v x <> Some name)).
Proof.
  intros Hv Hc. revert p ds. induction fuel as [|fuel IH]; intros p ds Hl Hds Hf; [lia|]. cbn [children_loop].
  destruct ds as [|d ds]; cbn in Hl.
  { rewrite Hl. exists 0. split; [done|]. left. split; [done|]. intros x Hx. by apply not_elem_of_nil in Hx. }
  destruct Hl as (-> & Hd & Hl). apply Forall_cons in Hds as [[de Ede] Hds].
  destruct (Z.eqb_spec d 0) as [?|_]; [done|]. destruct (fo_entry _ _ Hv d de Ede) as (_ & n & En & Hcn).
  rewrite Ede. cbn [mbind option_bind]. rewrite En. cbn [mbind option_bind].
  assert (Edn : dname v d = Some n) by (unfold dname; by rewrite Ede).
  destruct (Z.eqb_spec (strcmp n name) 0) as [E|E]; rewrite strcmp_eq in E by done.
  - subst n. exists d. split; [done|]. right. split; [done|]. exists [], ds. split; [done|]. split; [done|].
    intros x Hx. by apply not_elem_of_nil in Hx.
  - assert (Enx : dnext v d = d_next de) by (unfold dnext; by rewrite Ede). rewrite Enx in Hl. cbn in Hf.
    destruct (IH (d_next de) ds Hl Hds ltac:(lia)) as (r & -> & Hr). exists r. split; [done|].
    assert (Hnd : dname v d <> Some name) by congruence.
    destruct Hr as [[-> Hr]|(Hr0 & ds1 & ds2 & -> & Hn & Hr)]; [left|right].
    + split; [done|]. intros x [->|Hx]%elem_of_cons; auto.
    + split; [done|]. exists (d :: ds1), ds2. split; [done|]. split; [done|]. intros x [->|Hx]%elem_of_cons; auto.
Qed.

(** The chain of a directory visits every entry at most once, so the fuel is enough. *)
Lemma children_length v p ds :
  llist (dnext v) p ds -> Forall (fun d => is_Some (dentries v !! d)) ds -> (length ds <= size (dentries v))%nat.
Proof.
  intros Hl Hds. rewrite <- (size_dom (D := gset Z)). rewrite <- (size_list_to_set (C := gset Z) ds) by eauto using llist_NoDup.
  apply subseteq_size. intros x Hx%elem_of_list_to_set. apply elem_of_dom. rewrite Forall_forall in Hds. by apply Hds.
Qed.

(** ** Allocation in the state: only [mem] changes *)

Lemma fs_ok_mem v T a : fs_ok v T -> fs_ok (v <| mem := a |>) T.
Proof. intros []. by split. Qed.

Lemma malloc_ok v T L k n :
  mem_ok v T L k -> 0 < n <= 0xFFFFE000 ->
  exists p a', malloc n v = Some (p, v <| mem := a' |>) /\
    ((p = 0 /\ k < n + 40 /\ mem_ok (v <| mem := a' |>) T L k) \/
     (0 < p < 2 ^ 32 /\ (p ∉ L) /\ mem_ok (v <| mem := a' |>) T ({[p]} ∪ L) (k - (n + 40)))).
Proof.
  intros [Ha HT] Hn. destruct (al_malloc_spec _ _ _ _ Ha Hn) as (p & a' & E & Hp). exists p, a'.
  unfold malloc. rewrite E. split; [done|]. destruct Hp as [(-> & ? & ?)|(? & ? & ?)]; [left|right]; (split; [done|]); (split; [done|]); (split; [done|cbn; set_solver]).
Qed.

(** With enough room the allocation succeeds. *)
Lemma malloc_room v T L k n :
  mem_ok v T L k -> 0 < n <= 0xFFFFE000 -> n + 40 <= k ->
  exists p a', malloc n v = Some (p, v <| mem := a' |>) /\ p <> 0 /\ (p ∉ L) /\
    mem_ok (v <| mem := a' |>) T ({[p]} ∪ L) (k - (n + 40)).
Proof.
  intros Hm Hn Hk. destruct (malloc_ok v T L k n Hm Hn) as (p & a' & E & [(_ & ? & _)|(? & ? & ?)]); [lia|].
  exists p, a'. splits; [done|lia|done|done].
Qed.

Lemma free_temp v T L k p :
  mem_ok v T L k -> p ∈ L -> p ∉ dom T ->
  exists a', free p v = Some (v <| mem := a' |>) /\ mem_ok (v <| mem := a' |>) T (L ∖ {[p]}) k.
Proof.
  intros [Ha HT] Hp Hn. destruct (al_free_spec _ _ _ _ Ha Hp) as (a' & E & Ha'). exists a'.
  unfold free. rewrite E. split; [done|]. split; [done|]. cbn. set_solver.
Qed.

Lemma generic_lookup_spec v T i ino name :
  fs_ok v T -> inodes v !! i = Some ino -> cstr name ->
  exists r, vfs_generic_lookup i name v = Some (r, v) /\
    exists ds, llist (dnext v) (i_children ino) ds /\
    ((r = 0 /\ forall x, x ∈ ds -> dname v x <> Some name) \/
     (r <> 0 /\ exists ds1 ds2, ds = ds1 ++ r :: ds2 /\ dname v r = Some name /\
        forall x, x ∈ ds1 -> dname v x <> Some name)).
Proof.
  intros Hv Ei Hc. destruct (fo_children _ _ Hv i ino Ei) as (ds & Hl & Hds).
  destruct (children_loop_spec v T (S (size (dentries v))) (i_children ino) ds name Hv Hc Hl Hds) as (r & E & Hr).
  { pose proof (children_length v _ ds Hl Hds). lia. }
  exists r. unfold vfs_generic_lookup. rewrite Ei. cbn [mbind option_bind]. rewrite E. split; [done|]. eauto.
Qed.

Lemma iops_lookup p ops : iops_at (A := A) p = Some ops -> op_lookup ops = Some vfs_generic_lookup.
Proof. unfold iops_at. repeat destruct (_ =? _); by intros [= <-]. Qed.

(** The result of a lookup: NULL if there is no such entry. *)
Definition found (r : Z) (P : Z -> Prop) : Prop := (r = 0 /\ forall c, ~ P c) \/ (r <> 0 /\ P r).

Lemma mem_ok_weaken v T L k k' : mem_ok v T L k -> k' <= k -> mem_ok v T L k'.
Proof. intros [Ha HT] Hk. split; [by eapply al_weaken|done]. Qed.

Lemma strlen_nonneg s : 0 <= strlen s.
Proof. unfold strlen. lia. Qed.

Lemma lookup_component_spec v T L k d name :
  fs_ok v T -> mem_ok v T L k -> is_Some (dentries v !! d) -> cstr name -> strlen name <= 4096 ->
  strlen name + 101 <= k ->
  exists r a, vfs_lookup_component iops_at d name v = Some (r, v <| mem := a |>) /\
    mem_ok (v <| mem := a |>) T L (k - (strlen name + 101)) /\ found r (is_child v d name).
Proof.
  intros Hv Hm [de Ede] Hc Hlen Hk. destruct (fo_entry _ _ Hv d de Ede) as ([di Edi] & _).
  unfold vfs_lookup_component. rewrite Ede. cbn [mbind option_bind]. rewrite Edi. cbn [mbind option_bind].
  pose proof (strlen_nonneg name).
  destruct (iops_at (i_op di)) as [ops|] eqn:Eo.
  2: { exists 0, (mem v). split; [by destruct v|]. split; [eapply mem_ok_weaken; [by destruct v|lia]|].
    left. split; [done|]. intros c (de' & di' & ds1 & ds2 & E1 & E2 & [? E3] & _). simplify_eq. }
  cbn [mbind option_bind]. rewrite (iops_lookup _ _ Eo).
  destruct (malloc_room v T L k SIZEOF_DENTRY Hm) as (tmp & a1 & -> & Ht0 & Ht & Hm1); [unfold SIZEOF_DENTRY in *; lia..|].
  cbn [mbind option_bind]. destruct (Z.eqb_spec tmp 0) as [?|_]; [done|].
  destruct (malloc_room _ T _ _ (strlen name + 1) Hm1) as (n & a2 & -> & Hn0 & Hn & Hm2); [unfold SIZEOF_DENTRY in *; lia..|].
  cbn [mbind option_bind]. destruct (Z.eqb_spec n 0) as [?|_]; [done|].
  destruct (generic_lookup_spec _ T (d_inode de) di name (fs_ok_mem _ _ a2 (fs_ok_mem _ _ a1 Hv)) Edi Hc) as (r & -> & ds & Hl & Hr).
  cbn [mbind option_bind]. destruct Hm as [_ HT].
  destruct (free_temp _ _ _ _ n Hm2) as (a3 & -> & Hm3); [set_solver..|]. cbn [mbind option_bind].
  destruct (free_temp _ _ _ _ tmp Hm3) as (a4 & -> & Hm4); [set_solver..|]. cbn [mbind option_bind].
  exists r, a4. split; [done|]. split.
  - eapply mem_ok_weaken.
    + destruct Hm4 as [Ha4 HT4]. split; [|done].
      replace L with (({[n]} ∪ ({[tmp]} ∪ L)) ∖ {[n]} ∖ {[tmp]}); [exact Ha4|]. set_solver.
    + unfold SIZEOF_DENTRY. lia.
  - change (dname (v <| mem := a1 |> <| mem := a2 |>)) with (dname v) in Hr. change (dnext (v <| mem := a1 |> <| mem := a2 |>)) with (dnext v) in Hl.
    destruct Hr as [[-> Hr]|(Hr0 & ds1 & ds2 & -> & Hrn & Hr)]; [left|right].
    + split; [done|]. intros c (de' & di' & ds1 & ds2 & E1 & E2 & _ & Hl' & Hc' & _). simplify_eq.
      pose proof (llist_unique _ _ _ _ Hl Hl') as ->. apply (Hr c); [|done]. apply elem_of_app. right. left.
    + split; [done|]. exists de, di, ds1, ds2. splits; try done.
Qed.

Lemma resolves_mem v a d ns r : resolves (v <| mem := a |>) d ns r <-> resolves v d ns r.
Proof. split; induction 1; econstructor; eauto. Qed.

Lemma child_entry v d n c : is_child v d n c -> is_Some (dentries v !! c) /\ c <> 0.
Proof.
  intros (de & di & ds1 & ds2 & _ & _ & _ & Hl & Hn & _). split.
  - unfold dname in Hn. destruct (dentries v !! c); eauto; discriminate.
  - eapply (llist_nonzero _ _ _ c Hl). apply elem_of_app. right. left.
Qed.

Lemma resolves_entry v d ns r : is_Some (dentries v !! d) -> resolves v d ns r -> is_Some (dentries v !! r).
Proof. intros Hd Hr. induction Hr as [|d n ns c r Hc Hr IH]; [done|]. apply IH. by eapply child_entry. Qed.

Lemma found_nil v d : d <> 0 -> found d (resolves v d []).
Proof. intros. right. split; [done|constructor]. Qed.

(** One component, then the rest. *)
Lemma found_step v d n ns c r :
  found c (is_child v d n) -> (c = 0 -> r = 0) -> (c <> 0 -> found r (resolves v c ns)) -> found r (resolves v d (n :: ns)).
Proof.
  intros [[-> Hc]|[Hc0 Hc]] H0 H1.
  - left. split; [auto|]. intros x Hx. inversion Hx; subst. by eapply Hc.
  - destruct (H1 Hc0) as [[-> Hr]|[Hr0 Hr]]; [left|right].
    + split; [done|]. intros x Hx. inversion Hx as [|? ? ? c' ? Hc' Hr']; subst.
      apply (Hr x). by rewrite (is_child_fun _ _ _ _ _ Hc Hc').
    + split; [done|]. by econstructor.
Qed.

Lemma walk_spec fuel v T L k cur token :
  fs_ok v T -> mem_ok v T L k -> is_Some (dentries v !! cur) -> cur <> 0 -> cstr token -> strlen token <= 4096 ->
  (length token < fuel)%nat -> 102 * strlen token + 101 <= k ->
  exists r a, walk iops_at fuel cur token v = Some (r, v <| mem := a |>) /\
    mem_ok (v <| mem := a |>) T L (k - (102 * strlen token + 101)) /\ found r (resolves v cur (split_path fuel token)).
Proof.
  revert v k cur token. induction fuel as [|fuel IH]; intros v k cur token Hv Hm Hcur Hc0 Hc Hl Hf Hk; [lia|].
  cbn [walk split_path]. pose proof (strlen_nonneg token). pose proof (strchr_spec token SLASH) as Hs.
  destruct (strchr token SLASH) as [i|].
  - destruct Hs as (s1 & s2 & -> & <- & _). apply cstr_app in Hc as [Hc1 [_ Hc2]%Forall_cons].
    rewrite take_app_length. replace (drop (S (length s1)) (s1 ++ SLASH :: s2)) with s2
      by (rewrite drop_app_ge by lia; by replace (S (length s1) - length s1)%nat with 1%nat by lia).
    rewrite length_app in Hf. unfold strlen in *. rewrite length_app in *. cbn [length] in *.
    destruct (lookup_component_spec v T L k cur s1 Hv Hm Hcur Hc1) as (c & a & -> & Hm1 & Hf1); [unfold strlen; lia..|].
    cbn [mbind option_bind]. unfold strlen in *. destruct (Z.eqb_spec c 0) as [->|Hne].
    + exists 0, a. split; [done|]. split; [eapply mem_ok_weaken; [done|lia]|]. by eapply found_step.
    + assert (Hce : is_Some (dentries v !! c)) by (destruct Hf1 as [[? _]|[_ ?]]; [done|by eapply child_entry]).
      destruct (IH (v <| mem := a |>) _ c s2 (fs_ok_mem _ _ a Hv) Hm1 Hce Hne Hc2) as (r & a' & -> & Hm2 & Hf2); [lia..|].
      exists r, a'. split; [done|]. split; [eapply mem_ok_weaken; [done|lia]|].
      eapply found_step; [done|done|]. intros _. destruct Hf2 as [[-> Hf2]|[? Hf2]]; [left|right]; (split; [done|]).
      * intros x Hx. apply (Hf2 x). by apply resolves_mem.
      * by apply resolves_mem in Hf2.
  - destruct (Z.ltb_spec 0 (strlen token)).
    + rewrite decide_False by (intros ->; by apply (Z.lt_irrefl 0)).
      destruct (lookup_component_spec v T L k cur token Hv Hm Hcur Hc) as (c & a & -> & Hm1 & Hf1); [lia..|].
      exists c, a. split; [done|]. split; [eapply mem_ok_weaken; [done|lia]|].
      eapply found_step; [done|done|]. intros. by apply found_nil.
    + rewrite decide_True by (destruct token; [done|unfold strlen in *; cbn in *; lia]).
      exists cur, (mem v). split; [by destruct v|]. split; [eapply mem_ok_weaken; [by destruct v|lia]|]. by apply found_nil.
Qed.

(** The room that a path lookup may take. *)
Definition lookup_room (path : list Z) : Z := 103 * strlen path + 200.

Lemma lookup_from_spec v T L k base path :
  fs_ok v T -> mem_ok v T L k -> is_Some (dentries v !! base) -> base <> 0 -> cstr path -> strlen path <= 4096 ->
  lookup_room path <= k ->
  exists r a, vfs_lookup_from iops_at base path v = Some (r, v <| mem := a |>) /\
    mem_ok (v <| mem := a |>) T L (k - lookup_room path) /\ found r (resolves v base (components path)).
Proof.
  intros Hv Hm Hb Hb0 Hc Hl Hk. unfold vfs_lookup_from, components. destruct (Z.eqb_spec base 0) as [?|_]; [done|].
  set (path' := if char_at path 0 =? SLASH then drop 1 path else path).
  assert (Hp : cstr path' /\ strlen path' <= strlen path).
  { unfold path'. destruct (_ =? _); [|split; [done|lia]]. split; [by apply Forall_drop|]. unfold strlen. rewrite length_drop. lia. }
  destruct Hp as [Hc' Hl']. clearbody path'. pose proof (strlen_nonneg path'). unfold lookup_room in *.
  destruct (Z.eqb_spec (char_at path' 0) 0) as [E|E].
  { assert (path' = []) as ->.
    { destruct path' as [|x l]; [done|]. apply Forall_cons in Hc' as [Hx _]. unfold char_at in E. cbn in E. lia. }
    exists base, (mem v). split; [by destruct v|]. split; [eapply mem_ok_weaken; [by destruct v|lia]|]. by apply found_nil. }
  destruct (malloc_room v T L k (strlen path' + 1) Hm) as (p & a & -> & Hp0 & Hp & Hm1); [lia..|].
  cbn [mbind option_bind]. destruct (Z.eqb_spec p 0) as [?|_]; [done|].
  destruct (walk_spec (S (length path')) (v <| mem := a |>) T _ _ base path' (fs_ok_mem _ _ a Hv) Hm1 Hb Hb0 Hc') as (r & a' & -> & Hm2 & Hf);
    [unfold strlen in *; lia..|]. cbn [mbind option_bind]. destruct Hm as [_ HT].
  destruct (free_temp _ _ _ _ p Hm2) as (a2 & -> & Hm3); [set_solver..|]. cbn [mbind option_bind].
  exists r, a2. split; [done|]. split.
  - eapply mem_ok_weaken.
    + destruct Hm3 as [Ha3 HT3]. split; [|done]. replace L with (({[p]} ∪ L) ∖ {[p]}); [exact Ha3|]. set_solver.
    + lia.
  - destruct Hf as [[-> Hf]|[? Hf]]; [left|right]; (split; [done|]).
    + intros x Hx. apply (Hf x). by apply resolves_mem.
    + by apply resolves_mem in Hf.
Qed.
End inv.
