(* ===== verification/VfsTheorems.v ===== *)
(** * Theorems on the file system layer *)

From S2P Require Import Prelude LList Cstr Heap HeapInv HeapSpec HeapTheorems Alloc Vfs Memfs VfsInv.

(** ** Prefixes that end at a directory boundary *)

Definition dir_prefix (p path : list Z) : Prop :=
  exists rest, path = p ++ rest /\ (rest = [] \/ exists r, rest = SLASH :: r).

Lemma char_at_nil s : cstr s -> char_at s 0 = 0 <-> s = [].
Proof. intros Hs. destruct Hs as [|x l Hx Hs]; unfold char_at; cbn; [done|]. split; [lia|done]. Qed.

(** The test of [is_path_allowed], [path_is_within] and [vfs_find_mount]. *)
Lemma dir_prefix_test p path :
  cstr p -> cstr path ->
  dir_prefix p path <->
  strncmp path p (length p) = 0 /\ (char_at path (length p) = 0 \/ char_at path (length p) = SLASH).
Proof.
  intros Hp Hq. rewrite strncmp_prefix by done. split.
  - intros (rest & -> & Hr). split; [by exists rest|]. rewrite char_at_app_r.
    destruct Hr as [->|[r ->]]; [by left|by right].
  - intros [[rest ->] Hr]. apply cstr_app in Hq as [_ Hq]. rewrite char_at_app_r in Hr. exists rest. split; [done|].
    destruct Hr as [Hr|Hr]; [left; by apply char_at_nil|right]. destruct rest as [|c r]; [done|]. cbn in Hr. exists r.
    unfold char_at in Hr. cbn in Hr. by subst.
Qed.

Lemma is_path_allowed_spec path root :
  cstr root -> cstr path -> is_path_allowed path root = true <-> root = [] \/ dir_prefix root path.
Proof.
  intros Hr Hp. rewrite dir_prefix_test by done. unfold is_path_allowed.
  destruct (Z.eqb_spec (char_at root 0) 0) as [E|E]; rewrite char_at_nil in E by done; [tauto|].
  destruct (Z.eqb_spec (strncmp path root (length root)) 0); cbn [negb]; [|intuition discriminate].
  destruct (Z.eqb_spec (char_at path (length root)) 0); cbn [negb andb]; [tauto|].
  destruct (Z.eqb_spec (char_at path (length root)) SLASH); cbn [negb]; [tauto|]. intuition discriminate.
Qed.

(** ** Mounts *)

Section mounts.
Implicit Types ms : list (list Z * Z).

(** [sb] is mounted at the longest directory prefix of [path], [rest] being what follows;
    [None]: no mount applies. *)
Definition mount_of ms (path : list Z) (o : option Z) (rest : list Z) : Prop :=
  (o = None /\ rest = path /\ forall mp sb, (mp, sb) ∈ ms -> mp <> [] -> ~ dir_prefix mp path) \/
  (exists mp sb ms1 ms2, o = Some sb /\ ms = ms1 ++ (mp, sb) :: ms2 /\ mp <> [] /\ path = mp ++ rest /\
    dir_prefix mp path /\
    (forall mp' sb', (mp', sb') ∈ ms -> dir_prefix mp' path -> (length mp' <= length mp)%nat) /\
    (forall mp' sb', (mp', sb') ∈ ms1 -> mp' <> mp)).

Lemma find_mount_loop_spec ms path best n r m :
  cstr path -> Forall (fun x => cstr x.1) ms -> find_mount_loop ms path best n = (r, m) ->
  (r = best /\ m = n /\ forall mp sb, (mp, sb) ∈ ms -> dir_prefix mp path -> (length mp <= n)%nat) \/
  (exists mp sb ms1 ms2, r = Some sb /\ m = length mp /\ ms = ms1 ++ (mp, sb) :: ms2 /\ (n < length mp)%nat /\
    dir_prefix mp path /\
    (forall mp' sb', (mp', sb') ∈ ms -> dir_prefix mp' path -> (length mp' <= length mp)%nat) /\
    (forall mp' sb', (mp', sb') ∈ ms1 -> dir_prefix mp' path -> (length mp' < length mp)%nat)).
Proof.
  intros Hp Hms. revert best n. induction Hms as [|[mp sb] ms Hm Hms IH]; intros best n E; cbn [find_mount_loop] in E.
  { injection E as <- <-. left. split; [done|]. split; [done|]. intros ? ? Hx. by apply not_elem_of_nil in Hx. }
  cbn [fst] in Hm.
  set (hit := (strncmp mp path (length mp) =? 0) && ((char_at path (length mp) =? 0) || (char_at path (length mp) =? SLASH))) in E.
  assert (Hhit : hit = true <-> dir_prefix mp path).
  { rewrite dir_prefix_test by done. unfold hit. rewrite andb_true_iff, orb_true_iff, !Z.eqb_eq, strncmp_sym0. done. }
  clearbody hit. destruct (hit && (n <? length mp)%nat) eqn:Eh.
  - apply andb_true_iff in Eh as [Eh En]. apply Nat.ltb_lt in En. right.
    apply IH in E as [(-> & -> & Hb)|(mp' & sb' & ms1 & ms2 & -> & -> & -> & Hn & Hd & Hb & Hf)].
    + exists mp, sb, [], ms. splits; [done..|tauto| |].
      * intros mp' sb' [[= -> ->]|Hx]%elem_of_cons Hd; [lia|by eapply Hb].
      * intros ? ? Hx. by apply not_elem_of_nil in Hx.
    + exists mp', sb', ((mp, sb) :: ms1), ms2. splits; [done..|lia|done| |].
      * intros mp2 sb2 [[= -> ->]|Hx]%elem_of_cons Hd2; [lia|by eapply Hb].
      * intros mp2 sb2 [[= -> ->]|Hx]%elem_of_cons Hd2; [lia|by eapply Hf].
  - assert (Hs : dir_prefix mp path -> (length mp <= n)%nat).
    { intros Hd%Hhit. rewrite Hd in Eh. cbn in Eh. apply Nat.ltb_ge in Eh. lia. }
    apply IH in E as [(-> & -> & Hb)|(mp' & sb' & ms1 & ms2 & -> & -> & -> & Hn & Hd & Hb & Hf)]; [left|right].
    + splits; [done..|]. intros mp' sb' [[= -> ->]|Hx]%elem_of_cons Hd; [auto|by eapply Hb].
    + exists mp', sb', ((mp, sb) :: ms1), ms2. splits; [done..| |].
      * intros mp2 sb2 [[= -> ->]|Hx]%elem_of_cons Hd2; [apply Hs in Hd2; lia|by eapply Hb].
      * intros mp2 sb2 [[= -> ->]|Hx]%elem_of_cons Hd2; [apply Hs in Hd2; lia|by eapply Hf].
Qed.

Lemma find_mount_of ms path :
  cstr path -> Forall (fun x => cstr x.1) ms ->
  let '(r, n) := find_mount_loop ms path None 0 in mount_of ms path r (drop n path).
Proof.
  intros Hp Hms. destruct (find_mount_loop ms path None 0) as [r n] eqn:E.
  apply find_mount_loop_spec in E as [(-> & -> & Hb)|(mp & sb & ms1 & ms2 & -> & -> & -> & Hn & Hd & Hb & Hf)]; [| |done..].
  - left. splits; [done..|]. intros mp sb Hx Hne Hd. destruct mp; [done|]. specialize (Hb _ _ Hx Hd). cbn in Hb. lia.
  - right. exists mp, sb, ms1, ms2. splits; [done..|intros ->; cbn in Hn; lia| |done|done|].
    + destruct Hd as (rest & -> & _). by rewrite drop_app_length.
    + intros mp' sb' Hx ->. specialize (Hf _ _ Hx Hd). lia.
Qed.
End mounts.

(** ** Path lookup *)

Section lookup.
Context {A : Type} `{Allocator A}.
Implicit Types v : vfs A.

(** The root directory and the mounted ones exist. *)
Record roots_ok v : Prop := {
  ro_root : is_Some (dentries v !! vfs_root v) /\ vfs_root v <> 0;
  ro_names : Forall (fun x => cstr x.1) (mounts v);
  ro_mounts mp sb : (mp, sb) ∈ mounts v -> sb <> 0 /\
    exists b, supers v !! sb = Some b /\ is_Some (dentries v !! s_root b) /\ s_root b <> 0;
}.

(** The task with root directory [root] may name [path]. *)
Definition confined (root path : list Z) : Prop :=
  root = [] \/ root = [SLASH] \/ (char_at path 0 = SLASH /\ dir_prefix root path).

(** What [path] names: the entry reached from the root of the longest mount. *)
Definition names_entry v (path : list Z) (c : Z) : Prop :=
  exists o rest, mount_of (mounts v) path o rest /\
    match o with
    | None => resolves v (vfs_root v) (components path) c
    | Some sb => exists b, supers v !! sb = Some b /\ resolves v (s_root b) (components rest) c
    end.

Lemma mount_of_fun ms path o rest o' rest' :
  mount_of ms path o rest -> mount_of ms path o' rest' -> o = o' /\ rest = rest'.
Proof.
  intros [(-> & -> & Hn)|(mp & sb & ms1 & ms2 & -> & E & Hne & Ep & Hd & Hb & Hf)]
         [(-> & -> & Hn')|(mp' & sb' & ms1' & ms2' & -> & E' & Hne' & Ep' & Hd' & Hb' & Hf')].
  - done.
  - destruct (Hn mp' sb'); [|done|done]. rewrite E'. apply elem_of_app. right. left.
  - destruct (Hn' mp sb); [|done|done]. rewrite E. apply elem_of_app. right. left.
  - assert (Hl : length mp = length mp').
    { apply Nat.le_antisymm.
      - apply (Hb' mp sb); [|done]. rewrite E. apply elem_of_app. right. left.
      - apply (Hb mp' sb'); [|done]. rewrite E'. apply elem_of_app. right. left. }
    rewrite Ep in Ep'. apply app_inj_1 in Ep' as [<- <-]; [|done]. split; [|done]. f_equal.
    rewrite E in E'. clear E Hb Hb' Hd Hd' Hl Ep. revert ms1' E' Hf'.
    induction ms1 as [|[mp1 sb1] ms1 IH]; intros [|[mp1' sb1'] ms1'] E' Hf'; cbn in E'.
    + by injection E'.
    + injection E' as Ea Eb Ec. destruct (Hf' mp1' sb1'); [by left|congruence].
    + injection E' as Ea Eb Ec. destruct (Hf mp1 sb1); [by left|congruence].
    + injection E' as Ea Eb Ec. apply (IH (fun a b Hx => Hf a b (proj2 (elem_of_cons _ _ _) (or_intror Hx))) ms1' Ec).
      intros a b Hx. apply (Hf' a b). by right.
Qed.

Lemma lookup_room_mono p q : (length p <= length q)%nat -> lookup_room p <= lookup_room q.
Proof. unfold lookup_room, strlen. lia. Qed.

Lemma strcmp_slash root : cstr root -> strcmp root [SLASH] = 0 <-> root = [SLASH].
Proof. intros Hr. apply strcmp_eq; [done|]. repeat constructor. Qed.

(** The test of [vfs_lookup] for tasks with a root directory. *)
Definition denied (root path : list Z) : bool :=
  negb (char_at root 0 =? 0) && negb (strcmp root [SLASH] =? 0) &&
  (negb (char_at path 0 =? SLASH) || negb (is_path_allowed path root)).

Lemma denied_spec root path : cstr root -> cstr path -> if denied root path then ~ confined root path else confined root path.
Proof.
  intros Hr Hp. unfold denied, confined.
  destruct (Z.eqb_spec (char_at root 0) 0) as [E|E]; rewrite char_at_nil in E by done; cbn [negb andb]; [by left|].
  destruct (Z.eqb_spec (strcmp root [SLASH]) 0) as [E2|E2]; rewrite strcmp_slash in E2 by done; cbn [negb andb]; [by right; left|].
  destruct (Z.eqb_spec (char_at path 0) SLASH); cbn [negb orb]; [|tauto].
  pose proof (is_path_allowed_spec path root Hr Hp) as Ha. destruct (is_path_allowed path root); cbn [negb]; [|intuition discriminate].
  right. right. split; [done|]. by destruct Ha as [[?|?] _].
Qed.

(** Whose directory a mount lookup starts from. *)
Definition start_of v (o : option Z) (path rest : list Z) (base : Z) : Prop :=
  match o with
  | None => base = vfs_root v /\ rest = path
  | Some sb => exists b, supers v !! sb = Some b /\ base = s_root b
  end.

Lemma names_entry_from v path o rest base c :
  mount_of (mounts v) path o rest -> start_of v o path rest base ->
  names_entry v path c <-> resolves v base (components rest) c.
Proof.
  intros Hmo Hb. split.
  - intros (o' & rest' & Hmo2 & Hc). destruct (mount_of_fun _ _ _ _ _ _ Hmo Hmo2) as [<- <-].
    destruct o; [destruct Hb as (b & Eb & ->), Hc as (b' & Eb' & ?); by simplify_eq|by destruct Hb as [-> ->]].
  - intros Hc. exists o, rest. split; [done|]. destruct o; [destruct Hb as (b & Eb & ->); by exists b|by destruct Hb as [-> ->]].
Qed.

Lemma found_ext r (P Q : Z -> Prop) : (forall c, P c <-> Q c) -> found r P -> found r Q.
Proof. intros HPQ [[-> Hf]|[? Hf]]; [left|right]; (split; [done|]); [|by apply HPQ]. intros c Hc%HPQ. by apply (Hf c). Qed.

Lemma lookup_none v T L k n (P : Z -> Prop) :
  mem_ok v T L k -> 0 <= n -> (forall c, ~ P c) ->
  exists r a, Some (0, v) = Some (r, v <| mem := a |>) /\ mem_ok (v <| mem := a |>) T L (k - n) /\ found r P.
Proof.
  intros Hm Hn HP. exists 0, (mem v). split; [by destruct v|]. split; [|by left].
  eapply mem_ok_weaken; [by destruct v|lia].
Qed.

Lemma vfs_lookup_spec v T L k root path :
  fs_ok v T -> roots_ok v -> mem_ok v T L k -> cstr path -> cstr root -> strlen path <= 4096 -> lookup_room path <= k ->
  exists r a, vfs_lookup iops_at root path v = Some (r, v <| mem := a |>) /\
    mem_ok (v <| mem := a |>) T L (k - lookup_room path) /\
    found r (fun c => path <> [] /\ confined root path /\ names_entry v path c).
Proof.
  intros Hv [[Hr Hr0] Hnames Hmounts] Hm Hp Hrt Hl Hk. unfold vfs_lookup. fold (denied root path).
  assert (Hn0 : 0 <= lookup_room path) by (unfold lookup_room, strlen; lia).
  destruct (Z.eqb_spec (vfs_root v) 0) as [?|_]; [done|]. rewrite orb_false_r.
  destruct (Z.eqb_spec (char_at path 0) 0) as [E|E]; rewrite char_at_nil in E by done;
    [apply lookup_none; [done|done|by intros c [? _]]|].
  pose proof (denied_spec root path Hrt Hp) as Hcf.
  destruct (denied root path); [apply lookup_none; [done|done|by intros c (_ & ? & _)]|].
  pose proof (find_mount_of (mounts v) path Hp Hnames) as Hmo. unfold vfs_find_mount.
  destruct (find_mount_loop (mounts v) path None 0) as [o n].
  assert (Hfin : forall base r, start_of v o path (drop n path) base ->
    found r (resolves v base (components (drop n path))) ->
    found r (fun c => path <> [] /\ confined root path /\ names_entry v path c)).
  { intros base r Hb Hf. eapply found_ext; [|exact Hf]. intros c. cbn. rewrite (names_entry_from v path o (drop n path) base); tauto. }
  assert (Hle : (length (drop n path) <= length path)%nat) by (rewrite length_drop; lia).
  pose proof (lookup_room_mono _ _ Hle) as Hle'.
  destruct o as [sb|]; [change (default 0 (Some sb)) with sb|change (default 0 None) with 0].
  - pose proof Hmo as [(? & _)|(mp & sb' & ms1 & ms2 & [= <-] & Ems & _ & Ep & _)]; [done|].
    destruct (Hmounts mp sb) as (Hsb & b & Eb & Hb & Hb0); [rewrite Ems; apply elem_of_app; right; left|].
    destruct (Z.eqb_spec sb 0) as [?|_]; [done|]. cbn [negb id]. rewrite Eb. cbn [mbind option_bind].
    destruct (Z.eqb_spec (s_root b) 0) as [?|_]; [done|]. cbn [negb].
    destruct (lookup_from_spec v T L k (s_root b) (drop n path)) as (r & a & -> & Hm' & Hf); try done.
    { by apply Forall_drop. } { unfold strlen in *. lia. } { lia. }
    exists r, a. split; [done|]. split; [eapply mem_ok_weaken; [done|lia]|]. eapply Hfin; [by exists b|done].
  - cbn [negb Z.eqb id]. destruct (lookup_from_spec v T L k (vfs_root v) path) as (r & a & -> & Hm' & Hf); try done.
    exists r, a. split; [done|]. split; [done|]. destruct Hmo as [(_ & Er & Hn)|(? & ? & ? & ? & ? & _)]; [|done].
    rewrite Er in Hfin. by eapply Hfin.
Qed.
End lookup.
