(* ===== verification/MemfsTheorems.v ===== *)
(** * memfs files are byte strings

    [content v p]: the bytes of the memfs file whose private data are at [p]. *)

From S2P Require Import Prelude LList Cstr Heap HeapInv HeapSpec HeapTheorems Alloc Vfs Memfs VfsInv.

(** ** Buffers *)

Lemma rd_copy_in off bs m i :
  rd (copy_in off bs m) i = if decide (off <= i < off + strlen bs) then default 0 (bs !! Z.to_nat (i - off)) else rd m i.
Proof.
  unfold copy_in, rd, strlen. revert off. induction bs as [|b bs IH]; intros off.
  - cbn. rewrite decide_False by lia. by rewrite (left_id ∅ (∪)).
  - rewrite imap_cons, list_to_map_cons, <- insert_union_l. cbn [length]. rewrite Z.add_0_r.
    replace (imap ((fun i b => (off + Z.of_nat i, b)) ∘ S) bs) with (imap (fun i b => (off + 1 + Z.of_nat i, b)) bs)
      by (apply imap_ext; intros j x _; cbn; f_equal; lia).
    destruct (decide (i = off)) as [->|Hne].
    + rewrite lookup_insert_eq, decide_True by lia. by rewrite Z.sub_diag.
    + rewrite lookup_insert_ne by done. rewrite IH. destruct (decide (off <= i < off + Z.of_nat (S (length bs)))).
      * rewrite decide_True by lia. replace (Z.to_nat (i - off)) with (S (Z.to_nat (i - (off + 1)))) by lia. done.
      * by rewrite decide_False by lia.
Qed.

Lemma copy_out_length off len m : 0 <= len -> strlen (copy_out off len m) = len.
Proof. intros. unfold strlen, copy_out. rewrite length_fmap, length_seqZ. lia. Qed.

Lemma copy_out_lookup off len m (i : nat) :
  copy_out off len m !! i = if decide (Z.of_nat i < len) then Some (rd m (off + Z.of_nat i)) else None.
Proof.
  unfold copy_out. rewrite list_lookup_fmap. case_decide.
  - rewrite lookup_seqZ_lt by lia. cbn. by rewrite Z.add_0_l.
  - rewrite lookup_seqZ_ge by lia. done.
Qed.

(** Reading part of a buffer. *)
Lemma copy_out_part off len size m :
  0 <= off -> 0 <= len -> off + len <= size ->
  copy_out off len m = take (Z.to_nat len) (drop (Z.to_nat off) (copy_out 0 size m)).
Proof.
  intros. apply list_eq. intros i. rewrite copy_out_lookup. case_decide.
  - rewrite lookup_take_lt, lookup_drop, copy_out_lookup, decide_True by lia. f_equal. f_equal. lia.
  - rewrite lookup_take_ge by lia. done.
Qed.

(** Writing [bs] at [off], which is at most the size. *)
Definition patch (off : Z) (bs c : list Z) : list Z :=
  take (Z.to_nat off) c ++ bs ++ drop (Z.to_nat off + length bs) c.

Lemma copy_in_patch off bs size m :
  0 <= off <= size ->
  copy_out 0 (Z.max size (off + strlen bs)) (copy_in off bs m) = patch off bs (copy_out 0 size m).
Proof.
  intros Ho. pose proof (copy_out_length 0 size m ltac:(lia)) as Hl. unfold patch, strlen in *.
  apply list_eq. intros i. rewrite copy_out_lookup, rd_copy_in. unfold strlen.
  assert (Ht : length (take (Z.to_nat off) (copy_out 0 size m)) = Z.to_nat off) by (rewrite length_take; lia).
  destruct (decide (Z.of_nat i < off)) as [H1|H1].
  - rewrite decide_True, decide_False, lookup_app_l, lookup_take_lt, copy_out_lookup, decide_True by lia. done.
  - rewrite lookup_app_r, Ht by lia. destruct (decide (Z.of_nat i < off + Z.of_nat (length bs))) as [H2|H2].
    + rewrite !decide_True, lookup_app_l by lia. replace (Z.to_nat (0 + Z.of_nat i - off)) with (i - Z.to_nat off)%nat by lia.
      destruct (lookup_lt_is_Some_2 bs (i - Z.to_nat off)) as [x ->]; [lia|done].
    + rewrite lookup_app_r, lookup_drop, copy_out_lookup by lia.
      replace (Z.to_nat off + length bs + (i - Z.to_nat off - length bs))%nat with i by lia.
      rewrite (decide_False (P := off <= _ < _)) by lia. repeat case_decide; try lia; done.
Qed.

(** The bytes from the start of a buffer in two parts. *)
Lemma copy_out_app n1 n2 m : 0 <= n1 -> 0 <= n2 -> copy_out 0 (n1 + n2) m = copy_out 0 n1 m ++ copy_out n1 n2 m.
Proof.
  intros H1 H2. pose proof (copy_out_length 0 n1 m H1) as Hl. unfold strlen in Hl. apply list_eq. intros i.
  rewrite copy_out_lookup. destruct (decide (Z.of_nat i < n1)) as [Hi|Hi].
  - rewrite lookup_app_l, copy_out_lookup, !decide_True by lia. done.
  - rewrite lookup_app_r, copy_out_lookup by lia. repeat case_decide; try lia; [|done]. do 2 f_equal. lia.
Qed.

(** Growing a buffer keeps the contents. *)
Lemma copy_out_grow size m m' : 0 <= size -> copy_out 0 size (copy_in 0 (copy_out 0 size m) m') = copy_out 0 size m.
Proof.
  intros Hs. apply list_eq. intros i. rewrite !copy_out_lookup. case_decide; [|done]. f_equal.
  rewrite rd_copy_in, copy_out_length, decide_True, copy_out_lookup by lia.
  rewrite decide_True by lia. cbn. f_equal. lia.
Qed.

(** ** The doubling loop ends, and does not overshoot *)

Lemma grow_cap_spec f cap need :
  1 <= cap -> need <= 2 ^ 31 -> need <= cap * 2 ^ Z.of_nat f ->
  exists c, grow_cap (S f) cap need = Some c /\ need <= c /\ cap <= c <= Z.max cap (2 * need).
Proof.
  revert cap. induction f as [|f IH]; intros cap Hc Hn Hf.
  - cbn in Hf. cbn [grow_cap]. destruct (Z.ltb_spec cap need); [lia|]. exists cap. splits; [done|lia..].
  - change (grow_cap (S (S f)) cap need) with (if cap <? need then grow_cap (S f) (cap *w 2) need else Some cap).
    destruct (Z.ltb_spec cap need); [|exists cap; splits; [done|lia..]].
    rewrite wrap32_small by lia. destruct (IH (cap * 2)) as (c & -> & ? & ?); [lia|lia| |].
    + rewrite Nat2Z.inj_succ, Z.pow_succ_r in Hf by lia. lia.
    + exists c. splits; [done|lia..].
Qed.

Section files.
Context {A : Type} `{Allocator A}.
Implicit Types v : vfs A.

Definition content v (p : Z) : option (list Z) :=
  n ← memnodes v !! p; Some (copy_out 0 (m_size n) (default ∅ (bufs v !! m_data n))).

Record memfs_ok v : Prop := {
  mo_size p n : memnodes v !! p = Some n -> 0 <= m_size n <= m_capacity n;
  mo_cap p n : memnodes v !! p = Some n -> m_capacity n <= 2 ^ 31 /\ (m_capacity n <> 0 -> 64 <= m_capacity n);
  mo_null p n : memnodes v !! p = Some n -> m_data n = 0 -> m_capacity n = 0;
  mo_data p n : memnodes v !! p = Some n -> m_data n <> 0 -> is_Some (bufs v !! m_data n);
  mo_inj p p' n n' : memnodes v !! p = Some n -> memnodes v !! p' = Some n' -> p <> p' ->
    m_data n = m_data n' -> m_data n = 0;
}.

(** Everything but the private data of memfs and the allocator is the same. *)
Definition same_tree v v' : Prop :=
  (inodes v', dentries v', names v', supers v', ramnodes v', tarnodes v', tarfiles v', image v', vfs_root v', mounts v') =
  (inodes v, dentries v, names v, supers v, ramnodes v, tarnodes v, tarfiles v, image v, vfs_root v, mounts v).

Lemma fs_ok_bufs v v' T T' :
  fs_ok v T -> same_tree v v' ->
  (forall p, is_Some (files v' !! p) <-> is_Some (files v !! p)) ->
  (forall p, is_Some (memnodes v' !! p) <-> is_Some (memnodes v !! p)) ->
  (forall p K, K <> KBuf -> T' !! p = Some K <-> T !! p = Some K) ->
  (forall p, is_Some (bufs v' !! p) <-> T' !! p = Some KBuf) -> fs_ok v' T'.
Proof.
  intros [Hi Hd Hn Hf Hs Hm Hr Hta Htf Hb He Hc] [= E1 E2 E3 E4 E5 E6 E7 _ _ _] Hf' Hm' HK HB.
  split; try done; intros; rewrite ?E1, ?E2, ?E3, ?E4, ?E5, ?E6, ?E7, ?Hf', ?Hm', ?HK by done; try done.
  - rewrite ?E1, ?E2, ?E3 in *. eauto.
  - assert (Edn : dnext v' = dnext v) by (unfold dnext; by rewrite E2). rewrite Edn. rewrite E1 in *. eauto.
Qed.

(** Replacing the buffer of a file. *)
Lemma memfs_ok_node v p n n' d b :
  memfs_ok v -> memnodes v !! p = Some n ->
  0 <= m_size n' <= m_capacity n' -> m_capacity n' <= 2 ^ 31 -> 64 <= m_capacity n' -> m_data n' <> 0 ->
  (m_data n' = m_data n \/ (forall p' x, memnodes v !! p' = Some x -> m_data x <> m_data n')) ->
  d = m_data n' -> (m_data n' = m_data n \/ d <> m_data n) ->
  memfs_ok (set_memnode p n' (v <| bufs := <[d := b]> (if decide (m_data n' = m_data n) then bufs v else delete (m_data n) (bufs v)) |>)).
Proof.
  intros [Hs Hc Hn Hd Hi] Ep Hs' Hc1 Hc2 Hd0 Hfr -> Hne.
  split; cbn [memnodes bufs set_memnode set_field eta_vfs].
  - intros q x [[<- <-]|[? Eq]]%lookup_insert_Some; eauto.
  - intros q x [[<- <-]|[? Eq]]%lookup_insert_Some; eauto.
  - intros q x [[<- <-]|[? Eq]]%lookup_insert_Some; [done|eauto].
  - intros q x [[<- <-]|[Hq Eq]]%lookup_insert_Some Hx0; [by rewrite lookup_insert_eq|].
    destruct (decide (m_data n' = m_data x)) as [->|Hne2]; [by rewrite lookup_insert_eq|].
    rewrite lookup_insert_ne by done. case_decide; [eauto|].
    destruct (decide (m_data n = m_data x)) as [E|E]; [|rewrite lookup_delete_ne by done; eauto].
    destruct Hx0. rewrite <- E. eapply (Hi p q); done.
  - intros q q' x x' [[<- <-]|[? Eq]]%lookup_insert_Some [[<- <-]|[? Eq']]%lookup_insert_Some Hqq E; [done| | |eauto].
    + destruct Hfr as [Ef|Hfr]; [|by destruct (Hfr q' x')]. rewrite Ef in *. eapply (Hi p q'); done.
    + destruct Hfr as [Ef|Hfr]; [|by destruct (Hfr q x)]. rewrite E, Ef in *. eapply (Hi p q); done.
Qed.

Lemma memfs_ok_ext v v' : memnodes v' = memnodes v -> bufs v' = bufs v -> memfs_ok v -> memfs_ok v'.
Proof. intros E1 E2 [? ? ? ? ?]. split; rewrite ?E1, ?E2; eauto. Qed.

(** The state after a file got a new buffer [nd] of capacity [cap], which held [junk]. *)
Definition regrown v (p : Z) (n : memfs_inode) (cap nd : Z) (junk : gmap Z Z) (a : A) : vfs A :=
  let b' := if decide (m_data n = 0) then junk else copy_in 0 (copy_out 0 (m_size n) (default ∅ (bufs v !! m_data n))) junk in
  set_memnode p (mk_memfs (m_size n) cap nd) (v <| mem := a |> <| bufs := <[nd := b']> (delete (m_data n) (bufs v)) |>).

Lemma data_typed v T p n :
  fs_ok v T -> memfs_ok v -> memnodes v !! p = Some n -> m_data n <> 0 -> T !! m_data n = Some KBuf.
Proof. intros Hv Hmo Ep Hd. apply (fo_buf _ _ Hv). by eapply mo_data. Qed.

Lemma fresh_data v T p n nd :
  fs_ok v T -> memfs_ok v -> memnodes v !! p = Some n -> T !! nd = None -> nd <> 0 -> m_data n <> nd.
Proof. intros Hv Hmo Ep Ht Hnd E. rewrite <- E in Ht. erewrite data_typed in Ht by (done || congruence). done. Qed.

Lemma regrown_fs v T p n cap nd junk a :
  fs_ok v T -> memfs_ok v -> memnodes v !! p = Some n -> T !! nd = None -> T !! 0 = None -> nd <> 0 ->
  fs_ok (regrown v p n cap nd junk a) (<[nd := KBuf]> (delete (m_data n) T)).
Proof.
  intros Hv Hmo Ep Hnd H0 Hnd0. pose proof (fresh_data _ _ _ _ _ Hv Hmo Ep Hnd Hnd0) as Hne.
  assert (Hd : T !! m_data n = Some KBuf \/ T !! m_data n = None).
  { destruct (decide (m_data n = 0)) as [->|?]; [by right|left]. by eapply data_typed. }
  apply (fs_ok_bufs v _ T); [done..| | |].
  - intros q. cbn [memnodes regrown set_memnode set_field eta_vfs]. rewrite lookup_insert_is_Some'. split; [|tauto].
    intros [<-|?]; [by rewrite Ep|done].
  - intros q K HK. rewrite lookup_insert_Some, lookup_delete_Some.
    split; [intros [[_ [=]]|(_ & _ & ?)]; done|]. intros E. right. split; [by intros ->; rewrite Hnd in E|].
    split; [|done]. intros <-. destruct Hd as [Hd|Hd]; rewrite Hd in E; congruence.
  - intros q. cbn [bufs regrown set_memnode set_field eta_vfs].
    rewrite lookup_insert_is_Some', lookup_delete_is_Some, lookup_insert_Some, lookup_delete_Some, (fo_buf _ _ Hv).
    destruct (decide (nd = q)) as [->|]; [tauto|]. destruct (decide (m_data n = q)); tauto.
Qed.

Lemma regrown_memfs v T p n cap nd junk a :
  fs_ok v T -> memfs_ok v -> memnodes v !! p = Some n -> T !! nd = None -> nd <> 0 ->
  m_size n <= cap -> 64 <= cap <= 2 ^ 31 -> memfs_ok (regrown v p n cap nd junk a).
Proof.
  intros Hv Hmo Ep Hnd Hnd0 Hsz Hcap. pose proof (fresh_data _ _ _ _ _ Hv Hmo Ep Hnd Hnd0) as Hne.
  pose proof (mo_size _ Hmo p n Ep). unfold regrown. cbv zeta. set (b' := if decide _ then _ else _). clearbody b'.
  eapply memfs_ok_ext; [| |apply (memfs_ok_node v p n (mk_memfs (m_size n) cap nd) nd b')]; cbn [m_size m_capacity m_data]; try done; try lia.
  - cbn [bufs set_memnode set_field eta_vfs m_data]. by rewrite decide_False.
  - right. intros p' x Ep'. by eapply fresh_data.
Qed.

Lemma regrown_content v T p n cap nd junk a q :
  fs_ok v T -> memfs_ok v -> memnodes v !! p = Some n -> T !! nd = None -> nd <> 0 ->
  content (regrown v p n cap nd junk a) q = content v q.
Proof.
  intros Hv Hmo Ep Hnd Hnd0. pose proof (mo_size _ Hmo p n Ep) as Hs.
  unfold content, regrown. cbn [memnodes bufs set_memnode set_field eta_vfs].
  destruct (decide (p = q)) as [<-|Hpq].
  - rewrite lookup_insert_eq, Ep. cbn [mbind option_bind m_size m_data]. rewrite lookup_insert_eq. cbn [default id]. f_equal.
    destruct (decide (m_data n = 0)) as [E|E]; [|apply copy_out_grow; lia].
    rewrite (mo_null _ Hmo p n Ep E) in Hs. by replace (m_size n) with 0 by lia.
  - rewrite lookup_insert_ne by done. destruct (memnodes v !! q) as [x|] eqn:Eq; [|done]. cbn [mbind option_bind].
    rewrite lookup_insert_ne by (symmetry; by eapply fresh_data).
    destruct (decide (m_data x = m_data n)) as [E|E]; [|by rewrite lookup_delete_ne].
    assert (E0 : m_data x = 0) by (eapply (mo_inj _ Hmo q p); eauto). pose proof (mo_size _ Hmo q x Eq) as Hq.
    rewrite (mo_null _ Hmo q x Eq E0) in Hq. by replace (m_size x) with 0 by lia.
Qed.

Lemma typed_nonzero v T L k : mem_ok v T L k -> T !! 0 = None.
Proof.
  intros [Ha HT]. apply not_elem_of_dom. intros H0. by apply (al_live_nonzero _ _ _ 0 Ha (HT 0 H0)).
Qed.

Lemma memfs_grow_spec v T L k p n need :
  fs_ok v T -> memfs_ok v -> mem_ok v T L k -> memnodes v !! p = Some n -> 0 <= need <= 2 ^ 30 -> 2 * need + 104 <= k ->
  exists v' T' L' n', memfs_grow p need v = Some (true, v') /\
    fs_ok v' T' /\ memfs_ok v' /\ mem_ok v' T' L' (k - (2 * need + 104)) /\
    same_tree v v' /\ files v' = files v /\ memnodes v' !! p = Some n' /\ need <= m_capacity n' /\ m_size n' = m_size n /\
    (forall q, content v' q = content v q) /\ (forall q, q <> p -> memnodes v' !! q = memnodes v !! q).
Proof.
  intros Hv Hmo Hm Ep Hneed Hk. unfold memfs_grow. rewrite Ep. cbn [mbind option_bind].
  pose proof (mo_size _ Hmo p n Ep) as Hs. pose proof (mo_cap _ Hmo p n Ep) as [Hc1 Hc2].
  destruct (Z.ltb_spec (m_capacity n) need) as [Hlt|Hge].
  2: { exists v, T, L, n. splits; try done. eapply mem_ok_weaken; [done|lia]. }
  set (c0 := if negb (m_capacity n =? 0) then m_capacity n else 64).
  assert (Hc0 : 64 <= c0 /\ c0 <= Z.max 64 need) by (unfold c0; destruct (Z.eqb_spec (m_capacity n) 0); cbn [negb]; lia).
  destruct (grow_cap_spec 31 c0 need) as (cap & -> & Hcap & Hcap2); [lia|lia|change (2 ^ Z.of_nat 31) with 2147483648; lia|].
  cbn [mbind option_bind]. clearbody c0.
  destruct (malloc_room v T L k cap Hm) as (nd & a & -> & Hnd0 & Hnd & Hm1); [lia..|]. cbn [mbind option_bind].
  destruct (Z.eqb_spec nd 0) as [?|_]; [done|]. pose proof Hm as [_ HT]. cbv zeta. change (mem (v <| mem := a |>)) with a.
  assert (HTnd : T !! nd = None) by (apply not_elem_of_dom; set_solver).
  pose proof (typed_nonzero _ _ _ _ Hm) as HT0.
  pose proof (fresh_data _ _ _ _ _ Hv Hmo Ep HTnd Hnd0) as Hne.
  assert (Hfin : forall a', (m_data n <> 0 -> al_ok a' (({[nd]} ∪ L) ∖ {[m_data n]}) (k - (cap + 40))) ->
      (m_data n = 0 -> al_ok a' ({[nd]} ∪ L) (k - (cap + 40))) ->
    exists v' T' L' n', Some (true, regrown v p n cap nd (al_bytes a nd cap) a') = Some (true, v') /\
    fs_ok v' T' /\ memfs_ok v' /\ mem_ok v' T' L' (k - (2 * need + 104)) /\
    same_tree v v' /\ files v' = files v /\ memnodes v' !! p = Some n' /\ need <= m_capacity n' /\ m_size n' = m_size n /\
    (forall q, content v' q = content v q) /\ (forall q, q <> p -> memnodes v' !! q = memnodes v !! q)).
  { intros a' Ha1 Ha0. exists (regrown v p n cap nd (al_bytes a nd cap) a'), (<[nd := KBuf]> (delete (m_data n) T)),
      (if decide (m_data n = 0) then {[nd]} ∪ L else ({[nd]} ∪ L) ∖ {[m_data n]}), (mk_memfs (m_size n) cap nd).
    splits; try done.
    - by apply regrown_fs.
    - eapply regrown_memfs; done || lia.
    - split.
      + cbn [mem regrown set_memnode set_field eta_vfs]. case_decide; eapply al_weaken; auto; lia.
      + rewrite dom_insert_L, dom_delete_L. case_decide; set_solver.
    - cbn [memnodes regrown set_memnode set_field eta_vfs]. by rewrite lookup_insert_eq.
    - intros q. by eapply regrown_content.
    - intros q Hq. cbn [memnodes regrown set_memnode set_field eta_vfs]. by rewrite lookup_insert_ne. }
  destruct (Z.eqb_spec (m_data n) 0) as [E0|E0]; cbn [negb].
  - cbn [mbind option_bind]. destruct Hm1 as [Ha _].
    match goal with |- context [Some (true, ?s)] => replace s with (regrown v p n cap nd (al_bytes a nd cap) a) end.
    + apply Hfin; [done|]. intros _. exact Ha.
    + unfold regrown, set_memnode, set_buf. rewrite (decide_True (P := m_data n = 0)) by done. rewrite delete_id; [done|].
      rewrite E0. destruct (bufs v !! 0) eqn:Eb; [|done]. assert (T !! 0 = Some KBuf) by (apply (fo_buf _ _ Hv); by rewrite Eb). congruence.
  - pose proof (data_typed _ _ _ _ Hv Hmo Ep E0) as Hdt. destruct (mo_data _ Hmo p n Ep E0) as [b Eb].
    assert (Eb' : bufs (set_buf nd (al_bytes a nd cap) (v <| mem := a |>)) !! m_data n = Some b)
      by (cbn [bufs set_buf set_field eta_vfs]; by rewrite lookup_insert_ne).
    rewrite Eb'. cbn [mbind option_bind].
    destruct Hm1 as [Ha HT1]. cbn [mem set_field eta_vfs] in Ha. assert (HdL : m_data n ∈ {[nd]} ∪ L) by (apply elem_of_union; right; apply HT, elem_of_dom; eauto).
    destruct (al_free_spec _ _ _ _ Ha HdL) as (a' & Ef & Ha'). unfold free. cbn [mem set_buf set_field eta_vfs].
    rewrite Ef. cbn [mbind option_bind].
    match goal with |- context [Some (true, ?s)] => replace s with (regrown v p n cap nd (al_bytes a nd cap) a') end.
    + by apply Hfin.
    + unfold regrown, set_memnode, set_buf. rewrite (decide_False (P := m_data n = 0)) by done. rewrite Eb.
      cbn. rewrite insert_insert_eq, delete_insert_ne by done. done.
Qed.

(** ** Reading and writing through an open file *)

(** [filp] is an open file at position [pos] whose private data are at [p]. *)
Definition handle v (filp p pos : Z) : Prop :=
  exists f de i, files v !! filp = Some f /\ f_pos f = pos /\ f_op f = MEMFS_OPS /\ f_dentry f <> 0 /\
    dentries v !! f_dentry f = Some de /\ d_inode de <> 0 /\ inodes v !! d_inode de = Some i /\ i_private i = p /\ p <> 0.

Lemma handle_private v filp p pos : handle v filp p pos -> file_private filp v = Some p.
Proof.
  intros (f & de & i & Ef & _ & _ & H1 & Ed & H2 & Ei & Ep & _). unfold file_private. rewrite Ef. cbn [mbind option_bind].
  destruct (Z.eqb_spec (f_dentry f) 0) as [?|_]; [done|]. rewrite Ed. cbn [mbind option_bind].
  destruct (Z.eqb_spec (d_inode de) 0) as [?|_]; [done|]. rewrite Ei. cbn [mbind option_bind]. by rewrite Ep.
Qed.

Lemma handle_tree v v' filp p pos : same_tree v v' -> files v' = files v -> handle v filp p pos -> handle v' filp p pos.
Proof.
  intros [= E1 E2 _ _ _ _ _ _ _ _] Ef (f & de & i & ?). exists f, de, i. by rewrite E1, E2, Ef.
Qed.

Lemma advance_spec v filp p pos n :
  handle v filp p pos -> 0 <= pos + n < 2 ^ 64 ->
  exists v', advance filp n v = Some v' /\ handle v' filp p (pos + n) /\ same_tree v v' /\
    memnodes v' = memnodes v /\ bufs v' = bufs v /\ mem v' = mem v /\
    (forall q, is_Some (files v' !! q) <-> is_Some (files v !! q)) /\ (forall q, q <> filp -> files v' !! q = files v !! q).
Proof.
  intros (f & de & i & Ef & Epos & Hrest) Hn. unfold advance. rewrite Ef. cbn [mbind option_bind].
  exists (set_file filp (f <| f_pos := (f_pos f + n) mod 2 ^ 64 |>) v). splits; try done.
  - exists (f <| f_pos := (f_pos f + n) mod 2 ^ 64 |>), de, i. cbn [files set_file set_field eta_vfs]. rewrite lookup_insert_eq.
    split; [done|]. split; [cbn; rewrite Epos; by apply Z.mod_small|]. exact Hrest.
  - intros q. cbn [files set_file set_field eta_vfs]. rewrite lookup_insert_is_Some'. split; [|tauto]. intros [<-|?]; [by rewrite Ef|done].
  - intros q Hq. cbn [files set_file set_field eta_vfs]. by rewrite lookup_insert_ne.
Qed.

Lemma memfs_read_spec v filp p pos n c len :
  memfs_ok v -> handle v filp p pos -> memnodes v !! p = Some n -> content v p = Some c -> m_data n <> 0 ->
  0 <= pos < 2 ^ 63 -> 0 <= len < 2 ^ 32 ->
  exists v', let r := take (Z.to_nat len) (drop (Z.to_nat pos) c) in
    memfs_read filp len v = Some (strlen r, r, v') /\ handle v' filp p (pos + strlen r) /\
    same_tree v v' /\ (forall q, content v' q = content v q) /\ memnodes v' = memnodes v /\ bufs v' = bufs v /\ mem v' = mem v /\
    (forall q, is_Some (files v' !! q) <-> is_Some (files v !! q)) /\ (forall q, q <> filp -> files v' !! q = files v !! q).
Proof.
  intros Hmo Hh En Hc Hd Hpos Hlen. pose proof (mo_size _ Hmo p n En) as Hs. pose proof (mo_cap _ Hmo p n En) as [Hcap _].
  destruct (mo_data _ Hmo p n En Hd) as [b Eb].
  assert (Ec : c = copy_out 0 (m_size n) b) by (unfold content in Hc; rewrite En in Hc; cbn in Hc; rewrite Eb in Hc; by injection Hc).
  unfold memfs_read. rewrite (handle_private _ _ _ _ Hh). cbn [mbind option_bind].
  pose proof Hh as (f & de & i & Ef & Epos & _ & _ & _ & _ & _ & _ & Hp0).
  destruct (Z.eqb_spec p 0) as [?|_]; [done|]. rewrite En. cbn [mbind option_bind].
  destruct (Z.eqb_spec (m_data n) 0) as [?|_]; [done|]. rewrite Ef. cbn [mbind option_bind]. rewrite Eb. cbn [mbind option_bind]. rewrite Epos.
  set (l := if remaining (m_size n) pos <? len then _ else _).
  assert (Hl : 0 <= l <= len /\ pos + l <= Z.max pos (m_size n) /\ (l < len -> m_size n <= pos + l)).
  { unfold l, remaining. destruct (Z.ltb_spec pos (m_size n)) as [?|?]; [destruct (Z.ltb_spec (m_size n - pos) len)|destruct (Z.ltb_spec 0 len)]; lia. }
  assert (Er : copy_out pos l b = take (Z.to_nat len) (drop (Z.to_nat pos) c)).
  { rewrite Ec. destruct (decide (l = 0)) as [E|E].
    - rewrite E. symmetry. destruct (decide (len = 0)) as [->|]; [done|]. rewrite drop_ge; [by rewrite take_nil|].
      pose proof (copy_out_length 0 (m_size n) b). unfold strlen in *. lia.
    - rewrite (copy_out_part pos l (m_size n)) by lia. destruct (decide (l = len)) as [->|]; [done|].
      rewrite !take_ge; [done|..]; rewrite length_drop; pose proof (copy_out_length 0 (m_size n) b); unfold strlen in *; lia. }
  clearbody l. rewrite Er. assert (Esl : strlen (take (Z.to_nat len) (drop (Z.to_nat pos) c)) = l) by (rewrite <- Er; apply copy_out_length; lia).
  destruct (advance_spec v filp p pos l Hh) as (v' & -> & Hh' & Ht & E1 & E2 & E3 & E4 & E5); [lia|]. cbn [mbind option_bind].
  exists v'. rewrite Esl. splits; try done. intros q. unfold content. by rewrite E1, E2.
Qed.

(** A write at any position: between the old end and the position the new contents have
    [gap], which is whatever the buffer holds there. *)
Lemma memfs_write_spec v T L k filp p off n c buf :
  fs_ok v T -> memfs_ok v -> mem_ok v T L k -> handle v filp p off -> memnodes v !! p = Some n -> content v p = Some c ->
  0 < strlen buf -> 0 <= off -> off + strlen buf <= 2 ^ 30 -> 2 * (off + strlen buf) + 104 <= k ->
  exists gap v' T' L', memfs_write filp buf v = Some (strlen buf, v') /\ strlen gap = Z.max 0 (off - m_size n) /\
    fs_ok v' T' /\ memfs_ok v' /\ mem_ok v' T' L' (k - (2 * (off + strlen buf) + 104)) /\ handle v' filp p (off + strlen buf) /\
    content v' p = Some (patch off buf (c ++ gap)) /\ (forall q, q <> p -> content v' q = content v q) /\ same_tree v v' /\
    (forall q, q <> filp -> files v' !! q = files v !! q) /\ (forall q, q <> p -> memnodes v' !! q = memnodes v !! q).
Proof.
  intros Hv Hmo Hm Hh En Hc Hlen Hoff Hmax Hk. unfold memfs_write. rewrite (handle_private _ _ _ _ Hh). cbn [mbind option_bind].
  pose proof Hh as (f & de & i & Ef & Epos & _ & _ & _ & _ & _ & _ & Hp0).
  destruct (Z.eqb_spec p 0) as [?|_]; [done|]. rewrite Ef. cbn [mbind option_bind]. rewrite Epos. fold (strlen buf).
  rewrite !(wrap32_small off), !(wrap32_small (strlen buf)), wrap32_small by lia.
  destruct (memfs_grow_spec v T L k p n (off + strlen buf)) as
    (v1 & T1 & L1 & n1 & -> & Hv1 & Hmo1 & Hm1 & Ht1 & Ef1 & En1 & Hcap1 & Hs1 & Hc1 & Hon1); try done; [lia|].
  cbn [mbind option_bind negb]. rewrite En1. cbn [mbind option_bind].
  pose proof (mo_size _ Hmo1 p n1 En1) as Hsz. pose proof (mo_cap _ Hmo1 p n1 En1) as [Hcb Hcl].
  assert (Hd1 : m_data n1 <> 0) by (intros E; pose proof (mo_null _ Hmo1 p n1 En1 E); lia).
  destruct (mo_data _ Hmo1 p n1 En1 Hd1) as [b Eb]. destruct (Z.ltb_spec 0 (strlen buf)) as [_|?]; [|lia].
  rewrite Eb. cbn [mbind option_bind]. set (v2 := set_buf (m_data n1) (copy_in off buf b) v1).
  assert (Hh2 : handle v2 filp p off) by (by apply (handle_tree v1), (handle_tree v)).
  destruct (advance_spec v2 filp p off (strlen buf) Hh2) as (v3 & -> & Hh3 & Ht3 & E3m & E3b & E3a & E3f & E3o); [lia|].
  cbn [mbind option_bind]. pose proof Hh3 as (f3 & de3 & i3 & Ef3 & Epos3 & _). rewrite Ef3. cbn [mbind option_bind]. rewrite Epos3.
  set (n' := mk_memfs (Z.max (m_size n1) (off + strlen buf)) (m_capacity n1) (m_data n1)).
  set (v4 := if m_size n1 <? off + strlen buf then _ else v3).
  assert (E4 : v4 = set_memnode p n' v3).
  { unfold v4, n'. destruct (Z.ltb_spec (m_size n1) (off + strlen buf)).
    - rewrite wrap32_small, Z.max_r by lia. done.
    - rewrite Z.max_l by lia. unfold set_memnode. rewrite insert_id; [by destruct v3|]. rewrite E3m. cbn. rewrite En1. by destruct n1. }
  clearbody v4. subst v4.
  assert (Hb4 : bufs (set_memnode p n' v3) = <[m_data n1 := copy_in off buf b]> (bufs v1)) by (cbn; by rewrite E3b).
  assert (Hn4 : memnodes (set_memnode p n' v3) = <[p := n']> (memnodes v1)) by (cbn; by rewrite E3m).
  assert (Ht4 : same_tree v1 (set_memnode p n' v3)) by (unfold same_tree in *; cbn in *; congruence).
  exists (copy_out (m_size n1) (Z.max 0 (off - m_size n1)) b), (set_memnode p n' v3), T1, L1. splits.
  - done.
  - rewrite Hs1. apply copy_out_length. lia.
  - apply (fs_ok_bufs v1 _ T1); [done|done|apply E3f| |done|].
    + intros q. rewrite Hn4, lookup_insert_is_Some'. split; [|tauto]. intros [<-|?]; [by rewrite En1|done].
    + intros q. rewrite Hb4, lookup_insert_is_Some', (fo_buf _ _ Hv1). split; [|tauto].
      intros [<-|?]; [|done]. by eapply data_typed.
  - eapply memfs_ok_ext; [| |apply (memfs_ok_node v1 p n1 n' (m_data n1) (copy_in off buf b))]; try done; cbn [m_size m_capacity m_data n']; try lia.
    rewrite Hb4. cbn. by rewrite decide_True.
  - destruct Hm1 as [Ha HT]. split; [|done]. cbn. by rewrite E3a.
  - by apply (handle_tree v3).
  - unfold content. rewrite Hn4, lookup_insert_eq. cbn [mbind option_bind]. rewrite Hb4. cbn [m_size m_data n'].
    rewrite lookup_insert_eq. cbn [default id].
    replace (Z.max (m_size n1) (off + strlen buf)) with (Z.max (m_size n1 + Z.max 0 (off - m_size n1)) (off + strlen buf)) by lia.
    rewrite copy_in_patch, (copy_out_app (m_size n1)) by lia.
    specialize (Hc1 p). rewrite Hc in Hc1. unfold content in Hc1. rewrite En1 in Hc1. cbn [mbind option_bind] in Hc1.
    rewrite Eb in Hc1. cbn [default id] in Hc1. injection Hc1 as Hc1. by rewrite Hc1.
  - intros q Hq. rewrite <- Hc1. unfold content. rewrite Hn4, Hb4, lookup_insert_ne by done.
    destruct (memnodes v1 !! q) as [x|] eqn:Eq; [|done]. cbn [mbind option_bind].
    destruct (decide (m_data n1 = m_data x)) as [E|E]; [|by rewrite lookup_insert_ne].
    destruct Hd1. by eapply (mo_inj _ Hmo1 p q).
  - unfold same_tree in *. congruence.
  - intros q Hq. cbn. rewrite E3o by done. cbn. by rewrite Ef1.
  - intros q Hq. rewrite Hn4, lookup_insert_ne by done. by apply Hon1.
Qed.
End files.
