(* ===== verification/Tar.v ===== *)
(** * Tar archives (src/fs/tar.c, include/fs/tar.h)

    The block reader [tar_block_read_t] is a function from block numbers to blocks of 512
    bytes, [None] for a failed read.  The archive walk takes fuel; the theorems show that it
    ends on well-formed archives. *)

From S2P Require Import Prelude Cstr.

Definition TAR_BLOCK_SIZE : Z := 512.
Definition TAR_MAGIC : list Z := lit "ustar".

Record tar_entry := mk_tar { t_name : list Z; t_type : Z; t_offset : Z; t_size : Z }.

(** [for (i = 0; i < len && s[i]; i++)] over the remaining characters [s]. *)
Fixpoint octal_loop (s : list Z) (len : nat) (val : Z) : Z :=
  match len with
  | O => val
  | S len' =>
      let c := char_at s 0 in
      if c =? 0 then val
      else if (48 <=? c) && (c <=? 55)
      then octal_loop (tail s) len' (wrap32 (Z.lor (Z.shiftl val 3) (c - 48)))
      else val
  end.
Definition tar_octal (s : list Z) (len : nat) : Z := octal_loop s len 0.

(** [memcmp]: the difference of the first bytes that differ. *)
Fixpoint memcmp (s1 s2 : list Z) (n : nat) : Z :=
  match n with
  | O => 0
  | S n' =>
      let a := char_at s1 0 in
      let b := char_at s2 0 in
      if negb (a =? b) then a - b else memcmp (tail s1) (tail s2) n'
  end.

(** The name: at most 99 characters, up to a NUL. *)
Fixpoint copy_name (n : nat) (hdr : list Z) : list Z :=
  match n with
  | O => []
  | S n' => if char_at hdr 0 =? 0 then [] else char_at hdr 0 :: copy_name n' (tail hdr)
  end.

(** The function advances its own copy of the pointer: what it computes is dropped, and the
    caller's name stays as it is. *)
Fixpoint tar_skip_name (fuel : nat) (name : list Z) : list Z :=
  match fuel with
  | O => name
  | S fuel' =>
      if (char_at name 0 =? 46) && (char_at name 1 =? 47) then tar_skip_name fuel' (drop 2 name) else name
  end.

Section Tar.
Variable read_fn : Z -> option (list Z).

(** [None]: -1; otherwise the entry and the next block number. *)
Definition tar_next_entry (blk : Z) : option (tar_entry * Z) :=
  hdr ← read_fn blk;
  if negb (memcmp (drop 257 hdr) TAR_MAGIC 5 =? 0) then None
  else if char_at hdr 0 =? 0 then None
  else
    let name := copy_name 99 hdr in
    let size := tar_octal (drop 124 hdr) 12 in
    let data_off := (blk +w 1) *w TAR_BLOCK_SIZE in
    let padding := (TAR_BLOCK_SIZE - size mod TAR_BLOCK_SIZE) mod TAR_BLOCK_SIZE in
    Some (mk_tar name (char_at hdr 156) data_off size,
          data_off / TAR_BLOCK_SIZE +w (size +w padding) / TAR_BLOCK_SIZE).

(** The outer [None] is an archive walk longer than the fuel. *)
Fixpoint find_loop (fuel : nat) (blk : Z) (path : list Z) : option (option tar_entry) :=
  match fuel with
  | O => None
  | S fuel' =>
      match tar_next_entry blk with
      | None => Some None
      | Some (e, blk) =>
          let _ := tar_skip_name (length (t_name e)) (t_name e) in
          if strcmp (t_name e) path =? 0 then Some (Some e) else find_loop fuel' blk path
      end
  end.
Definition tar_find_entry (fuel : nat) (path : list Z) : option (option tar_entry) := find_loop fuel 0 path.

(** All entries, in order: what the file systems do at mount time. *)
Fixpoint entries_loop (fuel : nat) (blk : Z) : option (list tar_entry) :=
  match fuel with
  | O => None
  | S fuel' =>
      match tar_next_entry blk with
      | None => Some []
      | Some (e, blk) => es ← entries_loop fuel' blk; Some (e :: es)
      end
  end.
End Tar.

(** ** Writing archives: the reference encoder *)

(** [n] octal digits of [v], most significant first. *)
Fixpoint octal_digits (n : nat) (v : Z) : list Z :=
  match n with
  | O => []
  | S n' => octal_digits n' (v / 8) ++ [48 + v mod 8]
  end.

Record tar_file := mk_tfile { tf_name : list Z; tf_type : Z; tf_data : list Z }.

Definition zeros (n : nat) : list Z := replicate n 0.

Definition tar_header (f : tar_file) : list Z :=
  tf_name f ++ zeros (100 - length (tf_name f)) ++ zeros 24 ++
  octal_digits 11 (strlen (tf_data f)) ++ [0] ++ zeros 20 ++ [tf_type f] ++ zeros 100 ++ TAR_MAGIC ++ zeros 250.

(** Number of data blocks. *)
Definition nblocks (n : Z) : Z := (n + 511) / 512.

Definition tar_encode_file (f : tar_file) : list Z :=
  tar_header f ++ tf_data f ++ zeros (Z.to_nat (512 * nblocks (strlen (tf_data f)) - strlen (tf_data f))).

(** The files, then an empty block. *)
Definition tar_encode (fs : list tar_file) : list Z := concat (tar_encode_file <$> fs) ++ zeros 512.

(** Blocks of an archive in memory: reading past the end fails. *)
Definition blocks_of (img : list Z) (blk : Z) : option (list Z) :=
  if (0 <=? blk) && (512 * blk + 512 <=? strlen img) then Some (take 512 (drop (Z.to_nat (512 * blk)) img)) else None.

Definition tfile_ok (f : tar_file) : Prop :=
  cstr (tf_name f) /\ (0 < length (tf_name f) <= 99)%nat /\ 0 <= tf_type f < 256 /\ strlen (tf_data f) < 2 ^ 31.

(** The entry that the parser should report for [f] in block [blk]. *)
Definition entry_of (f : tar_file) (blk : Z) : tar_entry :=
  mk_tar (tf_name f) (tf_type f) (512 * (blk + 1)) (strlen (tf_data f)).

Fixpoint entries_of (fs : list tar_file) (blk : Z) : list tar_entry :=
  match fs with
  | [] => []
  | f :: fs => entry_of f blk :: entries_of fs (blk + 1 + nblocks (strlen (tf_data f)))
  end.

(** ** Decoding fields *)

Lemma char_at_cons x s : char_at (x :: s) 0 = x.
Proof. done. Qed.

Lemma octal_loop_app n v s val len :
  0 <= v < 8 ^ Z.of_nat n -> 0 <= val -> val * 8 ^ Z.of_nat n + v < 2 ^ 32 ->
  octal_loop (octal_digits n v ++ s) (n + len) val = octal_loop s len (val * 8 ^ Z.of_nat n + v).
Proof.
  revert v s val len. induction n as [|n IH]; intros v s val len Hv Hval Hb.
  - cbn. change (8 ^ Z.of_nat 0) with 1 in *. f_equal. lia.
  - rewrite Nat2Z.inj_succ, Z.pow_succ_r in * by lia. cbn [octal_digits]. rewrite <- (assoc_L (++)).
    replace (S n + len)%nat with (n + S len)%nat by lia. set (P := 8 ^ Z.of_nat n) in *.
    assert (0 < P) by (unfold P; lia).
    rewrite IH by (fold P; zmod). fold P. cbn [app octal_loop]. rewrite char_at_cons.
    replace (48 + v mod 8 =? 0) with false by zmod. replace ((48 <=? 48 + v mod 8) && (48 + v mod 8 <=? 55)) with true by zmod.
    cbn [tail]. f_equal. rewrite lor_add.
    + rewrite Z.shiftl_mul_pow2 by lia. change (2 ^ 3) with 8. replace (48 + v mod 8 - 48) with (v mod 8) by lia.
      rewrite wrap32_small; [zmod|]. zmod.
    + rewrite Z.shiftl_mul_pow2 by lia. replace (48 + v mod 8 - 48) with (v mod 8) by lia.
      change 8 with (2 ^ 3). rewrite <- Z.land_ones by lia. apply Z.bits_inj'. intros i Hi.
      rewrite !Z.land_spec, Z.bits_0. destruct (Z.ltb_spec i 3).
      * rewrite Z.mul_pow2_bits_low by lia. done.
      * rewrite Z.ones_spec_high by lia. by rewrite !andb_false_r.
Qed.

Lemma octal_digits_length n v : length (octal_digits n v) = n.
Proof. revert v. induction n as [|n IH]; intros v; cbn [octal_digits]; [done|]. rewrite length_app, IH. cbn. lia. Qed.

Lemma zeros_length n : length (zeros n) = n.
Proof. apply length_replicate. Qed.

Section header.
Context (f : tar_file) (Hf : tfile_ok f).

Lemma name_le : (length (tf_name f) <= 99)%nat.
Proof. destruct Hf as (_ & ? & _). lia. Qed.

(** The header up to the size field, and from it. *)
Definition header_tail : list Z :=
  [0] ++ zeros 20 ++ [tf_type f] ++ zeros 100 ++ TAR_MAGIC ++ zeros 250.

Lemma header_drop124 : drop 124 (tar_header f) = octal_digits 11 (strlen (tf_data f)) ++ header_tail.
Proof.
  pose proof name_le. unfold tar_header, header_tail.
  replace 124%nat with (length (tf_name f) + ((100 - length (tf_name f)) + 24))%nat by lia.
  rewrite <- !drop_drop, drop_app_length. rewrite <- (zeros_length (100 - length (tf_name f))) at 1.
  rewrite drop_app_length. rewrite <- (zeros_length 24) at 1. by rewrite drop_app_length.
Qed.

Lemma header_drop156 : drop 156 (tar_header f) = [tf_type f] ++ zeros 100 ++ TAR_MAGIC ++ zeros 250.
Proof.
  transitivity (drop 21 (drop 11 (drop 124 (tar_header f)))); [by rewrite !drop_drop|]. rewrite header_drop124.
  rewrite drop_app_ge by (by rewrite octal_digits_length). by rewrite octal_digits_length.
Qed.

Lemma header_drop257 : drop 257 (tar_header f) = TAR_MAGIC ++ zeros 250.
Proof. transitivity (drop 101 (drop 156 (tar_header f))); [by rewrite drop_drop|]. by rewrite header_drop156. Qed.

Lemma header_length : length (tar_header f) = 512%nat.
Proof.
  pose proof name_le. unfold tar_header. rewrite !length_app, !zeros_length, octal_digits_length. cbn. lia.
Qed.

Lemma copy_name_app n s t :
  cstr s -> (length s <= n)%nat -> char_at t 0 = 0 -> copy_name n (s ++ t) = s.
Proof.
  intros Hs. revert n. induction Hs as [|x s Hx Hs IH]; intros n Hn Ht.
  - destruct n; [done|]. cbn [app copy_name]. by rewrite Ht.
  - destruct n; [cbn in Hn; lia|]. cbn [app copy_name]. rewrite char_at_cons.
    replace (x =? 0) with false by lia. cbn [tail]. f_equal. apply IH; [cbn in Hn; lia|done].
Qed.

Lemma header_name : copy_name 99 (tar_header f) = tf_name f.
Proof.
  pose proof name_le. destruct Hf as (Hc & _). unfold tar_header. apply copy_name_app; [done|done|].
  destruct (100 - length (tf_name f))%nat eqn:E; [lia|]. done.
Qed.

Lemma header_size : tar_octal (drop 124 (tar_header f)) 12 = strlen (tf_data f).
Proof.
  destruct Hf as (_ & _ & _ & Hd). rewrite header_drop124. unfold tar_octal.
  assert (0 <= strlen (tf_data f)) by (unfold strlen; lia).
  rewrite (octal_loop_app 11 _ _ 0 1) by (change (8 ^ Z.of_nat 11) with 8589934592; lia). done.
Qed.

Lemma header_first : char_at (tar_header f) 0 <> 0.
Proof.
  destruct Hf as (Hc & Hn & _). unfold tar_header. destruct (tf_name f) as [|x s]; [cbn in Hn; lia|].
  apply Forall_cons in Hc as [Hx _]. cbn [app]. rewrite char_at_cons. lia.
Qed.

Lemma header_type : char_at (tar_header f) 156 = tf_type f.
Proof.
  unfold char_at. pose proof (lookup_drop (tar_header f) 156 0) as E. cbn [Nat.add] in E. rewrite <- E.
  by rewrite header_drop156.
Qed.

(** Parsing one file of an archive. *)
Lemma tar_next_file read_fn blk :
  read_fn blk = Some (tar_header f) -> 0 <= blk -> 512 * (blk + 2) + strlen (tf_data f) < 2 ^ 32 ->
  tar_next_entry read_fn blk = Some (entry_of f blk, blk + 1 + nblocks (strlen (tf_data f))).
Proof.
  intros Hr Hb Hsz. unfold tar_next_entry. rewrite Hr. cbn [mbind option_bind].
  rewrite header_drop257, header_name, header_size, header_type.
  assert (Hm : memcmp (TAR_MAGIC ++ zeros 250) TAR_MAGIC 5 = 0) by (vm_compute; reflexivity).
  rewrite Hm. cbn [negb Z.eqb]. destruct (Z.eqb_spec (char_at (tar_header f) 0) 0) as [E|_]; [by destruct header_first|].
  assert (0 <= strlen (tf_data f)) by (unfold strlen; lia).
  unfold entry_of, nblocks, TAR_BLOCK_SIZE. f_equal.
  rewrite !(wrap32_small (blk + 1)), !(wrap32_small ((blk + 1) * 512)) by lia.
  rewrite (wrap32_small (strlen _ + _)) by zmod. rewrite wrap32_small by zmod. f_equal; [f_equal; lia|]. zmod.
Qed.
End header.

Lemma encode_file_length f : tfile_ok f ->
  strlen (tar_encode_file f) = 512 * (1 + nblocks (strlen (tf_data f))).
Proof.
  intros Hf. unfold tar_encode_file, strlen. rewrite !length_app, zeros_length, header_length by done.
  unfold strlen, nblocks. zmod.
Qed.

Lemma blocks_of_at pre blk s rest :
  strlen pre = 512 * blk -> length s = 512%nat -> blocks_of (pre ++ s ++ rest) blk = Some s.
Proof.
  intros Hp Hs. unfold blocks_of, strlen in *. rewrite !length_app.
  assert (Hs' : Z.of_nat (length s) = 512) by (by rewrite Hs).
  destruct (Z.leb_spec 0 blk); [|lia]. destruct (Z.leb_spec (512 * blk + 512) (Z.of_nat (length pre + (length s + length rest)))); [|lia]. cbn [andb].
  replace (Z.to_nat (512 * blk)) with (length pre) by lia. rewrite drop_app_length, <- Hs, take_app_length. done.
Qed.

Lemma tar_end read_fn blk : read_fn blk = Some (zeros 512) -> tar_next_entry read_fn blk = None.
Proof. intros Hr. unfold tar_next_entry. rewrite Hr. done. Qed.

(** The archive is small enough for 32-bit offsets. *)
Definition fits (fs : list tar_file) (blk : Z) : Prop :=
  0 <= blk /\ 512 * (blk + 2) + strlen (concat (tar_encode_file <$> fs)) < 2 ^ 32.

Lemma fits_cons f fs blk : tfile_ok f -> fits (f :: fs) blk ->
  512 * (blk + 2) + strlen (tf_data f) < 2 ^ 32 /\ fits fs (blk + 1 + nblocks (strlen (tf_data f))).
Proof.
  intros Hf [H0 H1]. pose proof (encode_file_length f Hf) as E. unfold fits, strlen in *.
  cbn [fmap list_fmap concat] in *. rewrite length_app in H1. unfold nblocks in *. split; [zmod|]. zmod.
Qed.

Lemma entries_loop_encode fs pre blk fuel :
  Forall tfile_ok fs -> strlen pre = 512 * blk -> fits fs blk -> (length fs < fuel)%nat ->
  entries_loop (blocks_of (pre ++ tar_encode fs)) fuel blk = Some (entries_of fs blk).
Proof.
  intros Hfs. revert pre blk fuel. induction Hfs as [|f fs Hf Hfs IH]; intros pre blk fuel Hp Hfit Hfuel.
  - destruct fuel; [lia|]. cbn [entries_loop entries_of]. rewrite tar_end; [done|].
    unfold tar_encode. cbn [fmap list_fmap concat app].
    pose proof (blocks_of_at pre blk (zeros 512) [] Hp (zeros_length 512)) as E. by rewrite app_nil_r in E.
  - destruct fuel as [|fuel]; [cbn in Hfuel; lia|]. destruct (fits_cons _ _ _ Hf Hfit) as [Hs Hfit'].
    pose proof (encode_file_length f Hf) as El. cbn [entries_loop entries_of].
    assert (Eimg : pre ++ tar_encode (f :: fs) = (pre ++ tar_encode_file f) ++ tar_encode fs).
    { unfold tar_encode. cbn [fmap list_fmap concat]. by rewrite <- !(assoc_L (++)). }
    rewrite (tar_next_file f Hf _ blk); [|rewrite Eimg; unfold tar_encode_file; rewrite <- !(assoc_L (++)); apply blocks_of_at; [done|by apply header_length]|by destruct Hfit|done].
    rewrite Eimg, (IH (pre ++ tar_encode_file f)); [done| |done|cbn in Hfuel; lia].
    unfold strlen in *. rewrite length_app. lia.
Qed.

(** C37: Parsing is the inverse of writing: on an archive written by the reference encoder the
    walk ends and reports exactly the files of the archive, in order, with their names, types
    and sizes, and the offset of every entry is where the bytes of that file are. *)
Theorem tar_roundtrip fs :
  Forall tfile_ok fs -> fits fs 0 ->
  entries_loop (blocks_of (tar_encode fs)) (S (length fs)) 0 = Some (entries_of fs 0) /\
  forall i f e, fs !! i = Some f -> entries_of fs 0 !! i = Some e ->
    t_name e = tf_name f /\ t_type e = tf_type f /\
    take (Z.to_nat (t_size e)) (drop (Z.to_nat (t_offset e)) (tar_encode fs)) = tf_data f.
Proof.
  intros Hfs Hfit. split; [apply (entries_loop_encode fs [] 0); done || lia|].
  enough (Hg : forall fs pre blk, Forall tfile_ok fs -> 0 <= blk -> strlen pre = 512 * blk -> forall i f e,
    fs !! i = Some f -> entries_of fs blk !! i = Some e -> t_name e = tf_name f /\ t_type e = tf_type f /\
    take (Z.to_nat (t_size e)) (drop (Z.to_nat (t_offset e)) (pre ++ tar_encode fs)) = tf_data f)
    by (apply (Hg fs [] 0); done).
  clear fs Hfs Hfit. intros fs pre blk Hfs. revert pre blk. induction Hfs as [|f0 fs Hf Hfs IH]; intros pre blk Hb Hp i f e Hi He; [done|].
  pose proof (encode_file_length f0 Hf) as El.
  assert (Eimg : pre ++ tar_encode (f0 :: fs) = (pre ++ tar_encode_file f0) ++ tar_encode fs).
  { unfold tar_encode. cbn [fmap list_fmap concat]. by rewrite <- !(assoc_L (++)). }
  destruct i as [|i]; cbn in Hi, He.
  - injection Hi as <-. injection He as <-. split; [done|]. split; [done|]. cbn [entry_of t_size t_offset]. rewrite Eimg.
    unfold tar_encode_file. rewrite <- !(assoc_L (++)), (assoc_L (++) pre).
    replace (Z.to_nat (512 * (blk + 1))) with (length (pre ++ tar_header f0)).
    + rewrite drop_app_length. unfold strlen. rewrite Nat2Z.id. apply take_app_length.
    + rewrite length_app, header_length by done. unfold strlen in Hp. apply Nat2Z.inj. rewrite Nat2Z.inj_add, Hp, Z2Nat.id by lia.
      change (Z.of_nat 512) with 512. lia.
  - rewrite Eimg. eapply IH; [| |exact Hi|exact He].
    + unfold nblocks, strlen. zmod.
    + unfold strlen in *. rewrite length_app. lia.
Qed.

Lemma tar_roundtrip_witness :
  let fs := [mk_tfile (lit "motd") 48 (lit "hello"); mk_tfile (lit "a") 48 []] in
  Forall tfile_ok fs /\
  entries_loop (blocks_of (tar_encode fs)) 3 0 = Some [mk_tar (lit "motd") 48 512 5; mk_tar (lit "a") 48 1536 0].
Proof.
  intros fs. assert (H : Forall tfile_ok fs).
  { unfold fs. apply List.Forall_cons; [|apply List.Forall_cons; [|apply List.Forall_nil]];
      (split; [apply cstr_check; reflexivity|]); unfold strlen; cbn [tf_name tf_type tf_data lit length]; lia. }
  split; [exact H|]. assert (Hf : fits fs 0) by (split; [lia|vm_compute; reflexivity]).
  exact (proj1 (tar_roundtrip fs H Hf)).
Defined.
