(* ===== verification/Ramfs.v ===== *)
(** * Mounting archives: ramfs and tarfs (src/fs/ramfs.c, src/fs/tarfs.c)

    ramfs serves the files of a tar image in memory, tarfs those of a tar archive on a block
    device.  The mount loops walk the archive with [tar_next_entry] and take fuel. *)

From S2P Require Import Prelude LList Cstr Heap HeapInv HeapSpec HeapTheorems Alloc Vfs Memfs Tar.

Definition SIZEOF_TARFS_INODE : Z := 8.
Definition SIZEOF_TARFS_FILE : Z := 4.

(** [entry.type != '0' && entry.type != '\0'] *)
Definition is_regular (e : tar_entry) : bool := (t_type e =? 48) || (t_type e =? 0).

Section Ramfs.
Context {A : Type} `{Allocator A}.
Implicit Types v : vfs A.

Definition ramfs_block_read (img : Z) (m : gmap Z Z) (blk : Z) : option (list Z) :=
  Some (copy_out (img +w (blk *w TAR_BLOCK_SIZE)) TAR_BLOCK_SIZE m).

(** The body of the mount loop. *)
Definition ramfs_add (img root_dentry : Z) (e : tar_entry) v : option (vfs A) :=
  if negb (is_regular e) then Some v
  else
    '(ino, v) ← ramfs_alloc_inode (Z.lor S_IFREG 0x1A4) v;
    if ino =? 0 then Some v
    else
      i ← inodes v !! ino;
      let v := v <| ramnodes := <[i_private i := mk_ramfs (t_size e) (img +w t_offset e)]> (ramnodes v) |> in
      let v := set_inode ino (i <| i_size := t_size e |> <| i_fop := RAMFS_OPS |>) v in
      '(d, v) ← vfs_new_dentry (t_name e) ino root_dentry v;
      if d =? 0 then
        v ← free (i_private i) v;
        let v := v <| ramnodes := delete (i_private i) (ramnodes v) |> in
        v ← free ino v;
        Some (v <| inodes := delete ino (inodes v) |>)
      else Some v.

Fixpoint ramfs_loop (fuel : nat) (img root_dentry blk : Z) v : option (vfs A) :=
  match fuel with
  | O => None
  | S fuel' =>
      match tar_next_entry (ramfs_block_read img (image v)) blk with
      | None => Some v
      | Some (e, blk) => v ← ramfs_add img root_dentry e v; ramfs_loop fuel' img root_dentry blk v
      end
  end.

Definition ramfs_fill_super (fuel : nat) (sb img : Z) v : option (Z * vfs A) :=
  if (sb =? 0) || (img =? 0) then Some (-1, v)
  else
    '(ino, v) ← ramfs_alloc_inode (Z.lor S_IFDIR 0x1ED) v;
    if ino =? 0 then Some (-1, v)
    else
      i ← inodes v !! ino;
      let v := set_inode ino (i <| i_op := RAMFS_OPS |>) v in
      '(d, v) ← vfs_new_dentry [SLASH] ino 0 v;
      if d =? 0 then
        v ← free (i_private i) v;
        let v := v <| ramnodes := delete (i_private i) (ramnodes v) |> in
        v ← free ino v;
        Some (-1, v <| inodes := delete ino (inodes v) |>)
      else
        b ← supers v !! sb;
        let v := v <| supers := <[sb := b <| s_root := d |>]> (supers v) |> in
        v ← ramfs_loop fuel img d 0 v;
        Some (0, v).

Definition ramfs_mount (fuel : nat) (img : Z) v : option (Z * vfs A) :=
  if negb (ramfs_sb v =? 0) then Some (ramfs_sb v, v)
  else
    '(sb, v) ← malloc SIZEOF_SUPER v;
    if sb =? 0 then Some (0, v)
    else
      let v := v <| supers := <[sb := mk_super 0 0 img]> (supers v) |> in
      '(r, v) ← ramfs_fill_super fuel sb img v;
      if negb (r =? 0) then v ← free sb v; Some (0, v <| supers := delete sb (supers v) |>)
      else Some (sb, v <| ramfs_sb := sb |>).

(** ** tarfs: the archive is on a device, read through [read_blk] (tarfs_block_read, that is
    [bdev_read] of one sector) *)

Variable read_blk : Z -> option (list Z).

(** [None]: the [break] after a failed allocation. *)
Definition tarfs_add (sb root_dentry : Z) (e : tar_entry) v : option (bool * vfs A) :=
  if negb (is_regular e) then Some (true, v)
  else
    '(ino, v) ← vfs_new_inode (Z.lor S_IFREG 0x1A4) v;
    if ino =? 0 then Some (false, v)
    else
      i ← inodes v !! ino;
      let v := set_inode ino (i <| i_sb := sb |> <| i_size := t_size e |>) v in
      '(tin, v) ← malloc SIZEOF_TARFS_INODE v;
      if tin =? 0 then v ← free ino v; Some (false, v <| inodes := delete ino (inodes v) |>)
      else
        let v := v <| tarnodes := <[tin := mk_tarfs (t_offset e) (t_size e)]> (tarnodes v) |> in
        i ← inodes v !! ino;
        let v := set_inode ino (i <| i_private := tin |> <| i_fop := TARFS_OPS |>) v in
        '(d, v) ← vfs_new_dentry (t_name e) ino root_dentry v;
        if d =? 0 then
          v ← free tin v;
          let v := v <| tarnodes := delete tin (tarnodes v) |> in
          v ← free ino v;
          Some (true, v <| inodes := delete ino (inodes v) |>)
        else Some (true, v).

Fixpoint tarfs_loop (fuel : nat) (sb root_dentry blk : Z) v : option (vfs A) :=
  match fuel with
  | O => None
  | S fuel' =>
      match tar_next_entry read_blk blk with
      | None => Some v
      | Some (e, blk) =>
          '(go, v) ← tarfs_add sb root_dentry e v;
          if (go : bool) then tarfs_loop fuel' sb root_dentry blk v else Some v
      end
  end.

Definition tarfs_fill_super (fuel : nat) (sb dev : Z) v : option (Z * vfs A) :=
  if (sb =? 0) || (dev =? 0) then Some (-1, v)
  else
    b ← supers v !! sb;
    let v := v <| supers := <[sb := b <| s_op := TARFS_OPS |>]> (supers v) |> in
    '(ino, v) ← vfs_new_inode (Z.lor S_IFDIR 0x1ED) v;
    if ino =? 0 then Some (-1, v)
    else
      i ← inodes v !! ino;
      let v := set_inode ino (i <| i_sb := sb |> <| i_op := TARFS_OPS |>) v in
      '(d, v) ← vfs_new_dentry [SLASH] ino 0 v;
      if d =? 0 then v ← free ino v; Some (-1, v <| inodes := delete ino (inodes v) |>)
      else
        b ← supers v !! sb;
        let v := v <| supers := <[sb := b <| s_root := d |>]> (supers v) |> in
        v ← tarfs_loop fuel sb d 0 v;
        Some (0, v).

Definition tarfs_mount (fuel : nat) (dev : Z) v : option (Z * vfs A) :=
  if dev =? 0 then Some (0, v)
  else
    '(sb, v) ← malloc SIZEOF_SUPER v;
    if sb =? 0 then Some (0, v)
    else
      let v := v <| supers := <[sb := mk_super 0 0 dev]> (supers v) |> in
      '(r, v) ← tarfs_fill_super fuel sb dev v;
      if negb (r =? 0) then v ← free sb v; Some (0, v <| supers := delete sb (supers v) |>)
      else Some (sb, v).

Definition tarfs_open (ino filp : Z) v : option (Z * vfs A) :=
  f ← files v !! filp;
  '(p, v) ← malloc SIZEOF_TARFS_FILE v;
  let v := set_file filp (f <| f_private := p |>) v in
  if p =? 0 then Some (-1, v)
  else Some (0, v <| tarfiles := <[p := 0]> (tarfiles v) |>).

Definition tarfs_release (ino filp : Z) v : option (Z * vfs A) :=
  f ← files v !! filp;
  if negb (f_private f =? 0) then
    v ← free (f_private f) v;
    let v := v <| tarfiles := delete (f_private f) (tarfiles v) |> in
    Some (0, set_file filp (f <| f_private := 0 |>) v)
  else Some (0, v).
End Ramfs.
