(* ===== verification/Bdev.v ===== *)
(** * Block devices (src/fs/bdev.c, include/fs/bdev.h)

    The driver behind a device is a pair of functions on the state [D] of the hardware, as in
    [struct block_device]; a missing function is NULL.  Deferred writes are kept in a list,
    newest first, whose entries are heap objects. *)

From S2P Require Import Prelude Cstr Heap HeapInv HeapSpec HeapTheorems Alloc.

Definition BDEV_MAX : Z := 8.
Definition SIZEOF_DEFERRED_WRITE : Z := 528.

(** [read(dev, lba, buf, nsec, tier)] returns its result and the bytes it stored. *)
Record block_device (D : Type) := mk_bdev {
  b_name : option (list Z);
  b_read : option (Z -> Z -> Z -> D -> Z * list Z * D);
  b_write : option (Z -> list Z -> Z -> Z -> D -> Z * D);
}.
Arguments mk_bdev {D} _ _ _. Arguments b_name {D} _. Arguments b_read {D} _. Arguments b_write {D} _.

Record deferred_write := mk_dw { w_addr : Z; w_lba : Z; w_data : list Z; w_tier : Z }.

Record bdevs (A D : Type) := mk_bdevs {
  bmem : A;
  bdev_table : list (block_device D);
  write_pool : list deferred_write;
  disk : D;
}.
Arguments mk_bdevs {A D} _ _ _ _. Arguments bmem {A D} _. Arguments bdev_table {A D} _.
Arguments write_pool {A D} _. Arguments disk {A D} _.
#[export] Instance eta_bdevs A D : Eta (bdevs A D) := fun s =>
  mk_bdevs (bmem s) (bdev_table s) (write_pool s) (disk s).

Section Bdev.
Context {A D : Type} `{Allocator A}.
Implicit Types s : bdevs A D.

Definition bdev_register (dev : option (block_device D)) s : Z * bdevs A D :=
  match dev with
  | None => (-1, s)
  | Some d =>
      if BDEV_MAX <=? Z.of_nat (length (bdev_table s)) then (-1, s)
      else (0, s <| bdev_table := bdev_table s ++ [d] |>)
  end.

Definition bdev_read (dev : option (block_device D)) (lba nsec tier : Z) s : Z * list Z * bdevs A D :=
  match dev ≫= b_read with
  | None => (-1, [], s)
  | Some read => let '(r, bs, d) := read lba nsec tier (disk s) in (r, bs, s <| disk := d |>)
  end.

Definition bdev_write (dev : option (block_device D)) (lba : Z) (buf : list Z) (nsec tier : Z) s : Z * bdevs A D :=
  match dev ≫= b_write with
  | None => (-1, s)
  | Some write => let '(r, d) := write lba buf nsec tier (disk s) in (r, s <| disk := d |>)
  end.

Definition bdev_write_deferred (lba : Z) (buf : list Z) (tier : Z) s : option (Z * bdevs A D) :=
  '(p, a) ← al_malloc SIZEOF_DEFERRED_WRITE (bmem s);
  let s := s <| bmem := a |> in
  if p =? 0 then Some (-1, s)
  else Some (0, s <| write_pool := mk_dw p lba (take 512 buf) tier :: write_pool s |>).

(** [while (write_pool)], with the result so far. *)
Fixpoint flush_loop (write : Z -> list Z -> Z -> Z -> D -> Z * D) (pool : list deferred_write) (ret : Z) s
    : option (Z * bdevs A D) :=
  match pool with
  | [] => Some (ret, s <| write_pool := [] |>)
  | e :: pool =>
      let '(r, d) := write (w_lba e) (w_data e) 1 (w_tier e) (disk s) in
      let ret := if negb (r =? 0) then -1 else ret in
      a ← al_free (w_addr e) (bmem s);
      flush_loop write pool ret (s <| disk := d |> <| bmem := a |>)
  end.

Definition bdev_flush (dev : option (block_device D)) s : option (Z * bdevs A D) :=
  match dev ≫= b_write with
  | None => Some (-1, s)
  | Some write => flush_loop write (write_pool s) 0 s
  end.

Fixpoint bdev_lookup_loop (tbl : list (block_device D)) (i : Z) (name : list Z) : Z :=
  match tbl with
  | [] => -1
  | d :: tbl =>
      match b_name d with
      | Some n => if strcmp n name =? 0 then i else bdev_lookup_loop tbl (i + 1) name
      | None => bdev_lookup_loop tbl (i + 1) name
      end
  end.

(** The device, [None] for NULL. *)
Definition bdev_lookup (name : list Z) s : option (block_device D) :=
  let i := bdev_lookup_loop (bdev_table s) 0 name in
  if i <? 0 then None else bdev_table s !! Z.to_nat i.

(** ** Lookup finds what was registered first under the name *)

Lemma lookup_loop_spec tbl i name :
  cstr name -> Forall (fun d => forall n, b_name d = Some n -> cstr n) tbl -> 0 <= i ->
  let r := bdev_lookup_loop tbl i name in
  (r = -1 /\ Forall (fun d => b_name d <> Some name) tbl) \/
  (exists t1 d t2, tbl = t1 ++ d :: t2 /\ r = i + Z.of_nat (length t1) /\ b_name d = Some name /\
     Forall (fun d => b_name d <> Some name) t1).
Proof.
  intros Hn Ht. revert i. induction Ht as [|d tbl Hd Ht IH]; intros i Hi; cbn [bdev_lookup_loop]; [by left|].
  assert (Hskip : b_name d <> Some name ->
    (bdev_lookup_loop tbl (i + 1) name = -1 /\ Forall (fun d => b_name d <> Some name) (d :: tbl)) \/
    (exists t1 e t2, d :: tbl = t1 ++ e :: t2 /\ bdev_lookup_loop tbl (i + 1) name = i + Z.of_nat (length t1) /\
       b_name e = Some name /\ Forall (fun d => b_name d <> Some name) t1)).
  { intros Hne. destruct (IH (i + 1) ltac:(lia)) as [[-> Hf]|(t1 & e & t2 & -> & -> & He & Hf)]; [left|right].
    - split; [done|]. by constructor.
    - exists (d :: t1), e, t2. cbn. split; [done|]. split; [lia|]. split; [done|]. by constructor. }
  destruct (b_name d) as [n|] eqn:En; [|by apply Hskip].
  destruct (Z.eqb_spec (strcmp n name) 0) as [E|E]; rewrite strcmp_eq in E by eauto.
  - right. exists [], d, tbl. subst n. cbn. split; [done|]. split; [lia|]. split; [done|constructor].
  - apply Hskip. congruence.
Qed.

(** ** Deferred writes *)

(** The pool's entries are live heap objects, all different. *)
Record pool_ok s (L : gset Z) (k : Z) : Prop := {
  po_al : al_ok (bmem s) L k;
  po_live : Forall (fun e => w_addr e ∈ L) (write_pool s);
  po_nodup : NoDup (w_addr <$> write_pool s);
}.

Definition defer (w : Z * list Z * Z) s : option (Z * bdevs A D) :=
  let '(lba, buf, tier) := w in bdev_write_deferred lba buf tier s.

Lemma defer_spec s L k lba buf tier :
  pool_ok s L k -> 568 <= k ->
  exists s' p, bdev_write_deferred lba buf tier s = Some (0, s') /\ disk s' = disk s /\ bdev_table s' = bdev_table s /\
    write_pool s' = mk_dw p lba (take 512 buf) tier :: write_pool s /\ pool_ok s' ({[p]} ∪ L) (k - 568).
Proof.
  intros [Ha Hl Hn] Hk. unfold bdev_write_deferred, SIZEOF_DEFERRED_WRITE.
  destruct (al_malloc_spec _ _ _ 528 Ha) as (p & a & -> & [(_ & ? & _)|(Hp & HpL & Ha')]); [lia|lia|].
  cbn [mbind option_bind]. destruct (Z.eqb_spec p 0) as [?|_]; [lia|].
  eexists _, p. split; [done|]. split; [done|]. split; [done|]. split; [done|]. split.
  - eapply al_weaken; [exact Ha'|lia].
  - cbn. constructor; [cbn; set_solver|]. eapply Forall_impl; [exact Hl|]. set_solver.
  - cbn. constructor; [|done]. intros (e & -> & He)%list_elem_of_fmap. rewrite Forall_forall in Hl. by apply HpL, Hl.
Qed.

(** One write of the loop: the result so far and the device. *)
Definition write_step (write : Z -> list Z -> Z -> Z -> D -> Z * D) (st : Z * D) (e : deferred_write) : Z * D :=
  let '(r, d) := write (w_lba e) (w_data e) 1 (w_tier e) (snd st) in (if negb (r =? 0) then -1 else fst st, d).

Lemma flush_loop_spec write pool ret s L k :
  al_ok (bmem s) L k -> Forall (fun e => w_addr e ∈ L) pool -> NoDup (w_addr <$> pool) ->
  exists s', flush_loop write pool ret s = Some (fst (foldl (write_step write) (ret, disk s) pool), s') /\
    disk s' = snd (foldl (write_step write) (ret, disk s) pool) /\ write_pool s' = [] /\
    bdev_table s' = bdev_table s /\ al_ok (bmem s') (L ∖ list_to_set (w_addr <$> pool)) k.
Proof.
  revert ret s L. induction pool as [|e pool IH]; intros ret s L Ha Hl Hn; cbn [flush_loop foldl].
  - exists (s <| write_pool := [] |>). splits; try done. cbn. by rewrite difference_empty_L.
  - apply Forall_cons in Hl as [He Hl]. apply NoDup_cons in Hn as [Hne Hn].
    destruct (write (w_lba e) (w_data e) 1 (w_tier e) (disk s)) as [r d] eqn:Ew.
    replace (write_step write (ret, disk s) e) with (if negb (r =? 0) then -1 else ret, d)
      by (unfold write_step; cbn [fst snd]; by rewrite Ew).
    destruct (al_free_spec _ _ _ _ Ha He) as (a & -> & Ha'). cbn [mbind option_bind].
    edestruct (IH (if negb (r =? 0) then -1 else ret) (s <| disk := d |> <| bmem := a |>) (L ∖ {[w_addr e]}))
      as (s' & -> & Hd & Hp & Ht & Ha2); [exact Ha'| |exact Hn|].
    + apply Forall_forall. intros x Hx. rewrite Forall_forall in Hl. specialize (Hl x Hx).
      apply elem_of_difference. split; [done|]. intros Ex%elem_of_singleton. apply Hne. rewrite <- Ex.
      apply list_elem_of_fmap. eauto.
    + exists s'. split; [done|]. split; [done|]. split; [done|]. split; [done|].
      cbn [fmap list_fmap list_to_set]. replace (L ∖ ({[w_addr e]} ∪ list_to_set (w_addr <$> pool)))
        with (L ∖ {[w_addr e]} ∖ list_to_set (w_addr <$> pool)); [done|]. set_solver.
Qed.

(** Deferring a list of writes, first one first. *)
Fixpoint defer_all (ws : list (Z * list Z * Z)) s : option (bdevs A D) :=
  match ws with
  | [] => Some s
  | (lba, buf, tier) :: ws => '(_, s) ← bdev_write_deferred lba buf tier s; defer_all ws s
  end.

(** The effect of writing [ws] directly, in the given order. *)
Definition direct_step (write : Z -> list Z -> Z -> Z -> D -> Z * D) (st : Z * D) (w : Z * list Z * Z) : Z * D :=
  let '(lba, buf, tier) := w in
  let '(r, d) := write lba (take 512 buf) 1 tier (snd st) in (if negb (r =? 0) then -1 else fst st, d).

Definition dw_of (e : deferred_write) : Z * list Z * Z := (w_lba e, w_data e, w_tier e).

Lemma defer_all_spec ws s L k :
  pool_ok s L k -> 568 * Z.of_nat (length ws) <= k ->
  exists s' L' k' es, defer_all ws s = Some s' /\ disk s' = disk s /\ bdev_table s' = bdev_table s /\
    pool_ok s' L' k' /\ write_pool s' = es ++ write_pool s /\
    dw_of <$> es = reverse ((fun '(lba, buf, tier) => (lba, take 512 buf, tier)) <$> ws).
Proof.
  revert s L k. induction ws as [|[[lba buf] tier] ws IH]; intros s L k Hs Hk; cbn [defer_all].
  - exists s, L, k, []. splits; try done.
  - cbn [length] in Hk. destruct (defer_spec s L k lba buf tier Hs) as (s1 & p & -> & E1 & E2 & E3 & Hs1); [lia|].
    cbn [mbind option_bind]. destruct (IH s1 _ _ Hs1) as (s2 & L2 & k2 & es & -> & F1 & F2 & Hs2 & F3 & F4); [lia|].
    exists s2, L2, k2, (es ++ [mk_dw p lba (take 512 buf) tier]). splits; try done; try congruence.
    + rewrite F3, E3, <- (assoc_L (++)). done.
    + rewrite fmap_app, F4. cbn [fmap list_fmap]. by rewrite reverse_cons.
Qed.

Lemma write_direct write es ws st :
  dw_of <$> es = (fun '(lba, buf, tier) => (lba, take 512 buf, tier)) <$> ws ->
  foldl (write_step write) st es = foldl (direct_step write) st ws.
Proof.
  revert st ws. induction es as [|e es IH]; intros st [|[[lba buf] tier] ws] E; cbn in E; try done.
  injection E as E1 E2 E3 E. cbn [foldl]. rewrite <- (IH _ ws E). f_equal. unfold write_step, direct_step. by rewrite E1, E2, E3.
Qed.

(** Flushing deferred writes always ends, leaves the pool empty with all entries freed,
    and returns 0 exactly when every write succeeded; but the writes reach the device newest
    first: the device is as if they had been done in the reverse of the order in which they
    were deferred. *)
Theorem flush_writes_in_reverse dev write ws s L k :
  b_write dev = Some write -> pool_ok s L k -> write_pool s = [] -> 568 * Z.of_nat (length ws) <= k ->
  exists s1 s2 L' k', defer_all ws s = Some s1 /\
    bdev_flush (Some dev) s1 = Some (fst (foldl (direct_step write) (0, disk s) (reverse ws)), s2) /\
    disk s2 = snd (foldl (direct_step write) (0, disk s) (reverse ws)) /\ write_pool s2 = [] /\ al_ok (bmem s2) L' k'.
Proof.
  intros Hw Hs Hp Hk. destruct (defer_all_spec ws s L k Hs Hk) as (s1 & L1 & k1 & es & -> & E1 & _ & [Ha Hl Hn] & E3 & E4).
  rewrite Hp, app_nil_r in E3. rewrite E3 in Hl, Hn.
  destruct (flush_loop_spec write es 0 s1 L1 k1 Ha Hl Hn) as (s2 & Ef & Ed & Ep & _ & Ha2).
  rewrite <- fmap_reverse in E4. rewrite (write_direct write es (reverse ws) _ E4), E1 in Ef, Ed.
  exists s1, s2, (L1 ∖ list_to_set (w_addr <$> es)), k1. split; [done|]. unfold bdev_flush. cbn [mbind option_bind]. rewrite Hw, E3. by splits.
Qed.
End Bdev.

(** ** A disk for concrete runs *)

(** A disk of sectors. *)
Definition ram_disk : block_device (gmap Z (list Z)) :=
  mk_bdev (Some (lit "ram0")) None (Some (fun lba bs _ _ d => (0, <[lba := bs]> d))).

Lemma flush_writes_in_reverse_witness :
  let s := mk_bdevs (mk_bump 16 ∅) [ram_disk] [] (∅ : gmap Z (list Z)) in
  pool_ok s ∅ 4096 /\
  exists s1 s2 r, defer_all [(7, [1], 0); (7, [2], 0)] s = Some s1 /\ bdev_flush (Some ram_disk) s1 = Some (r, s2) /\
    disk s2 !! 7 = Some [1].
Proof.
  intros s. assert (Hs : pool_ok s ∅ 4096).
  { split; [|constructor|constructor]. unfold al_ok, bump_allocator, bump_ok. cbn. splits; try done. }
  split; [exact Hs|].
  destruct (flush_writes_in_reverse ram_disk _ [(7, [1], 0); (7, [2], 0)] s ∅ 4096 eq_refl Hs eq_refl)
    as (s1 & s2 & L' & k' & E1 & E2 & E3 & _); [cbn; lia|].
  exists s1, s2, 0. split; [exact E1|]. split; [exact E2|]. rewrite E3. reflexivity.
Defined.
