(* ===== verification/PageCache.v ===== *)
(** * The page cache and reading of tarfs files (src/fs/page_cache.c, src/fs/tarfs.c)

    A cached page lives in a frame of its own, reached through the map of physical memory at
    0xC0000000 (see [paging_init_maps]): [fbytes] holds the 4096 bytes of the frames that the
    cache owns, by physical address.  The device below is a state [W]. *)

From S2P Require Import Prelude LList Cstr Heap Task Paging Tar.

Definition PAGE_CACHE_SIZE : nat := 64.
Definition TARFS_READAHEAD : nat := 4.

Record page_cache_slot := mk_slot { c_ino : Z; c_pgoff : Z; c_phys : Z; c_valid : Z; c_tier : Z }.
#[export] Instance eta_slot : Eta page_cache_slot := fun c => mk_slot
  (c_ino c) (c_pgoff c) (c_phys c) (c_valid c) (c_tier c).

Definition empty_slot : page_cache_slot := mk_slot 0 0 0 0 0.

Record pcache (W : Type) := mk_pcache {
  cache : list page_cache_slot;
  fbytes : gmap Z (list Z);
  mm : paging * sched;
  dev : W;
}.
Arguments mk_pcache {W} _ _ _ _. Arguments cache {W} _. Arguments fbytes {W} _. Arguments mm {W} _. Arguments dev {W} _.
#[export] Instance eta_pcache W : Eta (pcache W) := fun s => mk_pcache (cache s) (fbytes s) (mm s) (dev s).

(** A frame whose contents the cache has not set. *)
Definition zero_page : list Z := replicate (Z.to_nat 4096) 0.

(** The slot of a page, [PAGE_CACHE_SIZE] if it is not cached. *)
Fixpoint page_cache_find (c : list page_cache_slot) (ino pgoff : Z) : nat :=
  match c with
  | [] => 0
  | x :: c =>
      if negb (c_valid x =? 0) && (c_ino x =? ino) && (c_pgoff x =? pgoff) then 0 else S (page_cache_find c ino pgoff)
  end.

Fixpoint page_cache_alloc_slot (c : list page_cache_slot) : nat :=
  match c with
  | [] => 0
  | x :: c => if c_valid x =? 0 then 0 else S (page_cache_alloc_slot c)
  end.

Section PageCache.
Context {W : Type}.
Implicit Types s : pcache W.

(** [readpage(inode, pgoff, buf, tier)]: [rp] is the super block's readpage operation, NULL
    if absent, which fills a frame; the result is the return value and the bytes of [buf]. *)
Definition readpage (rp : option (Z -> Z -> list Z -> W -> Z * list Z * W)) (ino pgoff tier : Z) s
    : Z * list Z * pcache W :=
  let slot := page_cache_find (cache s) ino pgoff in
  if negb (slot =? PAGE_CACHE_SIZE)%nat then
    let x := default empty_slot (cache s !! slot) in
    let s := s <| cache := <[slot := x <| c_tier := tier |>]> (cache s) |> in
    (4096, default zero_page (fbytes s !! c_phys x), s)
  else
    match rp with
    | None => (-1, [], s)
    | Some rp =>
        let slot := page_cache_alloc_slot (cache s) in
        if (slot =? PAGE_CACHE_SIZE)%nat then (-1, [], s)
        else
          let '(phys, m) := alloc_page_frame (mm s) in
          let s := s <| mm := m |> in
          if phys =? 0 then (-1, [], s)
          else
            let '(ret, bs, w) := rp pgoff tier (default zero_page (fbytes s !! phys)) (dev s) in
            let s := s <| dev := w |> <| fbytes := <[phys := bs]> (fbytes s) |> in
            if ret <? 0 then (-1, [], s <| mm := (free_page_frame phys (fst (mm s)), snd (mm s)) |>)
            else
              let s := s <| cache := <[slot := mk_slot ino pgoff phys 1 tier]> (cache s) |> in
              (4096, bs, s)
    end.

(** ** tarfs *)

(** [tarfs_readpage]: [read] is [bdev_read] on the mounted device; the sectors read replace
    the start of the frame. *)
Definition tarfs_readpage (read : Z -> Z -> Z -> W -> Z * list Z * W) (offset size : Z)
    (pgoff tier : Z) (old : list Z) (w : W) : Z * list Z * W :=
  let start := pgoff *w 4096 in
  if size <=? start then (-1, old, w)
  else
    let count := if size <? start +w 4096 then size - start else 4096 in
    let nsec := (count + 511) / 512 in
    let '(r, bs, w) := read ((offset +w start) / 512) nsec tier w in
    if negb (r =? 0) then (-1, old, w)
    else (count, bs ++ drop (length bs) old, w).

(** [for (i = 1; i <= TARFS_READAHEAD && pgoff + i < pgoff_end; i++) readpage(...)] *)
Fixpoint readahead (n : nat) (rd_page : Z -> pcache W -> Z * list Z * pcache W) (pg pgoff_end : Z) s : pcache W :=
  match n with
  | O => s
  | S n' => if pg <? pgoff_end then let '(_, _, s) := rd_page pg s in readahead n' rd_page (pg + 1) pgoff_end s else s
  end.

(** The loop over the pages; [n] is the number of pages left, [last] is [tfile->last_pgoff]
    ([None]: no tarfs_file), [acc] the bytes copied so far. *)
Fixpoint tarfs_read_loop (n : nat) (rd_page : Z -> pcache W -> Z * list Z * pcache W)
    (off len pgoff pgoff_end : Z) (last : option Z) (acc : list Z) s : list Z * option Z * pcache W :=
  match n with
  | O => (acc, last, s)
  | S n' =>
      let '(ret, page, s) := rd_page pgoff s in
      if ret <? 0 then (acc, last, s)
      else
        let total := strlen acc in
        let page_off := if pgoff =? off / 4096 then off mod 4096 else 0 in
        let page_len := 4096 - page_off in
        let page_len := if len - total <? page_len then len - total else page_len in
        let acc := acc ++ take (Z.to_nat page_len) (drop (Z.to_nat page_off) page) in
        let '(last, s) :=
          match last with
          | None => (None, s)
          | Some l =>
              (Some pgoff,
               if (pgoff =? l +w 1) && (pgoff + 1 <? pgoff_end)
               then readahead TARFS_READAHEAD rd_page (pgoff + 1) pgoff_end s else s)
          end in
        tarfs_read_loop n' rd_page off len (pgoff + 1) pgoff_end last acc s
  end.

(** [tarfs_read]: the bytes read, the new position and [last_pgoff]. *)
Definition tarfs_read (rd_page : Z -> pcache W -> Z * list Z * pcache W) (size off len : Z) (last : option Z) s
    : list Z * Z * option Z * pcache W :=
  let avail := if off <? size then size - off else 0 in
  let len := if avail <? len then avail else len in
  if len =? 0 then ([], off, last, s)
  else
    let pgoff := off / 4096 in
    let pgoff_end := (off + len + 4095) / 4096 in
    let '(bs, last, s) := tarfs_read_loop (Z.to_nat (pgoff_end - pgoff)) rd_page off len pgoff pgoff_end last [] s in
    (bs, (off + strlen bs) mod 2 ^ 64, last, s).
End PageCache.
