(* ===== verification/PageCacheTheorems.v ===== *)
(** * The page cache is coherent, and tarfs files read back their bytes *)

From S2P Require Import Prelude LList Cstr Heap Task Paging Tar PageCache.

(** ** Slots *)

Lemma cache_find_spec c ino pgoff :
  match c !! page_cache_find c ino pgoff with
  | Some x => c_valid x <> 0 /\ c_ino x = ino /\ c_pgoff x = pgoff
  | None => page_cache_find c ino pgoff = length c /\
      forall i x, c !! i = Some x -> c_valid x <> 0 -> ~ (c_ino x = ino /\ c_pgoff x = pgoff)
  end.
Proof.
  induction c as [|x c IH]; cbn [page_cache_find]; [done|].
  destruct (negb (c_valid x =? 0) && (c_ino x =? ino) && (c_pgoff x =? pgoff)) eqn:E.
  - cbn. bool_prop. lia.
  - cbn [lookup list_lookup]. change (list_lookup _ c) with (c !! page_cache_find c ino pgoff).
    destruct (c !! page_cache_find c ino pgoff); [done|]. destruct IH as [IH1 IH2]. split; [cbn; lia|].
    intros [|i] y Hy Hv [H1 H2]; cbn in Hy; [|by eapply IH2].
    injection Hy as <-. subst. rewrite !Z.eqb_refl in E. destruct (Z.eqb_spec (c_valid x) 0); [done|]. by cbn in E.
Qed.

Lemma alloc_slot_spec c :
  match c !! page_cache_alloc_slot c with
  | Some x => c_valid x = 0
  | None => page_cache_alloc_slot c = length c /\ Forall (fun x => c_valid x <> 0) c
  end.
Proof.
  induction c as [|x c IH]; cbn [page_cache_alloc_slot]; [done|].
  destruct (Z.eqb_spec (c_valid x) 0) as [E|E]; [done|].
  cbn [lookup list_lookup]. change (list_lookup _ c) with (c !! page_cache_alloc_slot c).
  destruct (c !! page_cache_alloc_slot c); [done|]. destruct IH as [-> IH]. split; [done|]. by constructor.
Qed.

Lemma alloc_frame_cons p s k q :
  freeq p = k :: q -> 0 < k -> exists p', alloc_page_frame (p, s) = (k * 4096, (p', s)) /\ freeq p' = q.
Proof.
  intros Hq Hk. unfold alloc_page_frame, alloc_phys_page. rewrite Hq. cbv zeta.
  change PAGE_SIZE with 4096. destruct (Z.eqb_spec (k * 4096) 0) as [?|_]; [lia|]. cbn [negb].
  eexists. split; [done|]. unfold set_ref. by destruct (_ <? _).
Qed.

Lemma alloc_frame_nil p s : freeq p = [] -> exists st', alloc_page_frame (p, s) = (0, st') /\ freeq (fst st') = [].
Proof.
  intros Hq. unfold alloc_page_frame. unfold alloc_phys_page at 1. rewrite Hq. cbn [Z.eqb negb].
  unfold vm_handle_pressure. destruct (current_task s =? 0); [|destruct (_ && _)%bool];
    (unfold alloc_phys_page; cbn [freeq set_field eta_paging]; rewrite Hq; cbn [Z.eqb negb]; eexists; split; [done|]; by cbn [fst freeq set_field eta_paging]).
Qed.

Section cache.
Context {W : Type}.
Implicit Types s : pcache W.

(** [F ino pgoff]: the bytes of a page of a file, [None] past its end. *)
Variable F : Z -> Z -> option (list Z).

Record cache_ok s : Prop := {
  co_len : length (cache s) = PAGE_CACHE_SIZE;
  co_free : NoDup (freeq (fst (mm s))) /\ Forall (fun k => 0 < k) (freeq (fst (mm s)));
  co_slot i x : cache s !! i = Some x -> c_valid x <> 0 ->
    (exists k, c_phys x = k * 4096 /\ (k ∉ freeq (fst (mm s)))) /\
    exists pg bs, F (c_ino x) (c_pgoff x) = Some pg /\ fbytes s !! c_phys x = Some bs /\ length bs = Z.to_nat 4096 /\ pg `prefix_of` bs;
  co_phys i j x y : cache s !! i = Some x -> cache s !! j = Some y -> c_valid x <> 0 -> c_valid y <> 0 ->
    c_phys x = c_phys y -> i = j;
  co_bytes q bs : fbytes s !! q = Some bs -> length bs = Z.to_nat 4096;
}.

(** The super block's readpage operation delivers the pages of the file [ino]; [Dok] is an
    invariant of the device. *)
Definition delivers (Dok : W -> Prop) (ino : Z) (rp : Z -> Z -> list Z -> W -> Z * list Z * W) : Prop :=
  forall pgoff tier old w, 0 <= pgoff < 2 ^ 20 -> Dok w -> length old = Z.to_nat 4096 ->
    exists r bs w', rp pgoff tier old w = (r, bs, w') /\ Dok w' /\ length bs = Z.to_nat 4096 /\
      match F ino pgoff with Some pg => 0 <= r /\ pg `prefix_of` bs | None => r < 0 end.

Definition cached s (ino pgoff : Z) : bool := negb (page_cache_find (cache s) ino pgoff =? PAGE_CACHE_SIZE)%nat.
Definition cache_full s : bool := (page_cache_alloc_slot (cache s) =? PAGE_CACHE_SIZE)%nat.

Lemma hit_ok s i x tier :
  cache_ok s -> cache s !! i = Some x -> cache_ok (s <| cache := <[i := x <| c_tier := tier |>]> (cache s) |>).
Proof.
  intros [Hl Hf Hs Hp Hb] Hi.
  assert (Hx : forall j y, <[i := x <| c_tier := tier |>]> (cache s) !! j = Some y ->
    exists z, cache s !! j = Some z /\ (c_ino y, c_pgoff y, c_phys y, c_valid y) = (c_ino z, c_pgoff z, c_phys z, c_valid z)).
  { intros j y [(-> & <- & _)|[_ ?]]%list_lookup_insert_Some; [by exists x|by exists y]. }
  split; cbn [cache fbytes mm set_field eta_pcache]; try done.
  - by rewrite length_insert.
  - intros j y (z & Hz & [= E1 E2 E3 E4])%Hx. rewrite E1, E2, E3, E4. eauto.
  - intros j j' y y' (z & Hz & [= E1 E2 E3 E4])%Hx (z' & Hz' & [= F1 F2 F3 F4])%Hx. rewrite E3, E4, F3, F4. eauto.
Qed.

Lemma fill_ok s i x k q m bs pg ino pgoff tier w :
  cache_ok s -> cache s !! i = Some x -> c_valid x = 0 -> freeq (fst (mm s)) = k :: q -> freeq (fst m) = q ->
  F ino pgoff = Some pg -> pg `prefix_of` bs -> length bs = Z.to_nat 4096 ->
  cache_ok (s <| mm := m |> <| dev := w |> <| fbytes := <[k * 4096 := bs]> (fbytes s) |>
              <| cache := <[i := mk_slot ino pgoff (k * 4096) 1 tier]> (cache s) |>).
Proof.
  intros [Hl [Hf1 Hf2] Hs Hp Hb] Hi Hv Hk Hq HF Hpg Hbs. rewrite Hk in *. apply NoDup_cons in Hf1 as [Hkq Hf1].
  apply Forall_cons in Hf2 as [Hk0 Hf2].
  assert (Hold : forall j y, cache s !! j = Some y -> c_valid y <> 0 -> c_phys y <> k * 4096).
  { intros j y Hj Hy E. destruct (Hs j y Hj Hy) as [(k' & Ek & Hn) _]. apply Hn. replace k' with k by lia. left. }
  split; cbn [cache fbytes mm set_field eta_pcache].
  - by rewrite length_insert.
  - by rewrite Hq.
  - intros j y [(-> & <- & _)|[Hne Hj]]%list_lookup_insert_Some Hy; cbn [c_ino c_pgoff c_phys].
    + split; [exists k; split; [done|by rewrite Hq]|]. exists pg, bs. rewrite lookup_insert_eq. done.
    + destruct (Hs j y Hj Hy) as [(k' & Ek & Hn) (pg' & bs' & ? & ? & ? & ?)]. rewrite Hq. split.
      * exists k'. split; [done|]. intros Hin. apply Hn. by right.
      * exists pg', bs'. rewrite lookup_insert_ne by (symmetry; by eapply Hold). done.
  - intros j j' y y' [(-> & <- & _)|[Hne Hj]]%list_lookup_insert_Some [(-> & <- & _)|[Hne' Hj']]%list_lookup_insert_Some Hy Hy' E; cbn in *; eauto.
    + symmetry in E. by destruct (Hold j' y').
    + by destruct (Hold j y).
  - intros p b [[<- <-]|[_ ?]]%lookup_insert_Some; eauto.
Qed.

Lemma frame_len s ph : cache_ok s -> length (default zero_page (fbytes s !! ph)) = Z.to_nat 4096.
Proof.
  intros Hs. destruct (fbytes s !! ph) as [bs|] eqn:E; cbn [default id]; [by eapply co_bytes|].
  unfold zero_page. apply length_replicate.
Qed.

Lemma free_frame_queue k p :
  freeq (free_page_frame (k * 4096) p) = freeq p \/ freeq (free_page_frame (k * 4096) p) = k :: freeq p.
Proof.
  assert (Hk : Z.shiftr (k * 4096) 12 = k).
  { rewrite Z.shiftr_div_pow2 by lia. change (2 ^ 12) with 4096. by rewrite Z.div_mul. }
  assert (Hf : forall p, freeq (free_phys_page (k * 4096) p) = freeq p \/ freeq (free_phys_page (k * 4096) p) = k :: freeq p).
  { intros q. unfold free_phys_page. rewrite Hk. destruct (_ && _)%bool; [by right|by left]. }
  unfold free_page_frame. rewrite Hk. destruct (k <? NUM_PAGES); [|apply Hf].
  destruct (0 <? rd (ref_count p) k).
  - destruct (0 <? _); [by left|].
    destruct (Hf (p <| ref_count := wr (ref_count p) k (rd (ref_count p) k - 1) |>)) as [->| ->]; [by left|by right].
  - destruct (0 <? _); [by left|]. apply Hf.
Qed.

Lemma fail_ok s k q m bs w :
  cache_ok s -> freeq (fst (mm s)) = k :: q -> freeq (fst m) = q \/ freeq (fst m) = k :: q ->
  length bs = Z.to_nat 4096 ->
  cache_ok (s <| mm := m |> <| dev := w |> <| fbytes := <[k * 4096 := bs]> (fbytes s) |>).
Proof.
  intros [Hl [Hf1 Hf2] Hs Hp Hb] Hk Hq Hbs. rewrite Hk in *.
  assert (Hsub : forall x, x ∈ freeq (fst m) -> x ∈ k :: q) by (destruct Hq as [->| ->]; set_solver).
  split; cbn [cache fbytes mm set_field eta_pcache]; try done.
  - destruct Hq as [->| ->]; [|done]. by apply NoDup_cons in Hf1 as [_ ?]; apply Forall_cons in Hf2 as [_ ?].
  - intros j y Hj Hy. destruct (Hs j y Hj Hy) as [(k' & Ek & Hn) (pg' & bs' & ? & ? & ? & ?)]. split.
    + exists k'. auto.
    + exists pg', bs'. rewrite lookup_insert_ne; [done|]. rewrite Ek. intros E. apply Hn. replace k' with k by lia. left.
  - intros p b [[<- <-]|[_ ?]]%lookup_insert_Some; eauto.
Qed.

Lemma cached_iff s ino pgoff : length (cache s) = PAGE_CACHE_SIZE ->
  cached s ino pgoff = true <-> exists i x, cache s !! i = Some x /\ c_valid x <> 0 /\ c_ino x = ino /\ c_pgoff x = pgoff.
Proof.
  intros Hl. unfold cached. rewrite negb_true_iff, Nat.eqb_neq. pose proof (cache_find_spec (cache s) ino pgoff) as Hf.
  destruct (cache s !! _) as [x|] eqn:E.
  - split; [by eauto 10|]. intros _ Hn. rewrite Hn, <- Hl in E. by rewrite lookup_ge_None_2 in E by lia.
  - destruct Hf as [-> Hf]. split; [by rewrite Hl|]. intros (i & y & Hi & Hv & Hk). by destruct (Hf i y).
Qed.

(** Free slots. *)
Definition slots_left s : nat := length (filter (fun x => c_valid x = 0) (cache s)).
Definition frames_left s : nat := length (freeq (fst (mm s))).

Lemma insert_filter_length (c : list page_cache_slot) i x y : c !! i = Some x -> c_valid x = 0 -> c_valid y <> 0 ->
  length (filter (fun x => c_valid x = 0) c) = S (length (filter (fun x => c_valid x = 0) (<[i := y]> c))).
Proof.
  intros Hi Hx Hy. revert i Hi. induction c as [|z c IH]; intros [|i] Hi; [done..| |]; cbn [lookup list_lookup] in Hi; cbn [insert list_insert].
  - injection Hi as ->. rewrite !filter_cons. by rewrite decide_True, decide_False.
  - change (list_insert i y c) with (<[i := y]> c). rewrite !filter_cons. case_decide; [cbn; f_equal|]; by apply IH.
Qed.

(** The outcome of [readpage]. *)
Definition page_read s s' (ino pgoff : Z) (bs : list Z) : Prop :=
  (exists pg, F ino pgoff = Some pg /\ pg `prefix_of` bs /\ length bs = Z.to_nat 4096) /\
  cached s' ino pgoff = true /\
  if cached s ino pgoff then dev s' = dev s /\ mm s' = mm s /\ slots_left s' = slots_left s
  else slots_left s = S (slots_left s') /\ frames_left s = S (frames_left s').

(** What a miss needs. *)
Definition can_fill s (ino pgoff : Z) : bool :=
  match F ino pgoff with
  | None => false
  | Some _ => negb (cache_full s) && negb (frames_left s =? 0)%nat
  end.

Lemma cache_full_iff s : length (cache s) = PAGE_CACHE_SIZE -> cache_full s = (slots_left s =? 0)%nat.
Proof.
  intros Hl. unfold cache_full, slots_left. pose proof (alloc_slot_spec (cache s)) as Ha.
  destruct (cache s !! _) as [x|] eqn:E.
  - assert (page_cache_alloc_slot (cache s) < length (cache s))%nat by (by eapply lookup_lt_Some).
    rewrite (proj2 (Nat.eqb_neq _ _)) by lia. symmetry. apply Nat.eqb_neq.
    rewrite (insert_filter_length _ _ _ (mk_slot 0 0 0 1 0) E) by done. lia.
  - destruct Ha as [-> Ha]. rewrite Hl, Nat.eqb_refl. symmetry. apply Nat.eqb_eq.
    clear Hl E. induction Ha as [|y c Hy Hc IH]; [done|]. by rewrite filter_cons, decide_False.
Qed.

Lemma slots_tier s i x tier : cache s !! i = Some x ->
  slots_left (s <| cache := <[i := x <| c_tier := tier |>]> (cache s) |>) = slots_left s.
Proof.
  unfold slots_left. cbn [cache set_field eta_pcache]. generalize (cache s). intros c. revert i.
  induction c as [|z c IH]; intros [|i] Hi; [done..| |]; cbn [lookup list_lookup] in Hi; cbn [insert list_insert].
  - injection Hi as ->. rewrite !filter_cons. repeat case_decide; cbn [c_valid set_field eta_slot] in *; done.
  - change (list_insert i ?y c) with (<[i := y]> c). rewrite !filter_cons. case_decide; [cbn; f_equal|]; by apply IH.
Qed.

Lemma readpage_spec Dok rp ino pgoff tier s :
  0 <= pgoff < 2 ^ 20 -> cache_ok s -> delivers Dok ino rp -> Dok (dev s) ->
  exists r bs s', readpage (Some rp) ino pgoff tier s = (r, bs, s') /\ cache_ok s' /\ Dok (dev s') /\
    (forall ino' pg, cached s ino' pg = true -> cached s' ino' pg = true) /\
    if cached s ino pgoff || can_fill s ino pgoff then r = 4096 /\ page_read s s' ino pgoff bs
    else r = -1 /\ cache s' = cache s.
Proof.
  intros Hpg Hs Hrp Hd. pose proof (co_len _ Hs) as Hl. unfold readpage. fold (cached s ino pgoff). unfold page_read.
  pose proof (cached_iff s ino pgoff Hl) as Hc. pose proof (cache_find_spec (cache s) ino pgoff) as Hf.
  destruct (cached s ino pgoff) eqn:Ec; cbn [orb].
  { destruct (cache s !! page_cache_find (cache s) ino pgoff) as [x|] eqn:Ex.
    2:{ destruct Hf as [E _]. unfold cached in Ec. rewrite E, Hl in Ec. done. }
    cbn [from_option id]. pose proof (hit_ok s _ x tier Hs Ex) as Hok. destruct Hf as (Hv & Hi & Hp).
    destruct (co_slot _ Hs _ _ Ex Hv) as (_ & pg & bs & HF & Hb & Hlb & Hpre). rewrite Hi, Hp in HF.
    eexists _, _, _. split; [done|]. split; [done|]. split; [done|].
    assert (Hmono : forall ino' pg, cached s ino' pg = true ->
      cached (s <| cache := <[page_cache_find (cache s) ino pgoff := x <| c_tier := tier |>]> (cache s) |>) ino' pg = true).
    { intros ino' pg'. rewrite (cached_iff s) by done. rewrite cached_iff by apply Hok.
      intros (i & y & Hy & Hyv & Hyk). destruct (decide (i = page_cache_find (cache s) ino pgoff)) as [->|Hne].
      - exists (page_cache_find (cache s) ino pgoff), (x <| c_tier := tier |>). cbn [cache set_field eta_pcache].
        rewrite list_lookup_insert_eq by (by eapply lookup_lt_Some). rewrite Ex in Hy. by injection Hy as <-.
      - exists i, y. cbn [cache set_field eta_pcache]. by rewrite list_lookup_insert_ne. }
    split; [done|]. split; [done|]. split; [|split; [auto|]].
    - exists pg. cbn [fbytes set_field eta_pcache]. rewrite Hb. done.
    - split; [done|]. split; [done|]. by apply slots_tier. }
  unfold can_fill. pose proof (alloc_slot_spec (cache s)) as Ha. fold (cache_full s). destruct (cache_full s) eqn:Efull.
  { exists (-1), [], s. destruct (F ino pgoff); splits; done. }
  assert (exists x, cache s !! page_cache_alloc_slot (cache s) = Some x) as [x Ex].
  { destruct (cache s !! page_cache_alloc_slot (cache s)) eqn:E; [eauto|]. destruct Ha as [Ha _]. unfold cache_full in Efull. by rewrite Ha, Hl in Efull. }
  rewrite Ex in Ha. destruct (mm s) as [p sc] eqn:Em. destruct (freeq p) as [|k q] eqn:Eq.
  { destruct (alloc_frame_nil p sc Eq) as (m & Hm & Hm0). rewrite Hm. cbn [Z.eqb].
    eexists _, _, _. split; [done|]. split.
    - destruct Hs as [H1 H2 H3 H4 H5]. rewrite Em in H2, H3. cbn [fst] in H2, H3. rewrite Eq in H2, H3.
      split; cbn [cache fbytes mm set_field eta_pcache]; try done; by rewrite Hm0.
    - unfold frames_left. rewrite Em. cbn [fst]. rewrite Eq. cbn. by destruct (F ino pgoff). }
  assert (Hk : 0 < k).
  { destruct Hs as [_ [_ H2] _ _ _]. rewrite Em in H2. cbn [fst] in H2. rewrite Eq in H2. by apply Forall_cons in H2 as [? _]. }
  destruct (alloc_frame_cons p sc k q Eq Hk) as (p' & Hm & Hq'). rewrite Hm.
  destruct (Z.eqb_spec (k * 4096) 0) as [?|_]; [lia|].
  assert (Eqs : freeq (fst (mm s)) = k :: q) by (by rewrite Em).
  destruct (Hrp pgoff tier (default zero_page (fbytes s !! (k * 4096))) (dev s) Hpg Hd (frame_len _ _ Hs)) as (r & bs & w' & Hr & Hd' & Hlb & HF).
  cbn [fbytes dev set_field eta_pcache mm cache fst snd]. rewrite Hr. destruct (F ino pgoff) as [pg|] eqn:EF.
  - destruct HF as [Hr0 Hpre]. destruct (Z.ltb_spec r 0) as [?|_]; [lia|].
    pose proof (fill_ok s _ x k q (p', sc) bs pg ino pgoff tier w' Hs Ex Ha Eqs Hq' EF Hpre Hlb) as Hok.
    eexists _, _, _. split; [done|]. split; [done|]. split; [done|]. split.
    { intros ino' pg'. rewrite (cached_iff s) by done. rewrite cached_iff by apply Hok. intros (i & y & Hy & Hyv & Hyk).
      exists i, y. cbn [cache set_field eta_pcache]. rewrite list_lookup_insert_ne; [done|]. intros <-. congruence. }
    unfold frames_left. rewrite Em. cbn [fst]. rewrite Eq. cbn [length Nat.eqb negb andb]. split; [done|]. split; [by exists pg|]. split.
    + apply cached_iff; [apply Hok|]. exists (page_cache_alloc_slot (cache s)), (mk_slot ino pgoff (k * 4096) 1 tier).
      cbn [cache set_field eta_pcache]. rewrite list_lookup_insert_eq by (by eapply lookup_lt_Some). done.
    + cbn [mm set_field eta_pcache fst]. rewrite Hq'. split; [|done].
      unfold slots_left. cbn [cache set_field eta_pcache]. by rewrite <- (insert_filter_length (cache s) _ x).
  - destruct (Z.ltb_spec r 0) as [_|?]; [|lia]. eexists _, _, _. split; [done|]. split.
    + apply (fail_ok s k q (free_page_frame (k * 4096) p', sc) bs w'); try done. cbn [fst]. rewrite <- Hq'. apply free_frame_queue.
    + done.
Qed.
End cache.

(** ** Slices of a file *)

Definition slice (d : list Z) (a b : Z) : list Z := take (Z.to_nat (b - a)) (drop (Z.to_nat a) d).

Lemma slice_app d a b c : 0 <= a <= b -> b <= c -> slice d a b ++ slice d b c = slice d a c.
Proof.
  intros Hab Hbc. unfold slice. replace (Z.to_nat b) with (Z.to_nat a + Z.to_nat (b - a))%nat by lia.
  rewrite <- drop_drop, take_take_drop. f_equal. lia.
Qed.

Lemma slice_slice d a b u v : 0 <= a -> 0 <= u -> v <= b - a -> slice (slice d a b) u v = slice d (a + u) (a + v).
Proof.
  intros Ha Hu Hv. unfold slice. rewrite skipn_firstn_comm, drop_drop, take_take. f_equal; [lia|]. f_equal. lia.
Qed.

Lemma slice_length d a b : 0 <= a <= b -> b <= strlen d -> strlen (slice d a b) = b - a.
Proof. intros Ha Hb. unfold slice, strlen in *. rewrite length_take, length_drop. lia. Qed.

Lemma slice_prefix d e a b : d `prefix_of` e -> 0 <= a -> b <= strlen d -> slice e a b = slice d a b.
Proof.
  intros [t ->] Ha Hb. unfold slice, strlen in *. destruct (decide (a <= b)) as [Hab|Hab].
  - rewrite drop_app_le by lia. rewrite take_app_le; [done|]. rewrite length_drop. lia.
  - by replace (Z.to_nat (b - a)) with 0%nat by lia.
Qed.

(** The pages of a file. *)
Definition page_of (d : list Z) (pg : Z) : option (list Z) :=
  if pg * 4096 <? strlen d then Some (slice d (pg * 4096) (Z.min (strlen d) (pg * 4096 + 4096))) else None.

(** ** tarfs_readpage delivers the pages of a file of the archive *)

(** [read] returns the sectors of the archive [img]. *)
Definition reads_image {W} (img : list Z) (Dok : W -> Prop) (read : Z -> Z -> Z -> W -> Z * list Z * W) : Prop :=
  forall lba nsec tier w, Dok w -> 0 <= lba -> 0 <= nsec -> (lba + nsec) * 512 <= strlen img ->
    exists w', read lba nsec tier w = (0, slice img (lba * 512) ((lba + nsec) * 512), w') /\ Dok w'.

(** A file of [size] bytes at [offset], padded to a whole number of sectors. *)
Definition file_at (img : list Z) (offset size : Z) : Prop :=
  0 <= offset /\ offset mod 512 = 0 /\ 0 <= size /\ offset + (size + 511) / 512 * 512 <= strlen img < 2 ^ 31.

Lemma tarfs_delivers {W} F img Dok (read : Z -> Z -> Z -> W -> Z * list Z * W) ino offset size :
  reads_image img Dok read -> file_at img offset size ->
  (forall pg, F ino pg = page_of (slice img offset (offset + size)) pg) ->
  delivers F Dok ino (tarfs_readpage read offset size).
Proof.
  intros Hread (Ho & Hal & Hsz & Hfit) HF pgoff tier old w Hpg Hw Hold. rewrite HF.
  assert (Hlen : strlen (slice img offset (offset + size)) = size) by (rewrite slice_length by zmod; lia).
  unfold tarfs_readpage, page_of. rewrite Hlen.
  rewrite (wrap32_small (pgoff * 4096)) by lia. destruct (Z.leb_spec size (pgoff * 4096)) as [Hp|Hp].
  { destruct (Z.ltb_spec (pgoff * 4096) size) as [?|_]; [lia|]. by eexists _, _, _. }
  destruct (Z.ltb_spec (pgoff * 4096) size) as [_|?]; [|lia].
  rewrite (wrap32_small (pgoff * 4096 + 4096)), (wrap32_small (offset + pgoff * 4096)) by zmod.
  set (count := if size <? pgoff * 4096 + 4096 then size - pgoff * 4096 else 4096).
  assert (Hc : count = Z.min size (pgoff * 4096 + 4096) - pgoff * 4096 /\ 0 < count <= 4096)
    by (unfold count; destruct (Z.ltb_spec size (pgoff * 4096 + 4096)); lia).
  destruct Hc as [Ec Hc]. clearbody count.
  assert (Hdiv : (offset + pgoff * 4096) / 512 * 512 = offset + pgoff * 4096) by zmod.
  destruct (Hread ((offset + pgoff * 4096) / 512) ((count + 511) / 512) tier w) as (w' & -> & Hw'); try done; try zmod.
  cbn [Z.eqb negb]. eexists _, _, _. split; [done|]. split; [done|].
  rewrite Z.mul_add_distr_r, Hdiv. set (bs := slice img _ _).
  assert (Hbs : strlen bs = (count + 511) / 512 * 512) by (unfold bs; rewrite slice_length by zmod; lia).
  split; [|split; [lia|]].
  - rewrite length_app, length_drop. unfold strlen in Hbs. zmod.
  - rewrite slice_slice by lia. apply prefix_app_r. exists (drop (Z.to_nat count) bs).
    rewrite <- (take_drop (Z.to_nat count) bs) at 1. f_equal. unfold bs, slice.
    rewrite take_take. f_equal. zmod.
Qed.

(** ** Reading a file *)

Lemma filter_length_mono {A} (P Q : A -> bool) (l : list A) :
  (forall x, x ∈ l -> P x = true -> Q x = true) -> (length (List.filter P l) <= length (List.filter Q l))%nat.
Proof.
  induction l as [|x l IH]; intros HPQ; [done|]. cbn. specialize (IH ltac:(intros; apply HPQ; [by right|done])).
  destruct (P x) eqn:E; [rewrite HPQ by (done || left); cbn; lia|]. destruct (Q x); cbn; lia.
Qed.

Lemma filter_length_strict {A} (P Q : A -> bool) (l : list A) y :
  (forall x, x ∈ l -> P x = true -> Q x = true) -> y ∈ l -> P y = false -> Q y = true ->
  (length (List.filter P l) < length (List.filter Q l))%nat.
Proof.
  induction l as [|x l IH]; intros HPQ Hy HP HQ; [by apply elem_of_nil in Hy|]. cbn.
  pose proof (filter_length_mono P Q l ltac:(intros; apply HPQ; [by right|done])) as Hle.
  apply elem_of_cons in Hy as [->|Hy]; [rewrite HP, HQ; cbn; lia|].
  specialize (IH ltac:(intros; apply HPQ; [by right|done]) Hy HP HQ).
  destruct (P x) eqn:E; [rewrite HPQ by (done || left); cbn; lia|]. destruct (Q x); cbn; lia.
Qed.

Section read.
Context {W : Type}.
Implicit Types s : pcache W.
Variable F : Z -> Z -> option (list Z).
Variable Dok : W -> Prop.
Variables (ino : Z) (d : list Z) (rp : Z -> Z -> list Z -> W -> Z * list Z * W).
Hypothesis HF : forall pg, F ino pg = page_of d pg.
Hypothesis Hrp : delivers F Dok ino rp.
Hypothesis Hd : strlen d < 2 ^ 32.
Variables (a n : Z).
Hypothesis Ha : 0 <= a.
Hypothesis Hn : 0 <= n.
Hypothesis Hfit : (a + n - 1) * 4096 < strlen d.

Definition rd_page : Z -> pcache W -> Z * list Z * pcache W := fun pg => readpage (Some rp) ino pg TIER_KERNEL.

(** The pages of the range that are not cached. *)
Definition missing s : nat := length (List.filter (fun pg => negb (cached s ino pg)) (seqZ a n)).

Record ready s : Prop := {
  rdy_cache : cache_ok F s;
  rdy_dev : Dok (dev s);
  rdy_slots : (missing s <= slots_left s)%nat;
  rdy_frames : (missing s <= frames_left s)%nat;
}.

Lemma rd_in_range s pg : ready s -> a <= pg < a + n ->
  exists bs s', rd_page pg s = (4096, bs, s') /\ ready s' /\
    slice d (pg * 4096) (Z.min (strlen d) (pg * 4096 + 4096)) `prefix_of` bs.
Proof.
  intros [Hc Hw Hs Hf] Hpg.
  destruct (readpage_spec F Dok rp ino pg TIER_KERNEL s) as (r & bs & s' & Hr & Hc' & Hw' & Hmono & Hres); try done; [lia|].
  assert (Hok : cached s ino pg || can_fill F s ino pg = true).
  { destruct (cached s ino pg) eqn:Ec; [done|]. cbn [orb]. unfold can_fill. rewrite HF. unfold page_of.
    destruct (Z.ltb_spec (pg * 4096) (strlen d)) as [_|?]; [|lia].
    rewrite cache_full_iff by apply Hc.
    assert (0 < missing s)%nat.
    { unfold missing. destruct (List.filter _ _) eqn:E; [|cbn; lia]. exfalso.
      assert (Hin : In pg (List.filter (fun pg => negb (cached s ino pg)) (seqZ a n))).
      { apply filter_In. rewrite Ec. split; [|done]. apply list_elem_of_In, elem_of_seqZ. lia. }
      by rewrite E in Hin. }
    destruct (slots_left s) eqn:E1; [lia|]. destruct (frames_left s) eqn:E2; [lia|]. done. }
  rewrite Hok in Hres. destruct Hres as (-> & (pgd & Hpgd & Hpre & Hlb) & Hcs & Hroom). unfold rd_page. rewrite Hr.
  exists bs, s'. split; [done|]. split; [|].
  - assert (Hsub : forall x, x ∈ seqZ a n -> negb (cached s' ino x) = true -> negb (cached s ino x) = true).
    { intros x _. destruct (cached s ino x) eqn:E; [by rewrite (Hmono _ _ E)|done]. }
    assert (Hlt : cached s ino pg = false -> (missing s' < missing s)%nat).
    { intros Ec. apply (filter_length_strict _ _ _ pg Hsub); [apply elem_of_seqZ; lia|by rewrite Hcs|by rewrite Ec]. }
    pose proof (filter_length_mono _ _ _ Hsub : (missing s' <= missing s)%nat) as Hle.
    destruct (cached s ino pg); [|specialize (Hlt eq_refl)]; split; try done; try lia.
    destruct Hroom as (_ & Hm & _). unfold frames_left in *. rewrite Hm. lia.
  - rewrite HF in Hpgd. unfold page_of in Hpgd. destruct (_ <? _); [|done]. by injection Hpgd as <-.
Qed.

Lemma readahead_ready m pg s : ready s -> a <= pg -> ready (readahead m rd_page pg (a + n) s).
Proof.
  revert pg s. induction m as [|m IH]; intros pg s Hs Hpg; [done|]. cbn [readahead].
  destruct (Z.ltb_spec pg (a + n)) as [Hlt|_]; [|done].
  destruct (rd_in_range s pg Hs) as (bs & s' & -> & Hs' & _); [lia|]. apply IH; [done|lia].
Qed.

Lemma read_loop_spec off len m pg last s :
  a = off / 4096 -> a + n = (off + len + 4095) / 4096 -> 0 <= off -> 0 < len -> off + len <= strlen d ->
  pg + Z.of_nat m = a + n -> a <= pg -> ready s ->
  exists last' s',
    tarfs_read_loop m rd_page off len pg (a + n) last (slice d off (Z.max off (Z.min (pg * 4096) (off + len)))) s =
      (slice d off (off + len), last', s') /\ ready s'.
Proof.
  intros Ea En Hoff Hlen Hsz. revert pg last s. induction m as [|m IH]; intros pg last s Hm Hpg Hs; cbn [tarfs_read_loop].
  - eexists _, _. split; [|done]. repeat f_equal. zmod.
  - destruct (rd_in_range s pg Hs) as (bs & s' & -> & Hs' & Hpre); [lia|]. change (4096 <? 0) with false. cbv iota.
    assert (Hacc : slice d off (Z.max off (Z.min (pg * 4096) (off + len))) ++
      (let page_off := if pg =? off / 4096 then off mod 4096 else 0 in
       let page_len := 4096 - page_off in
       let total := strlen (slice d off (Z.max off (Z.min (pg * 4096) (off + len)))) in
       let page_len := if len - total <? page_len then len - total else page_len in
       take (Z.to_nat page_len) (drop (Z.to_nat page_off) bs)) =
      slice d off (Z.max off (Z.min ((pg + 1) * 4096) (off + len)))).
    { cbv zeta. rewrite slice_length by lia.
      set (po := if pg =? off / 4096 then off mod 4096 else 0).
      assert (Hpo : pg * 4096 + po = Z.max off (Z.min (pg * 4096) (off + len)) /\ 0 <= po < 4096).
      { unfold po. destruct (Z.eqb_spec pg (off / 4096)); zmod. }
      destruct Hpo as [Hpo Hpo']. clearbody po.
      set (b := Z.max off (Z.min ((pg + 1) * 4096) (off + len))).
      set (pl := if _ <? _ then _ else _).
      assert (Hpl : po + pl = b - pg * 4096 /\ 0 <= pl).
      { unfold pl, b. rewrite <- Hpo. destruct (Z.ltb_spec (len - (pg * 4096 + po - off)) (4096 - po)); zmod. }
      destruct Hpl as [Hpl Hpl']. clearbody pl.
      replace (take (Z.to_nat pl) (drop (Z.to_nat po) bs)) with (slice bs po (po + pl))
        by (unfold slice; f_equal; lia).
      rewrite (slice_prefix _ bs _ _ Hpre) by (try rewrite slice_length; unfold b in *; zmod).
      rewrite slice_slice by (unfold b in *; zmod). rewrite Hpo, slice_app by (unfold b in *; lia). f_equal. lia. }
    cbv zeta in Hacc. rewrite Hacc. destruct last as [l|].
    + apply IH; [lia|lia|]. destruct (_ && _)%bool; [|done]. apply readahead_ready; [done|lia].
    + apply IH; [lia|lia|done].
Qed.
End read.

(** C38: the page cache is coherent.  If the file system's readpage operation delivers the
    pages of the file, [readpage] succeeds exactly when the page is cached, or the file has it
    and a slot and a frame are free; then the buffer starts with the bytes of the page and the
    page is cached, a hit touches neither the device nor the frames, and a miss takes one slot
    and one frame.  Otherwise it returns -1 and leaves the cache as it was (a full cache never
    gives up a page).  Pages cached before stay cached, and every slot holds the right page. *)
Theorem readpage_coherent {W} F Dok (rp : Z -> Z -> list Z -> W -> Z * list Z * W) ino pgoff tier s :
  0 <= pgoff < 2 ^ 20 -> cache_ok F s -> delivers F Dok ino rp -> Dok (dev s) ->
  exists r bs s', readpage (Some rp) ino pgoff tier s = (r, bs, s') /\ cache_ok F s' /\ Dok (dev s') /\
    (forall ino' pg, cached s ino' pg = true -> cached s' ino' pg = true) /\
    if cached s ino pgoff || can_fill F s ino pgoff then r = 4096 /\ page_read F s s' ino pgoff bs
    else r = -1 /\ cache s' = cache s.
Proof. apply readpage_spec. Qed.

(** C39: a tarfs file reads back its bytes.  On a device that never fails and returns the sectors of the
    archive, with a slot and a frame left for each page of the range that is not cached,
    [tarfs_read] returns exactly the bytes of the file from the position on, cut at the end of
    the file, and moves the position by their number, whatever is cached already and whatever
    the readahead brings in. *)
Theorem tarfs_read_exact {W} F img Dok (read : Z -> Z -> Z -> W -> Z * list Z * W) ino offset size off len last s :
  reads_image img Dok read -> file_at img offset size ->
  (forall pg, F ino pg = page_of (slice img offset (offset + size)) pg) ->
  0 <= off < 2 ^ 63 -> 0 <= len ->
  ready F Dok ino (off / 4096) ((Z.min size (off + len) + 4095) / 4096 - off / 4096) s ->
  exists bs last' s', tarfs_read (rd_page ino (tarfs_readpage read offset size)) size off len last s =
      (bs, off + strlen bs, last', s') /\
    bs = slice img (offset + off) (offset + Z.min size (off + len)) /\
    cache_ok F s' /\ Dok (dev s').
Proof.
  intros Hread Hfile HF Hoff Hlen Hs. pose proof (tarfs_delivers F img Dok read ino offset size Hread Hfile HF) as Hrp.
  destruct Hfile as (Ho & Hal & Hsz & Hfit).
  assert (Hd : strlen (slice img offset (offset + size)) = size) by (rewrite slice_length by zmod; lia).
  assert (Hfit' : offset + size <= strlen img) by zmod.
  unfold tarfs_read. set (len' := if _ <? len then _ else len).
  assert (Hl' : len' = Z.max 0 (Z.min size (off + len) - off)).
  { unfold len'. destruct (Z.ltb_spec off size); [destruct (Z.ltb_spec (size - off) len)|destruct (Z.ltb_spec 0 len)]; lia. }
  clearbody len'. destruct (Z.eqb_spec len' 0) as [E|E].
  { eexists [], _, _. split; [by rewrite Z.add_0_r|]. split; [|by destruct Hs].
    unfold slice. by replace (Z.to_nat _) with 0%nat by lia. }
  assert (Hle : 0 < len' /\ off + len' <= size) by lia.
  replace (Z.min size (off + len)) with (off + len') in * by lia.
  set (n := (off + len' + 4095) / 4096 - off / 4096) in *.
  assert (Hend : (off + len' + 4095) / 4096 = off / 4096 + n) by (unfold n; lia). rewrite Hend.
  assert (Hn : (off / 4096 + n - 1) * 4096 < off + len' /\ 0 <= n).
  { assert (0 < len') by lia. unfold n. clear - Hoff H. zmod. }
  destruct (read_loop_spec F Dok ino (slice img offset (offset + size)) (tarfs_readpage read offset size) HF Hrp
    ltac:(lia) (off / 4096) n ltac:(apply Z.div_pos; lia) ltac:(lia) off len' (Z.to_nat n) (off / 4096) last s)
    as (last' & s' & Hloop & Hs'); try done; try lia.
  replace (slice _ off (Z.max off _)) with (@nil Z) in Hloop.
  2:{ symmetry. unfold slice at 1. replace (Z.to_nat _) with 0%nat by zmod. done. }
  replace (off / 4096 + n - off / 4096) with n by lia. rewrite Hloop.
  rewrite slice_slice by lia. replace (offset + (off + len')) with (offset + off + len') in * by lia.
  eexists _, last', s'. split; [|split; [done|by destruct Hs']].
  rewrite Z.mod_small; [done|]. rewrite slice_length by zmod. lia.
Qed.

(** ** A small archive *)

Lemma cache_ok_empty {W} F fr (sc : sched) p (w : W) : freeq p = fr -> NoDup fr -> Forall (fun k => 0 < k) fr ->
  cache_ok F (mk_pcache (replicate PAGE_CACHE_SIZE empty_slot) ∅ (p, sc) w).
Proof.
  intros Hp Hn Hf. subst fr. split; cbn [cache fbytes mm fst]; try done.
  - intros i x [-> _]%lookup_replicate Hv. done.
  - intros i j x y [-> _]%lookup_replicate _ Hv. done.
Qed.

Definition demo_archive : list Z := replicate 512 0 ++ [80; 111; 107; 117] ++ replicate 508 0.
Definition demo_read (lba nsec tier : Z) (w : list Z) : Z * list Z * list Z :=
  (0, slice w (lba * 512) ((lba + nsec) * 512), w).
Definition demo_pages (ino pg : Z) : option (list Z) := page_of (slice demo_archive 512 516) pg.
Definition demo_cache : pcache (list Z) :=
  mk_pcache (replicate PAGE_CACHE_SIZE empty_slot) ∅
    (mk_paging ∅ [1024; 1025] ∅ ∅ 0, mk_sched ∅ ∅ ∅ IDLE 1 0 0x100000 0) demo_archive.

Lemma demo_reads : reads_image demo_archive (fun w => w = demo_archive) demo_read.
Proof. intros lba nsec tier w -> _ _ _. by exists demo_archive. Qed.

Lemma demo_file : file_at demo_archive 512 4.
Proof. unfold file_at. vm_compute. splits; done. Qed.

Lemma demo_cache_ok : cache_ok demo_pages demo_cache.
Proof.
  apply (cache_ok_empty _ [1024; 1025]); [done| |repeat constructor].
  apply (bool_decide_unpack _). exact I.
Qed.

Lemma readpage_coherent_witness :
  cache_ok demo_pages demo_cache /\
  exists bs s', readpage (Some (tarfs_readpage demo_read 512 4)) 7 0 TIER_KERNEL demo_cache = (4096, bs, s') /\
    cached s' 7 0 = true.
Proof.
  split; [exact demo_cache_ok|].
  destruct (readpage_coherent demo_pages (fun w => w = demo_archive) (tarfs_readpage demo_read 512 4) 7 0 TIER_KERNEL demo_cache)
    as (r & bs & s' & Hr & _ & _ & _ & Hres).
  - lia.
  - exact demo_cache_ok.
  - apply (tarfs_delivers demo_pages demo_archive); [exact demo_reads|exact demo_file|done].
  - done.
  - destruct Hres as (Hr0 & _ & Hc & _). exists bs, s'. rewrite <- Hr0. split; [exact Hr|exact Hc].
Defined.

Lemma tarfs_read_exact_witness :
  file_at demo_archive 512 4 /\
  exists last' s', tarfs_read (rd_page 7 (tarfs_readpage demo_read 512 4)) 4 1 100 (Some 0) demo_cache =
    ([111; 107; 117], 4, last', s').
Proof.
  split; [exact demo_file|].
  destruct (tarfs_read_exact demo_pages demo_archive (fun w => w = demo_archive) demo_read 7 512 4 1 100 (Some 0) demo_cache)
    as (bs & last' & s' & Hr & Hbs & _).
  - exact demo_reads.
  - exact demo_file.
  - done.
  - lia.
  - lia.
  - split; [exact demo_cache_ok|done|vm_compute; lia|vm_compute; lia].
  - exists last', s'. rewrite Hr, Hbs. reflexivity.
Defined.
