(* ===== verification/UserMem.v ===== *)
(** * Access to user memory (parts of src/kernel/process.c and src/kernel/syscall.c)

    Bytes are taken out of the words of physical memory (little endian).  The code checks a
    user address by looking at the page-directory and page-table entries through the
    recursive mapping before it follows the pointer; both go through [translate], so that a
    fault of the kernel is [None]. *)

From S2P Require Import Prelude LList Cstr Heap Task Paging.

Definition KERNEL_BASE : Z := 0xC0000000.

(** ** Bytes *)

Definition byte_of (w : Z) (k : Z) : Z := Z.land (Z.shiftr w (8 * k)) 0xFF.

(** The word [w] with byte [k] replaced. *)
Definition set_byte (w k b : Z) : Z :=
  Z.lor (Z.ldiff w (Z.shiftl 0xFF (8 * k))) (Z.shiftl (Z.land b 0xFF) (8 * k)).

Definition load8 (cr3 : Z) (p : paging) (v : Z) : option Z :=
  a ← translate cr3 (pmem p) v; Some (byte_of (rd (pmem p) (a - a mod 4)) (a mod 4)).

Definition store8 (cr3 v b : Z) (p : paging) : option paging :=
  a ← translate cr3 (pmem p) v;
  Some (p <| pmem := wr (pmem p) (a - a mod 4) (set_byte (rd (pmem p) (a - a mod 4)) (a mod 4) b) |>).

(** A word at any address. *)
Definition load32 (cr3 : Z) (p : paging) (v : Z) : option Z :=
  b0 ← load8 cr3 p v; b1 ← load8 cr3 p (v +w 1); b2 ← load8 cr3 p (v +w 2); b3 ← load8 cr3 p (v +w 3);
  Some (b0 + 2 ^ 8 * b1 + 2 ^ 16 * b2 + 2 ^ 24 * b3).

(** [memcpy] from and to user memory. *)
Fixpoint load_bytes (cr3 : Z) (p : paging) (v : Z) (n : nat) : option (list Z) :=
  match n with
  | O => Some []
  | S n' => b ← load8 cr3 p v; bs ← load_bytes cr3 p (v +w 1) n'; Some (b :: bs)
  end.

Fixpoint store_bytes (cr3 v : Z) (bs : list Z) (p : paging) : option paging :=
  match bs with
  | [] => Some p
  | b :: bs => p ← store8 cr3 v b p; store_bytes cr3 (v +w 1) bs p
  end.

(** A word as four bytes. *)
Definition word_bytes (w : Z) : list Z := byte_of w <$> [0; 1; 2; 3].

(** ** The checks *)

(** [(pd[i] & PTE_PRESENT) && (pt[j] & PTE_PRESENT) && (pt[j] & PTE_USER)] *)
Definition user_page (cr3 : Z) (p : paging) (v : Z) : option bool :=
  pde ← vload cr3 p (pd_slot (pd_index v));
  if negb (tst pde PTE_PRESENT) then Some false
  else
    pte ← vload cr3 p (pt_slot (pd_index v) (pt_index v));
    Some (tst pte PTE_PRESENT && tst pte PTE_USER).

(** [for (page = addr & ~0xFFF; page < end; page += 0x1000)] with [n] pages left. *)
Fixpoint range_loop (n : nat) (cr3 : Z) (p : paging) (page : Z) : option bool :=
  match n with
  | O => Some true
  | S n' => ok ← user_page cr3 p page; if (ok : bool) then range_loop n' cr3 p (page + 0x1000) else Some false
  end.

Definition user_range_valid (cr3 : Z) (p : paging) (addr len : Z) : option bool :=
  if len =? 0 then Some true
  else if KERNEL_BASE <=? addr then Some false
  else
    let end_ := addr +w len in
    if (end_ <? addr) || (KERNEL_BASE <? end_) then Some false
    else
      let page := Z.ldiff addr 0xFFF in
      range_loop (Z.to_nat ((end_ - page + 0xFFF) / 0x1000)) cr3 p page.

(** The loop of [copy_user_string] and [copy_user_path]: [n] characters may still be copied.
    [Some None]: -1. *)
Fixpoint copy_loop (n : nat) (cr3 : Z) (p : paging) (src : Z) : option (option (list Z)) :=
  match n with
  | O => Some (Some [])
  | S n' =>
      ok ← user_page cr3 p src;
      if negb ok then Some None
      else
        b ← load8 cr3 p src;
        if b =? 0 then Some (Some [])
        else r ← copy_loop n' cr3 p (src +w 1); Some (option_map (cons b) r)
  end.

Definition copy_user_string (cr3 : Z) (p : paging) (src maxlen : Z) : option (option (list Z)) :=
  if KERNEL_BASE <=? src then Some None else copy_loop (Z.to_nat (maxlen - 1)) cr3 p src.

(** [copy_user_path] of syscall.c has the same body. *)
Definition copy_user_path (cr3 : Z) (p : paging) (src maxlen : Z) : option (option (list Z)) :=
  if KERNEL_BASE <=? src then Some None else copy_loop (Z.to_nat (maxlen - 1)) cr3 p src.
