(* ===== verification/UserMemTheorems.v ===== *)
(** * User pointers are checked before they are followed *)

From S2P Require Import Prelude LList Cstr Heap Task Paging PagingInv UserMem.

(** The page of [v] is mapped for user mode. *)
Definition user_ok (cr3 : Z) (m : gmap Z Z) (v : Z) : bool :=
  let pde := rd m (cr3 + 4 * pd_index v) in
  tst pde PTE_PRESENT &&
  (let pte := rd m (Z.land pde FRAME_MASK + 4 * pt_index v) in tst pte PTE_PRESENT && tst pte PTE_USER).

Lemma user_page_ok cr3 p v : pt_wf cr3 (pmem p) -> 0 <= v < 2 ^ 32 -> user_page cr3 p v = Some (user_ok cr3 (pmem p) v).
Proof.
  intros Hw Hv. pose proof (pd_index_range v Hv) as Hi. pose proof (pt_index_range v) as Hj.
  unfold user_page, user_ok. rewrite vload_pd by done. cbn [mbind option_bind].
  destruct (pw_entry _ _ Hw _ Hi) as (f & fl & Hp). pose proof Hp as (E & Hf & Hfl).
  destruct (tst (rd (pmem p) (cr3 + 4 * pd_index v)) PTE_PRESENT) eqn:Et; cbn [negb andb]; [|done].
  rewrite (pde_tst _ _ _ f fl Hp) in Et.
  rewrite (vload_pt cr3 p _ _ f fl) by done. cbn [mbind option_bind]. rewrite E, entry_frame by done. done.
Qed.

(** A page that passes the check can be read without a fault. *)
Lemma user_ok_translate cr3 m v : user_ok cr3 m v = true -> is_Some (translate cr3 m v).
Proof.
  unfold user_ok, translate. cbv zeta. intros [H1 [H2 _]%andb_true_iff]%andb_true_iff. rewrite H1, H2. eauto.
Qed.

Lemma user_ok_load cr3 p v : user_ok cr3 (pmem p) v = true -> is_Some (load8 cr3 p v).
Proof. intros [a Ha]%user_ok_translate. unfold load8. rewrite Ha. eauto. Qed.

(** The answer is the same for all addresses of a page. *)
Lemma user_ok_page cr3 m v w : v / 4096 = w / 4096 -> user_ok cr3 m v = user_ok cr3 m w.
Proof.
  intros E. unfold user_ok. rewrite !pt_index_div, !pd_index_div.
  replace (2 ^ 22) with (4096 * 1024) by reflexivity. rewrite <- !Z.div_div by lia. by rewrite E.
Qed.

Lemma range_loop_spec n cr3 p k : pt_wf cr3 (pmem p) -> 0 <= k -> (k + Z.of_nat n) * 4096 <= 2 ^ 32 ->
  exists b, range_loop n cr3 p (k * 4096) = Some b /\
    (b = true <-> forall j, k <= j < k + Z.of_nat n -> user_ok cr3 (pmem p) (j * 4096) = true).
Proof.
  intros Hw. revert k. induction n as [|n IH]; intros k Hk Hn; cbn [range_loop].
  { exists true. split; [done|]. split; [lia|done]. }
  rewrite user_page_ok by (done || lia). cbn [mbind option_bind].
  destruct (user_ok cr3 (pmem p) (k * 4096)) eqn:E.
  - replace (k * 4096 + 0x1000) with ((k + 1) * 4096) by lia. destruct (IH (k + 1)) as (b & -> & Hb); [lia|lia|].
    exists b. split; [done|]. rewrite Hb. split; intros H j Hj; [|apply H; lia].
    destruct (decide (j = k)) as [->|]; [done|]. apply H. lia.
  - exists false. split; [done|]. split; [done|]. intros H. rewrite H in E by lia. done.
Qed.

Lemma ldiff_page a : Z.ldiff a 0xFFF = a / 4096 * 4096.
Proof.
  change 0xFFF with (Z.ones 12). rewrite Z.ldiff_ones_r by lia.
  by rewrite Z.shiftl_mul_pow2, Z.shiftr_div_pow2 by lia.
Qed.

Lemma load_bytes_ok cr3 p n v : 0 <= v -> v + Z.of_nat n <= KERNEL_BASE ->
  (forall w, v <= w < v + Z.of_nat n -> user_ok cr3 (pmem p) w = true) ->
  exists bs, load_bytes cr3 p v n = Some bs /\ length bs = n.
Proof.
  revert v. induction n as [|n IH]; intros v Hv Hk Hok; cbn [load_bytes]; [by exists []|].
  destruct (user_ok_load cr3 p v) as [b ->]; [apply Hok; lia|]. cbn [mbind option_bind].
  destruct n as [|n'].
  { cbn [load_bytes mbind option_bind]. by exists [b]. }
  unfold KERNEL_BASE in *. rewrite wrap32_small by lia. destruct (IH (v + 1)) as (bs & -> & Hl); [lia|lia|intros; apply Hok; lia|].
  cbn [mbind option_bind]. exists (b :: bs). split; [done|]. cbn. lia.
Qed.

(** The check accepts exactly the ranges mapped for user mode. *)
Lemma user_range_valid_exact cr3 p addr len :
  pt_wf cr3 (pmem p) -> 0 <= addr < 2 ^ 32 -> 0 <= len < 2 ^ 32 ->
  exists b, user_range_valid cr3 p addr len = Some b /\
    (b = true <-> len = 0 \/ addr + len <= KERNEL_BASE /\ forall v, addr <= v < addr + len -> user_ok cr3 (pmem p) v = true) /\
    (b = true -> exists bs, load_bytes cr3 p addr (Z.to_nat len) = Some bs /\ strlen bs = len).
Proof.
  intros Hw Ha Hl. unfold user_range_valid, KERNEL_BASE.
  destruct (Z.eqb_spec len 0) as [->|Hl0]. { exists true. splits; [done|tauto|]. by exists []. }
  assert (Hno : ~ (addr + len <= 0xC0000000) -> exists b, Some false = Some b /\
    (b = true <-> len = 0 \/ addr + len <= 0xC0000000 /\ forall v, addr <= v < addr + len -> user_ok cr3 (pmem p) v = true) /\
    (b = true -> exists bs, load_bytes cr3 p addr (Z.to_nat len) = Some bs /\ strlen bs = len)).
  { intros Hn. exists false. splits; [done| |done]. split; [done|]. tauto. }
  destruct (Z.leb_spec 0xC0000000 addr); [apply Hno; lia|].
  destruct (Z.ltb_spec (addr +w len) addr); cbn [orb]; [apply Hno; unfold wrap32 in *; zmod|].
  destruct (Z.ltb_spec 0xC0000000 (addr +w len)); [apply Hno; unfold wrap32 in *; zmod|].
  assert (E : addr +w len = addr + len) by (unfold wrap32 in *; zmod). rewrite E in *. rewrite ldiff_page.
  set (n := Z.to_nat _).
  assert (Hn : Z.of_nat n = (addr + len - 1) / 4096 - addr / 4096 + 1) by (unfold n; zmod).
  destruct (range_loop_spec n cr3 p (addr / 4096) Hw) as (b & -> & Hb); [zmod|zmod|].
  assert (Hiff : b = true <-> forall v, addr <= v < addr + len -> user_ok cr3 (pmem p) v = true).
  { rewrite Hb. split; intros Hf.
    - intros v Hv. rewrite (user_ok_page _ _ v (v / 4096 * 4096)) by zmod. apply Hf. zmod.
    - intros j Hj. destruct (decide (j = addr / 4096)) as [->|].
      + rewrite (user_ok_page _ _ _ addr) by zmod. apply Hf. lia.
      + apply Hf. zmod. }
  exists b. splits; [done|rewrite Hiff; split; [right; split; [lia|done]|tauto]|].
  intros Hbt. pose proof (proj1 Hiff Hbt) as Hall. destruct (load_bytes_ok cr3 p (Z.to_nat len) addr) as (bs & Hbs & Hlen).
  - lia.
  - unfold KERNEL_BASE. lia.
  - intros w Hw'. apply Hall. lia.
  - exists bs. split; [done|]. unfold strlen. lia.
Qed.

(** C15: [user_range_valid] is exact.  On well-formed page tables it never faults, and it
    accepts a range exactly when it is empty or lies below the kernel and every byte of it is
    on a page mapped for user mode; the bytes of an accepted range can be read without a
    fault. *)
Theorem user_range_valid_correct cr3 p addr len :
  pt_wf cr3 (pmem p) -> 0 <= addr < 2 ^ 32 -> 0 <= len < 2 ^ 32 ->
  exists b, user_range_valid cr3 p addr len = Some b /\
    (b = true <-> len = 0 \/ addr + len <= KERNEL_BASE /\ forall v, addr <= v < addr + len -> user_ok cr3 (pmem p) v = true) /\
    (b = true -> exists bs, load_bytes cr3 p addr (Z.to_nat len) = Some bs /\ strlen bs = len).
Proof. apply user_range_valid_exact. Qed.

(** ** Strings *)

(** The characters at [src], all on user pages and none of them NUL. *)
Definition user_chars (cr3 : Z) (p : paging) (src : Z) (s : list Z) : Prop :=
  forall i b, s !! i = Some b ->
    user_ok cr3 (pmem p) (src + Z.of_nat i) = true /\ load8 cr3 p (src + Z.of_nat i) = Some b /\ b <> 0.

(** What a copy of at most [n] characters returns. *)
Definition copy_result (cr3 : Z) (p : paging) (src : Z) (n : nat) (r : option (list Z)) : Prop :=
  match r with
  | Some s => user_chars cr3 p src s /\ (length s <= n)%nat /\
      (length s = n \/ load8 cr3 p (src + strlen s) = Some 0)
  | None => exists s, user_chars cr3 p src s /\ (length s < n)%nat /\ user_ok cr3 (pmem p) (src + strlen s) = false
  end.

Lemma user_chars_cons cr3 p src b s :
  user_ok cr3 (pmem p) src = true -> load8 cr3 p src = Some b -> b <> 0 -> user_chars cr3 p (src + 1) s ->
  user_chars cr3 p src (b :: s).
Proof.
  intros Hok Hl Hb Hs [|i] c Hc; cbn in Hc.
  - injection Hc as <-. rewrite Z.add_0_r. done.
  - replace (src + Z.of_nat (S i)) with (src + 1 + Z.of_nat i) by lia. by apply Hs.
Qed.

Lemma copy_loop_spec n cr3 p src :
  pt_wf cr3 (pmem p) -> 0 <= src -> src + Z.of_nat n < 2 ^ 32 ->
  exists r, copy_loop n cr3 p src = Some r /\ copy_result cr3 p src n r.
Proof.
  intros Hw. revert src. induction n as [|n IH]; intros src Hs Hn; cbn [copy_loop].
  { exists (Some []). split; [done|]. split; [by intros i b|]. split; [done|by left]. }
  rewrite user_page_ok by (done || lia). cbn [mbind option_bind].
  destruct (user_ok cr3 (pmem p) src) eqn:Eok; cbn [negb].
  2:{ exists None. split; [done|]. exists []. split; [by intros i b|]. split; [cbn; lia|]. cbn. by rewrite Z.add_0_r. }
  destruct (user_ok_load cr3 p src Eok) as [b Eb]. rewrite Eb. cbn [mbind option_bind].
  destruct (Z.eqb_spec b 0) as [->|Hb].
  { exists (Some []). split; [done|]. split; [by intros i b|]. split; [cbn; lia|]. right. cbn. by rewrite Z.add_0_r. }
  rewrite wrap32_small by lia. destruct (IH (src + 1)) as (r & -> & Hr); [lia|lia|]. cbn [mbind option_bind].
  exists (option_map (cons b) r). split; [done|]. destruct r as [s|]; cbn [option_map copy_result] in *.
  - destruct Hr as (Hc & Hl & He). split; [by apply user_chars_cons|]. cbn [length]. split; [lia|].
    destruct He as [He|He]; [left; lia|right]. unfold strlen in *. cbn [length].
    by replace (src + Z.of_nat (S (length s))) with (src + 1 + Z.of_nat (length s)) by lia.
  - destruct Hr as (s & Hc & Hl & He). exists (b :: s). split; [by apply user_chars_cons|]. cbn [length]. split; [lia|].
    unfold strlen in *. cbn [length]. by replace (src + Z.of_nat (S (length s))) with (src + 1 + Z.of_nat (length s)) by lia.
Qed.

(** copying a string from user memory.  On well-formed page tables
    [copy_user_string] never faults: it returns -1 exactly when the pointer is in the kernel's
    part or a character up to the NUL (among the first [maxlen - 1]) is on a page not mapped for
    user mode, and otherwise the characters at the address up to the NUL, cut at
    [maxlen - 1]; every byte it copied came from a user page. *)
Theorem copy_user_string_exact cr3 p src maxlen :
  pt_wf cr3 (pmem p) -> 0 <= src < 2 ^ 32 -> 1 <= maxlen <= 4096 ->
  exists r, copy_user_string cr3 p src maxlen = Some r /\
    if decide (KERNEL_BASE <= src) then r = None else copy_result cr3 p src (Z.to_nat (maxlen - 1)) r.
Proof.
  intros Hw Hs Hm. unfold copy_user_string. case_decide as Hk.
  - rewrite (proj2 (Z.leb_le _ _)) by done. by exists None.
  - rewrite (proj2 (Z.leb_gt _ _)) by lia. unfold KERNEL_BASE in *. apply copy_loop_spec; [done|lia|lia].
Qed.

(** ** A small address space: a page directory at 0x1000 with one page table, and the string
    "ab" on a user page at 0x1000 *)

Definition string_demo : paging :=
  mk_paging {[ 0x1000 + 4 * 1023 := 0x1003; 0x1000 := 0x2007; 0x2004 := 0x3007; 0x3000 := 0x6261 ]} [] ∅ ∅ 0.

Lemma demo_pde i : 0 <= i < 1024 ->
  rd (pmem string_demo) (0x1000 + 4 * i) = if decide (i = 1023) then 0x1003 else if decide (i = 0) then 0x2007 else 0.
Proof.
  intros Hi. unfold string_demo, rd. cbn [pmem]. destruct (decide (i = 1023)) as [->|H1]; [reflexivity|].
  rewrite lookup_insert_ne by lia. destruct (decide (i = 0)) as [->|H2]; [reflexivity|].
  rewrite lookup_insert_ne by lia. rewrite lookup_insert_ne by lia. by rewrite lookup_singleton_ne by lia.
Qed.

Lemma demo_pde_is i f fl : 0 <= i < 1024 -> pde_is 0x1000 (pmem string_demo) i f fl -> tst fl PTE_PRESENT = true ->
  (i = 1023 /\ f = 0x1000) \/ (i = 0 /\ f = 0x2000).
Proof.
  intros Hi (E & [Hm Hf] & Hfl) Ht. rewrite demo_pde in E by done. unfold entry in E.
  destruct (decide (i = 1023)); [left; split; [done|zmod]|]. destruct (decide (i = 0)); [right; split; [done|zmod]|].
  replace fl with 0 in Ht by lia. done.
Qed.

Lemma string_demo_wf : pt_wf 0x1000 (pmem string_demo).
Proof.
  split.
  - exists 3. split; [|done]. split; [by rewrite demo_pde by lia|]. split; [split; [done|lia]|lia].
  - intros i Hi. unfold pde_is. rewrite demo_pde by done. unfold frame_addr.
    destruct (decide (i = 1023)); [exists 0x1000, 3; split; [done|]; split; [split; [done|lia]|lia]|].
    destruct (decide (i = 0)); [exists 0x2000, 7|exists 0, 0]; (split; [done|]; split; [split; [done|lia]|lia]).
  - intros i j f fl f' fl' Hi Hj Hne Hp Ht Hp' Ht'.
    destruct (demo_pde_is _ _ _ Hi Hp Ht) as [[-> ->]|[-> ->]], (demo_pde_is _ _ _ Hj Hp' Ht') as [[-> ->]|[-> ->]]; done.
Qed.

Lemma user_range_valid_correct_witness :
  pt_wf 0x1000 (pmem string_demo) /\
  exists bs, load_bytes 0x1000 string_demo 0x1000 3 = Some bs /\ strlen bs = 3.
Proof.
  split; [exact string_demo_wf|].
  destruct (user_range_valid_correct 0x1000 string_demo 0x1000 3 string_demo_wf) as (b & Hb & _ & Hread); [lia|lia|].
  apply Hread. assert (E : user_range_valid 0x1000 string_demo 0x1000 3 = Some true) by (vm_compute; reflexivity).
  rewrite E in Hb. injection Hb as <-. reflexivity.
Defined.

Lemma copy_user_string_exact_witness :
  pt_wf 0x1000 (pmem string_demo) /\
  exists r, copy_user_string 0x1000 string_demo 0x1000 64 = Some r /\ copy_result 0x1000 string_demo 0x1000 63 r /\
    r = Some [97; 98].
Proof.
  split; [exact string_demo_wf|].
  destruct (copy_user_string_exact 0x1000 string_demo 0x1000 64 string_demo_wf) as (r & Hr & Hres); [lia|lia|].
  exists r. split; [exact Hr|]. split; [exact Hres|].
  assert (E : copy_user_string 0x1000 string_demo 0x1000 64 = Some (Some [97; 98])) by (vm_compute; reflexivity).
  rewrite E in Hr. injection Hr as <-. reflexivity.
Defined.
