(* ===== verification/AddrSpace.v ===== *)
(** * Address spaces

    What loading a program and forking rely on: the pages that user addresses map to are
    pairwise different frames, none of them a page table and none of them free, so that a
    store through a user address changes exactly one byte of the address space. *)

From S2P Require Import Prelude LList Cstr Heap Task Paging PagingInv PagingTheorems UserMem UserMemTheorems.

(** ** Bytes of a word *)

Lemma testbit_byte w k i : 0 <= k -> 0 <= i -> Z.testbit (byte_of w k) i = (i <? 8) && Z.testbit w (8 * k + i).
Proof.
  intros Hk Hi. unfold byte_of. change 0xFF with (Z.ones 8). rewrite Z.land_spec, Z.shiftr_spec, Z.testbit_ones_nonneg by lia.
  rewrite andb_comm. f_equal. f_equal. lia.
Qed.

Lemma testbit_set_byte w k b n : 0 <= k -> 0 <= n ->
  Z.testbit (set_byte w k b) n = if (8 * k <=? n) && (n <? 8 * k + 8) then Z.testbit b (n - 8 * k) else Z.testbit w n.
Proof.
  intros Hk Hn. unfold set_byte. change 0xFF with (Z.ones 8).
  rewrite Z.lor_spec, Z.ldiff_spec, !Z.shiftl_spec by lia.
  destruct (Z.leb_spec (8 * k) n) as [Hl|Hl]; cbn [andb].
  - rewrite Z.land_spec, !Z.testbit_ones_nonneg by lia. destruct (Z.ltb_spec n (8 * k + 8)) as [Hh|Hh].
    + destruct (Z.ltb_spec (n - 8 * k) 8); [|lia]. cbn [negb]. rewrite andb_false_r. cbn [orb]. by rewrite andb_true_r.
    + destruct (Z.ltb_spec (n - 8 * k) 8); [lia|]. by rewrite andb_true_r, andb_false_r, orb_false_r.
  - rewrite !(Z.testbit_neg_r _ (n - 8 * k)) by lia. by rewrite andb_true_r, orb_false_r.
Qed.

Lemma byte_set_same w k b : 0 <= k -> byte_of (set_byte w k b) k = Z.land b 0xFF.
Proof.
  intros Hk. apply Z.bits_inj'. intros i Hi. rewrite testbit_byte, testbit_set_byte by lia.
  change 0xFF with (Z.ones 8). rewrite Z.land_spec, Z.testbit_ones_nonneg by lia.
  destruct (Z.ltb_spec i 8); cbn [andb]; [|by rewrite andb_false_r].
  destruct (Z.leb_spec (8 * k) (8 * k + i)), (Z.ltb_spec (8 * k + i) (8 * k + 8)); try lia. cbn [andb].
  rewrite andb_true_r. f_equal. lia.
Qed.

Lemma byte_set_other w k k' b : 0 <= k -> 0 <= k' -> k <> k' -> byte_of (set_byte w k b) k' = byte_of w k'.
Proof.
  intros Hk Hk' Hne. apply Z.bits_inj'. intros i Hi. rewrite !testbit_byte, testbit_set_byte by lia.
  destruct (Z.ltb_spec i 8); cbn [andb]; [|done].
  destruct (Z.leb_spec (8 * k) (8 * k' + i)), (Z.ltb_spec (8 * k' + i) (8 * k + 8)); cbn [andb]; try done. lia.
Qed.

(** ** Frames of translated addresses *)

Lemma land_mask_frame w : frame_addr (Z.land w FRAME_MASK).
Proof.
  assert (E : Z.land w FRAME_MASK = Z.land (Z.shiftr w 12) (Z.ones 20) * 4096).
  { change 4096 with (2 ^ 12). rewrite <- Z.shiftl_mul_pow2 by lia. change FRAME_MASK with (Z.shiftl (Z.ones 20) 12).
    apply Z.bits_inj'. intros n Hn. rewrite Z.land_spec, !Z.shiftl_spec by lia. destruct (Z.ltb_spec n 12).
    - rewrite !(Z.testbit_neg_r _ (n - 12)) by lia. by rewrite andb_false_r.
    - rewrite Z.land_spec, Z.shiftr_spec by lia. by replace (n - 12 + 12) with n by lia. }
  rewrite E, Z.land_ones by lia. apply frame_mul. apply Z.mod_pos_bound. lia.
Qed.

Lemma translate_frame cr3 m v a : translate cr3 m v = Some a -> exists f, frame_addr f /\ a = f + v mod 4096.
Proof.
  unfold translate. cbv zeta. destruct (tst _ _); [|done]. destruct (tst _ _); [|done]. intros <-%(inj Some).
  rewrite land_offset. eexists. split; [apply land_mask_frame|done].
Qed.

(** [translate] only reads page tables. *)
Lemma translate_agree cr3 m m' v :
  pt_wf cr3 m -> 0 <= v < 2 ^ 32 -> (forall x, table cr3 m (frame_of x) -> rd m' x = rd m x) ->
  translate cr3 m' v = translate cr3 m v.
Proof.
  intros Hw Hv Hag. pose proof (pd_index_range v Hv) as Hi. pose proof (pt_index_range v) as Hj.
  pose proof (self_frame _ _ (pw_self _ _ Hw)) as Hcf.
  assert (Hpd : rd m' (cr3 + 4 * pd_index v) = rd m (cr3 + 4 * pd_index v)).
  { apply Hag. rewrite frame_of_add by (done || lia). destruct (pw_self _ _ Hw) as (fl & Hp & Ht). by exists 1023, fl. }
  destruct (pw_entry _ _ Hw _ Hi) as (f & fl & Hp). rewrite (translate_unfold cr3 m v f fl) by done.
  rewrite (translate_unfold cr3 m' v f fl); [|done|by apply (pde_is_ext cr3 m)].
  destruct (tst fl PTE_PRESENT) eqn:Ht; [|done]. cbv zeta. rewrite Hag; [done|].
  rewrite frame_of_add by (apply Hp || lia). by exists (pd_index v), fl.
Qed.

(** A store outside the page tables. *)
Lemma mm_ok_data cr3 p m' :
  mm_ok cr3 p -> (forall x, table cr3 (pmem p) (frame_of x) -> rd m' x = rd (pmem p) x) ->
  mm_ok cr3 (p <| pmem := m' |>) /\ (forall f, table cr3 m' f <-> table cr3 (pmem p) f) /\
  forall v, 0 <= v < 2 ^ 32 -> translate cr3 m' v = translate cr3 (pmem p) v.
Proof.
  intros [Hw Hf] Hag. pose proof (self_frame _ _ (pw_self _ _ Hw)) as Hcf.
  assert (Hpd : forall i, 0 <= i < 1024 -> rd m' (cr3 + 4 * i) = rd (pmem p) (cr3 + 4 * i)).
  { intros i Hi. apply Hag. rewrite frame_of_add by (done || lia). destruct (pw_self _ _ Hw) as (fl & Hp & Ht). by exists 1023, fl. }
  splits; [split; [by apply (pt_wf_ext cr3 (pmem p))|by apply free_wf_pmem]| |].
  - intros f. split; apply table_ext; intros i Hi; by rewrite Hpd.
  - intros v Hv. by apply translate_agree.
Qed.

(** ** User pages *)

Definition user (v : Z) : Prop := 0x400000 <= v < KERNEL_BASE.

Lemma user_addr v : user v -> 0 <= v < 2 ^ 32 /\ pd_index v <> 1023.
Proof. intros [H1 H2]. unfold KERNEL_BASE in H2. rewrite pd_index_div. split; [lia|]. zmod. Qed.

Record space_ok (cr3 : Z) (p : paging) : Prop := {
  so_mm : mm_ok cr3 p;
  so_table v a : user v -> translate cr3 (pmem p) v = Some a -> ~ table cr3 (pmem p) (frame_of a);
  so_free v a : user v -> translate cr3 (pmem p) v = Some a -> a / 4096 ∉ freeq p;
  so_inj v v' a a' : user v -> user v' -> translate cr3 (pmem p) v = Some a -> translate cr3 (pmem p) v' = Some a' ->
    a / 4096 = a' / 4096 -> v / 4096 = v' / 4096;
}.

Lemma translate_inj cr3 p v v' a : space_ok cr3 p -> user v -> user v' ->
  translate cr3 (pmem p) v = Some a -> translate cr3 (pmem p) v' = Some a -> v = v'.
Proof.
  intros Hs Hv Hv' E E'. pose proof (so_inj _ _ Hs v v' a a Hv Hv' E E' eq_refl).
  destruct (translate_frame _ _ _ _ E) as (f & [Hf _] & ->). destruct (translate_frame _ _ _ _ E') as (f' & [Hf' _] & Ea). zmod.
Qed.

(** The user part of the space: pages that were mapped stay mapped to the same frames, with
    the same contents. *)
Definition user_keeps (cr3 : Z) (p p' : paging) : Prop :=
  forall v, user v -> is_Some (translate cr3 (pmem p) v) ->
    translate cr3 (pmem p') v = translate cr3 (pmem p) v /\ load8 cr3 p' v = load8 cr3 p v.

#[export] Instance user_keeps_preorder cr3 : PreOrder (user_keeps cr3).
Proof.
  split; [by intros p v|]. intros p q r H1 H2 v Hv Hm. destruct (H1 v Hv Hm) as [E1 E2].
  destruct (H2 v Hv) as [E3 E4]; [by rewrite E1|]. by rewrite E3, E4.
Qed.

Lemma load8_eq cr3 p v a : translate cr3 (pmem p) v = Some a ->
  load8 cr3 p v = Some (byte_of (rd (pmem p) (a - a mod 4)) (a mod 4)).
Proof. intros E. unfold load8. by rewrite E. Qed.

Lemma frame_word a : frame_of (a - a mod 4) = frame_of a.
Proof. unfold frame_of. zmod. Qed.

(** A byte stored through a user address. *)
Lemma store8_spec cr3 p v b : space_ok cr3 p -> user v -> is_Some (translate cr3 (pmem p) v) ->
  exists p', store8 cr3 v b p = Some p' /\ space_ok cr3 p' /\ freeq p' = freeq p /\
    (forall w, 0 <= w < 2 ^ 32 -> translate cr3 (pmem p') w = translate cr3 (pmem p) w) /\
    load8 cr3 p' v = Some (Z.land b 0xFF) /\
    (forall w, user w -> w <> v -> load8 cr3 p' w = load8 cr3 p w).
Proof.
  intros Hs Hv [a Ha]. unfold store8. rewrite Ha. cbn [mbind option_bind]. eexists. split; [done|].
  set (m' := wr _ _ _). set (p' := p <| pmem := m' |>).
  destruct (mm_ok_data cr3 p m' (so_mm _ _ Hs)) as (Hmm & Htb & Htr).
  { intros x Hx. apply rd_wr_ne. intros <-. rewrite frame_word in Hx. by apply (so_table _ _ Hs v a). }
  assert (Htu : forall w, user w -> translate cr3 (pmem p') w = translate cr3 (pmem p) w) by (intros w [Hw _]%user_addr; by apply Htr).
  splits; [|done|done| |].
  - split; [done| | |].
    + intros w x Hw. rewrite Htu by done. intros E Hx%Htb. by apply (so_table _ _ Hs w x).
    + intros w x Hw. rewrite Htu by done. apply (so_free _ _ Hs); done.
    + intros w w' x x' Hw Hw'. rewrite !Htu by done. by apply (so_inj _ _ Hs).
  - rewrite (load8_eq _ _ _ a) by (by rewrite Htu). change (pmem p') with m'. unfold m'. rewrite rd_wr_eq, byte_set_same; [done|].
    apply Z.mod_pos_bound. lia.
  - intros w Hw Hne. unfold load8. rewrite Htu by done. destruct (translate cr3 (pmem p) w) as [x|] eqn:Ex; [|done].
    cbn [mbind option_bind]. f_equal. change (pmem p') with m'. unfold m'.
    destruct (decide (x - x mod 4 = a - a mod 4)) as [E|E]; [|by rewrite rd_wr_ne].
    assert (x mod 4 <> a mod 4). { intros E4. apply Hne. apply (translate_inj cr3 p w v a); auto. rewrite Ex. f_equal. lia. }
    rewrite E, rd_wr_eq. apply byte_set_other; [apply Z.mod_pos_bound; lia..|done].
Qed.

(** [memcpy] to mapped user memory. *)
Lemma store_bytes_spec bs cr3 p v : space_ok cr3 p -> user v -> v + Z.of_nat (length bs) <= KERNEL_BASE ->
  (forall w, v <= w < v + Z.of_nat (length bs) -> is_Some (translate cr3 (pmem p) w)) ->
  exists p', store_bytes cr3 v bs p = Some p' /\ space_ok cr3 p' /\ freeq p' = freeq p /\
    (forall w, 0 <= w < 2 ^ 32 -> translate cr3 (pmem p') w = translate cr3 (pmem p) w) /\
    (forall i b, bs !! i = Some b -> load8 cr3 p' (v + Z.of_nat i) = Some (Z.land b 0xFF)) /\
    (forall w, user w -> w < v \/ v + Z.of_nat (length bs) <= w -> load8 cr3 p' w = load8 cr3 p w).
Proof.
  revert p v. induction bs as [|b bs IH]; intros p v Hs Hv Hlen Hm; cbn [store_bytes length] in *.
  { exists p. done. }
  destruct (store8_spec cr3 p v b Hs Hv) as (p1 & -> & Hs1 & Eq1 & Ht1 & Hl1 & Ho1); [apply Hm; lia|]. cbn [mbind option_bind].
  unfold KERNEL_BASE in *. pose proof Hv as [Hv1 Hv2]. unfold KERNEL_BASE in Hv2. rewrite wrap32_small by lia.
  destruct bs as [|b' bs'].
  { exists p1. cbn [store_bytes]. splits; try done.
    - intros [|i] c; [|done]. intros [= <-]. by rewrite Z.add_0_r.
    - intros w Hw Hw'. apply Ho1; [done|]. cbn [length] in *. lia. }
  remember (b' :: bs') as cs eqn:Ecs. assert (Hu1 : user (v + 1)).
  { subst cs. unfold user, KERNEL_BASE. cbn [length] in *. lia. }
  destruct (IH p1 (v + 1) Hs1 Hu1) as (p2 & -> & Hs2 & Eq2 & Ht2 & Hl2 & Ho2); [lia| |].
  { intros w Hw. rewrite Ht1 by lia. apply Hm. lia. }
  exists p2. splits; [done|done|congruence| | |].
  - intros w Hw. by rewrite Ht2, Ht1.
  - intros [|i] c Hc.
    + injection Hc as <-. rewrite Z.add_0_r, Ho2 by (done || lia). done.
    + cbn in Hc. replace (v + Z.of_nat (S i)) with (v + 1 + Z.of_nat i) by lia. by apply Hl2.
  - intros w Hw Hw'. rewrite Ho2 by (done || lia). apply Ho1; [done|]. lia.
Qed.

(** ** Stores do not change permissions *)

Lemma user_ok_agree cr3 m m' v :
  pt_wf cr3 m -> 0 <= v < 2 ^ 32 -> (forall x, table cr3 m (frame_of x) -> rd m' x = rd m x) -> user_ok cr3 m' v = user_ok cr3 m v.
Proof.
  intros Hw Hv Hag. pose proof (pd_index_range v Hv) as Hi. pose proof (pt_index_range v) as Hj. pose proof (self_frame _ _ (pw_self _ _ Hw)) as Hcf.
  unfold user_ok. rewrite (Hag (cr3 + 4 * pd_index v)).
  2:{ rewrite frame_of_add by (done || lia). destruct (pw_self _ _ Hw) as (fl & Hp & Ht). by exists 1023, fl. }
  destruct (pw_entry _ _ Hw _ Hi) as (f & fl & Hp). pose proof Hp as (E & Hf & Hfl).
  destruct (tst (rd m (cr3 + 4 * pd_index v)) PTE_PRESENT) eqn:Et; cbn [andb]; [|done]. rewrite (pde_tst _ _ _ f fl Hp) in Et.
  rewrite E, entry_frame by done. rewrite Hag; [done|]. rewrite frame_of_add by (done || lia). by exists (pd_index v), fl.
Qed.

Lemma store8_user_ok cr3 p v b p' w : space_ok cr3 p -> user v -> store8 cr3 v b p = Some p' -> 0 <= w < 2 ^ 32 ->
  user_ok cr3 (pmem p') w = user_ok cr3 (pmem p) w.
Proof.
  intros Hs Hv E Hw. unfold store8 in E. destruct (translate cr3 (pmem p) v) as [a|] eqn:Ea; [|done]. cbn in E. injection E as <-. cbn.
  pose proof (so_mm _ _ Hs) as [Hpt _]. apply user_ok_agree; [done|done|]. intros x Hx. apply rd_wr_ne. intros <-. rewrite frame_word in Hx.
  by apply (so_table _ _ Hs v a).
Qed.

Lemma store_bytes_user_ok cr3 bs p v p' w : space_ok cr3 p -> user v -> v + Z.of_nat (length bs) <= KERNEL_BASE ->
  store_bytes cr3 v bs p = Some p' -> 0 <= w < 2 ^ 32 -> user_ok cr3 (pmem p') w = user_ok cr3 (pmem p) w.
Proof.
  revert v p. induction bs as [|b bs IH]; intros v p Hs Hv Hl E Hw; cbn [store_bytes length] in *; [by simplify_eq|].
  apply bind_Some in E as (p1 & E1 & E). pose proof (store8_user_ok _ _ _ _ _ w Hs Hv E1 Hw) as Hu.
  destruct (store8_spec cr3 p v b Hs Hv) as (p1' & E1' & Hs1 & _). { unfold store8 in E1. destruct (translate cr3 (pmem p) v); [eauto|done]. }
  assert (p1' = p1) as -> by congruence. destruct bs as [|b' bs]; [cbn in E; simplify_eq; done|].
  unfold user, KERNEL_BASE in *. cbn [length] in *. rewrite wrap32_small in E by lia. rewrite <- Hu. eapply (IH (v + 1)); try done; cbn [length]; lia.
Qed.

(** ** Mapping a fresh page *)

Lemma same_page_div v w : same_page v w <-> w / 4096 = v / 4096.
Proof.
  unfold same_page. rewrite !pd_index_div, !pt_index_div. replace (2 ^ 22) with (4096 * 1024) by reflexivity.
  rewrite <- !Z.div_div by lia. split; [intros [E1 E2]; rewrite (Z.div_mod (w / 4096) 1024), (Z.div_mod (v / 4096) 1024) by lia; congruence|by intros ->].
Qed.

(** All bytes of a page translate alike. *)
Lemma translate_page cr3 m v w : same_page v w -> translate cr3 m v = None -> translate cr3 m w = None.
Proof.
  intros [E1 E2]. unfold translate. rewrite E1, E2. cbv zeta. destruct (tst _ _); [|done]. by destruct (tst _ _).
Qed.

Lemma alloc_frame_spec p s k q : freeq p = k :: q -> 0 < k ->
  exists p1, alloc_page_frame (p, s) = (k * 4096, (p1, s)) /\ freeq p1 = q /\ pmem p1 = pmem p.
Proof.
  intros Eq Hk. unfold alloc_page_frame, alloc_phys_page. rewrite Eq. change PAGE_SIZE with 4096.
  destruct (Z.eqb_spec (k * 4096) 0); [lia|]. cbn [negb]. eexists. split; [done|].
  unfold set_ref. by destruct (_ <? _).
Qed.

(** A page mapped to a frame taken from the free queue. *)
Lemma map_user_page cr3 p p1 v k q fl :
  space_ok cr3 p -> user v -> translate cr3 (pmem p) v = None -> freeq p = k :: q -> q <> [] ->
  freeq p1 = q -> pmem p1 = pmem p -> 0 <= fl < 4096 -> tst fl PTE_PRESENT = true ->
  exists p', map_page cr3 v (k * 4096) fl p1 = Some p' /\ space_ok cr3 p' /\ user_keeps cr3 p p' /\ evolves cr3 no_data p1 p' /\
    (forall w, user w -> translate cr3 (pmem p') w =
       if decide (same_page v w) then Some (k * 4096 + w mod 4096) else translate cr3 (pmem p) w) /\
    (length (freeq p) <= length (freeq p') + 2)%nat.
Proof.
  intros Hs Hv Hn Eq Hq Eq1 Em1 Hfl Hpr. pose proof (so_mm _ _ Hs) as [Hw Hf]. destruct (user_addr v Hv) as [Hv1 Hv2].
  assert (Hkin : k ∈ freeq p) by (rewrite Eq; by left). pose proof (fw_range _ _ Hf k Hkin) as Hk.
  assert (Hnd : (k ∉ q) /\ NoDup q) by (pose proof (fw_nodup _ _ Hf) as H; rewrite Eq in H; by apply NoDup_cons in H).
  assert (Hmm1 : mm_ok cr3 p1).
  { split; [by rewrite Em1|]. split; rewrite ?Eq1, ?Em1; [apply Hnd| |]; intros x.
    - intros Hx. apply (fw_range _ _ Hf). rewrite Eq. by right.
    - intros i f fl' Hx. apply (fw_tables _ _ Hf). rewrite Eq. by right. }
  destruct (map_page_spec cr3 v (k * 4096) fl p1 Hmm1 Hv1 Hv2) as (p' & E & Hmm' & Hgr & Hlen & _ & Hres);
    [apply frame_mul; lia|done|done|]. exists p'. split; [done|].
  destruct Hres as [(_ & _ & E0)|Htr]; [congruence|]. rewrite Em1 in Htr.
  pose proof Hgr as [(taken & Et & Hnew) _ Hwr]. rewrite Eq1 in Et. rewrite Em1 in *.
  assert (Hsub : forall x, x ∈ taken \/ x ∈ freeq p' -> x ∈ freeq p /\ x <> k).
  { intros x Hx. assert (Hxq : x ∈ q) by (rewrite Et; apply elem_of_app; tauto). split; [rewrite Eq; by right|]. intros ->. by apply Hnd. }
  assert (Htu : forall w, user w -> translate cr3 (pmem p') w =
       if decide (same_page v w) then Some (k * 4096 + w mod 4096) else translate cr3 (pmem p) w).
  { intros w [Hw1 Hw2]%user_addr. by apply Htr. }
  assert (Hold : forall w a, user w -> translate cr3 (pmem p) w = Some a -> ~ table cr3 (pmem p') (frame_of a)).
  { intros w a Hw1 Ea [Ht|(x & Hx & Ex)]%Hnew; [by apply (so_table _ _ Hs w a)|]. apply (so_free _ _ Hs w a); auto.
    unfold frame_of in Ex. replace (a / 4096) with x by lia. apply Hsub. by left. }
  splits; [|intros w Hw1 [a Ea]|done|done|rewrite Eq in *; rewrite Eq1 in Hlen; cbn [length] in *; lia].
  - split; [done| | |].
    + intros w a Hw1. rewrite Htu by done. case_decide; [|by apply Hold]. intros <-%(inj Some).
      rewrite frame_of_add by (apply frame_mul || idtac; zmod). intros [(i & fl' & Hi & Hp & Ht)|(x & Hx & Ex)]%Hnew.
      * by apply (fw_tables _ _ Hf k i (k * 4096) fl').
      * assert (x = k) by lia. subst x. destruct (Hsub k); [by left|done].
    + intros w a Hw1. rewrite Htu by done. case_decide.
      * intros <-%(inj Some) Hx. replace ((k * 4096 + w mod 4096) / 4096) with k in Hx by zmod. destruct (Hsub k); [by right|done].
      * intros Ea Hx. apply (so_free _ _ Hs w a); auto. apply Hsub. by right.
    + assert (Hnk : forall w a, user w -> translate cr3 (pmem p) w = Some a -> a / 4096 <> k).
      { intros w a Hw1 Ea <-. by apply (so_free _ _ Hs w a). }
      intros w w' a a' Hw1 Hw2. rewrite !Htu by done.
      destruct (decide (same_page v w)) as [Hd|_], (decide (same_page v w')) as [Hd'|_].
      * intros _ _ _. apply same_page_div in Hd, Hd'. congruence.
      * intros <-%(inj Some) Ea' E'. destruct (Hnk w' a'); auto. zmod.
      * intros Ea <-%(inj Some) E'. destruct (Hnk w a); auto. zmod.
      * by apply (so_inj _ _ Hs).
  - assert (Hns : ~ same_page v w) by (intros H; by rewrite (translate_page cr3 (pmem p) v w) in Ea).
    assert (E1 : translate cr3 (pmem p') w = translate cr3 (pmem p) w) by (rewrite Htu by done; by case_decide).
    split; [done|]. rewrite (load8_eq cr3 p w a), (load8_eq cr3 p' w a) by congruence. do 2 f_equal. apply Hwr; [|intros []].
    rewrite frame_word. by apply (Hold w).
Qed.
