(* ===== verification/OnePage.v ===== *)
(** * An address space of one page, for closed examples

    A page directory at 0x1000, a page table at 0x2000, and the page 0xBFFFF000, where
    programs have their stack, in the frame at 0x3000. *)

From S2P Require Import Prelude LList Cstr Heap Task Paging PagingInv PagingTheorems UserMem UserMemTheorems AddrSpace.

Definition one_page : paging :=
  mk_paging {[ 0x1000 + 4 * 1023 := 0x1003; 0x1000 + 4 * 767 := 0x2007; 0x2000 + 4 * 1023 := 0x3007 ]} [] ∅ ∅ 0.

Lemma one_page_pde i : 0 <= i < 1024 ->
  rd (pmem one_page) (0x1000 + 4 * i) = if decide (i = 1023) then 0x1003 else if decide (i = 767) then 0x2007 else 0.
Proof.
  intros Hi. unfold one_page, rd. cbn [pmem]. destruct (decide (i = 1023)) as [->|H1]; [reflexivity|].
  rewrite lookup_insert_ne by lia. destruct (decide (i = 767)) as [->|H2]; [reflexivity|].
  rewrite lookup_insert_ne by lia. by rewrite lookup_singleton_ne by lia.
Qed.

Lemma one_page_pte j : 0 <= j < 1024 -> rd (pmem one_page) (0x2000 + 4 * j) = if decide (j = 1023) then 0x3007 else 0.
Proof.
  intros Hj. unfold one_page, rd. cbn [pmem]. destruct (decide (j = 1023)) as [->|H1]; [reflexivity|].
  rewrite !lookup_insert_ne by lia. by rewrite lookup_singleton_ne by lia.
Qed.

Lemma one_page_pde_is i f fl : 0 <= i < 1024 -> pde_is 0x1000 (pmem one_page) i f fl -> tst fl PTE_PRESENT = true ->
  (i = 1023 /\ f = 0x1000) \/ (i = 767 /\ f = 0x2000).
Proof.
  intros Hi (E & [Hm Hf] & Hfl) Ht. rewrite one_page_pde in E by done. unfold entry in E.
  destruct (decide (i = 1023)); [left; split; [done|zmod]|]. destruct (decide (i = 767)); [right; split; [done|zmod]|].
  replace fl with 0 in Ht by lia. done.
Qed.

Lemma one_page_wf : pt_wf 0x1000 (pmem one_page).
Proof.
  split.
  - exists 3. split; [|done]. split; [by rewrite one_page_pde by lia|]. split; [split; [done|lia]|lia].
  - intros i Hi. unfold pde_is. rewrite one_page_pde by done. unfold frame_addr.
    destruct (decide (i = 1023)); [exists 0x1000, 3; split; [done|]; split; [split; [done|lia]|lia]|].
    destruct (decide (i = 767)); [exists 0x2000, 7|exists 0, 0]; (split; [done|]; split; [split; [done|lia]|lia]).
  - intros i j f fl f' fl' Hi Hj Hne Hp Ht Hp' Ht'.
    destruct (one_page_pde_is _ _ _ Hi Hp Ht) as [[-> ->]|[-> ->]], (one_page_pde_is _ _ _ Hj Hp' Ht') as [[-> ->]|[-> ->]]; done.
Qed.

(** The page is the only one below the kernel. *)
Lemma one_page_user v : 0 <= v < KERNEL_BASE + 128 ->
  translate 0x1000 (pmem one_page) v = (if decide (v / 4096 = 0xBFFFF) then Some (0x3000 + v mod 4096) else None) /\
  user_ok 0x1000 (pmem one_page) v = bool_decide (v / 4096 = 0xBFFFF).
Proof.
  intros Hv. unfold KERNEL_BASE in Hv. assert (Hi : 0 <= pd_index v < 1024) by (apply pd_index_range; lia). pose proof (pt_index_range v) as Hj.
  pose proof (pd_index_div v) as Ei. pose proof (pt_index_div v) as Ej. change (2 ^ 22) with 4194304 in Ei.
  unfold translate, user_ok. cbv zeta. rewrite one_page_pde by done. rewrite decide_False by zmod. destruct (decide (pd_index v = 767)) as [E7|E7].
  - change (tst 0x2007 PTE_PRESENT) with true. change (Z.land 0x2007 FRAME_MASK) with 0x2000. cbn [andb]. rewrite one_page_pte by done.
    destruct (decide (pt_index v = 1023)) as [Ejj|Ejj].
    + assert (E : v / 4096 = 0xBFFFF) by zmod. rewrite decide_True, bool_decide_true by done. split; [|reflexivity].
      change (tst 0x3007 PTE_PRESENT) with true. cbn match. by rewrite land_offset.
    + assert (E : v / 4096 <> 0xBFFFF) by zmod. rewrite decide_False, bool_decide_false by done. done.
  - assert (E : v / 4096 <> 0xBFFFF) by zmod. rewrite decide_False, bool_decide_false by done. done.
Qed.

Lemma one_page_space : space_ok 0x1000 one_page.
Proof.
  assert (Ht : forall v a, user v -> translate 0x1000 (pmem one_page) v = Some a -> v / 4096 = 0xBFFFF /\ a = 0x3000 + v mod 4096).
  { intros v a [H1 H2] E. destruct (one_page_user v) as [E' _]; [unfold KERNEL_BASE in *; lia|]. rewrite E' in E. case_decide; by simplify_eq. }
  split.
  - split; [exact one_page_wf|]. split; [constructor|..]; intros k; cbn [freeq one_page]; intros *; by intros ?%not_elem_of_nil.
  - intros v a Hv (_ & ->)%Ht; [|done]. intros (i & fl & Hi & Hp & Hpr). unfold frame_of in Hp.
    destruct (one_page_pde_is _ _ _ Hi Hp Hpr) as [[_ E]|[_ E]]; zmod.
  - intros v a _ _. cbn [freeq one_page]. apply not_elem_of_nil.
  - intros v v' a a' Hv Hv' (E & _)%Ht (E' & _)%Ht _; [congruence|done|done].
Qed.
