(* ===== verification/ForkMem.v ===== *)
(** * The memory operations of fork: a new page directory, page copies, the list of pages *)

From S2P Require Import Prelude LList Cstr Heap Task TaskInv Paging PagingInv PagingTheorems UserMem UserMemTheorems AddrSpace.

(** ** Filling a frame through a window *)

Lemma for_loop_fill n k F p m g val :
  frame_addr g -> 0 <= k -> k + Z.of_nat n <= 1024 ->
  (forall j m', k <= j < k + Z.of_nat n -> (forall x, frame_of x <> g -> rd m' x = rd m x) ->
     F j (p <| pmem := m' |>) = Some (p <| pmem := wr m' (g + 4 * j) (val j) |>)) ->
  exists m', for_loop n k F (p <| pmem := m |>) = Some (p <| pmem := m' |>) /\
    (forall j, k <= j < k + Z.of_nat n -> rd m' (g + 4 * j) = val j) /\
    (forall x, (forall j, k <= j < k + Z.of_nat n -> x <> g + 4 * j) -> rd m' x = rd m x).
Proof.
  intros Hg. revert k m. induction n as [|n IH]; intros k m Hk Hn HF; cbn [for_loop].
  { exists m. splits; [done|intros; lia|done]. }
  rewrite (HF k m) by (done || lia). cbn [mbind option_bind].
  destruct (IH (k + 1) (wr m (g + 4 * k) (val k))) as (m' & E & Hv & Ho); [lia|lia| |].
  { intros j m1 Hj Hm1. apply HF; [lia|]. intros x Hx. rewrite Hm1 by done. apply rd_wr_ne. intros <-.
    rewrite frame_of_add in Hx by (done || lia). done. }
  exists m'. splits; [done| |].
  - intros j Hj. destruct (decide (j = k)) as [->|]; [|apply Hv; lia]. rewrite Ho by lia. apply rd_wr_eq.
  - intros x Hx. rewrite Ho by (intros; apply Hx; lia). apply rd_wr_ne. intros <-. by apply (Hx k); [lia|].
Qed.

Lemma translate_offset cr3 m w g o : w mod 4096 = 0 -> 0 <= o < 4096 -> translate cr3 m w = Some g -> translate cr3 m (w + o) = Some (g + o).
Proof.
  intros Hal Ho. unfold translate. assert (same_page w (w + o)) as [-> ->] by (apply same_page_div; zmod). cbv zeta.
  destruct (tst _ _); [|done]. destruct (tst _ _); [|done]. rewrite !land_offset. intros [= <-]. f_equal. zmod.
Qed.

(** Stores through a page that is mapped to a data frame. *)
Lemma window_store cr3 p m w g o x :
  mm_ok cr3 p -> frame_addr g -> ~ table cr3 (pmem p) g -> (forall y, frame_of y <> g -> rd m y = rd (pmem p) y) ->
  0 <= w -> w + o < 2 ^ 32 -> 0 <= o < 4096 -> w mod 4096 = 0 -> translate cr3 (pmem p) w = Some g ->
  vstore cr3 (w + o) x (p <| pmem := m |>) = Some (p <| pmem := wr m (g + o) x |>).
Proof.
  intros Hmm Hg Hnt Hm Hw Hwo Ho Hal Htr. unfold vstore. change (pmem (p <| pmem := m |>)) with m.
  rewrite (translate_agree cr3 (pmem p) m (w + o)); [|apply Hmm|lia|].
  2:{ intros y Hy. apply Hm. congruence. }
  by rewrite (translate_offset cr3 (pmem p) w g o).
Qed.

Lemma window_load cr3 p m w g o :
  mm_ok cr3 p -> (forall y, table cr3 (pmem p) (frame_of y) -> rd m y = rd (pmem p) y) ->
  0 <= w -> w + o < 2 ^ 32 -> 0 <= o < 4096 -> w mod 4096 = 0 -> translate cr3 (pmem p) w = Some g ->
  vload cr3 (p <| pmem := m |>) (w + o) = Some (rd m (g + o)).
Proof.
  intros Hmm Hm Hw Hwo Ho Hal Htr. unfold vload. change (pmem (p <| pmem := m |>)) with m.
  rewrite (translate_agree cr3 (pmem p) m (w + o)); [|apply Hmm|lia|done].
  by rewrite (translate_offset cr3 (pmem p) w g o).
Qed.

(** ** Windows in a slot that is present *)

Lemma evolves_same_tables cr3 D p p' f : evolves cr3 D p p' -> freeq p' = freeq p -> table cr3 (pmem p') f <-> table cr3 (pmem p) f.
Proof.
  intros Hev Eq. split; [|by apply (ev_tables _ D)]. pose proof Hev as [(t & Et & Hn) _ _].
  assert (t = []) as ->. { apply (f_equal length) in Et. rewrite length_app, Eq in Et. destruct t; [done|cbn [length] in Et; lia]. }
  intros [?|(k & Hk & _)]%Hn; [done|]. by apply not_elem_of_nil in Hk.
Qed.

Definition slot_present (cr3 : Z) (m : gmap Z Z) (i : Z) : Prop := exists f fl, pde_is cr3 m i f fl /\ tst fl PTE_PRESENT = true.

Lemma slot_present_not_absent cr3 m i : slot_present cr3 m i -> ~ slot_absent cr3 m i.
Proof. intros (f & fl & Hp & Ht). unfold slot_absent. rewrite (pde_tst _ _ _ _ _ Hp). congruence. Qed.

Lemma evolves_slot cr3 D p p' i : evolves cr3 D p p' -> 0 <= i < 1024 -> slot_present cr3 (pmem p) i -> slot_present cr3 (pmem p') i.
Proof. intros Hev Hi (f & fl & Hp & Ht). exists f, fl. split; [|done]. by apply (ev_slots _ _ _ _ Hev). Qed.

Lemma map_window cr3 v phys fl p :
  mm_ok cr3 p -> 0 <= v < 2 ^ 32 -> pd_index v <> 1023 -> slot_present cr3 (pmem p) (pd_index v) -> frame_addr phys ->
  0 <= fl < 4096 -> tst fl PTE_PRESENT = true ->
  exists p', map_page cr3 v phys fl p = Some p' /\ mm_ok cr3 p' /\ freeq p' = freeq p /\ evolves cr3 no_data p p' /\
    forall w, 0 <= w < 2 ^ 32 -> pd_index w <> 1023 ->
      translate cr3 (pmem p') w = if decide (same_page v w) then Some (phys + w mod 4096) else translate cr3 (pmem p) w.
Proof.
  intros Hmm Hv Hi Hsl Hph Hfl Hpr. pose proof (slot_present_not_absent _ _ _ Hsl) as Hna.
  destruct (map_page_spec cr3 v phys fl p Hmm Hv Hi Hph Hfl Hpr) as (p' & E & Hmm' & Hev & _ & Hfq & Hres).
  exists p'. splits; [done|done|by apply Hfq|done|]. by destruct Hres as [(_ & ? & _)|Htr].
Qed.

(** A frame of data changed. *)
Lemma data_evolves cr3 p m' g :
  mm_ok cr3 p -> ~ table cr3 (pmem p) g -> (forall x, frame_of x <> g -> rd m' x = rd (pmem p) x) ->
  mm_ok cr3 (p <| pmem := m' |>) /\ evolves cr3 (eq g) p (p <| pmem := m' |>) /\
  forall v, 0 <= v < 2 ^ 32 -> translate cr3 m' v = translate cr3 (pmem p) v.
Proof.
  intros Hmm Hnt Hm. destruct (mm_ok_data cr3 p m' Hmm) as (Hmm' & Htb & Htr).
  { intros x Hx. apply Hm. congruence. }
  splits; [done| |done]. split; cbn [pmem freeq set_field eta_paging].
  - exists []. split; [done|]. intros f Hf. left. by apply Htb.
  - intros i f fl Hi Hp Ht. apply (pde_is_ext cr3 (pmem p)); [|done]. apply Hm. destruct Hmm as [Hw _].
    rewrite frame_of_add by (apply (self_frame _ _ (pw_self _ _ Hw)) || lia). intros <-. apply Hnt.
    destruct (pw_self _ _ Hw) as (fl0 & Hp0 & Ht0). by exists 1023, fl0.
  - intros x _ Hx. apply Hm. congruence.
Qed.

(** ** Copying a frame *)

Definition copy_window (v : Z) : Prop := same_page 0xE0000000 v \/ same_page 0xE0001000 v.

Lemma vm_copy_phys_spec cr3 old new p :
  mm_ok cr3 p -> slot_present cr3 (pmem p) 896 -> frame_addr old -> frame_addr new -> old <> new ->
  ~ table cr3 (pmem p) old -> ~ table cr3 (pmem p) new ->
  exists p', vm_copy_phys cr3 old new p = Some p' /\ mm_ok cr3 p' /\ freeq p' = freeq p /\ evolves cr3 (eq new) p p' /\
    (forall j, 0 <= j < 1024 -> rd (pmem p') (new + 4 * j) = rd (pmem p) (old + 4 * j)) /\
    (forall v, 0 <= v < 2 ^ 32 -> pd_index v <> 1023 -> ~ copy_window v -> translate cr3 (pmem p') v = translate cr3 (pmem p) v).
Proof.
  intros Hmm Hsl Hfo Hfn Hne Hto Htn. unfold vm_copy_phys. change (Z.lor PTE_PRESENT PTE_RW) with 3.
  destruct (map_window cr3 0xE0000000 old 3 p Hmm) as (p1 & -> & Hmm1 & Eq1 & Hev1 & Ht1); try done.
  cbn [mbind option_bind].
  destruct (map_window cr3 0xE0001000 new 3 p1 Hmm1) as (p2 & -> & Hmm2 & Eq2 & Hev2 & Ht2); try done.
  { by apply (evolves_slot cr3 no_data p). }
  cbn [mbind option_bind].
  assert (Hev12 : evolves cr3 no_data p p2) by (by etrans). assert (Eq12 : freeq p2 = freeq p) by congruence.
  assert (Htb2 : forall f, table cr3 (pmem p2) f <-> table cr3 (pmem p) f) by (intros f; by apply (evolves_same_tables cr3 no_data)).
  assert (Hw0 : translate cr3 (pmem p2) 0xE0000000 = Some old).
  { rewrite Ht2 by done. rewrite decide_False by (intros [_ E]; vm_compute in E; discriminate E). rewrite Ht1 by done. rewrite decide_True by (split; reflexivity).
    f_equal. change (0xE0000000 mod 4096) with 0. lia. }
  assert (Hw1 : translate cr3 (pmem p2) 0xE0001000 = Some new).
  { rewrite Ht2 by done. rewrite decide_True by (split; reflexivity). f_equal. change (0xE0001000 mod 4096) with 0. lia. }
  assert (Hold : forall j, 0 <= j < 1024 -> rd (pmem p2) (old + 4 * j) = rd (pmem p) (old + 4 * j)).
  { intros j Hj. apply (ev_writes _ _ _ _ Hev12); [|by intros []]. rewrite frame_of_add by (done || lia). by rewrite Htb2. }
  destruct (for_loop_fill 1024 0 (fun i p => w ← vload cr3 p (0xE0000000 + 4 * i); vstore cr3 (0xE0001000 + 4 * i) w p)
    p2 (pmem p2) new (fun j => rd (pmem p2) (old + 4 * j))) as (m' & E & Hval & Hoth); [done|lia|lia| |].
  { intros j m' Hj Hm'. rewrite (window_load cr3 p2 m' 0xE0000000 old (4 * j)); try done; try lia.
    2:{ intros y Hy. apply Hm'. rewrite Htb2 in Hy. congruence. }
    cbn [mbind option_bind]. rewrite (window_store cr3 p2 m' 0xE0001000 new (4 * j)); try done; try lia.
    2:{ by rewrite Htb2. }
    do 2 f_equal. rewrite Hm'; [done|]. rewrite frame_of_add by (done || lia). done. }
  replace (p2 <| pmem := pmem p2 |>) with p2 in E by (by destruct p2). rewrite E. cbn [mbind option_bind].
  destruct (data_evolves cr3 p2 m' new Hmm2) as (Hmm3 & Hev3 & Ht3); [by rewrite Htb2| |].
  { intros x Hx. apply Hoth. intros j Hj ->. rewrite frame_of_add in Hx by (done || lia). done. }
  set (p3 := p2 <| pmem := m' |>) in *.
  destruct (unmap_page_spec cr3 0xE0000000 p3 Hmm3) as (p4 & -> & Hmm4 & Eq4 & Hev4 & Ht4); [done..|]. cbn [mbind option_bind].
  destruct (unmap_page_spec cr3 0xE0001000 p4 Hmm4) as (p5 & -> & Hmm5 & Eq5 & Hev5 & Ht5); [done..|].
  assert (Hev35 : evolves cr3 no_data p3 p5) by (by etrans). assert (Eq35 : freeq p5 = freeq p3) by congruence.
  exists p5. splits; [done|done|by rewrite Eq35| | |].
  - etrans; [|etrans; [exact Hev3|]]; by apply (evolves_weaken cr3 no_data).
  - intros j Hj. rewrite <- Hold by done. rewrite (ev_writes _ _ _ _ Hev35); [by apply Hval| |by intros []].
    rewrite frame_of_add by (done || lia). rewrite (evolves_same_tables _ _ _ _ _ Hev35 Eq35).
    rewrite (evolves_same_tables _ _ _ _ _ Hev3) by done. by rewrite Htb2.
  - intros v Hv Hi Hno. unfold copy_window in Hno. rewrite Ht5, decide_False, Ht4, decide_False by tauto.
    change (pmem p3) with m'. rewrite Ht3, Ht2, decide_False, Ht1, decide_False by tauto. done.
Qed.

(** ** A new page directory *)

Lemma translate_slot_present cr3 m v : pt_wf cr3 m -> 0 <= v < 2 ^ 32 -> is_Some (translate cr3 m v) -> slot_present cr3 m (pd_index v).
Proof.
  intros Hw Hv [a E]. destruct (pw_entry _ _ Hw _ (pd_index_range v Hv)) as (f & fl & Hp). exists f, fl. split; [done|].
  rewrite (translate_unfold cr3 m v f fl) in E by done. by destruct (tst fl PTE_PRESENT).
Qed.

(** The directory [g] has the kernel's slots (0 and 768 to 1022) of [cr3], itself at 1023, and
    nothing else. *)
Record task_pd (cr3 : Z) (m : gmap Z Z) (g : Z) : Prop := {
  tp_entry i : 0 <= i < 1024 -> exists f fl, pde_is g m i f fl;
  tp_self : pde_is g m 1023 g 3;
  tp_slot i f fl : 0 <= i < 1023 -> pde_is g m i f fl -> tst fl PTE_PRESENT = true ->
    (i = 0 \/ 768 <= i) /\ pde_is cr3 m i f fl;
  tp_copy i f fl : i = 0 \/ 768 <= i < 1023 -> pde_is cr3 m i f fl -> tst fl PTE_PRESENT = true -> pde_is g m i f fl;
}.

Lemma pde_is_of g m i w f fl : rd m (g + 4 * i) = w -> w = entry f fl -> frame_addr f -> 0 <= fl < 4096 -> pde_is g m i f fl.
Proof. intros E1 E2 Hf Hfl. split; [congruence|done]. Qed.

Definition pd_value (cr3 : Z) (m : gmap Z Z) (i : Z) : Z := if (i =? 0) || (768 <=? i) then rd m (cr3 + 4 * i) else 0.

(** From the words of the new directory: [m] is the memory when they were written. *)
Lemma task_pd_intro cr3 p p' g :
  mm_ok cr3 p -> evolves cr3 no_data p p' -> freeq p' = freeq p -> frame_addr g -> mm_ok cr3 p' ->
  (forall i, 0 <= i < 1023 -> rd (pmem p') (g + 4 * i) = pd_value cr3 (pmem p) i) ->
  rd (pmem p') (g + 4 * 1023) = entry g 3 -> task_pd cr3 (pmem p') g.
Proof.
  intros [Hw _] Hev Eq Hg [Hw' _] Hv Hs.
  assert (Hback : forall i f fl, 0 <= i < 1023 -> i = 0 \/ 768 <= i -> pde_is g (pmem p') i f fl <-> pde_is cr3 (pmem p) i f fl).
  { intros i f fl Hi Hk. unfold pde_is. rewrite Hv by done. unfold pd_value.
    destruct (Z.eqb_spec i 0), (Z.leb_spec 768 i); cbn [orb]; try done. lia. }
  assert (Hzero : forall i, 0 < i < 768 -> pde_is g (pmem p') i 0 0).
  { intros i Hi. apply (pde_is_of _ _ _ 0); [|done|split; [done|lia]|lia]. rewrite Hv by lia. unfold pd_value.
    destruct (Z.eqb_spec i 0), (Z.leb_spec 768 i); cbn [orb]; try done; lia. }
  assert (Hself : pde_is g (pmem p') 1023 g 3) by (split; [done|split; [done|lia]]).
  split; [|done| |].
  - intros i Hi. destruct (decide (i = 1023)) as [->|]; [by eauto|]. destruct (decide (0 < i < 768)) as [Hu|Hu]; [by eauto|].
    destruct (pw_entry _ _ Hw i Hi) as (f & fl & Hp). exists f, fl. apply Hback; [lia|lia|done].
  - intros i f fl Hi Hp Ht. destruct (decide (0 < i < 768)) as [Hu|Hu].
    { destruct (pde_is_fun _ _ _ _ _ _ _ Hp (Hzero i Hu)) as [-> ->]. by vm_compute in Ht. }
    split; [lia|]. apply (ev_slots _ _ _ _ Hev); [lia| |done]. apply Hback; [lia|lia|done].
  - intros i f fl Hi Hp Ht. apply Hback; [lia|lia|].
    destruct (pw_entry _ _ Hw i ltac:(lia)) as (f0 & fl0 & Hp0).
    assert (Hpr : tst fl0 PTE_PRESENT = true).
    { assert (table cr3 (pmem p) f) as (j & flj & Hj & Hpj & Htj).
      { apply (evolves_same_tables cr3 no_data p p'); [done|done|]. exists i, fl. split; [lia|done]. }
      destruct (decide (j = i)) as [->|Hne]; [by destruct (pde_is_fun _ _ _ _ _ _ _ Hp0 Hpj) as [_ ->]|].
      exfalso. apply (pw_distinct _ _ Hw' j i f flj f fl); try done; [lia|]. by apply (ev_slots _ _ _ _ Hev). }
    destruct (pde_is_fun _ _ _ _ _ _ _ Hp (ev_slots _ _ _ _ Hev i f0 fl0 ltac:(lia) Hp0 Hpr)) as [-> ->]. done.
Qed.

Lemma create_pd_spec cr3 p s k q :
  mm_ok cr3 p -> cpu_cr3 s = cr3 -> freeq p = k :: q -> q <> [] ->
  exists p1 p', paging_create_task_pd (p, s) = Some (k * 4096, (p', s)) /\ mm_ok cr3 p' /\
    freeq p1 = q /\ pmem p1 = pmem p /\ evolves cr3 (eq (k * 4096)) p1 p' /\ (length q <= length (freeq p') + 1)%nat /\
    ~ table cr3 (pmem p') (k * 4096) /\ task_pd cr3 (pmem p') (k * 4096) /\ slot_present cr3 (pmem p') 896 /\
    (forall v, 0 <= v < 2 ^ 32 -> pd_index v <> 1023 -> ~ same_page TASK_PD_WINDOW v ->
       translate cr3 (pmem p') v = translate cr3 (pmem p) v).
Proof.
  intros Hmm Hc Eq Hq. pose proof Hmm as [Hw Hf].
  assert (Hkin : k ∈ freeq p) by (rewrite Eq; by left). pose proof (fw_range _ _ Hf k Hkin) as Hk.
  assert (Hnd : (k ∉ q) /\ NoDup q) by (pose proof (fw_nodup _ _ Hf) as H; rewrite Eq in H; by apply NoDup_cons in H).
  set (g := k * 4096). assert (Hg : frame_addr g) by (apply frame_mul; lia).
  unfold paging_create_task_pd. destruct (alloc_frame_spec p s k q Eq) as (p1 & -> & Eq1 & Em1); [lia|]. fold g.
  destruct (Z.eqb_spec g 0); [lia|]. cbv zeta. rewrite Hc. change (Z.lor PTE_PRESENT PTE_RW) with 3.
  assert (Hmm1 : mm_ok cr3 p1).
  { split; [by rewrite Em1|]. split; rewrite ?Eq1, ?Em1; [apply Hnd| |]; intros x.
    - intros Hx. apply (fw_range _ _ Hf). rewrite Eq. by right.
    - intros i f fl' Hx. apply (fw_tables _ _ Hf). rewrite Eq. by right. }
  destruct (map_page_spec cr3 TASK_PD_WINDOW g 3 p1 Hmm1) as (p2 & -> & Hmm2 & Hev2 & Hlen & _ & Hres); try done.
  cbn [mbind option_bind]. destruct Hres as [(_ & _ & E0)|Ht2]; [congruence|].
  assert (Hnt : ~ table cr3 (pmem p2) g).
  { pose proof Hev2 as [(t & Et & Hn) _ _]. intros [(i & fl & Hi & Hp & Ht)|(x & Hx & Ex)]%Hn.
    - rewrite Em1 in Hp. by apply (fw_tables _ _ Hf k i g fl).
    - assert (x = k) by (unfold g in Ex; lia). subst x. apply Hnd. rewrite <- Eq1, Et. apply elem_of_app. by left. }
  assert (Hwin : translate cr3 (pmem p2) TASK_PD_WINDOW = Some g).
  { rewrite Ht2 by done. rewrite decide_True by (split; reflexivity). f_equal. change (TASK_PD_WINDOW mod 4096) with 0. lia. }
  assert (Hcf : frame_addr cr3) by apply (self_frame _ _ (pw_self _ _ Hw)).
  assert (Hcg : cr3 <> g).
  { intros <-. apply Hnt. destruct Hmm2 as [Hw2 _]. destruct (pw_self _ _ Hw2) as (fl & Hp & Ht). by exists 1023, fl. }
  destruct (for_loop_fill 1024 0 (fun i p => if (i =? 0) || (768 <=? i) then w ← vload cr3 p (pd_slot i); vstore cr3 (TASK_PD_WINDOW + 4 * i) w p
      else vstore cr3 (TASK_PD_WINDOW + 4 * i) 0 p) p2 (pmem p2) g (pd_value cr3 (pmem p2))) as (m & E & Hval & Hoth); [done|lia|lia| |].
  { intros j m Hj Hm. unfold pd_value. pose proof (data_evolves cr3 p2 m g Hmm2 Hnt Hm) as ([Hwm _] & _ & _).
    destruct (_ || _)%bool.
    - rewrite vload_pd by (done || lia). cbn [mbind option_bind pmem set_field eta_paging].
      rewrite (window_store cr3 p2 m TASK_PD_WINDOW g (4 * j)); try done; try (unfold TASK_PD_WINDOW; lia).
      rewrite Hm; [done|]. by rewrite frame_of_add by (done || lia).
    - rewrite (window_store cr3 p2 m TASK_PD_WINDOW g (4 * j)); try done; unfold TASK_PD_WINDOW; lia. }
  replace (p2 <| pmem := pmem p2 |>) with p2 in E by (by destruct p2). rewrite E. cbn [mbind option_bind].
  assert (Hm : forall x, frame_of x <> g -> rd m x = rd (pmem p2) x).
  { intros x Hx. apply Hoth. intros j Hj ->. by rewrite frame_of_add in Hx by (done || lia). }
  rewrite (window_store cr3 p2 m TASK_PD_WINDOW g (4 * 1023)); try done. cbn [mbind option_bind].
  rewrite lor3 by done. set (m3 := wr m (g + 4 * 1023) (entry g 3)).
  destruct (data_evolves cr3 p2 m3 g Hmm2 Hnt) as (Hmm3 & Hev3 & Ht3).
  { intros x Hx. unfold m3. rewrite rd_wr_ne; [by apply Hm|]. intros <-. by rewrite frame_of_add in Hx by (done || lia). }
  set (p3 := p2 <| pmem := m3 |>) in *.
  destruct (unmap_page_spec cr3 TASK_PD_WINDOW p3 Hmm3) as (p4 & -> & Hmm4 & Eq4 & Hev4 & Ht4); [done..|]. cbn [mbind option_bind].
  assert (Hnt4 : ~ table cr3 (pmem p4) g).
  { rewrite (evolves_same_tables _ _ _ _ _ Hev4 Eq4), (evolves_same_tables _ _ _ _ _ Hev3 eq_refl). done. }
  assert (Hword : forall i, 0 <= i < 1024 -> rd (pmem p4) (g + 4 * i) = rd m3 (g + 4 * i)).
  { intros i Hi. apply (ev_writes _ _ _ _ Hev4); [|by intros []]. by rewrite frame_of_add by (done || lia). }
  assert (Hev13 : evolves cr3 (eq g) p1 p4).
  { etrans; [by apply (evolves_weaken cr3 no_data), Hev2|]. etrans; [exact Hev3|]. by apply (evolves_weaken cr3 no_data). }
  exists p1, p4. splits; try done.
  - by rewrite Eq4, <- Eq1.
  - apply (task_pd_intro cr3 p3 p4 g); try done.
    + intros i Hi. rewrite Hword by lia. unfold m3. rewrite rd_wr_ne by lia. rewrite Hval by lia.
      unfold pd_value. destruct (_ || _)%bool; [|done]. change (pmem p3) with m3. unfold m3.
      rewrite rd_wr_ne; [symmetry; apply Hm; by rewrite frame_of_add by (done || lia)|].
      intros E'. destruct (addr_inj g cr3 1023 i) as [E'' _]; auto; lia.
    + rewrite Hword by lia. apply rd_wr_eq.
  - apply (evolves_slot cr3 no_data p3); [done|lia|]. apply (translate_slot_present cr3 m3 TASK_PD_WINDOW); [apply Hmm3|done|].
    rewrite Ht3 by done. by rewrite Hwin.
  - intros v Hv Hi Hno. rewrite Ht4, decide_False by done. change (pmem p3) with m3. rewrite Ht3, Ht2, decide_False by done. by rewrite Em1.
Qed.

(** ** The address space of a child *)

Lemma task_pd_ok cr3 p g :
  mm_ok cr3 p -> task_pd cr3 (pmem p) g -> ~ table cr3 (pmem p) g -> g / 4096 ∉ freeq p ->
  mm_ok g p /\ (forall v, user v -> translate g (pmem p) v = None) /\
  (forall f, table g (pmem p) f -> f = g \/ exists i fl, (i = 0 \/ 768 <= i < 1023) /\ pde_is cr3 (pmem p) i f fl /\ tst fl PTE_PRESENT = true).
Proof.
  intros [Hw Hf] [He Hs Hsl Hcp] Hnt Hfr. pose proof Hs as (_ & Hg & _).
  assert (Hcase : forall i f fl, 0 <= i < 1024 -> pde_is g (pmem p) i f fl -> tst fl PTE_PRESENT = true ->
    (i = 1023 /\ f = g) \/ (i <> 1023 /\ (i = 0 \/ 768 <= i < 1023) /\ pde_is cr3 (pmem p) i f fl /\ f <> g)).
  { intros i f fl Hi Hp Ht. destruct (decide (i = 1023)) as [->|Hne].
    - left. by destruct (pde_is_fun _ _ _ _ _ _ _ Hs Hp) as [-> _].
    - right. destruct (Hsl i f fl ltac:(lia) Hp Ht) as [Hk Hp']. splits; [done|lia|done|]. intros ->. apply Hnt. by exists i, fl. }
  splits.
  - split; [split|split].
    + exists 3. done.
    + done.
    + intros i j f fl f' fl' Hi Hj Hne Hp Ht Hp' Ht'.
      destruct (Hcase i f fl Hi Hp Ht) as [[-> ->]|(N1 & _ & P1 & G1)], (Hcase j f' fl' Hj Hp' Ht') as [[-> ->]|(N2 & _ & P2 & G2)];
        [done|congruence|done|]. by apply (pw_distinct _ _ Hw i j f fl f' fl').
    + apply Hf.
    + apply Hf.
    + intros k i f fl Hk Hi Hp Ht. destruct (Hcase i f fl Hi Hp Ht) as [[-> ->]|(_ & _ & P1 & _)]; [|by apply (fw_tables _ _ Hf k i f fl)].
      intros E. apply Hfr. by replace (g / 4096) with k by (rewrite E; zmod).
  - intros v Hv. destruct (user_addr v Hv) as [Hr _]. pose proof (pd_index_range v Hr) as Hi.
    destruct (He _ Hi) as (f & fl & Hp). rewrite (translate_unfold g (pmem p) v f fl) by done.
    destruct (tst fl PTE_PRESENT) eqn:Ht; [|done]. exfalso. destruct Hv as [H1 H2]. unfold KERNEL_BASE in H2.
    assert (1 <= pd_index v < 768) by (rewrite pd_index_div; zmod).
    destruct (Hcase _ f fl Hi Hp Ht) as [[? _]|(_ & ? & _)]; lia.
  - intros f (i & fl & Hi & Hp & Ht). destruct (Hcase i f fl Hi Hp Ht) as [[_ ->]|(_ & Hk & P1 & _)]; [by left|].
    right. by exists i, fl.
Qed.

(** The frames of a user address space: the directory, the page tables below the kernel, the
    pages. *)
Definition owned (cr3 : Z) (m : gmap Z Z) (f : Z) : Prop :=
  f = cr3 \/ (exists i fl, 1 <= i < 768 /\ pde_is cr3 m i f fl /\ tst fl PTE_PRESENT = true) \/
  (exists v a, user v /\ translate cr3 m v = Some a /\ f = frame_of a).

Lemma owned_agree cr3 p p' :
  pt_wf cr3 (pmem p) -> (forall x, owned cr3 (pmem p) (frame_of x) -> rd (pmem p') x = rd (pmem p) x) ->
  pt_wf cr3 (pmem p') /\
  forall v, user v -> translate cr3 (pmem p') v = translate cr3 (pmem p) v /\ load8 cr3 p' v = load8 cr3 p v.
Proof.
  intros Hw Hag. pose proof (self_frame _ _ (pw_self _ _ Hw)) as Hcf.
  assert (Hpd : forall i, 0 <= i < 1024 -> rd (pmem p') (cr3 + 4 * i) = rd (pmem p) (cr3 + 4 * i)).
  { intros i Hi. apply Hag. rewrite frame_of_add by (done || lia). by left. }
  split; [by apply (pt_wf_ext cr3 (pmem p))|]. intros v Hv. destruct (user_addr v Hv) as [Hr _].
  pose proof (pd_index_range v Hr) as Hi. pose proof (pt_index_range v) as Hj. destruct (pw_entry _ _ Hw _ Hi) as (f & fl & Hp).
  assert (E : translate cr3 (pmem p') v = translate cr3 (pmem p) v).
  { rewrite (translate_unfold cr3 (pmem p) v f fl), (translate_unfold cr3 (pmem p') v f fl); [|done|by apply (pde_is_ext cr3 (pmem p)); [apply Hpd|]|done|done].
    destruct (tst fl PTE_PRESENT) eqn:Ht; [|done]. cbv zeta. rewrite Hag; [done|]. rewrite frame_of_add by (apply Hp || lia).
    right. left. exists (pd_index v), fl. splits; try done; destruct Hv as [H1 H2]; unfold KERNEL_BASE in H2; rewrite pd_index_div; zmod. }
  split; [done|]. unfold load8. rewrite E. destruct (translate cr3 (pmem p) v) as [a|] eqn:Ea; [|done]. cbn [mbind option_bind].
  do 2 f_equal. apply Hag. rewrite frame_word. right. right. eauto.
Qed.

(** The space at [g] is apart from the frames in [O]. *)
Record apart (g : Z) (O : Z -> Prop) (p : paging) : Prop := {
  ap_space : space_ok g p;
  ap_slot : slot_present g (pmem p) 896;
  ap_table f : O f -> ~ table g (pmem p) f;
  ap_free f : O f -> f / 4096 ∉ freeq p;
  ap_user v a : user v -> translate g (pmem p) v = Some a -> ~ O (frame_of a);
}.

Definition page_copied (g : Z) (p : paging) (m : gmap Z Z) (va ph : Z) : Prop :=
  forall o, 0 <= o < 4096 -> load8 g p (va + o) = Some (byte_of (rd m (ph + (o - o mod 4))) (o mod 4)).

Lemma user_not_window v : user v -> ~ copy_window v.
Proof.
  intros [H1 H2] [[E _]|[E _]]; rewrite pd_index_div in E; unfold KERNEL_BASE in H2;
    [change (pd_index 0xE0000000) with 896 in E|change (pd_index 0xE0001000) with 896 in E]; zmod.
Qed.

Lemma frame_div f : frame_addr f -> f = f / 4096 * 4096.
Proof. intros [? ?]. zmod. Qed.

(** One page: a frame, mapped in the child and filled. *)
Lemma copy_page_spec g O p p1 va ph k q :
  apart g O p -> va mod 4096 = 0 -> user va -> frame_addr ph -> O ph -> translate g (pmem p) va = None ->
  freeq p = k :: q -> q <> [] -> freeq p1 = q -> pmem p1 = pmem p ->
  exists p2 p3, map_page g va (k * 4096) 7 p1 = Some p2 /\ vm_copy_phys g ph (k * 4096) p2 = Some p3 /\
    apart g O p3 /\ (forall x, O (frame_of x) -> rd (pmem p3) x = rd (pmem p) x) /\ user_keeps g p p3 /\
    page_copied g p3 (pmem p) va ph /\
    (forall w, user w -> ~ same_page va w -> translate g (pmem p3) w = translate g (pmem p) w) /\
    (exists t, freeq p = t ++ freeq p3) /\ (length (freeq p) <= length (freeq p3) + 2)%nat.
Proof.
  intros [Hs Hsl Hat Haf Hau] Hal Hva Hph HO Hn Eq Hq Eq1 Em1. pose proof (so_mm _ _ Hs) as [_ Hf].
  assert (Hkin : k ∈ freeq p) by (rewrite Eq; by left). pose proof (fw_range _ _ Hf k Hkin) as Hk.
  assert (HOk : forall f, O f -> f <> k * 4096).
  { intros f Hf' ->. apply (Haf _ Hf'). by replace (k * 4096 / 4096) with k by zmod. }
  destruct (map_user_page g p p1 va k q 7 Hs Hva Hn Eq Hq Eq1 Em1) as (p2 & E2 & Hs2 & Hk2 & Hev2 & Ht2 & Hl2); [lia|done|].
  set (new := k * 4096) in *. assert (Hnew : frame_addr new) by (apply frame_mul; lia).
  assert (Hvan : translate g (pmem p2) va = Some new).
  { rewrite Ht2 by done. rewrite decide_True by (split; reflexivity). by rewrite Hal, Z.add_0_r. }
  pose proof Hev2 as [(t & Et & Htn) _ Hw2]. rewrite Eq1 in Et. rewrite Em1 in *.
  assert (Hnt2 : ~ table g (pmem p2) new).
  { replace new with (frame_of new) by (unfold frame_of; by rewrite <- frame_div). by apply (so_table _ _ Hs2 va). }
  assert (HOt2 : forall f, O f -> ~ table g (pmem p2) f).
  { intros f Hf' [?|(x & Hx & ->)]%Htn; [by apply (Hat f)|]. apply (Haf _ Hf'). replace (x * 4096 / 4096) with x by zmod.
    rewrite Eq, Et. right. apply elem_of_app. by left. }
  destruct (vm_copy_phys_spec g ph new p2) as (p3 & E3 & Hmm3 & Eq3 & Hev3 & Hc3 & Ht3); [apply Hs2| |done|done|by apply HOk|by apply HOt2|done|].
  { apply (evolves_slot g no_data p1); [done|lia|by rewrite Em1]. }
  assert (Htb3 : forall f, table g (pmem p3) f <-> table g (pmem p2) f) by (intros f; by apply (evolves_same_tables g (eq new))).
  assert (Htu3 : forall w, user w -> translate g (pmem p3) w = translate g (pmem p2) w).
  { intros w Hw. destruct (user_addr w Hw). apply Ht3; [done|done|by apply user_not_window]. }
  assert (HOw : forall x, O (frame_of x) -> rd (pmem p3) x = rd (pmem p) x).
  { intros x Hx. rewrite (ev_writes _ _ _ _ Hev3); [|rewrite Htb3; by apply HOt2|intros E; by apply (HOk _ Hx)].
    by apply Hw2; [apply HOt2|intros []]. }
  exists p2, p3. splits; [done|done| |done| | | |exists (k :: t); by rewrite Eq3, Eq, Et|by rewrite Eq3].
  - split.
    + split; [done| | |].
      * intros v a Hv. rewrite Htu3, Htb3 by done. by apply (so_table _ _ Hs2).
      * intros v a Hv. rewrite Htu3, Eq3 by done. by apply (so_free _ _ Hs2).
      * intros v v' a a' Hv Hv'. rewrite !Htu3 by done. by apply (so_inj _ _ Hs2).
    + apply (evolves_slot g (eq new) p2); [done|lia|]. apply (evolves_slot g no_data p1); [done|lia|by rewrite Em1].
    + intros f Hf'. rewrite Htb3. by apply HOt2.
    + intros f Hf' Hin. apply (Haf _ Hf'). rewrite Eq, Et. right. apply elem_of_app. right. by rewrite <- Eq3.
    + intros v a Hv. rewrite Htu3, Ht2 by done. case_decide; [|by apply Hau]. intros [= <-] Ho.
      rewrite frame_of_add in Ho by (done || apply Z.mod_pos_bound; lia). by apply (HOk _ Ho).
  - intros w Hw Hm. destruct (Hk2 w Hw Hm) as [E1 El]. split; [by rewrite Htu3|]. rewrite <- El. destruct Hm as [a Ea].
    rewrite (load8_eq g p3 w a), (load8_eq g p2 w a) by (rewrite ?Htu3 by done; congruence). do 2 f_equal.
    apply (ev_writes _ _ _ _ Hev3); rewrite frame_word.
    + rewrite Htb3. apply (so_table _ _ Hs2 w); [done|congruence].
    + intros E'. assert (Hsp : w / 4096 = va / 4096).
      { apply (so_inj _ _ Hs2 w va a new); [done|done|congruence|done|]. rewrite E'. unfold frame_of. zmod. }
      assert (translate g (pmem p) w = None); [|congruence]. apply (translate_page _ _ va); [|done]. by apply same_page_div.
  - intros o Ho. assert (Huo : user (va + o)). { destruct Hva as [? H2]. split; [lia|]. unfold KERNEL_BASE in *. zmod. }
    rewrite (load8_eq g p3 _ (new + o)).
    2:{ rewrite Htu3 by done. apply translate_offset; [done|lia|done]. }
    destruct Hnew as [Hn0 _]. replace ((new + o) mod 4) with (o mod 4) by zmod. do 2 f_equal.
    replace (new + o - o mod 4) with (new + 4 * (o / 4)) by zmod. replace (ph + (o - o mod 4)) with (ph + 4 * (o / 4)) by zmod.
    rewrite Hc3 by zmod. apply Hw2; [|intros []]. rewrite frame_of_add by (done || zmod). by apply HOt2.
  - intros w Hw Hns. rewrite Htu3, Ht2 by done. by rewrite decide_False.
Qed.
