(* ===== verification/Elf.v ===== *)
(** * The ELF loader (src/kernel/elf.c, include/kernel/elf.h)

    [img] gives the bytes of kernel memory from the data pointer on; the code does not know
    how many of them belong to the file.  The loader runs with CR3 on the new page directory
    and writes the segments through their virtual addresses. *)

From S2P Require Import Prelude LList Cstr Heap HeapInv HeapSpec HeapTheorems Alloc Vfs Task Paging UserMem.

(** ** The headers *)

Definition u8 (img : Z -> Z) (o : Z) : Z := img (wrap32 o).
Definition u16 (img : Z -> Z) (o : Z) : Z := u8 img o + 2 ^ 8 * u8 img (o + 1).
Definition u32 (img : Z -> Z) (o : Z) : Z :=
  u8 img o + 2 ^ 8 * u8 img (o + 1) + 2 ^ 16 * u8 img (o + 2) + 2 ^ 24 * u8 img (o + 3).

Definition EI_CLASS : Z := 4.
Definition EI_DATA : Z := 5.
Definition ELFMAG : list Z := [0x7F; 69; 76; 70].
Definition ELFCLASS32 : Z := 1.
Definition ELFDATA2LSB : Z := 1.
Definition PT_LOAD : Z := 1.

Record Elf32_Ehdr := mk_ehdr { e_ident : list Z; e_entry : Z; e_phoff : Z; e_phnum : Z }.
Record Elf32_Phdr := mk_phdr { p_type : Z; p_offset : Z; p_vaddr : Z; p_filesz : Z; p_memsz : Z }.

(** The fields that the loader reads, at their offsets in the packed structures. *)
Definition read_ehdr (img : Z -> Z) : Elf32_Ehdr :=
  mk_ehdr (u8 img <$> seqZ 0 16) (u32 img 24) (u32 img 28) (u16 img 44).
Definition read_phdr (img : Z -> Z) (o : Z) : Elf32_Phdr :=
  mk_phdr (u32 img o) (u32 img (o + 4)) (u32 img (o + 8)) (u32 img (o + 16)) (u32 img (o + 20)).

Definition elf_assign_tier (path : list Z) : Z :=
  let name := drop (after_last_slash path 0 0) path in
  if (strcmp name (lit "shell") =? 0) || (strcmp name (lit "init") =? 0) || (strcmp name (lit "shell.elf") =? 0)
  then TIER_SYSTEM else TIER_USER.

(** The four checks of the header. *)
Definition ehdr_ok (h : Elf32_Ehdr) : bool :=
  bool_decide (take 4 (e_ident h) = ELFMAG) && (char_at (e_ident h) 4 =? ELFCLASS32) &&
  (char_at (e_ident h) 5 =? ELFDATA2LSB) && negb (e_phnum h =? 0).

(** ** Loading *)

(** [for (va = va_start; va < va_end; va += PAGE_SIZE)]; [n] is the number of pages from
    [va_start] to [va_end], and a loop that is not over then has wrapped around and does not
    end ([None]).  [false]: out of memory. *)
Fixpoint load_pages (n : nat) (va va_end : Z) (st : paging * sched) : option (bool * (paging * sched)) :=
  if va <? va_end then
    match n with
    | O => None
    | S n' =>
        let cr3 := cpu_cr3 (snd st) in
        r ← page_present cr3 va (fst st);
        if negb (r =? 0) then load_pages n' (va +w PAGE_SIZE) va_end st
        else
          let '(paddr, (p, s)) := alloc_page_frame st in
          if paddr =? 0 then Some (false, (p, s))
          else
            p ← map_page cr3 va paddr (Z.lor (Z.lor PTE_PRESENT PTE_RW) PTE_USER) p;
            load_pages n' (va +w PAGE_SIZE) va_end (p, s)
    end
  else Some (true, st).

(** A PT_LOAD segment: its pages, its bytes, and zeros up to its size in memory. *)
Definition load_segment (img : Z -> Z) (ph : Elf32_Phdr) (st : paging * sched) : option (bool * (paging * sched)) :=
  let va_start := Z.ldiff (p_vaddr ph) (PAGE_SIZE - 1) in
  let va_end := p_vaddr ph +w p_memsz ph in
  '(ok, st) ← load_pages (Z.to_nat ((va_end - va_start + 4095) / PAGE_SIZE)) va_start va_end st;
  if negb ok then Some (false, st)
  else
    let '(p, s) := st in
    let cr3 := cpu_cr3 s in
    p ← store_bytes cr3 (p_vaddr ph) (u8 img <$> seqZ (p_offset ph) (p_filesz ph)) p;
    p ← (if p_filesz ph <? p_memsz ph
         then store_bytes cr3 (p_vaddr ph +w p_filesz ph) (replicate (Z.to_nat (p_memsz ph - p_filesz ph)) 0) p
         else Some p);
    Some (true, (p, s)).

(** [for (i = 0; i < ehdr->e_phnum; i++)] with [n] headers left. *)
Fixpoint load_segments (n : nat) (img : Z -> Z) (o : Z) (st : paging * sched) : option (bool * (paging * sched)) :=
  match n with
  | O => Some (true, st)
  | S n' =>
      let ph := read_phdr img o in
      if negb (p_type ph =? PT_LOAD) then load_segments n' img (o + 32) st
      else
        '(ok, st) ← load_segment img ph st;
        if negb ok then Some (false, st) else load_segments n' img (o + 32) st
  end.

(** The result, the value of [*entry] and the memory. *)
Definition elf_load (img : Z -> Z) (entry : Z) (st : paging * sched) : option (Z * Z * (paging * sched)) :=
  let ehdr := read_ehdr img in
  if negb (ehdr_ok ehdr) then Some (-1, entry, st)
  else
    '(ok, st) ← load_segments (Z.to_nat (e_phnum ehdr)) img (e_phoff ehdr) st;
    Some (if (ok : bool) then 0 else -1, e_entry ehdr, st).
