(* ===== verification/ElfTheorems.v ===== *)
(** * The ELF loader puts the program where its headers say *)

From S2P Require Import Prelude LList Cstr Heap HeapInv HeapSpec HeapTheorems Alloc Vfs Task TaskInv Paging PagingInv PagingTheorems UserMem UserMemTheorems AddrSpace Elf.

(** ** Specification *)

(** The segments to load, in the order of their headers. *)
Definition phdrs (img : Z -> Z) : list Elf32_Phdr :=
  let h := read_ehdr img in (fun i => read_phdr img (e_phoff h + 32 * i)) <$> seqZ 0 (e_phnum h).
Definition segments (img : Z -> Z) : list Elf32_Phdr := filter (fun ph => p_type ph = PT_LOAD) (phdrs img).

(** A segment in the user part of the address space. *)
Definition seg_ok (ph : Elf32_Phdr) : Prop :=
  user (p_vaddr ph) /\ 0 <= p_filesz ph <= p_memsz ph /\ p_vaddr ph + p_memsz ph <= KERNEL_BASE.

Definition in_seg (ph : Elf32_Phdr) (v : Z) : Prop := p_vaddr ph <= v < p_vaddr ph + p_memsz ph.

Fixpoint disjoint_segs (l : list Elf32_Phdr) : Prop :=
  match l with
  | [] => True
  | ph :: l => (forall ph' v, ph' ∈ l -> in_seg ph v -> ~ in_seg ph' v) /\ disjoint_segs l
  end.

(** Pages that a segment touches; each takes at most a frame and a page table. *)
Definition seg_pages (ph : Elf32_Phdr) : nat :=
  Z.to_nat ((p_vaddr ph + p_memsz ph - p_vaddr ph / 4096 * 4096 + 4095) / 4096).
Definition frames_needed (l : list Elf32_Phdr) : nat := 2 * sum_list_with seg_pages l.

(** The bytes of the file, then zeros. *)
Definition seg_byte (img : Z -> Z) (ph : Elf32_Phdr) (i : Z) : Z := if i <? p_filesz ph then u8 img (p_offset ph + i) else 0.

Definition placed (cr3 : Z) (p : paging) (img : Z -> Z) (ph : Elf32_Phdr) : Prop :=
  forall i, 0 <= i < p_memsz ph -> load8 cr3 p (p_vaddr ph + i) = Some (seg_byte img ph i).

(** What was mapped and belongs to no segment is unchanged. *)
Definition keeps_outside (cr3 : Z) (p p' : paging) (l : list Elf32_Phdr) : Prop :=
  forall v, user v -> is_Some (translate cr3 (pmem p) v) -> (forall ph, ph ∈ l -> ~ in_seg ph v) ->
    translate cr3 (pmem p') v = translate cr3 (pmem p) v /\ load8 cr3 p' v = load8 cr3 p v.

(** ** Pages *)

Lemma load_pages_spec n va va_end cr3 p s :
  space_ok cr3 p -> cpu_cr3 s = cr3 -> va mod 4096 = 0 -> 0x400000 <= va -> va_end <= KERNEL_BASE ->
  va_end - va <= 4096 * Z.of_nat n -> (2 * n <= length (freeq p))%nat ->
  exists p', load_pages n va va_end (p, s) = Some (true, (p', s)) /\ space_ok cr3 p' /\ user_keeps cr3 p p' /\
    (forall v, va <= v < va_end -> is_Some (translate cr3 (pmem p') v)) /\ (length (freeq p) <= length (freeq p') + 2 * n)%nat.
Proof.
  revert va p. induction n as [|n IH]; intros va p Hs Hc Hva Hlo Hhi Hn Hfr; cbn [load_pages].
  { destruct (Z.ltb_spec va va_end); [lia|]. exists p. splits; try done; [intros; lia|lia]. }
  destruct (Z.ltb_spec va va_end) as [Hlt|]; [|exists p; splits; try done; [intros; lia|lia]].
  cbn [snd fst]. rewrite Hc. assert (Hu : user va) by (split; [done|lia]). destruct (user_addr va Hu) as [Hr _].
  rewrite page_present_correct by (done || apply Hs). cbn [mbind option_bind].
  assert (Hnext : va +w PAGE_SIZE = va + 4096) by (unfold PAGE_SIZE, KERNEL_BASE in *; rewrite wrap32_small by lia; done).
  assert (Hgo : forall p1, space_ok cr3 p1 -> user_keeps cr3 p p1 -> (length (freeq p) <= length (freeq p1) + 2)%nat ->
    (forall v, va <= v < va + 4096 -> is_Some (translate cr3 (pmem p1) v)) ->
    exists p', load_pages n (va +w PAGE_SIZE) va_end (p1, s) = Some (true, (p', s)) /\ space_ok cr3 p' /\ user_keeps cr3 p p' /\
      (forall v, va <= v < va_end -> is_Some (translate cr3 (pmem p') v)) /\ (length (freeq p) <= length (freeq p') + 2 * S n)%nat).
  { intros p1 Hs1 Hk1 Hl1 Hm1. rewrite Hnext.
    destruct (IH (va + 4096) p1 Hs1 Hc) as (p' & E & Hs' & Hk' & Hm' & Hl'); [zmod|lia|lia|lia|lia|].
    exists p'. splits; [done|done|by etrans| |lia]. intros v Hv. destruct (decide (v < va + 4096)) as [Hb|Hb]; [|apply Hm'; lia].
    assert (Huv : user v) by (split; lia). destruct (Hk' v Huv) as [-> _]; apply Hm1; lia. }
  assert (Hsame : forall v, va <= v < va + 4096 -> same_page va v) by (intros v Hv; apply same_page_div; zmod).
  destruct (translate cr3 (pmem p) va) as [a|] eqn:Ea; cbn [Z.eqb negb].
  - apply Hgo; [done|done|lia|]. intros v Hv. destruct (translate cr3 (pmem p) v) eqn:Ev; [done|]. exfalso.
    assert (translate cr3 (pmem p) va = None); [|congruence]. apply (translate_page _ _ v); [|done].
    destruct (Hsame v Hv). done.
  - destruct (freeq p) as [|k [|k2 q]] eqn:Eq; [cbn [length] in Hfr; lia..|].
    assert (Hk : 0 < k < 2 ^ 20) by (apply (fw_range cr3 p); [apply Hs|rewrite Eq; by left]).
    destruct (alloc_frame_spec p s k (k2 :: q) Eq) as (p1 & -> & Eq1 & Em1); [lia|]. cbn [fst snd].
    destruct (Z.eqb_spec (k * 4096) 0); [lia|].
    change (Z.lor (Z.lor PTE_PRESENT PTE_RW) PTE_USER) with 7.
    destruct (map_user_page cr3 p p1 va k (k2 :: q) 7 Hs Hu Ea Eq) as (p2 & -> & Hs2 & Hk2 & _ & Ht2 & Hl2); try done.
    cbn [mbind option_bind]. rewrite Eq in Hl2. apply Hgo; [done|done|done|].
    intros v Hv. assert (Huv : user v) by (split; [lia|]; unfold KERNEL_BASE in *; zmod). rewrite Ht2 by done.
    rewrite decide_True by (by apply Hsame). eauto.
Qed.

(** ** A segment *)

Lemma fmap_seqZ_some img off n i : 0 <= i < n -> (u8 img <$> seqZ off n) !! Z.to_nat i = Some (u8 img (off + i)).
Proof. intros Hi. rewrite list_lookup_fmap, lookup_seqZ_lt by lia. cbn. do 2 f_equal. lia. Qed.

Lemma load_segment_spec img ph cr3 p s :
  (forall o, 0 <= img o < 256) -> space_ok cr3 p -> cpu_cr3 s = cr3 -> seg_ok ph -> (2 * seg_pages ph <= length (freeq p))%nat ->
  exists p', load_segment img ph (p, s) = Some (true, (p', s)) /\ space_ok cr3 p' /\ placed cr3 p' img ph /\
    keeps_outside cr3 p p' [ph] /\ (length (freeq p) <= length (freeq p') + 2 * seg_pages ph)%nat.
Proof.
  intros Himg Hs Hc (Hu & Hsz & Hend) Hfr. unfold load_segment. cbv zeta. pose proof Hu as [Hu1 Hu2].
  replace (p_vaddr ph +w p_memsz ph) with (p_vaddr ph + p_memsz ph) by (unfold KERNEL_BASE in *; rewrite wrap32_small by lia; done).
  change (PAGE_SIZE - 1) with 0xFFF. rewrite ldiff_page. change PAGE_SIZE with 4096. fold (seg_pages ph).
  destruct (load_pages_spec (seg_pages ph) (p_vaddr ph / 4096 * 4096) (p_vaddr ph + p_memsz ph) cr3 p s Hs Hc)
    as (p1 & -> & Hs1 & Hk1 & Hm1 & Hl1); [zmod|zmod|lia|unfold seg_pages; zmod|done|].
  cbn [mbind option_bind negb]. rewrite Hc.
  assert (Hb : forall o, Z.land (u8 img o) 0xFF = u8 img o).
  { intros o. change 0xFF with (Z.ones 8). rewrite Z.land_ones by lia. apply Z.mod_small. apply Himg. }
  assert (Hlow : p_vaddr ph / 4096 * 4096 <= p_vaddr ph) by zmod.
  set (bs := u8 img <$> seqZ (p_offset ph) (p_filesz ph)).
  assert (Hlen : Z.of_nat (length bs) = p_filesz ph) by (unfold bs; rewrite length_fmap, length_seqZ; lia).
  destruct (store_bytes_spec bs cr3 p1 (p_vaddr ph) Hs1 Hu) as (p2 & -> & Hs2 & Eq2 & Ht2 & Hl2 & Ho2); [lia|intros; apply Hm1; lia|].
  cbn [mbind option_bind]. rewrite Hlen in Ho2.
  assert (Hbytes : forall i, 0 <= i < p_filesz ph -> load8 cr3 p2 (p_vaddr ph + i) = Some (u8 img (p_offset ph + i))).
  { intros i Hi. replace i with (Z.of_nat (Z.to_nat i)) at 1 by lia. rewrite <- Hb. apply Hl2. by apply fmap_seqZ_some. }
  assert (Hmap : forall v, user v -> is_Some (translate cr3 (pmem p) v) ->
    translate cr3 (pmem p2) v = translate cr3 (pmem p) v /\ (~ in_seg ph v -> load8 cr3 p2 v = load8 cr3 p v)).
  { intros v Hv Hm. destruct (Hk1 v Hv Hm) as [Ek El]. destruct (user_addr v Hv) as [Hr _]. split; [by rewrite Ht2|].
    intros Hno. rewrite Ho2; [done|done|]. unfold in_seg in Hno. lia. }
  destruct (Z.ltb_spec (p_filesz ph) (p_memsz ph)) as [Hbss|Hbss].
  - replace (p_vaddr ph +w p_filesz ph) with (p_vaddr ph + p_filesz ph) by (unfold KERNEL_BASE in *; rewrite wrap32_small by lia; done).
    set (zs := replicate _ 0). assert (Hzl : Z.of_nat (length zs) = p_memsz ph - p_filesz ph) by (unfold zs; rewrite length_replicate; lia).
    destruct (store_bytes_spec zs cr3 p2 (p_vaddr ph + p_filesz ph) Hs2) as (p3 & -> & Hs3 & Eq3 & Ht3 & Hl3 & Ho3);
      [split; lia|lia|intros w Hw; rewrite Ht2 by (unfold KERNEL_BASE in *; lia); apply Hm1; lia|].
    cbn [mbind option_bind]. rewrite Hzl in Ho3. exists p3. splits; [done|done| | |by rewrite Eq3, Eq2].
    + intros i Hi. unfold seg_byte. destruct (Z.ltb_spec i (p_filesz ph)).
      * rewrite Ho3; [apply Hbytes; lia|split; lia|lia].
      * replace (p_vaddr ph + i) with (p_vaddr ph + p_filesz ph + Z.of_nat (Z.to_nat (i - p_filesz ph))) by lia.
        apply (Hl3 _ 0). apply lookup_replicate. lia.
    + intros v Hv Hm Hno. destruct (Hmap v Hv Hm) as [E1 E2]. destruct (user_addr v Hv) as [Hr _]. rewrite Ht3 by done.
      rewrite Ho3; [split; [done|]; apply E2, Hno; by left|done|].
      specialize (Hno ph ltac:(by left)). unfold in_seg in Hno. lia.
  - cbn [mbind option_bind]. exists p2. splits; [done|done| | |by rewrite Eq2].
    + intros i Hi. unfold seg_byte. destruct (Z.ltb_spec i (p_filesz ph)); [|lia]. apply Hbytes; lia.
    + intros v Hv Hm Hno. destruct (Hmap v Hv Hm) as [E1 E2]. split; [done|]. apply E2, Hno. by left.
Qed.

(** ** All segments *)

Lemma load_segments_spec n img e k cr3 p s :
  let l := filter (fun ph => p_type ph = PT_LOAD) ((fun i => read_phdr img (e + 32 * i)) <$> seqZ k (Z.of_nat n)) in
  (forall o, 0 <= img o < 256) -> space_ok cr3 p -> cpu_cr3 s = cr3 -> Forall seg_ok l -> disjoint_segs l ->
  (frames_needed l <= length (freeq p))%nat ->
  exists p', load_segments n img (e + 32 * k) (p, s) = Some (true, (p', s)) /\ space_ok cr3 p' /\
    Forall (placed cr3 p' img) l /\ keeps_outside cr3 p p' l.
Proof.
  cbv zeta. intros Himg. revert k p. induction n as [|n IH]; intros k p Hs Hc Hok Hdis Hfr; cbn [load_segments].
  { exists p. done. }
  rewrite seqZ_cons, fmap_cons, filter_cons in * by lia. replace (Z.pred (Z.of_nat (S n))) with (Z.of_nat n) in * by lia.
  replace (e + 32 * k + 32) with (e + 32 * Z.succ k) by lia. set (ph := read_phdr img (e + 32 * k)) in *.
  destruct (Z.eqb_spec (p_type ph) PT_LOAD) as [Et|Et]; cbn [negb].
  - rewrite decide_True in * by done. set (l := filter _ _) in *. apply Forall_cons in Hok as [Hok1 Hok]. cbn [disjoint_segs] in Hdis. destruct Hdis as [Hd1 Hdis].
    unfold frames_needed in Hfr. cbn [sum_list_with] in Hfr.
    destruct (load_segment_spec img ph cr3 p s Himg Hs Hc Hok1) as (p1 & -> & Hs1 & Hp1 & Hk1 & Hl1); [lia|]. cbn [mbind option_bind negb].
    destruct (IH (Z.succ k) p1 Hs1 Hc Hok Hdis) as (p2 & -> & Hs2 & Hp2 & Hk2); [unfold frames_needed; fold l; lia|].
    exists p2. splits; [done|done|apply Forall_cons; split; [|done]|].
    + intros i Hi. rewrite <- Hp1 by done. assert (Hui : user (p_vaddr ph + i)) by (destruct Hok1 as (Hu & _ & He); destruct Hu; split; lia).
      apply Hk2; [done| |].
      * pose proof (Hp1 i Hi) as E. unfold load8 in E. destruct (translate _ _ _); [eauto|done].
      * intros ph' Hin. apply Hd1; [done|]. unfold in_seg. lia.
    + intros v Hv Hm Hno. destruct (Hk1 v Hv Hm) as [E1 E2]; [intros ph' ->%list_elem_of_singleton; apply Hno; by left|].
      destruct (Hk2 v Hv) as [E3 E4]; [by rewrite E1|intros ph' Hin; apply Hno; by right|]. by rewrite E3, E4.
  - rewrite decide_False in * by done. by apply IH.
Qed.

(** C8: loading a program.  An image with a bad header is refused and nothing changes.
    For an image whose segments lie in the user part of the address space and are disjoint,
    and with enough free frames, [elf_load] succeeds and reports the entry point; then every
    byte of every segment is at its address (the bytes of the file, zeros behind them), all
    other user memory is as before, and the address space is well formed: no two of its pages
    share a frame, and none of them is a page table or free. *)
Theorem elf_load_places_segments img e cr3 p s :
  (forall o, 0 <= img o < 256) -> space_ok cr3 p -> cpu_cr3 s = cr3 ->
  (ehdr_ok (read_ehdr img) = false -> elf_load img e (p, s) = Some (-1, e, (p, s))) /\
  (ehdr_ok (read_ehdr img) = true -> Forall seg_ok (segments img) -> disjoint_segs (segments img) ->
   (frames_needed (segments img) <= length (freeq p))%nat ->
   exists p', elf_load img e (p, s) = Some (0, e_entry (read_ehdr img), (p', s)) /\ space_ok cr3 p' /\
     Forall (placed cr3 p' img) (segments img) /\ keeps_outside cr3 p p' (segments img)).
Proof.
  intros Himg Hs Hc. unfold elf_load. split; intros ->; cbn [negb]; [done|]. intros Hok Hdis Hfr.
  unfold segments, phdrs in *. cbv zeta in *. set (h := read_ehdr img) in *.
  assert (Hn : 0 <= e_phnum h).
  { unfold h, read_ehdr. cbn [e_phnum]. unfold u16, u8. pose proof (Himg (wrap32 44)). pose proof (Himg (wrap32 (44 + 1))). lia. }
  rewrite <- (Z2Nat.id (e_phnum h)) in Hok, Hdis, Hfr |- * by done. rewrite Nat2Z.id.
  destruct (load_segments_spec (Z.to_nat (e_phnum h)) img (e_phoff h) 0 cr3 p s Himg Hs Hc Hok Hdis Hfr) as (p' & E & Hs' & Hp' & Hk').
  change (32 * 0) with 0 in E. rewrite Z.add_0_r in E. rewrite E. cbn [mbind option_bind]. by exists p'.
Qed.

(** ** Witness: a program of one segment, loaded after boot *)

Lemma boot_no_user v : user v -> translate 0x100000 (pmem boot_paging) v = None.
Proof.
  intros [H1 H2]. unfold KERNEL_BASE in H2.
  destruct (paging_init_tables 0x100000 0x101000 0x102000 0 (mk_paging ∅ [] ∅ ∅ 0) boot_tables) as [Hpd _]. cbv zeta in Hpd.
  fold boot_paging in Hpd. assert (Hi : 1 <= pd_index v < 768) by (rewrite pd_index_div; zmod).
  unfold translate. rewrite Hpd by lia. destruct (Z.eqb_spec (pd_index v) 0); [lia|]. destruct (Z.eqb_spec (pd_index v) 1023); [lia|].
  destruct (Z.leb_spec 768 (pd_index v)); [lia|]. done.
Qed.

Lemma boot_space_ok : space_ok 0x100000 boot_paging.
Proof.
  split; [exact boot_mm_ok|intros v a Hv|intros v a Hv|intros v v' a a' Hv _]; rewrite (boot_no_user v Hv); intros E; discriminate E.
Qed.

Definition le32 (w : Z) : list Z := word_bytes w.

(** A file header, a program header (two bytes of file, 5000 in memory), and the two bytes. *)
Definition demo_elf : list Z :=
  ELFMAG ++ [1; 1] ++ replicate 18 0 ++ le32 0x8048000 ++ le32 52 ++ replicate 12 0 ++ [1; 0] ++ replicate 6 0 ++
  le32 PT_LOAD ++ le32 84 ++ le32 0x8048000 ++ le32 0 ++ le32 2 ++ le32 5000 ++ replicate 8 0 ++ [0xEB; 0xFE].
Definition demo_img (o : Z) : Z := default 0 (demo_elf !! Z.to_nat o).

Lemma demo_segments : segments demo_img = [mk_phdr PT_LOAD 84 0x8048000 2 5000].
Proof. vm_compute. reflexivity. Qed.

Lemma demo_img_bytes o : 0 <= demo_img o < 256.
Proof.
  unfold demo_img. destruct (demo_elf !! Z.to_nat o) as [b|] eqn:E; cbn [default]; [|lia].
  assert (H : forallb (fun b => (0 <=? b) && (b <? 256)) demo_elf = true) by (vm_compute; reflexivity).
  rewrite forallb_forall in H. specialize (H b). apply list_elem_of_lookup_2, list_elem_of_In in E. specialize (H E).
  apply andb_true_iff in H as [H1 H2]. apply Z.leb_le in H1. apply Z.ltb_lt in H2. done.
Qed.

Lemma elf_load_places_segments_witness :
  exists p', elf_load demo_img 0 (boot_paging, demo_cpu) = Some (0, 0x8048000, (p', demo_cpu)) /\ space_ok 0x100000 p' /\
     placed 0x100000 p' demo_img (mk_phdr PT_LOAD 84 0x8048000 2 5000).
Proof.
  destruct (proj2 (elf_load_places_segments demo_img 0 0x100000 boot_paging demo_cpu demo_img_bytes boot_space_ok eq_refl))
    as (p' & E & Hs & Hp & _).
  - vm_compute. reflexivity.
  - rewrite demo_segments. apply Forall_singleton. unfold seg_ok, user, KERNEL_BASE. cbn [p_vaddr p_filesz p_memsz]. lia.
  - rewrite demo_segments. split; [|done]. intros ph' v Hin. by apply not_elem_of_nil in Hin.
  - rewrite demo_segments. unfold boot_paging. rewrite paging_init_freeq. unfold init_freeq. rewrite length_seqZ.
    apply Nat.leb_le. vm_compute. reflexivity.
  - exists p'. rewrite demo_segments in Hp.
    split; [exact E|]. split; [exact Hs|exact (Forall_inv Hp)].
Defined.
