(* ===== verification/Vm.v ===== *)
(** * VM objects and maps (src/vm/vm.c, include/vm/vm.h)

    An object holds the pages of an address space and may shadow another object; objects and
    maps are heap objects in stores of their own.  [vm_page.object] is written and never
    read; it has no counterpart here. *)

From S2P Require Import Prelude LList Heap HeapInv HeapSpec HeapTheorems Alloc Task Paging.

Definition OBJ_ANON : Z := 0x01.
Definition OBJ_COW : Z := 0x02.
Definition OBJ_DEAD : Z := 0x04.
Definition SIZEOF_VM_OBJECT : Z := 24.
Definition SIZEOF_VM_MAP : Z := 8.

(** [vo_memq]: the indices in [vm_page_array] of the pages on the list [memq]. *)
Record vm_object := mk_vmo { vo_memq : list Z; vo_shadow : Z; vo_ref : Z; vo_size : Z; vo_flags : Z }.
#[export] Instance eta_vmo : Eta vm_object := fun o => mk_vmo (vo_memq o) (vo_shadow o) (vo_ref o) (vo_size o) (vo_flags o).

Record vm_map := mk_vmap { user_object : Z; page_directory : Z }.

Record vmspace (A : Type) := mk_vmspace {
  vmem : A;
  vpg : paging;
  objects : gmap Z vm_object;
  vmaps : gmap Z vm_map;
}.
Arguments mk_vmspace {A} _ _ _ _. Arguments vmem {A} _. Arguments vpg {A} _. Arguments objects {A} _. Arguments vmaps {A} _.
#[export] Instance eta_vmspace A : Eta (vmspace A) := fun s => mk_vmspace (vmem s) (vpg s) (objects s) (vmaps s).

Section Vm.
Context {A : Type} `{Allocator A}.
Implicit Types w : vmspace A.

Definition vm_object_alloc (pages : Z) w : option (Z * vmspace A) :=
  '(p, a) ← al_malloc SIZEOF_VM_OBJECT (vmem w);
  let w := w <| vmem := a |> in
  if p =? 0 then Some (0, w)
  else Some (p, w <| objects := <[p := mk_vmo [] 0 1 pages OBJ_ANON]> (objects w) |>).

(** [vm_count_user_pages] has the body of [count_user_pages] of process.c. *)
Definition vm_count_user_pages (cr3 : Z) (p : paging) : option Z := count_user_pages cr3 p.

Definition vm_scan_user_pages (cr3 obj : Z) w : option (vmspace A) :=
  for_user_ptes cr3 vpg (fun _ _ pte w =>
    if negb (tst pte 1) then Some w
    else
      let idx := Z.shiftr pte 12 in
      let p := vpg w in
      let p := p <| ref_count := wr (ref_count p) idx 1 |> <| pg_flags := wr (pg_flags p) idx PG_BUSY |> in
      o ← objects w !! obj;
      Some (w <| vpg := p |> <| objects := <[obj := o <| vo_memq := vo_memq o ++ [idx] |>]> (objects w) |>)) w.

Definition vm_map_create (cr3 : Z) w : option (Z * vmspace A) :=
  n ← vm_count_user_pages cr3 (vpg w);
  '(map, a) ← al_malloc SIZEOF_VM_MAP (vmem w);
  let w := w <| vmem := a |> in
  if map =? 0 then Some (0, w)
  else
    '(obj, w) ← vm_object_alloc n w;
    if obj =? 0 then a ← al_free map (vmem w); Some (0, w <| vmem := a |>)
    else
      let w := w <| vmaps := <[map := mk_vmap obj cr3]> (vmaps w) |> in
      w ← vm_scan_user_pages cr3 obj w;
      Some (map, w).

Definition vm_object_reference (obj : Z) w : option (vmspace A) :=
  if obj =? 0 then Some w
  else o ← objects w !! obj; Some (w <| objects := <[obj := o <| vo_ref := vo_ref o +w 1 |>]> (objects w) |>).

Definition vm_object_shadow (backing : Z) w : option (Z * vmspace A) :=
  '(obj, w) ← vm_object_alloc 0 w;
  if obj =? 0 then Some (0, w)
  else
    o ← objects w !! obj;
    let w := w <| objects := <[obj := o <| vo_shadow := backing |> <| vo_flags := OBJ_COW |>]> (objects w) |> in
    if negb (backing =? 0) then w ← vm_object_reference backing w; Some (obj, w) else Some (obj, w).

(** [while (!TAILQ_EMPTY(&obj->memq))]: release the pages, first to last. *)
Definition release_pages (memq : list Z) (p : paging) : paging :=
  foldl (fun p idx => free_page_frame (idx * PAGE_SIZE) p) p memq.

(** [while (1)]: drop a reference, and go on with the shadowed object when it was the last. *)
Fixpoint deallocate_loop (fuel : nat) (obj : Z) w : option (vmspace A) :=
  match fuel with
  | O => None
  | S fuel' =>
      o ← objects w !! obj;
      if vo_ref o =? 0 then Some w
      else
        let o := o <| vo_ref := vo_ref o - 1 |> in
        let w := w <| objects := <[obj := o]> (objects w) |> in
        if 0 <? vo_ref o then Some w
        else
          let w := w <| vpg := release_pages (vo_memq o) (vpg w) |> in
          let next := vo_shadow o in
          a ← al_free obj (vmem w);
          let w := w <| vmem := a |> <| objects := delete obj (objects w) |> in
          if next =? 0 then Some w else deallocate_loop fuel' next w
  end.

(** Every round that goes on frees an object. *)
Definition vm_object_deallocate (obj : Z) w : option (vmspace A) :=
  if obj =? 0 then Some w else deallocate_loop (S (size (objects w))) obj w.

(** ** Deallocation ends *)

(** How many objects shadow [o]. *)
Definition shadowers (m : gmap Z vm_object) (o : Z) : nat := size (filter (fun kx => vo_shadow kx.2 = o) m).

(** Objects are live heap blocks; the objects that shadow one hold a reference each. *)
Record vm_ok w (L : gset Z) (k : Z) : Prop := {
  vk_mem : al_ok (vmem w) L k;
  vk_live : dom (objects w) ⊆ L;
  vk_ref o x : objects w !! o = Some x -> 0 < vo_ref x /\ Z.of_nat (shadowers (objects w) o) <= vo_ref x;
  vk_shadow o x : objects w !! o = Some x -> vo_shadow x <> 0 -> is_Some (objects w !! vo_shadow x);
}.

(** The caller has a reference of its own. *)
Definition holds_ref w (o : Z) : Prop :=
  exists x, objects w !! o = Some x /\ Z.of_nat (shadowers (objects w) o) < vo_ref x.

(** What dropping a reference to [o] does to the objects, and the pages it releases. *)
Inductive dealloc : gmap Z vm_object -> Z -> list Z -> gmap Z vm_object -> Prop :=
| dealloc_keep m o x : m !! o = Some x -> 1 < vo_ref x ->
    dealloc m o [] (<[o := x <| vo_ref := vo_ref x - 1 |>]> m)
| dealloc_last m o x : m !! o = Some x -> vo_ref x = 1 -> vo_shadow x = 0 ->
    dealloc m o (vo_memq x) (delete o m)
| dealloc_next m o x pgs m' : m !! o = Some x -> vo_ref x = 1 -> vo_shadow x <> 0 ->
    dealloc (delete o m) (vo_shadow x) pgs m' -> dealloc m o (vo_memq x ++ pgs) m'.

Lemma shadowers_delete m o x q : m !! o = Some x ->
  shadowers m q = ((if decide (vo_shadow x = q) then 1 else 0) + shadowers (delete o m) q)%nat.
Proof.
  intros Ho. unfold shadowers. rewrite map_filter_delete. case_decide as E.
  - rewrite map_size_delete_Some; [|exists x; by apply map_lookup_filter_Some].
    assert (size (filter (fun kx : Z * vm_object => vo_shadow kx.2 = q) m) <> 0)%nat; [|lia].
    intros E0%map_size_empty_inv. assert (E1 : filter (fun kx : Z * vm_object => vo_shadow kx.2 = q) m !! o = Some x) by (by apply map_lookup_filter_Some).
    by rewrite E0 in E1.
  - rewrite delete_id; [done|]. apply map_lookup_filter_None. right. intros y Hy. by simplify_eq.
Qed.

Lemma shadowers_ref m o x r q : m !! o = Some x -> shadowers (<[o := x <| vo_ref := r |>]> m) q = shadowers m q.
Proof.
  intros Ho. rewrite (shadowers_delete (<[o := _]> m) o (x <| vo_ref := r |>)) by apply lookup_insert_eq.
  by rewrite delete_insert_eq, (shadowers_delete m o x q Ho).
Qed.

Lemma shadowers_zero m o : shadowers m o = 0%nat -> forall q y, m !! q = Some y -> vo_shadow y <> o.
Proof.
  intros E0%map_size_empty_inv q y Hq E.
  assert (E1 : filter (fun kx : Z * vm_object => vo_shadow kx.2 = o) m !! q = Some y) by (by apply map_lookup_filter_Some).
  by rewrite E0 in E1.
Qed.

Lemma release_app a b p : release_pages (a ++ b) p = release_pages b (release_pages a p).
Proof. apply foldl_app. Qed.

(** The object [o] loses its last reference: the rest is well formed. *)
Lemma vm_ok_delete w L k o x a p :
  vm_ok w L k -> objects w !! o = Some x -> shadowers (objects w) o = 0%nat -> al_ok a (L ∖ {[o]}) k ->
  vm_ok (w <| vpg := p |> <| vmem := a |> <| objects := delete o (objects w) |>) (L ∖ {[o]}) k.
Proof.
  intros [Hm HL Hr Hs] Ho H0 Ha. split; cbn [vmem objects set_field eta_vmspace].
  - done.
  - rewrite dom_delete_L. set_solver.
  - intros q y [Hne Hq]%lookup_delete_Some. destruct (Hr q y Hq) as [? Hle]. split; [done|].
    rewrite (shadowers_delete _ o x) in Hle by done. lia.
  - intros q y [Hne Hq]%lookup_delete_Some Hy. rewrite lookup_delete_ne; [by eapply Hs|].
    intros ->. by apply (shadowers_zero _ _ H0 q y Hq).
Qed.

Lemma deallocate_loop_spec fuel o w L k :
  vm_ok w L k -> holds_ref w o -> (size (objects w) < fuel)%nat ->
  exists w' L' pgs, deallocate_loop fuel o w = Some w' /\ vm_ok w' L' k /\
    dealloc (objects w) o pgs (objects w') /\ vpg w' = release_pages pgs (vpg w) /\ vmaps w' = vmaps w.
Proof.
  revert o w L. induction fuel as [|fuel IH]; intros o w L Hw (x & Ho & Hx) Hf; [lia|]. cbn [deallocate_loop].
  pose proof (vk_ref _ _ _ Hw o x Ho) as [Hr0 _]. rewrite Ho. cbn [mbind option_bind].
  destruct (Z.eqb_spec (vo_ref x) 0) as [?|_]; [lia|]. set (x' := x <| vo_ref := vo_ref x - 1 |>). change (vo_ref x') with (vo_ref x - 1).
  destruct (Z.ltb_spec 0 (vo_ref x - 1)) as [Hgt|Hle].
  { eexists _, L, []. split; [done|]. split; [|split; [|done]].
    - destruct Hw as [Hm HL Hr Hs]. split; cbn [vmem objects set_field eta_vmspace]; [done|..].
      + rewrite dom_insert_L. apply elem_of_dom_2 in Ho. set_solver.
      + intros q y [[<- <-]|[Hne Hq]]%lookup_insert_Some; unfold x'; rewrite shadowers_ref by done; [cbn; lia|eauto].
      + intros q y [[<- <-]|[Hne Hq]]%lookup_insert_Some Hy; apply lookup_insert_is_Some'; right; [by apply (Hs o x)|by eapply Hs].
    - apply dealloc_keep; [done|lia]. }
  assert (Hr1 : vo_ref x = 1) by lia. assert (H0 : shadowers (objects w) o = 0%nat) by lia.
  change (vo_memq x') with (vo_memq x). change (vo_shadow x') with (vo_shadow x). clearbody x'.
  cbn [vmem set_field eta_vmspace objects vpg].
  destruct (al_free_spec _ _ _ o (vk_mem _ _ _ Hw)) as (a & Ea & Ha).
  { apply (vk_live _ _ _ Hw). by eapply elem_of_dom_2. }
  rewrite Ea. cbn [mbind option_bind]. rewrite delete_insert_eq.
  pose proof (vm_ok_delete w L k o x a (release_pages (vo_memq x) (vpg w)) Hw Ho H0 Ha) as Hw'.
  destruct (Z.eqb_spec (vo_shadow x) 0) as [Es|Es].
  { eexists _, _, (vo_memq x). split; [done|]. split; [exact Hw'|]. split; [by apply dealloc_last|done]. }
  destruct (vk_shadow _ _ _ Hw o x Ho Es) as [y Hy]. pose proof (vk_ref _ _ _ Hw _ y Hy) as [_ Hcnt].
  assert (Hne : o <> vo_shadow x) by (intros E; by apply (shadowers_zero _ _ H0 o x Ho)).
  rewrite (shadowers_delete _ o x) in Hcnt by done. rewrite decide_True in Hcnt by done.
  set (w1 := w <| vpg := release_pages (vo_memq x) (vpg w) |> <| vmem := a |> <| objects := delete o (objects w) |>) in *.
  destruct (IH (vo_shadow x) w1 (L ∖ {[o]}) Hw') as (w' & L' & pgs & Er & Hok & Hd & Hp & Hmp).
  - exists y. change (objects w1) with (delete o (objects w)). rewrite lookup_delete_ne by done. split; [done|]. lia.
  - change (objects w1) with (delete o (objects w)). rewrite map_size_delete_Some by eauto.
    assert (size (objects w) <> 0)%nat; [|lia]. intros E%map_size_empty_inv. by rewrite E in Ho.
  - exists w', L', (vo_memq x ++ pgs). split; [exact Er|]. split; [done|]. split; [by eapply dealloc_next|]. split; [|done].
    rewrite release_app. exact Hp.
Qed.

(** C40: [vm_object_deallocate] ends, whatever the objects it shadows: it drops the
    caller's reference, and while an object loses its last one it releases the object's pages,
    frees the object and drops the reference it held on the object it shadows.  It touches no
    freed object, and afterwards every object still has at least as many references as
    objects that shadow it. *)
Theorem vm_object_deallocate_ends o w L k :
  vm_ok w L k -> holds_ref w o -> o <> 0 ->
  exists w' L' pgs, vm_object_deallocate o w = Some w' /\ vm_ok w' L' k /\
    dealloc (objects w) o pgs (objects w') /\ vpg w' = release_pages pgs (vpg w) /\ vmaps w' = vmaps w.
Proof.
  intros Hw Hr Ho. unfold vm_object_deallocate. destruct (Z.eqb_spec o 0) as [?|_]; [done|].
  apply (deallocate_loop_spec _ _ _ L); [done|done|lia].
Qed.
End Vm.

(** Two objects on the heap model of [bump]: 32 shadows 64, which has another reference. *)
Definition vm_demo : vmspace bump :=
  mk_vmspace (mk_bump 128 {[32; 64]}) (mk_paging ∅ [1025] {[1024 := 1]} ∅ 0)
    {[ 32 := mk_vmo [1024] 64 1 1 OBJ_COW; 64 := mk_vmo [] 0 2 0 OBJ_ANON ]} ∅.

Lemma vm_demo_ok : vm_ok vm_demo {[32; 64]} 100.
Proof.
  split; cbn [vmem objects vm_demo].
  - unfold al_ok, bump_allocator, bump_ok. cbn. splits; [done|done|done|]. intros p Hp. set_unfold in Hp. lia.
  - rewrite dom_insert_L, dom_singleton_L. set_solver.
  - intros o x [[<- <-]|[? [<- <-]%lookup_singleton_Some]]%lookup_insert_Some; by vm_compute.
  - intros o x [[<- <-]|[? [<- <-]%lookup_singleton_Some]]%lookup_insert_Some Hs; [by exists (mk_vmo [] 0 2 0 OBJ_ANON)|done].
Qed.

Lemma vm_object_deallocate_ends_witness :
  vm_ok vm_demo {[32; 64]} 100 /\
  exists w' L' pgs, vm_object_deallocate 32 vm_demo = Some w' /\ vm_ok w' L' 100 /\
    dealloc (objects vm_demo) 32 pgs (objects w') /\ freeq (vpg w') = [1024; 1025].
Proof.
  split; [exact vm_demo_ok|].
  destruct (vm_object_deallocate_ends 32 vm_demo {[32; 64]} 100 vm_demo_ok) as (w' & L' & pgs & Er & Hok & Hd & _).
  - exists (mk_vmo [1024] 64 1 1 OBJ_COW). split; [reflexivity|]. vm_compute. reflexivity.
  - discriminate.
  - exists w', L', pgs. split; [exact Er|]. split; [exact Hok|]. split; [exact Hd|].
    assert (E : (freeq ∘ vpg <$> vm_object_deallocate 32 vm_demo) = Some [1024; 1025]) by (vm_compute; reflexivity).
    rewrite Er in E. injection E as E. exact E.
Defined.
