(* ===== verification/Process.v ===== *)
(** * Processes (src/kernel/process.c, include/kernel/process.h, include/kernel/sandbox.h)

    fork, exec, wait and the first process.  The kernel state puts together page frames,
    scheduler, file systems and VM objects; the file systems' state holds the heap. *)

From S2P Require Import Prelude LList Cstr Heap HeapInv HeapSpec HeapTheorems Alloc Task Sched Paging UserMem Vm Vfs Memfs Elf.

Definition USER_STACK_VIRT : Z := 0xBFFFF000.
Definition MAX_USER_PAGES : Z := 256.
Definition EXEC_BUF_SIZE : Z := 65536.
Definition MAX_EXEC_ARGS : nat := 8.
Definition EXEC_ARG_MAXLEN : Z := 64.
Definition ROOT_PATH_SIZE : Z := 64.

Definition EPERM : Z := 1.
Definition ENOENT : Z := 2.
Definition EIO : Z := 5.
Definition ENOEXEC : Z := 8.
Definition ENOMEM : Z := 12.
Definition ENOTDIR : Z := 20.
Definition EINVAL : Z := 22.

(** [struct fork_sandbox_config]; the root path is a user pointer. *)
Record fork_sandbox_config := mk_sb {
  caps_allow : Z; sb_mem_limit : Z; sb_cpu_quota : Z; sb_root_path : Z; sb_tier_override : Z;
}.

(** [struct pt_regs], and the five words of the interrupt frame that [esp] points to. *)
Record pt_regs := mk_regs {
  r_edi : Z; r_esi : Z; r_ebp : Z; r_esp : Z; r_ebx : Z; r_edx : Z; r_ecx : Z; r_eax : Z;
  r_frame : list Z;
}.

Record kernel (A : Type) := mk_kernel {
  kp : paging;
  ks : sched;
  kv : vfs A;
  kobjects : gmap Z vm_object;
  kmaps : gmap Z vm_map;
}.
Arguments mk_kernel {A} _ _ _ _ _. Arguments kp {A} _. Arguments ks {A} _. Arguments kv {A} _.
Arguments kobjects {A} _. Arguments kmaps {A} _.
#[export] Instance eta_kernel A : Eta (kernel A) := fun k => mk_kernel (kp k) (ks k) (kv k) (kobjects k) (kmaps k).

(** ** Paths *)

Definition path_is_within (child parent : list Z) : bool :=
  if negb (strncmp child parent (length parent) =? 0) then false
  else (char_at child (length parent) =? 0) || (char_at child (length parent) =? SLASH).

(** [resolve_path]: [root] is the root path of the task, empty when there is no task. *)
Definition resolve_path (root path : list Z) (buflen : Z) : list Z :=
  if (char_at root 0 =? 0) || (strcmp root [SLASH] =? 0) then path
  else if buflen <? strlen root + strlen path + 2 then path
  else
    let buf := if negb (char_at root (length root - 1) =? SLASH) then root ++ [SLASH] else root in
    buf ++ path.

(** [task_root_path]: the root path copied from user memory, empty on failure. *)
Definition task_root_path (cr3 : Z) (p : paging) (src : Z) : option (list Z) :=
  if src =? 0 then Some []
  else r ← copy_user_string cr3 p src ROOT_PATH_SIZE; Some (default [] r).

(** ** fork *)

(** The pages of the parent, as virtual address and frame; [None] in the second component:
    more than [MAX_USER_PAGES]. *)
Definition collect_pages (cr3 : Z) (p : paging) : option (option (list (Z * Z))) :=
  r ← for_user_ptes cr3 fst (fun i j pte '(p, acc) =>
        match acc with
        | None => Some (p, None)
        | Some l =>
            if tst pte PTE_PRESENT then
              if MAX_USER_PAGES <=? Z.of_nat (length l) then Some (p, None)
              else Some (p, Some (l ++ [(Z.lor (Z.shiftl i 22) (Z.shiftl j 12), Z.land pte FRAME_MASK)]))
            else Some (p, Some l)
        end) (p, Some []);
  Some (snd r).

(** Capabilities, memory limit and CPU quota of the child; a field of 0 in the
    configuration means the parent's value. *)
Definition fork_caps (sb : option fork_sandbox_config) (pt : task) : Z :=
  match sb with
  | Some b => if negb (caps_allow b =? 0) then Z.land (caps pt) (caps_allow b) else caps pt
  | None => caps pt
  end.

Definition fork_mem_limit (sb : option fork_sandbox_config) (pt : task) : Z :=
  match sb with
  | Some b =>
      if negb (sb_mem_limit b =? 0) then
        if negb (mem_limit pt =? 0) && (mem_limit pt <? sb_mem_limit b) then mem_limit pt else sb_mem_limit b
      else mem_limit pt
  | None => mem_limit pt
  end.

Definition fork_cpu_quota (sb : option fork_sandbox_config) (pt : task) : Z :=
  match sb with
  | Some b =>
      if negb (sb_cpu_quota b =? 0) then
        let q := if 100 <? sb_cpu_quota b then 100 else sb_cpu_quota b in
        if negb (cpu_quota pt =? 0) && (cpu_quota pt <? q) then cpu_quota pt else q
      else cpu_quota pt
  | None => cpu_quota pt
  end.

(** The tier first: [inl] is the error code of a refused override. *)
Definition fork_limits (sb : option fork_sandbox_config) (pt c : task) : Z + task :=
  let limits tov tr :=
    inr (c <| tier_override := tov |> <| tier := tr |> <| caps := fork_caps sb pt |>
           <| mem_limit := fork_mem_limit sb pt |> <| cpu_quota := fork_cpu_quota sb pt |>) in
  match sb with
  | Some b =>
      if negb (sb_tier_override b =? 0) then
        if (sb_tier_override b <? 0) || (TIER_CRITICAL <? sb_tier_override b) then inl (- EINVAL)
        else if negb (tst (caps pt) CAP_SET_TIER) then inl (- EPERM)
        else limits (sb_tier_override b) (sb_tier_override b)
      else limits (tier_override pt) (tier pt)
  | None => limits (tier_override pt) (tier pt)
  end.

(** The root path of the child. *)
Definition fork_root (cr3 : Z) (p : paging) (sb : option fork_sandbox_config) (pt c : task) : option (Z + task) :=
  match sb with
  | Some b =>
      if negb (sb_root_path b =? 0) then
        r ← copy_user_string cr3 p (sb_root_path b) ROOT_PATH_SIZE;
        match r with
        | None => Some (inl (- EINVAL))
        | Some sub_root =>
            if negb (char_at (root_path pt) 0 =? 0) && negb (path_is_within sub_root (root_path pt))
            then Some (inl (- EPERM))
            else Some (inr (c <| root_path := sub_root |>))
        end
      else Some (inr (c <| root_path := root_path pt |>))
  | None => Some (inr (c <| root_path := root_path pt |>))
  end.

(** The child's fields up to the page copies: [inl] is the error returned after the slot is
    given back. *)
Definition fork_sandbox (cr3 : Z) (p : paging) (sb : option fork_sandbox_config) (npages : Z) (parent_ : Z) (pt c : task)
    : option (Z + task) :=
  let c := c <| priority := priority pt |> <| timeslice := TASK_TIMESLICE |> <| state := TASK_READY |>
             <| mlfq_level := 0 |> <| parent := parent_ |> <| map_ptr := 0 |> <| wd_managed := 0 |> in
  match fork_limits sb pt c with
  | inl e => Some (inl e)
  | inr c =>
      r ← fork_root cr3 p sb pt c;
      match r with
      | inl e => Some (inl e)
      | inr c =>
          let limit_pages := if negb (mem_limit c =? 0) then wrap32 (mem_limit c / 4096) else 0 in
          if negb (limit_pages =? 0) && (limit_pages <? npages) then Some (inl (-1)) else Some (inr c)
      end
  end.

(** [for (i = 0; i < npages; i++)]: a copy of every page in the child's page directory, which
    is loaded; [false]: out of memory. *)
Fixpoint copy_pages (pages : list (Z * Z)) (st : paging * sched) : option (bool * (paging * sched)) :=
  match pages with
  | [] => Some (true, st)
  | (vaddr, phys) :: pages =>
      let '(new_phys, (p, s)) := alloc_page_frame st in
      if new_phys =? 0 then Some (false, (p, s))
      else
        p ← map_page (cpu_cr3 s) vaddr new_phys (Z.lor (Z.lor PTE_PRESENT PTE_RW) PTE_USER) p;
        p ← vm_copy_phys (cpu_cr3 s) phys new_phys p;
        copy_pages pages (p, s)
  end.

(** [teardown_current_pd(pd_phys, target_cr3)] *)
Definition teardown (pd_phys target_cr3 : Z) (st : paging * sched) : option (paging * sched) :=
  let '(p, s) := st in
  p ← teardown_current_pd (cpu_cr3 s) pd_phys p;
  Some (p, s <| cpu_cr3 := target_cr3 |>).

Section Process.
Context {A : Type} `{Allocator A}.
Implicit Types k : kernel A.

(** Code addresses, the kernel's page directory, the end of a task's kernel stack, the
    operation tables, and what the bytes of a fresh heap block happen to be. *)
Variables (fork_return user_process_entry task_exit_handler kernel_pd : Z).
Variable stack_end : Z -> Z.
Variable iops : Z -> option (inode_operations (vfs A)).
Variable fops : Z -> option (file_operations (vfs A)).
Variable junk : Z -> Z.

(** The kernel stack of the child: [fork_return], the pusha block with [eax = 0], the
    interrupt frame. *)
Definition fork_stack (regs : pt_regs) (child : Z) : list Z :=
  let intframe := stack_end child - 20 in
  [fork_return; r_edi regs; r_esi regs; r_ebp regs; intframe; r_ebx regs; r_edx regs; r_ecx regs; 0] ++ r_frame regs.

Definition sys_fork (regs : pt_regs) (sb : option fork_sandbox_config) (st : paging * sched)
    : option (Z * (paging * sched)) :=
  let '(p, s) := st in
  let par := current_task s in
  if par =? 0 then Some (-1, (p, s))
  else
    pages ← collect_pages (cpu_cr3 s) p;
    match pages with
    | None => Some (-1, (p, s))
    | Some pages =>
        let '(child, s) := create_task_slot s in
        if child =? 0 then Some (-1, (p, s))
        else
          let npages := Z.of_nat (length pages) in
          r ← fork_sandbox (cpu_cr3 s) p sb npages par (tk s par) (tk s child);
          match r with
          | inl e => Some (e, (p, free_task_slot child s))
          | inr c =>
              let s := upd s child (fun _ => c) in
              '(child_pd, (p, s)) ← paging_create_task_pd (p, s);
              if child_pd =? 0 then Some (-1, (p, free_task_slot child s))
              else
                let old_cr3 := cr3 (tk s par) in
                let s := s <| cpu_cr3 := child_pd |> in
                '(ok, (p, s)) ← copy_pages pages (p, s);
                if negb ok then
                  '(p, s) ← teardown child_pd old_cr3 (p, s);
                  Some (-1, (p, free_task_slot child s))
                else
                  let s := s <| child # cr3 := child_pd |> <| child # user_entry := user_entry (tk s par) |>
                             <| child # user_stack := user_stack (tk s par) |> <| child # pages_charged := npages |> in
                  let s := s <| cpu_cr3 := old_cr3 |> in
                  let s := s <| child # kstack := fork_stack regs child |> in
                  let s := enqueue_task child s in
                  Some (pid (tk s child), (p, s))
          end
    end.

(** ** wait *)

(** A round of the loop of [sys_wait]: a result, or ([None]) the caller sleeps and the
    processor has switched to another task. *)
Definition sys_wait_round (wpid : Z) (s : sched) : option (option Z * sched) :=
  let t := current_task s in
  if t =? 0 then Some (Some (-1), s)
  else
    let child := task_find_child t wpid s in
    if child =? 0 then Some (Some (-1), s)
    else if state (tk s child) =? TASK_EXITED then
      let child_pid := pid (tk s child) in
      let code := exit_code (tk s child) in
      Some (Some (Z.lor (Z.shiftl child_pid 8) (Z.land code 0xFF)), free_task_slot child s)
    else s ← wait_block s; Some (None, s).

(** ** exec *)

(** [while (argc < MAX_EXEC_ARGS && argv[argc][0])]: the strings, pushed below [sp]; the
    addresses of the strings, first one first. *)
Fixpoint push_args (n : nat) (argv : list (list Z)) (cr3 sp : Z) (p : paging) : option (Z * list Z * paging) :=
  match n, argv with
  | S n', a :: argv =>
      if char_at a 0 =? 0 then Some (sp, [], p)
      else
        let sp := sp - (strlen a + 1) in
        p ← store_bytes cr3 sp (a ++ [0]) p;
        '(sp', addrs, p) ← push_args n' argv cr3 sp p;
        Some (sp', sp :: addrs, p)
  | _, _ => Some (sp, [], p)
  end.

Fixpoint store_words (cr3 v : Z) (ws : list Z) (p : paging) : option paging :=
  match ws with
  | [] => Some p
  | w :: ws => p ← vstore cr3 v w p; store_words cr3 (v + 4) ws p
  end.

Definition build_arg_stack (cr3 : Z) (argv : list (list Z)) (p : paging) : option (Z * paging) :=
  '(sp, addrs, p) ← push_args MAX_EXEC_ARGS argv cr3 (USER_STACK_VIRT + 4096) p;
  let argc := Z.of_nat (length addrs) in
  let sp := Z.ldiff sp 3 - (argc + 1) * 4 in
  p ← store_words cr3 sp (addrs ++ [0]) p;
  let sp := sp - 4 in
  p ← vstore cr3 sp argc p;
  Some (sp, p).

(** The bytes of the exec buffer: the file, then what the heap held. *)
Definition exec_image (bs : list Z) (o : Z) : Z := default (junk o) (bs !! Z.to_nat o).

(** Open, read into a buffer, close; [inl]: an error code.  Otherwise the buffer and the
    bytes read. *)
Definition read_program (root path : list Z) (v : vfs A) : option ((Z + Z * list Z) * vfs A) :=
  '(f, v) ← vfs_open iops fops root path O_RDONLY v;
  if f =? 0 then Some (inl (- ENOENT), v)
  else
    '(buf, v) ← malloc EXEC_BUF_SIZE v;
    if buf =? 0 then '(_, v) ← Vfs.vfs_close fops f v; Some (inl (- ENOMEM), v)
    else
      '(bytes, bs, v) ← vfs_read fops f (EXEC_BUF_SIZE - 1) v;
      '(_, v) ← Vfs.vfs_close fops f v;
      if bytes <=? 0 then v ← free buf v; Some (inl (- EIO), v)
      else Some (inr (buf, bs), v).

(** [sys_exec]; on success the words written at [regs - 2 * 4]. *)
Definition sys_exec (regs_addr : Z) (path : list Z) (argv : list (list Z)) k : option (Z * list Z * kernel A) :=
  let t := current_task (ks k) in
  if t =? 0 then Some (- EINVAL, [], k)
  else
    let root := root_path (tk (ks k) t) in
    let resolved := resolve_path root path 128 in
    '(r, v) ← read_program root resolved (kv k);
    let k := k <| kv := v |> in
    match r with
    | inl e => Some (e, [], k)
    | inr (buf, bs) =>
        '(new_pd, (p, s)) ← paging_create_task_pd (kp k, ks k);
        if new_pd =? 0 then v ← free buf (kv k); Some (- ENOMEM, [], k <| kp := p |> <| ks := s |> <| kv := v |>)
        else
          let s := s <| cpu_cr3 := new_pd |> in
          '(r, entry, (p, s)) ← elf_load (exec_image bs) 0 (p, s);
          if negb (r =? 0) then
            '(p, s) ← teardown new_pd (cr3 (tk s t)) (p, s);
            v ← free buf (kv k);
            Some (- ENOEXEC, [], k <| kp := p |> <| ks := s |> <| kv := v |>)
          else
            let '(user_stack_phys, (p, s)) := alloc_page_frame (p, s) in
            if user_stack_phys =? 0 then
              '(p, s) ← teardown new_pd (cr3 (tk s t)) (p, s);
              v ← free buf (kv k);
              Some (- ENOMEM, [], k <| kp := p |> <| ks := s |> <| kv := v |>)
            else
              p ← map_page (cpu_cr3 s) USER_STACK_VIRT user_stack_phys (Z.lor (Z.lor PTE_PRESENT PTE_RW) PTE_USER) p;
              let old_pd := cr3 (tk s t) in
              let s := s <| cpu_cr3 := old_pd |> in
              '(p, s) ← teardown old_pd kernel_pd (p, s);
              let s := s <| cpu_cr3 := new_pd |> in
              let s := s <| t # cr3 := new_pd |> <| t # user_entry := entry |> in
              '(usp, p) ← build_arg_stack (cpu_cr3 s) argv p;
              let s := s <| t # user_stack := usp |> <| t # map_ptr := 0 |> in
              n ← count_user_pages (cpu_cr3 s) p;
              let s := s <| t # pages_charged := n |> in
              s ← (if tier_override (tk s t) <? 0 then
                     let nt := elf_assign_tier resolved in
                     if negb (nt =? tier (tk s t)) then task_set_tier t nt s else Some s
                   else Some s);
              let stack := [fork_return; 0; 0; 0; regs_addr + 28; 0; 0; 0; 0; entry; 0x1B; 0x202; usp; 0x23] in
              v ← free buf (kv k);
              Some (0, stack, k <| kp := p |> <| ks := s |> <| kv := v |>)
    end.

(** ** The first process *)

Definition vm_state k : vmspace A := mk_vmspace (mem (kv k)) (kp k) (kobjects k) (kmaps k).
Definition put_vm (w : vmspace A) k : kernel A :=
  k <| kp := vpg w |> <| kv := (kv k) <| mem := vmem w |> |> <| kobjects := objects w |> <| kmaps := vmaps w |>.

(** [spawn_user_process]: the task, or NULL.  [cur_root] is the root path of the running
    task, which [vfs_open] consults. *)
Definition spawn_user_process (cur_root path : list Z) k : option (Z * kernel A) :=
  '(r, v) ← read_program cur_root path (kv k);
  let k := k <| kv := v |> in
  match r with
  | inl _ => Some (0, k)
  | inr (buf, bs) =>
      '(task_pd, (p, s)) ← paging_create_task_pd (kp k, ks k);
      let fail p s := v ← free buf (kv k); Some (0, k <| kp := p |> <| ks := s |> <| kv := v |>) in
      if task_pd =? 0 then fail p s
      else
        let old_cr3 := cpu_cr3 s in
        let s := s <| cpu_cr3 := task_pd |> in
        '(r, entry, (p, s)) ← elf_load (exec_image bs) 0 (p, s);
        if negb (r =? 0) then fail p (s <| cpu_cr3 := old_cr3 |>)
        else
          let '(user_stack_phys, (p, s)) := alloc_page_frame (p, s) in
          if user_stack_phys =? 0 then fail p (s <| cpu_cr3 := old_cr3 |>)
          else
            p ← map_page (cpu_cr3 s) USER_STACK_VIRT user_stack_phys (Z.lor (Z.lor PTE_PRESENT PTE_RW) PTE_USER) p;
            p ← vstore (cpu_cr3 s) (USER_STACK_VIRT + 4096 - 4) 0 p;
            p ← vstore (cpu_cr3 s) (USER_STACK_VIRT + 4096 - 8) 0 p;
            let '(t, s) := create_task kernel_pd task_exit_handler user_process_entry TASK_PRIO_NORMAL s in
            if t =? 0 then fail p (s <| cpu_cr3 := old_cr3 |>)
            else
              '(map, w) ← vm_map_create (cpu_cr3 s) (vm_state (k <| kp := p |> <| ks := s |>));
              let k := put_vm w (k <| ks := s <| t # map_ptr := map |> |>) in
              p ← (if negb (map =? 0) then vm_protect_readonly (cpu_cr3 s) (kp k) else Some (kp k));
              let s := ks k in
              n ← count_user_pages (cpu_cr3 s) p;
              let s := s <| t # pages_charged := n |> in
              let s := s <| cpu_cr3 := old_cr3 |> in
              let assigned := elf_assign_tier path in
              let s := s <| t # cr3 := task_pd |> <| t # user_entry := entry |>
                         <| t # user_stack := USER_STACK_VIRT + 4096 - 8 |> <| t # tier := assigned |>
                         <| t # caps := if assigned =? TIER_SYSTEM then CAP_SYSTEM_DEFAULT else CAP_USER_DEFAULT |> in
              let s := enqueue_task t s in
              v ← free buf (kv k);
              Some (t, k <| kp := p |> <| ks := s |> <| kv := v |>)
  end.
End Process.
