(* ===== verification/ProcessTheorems.v ===== *)
(** * Processes: sandboxes only get tighter, paths stay inside the root *)

From S2P Require Import Prelude LList Cstr Heap HeapInv HeapSpec HeapTheorems Alloc Task TaskInv Sched Paging PagingInv UserMem UserMemTheorems SchedSpec SchedSteps SchedTheorems Vm Vfs Memfs VfsInv VfsTheorems Elf Process.

(** ** What fork keeps of the tasks *)

Definition sandbox (t : task) := (caps t, mem_limit t, cpu_quota t, root_path t, tier_override t, pid t, parent t, kstack t).

Record keeps (s s' : sched) : Prop := {
  kp_cur : current_task s' = current_task s;
  kp_task q : sandbox (tk s' q) = sandbox (tk s q);
  kp_tier q : q <> current_task s -> tier (tk s' q) = tier (tk s q);
}.

Lemma keeps_refl s : keeps s s.
Proof. by split. Qed.

Lemma keeps_trans s1 s2 s3 : keeps s1 s2 -> keeps s2 s3 -> keeps s1 s3.
Proof.
  intros [C1 T1 R1] [C2 T2 R2]. split; [congruence| |].
  - intros q. by rewrite T2, T1.
  - intros q Hq. rewrite R2, R1; congruence.
Qed.

Lemma keeps_upd s t f :
  (forall k, sandbox (f k) = sandbox k) -> (forall k, t <> current_task s -> tier (f k) = tier k) -> keeps s (upd s t f).
Proof.
  intros Hf Ht. split; [done|..]; intros q; [|intros Hq]; rewrite tk_upd; case_decide; subst; auto.
Qed.

Lemma keeps_cr3 s c : keeps s (s <| cpu_cr3 := c |>).
Proof. by split. Qed.

Lemma keeps_enqueue t s : keeps s (enqueue_task t s).
Proof.
  unfold enqueue_task. destruct (t =? 0); [apply keeps_refl|].
  eapply keeps_trans; [apply (keeps_upd s t (fun k => k <| cur_queue := task_qidx s t |>)); done|].
  eapply keeps_trans; [apply (keeps_upd _ t (fun k => k <| next := 0 |>)); done|].
  cbv zeta. destruct (negb _); [|by split].
  match goal with |- keeps ?s0 (set_tail (upd _ ?x _) _ _) =>
    eapply keeps_trans; [apply (keeps_upd s0 x (fun k => k <| next := t |>)); done|] end. by split.
Qed.

Lemma keeps_alloc p s : keeps s (snd (snd (alloc_page_frame (p, s)))).
Proof.
  unfold alloc_page_frame. destruct (alloc_phys_page p) as [ph p1]. destruct (negb (ph =? 0)); [apply keeps_refl|].
  unfold vm_handle_pressure. destruct (current_task s =? 0) eqn:E0; [|destruct (_ && _)%bool].
  - destruct (alloc_phys_page p1) as [ph2 p2]. destruct (negb _); apply keeps_refl.
  - destruct (alloc_phys_page _) as [ph2 p2]. destruct (negb _); (apply keeps_upd; [done|]); intros k Hk; done.
  - destruct (alloc_phys_page p1) as [ph2 p2]. destruct (negb _); apply keeps_refl.
Qed.

Lemma keeps_create_pd p s r p' s' : paging_create_task_pd (p, s) = Some (r, (p', s')) -> keeps s s'.
Proof.
  unfold paging_create_task_pd. pose proof (keeps_alloc p s) as Hk. destruct (alloc_page_frame (p, s)) as [ph [p1 s1]]. cbn in Hk.
  destruct (ph =? 0); [by intros [= <- <- <-]|]. intros E. repeat (apply bind_Some in E as (? & _ & E)). by injection E as <- <- <-.
Qed.

Lemma keeps_copy_pages pages p s ok p' s' : copy_pages pages (p, s) = Some (ok, (p', s')) -> keeps s s'.
Proof.
  revert p s. induction pages as [|[va ph] pages IH]; intros p s E; cbn [copy_pages] in E; [injection E as <- <- <-; apply keeps_refl|].
  pose proof (keeps_alloc p s) as Hk. destruct (alloc_page_frame (p, s)) as [nph [p1 s1]]. cbn in Hk.
  destruct (nph =? 0); [by injection E as <- <- <-|].
  apply bind_Some in E as (p2 & _ & E). apply bind_Some in E as (p3 & _ & E). eapply keeps_trans; [exact Hk|by eapply IH].
Qed.

(** ** The sandbox of the child *)

(** [c] has no right that [pt] does not have. *)
Record tighter (pt c : task) : Prop := {
  ti_caps : Z.land (caps c) (caps pt) = caps c;
  ti_mem : mem_limit pt <> 0 -> mem_limit c <> 0 /\ mem_limit c <= mem_limit pt;
  ti_quota : cpu_quota pt <> 0 -> cpu_quota c <> 0 /\ cpu_quota c <= cpu_quota pt;
  ti_root : root_path pt <> [] -> dir_prefix (root_path pt) (root_path c);
  ti_tier : (tier_override c = tier_override pt /\ tier c = tier pt) \/
    (tst (caps pt) CAP_SET_TIER = true /\ 0 < tier_override c <= TIER_CRITICAL /\ tier c = tier_override c);
}.

(** Everything but the root path. *)
Definition limits_tighter (pt c : task) : Prop :=
  Z.land (caps c) (caps pt) = caps c /\
  (mem_limit pt <> 0 -> mem_limit c <> 0 /\ mem_limit c <= mem_limit pt) /\
  (cpu_quota pt <> 0 -> cpu_quota c <> 0 /\ cpu_quota c <= cpu_quota pt) /\
  ((tier_override c = tier_override pt /\ tier c = tier pt) \/
   (tst (caps pt) CAP_SET_TIER = true /\ 0 < tier_override c <= TIER_CRITICAL /\ tier c = tier_override c)).

Lemma land_sub a b : Z.land (Z.land a b) a = Z.land a b.
Proof. rewrite (Z.land_comm a b), <- Z.land_assoc, Z.land_diag. done. Qed.

Lemma fork_caps_spec sb pt : Z.land (fork_caps sb pt) (caps pt) = fork_caps sb pt.
Proof. unfold fork_caps. destruct sb as [b|]; [destruct (negb _); [apply land_sub|]|]; apply Z.land_diag. Qed.

Lemma fork_mem_spec sb pt : mem_limit pt <> 0 -> fork_mem_limit sb pt <> 0 /\ fork_mem_limit sb pt <= mem_limit pt.
Proof.
  intros Hp. unfold fork_mem_limit. destruct sb as [b|]; [|lia]. destruct (Z.eqb_spec (sb_mem_limit b) 0); cbn [negb]; [lia|].
  destruct (Z.eqb_spec (mem_limit pt) 0); [lia|]. cbn [negb andb]. destruct (Z.ltb_spec (mem_limit pt) (sb_mem_limit b)); lia.
Qed.

Lemma fork_quota_spec sb pt : cpu_quota pt <> 0 -> fork_cpu_quota sb pt <> 0 /\ fork_cpu_quota sb pt <= cpu_quota pt.
Proof.
  intros Hp. unfold fork_cpu_quota. destruct sb as [b|]; [|lia]. destruct (Z.eqb_spec (sb_cpu_quota b) 0); cbn [negb]; [lia|].
  destruct (Z.eqb_spec (cpu_quota pt) 0); [lia|]. cbn [negb andb]. destruct (Z.ltb_spec 100 (sb_cpu_quota b)).
  - destruct (Z.ltb_spec (cpu_quota pt) 100); lia.
  - destruct (Z.ltb_spec (cpu_quota pt) (sb_cpu_quota b)); lia.
Qed.

Lemma fork_limits_spec sb pt c :
  match fork_limits sb pt c with
  | inl e => e = - EINVAL \/ e = - EPERM
  | inr c' => limits_tighter pt c' /\ pid c' = pid c /\ parent c' = parent c
  end.
Proof.
  pose proof (fork_caps_spec sb pt) as Hc. pose proof (fork_mem_spec sb pt) as Hm. pose proof (fork_quota_spec sb pt) as Hq.
  unfold fork_limits, limits_tighter. destruct sb as [b|].
  2:{ cbn. splits; try done. by left. }
  destruct (Z.eqb_spec (sb_tier_override b) 0) as [Et|Et]; cbn [negb].
  { cbn -[fork_caps fork_mem_limit fork_cpu_quota]. splits; try done. by left. }
  destruct (Z.ltb_spec (sb_tier_override b) 0); cbn [orb]; [by left|].
  destruct (Z.ltb_spec TIER_CRITICAL (sb_tier_override b)); [by left|].
  destruct (tst (caps pt) CAP_SET_TIER) eqn:Ec; cbn [negb]; [|by right].
  cbn -[fork_caps fork_mem_limit fork_cpu_quota]. splits; try done. right. splits; try done; lia.
Qed.

(** Copied strings are C strings. *)
Lemma byte_of_range w k : 0 <= byte_of w k < 256.
Proof. unfold byte_of. change 0xFF with (Z.ones 8). rewrite Z.land_ones by lia. by apply Z.mod_pos_bound. Qed.

Lemma user_chars_cstr cr3 p src s : user_chars cr3 p src s -> cstr s.
Proof.
  intros Hs. apply Forall_lookup. intros i b Hb. destruct (Hs i b Hb) as (_ & Hl & Hb0). unfold load8 in Hl.
  apply bind_Some in Hl as (a & _ & [= <-]). pose proof (byte_of_range (rd (pmem p) (a - a mod 4)) (a mod 4)). lia.
Qed.

Lemma path_is_within_spec child parent_ : cstr child -> cstr parent_ ->
  path_is_within child parent_ = true <-> dir_prefix parent_ child.
Proof.
  intros Hc Hp. rewrite dir_prefix_test by done. unfold path_is_within.
  destruct (Z.eqb_spec (strncmp child parent_ (length parent_)) 0); cbn [negb]; [|intuition discriminate].
  rewrite orb_true_iff, !Z.eqb_eq. tauto.
Qed.

Lemma fork_root_spec cr3 p sb pt c :
  pt_wf cr3 (pmem p) -> cstr (root_path pt) -> (forall b, sb = Some b -> 0 <= sb_root_path b < 2 ^ 32) ->
  exists r, fork_root cr3 p sb pt c = Some r /\
    match r with
    | inl e => e = - EINVAL \/ e = - EPERM
    | inr c' => exists rt, c' = c <| root_path := rt |> /\ (root_path pt <> [] -> dir_prefix (root_path pt) rt)
    end.
Proof.
  intros Hw Hr Hsb. unfold fork_root.
  assert (Hsame : exists r, Some (inr (c <| root_path := root_path pt |>)) = Some r /\
    match r with
    | inl e => e = - EINVAL \/ e = - EPERM
    | inr c' => exists rt, c' = c <| root_path := rt |> /\ (root_path pt <> [] -> dir_prefix (root_path pt) rt)
    end).
  { eexists. split; [done|]. eexists. split; [done|]. intros _. exists []. rewrite app_nil_r. split; [done|by left]. }
  destruct sb as [b|]; [|done]. destruct (Z.eqb_spec (sb_root_path b) 0) as [E|E]; cbn [negb]; [done|]. clear Hsame.
  unfold copy_user_string. destruct (Z.leb_spec KERNEL_BASE (sb_root_path b)) as [Hk|Hk].
  { eexists. split; [done|]. by left. }
  destruct (copy_loop_spec (Z.to_nat (ROOT_PATH_SIZE - 1)) cr3 p (sb_root_path b) Hw) as (r & -> & Hres).
  { specialize (Hsb b eq_refl). lia. } { unfold KERNEL_BASE, ROOT_PATH_SIZE in *. lia. }
  cbn [mbind option_bind]. destruct r as [sub|]; [|eexists; split; [done|by left]].
  destruct Hres as (Hch & _). apply user_chars_cstr in Hch.
  destruct (Z.eqb_spec (char_at (root_path pt) 0) 0) as [E0|E0]; cbn [negb andb].
  { eexists. split; [done|]. eexists. split; [done|]. intros Hne. destruct Hne. by apply char_at_nil. }
  pose proof (path_is_within_spec sub (root_path pt) Hch Hr) as Hin. destruct (path_is_within _ _); cbn [negb].
  - eexists. split; [done|]. eexists. split; [done|]. intros _. by apply Hin.
  - eexists. split; [done|]. by right.
Qed.

(** The child's fields on success. *)
Lemma fork_sandbox_spec cr3 p sb npages par pt c :
  pt_wf cr3 (pmem p) -> cstr (root_path pt) -> (forall b, sb = Some b -> 0 <= sb_root_path b < 2 ^ 32) ->
  exists r, fork_sandbox cr3 p sb npages par pt c = Some r /\
    match r with
    | inl e => e < 0
    | inr c' => tighter pt c' /\ pid c' = pid c /\ parent c' = par /\
        (let l := wrap32 (mem_limit c' / 4096) in l <> 0 -> npages <= l)
    end.
Proof.
  intros Hw Hr Hsb. unfold fork_sandbox. set (c0 := c <| priority := priority pt |> <| timeslice := _ |> <| state := _ |>
    <| mlfq_level := _ |> <| parent := par |> <| map_ptr := _ |> <| wd_managed := _ |>).
  pose proof (fork_limits_spec sb pt c0) as Hl. destruct (fork_limits sb pt c0) as [e|c1].
  { eexists. split; [done|]. destruct Hl as [-> | ->]; done. }
  destruct Hl as ((H1 & H2 & H3 & H4) & Hpid & Hpar).
  destruct (fork_root_spec cr3 p sb pt c1 Hw Hr Hsb) as (r & -> & Hroot). cbn [mbind option_bind].
  destruct r as [e|c2]. { eexists. split; [done|]. destruct Hroot as [-> | ->]; done. }
  destruct Hroot as (rt & -> & Hrt). set (c2 := c1 <| root_path := rt |>).
  assert (Hti : tighter pt c2 /\ pid c2 = pid c /\ parent c2 = par) by (split; [by split|done]).
  change (mem_limit c2) with (mem_limit c1) in *. set (lp := if negb (mem_limit c1 =? 0) then _ else 0).
  destruct (negb (lp =? 0) && (lp <? npages)) eqn:E; [eexists; split; [done|done]|].
  eexists. split; [done|]. destruct Hti as (Ht & Hp1 & Hp2). splits; try done. change (mem_limit c2) with (mem_limit c1). cbv zeta.
  set (l := wrap32 (mem_limit c1 / 4096)) in *. intros Hm.
  unfold lp in E. destruct (Z.eqb_spec (mem_limit c1) 0) as [E0|_]; [unfold l in Hm; by rewrite E0 in Hm|]. cbn [negb] in E.
  destruct (Z.eqb_spec l 0); [done|]. cbn [negb andb] in E. bool_prop. lia.
Qed.

(** ** fork *)

Lemma tighter_ext pt c c' : sandbox c' = sandbox c -> tier c' = tier c -> tighter pt c -> tighter pt c'.
Proof. intros [= E1 E2 E3 E4 E5 _ _ _] E6 [H1 H2 H3 H4 H5]. split; rewrite ?E1, ?E2, ?E3, ?E4, ?E5, ?E6; done. Qed.

Lemma create_slot_spec s child s' : create_task_slot s = (child, s') -> child <> 0 ->
  in_use (tk s child) = 0 /\ pid (tk s' child) = pid_counter s /\ current_task s' = current_task s /\ cpu_cr3 s' = cpu_cr3 s /\
  forall q, q <> child -> tk s' q = tk s q.
Proof.
  unfold create_task_slot. destruct (list_find _ _) as [[i t]|] eqn:E; [|by intros [= <- <-]].
  intros [= <- <-] _. apply list_find_Some in E as (_ & Hin & _). splits; try done.
  - cbn. change (pid (tk (upd s t (fun _ => zero_task <| in_use := 1 |> <| cur_queue := -1 |> <| pid := pid_counter s |>)) t) = pid_counter s).
    by rewrite tk_upd_eq.
  - intros q Hq. change (tk (upd s t (fun _ => zero_task <| in_use := 1 |> <| cur_queue := -1 |> <| pid := pid_counter s |>)) q = tk s q).
    by rewrite tk_upd_ne.
Qed.

Lemma free_slot_other t s q : q <> t -> tk (free_task_slot t s) q = tk s q.
Proof. intros Hq. unfold free_task_slot. destruct (t =? 0); [done|]. destruct (_ || _)%bool; [done|]. by rewrite tk_upd_ne. Qed.

(** The tasks in use before keep their sandboxes. *)
Definition others_keep (s s' : sched) : Prop := forall q, in_use (tk s q) <> 0 -> sandbox (tk s' q) = sandbox (tk s q).

(** The end of fork: the child gets its stack and is enqueued. *)
Lemma fork_enqueue s1 child c s5 x stk :
  keeps (upd s1 child (fun _ => c)) s5 -> child <> current_task s1 ->
  let s' := enqueue_task child (upd (s5 <| cpu_cr3 := x |>) child (fun k => k <| kstack := stk |>)) in
  (forall q, q <> child -> sandbox (tk s' q) = sandbox (tk s1 q)) /\
  sandbox (tk s' child) = sandbox (c <| kstack := stk |>) /\ tier (tk s' child) = tier c.
Proof.
  intros [Hc5 Hk5 Ht5] Hcur. cbv zeta. set (s6 := upd _ child _). destruct (keeps_enqueue child s6) as [_ Hq6 Ht6].
  assert (E6 : tk s6 child = (tk s5 child) <| kstack := stk |>) by (unfold s6; by rewrite tk_upd_eq).
  specialize (Hk5 child) as Hkc. specialize (Ht5 child). rewrite tk_upd_eq in Hkc, Ht5. split; [|split].
  - intros q Hq. rewrite Hq6. unfold s6. rewrite tk_upd_ne by congruence. change (sandbox (tk s5 q) = sandbox (tk s1 q)).
    by rewrite Hk5, tk_upd_ne by congruence.
  - rewrite Hq6, E6. unfold sandbox in *. cbn. congruence.
  - rewrite Ht6, E6; [by apply Ht5|]. change (child <> current_task s5). by rewrite Hc5.
Qed.

(** A limit below one page, which a limited parent may ask for, lets a child of any size
    through: the decision does not look at the number of pages. *)
Theorem small_limit_unenforced cr3 p b pt par c npages :
  0 < sb_mem_limit b < 4096 -> 0 <= mem_limit pt ->
  fork_sandbox cr3 p (Some b) npages par pt c = fork_sandbox cr3 p (Some b) 0 par pt c.
Proof.
  intros Hb Hpt. unfold fork_sandbox. set (c0 := c <| priority := _ |> <| timeslice := _ |> <| state := _ |>
    <| mlfq_level := _ |> <| parent := par |> <| map_ptr := _ |> <| wd_managed := _ |>).
  destruct (fork_limits (Some b) pt c0) as [e|c1] eqn:El; [done|].
  assert (Hm : 0 <= mem_limit c1 < 4096).
  { assert (mem_limit c1 = fork_mem_limit (Some b) pt) as ->.
    { revert El. unfold fork_limits. repeat case_match; intros; simplify_eq; done. }
    unfold fork_mem_limit. destruct (Z.eqb_spec (sb_mem_limit b) 0); [lia|]. cbn [negb].
    destruct (negb (mem_limit pt =? 0) && (mem_limit pt <? sb_mem_limit b)) eqn:E; bool_prop; lia. }
  destruct (fork_root cr3 p (Some b) pt c1) as [[e|c2]|] eqn:Er; [done| |done]. cbn [mbind option_bind].
  assert (Em : mem_limit c2 = mem_limit c1).
  { revert Er. unfold fork_root. destruct (negb (sb_root_path b =? 0)); [|by intros [= <-]].
    destruct (copy_user_string _ _ _ _) as [[sub|]|]; cbn [mbind option_bind]; [|done..]. by case_match; intros [= <-]. }
  rewrite Em. assert (mem_limit c1 / 4096 = 0) as -> by (apply Z.div_small; lia). by destruct (negb (mem_limit c1 =? 0)).
Qed.

(** C14: fork records no wider sandbox in the child.  A child that [sys_fork] starts has a
    subset of the parent's capabilities, the numbers of its memory limit and CPU quota are
    not above the parent's when the parent has them, its root directory is inside the
    parent's, and its tier is the parent's unless the parent may set tiers; its kernel stack
    returns to the parent's interrupt frame with 0 in eax.  The memory limit is enforced in
    whole pages, as a 32-bit number of them: when that number is not 0, the copied pages do
    not exceed it (a limit below one page is recorded and not enforced, see
    small_limit_unenforced).  Whatever the outcome, no other task's sandbox changes.  The
    decision itself always comes to a result. *)
Theorem fork_records_narrower fork_return stack_end regs sb p s :
  let par := current_task s in
  pt_wf (cpu_cr3 s) (pmem p) -> cstr (root_path (tk s par)) -> in_use (tk s par) <> 0 ->
  (forall b, sb = Some b -> 0 <= sb_root_path b < 2 ^ 32) ->
  (forall npages c, is_Some (fork_sandbox (cpu_cr3 s) p sb npages par (tk s par) c)) /\
  forall r p' s', sys_fork fork_return stack_end regs sb (p, s) = Some (r, (p', s')) ->
    others_keep s s' /\
    (r < 0 \/ exists child pages, in_use (tk s child) = 0 /\ collect_pages (cpu_cr3 s) p = Some (Some pages) /\
       r = pid_counter s /\ pid (tk s' child) = r /\ parent (tk s' child) = par /\ tighter (tk s par) (tk s' child) /\
       (let l := wrap32 (mem_limit (tk s' child) / 4096) in l <> 0 -> Z.of_nat (length pages) <= l) /\
       kstack (tk s' child) = fork_stack fork_return stack_end regs child).
Proof.
  intros par Hw Hrt Hpu Hsb. split.
  { intros npages c. destruct (fork_sandbox_spec (cpu_cr3 s) p sb npages par (tk s par) c Hw Hrt Hsb) as (r & -> & _). eauto. }
  intros r p' s' E. unfold sys_fork in E. fold par in E. destruct (Z.eqb_spec par 0) as [E0|_]; [injection E as <- <- <-; split; [done|by left]|].
  apply bind_Some in E as (pages & Epg & E). destruct pages as [pages|]; [|injection E as <- <- <-; split; [done|by left]].
  destruct (create_task_slot s) as [child s1] eqn:Ec. destruct (Z.eqb_spec child 0) as [Ech|Hch].
  { injection E as <- <- <-. split; [|by left]. unfold create_task_slot in Ec. destruct (list_find _ _) as [[i t]|] eqn:Ef; [|by injection Ec as _ <-].
    injection Ec as -> _. apply list_find_Some in Ef as (Hi & _). subst child. apply list_elem_of_lookup_2, elem_of_seqZ in Hi. lia. }
  destruct (create_slot_spec _ _ _ Ec Hch) as (Hfree & Hpid & Hcur & Hcr3 & Hoth).
  assert (Hne : par <> child) by congruence. rewrite Hcr3, (Hoth par Hne) in E.
  assert (Hfin : forall s2, keeps s1 s2 -> others_keep s s2).
  { intros s2 [_ Hk _] q Hq. rewrite Hk, Hoth by congruence. done. }
  assert (Hslot : forall s2, others_keep s s2 -> others_keep s (free_task_slot child s2)).
  { intros s2 Hk q Hq. rewrite free_slot_other by congruence. by apply Hk. }
  apply bind_Some in E as (o & Eo & E).
  destruct (fork_sandbox_spec (cpu_cr3 s) p sb (Z.of_nat (length pages)) par (tk s par) (tk s1 child) Hw Hrt Hsb) as (o' & Eo' & Ho).
  rewrite Eo in Eo'. injection Eo' as <-. destruct o as [e|c].
  { injection E as <- <- <-. split; [|by left]. apply Hslot, Hfin, keeps_refl. }
  destruct Ho as (Hti & Hcp & Hpar & Hmem). set (s2 := upd s1 child (fun _ => c)) in E.
  assert (Hk2 : forall s3, keeps s2 s3 -> others_keep s s3).
  { intros s3 [_ Hk _] q Hq. rewrite Hk. unfold s2. rewrite tk_upd_ne, Hoth by congruence. done. }
  apply bind_Some in E as ([child_pd [p3 s3]] & E3 & E). apply keeps_create_pd in E3.
  destruct (child_pd =? 0); [injection E as <- <- <-; split; [by apply Hslot, Hk2|by left]|].
  apply bind_Some in E as ([ok [p4 s4]] & E4 & E). apply keeps_copy_pages in E4.
  assert (Hk4 : keeps s2 s4) by (eapply keeps_trans; [exact E3|eapply keeps_trans; [apply keeps_cr3|exact E4]]).
  destruct ok; cbn [negb] in E.
  2:{ apply bind_Some in E as ([p5 s5] & E5 & E). unfold teardown in E5. apply bind_Some in E5 as (p6 & _ & [= <- <-]).
      injection E as <- <- <-. split; [|by left]. apply Hslot, Hk2. eapply keeps_trans; [exact Hk4|apply keeps_cr3]. }
  cbv zeta in E. match type of E with Some (_, (_, enqueue_task _ (upd (set_field _ _ ?x) _ _))) = _ => remember x as s5 eqn:D5 end.
  assert (Hk5 : keeps s2 s5).
  { eapply keeps_trans; [exact Hk4|]. rewrite D5. eapply keeps_trans; [apply (keeps_upd s4 child (fun k => k <| cr3 := child_pd |>)); done|].
    eapply keeps_trans; [apply (keeps_upd _ child (fun k => k <| user_entry := user_entry (tk s4 par) |>)); done|].
    eapply keeps_trans; [apply (keeps_upd _ child (fun k => k <| user_stack := user_stack (tk s4 par) |>)); done|].
    apply (keeps_upd _ child (fun k => k <| pages_charged := Z.of_nat (length pages) |>)); done. }
  assert (Hcur1 : child <> current_task s1) by (rewrite Hcur; intros Hx; by apply Hne).
  pose proof (fork_enqueue s1 child c s5 (cr3 (tk s3 par)) (fork_stack fork_return stack_end regs child) Hk5 Hcur1) as (F1 & F2 & F3).
  match type of E with Some (_, (_, ?x)) = _ => remember x as s6 eqn:D6 end.
  injection E as Er <- <-. split; [intros q Hq; rewrite F1, Hoth by congruence; done|]. right. exists child, pages.
  unfold sandbox in F2. cbn in F2. injection F2 as Q1 Q2 Q3 Q4 Q5 Q6 Q7 Q8. splits; try done; try congruence.
  - destruct Hti as [T1 T2 T3 T4 T5]. split; rewrite ?Q1, ?Q2, ?Q3, ?Q4, ?Q5, ?F3; done.
  - cbv zeta. by rewrite Q2.
Qed.

(** ** wait *)

Definition matches (s : sched) (wpid t : Z) : Prop :=
  in_use (tk s t) <> 0 /\ parent (tk s t) = current_task s /\ (wpid = -1 \/ pid (tk s t) = wpid).

(** [c] is the first task slot with a child that [wait] may return. *)
Definition first_match (s : sched) (wpid c : Z) : Prop :=
  1 <= c <= MAX_TASKS /\ matches s wpid c /\ forall t, 1 <= t < c -> ~ matches s wpid t.

Lemma find_child_spec s wpid : current_task s <> 0 ->
  let c := task_find_child (current_task s) wpid s in
  (c = 0 /\ forall t, 1 <= t <= MAX_TASKS -> ~ matches s wpid t) \/ first_match s wpid c.
Proof.
  intros Hc. unfold task_find_child. destruct (Z.eqb_spec (current_task s) 0) as [?|_]; [done|].
  destruct (list_find _ task_slots) as [[i t]|] eqn:E; [right|left].
  - apply list_find_Some in E as (Hi & Hm & Hlt). unfold task_slots in *.
    assert (Hti : t = 1 + Z.of_nat i /\ Z.of_nat i < MAX_TASKS) by (apply lookup_seqZ in Hi; lia).
    split; [lia|]. split; [exact Hm|]. intros u Hu Hmu. apply (Hlt (Z.to_nat (u - 1)) u); [|lia|exact Hmu].
    apply lookup_seqZ. lia.
  - split; [done|]. apply list_find_None in E. rewrite Forall_forall in E. intros t Ht. apply E.
    unfold task_slots. apply elem_of_seqZ. lia.
Qed.

Lemma wait_result_decode pid_ code : 0 <= pid_ ->
  let n := Z.lor (Z.shiftl pid_ 8) (Z.land code 0xFF) in Z.shiftr n 8 = pid_ /\ Z.land n 0xFF = code mod 256.
Proof.
  intros Hp. cbv zeta. change 0xFF with (Z.ones 8). split.
  - rewrite Z.shiftr_lor, Z.shiftr_shiftl_l by lia. rewrite Z.land_ones by lia. rewrite (Z.shiftr_div_pow2 (code mod _)) by lia.
    rewrite Z.div_small by (apply Z.mod_pos_bound; lia). rewrite Z.lor_0_r. done.
  - rewrite Z.land_lor_distr_l, <- Z.land_assoc, Z.land_diag. rewrite (Z.land_ones (Z.shiftl _ _)), Z.shiftl_mul_pow2 by lia.
    rewrite Z.mod_mul by lia. rewrite Z.lor_0_l. by apply Z.land_ones.
Qed.

(** a round of [sys_wait] always comes to a result.  It looks at the first child
    slot that matches: without one it returns -1; if that child has exited it returns a word from
    which the caller gets the child's pid and the low byte of its exit code, and releases
    exactly that slot; otherwise the caller sleeps (also when another child has exited) and
    the scheduler's invariant holds for whoever runs next. *)
Theorem sys_wait_reaps wpid s qs :
  calm s qs -> current_task s <> 0 ->
  exists o s', sys_wait_round wpid s = Some (o, s') /\
    match o with
    | Some n =>
        (n = -1 /\ s' = s /\ forall t, 1 <= t <= MAX_TASKS -> ~ matches s wpid t) \/
        (exists c, first_match s wpid c /\ state (tk s c) = TASK_EXITED /\ s' = free_task_slot c s /\
           (0 <= pid (tk s c) -> Z.shiftr n 8 = pid (tk s c) /\ Z.land n 0xFF = exit_code (tk s c) mod 256))
    | None => exists c qs', first_match s wpid c /\ state (tk s c) <> TASK_EXITED /\ calm s' qs'
    end.
Proof.
  intros Hcalm Hc. unfold sys_wait_round. destruct (Z.eqb_spec (current_task s) 0) as [?|_]; [done|].
  pose proof (find_child_spec s wpid Hc) as Hf. cbv zeta in Hf. set (c := task_find_child _ _ _) in *.
  destruct Hf as [[-> Hno]|Hf]; [rewrite Z.eqb_refl; eexists _, _; split; [done|by left]|].
  destruct (Z.eqb_spec c 0) as [E|_]; [destruct Hf; lia|].
  destruct (Z.eqb_spec (state (tk s c)) TASK_EXITED) as [E|E].
  - eexists _, _. split; [done|]. right. exists c. splits; try done. apply wait_result_decode.
  - destruct (wait_block_calm s qs Hcalm) as (s' & qs' & -> & Hc'). cbn [mbind option_bind]. eexists _, _. split; [done|]. by exists c, qs'.
Qed.

(** ** Path resolution *)

(** [resolve_path] never writes past its buffer when the path alone fits.  Without a
    root directory the path is unchanged; for a root directory without a trailing slash that leaves
    room, the result is the path below the root directory, which [vfs_lookup] accepts; when
    root directory and path together do not fit, the result is the path itself, which
    [vfs_lookup] then rejects unless it names something below the root directory. *)
Theorem resolve_path_bounded root path buflen :
  cstr root -> cstr path -> strlen path < buflen ->
  let q := resolve_path root path buflen in
  strlen q < buflen /\
  ((root = [] \/ root = [SLASH]) -> q = path) /\
  (root <> [] -> root <> [SLASH] -> strlen root + strlen path + 2 <= buflen ->
     char_at root (length root - 1) <> SLASH -> char_at root 0 = SLASH ->
     q = root ++ [SLASH] ++ path /\ denied root q = false) /\
  (root <> [] -> root <> [SLASH] -> buflen < strlen root + strlen path + 2 -> q = path).
Proof.
  intros Hr Hp Hl q. unfold q, resolve_path.
  destruct (Z.eqb_spec (char_at root 0) 0) as [E|E]; rewrite char_at_nil in E by done; cbn [orb].
  { splits; [done|done|done|done]. }
  destruct (Z.eqb_spec (strcmp root [SLASH]) 0) as [E2|E2]; rewrite strcmp_slash in E2 by done.
  { splits; [done|done|done|done]. }
  destruct (Z.ltb_spec buflen (strlen root + strlen path + 2)) as [Hb|Hb]; [splits; [done|tauto|lia|done]|].
  set (buf := if negb _ then _ else _).
  splits.
  - unfold buf, strlen in *. destruct (negb _); rewrite ?length_app; cbn [length]; lia.
  - tauto.
  - intros _ _ _ Hlast H0. unfold buf. destruct (Z.eqb_spec (char_at root (length root - 1)) SLASH) as [?|_]; [done|]. cbn [negb].
    assert (Eq : (root ++ [SLASH]) ++ path = root ++ [SLASH] ++ path) by by rewrite <- app_assoc. rewrite Eq. split; [done|].
    assert (Hc : cstr (root ++ [SLASH] ++ path)) by (apply cstr_app; split; [done|]; apply cstr_app; split; [repeat constructor|done]).
    pose proof (denied_spec root (root ++ [SLASH] ++ path) Hr Hc) as Hd. destruct (denied _ _); [|done]. destruct Hd.
    right. right. split.
    + destruct root as [|c root]; [done|]. exact H0.
    + exists ([SLASH] ++ path). split; [done|]. right. by exists path.
  - lia.
Qed.

(** ** Example runs *)

Lemma resolve_path_bounded_witness :
  cstr (lit "/home") /\ resolve_path (lit "/home") (lit "notes") 128 = lit "/home/notes" /\
  denied (lit "/home") (resolve_path (lit "/home") (lit "notes") 128) = false.
Proof.
  assert (Hr : cstr (lit "/home")) by (repeat constructor).
  destruct (resolve_path_bounded (lit "/home") (lit "notes") 128 Hr) as (_ & _ & H & _).
  - repeat constructor.
  - reflexivity.
  - split; [exact Hr|]. destruct H as [E Hd]; [discriminate|discriminate|vm_compute; discriminate|vm_compute; discriminate|reflexivity|].
    split; [exact E|exact Hd].
Defined.

(** Task 1 waits for any child; its child, task 4, has exited with code 7. *)
Definition wait_demo : sched :=
  demo_sched [(1, demo_task TASK_RUNNING 0 2 0 1 0); (2, demo_task TASK_READY 0 2 0 3 0); (3, demo_task TASK_READY 1 3 0 2 0);
              (4, zero_task <| in_use := 1 |> <| state := TASK_EXITED |> <| parent := 1 |> <| pid := 9 |> <| exit_code := 7 |>)]
    [(2, 2); (3, 3)] [(2, 2); (3, 3)].

Lemma wait_demo_calm : calm wait_demo demo_qs.
Proof. by apply Check.calmb_sound. Qed.

Lemma sys_wait_reaps_witness :
  calm wait_demo demo_qs /\ exists o s', sys_wait_round (-1) wait_demo = Some (o, s') /\ o = Some (9 * 256 + 7) /\ in_use (tk s' 4) = 0.
Proof.
  split; [exact wait_demo_calm|].
  destruct (sys_wait_reaps (-1) wait_demo demo_qs wait_demo_calm) as (o & s' & E & _); [discriminate|].
  exists o, s'. split; [exact E|].
  assert (F : (fun r => (r.1, in_use (tk r.2 4))) <$> sys_wait_round (-1) wait_demo = Some (Some (9 * 256 + 7), 0)) by (vm_compute; reflexivity).
  rewrite E in F. cbn in F. injection F as F1 F2. split; [exact F1|exact F2].
Defined.

(** Task 1, confined to "ab", forks a child with two capabilities and half its quota. *)
Definition fork_demo_mem : paging := string_demo <| freeq := [16; 17; 18; 19; 20] |>.
Definition fork_demo_sched : sched :=
  (upd (demo 0) 1 (fun k => k <| caps := 7 |> <| cpu_quota := 50 |> <| root_path := lit "ab" |> <| cr3 := 0x1000 |>))
    <| cpu_cr3 := 0x1000 |>.
Definition fork_demo_regs : pt_regs := mk_regs 1 2 3 4 5 6 7 8 [0x8048000; 0x1B; 0x202; 0xBFFFFFF0; 0x23].
Definition fork_demo_sb : fork_sandbox_config := mk_sb 3 8192 25 0x1000 0.

Lemma fork_records_narrower_witness :
  pt_wf 0x1000 (pmem fork_demo_mem) /\
  exists p' s', sys_fork 0x200000 (fun t => t * 0x10000) fork_demo_regs (Some fork_demo_sb) (fork_demo_mem, fork_demo_sched) =
      Some (4, (p', s')) /\ others_keep fork_demo_sched s'.
Proof.
  split; [exact string_demo_wf|].
  destruct (fork_records_narrower 0x200000 (fun t => t * 0x10000) fork_demo_regs (Some fork_demo_sb) fork_demo_mem fork_demo_sched)
    as [_ H].
  - exact string_demo_wf.
  - vm_compute. repeat constructor; lia.
  - vm_compute. discriminate.
  - intros b [= <-]. vm_compute. split; [discriminate|reflexivity].
  - assert (F : fst <$> sys_fork 0x200000 (fun t => t * 0x10000) fork_demo_regs (Some fork_demo_sb) (fork_demo_mem, fork_demo_sched) = Some 4)
      by (vm_compute; reflexivity).
    destruct (sys_fork _ _ _ _ _) as [[r [p' s']]|]; [|discriminate F]. injection F as ->.
    exists p', s'. split; [reflexivity|]. exact (proj1 (H 4 p' s' eq_refl)).
Defined.
