(* ===== verification/ForkTheorems.v ===== *)
(** * fork gives the child a copy of the parent's memory *)

From S2P Require Import Prelude LList Cstr Heap HeapInv HeapSpec HeapTheorems Alloc Task TaskInv Sched Paging PagingInv PagingTheorems UserMem UserMemTheorems AddrSpace ForkMem Vm Vfs Memfs Elf ElfTheorems Process ProcessTheorems.

(** ** The copies *)

Definition copyable (g : Z) (O : Z -> Prop) (p : paging) (pg : Z * Z) : Prop :=
  pg.1 mod 4096 = 0 /\ user pg.1 /\ frame_addr pg.2 /\ O pg.2 /\ translate g (pmem p) pg.1 = None.

Lemma copy_pages_spec g O pages p s :
  apart g O p -> cpu_cr3 s = g -> Forall (copyable g O p) pages -> NoDup (fst <$> pages) -> (2 * length pages <= length (freeq p))%nat ->
  exists p', copy_pages pages (p, s) = Some (true, (p', s)) /\ apart g O p' /\
    (forall x, O (frame_of x) -> rd (pmem p') x = rd (pmem p) x) /\ user_keeps g p p' /\
    (forall va ph, (va, ph) ∈ pages -> page_copied g p' (pmem p) va ph) /\
    (forall w, user w -> (forall pg, pg ∈ pages -> ~ same_page pg.1 w) -> translate g (pmem p') w = translate g (pmem p) w) /\
    (exists t, freeq p = t ++ freeq p').
Proof.
  revert p. induction pages as [|[va ph] pages IH]; intros p Hap Hc Hcp Hnd Hfr; cbn [copy_pages].
  { exists p. splits; try done; [intros va ph Hin; by apply not_elem_of_nil in Hin|by exists []]. }
  apply Forall_cons in Hcp as [(Hal & Hu & Hph & HO & Hn) Hcp]. cbn [fst snd] in *. rewrite fmap_cons in Hnd. apply NoDup_cons in Hnd as [Hva Hnd]. cbn [fst] in Hva.
  cbn [length] in Hfr. destruct (freeq p) as [|k q] eqn:Eq; [cbn [length] in Hfr; lia|].
  assert (Hq : q <> []) by (intros ->; cbn [length] in Hfr; lia).
  assert (Hk : 0 < k < 2 ^ 20) by (apply (fw_range g p); [apply Hap|rewrite Eq; by left]).
  destruct (alloc_frame_spec p s k q Eq) as (p1 & -> & Eq1 & Em1); [lia|]. destruct (Z.eqb_spec (k * 4096) 0); [lia|].
  change (Z.lor (Z.lor PTE_PRESENT PTE_RW) PTE_USER) with 7. rewrite Hc.
  destruct (copy_page_spec g O p p1 va ph k q Hap Hal Hu Hph HO Hn Eq Hq Eq1 Em1)
    as (p2 & p3 & -> & E3 & Hap3 & HO3 & Hk3 & Hpc3 & Ht3 & [t Et] & Hl3).
  cbn [mbind option_bind]. rewrite E3. cbn [mbind option_bind]. rewrite Eq in Hl3. cbn [length] in *.
  assert (Hne : forall pg, pg ∈ pages -> pg.1 mod 4096 = 0 -> ~ same_page va pg.1).
  { intros pg Hin Ha Hsp%same_page_div. apply Hva. apply list_elem_of_fmap. exists pg. split; [|done].
    pose proof (Z.div_mod va 4096 ltac:(lia)). pose proof (Z.div_mod pg.1 4096 ltac:(lia)). lia. }
  destruct (IH p3 Hap3 Hc) as (p' & E & Hap' & HO' & Hk' & Hpc' & Ht' & [t' Et']); [|done|lia|].
  { rewrite Forall_forall in Hcp |- *. intros pg Hin. destruct (Hcp pg Hin) as (A1 & A2 & A3 & A4 & A5).
    split; [done|]. split; [done|]. split; [done|]. split; [done|]. rewrite Ht3; [done|done|]. by apply Hne. }
  exists p'. splits; [done|done| |by etrans| | |].
  - intros x Hx. by rewrite HO', HO3.
  - intros va' ph' [[= -> ->]|Hin]%elem_of_cons.
    + intros o Ho. rewrite <- Hpc3 by done.
      assert (Huo : user (va + o)). { destruct Hu as [? H2]. split; [lia|]. unfold KERNEL_BASE in *. zmod. }
      apply Hk'; [done|]. pose proof (Hpc3 o Ho) as E1. unfold load8 in E1. destruct (translate g (pmem p3) (va + o)); [eauto|discriminate E1].
    + intros o Ho. rewrite (Hpc' va' ph' Hin o Ho). do 2 f_equal. apply HO3.
      rewrite Forall_forall in Hcp. destruct (Hcp _ Hin) as (_ & _ & Hfp & HOp & _). cbn [snd] in *. rewrite frame_of_add by (done || zmod). done.
  - intros w Hw Hno. rewrite Ht'; [apply Ht3; [done|]|done|].
    + apply (Hno (va, ph)). by left.
    + intros pg Hin. apply Hno. by right.
  - rewrite Eq in Et. exists (t ++ t'). by rewrite Et, Et', app_assoc.
Qed.

(** ** The list of pages *)

(** The present entries of the page tables of slots 1 to 767, in order. *)
Definition pt_pages (f i : Z) (m : gmap Z Z) (j0 n : Z) : list (Z * Z) :=
  j ← seqZ j0 n; let pte := rd m (f + 4 * j) in
  if tst pte PTE_PRESENT then [(i * 2 ^ 22 + j * 4096, Z.land pte FRAME_MASK)] else [].
Definition slot_pages (cr3 : Z) (m : gmap Z Z) (i : Z) : list (Z * Z) :=
  let pde := rd m (cr3 + 4 * i) in if tst pde PTE_PRESENT then pt_pages (Z.land pde FRAME_MASK) i m 0 1024 else [].
Definition user_pages (cr3 : Z) (m : gmap Z Z) : list (Z * Z) := i ← seqZ 1 767; slot_pages cr3 m i.

Definition capped (l : list (Z * Z)) : option (list (Z * Z)) := if MAX_USER_PAGES <? Z.of_nat (length l) then None else Some l.

Definition collect_step (i j pte : Z) (a : paging * option (list (Z * Z))) : option (paging * option (list (Z * Z))) :=
  let '(p, acc) := a in
  match acc with
  | None => Some (p, None)
  | Some l =>
      if tst pte PTE_PRESENT then
        if MAX_USER_PAGES <=? Z.of_nat (length l) then Some (p, None)
        else Some (p, Some (l ++ [(Z.lor (Z.shiftl i 22) (Z.shiftl j 12), Z.land pte FRAME_MASK)]))
      else Some (p, Some l)
  end.

Lemma collect_step_capped p i j pte l : 0 <= j < 1024 ->
  collect_step i j pte (p, capped l) =
    Some (p, capped (l ++ if tst pte PTE_PRESENT then [(i * 2 ^ 22 + j * 4096, Z.land pte FRAME_MASK)] else [])).
Proof.
  intros Hj. unfold collect_step, capped.
  assert (E : Z.lor (Z.shiftl i 22) (Z.shiftl j 12) = i * 2 ^ 22 + j * 4096).
  { rewrite !Z.shiftl_mul_pow2 by lia. apply lor_add. apply (land_low_high i (j * 2 ^ 12) 22); lia. }
  rewrite E. destruct (tst pte PTE_PRESENT); rewrite ?app_nil_r, ?length_app; cbn [length].
  - destruct (Z.ltb_spec MAX_USER_PAGES (Z.of_nat (length l))), (Z.ltb_spec MAX_USER_PAGES (Z.of_nat (length l + 1)));
      [done|lia|destruct (Z.leb_spec MAX_USER_PAGES (Z.of_nat (length l))); [done|lia]|
       destruct (Z.leb_spec MAX_USER_PAGES (Z.of_nat (length l))); [lia|done]].
  - by destruct (Z.ltb_spec MAX_USER_PAGES (Z.of_nat (length l))).
Qed.

Lemma collect_slot n cr3 p i f fl j0 l :
  pt_wf cr3 (pmem p) -> 0 <= i < 1024 -> pde_is cr3 (pmem p) i f fl -> tst fl PTE_PRESENT = true -> 0 <= j0 -> j0 + Z.of_nat n <= 1024 ->
  for_loop n j0 (fun j a => pte ← vload cr3 (fst a) (pt_slot i j); collect_step i j pte a) (p, capped l)
  = Some (p, capped (l ++ pt_pages f i (pmem p) j0 (Z.of_nat n))).
Proof.
  intros Hw Hi Hp Ht. revert j0 l. induction n as [|n IH]; intros j0 l Hj Hn; cbn [for_loop]; [by rewrite app_nil_r|].
  cbn [fst]. rewrite (vload_pt cr3 p i j0 f fl) by (done || lia). cbn [mbind option_bind].
  rewrite collect_step_capped by lia. cbn [mbind option_bind]. rewrite IH by lia. do 3 f_equal.
  unfold pt_pages. rewrite (seqZ_cons j0) by lia. replace (Z.pred (Z.of_nat (S n))) with (Z.of_nat n) by lia.
  change (Z.succ j0) with (j0 + 1). cbn [mbind list_bind]. by rewrite app_assoc.
Qed.

Definition collect_table (cr3 i : Z) (a : paging * option (list (Z * Z))) : option (paging * option (list (Z * Z))) :=
  for_loop 1024 0 (fun j a => pte ← vload cr3 (fst a) (pt_slot i j); collect_step i j pte a) a.

Lemma collect_slots n cr3 p i0 l :
  pt_wf cr3 (pmem p) -> 0 <= i0 -> i0 + Z.of_nat n <= 1024 ->
  for_loop n i0 (fun i a => pde ← vload cr3 (fst a) (pd_slot i);
    if negb (tst pde PTE_PRESENT) then Some a
    else collect_table cr3 i a) (p, capped l)
  = Some (p, capped (l ++ (seqZ i0 (Z.of_nat n) ≫= slot_pages cr3 (pmem p)))).
Proof.
  intros Hw. revert i0 l. induction n as [|n IH]; intros i0 l Hi Hn; cbn [for_loop]; [by rewrite app_nil_r|].
  assert (Hr : 0 <= i0 < 1024) by lia. cbn [fst]. rewrite vload_pd by done. cbn [mbind option_bind].
  rewrite (seqZ_cons i0) by lia. replace (Z.pred (Z.of_nat (S n))) with (Z.of_nat n) by lia. change (Z.succ i0) with (i0 + 1).
  destruct (pw_entry _ _ Hw i0 Hr) as (f & fl & Hp). cbn [mbind list_bind]. unfold slot_pages at 1.
  destruct (tst (rd (pmem p) (cr3 + 4 * i0)) PTE_PRESENT) eqn:Ht; cbn [negb].
  - unfold collect_table. rewrite (collect_slot 1024 cr3 p i0 f fl 0 l Hw) by (done || lia || (by rewrite <- (pde_tst _ _ _ _ _ Hp))). cbn [mbind option_bind].
    change (Z.of_nat 1024) with 1024. pose proof Hp as (E & Hf & Hfl). rewrite E, entry_frame by done.
    rewrite IH by lia. by rewrite <- app_assoc.
  - cbn [mbind option_bind]. by rewrite IH by lia.
Qed.

Lemma collect_pages_spec cr3 p : pt_wf cr3 (pmem p) -> collect_pages cr3 p = Some (capped (user_pages cr3 (pmem p))).
Proof.
  intros Hw. unfold collect_pages, for_user_ptes. change (p, Some []) with (p, capped []).
  pose proof (collect_slots 767 cr3 p 1 [] Hw ltac:(lia) ltac:(lia)) as E. unfold collect_table, collect_step in E. rewrite E. done.
Qed.

Lemma elem_of_pt_pages f i m va ph :
  (va, ph) ∈ pt_pages f i m 0 1024 <->
  exists j, 0 <= j < 1024 /\ tst (rd m (f + 4 * j)) PTE_PRESENT = true /\ va = i * 2 ^ 22 + j * 4096 /\ ph = Z.land (rd m (f + 4 * j)) FRAME_MASK.
Proof.
  unfold pt_pages. rewrite list_elem_of_bind. split.
  - intros (j & Hin & Hj%elem_of_seqZ). exists j. destruct (tst _ _); [|by apply not_elem_of_nil in Hin].
    apply list_elem_of_singleton in Hin as [= -> ->]. splits; (done || lia).
  - intros (j & Hj & Ht & -> & ->). exists j. split; [|apply elem_of_seqZ; lia]. rewrite Ht. by apply list_elem_of_singleton.
Qed.

Lemma page_indices i j : 0 <= j < 1024 -> pd_index (i * 2 ^ 22 + j * 4096) = i /\ pt_index (i * 2 ^ 22 + j * 4096) = j.
Proof. intros Hj. rewrite pd_index_div, pt_index_div. change (2 ^ 22) with 4194304. split; zmod. Qed.

Lemma elem_of_user_pages cr3 m va ph : pt_wf cr3 m ->
  (va, ph) ∈ user_pages cr3 m <-> va mod 4096 = 0 /\ user va /\ translate cr3 m va = Some ph.
Proof.
  intros Hw. unfold user_pages, user, KERNEL_BASE. rewrite list_elem_of_bind. unfold slot_pages. split.
  - intros (i & Hin & Hi%elem_of_seqZ). destruct (tst (rd m (cr3 + 4 * i)) PTE_PRESENT) eqn:Ht; [|by apply not_elem_of_nil in Hin].
    apply elem_of_pt_pages in Hin as (j & Hj & Hpt & -> & ->). destruct (page_indices i j Hj) as [E1 E2].
    split; [change (2 ^ 22) with 4194304; zmod|]. split; [lia|]. unfold translate. rewrite E1, E2, Ht, Hpt, land_offset. f_equal.
    replace ((i * 2 ^ 22 + j * 4096) mod 4096) with 0 by (change (2 ^ 22) with 4194304; zmod). lia.
  - intros (Hal & Hu & Htr). exists (pd_index va). assert (Hi : 1 <= pd_index va < 768) by (rewrite pd_index_div; zmod).
    split; [|apply elem_of_seqZ; lia]. unfold translate in Htr. cbv zeta in Htr.
    destruct (tst (rd m (cr3 + 4 * pd_index va)) PTE_PRESENT) eqn:Ht; [|done].
    destruct (tst (rd m (Z.land (rd m (cr3 + 4 * pd_index va)) FRAME_MASK + 4 * pt_index va)) PTE_PRESENT) eqn:Hpt; [|done].
    apply (inj Some) in Htr. rewrite land_offset, Hal, Z.add_0_r in Htr. apply elem_of_pt_pages. exists (pt_index va).
    pose proof (pt_index_range va). splits; [lia|lia|done| |done]. rewrite pd_index_div, pt_index_div. change (2 ^ 22) with 4194304. zmod.
Qed.

Lemma slot_pages_nodup cr3 m i : NoDup (slot_pages cr3 m i).
Proof.
  unfold slot_pages. destruct (tst _ _); [|apply NoDup_nil_2]. apply NoDup_bind; [|intros j Hj|apply NoDup_seqZ].
  - intros j j' [va ph] _ _ H1 H2. cbv zeta in H1, H2.
    repeat match goal with H : _ ∈ (if ?b then _ else _) |- _ => destruct b; [|by apply not_elem_of_nil in H] end. apply list_elem_of_singleton in H1, H2. injection H1 as ? _. injection H2 as ? _. lia.
  - cbv zeta. destruct (tst _ _); [apply NoDup_singleton|apply NoDup_nil_2].
Qed.

Lemma user_pages_nodup cr3 m : pt_wf cr3 m -> NoDup (fst <$> user_pages cr3 m).
Proof.
  intros Hw. apply NoDup_fmap_fst.
  { intros va ph ph' H1 H2. apply elem_of_user_pages in H1 as (_ & _ & H1), H2 as (_ & _ & H2); [congruence|done|done]. }
  assert (Hin : forall i va ph, (va, ph) ∈ slot_pages cr3 m i -> pd_index va = i).
  { intros i va ph. unfold slot_pages. destruct (tst _ _); [|by intros ?%not_elem_of_nil].
    intros (j & Hj & _ & -> & _)%elem_of_pt_pages. exact (proj1 (page_indices i j Hj)). }
  apply NoDup_bind; [|intros i Hi|apply NoDup_seqZ].
  { intros i i' [va ph] _ _ H1%Hin H2%Hin. congruence. }
  apply slot_pages_nodup.
Qed.

(** ** Parent and child *)

(** A space after steps that only take free frames and write to them. *)
Lemma space_evolves cr3 D p p0 p1 :
  space_ok cr3 p -> pmem p0 = pmem p -> (forall k, k ∈ freeq p0 -> k ∈ freeq p) -> evolves cr3 D p0 p1 -> mm_ok cr3 p1 ->
  (forall v, user v -> translate cr3 (pmem p1) v = translate cr3 (pmem p) v) -> (forall f, D f -> f / 4096 ∈ freeq p) ->
  space_ok cr3 p1 /\ forall v, user v -> load8 cr3 p1 v = load8 cr3 p v.
Proof.
  intros Hs Em Hsub Hev Hmm Htr HD. pose proof Hev as [(t & Et & Hn) _ Hw]. rewrite Em in *.
  assert (Hnt : forall v a, user v -> translate cr3 (pmem p) v = Some a -> ~ table cr3 (pmem p1) (frame_of a)).
  { intros v a Hv Ea [?|(k & Hk & E)]%Hn; [by apply (so_table _ _ Hs v a)|]. apply (so_free _ _ Hs v a); [done|done|].
    unfold frame_of in E. replace (a / 4096) with k by lia. apply Hsub. rewrite Et. apply elem_of_app. by left. }
  split; [split; [done| | |]|].
  - intros v a Hv. rewrite Htr by done. by apply Hnt.
  - intros v a Hv. rewrite Htr by done. intros Ea Hin. apply (so_free _ _ Hs v a); [done|done|]. apply Hsub. rewrite Et. apply elem_of_app. by right.
  - intros v v' a a' Hv Hv'. rewrite !Htr by done. by apply (so_inj _ _ Hs).
  - intros v Hv. unfold load8. rewrite Htr by done. destruct (translate cr3 (pmem p) v) as [a|] eqn:Ea; [|done]. cbn [mbind option_bind].
    do 2 f_equal. apply Hw; rewrite frame_word; [by apply (Hnt v)|]. intros Hd%HD. apply (so_free _ _ Hs v a); [done|done|].
    unfold frame_of in Hd. by rewrite Z.div_mul in Hd.
Qed.

(** The parent, while the child's pages are filled. *)
Lemma parent_kept cr3 p1 p2 :
  space_ok cr3 p1 -> (forall x, owned cr3 (pmem p1) (frame_of x) -> rd (pmem p2) x = rd (pmem p1) x) ->
  (exists t, freeq p1 = t ++ freeq p2) ->
  space_ok cr3 p2 /\ forall v, user v -> translate cr3 (pmem p2) v = translate cr3 (pmem p1) v /\ load8 cr3 p2 v = load8 cr3 p1 v.
Proof.
  intros Hs HO [t Et]. pose proof (so_mm _ _ Hs) as [Hw Hf]. destruct (owned_agree cr3 p1 p2 Hw HO) as [Hw2 Hk].
  assert (Hsub : forall k, k ∈ freeq p2 -> k ∈ freeq p1) by (intros k Hk'; rewrite Et; apply elem_of_app; by right).
  assert (Hpd : forall i, 0 <= i < 1024 -> rd (pmem p1) (cr3 + 4 * i) = rd (pmem p2) (cr3 + 4 * i)).
  { intros i Hi. symmetry. apply HO. rewrite frame_of_add by (apply (self_frame _ _ (pw_self _ _ Hw)) || lia). by left. }
  split; [|done]. split.
  - split; [done|]. split.
    + pose proof (fw_nodup _ _ Hf) as Hnd. rewrite Et in Hnd. by apply NoDup_app in Hnd as (_ & _ & ?).
    + intros k Hk'. by apply (fw_range _ _ Hf), Hsub.
    + intros k i f fl Hk' Hi Hp. apply (pde_is_ext cr3 (pmem p1)) in Hp; [|symmetry; by apply Hpd]. by apply (fw_tables _ _ Hf k i f fl); [apply Hsub| |].
  - intros v a Hv. destruct (Hk v Hv) as [-> _]. intros Ea Ht. apply (so_table _ _ Hs v a); [done|done|]. by apply (table_ext cr3 (pmem p2)).
  - intros v a Hv. destruct (Hk v Hv) as [-> _]. intros Ea Hin. by apply (so_free _ _ Hs v a); [| |apply Hsub].
  - intros v v' a a' Hv Hv'. destruct (Hk v Hv) as [-> _]. destruct (Hk v' Hv') as [-> _]. by apply (so_inj _ _ Hs).
Qed.

Lemma owned_not_free cr3 p f : space_ok cr3 p -> owned cr3 (pmem p) f -> f / 4096 ∉ freeq p.
Proof.
  intros Hs Ho Hin. pose proof (so_mm _ _ Hs) as [Hw Hf]. destruct Ho as [->|[(j & fl' & Hj & Hp' & Ht')|(v & a & Hv & Ea & ->)]].
  - destruct (pw_self _ _ Hw) as (fl & Hp & Ht). apply (fw_tables _ _ Hf _ 1023 cr3 fl Hin ltac:(lia) Hp Ht).
    apply frame_div, (self_frame _ _ (pw_self _ _ Hw)).
  - apply (fw_tables _ _ Hf _ j f fl' Hin ltac:(lia) Hp' Ht'). by apply frame_div, Hp'.
  - apply (so_free _ _ Hs v a); [done|done|]. unfold frame_of in Hin. by rewrite Z.div_mul in Hin.
Qed.

(** The new directory is apart from the parent's frames. *)
Lemma child_apart cr3 p g :
  space_ok cr3 p -> task_pd cr3 (pmem p) g -> ~ table cr3 (pmem p) g -> g / 4096 ∉ freeq p -> slot_present cr3 (pmem p) 896 ->
  (forall v a, user v -> translate cr3 (pmem p) v = Some a -> frame_of a <> g) ->
  apart g (owned cr3 (pmem p)) p /\ forall v, user v -> translate g (pmem p) v = None.
Proof.
  intros Hs Htp Hnt Hfr Hsl Hug. pose proof (so_mm _ _ Hs) as [Hw Hf].
  destruct (task_pd_ok cr3 p g (so_mm _ _ Hs) Htp Hnt Hfr) as (Hmm & Hnone & Htab). split; [|done].
  assert (Hcr : table cr3 (pmem p) cr3) by (destruct (pw_self _ _ Hw) as (fl & Hp & Ht); by exists 1023, fl).
  split.
  - split; [done|intros v a Hv|intros v a Hv|intros v v' a a' Hv _]; by rewrite (Hnone v Hv).
  - destruct Hsl as (f & fl & Hp & Ht). exists f, fl. split; [|done]. apply (tp_copy _ _ _ Htp); [lia|done|done].
  - intros f Ho [->|(i & fl & Hi & Hp & Ht)]%Htab.
    + destruct Ho as [->|[(i & fl & Hi & Hp & Ht)|(v & a & Hv & Ea & ->)]]; [done| |by apply (Hug v a)].
      apply Hnt. exists i, fl. split; [lia|done].
    + destruct Ho as [->|[(j & fl' & Hj & Hp' & Ht')|(v & a & Hv & Ea & ->)]].
      * by apply (pt_not_pd _ _ i cr3 fl Hw ltac:(lia) Hp Ht).
      * by apply (pw_distinct _ _ Hw i j f fl f fl'); try done; lia.
      * apply (so_table _ _ Hs v a); [done|done|]. exists i, fl. split; [lia|done].
  - intros f Ho. by apply (owned_not_free cr3).
  - intros v a Hv. by rewrite (Hnone v Hv).
Qed.

Lemma page_of v : v = v / 4096 * 4096 + v mod 4096 /\ 0 <= v mod 4096 < 4096 /\ (v / 4096 * 4096) mod 4096 = 0.
Proof. zmod. Qed.

Lemma user_page_start v : user v -> user (v / 4096 * 4096).
Proof. intros [H1 H2]. unfold user, KERNEL_BASE in *. zmod. Qed.

(** The space at [g] is a copy of the space at [cr3], which is as it was; they share no page. *)
Record fork_copy (cr3 g : Z) (p p' : paging) : Prop := {
  fc_parent : space_ok cr3 p';
  fc_child : space_ok g p';
  fc_kept v : user v -> translate cr3 (pmem p') v = translate cr3 (pmem p) v /\ load8 cr3 p' v = load8 cr3 p v;
  fc_copy v : user v -> load8 g p' v = load8 cr3 p v;
  fc_disjoint v v' a a' : user v -> user v' -> translate cr3 (pmem p') v = Some a -> translate g (pmem p') v' = Some a' ->
    a / 4096 <> a' / 4096;
}.

(** [paging_create_task_pd] and the copies: the child gets the parent's memory in frames of
    its own, and the parent keeps its memory. *)
Lemma fork_memory cr3 p s :
  space_ok cr3 p -> cpu_cr3 s = cr3 -> (2 * length (user_pages cr3 (pmem p)) + 3 <= length (freeq p))%nat ->
  exists g p1 p2, paging_create_task_pd (p, s) = Some (g, (p1, s)) /\ g <> 0 /\
    copy_pages (user_pages cr3 (pmem p)) (p1, s <| cpu_cr3 := g |>) = Some (true, (p2, s <| cpu_cr3 := g |>)) /\
    fork_copy cr3 g p p2.
Proof.
  intros Hs Hc Hfr. pose proof (so_mm _ _ Hs) as [Hw Hf]. destruct (freeq p) as [|k q] eqn:Eq; [cbn [length] in Hfr; lia|].
  assert (Hq : q <> []) by (intros ->; cbn [length] in Hfr; lia). assert (Hkin : k ∈ freeq p) by (rewrite Eq; by left).
  pose proof (fw_range _ _ Hf k Hkin) as Hk. pose proof (fw_nodup _ _ Hf) as Hnd. rewrite Eq in Hnd. apply NoDup_cons in Hnd as [Hkq _].
  destruct (create_pd_spec cr3 p s k q (so_mm _ _ Hs) Hc Eq Hq) as (p0 & p1 & E1 & Hmm1 & Eq0 & Em0 & Hev & Hl1 & Hnt & Htp & Hsl & Ht1).
  assert (Htu1 : forall v, user v -> translate cr3 (pmem p1) v = translate cr3 (pmem p) v).
  { intros v Hv. destruct (user_addr v Hv) as [? ?]. apply Ht1; [done|done|]. intros [E _]. destruct Hv as [? Hv]. unfold KERNEL_BASE in Hv.
    rewrite pd_index_div in E. change (pd_index TASK_PD_WINDOW) with 896 in E. zmod. }
  destruct (space_evolves cr3 (eq (k * 4096)) p p0 p1) as [Hs1 Hld1]; try done.
  { intros x Hx. rewrite Eq. right. by rewrite <- Eq0. }
  { intros f <-. by rewrite Z.div_mul. }
  set (g := k * 4096) in *. pose proof Hev as [(t & Et & _) _ _]. rewrite Eq0 in Et.
  destruct (child_apart cr3 p1 g Hs1 Htp Hnt) as [Hap Hnone]; [|done| |].
  { unfold g. rewrite Z.div_mul by done. intros Hin. apply Hkq. rewrite Et. apply elem_of_app. by right. }
  { intros v a Hv. rewrite Htu1 by done. intros Ea E. apply (so_free _ _ Hs v a); [done|done|].
    unfold frame_of, g in E. by replace (a / 4096) with k by lia. }
  set (pages := user_pages cr3 (pmem p)) in *. cbn [length] in Hfr.
  destruct (copy_pages_spec g (owned cr3 (pmem p1)) pages p1 (s <| cpu_cr3 := g |>)) as (p2 & E2 & Hap2 & HO & _ & Hpc & Hno & Hsuf);
    [done|done| |by apply user_pages_nodup|lia|].
  { rewrite Forall_forall. intros [va ph] (Hal & Hu & Ea)%elem_of_user_pages; [|done]. split; [done|]. split; [done|]. cbn [fst snd].
    destruct (translate_frame _ _ _ _ Ea) as (f & Hff & E). rewrite Hal, Z.add_0_r in E. subst f.
    split; [done|]. split; [|by apply Hnone]. right. right. exists va, ph. rewrite Htu1 by done. splits; [done|done|]. by apply frame_div. }
  destruct (parent_kept cr3 p1 p2 Hs1 HO Hsuf) as [Hs2 Hk2].
  exists g, p1, p2. split; [done|]. split; [unfold g; lia|]. split; [done|]. split; [done|apply Hap2| | |].
  - intros v Hv. destruct (Hk2 v Hv) as [K1 K2]. by rewrite K1, K2, Htu1, Hld1.
  - intros v Hv. destruct (page_of v) as (Ev & Ho & Hal). set (va := v / 4096 * 4096) in *. set (o := v mod 4096) in *.
    assert (Hva : user va) by (by apply user_page_start). assert (Hsp : same_page va v) by (apply same_page_div; unfold va; by rewrite Z.div_mul).
    destruct (translate cr3 (pmem p) va) as [ph|] eqn:Eph.
    + rewrite <- (Hld1 v Hv). assert (Hin : (va, ph) ∈ pages) by (by apply elem_of_user_pages).
      assert (Ea : translate cr3 (pmem p1) v = Some (ph + o)) by (rewrite Htu1, Ev by done; by apply translate_offset).
      rewrite Ev at 1. rewrite (Hpc va ph Hin o Ho). rewrite (load8_eq cr3 p1 v (ph + o) Ea).
      destruct (translate_frame _ _ _ _ Eph) as (f & [Hff _] & E). rewrite Hal, Z.add_0_r in E. subst f.
      replace ((ph + o) mod 4) with (o mod 4) by zmod. do 3 f_equal. lia.
    + assert (N1 : translate cr3 (pmem p) v = None) by (by apply (translate_page _ _ va)).
      assert (N2 : translate g (pmem p2) v = None).
      { rewrite Hno; [by apply Hnone|done|]. intros [va' ph'] Hin Hsp'. apply elem_of_user_pages in Hin as (Hal' & _ & Ea'); [|done]. cbn [fst] in Hsp'.
        assert (va' = va); [|congruence]. apply same_page_div in Hsp'. unfold va. rewrite Hsp'. zmod. }
      unfold load8. by rewrite N1, N2.
  - intros v v' a a' Hv Hv' Ea Ea' E. destruct (Hk2 v Hv) as [K1 _]. rewrite K1 in Ea. apply (ap_user _ _ _ Hap2 v' a' Hv' Ea').
    right. right. exists v, a. splits; [done|done|]. unfold frame_of. by rewrite E.
Qed.

(** ** fork *)

Lemma create_slot_free s t : 1 <= t <= MAX_TASKS -> in_use (tk s t) = 0 -> exists child s', create_task_slot s = (child, s') /\ child <> 0.
Proof.
  intros Ht Hu. unfold create_task_slot. destruct (list_find _ task_slots) as [[i c]|] eqn:E.
  - do 2 eexists. split; [done|]. apply list_find_Some in E as (Hi & _). unfold task_slots in Hi. apply lookup_seqZ in Hi. lia.
  - apply list_find_None in E. rewrite Forall_forall in E. destruct (E t); [|done]. unfold task_slots. apply elem_of_seqZ. lia.
Qed.

(** C7: fork gives the child a copy of the parent's memory.  With a free task slot, at most
    256 user pages, enough free frames and limits that the sandbox accepts, [sys_fork] comes to
    an end and returns the new pid; the parent's memory and page tables for it are as before,
    the child reads the same byte as the parent at every user address (and faults at the same
    addresses), and the two share no page, so that later writes of one are not seen by the
    other. *)
Theorem fork_copies_memory fork_return stack_end regs sb p s t :
  let par := current_task s in
  par <> 0 -> cr3 (tk s par) = cpu_cr3 s -> in_use (tk s par) <> 0 -> space_ok (cpu_cr3 s) p ->
  let n := length (user_pages (cpu_cr3 s) (pmem p)) in
  Z.of_nat n <= MAX_USER_PAGES -> (2 * n + 3 <= length (freeq p))%nat ->
  1 <= t <= MAX_TASKS -> in_use (tk s t) = 0 ->
  (forall c, exists c', fork_sandbox (cpu_cr3 s) p sb (Z.of_nat n) par (tk s par) c = Some (inr c')) ->
  exists child p' s', sys_fork fork_return stack_end regs sb (p, s) = Some (pid (tk s' child), (p', s')) /\
    in_use (tk s child) = 0 /\ cpu_cr3 s' = cpu_cr3 s /\ pages_charged (tk s' child) = Z.of_nat n /\
    fork_copy (cpu_cr3 s) (cr3 (tk s' child)) p p'.
Proof.
  cbv zeta. set (par := current_task s). set (pages := user_pages (cpu_cr3 s) (pmem p)). intros Hpar Hcr Hpu Hs Hmax Hfr Ht Hft Hsb.
  pose proof (so_mm _ _ Hs) as [Hw _]. unfold sys_fork. fold par. destruct (Z.eqb_spec par 0) as [?|_]; [done|].
  rewrite collect_pages_spec by done. fold pages. unfold capped. destruct (Z.ltb_spec MAX_USER_PAGES (Z.of_nat (length pages))) as [?|_]; [lia|].
  cbn [mbind option_bind]. destruct (create_slot_free s t Ht Hft) as (child & s1 & Ec & Hch). rewrite Ec.
  destruct (Z.eqb_spec child 0) as [?|_]; [done|]. destruct (create_slot_spec _ _ _ Ec Hch) as (Hfree & _ & Hcur & Hcr3 & Hoth).
  assert (Hne : par <> child) by congruence. rewrite Hcr3, (Hoth par Hne). destruct (Hsb (tk s1 child)) as [c ->]. cbn [mbind option_bind].
  set (s2 := upd s1 child (fun _ => c)).
  destruct (fork_memory (cpu_cr3 s) p s2 Hs) as (g & p1 & p2 & -> & Hg & E2 & Hfc); [done|done|]. cbn [mbind option_bind].
  destruct (Z.eqb_spec g 0) as [?|_]; [done|]. fold pages in E2. rewrite E2. cbn [mbind option_bind negb].
  replace (cr3 (tk s2 par)) with (cpu_cr3 s) by (unfold s2; rewrite tk_upd_ne, Hoth by done; done).
  cbv zeta. eexists child, p2, _. split; [done|]. split; [done|].
  assert (Hcpu : forall t s, cpu_cr3 (enqueue_task t s) = cpu_cr3 s).
  { intros x s0. unfold enqueue_task. destruct (x =? 0); [done|]. cbv zeta. by destruct (negb _). }
  rewrite Hcpu, (enqueue_fields pages_charged), (enqueue_fields cr3) by done. split; [done|].
  assert (Hk : forall s0 x q, tk (s0 <| cpu_cr3 := x |>) q = tk s0 q) by done.
  rewrite !(tk_upd_proj pages_charged _ _ (fun k => k <| kstack := _ |>)), !(tk_upd_proj cr3 _ _ (fun k => k <| kstack := _ |>)) by done.
  rewrite Hk. split; [by rewrite tk_upd_eq|]. do 3 (rewrite (tk_upd_proj cr3) by done). by rewrite tk_upd_eq.
Qed.

(** ** Witness: a task with one page *)

(** The first page of an empty space. *)
Definition first_page (cr3 v : Z) (b : paging) : paging :=
  default b (map_page cr3 v (nth 0 (freeq b) 0 * 4096) 7 (b <| freeq := tail (freeq b) |>)).

Lemma first_page_ok cr3 b v : space_ok cr3 b -> (2 <= length (freeq b))%nat -> user v -> (forall w, user w -> translate cr3 (pmem b) w = None) ->
  let p' := first_page cr3 v b in
  space_ok cr3 p' /\ (length (user_pages cr3 (pmem p')) <= 1)%nat /\ (length (freeq b) <= length (freeq p') + 2)%nat /\
  forall w, user w -> same_page v w -> is_Some (translate cr3 (pmem p') w).
Proof.
  intros Hs Hl Hv Hn. cbv zeta. unfold first_page. destruct (freeq b) as [|k [|k2 q]] eqn:Eq; [cbn [length] in Hl; lia..|]. cbn [nth tail].
  destruct (map_user_page cr3 b (b <| freeq := k2 :: q |>) v k (k2 :: q) 7) as (p' & -> & Hs' & _ & _ & Ht & Hlen); try done; [by apply Hn|].
  cbn [default]. rewrite Eq in Hlen. split; [done|].
  split; [|split; [done|intros w Hw Hsp; rewrite Ht by done; by rewrite decide_True]]. pose proof (so_mm _ _ Hs') as [Hw _].
  rewrite <- (length_fmap fst). pose proof (user_pages_nodup cr3 (pmem p') Hw) as Hnd.
  apply (submseteq_length _ [v / 4096 * 4096]), NoDup_submseteq; [done|]. intros va ([va' ph] & -> & Hin)%list_elem_of_fmap.
  apply elem_of_user_pages in Hin as (Hal & Hu & E); [|done]. apply list_elem_of_singleton. cbn [fst]. rewrite Ht, Hn in E by done.
  case_decide as Hd; [|done]. apply same_page_div in Hd. rewrite <- Hd. zmod.
Qed.

Definition one_page : paging := first_page 0x100000 0x400000 boot_paging.

Lemma one_page_ok : space_ok 0x100000 one_page /\ (length (user_pages 0x100000 (pmem one_page)) <= 1)%nat /\ (5 <= length (freeq one_page))%nat.
Proof.
  assert (Hlen : Z.of_nat (length (freeq boot_paging)) = 15360).
  { unfold boot_paging. rewrite paging_init_freeq. unfold init_freeq. rewrite length_seqZ. apply Z2Nat.id. vm_compute. discriminate. }
  destruct (first_page_ok 0x100000 boot_paging 0x400000 boot_space_ok) as (H1 & H2 & H3 & _);
    [lia|unfold user, KERNEL_BASE; lia|exact boot_no_user|].
  cbv zeta in H1, H2, H3. unfold one_page. remember (first_page _ _ _) as p' eqn:Ep. clear Ep.
  split; [exact H1|]. split; [exact H2|]. lia.
Qed.

Definition parent_demo : sched :=
  mk_sched {[1 := zero_task <| in_use := 1 |> <| pid := 7 |> <| cr3 := 0x100000 |> <| root_path := [] |>]} ∅ ∅ 1 8 0 0x100000 0.

Lemma unlimited_fork c0 p n par c : exists c', fork_sandbox c0 p None n par (tk parent_demo 1) c = Some (inr c').
Proof. vm_compute. eexists. reflexivity. Qed.

Lemma fork_copies_memory_witness :
  exists child p' s', sys_fork 0 (fun _ => 0x10000) fork_demo_regs None (one_page, parent_demo) = Some (pid (tk s' child), (p', s')) /\
    in_use (tk parent_demo child) = 0 /\ cpu_cr3 s' = cpu_cr3 parent_demo /\
    pages_charged (tk s' child) = Z.of_nat (length (user_pages (cpu_cr3 parent_demo) (pmem one_page))) /\
    fork_copy (cpu_cr3 parent_demo) (cr3 (tk s' child)) one_page p'.
Proof.
  destruct one_page_ok as (Hs & Hn & Hf).
  apply (fork_copies_memory 0 (fun _ => 0x10000) fork_demo_regs None one_page parent_demo 2).
  - discriminate.
  - reflexivity.
  - discriminate.
  - exact Hs.
  - change (cpu_cr3 parent_demo) with 0x100000. unfold MAX_USER_PAGES. lia.
  - change (cpu_cr3 parent_demo) with 0x100000. lia.
  - unfold MAX_TASKS. lia.
  - reflexivity.
  - intros c. apply unlimited_fork.
Defined.
