(* ===== verification/ExecTheorems.v ===== *)
(** * The arguments of a program on its stack *)

From S2P Require Import Prelude LList Cstr Heap HeapInv HeapSpec HeapTheorems Alloc Task TaskInv Sched Paging PagingInv PagingTheorems UserMem UserMemTheorems AddrSpace ForkMem Vm Vfs Memfs Elf ElfTheorems Process ProcessTheorems ForkTheorems.

(** ** Words *)

Lemma byte_of_div w k : 0 <= k -> byte_of w k = w / 2 ^ (8 * k) mod 256.
Proof. intros Hk. unfold byte_of. change 0xFF with (Z.ones 8). by rewrite Z.land_ones, Z.shiftr_div_pow2 by lia. Qed.

Lemma word_of_bytes w : 0 <= w < 2 ^ 32 ->
  byte_of w 0 + 2 ^ 8 * byte_of w 1 + 2 ^ 16 * byte_of w 2 + 2 ^ 24 * byte_of w 3 = w.
Proof.
  intros Hw. rewrite !byte_of_div by lia. change (2 ^ (8 * 0)) with 1. change (2 ^ (8 * 1)) with 256.
  change (2 ^ (8 * 2)) with 65536. change (2 ^ (8 * 3)) with 16777216. change (2 ^ 8) with 256. change (2 ^ 16) with 65536.
  change (2 ^ 24) with 16777216. change (2 ^ 32) with 4294967296 in Hw. rewrite Z.div_1_r.
  replace 65536 with (256 * 256) by lia. replace 16777216 with (256 * 256 * 256) by lia. rewrite <- !Z.div_div by lia. zmod.
Qed.

(** The bytes [bs] are at [v]. *)
Definition holds (cr3 : Z) (p : paging) (v : Z) (bs : list Z) : Prop :=
  forall i b, bs !! i = Some b -> load8 cr3 p (v + Z.of_nat i) = Some b.

Lemma holds_app cr3 p v bs cs : holds cr3 p v (bs ++ cs) <-> holds cr3 p v bs /\ holds cr3 p (v + Z.of_nat (length bs)) cs.
Proof.
  unfold holds. split.
  - intros H. split; intros i b Hi; [apply H; by apply lookup_app_l_Some|].
    replace (v + Z.of_nat (length bs) + Z.of_nat i) with (v + Z.of_nat (length bs + i)) by lia. apply H.
    rewrite lookup_app_r by lia. by replace (length bs + i - length bs)%nat with i by lia.
  - intros [H1 H2] i b [Hi|[Hl Hi]]%lookup_app_Some; [by apply H1|]. specialize (H2 _ _ Hi).
    by replace (v + Z.of_nat (length bs) + Z.of_nat (i - length bs)) with (v + Z.of_nat i) in H2 by lia.
Qed.

Lemma holds_keep cr3 p p' v bs : holds cr3 p v bs ->
  (forall w, v <= w < v + Z.of_nat (length bs) -> load8 cr3 p' w = load8 cr3 p w) -> holds cr3 p' v bs.
Proof. intros H Hk i b Hi. pose proof (lookup_lt_Some _ _ _ Hi). rewrite Hk by lia. by apply H. Qed.

Lemma holds_load_bytes cr3 p v bs : 0 <= v -> v + Z.of_nat (length bs) <= 2 ^ 32 -> holds cr3 p v bs ->
  load_bytes cr3 p v (length bs) = Some bs.
Proof.
  revert v. induction bs as [|b bs IH]; intros v Hv Hl Hh; cbn [load_bytes length]; [done|]. cbn [length] in Hl.
  pose proof (Hh 0%nat b eq_refl) as E. rewrite Z.add_0_r in E. rewrite E. cbn [mbind option_bind].
  destruct bs as [|b' bs]; [done|]. rewrite wrap32_small by (cbn [length] in Hl; lia). rewrite IH; [done|lia|lia|].
  intros i c Hi. replace (v + 1 + Z.of_nat i) with (v + Z.of_nat (S i)) by lia. by apply Hh.
Qed.

Lemma holds_load32 cr3 p v w : 0 <= v -> v + 4 <= 2 ^ 32 -> 0 <= w < 2 ^ 32 -> holds cr3 p v (word_bytes w) -> load32 cr3 p v = Some w.
Proof.
  intros Hv Hv' Hw Hh. unfold load32. rewrite !wrap32_small by lia.
  pose proof (Hh 0%nat _ eq_refl) as E0. pose proof (Hh 1%nat _ eq_refl) as E1.
  pose proof (Hh 2%nat _ eq_refl) as E2. pose proof (Hh 3%nat _ eq_refl) as E3. rewrite Z.add_0_r in E0.
  change (Z.of_nat 1) with 1 in E1. change (Z.of_nat 2) with 2 in E2. change (Z.of_nat 3) with 3 in E3.
  rewrite E0, E1, E2, E3. cbn [mbind option_bind]. f_equal. by apply word_of_bytes.
Qed.

(** What a store to [[v, v + n)] leaves alone. *)
Record stored (cr3 : Z) (p p' : paging) (v n : Z) : Prop := {
  st_space : space_ok cr3 p';
  st_trans w : user w -> translate cr3 (pmem p') w = translate cr3 (pmem p) w;
  st_other w : user w -> w < v \/ v + n <= w -> load8 cr3 p' w = load8 cr3 p w;
}.

Lemma stored_refl cr3 p v n : space_ok cr3 p -> stored cr3 p p v n.
Proof. by split. Qed.

Lemma stored_trans cr3 p p1 p2 v n v1 n1 v2 n2 : stored cr3 p p1 v1 n1 -> stored cr3 p1 p2 v2 n2 ->
  v <= v1 -> v1 + n1 <= v + n -> v <= v2 -> v2 + n2 <= v + n -> stored cr3 p p2 v n.
Proof.
  intros [S1 T1 O1] [S2 T2 O2] H1 H2 H3 H4. split; [done| |].
  - intros w Hw. by rewrite T2, T1.
  - intros w Hw Ho. rewrite O2, O1 by (done || lia). done.
Qed.

Lemma store_string cr3 p v bs : space_ok cr3 p -> user v -> v + Z.of_nat (length bs) <= KERNEL_BASE -> Forall (fun b => 0 <= b < 256) bs ->
  (forall w, v <= w < v + Z.of_nat (length bs) -> is_Some (translate cr3 (pmem p) w)) ->
  exists p', store_bytes cr3 v bs p = Some p' /\ stored cr3 p p' v (Z.of_nat (length bs)) /\ holds cr3 p' v bs.
Proof.
  intros Hs Hv Hl Hb Hm. destruct (store_bytes_spec bs cr3 p v Hs Hv Hl Hm) as (p' & E & Hs' & _ & Ht & Hld & Ho).
  exists p'. split; [done|]. split; [split; [done| |done]|].
  - intros w Hw. apply Ht, user_addr, Hw.
  - intros i b Hi. rewrite (Hld i b Hi). f_equal. change 0xFF with (Z.ones 8). rewrite Z.land_ones by lia. apply Z.mod_small.
    rewrite Forall_forall in Hb. apply Hb. by apply list_elem_of_lookup_2 in Hi.
Qed.

Lemma translate_add cr3 m v a k : translate cr3 m v = Some a -> 0 <= k -> v mod 4096 + k < 4096 -> translate cr3 m (v + k) = Some (a + k).
Proof.
  intros E Hk Hb. revert E. unfold translate. assert (same_page v (v + k)) as [-> ->] by (apply same_page_div; zmod). cbv zeta.
  destruct (tst _ _); [|done]. destruct (tst _ _); [|done]. rewrite !land_offset. intros [= <-]. f_equal. zmod.
Qed.

(** A word stored at an aligned user address. *)
Lemma store_word cr3 p v w : space_ok cr3 p -> user v -> v mod 4 = 0 -> is_Some (translate cr3 (pmem p) v) ->
  exists p', vstore cr3 v w p = Some p' /\ stored cr3 p p' v 4 /\ holds cr3 p' v (word_bytes w).
Proof.
  intros Hs Hv Hal [a Ha]. unfold vstore. rewrite Ha. cbn [mbind option_bind]. eexists. split; [done|].
  set (m' := wr _ _ _). set (p' := p <| pmem := m' |>). destruct (translate_frame _ _ _ _ Ha) as (f & [Hf _] & Ea).
  assert (Ha4 : a mod 4 = 0) by zmod.
  destruct (mm_ok_data cr3 p m' (so_mm _ _ Hs)) as (Hmm & Htb & Htr).
  { intros x Hx. apply rd_wr_ne. intros <-. by apply (so_table _ _ Hs v a). }
  assert (Htu : forall w, user w -> translate cr3 (pmem p') w = translate cr3 (pmem p) w) by (intros x [Hx _]%user_addr; by apply Htr).
  split; [split; [split; [done| | |]|done|]|].
  - intros x b Hx. rewrite Htu by done. intros E Hb%Htb. by apply (so_table _ _ Hs x b).
  - intros x b Hx. rewrite Htu by done. apply (so_free _ _ Hs); done.
  - intros x x' b b' Hx Hx'. rewrite !Htu by done. by apply (so_inj _ _ Hs).
  - intros x Hx Hout. unfold load8. rewrite Htu by done. destruct (translate cr3 (pmem p) x) as [b|] eqn:Eb; [|done].
    cbn [mbind option_bind]. do 2 f_equal. change (pmem p') with m'. apply rd_wr_ne. intros E.
    pose proof (so_inj _ _ Hs x v b a Hx Hv Eb Ha ltac:(zmod)). destruct (translate_frame _ _ _ _ Eb) as (g & [Hg _] & Ex). zmod.
  - intros i b Hi. assert (Hi4 : (i < 4)%nat) by (apply lookup_lt_Some in Hi; done).
    assert (Hvi : user (v + Z.of_nat i)) by (destruct Hv as [? H2]; split; [lia|]; unfold KERNEL_BASE in *; zmod).
    rewrite (load8_eq cr3 p' _ (a + Z.of_nat i)); [|rewrite Htu by done; apply translate_add; [done|lia|zmod]].
    replace ((a + Z.of_nat i) mod 4) with (Z.of_nat i) by zmod. replace (a + Z.of_nat i - Z.of_nat i) with a by lia.
    change (pmem p') with m'. unfold m'. rewrite rd_wr_eq. f_equal. unfold word_bytes in Hi.
    destruct i as [|[|[|[|i]]]]; [injection Hi as <-; done..|lia].
Qed.

(** ** Strings and pointers *)

Definition arg_ok (a : list Z) : Prop := a <> [] /\ cstr a /\ strlen a < EXEC_ARG_MAXLEN.
Definition args_size (argv : list (list Z)) : Z := foldr (fun a n => strlen a + 1 + n) 0 argv.

Lemma args_size_bound argv : Forall arg_ok argv -> 0 <= args_size argv <= 64 * Z.of_nat (length argv).
Proof.
  induction 1 as [|a argv (_ & _ & Ha) _ IH]; cbn [args_size foldr length]; [lia|]. fold (args_size argv).
  unfold EXEC_ARG_MAXLEN in Ha. unfold strlen in *. lia.
Qed.

Lemma arg_first a : arg_ok a -> char_at a 0 <> 0.
Proof. intros (Hne & Hc & _). destruct a as [|c a]; [done|]. unfold cstr in Hc. apply Forall_cons in Hc as [Hc _]. unfold char_at. cbn. lia. Qed.

Lemma arg_bytes a : cstr a -> Forall (fun b => 0 <= b < 256) (a ++ [0]).
Proof. intros Hc. apply Forall_app. split; [|repeat constructor; lia]. eapply Forall_impl; [exact Hc|]. cbn. lia. Qed.

Definition stack_mapped (cr3 : Z) (p : paging) : Prop :=
  forall v, USER_STACK_VIRT <= v < KERNEL_BASE -> is_Some (translate cr3 (pmem p) v).

Lemma stack_user v : USER_STACK_VIRT <= v < KERNEL_BASE -> user v.
Proof. unfold user, USER_STACK_VIRT, KERNEL_BASE. lia. Qed.

Lemma stored_mapped cr3 p p' v n : stored cr3 p p' v n -> stack_mapped cr3 p -> stack_mapped cr3 p'.
Proof. intros Hst Hm w Hw. rewrite (st_trans _ _ _ _ _ Hst) by (by apply stack_user). by apply Hm. Qed.

(** The string [a] is at [q], inside [[lo, hi)]. *)
Definition string_at (cr3 : Z) (p : paging) (lo hi : Z) (a : list Z) (q : Z) : Prop :=
  lo <= q /\ q + strlen a + 1 <= hi /\ holds cr3 p q (a ++ [0]).

Lemma push_args_spec n argv cr3 sp p :
  space_ok cr3 p -> stack_mapped cr3 p -> Forall arg_ok argv -> (length argv <= n)%nat ->
  USER_STACK_VIRT <= sp - args_size argv -> sp <= KERNEL_BASE ->
  exists addrs p', let lo := sp - args_size argv in
    push_args n argv cr3 sp p = Some (lo, addrs, p') /\ stored cr3 p p' lo (args_size argv) /\
    Forall2 (string_at cr3 p' lo sp) argv addrs.
Proof.
  intros Hs Hm Hok. revert n sp p Hs Hm. induction Hok as [|a argv Ha Hok IH]; intros n sp p Hs Hm Hn Hlo Hhi; cbv zeta.
  { exists [], p. cbn [args_size foldr]. rewrite Z.sub_0_r. split; [by destruct n|]. split; [by apply stored_refl|constructor]. }
  destruct n as [|n]; [cbn [length] in Hn; lia|]. cbn [push_args args_size foldr length] in *. fold (args_size argv) in *.
  destruct (Z.eqb_spec (char_at a 0) 0) as [E0|_]; [by apply arg_first in Ha|]. pose proof (args_size_bound argv Hok) as Hsz.
  assert (Hal : Z.of_nat (length (a ++ [0])) = strlen a + 1) by (rewrite length_app; unfold strlen; cbn [length]; lia).
  assert (Hsl : 0 <= strlen a) by (unfold strlen; lia).
  destruct (store_string cr3 p (sp - (strlen a + 1)) (a ++ [0]) Hs) as (p1 & -> & Hst1 & Hh1);
    [apply stack_user; lia|lia|apply arg_bytes, Ha|intros w Hw; apply Hm; lia|].
  cbn [mbind option_bind]. rewrite Hal in Hst1. set (sp1 := sp - (strlen a + 1)) in *.
  destruct (IH n sp1 p1 (st_space _ _ _ _ _ Hst1) (stored_mapped _ _ _ _ _ Hst1 Hm)) as (addrs & p2 & E & Hst2 & Hf); [lia|lia|lia|].
  cbv zeta in *. rewrite E. cbn [mbind option_bind]. exists (sp1 :: addrs), p2.
  replace (sp - (strlen a + 1 + args_size argv)) with (sp1 - args_size argv) by lia. split; [done|]. split; [|constructor].
  - apply (stored_trans cr3 p p1 p2 _ _ _ _ _ _ Hst1 Hst2); lia.
  - split; [lia|]. split; [lia|]. apply (holds_keep cr3 p1); [done|]. intros w Hw. apply (st_other _ _ _ _ _ Hst2); [apply stack_user|]; lia.
  - eapply Forall2_impl; [exact Hf|]. intros b q (H1 & H2 & H3). split; [lia|]. split; [lia|done].
Qed.

Lemma store_words_spec ws cr3 v p :
  space_ok cr3 p -> stack_mapped cr3 p -> v mod 4 = 0 -> USER_STACK_VIRT <= v -> v + 4 * Z.of_nat (length ws) <= KERNEL_BASE ->
  exists p', store_words cr3 v ws p = Some p' /\ stored cr3 p p' v (4 * Z.of_nat (length ws)) /\
    forall i w, ws !! i = Some w -> holds cr3 p' (v + 4 * Z.of_nat i) (word_bytes w).
Proof.
  revert v p. induction ws as [|w ws IH]; intros v p Hs Hm Hal Hlo Hhi; cbn [store_words length] in *.
  { exists p. split; [done|]. split; [by apply stored_refl|done]. }
  destruct (store_word cr3 p v w Hs) as (p1 & -> & Hst1 & Hh1); [apply stack_user; lia|done|apply Hm; lia|]. cbn [mbind option_bind].
  destruct (IH (v + 4) p1 (st_space _ _ _ _ _ Hst1) (stored_mapped _ _ _ _ _ Hst1 Hm)) as (p2 & -> & Hst2 & Hh2); [zmod|lia|lia|].
  exists p2. split; [done|]. split; [apply (stored_trans cr3 p p1 p2 _ _ _ _ _ _ Hst1 Hst2); lia|].
  intros [|i] x Hi.
  - injection Hi as <-. rewrite Z.add_0_r. apply (holds_keep cr3 p1); [done|]. intros y Hy. change (length (word_bytes w)) with 4%nat in Hy.
    apply (st_other _ _ _ _ _ Hst2); [apply stack_user|]; lia.
  - replace (v + 4 * Z.of_nat (S i)) with (v + 4 + 4 * Z.of_nat i) by lia. by apply Hh2.
Qed.

(** The layout for arguments that all are passed on. *)
Lemma arg_stack_spec cr3 p argv :
  space_ok cr3 p -> stack_mapped cr3 p -> Forall arg_ok argv -> (length argv <= MAX_EXEC_ARGS)%nat ->
  exists sp p', build_arg_stack cr3 argv p = Some (sp, p') /\ sp mod 4 = 0 /\ USER_STACK_VIRT <= sp < KERNEL_BASE /\
    stored cr3 p p' sp (KERNEL_BASE - sp) /\
    load32 cr3 p' sp = Some (Z.of_nat (length argv)) /\
    (forall i a, argv !! i = Some a -> exists q, load32 cr3 p' (sp + 4 + 4 * Z.of_nat i) = Some q /\
       load_bytes cr3 p' q (length a + 1) = Some (a ++ [0])) /\
    load32 cr3 p' (sp + 4 + 4 * Z.of_nat (length argv)) = Some 0.
Proof.
  intros Hs Hm Hok Hn. unfold build_arg_stack. change (USER_STACK_VIRT + 4096) with KERNEL_BASE. unfold MAX_EXEC_ARGS in *.
  pose proof (args_size_bound argv Hok) as Hsz.
  destruct (push_args_spec 8 argv cr3 KERNEL_BASE p Hs Hm Hok Hn) as (addrs & p1 & E & Hst1 & Hf); [unfold USER_STACK_VIRT, KERNEL_BASE; lia|lia|].
  cbv zeta in E, Hst1, Hf. set (lo := KERNEL_BASE - args_size argv) in *. rewrite E. cbn [mbind option_bind].
  pose proof (Forall2_length _ _ _ Hf) as Hlen. rewrite <- Hlen. set (n := length argv) in *. cbv zeta.
  assert (Hld : Z.ldiff lo 3 = lo / 4 * 4). { change 3 with (Z.ones 2). by rewrite Z.ldiff_ones_r, Z.shiftl_mul_pow2, Z.shiftr_div_pow2 by lia. }
  rewrite Hld. set (v := lo / 4 * 4 - (Z.of_nat n + 1) * 4). assert (Hv : v mod 4 = 0) by (unfold v; zmod).
  assert (Hvlo : lo - 40 <= v /\ v + 4 * (Z.of_nat n + 1) <= lo) by (unfold v; zmod).
  assert (Hlo : KERNEL_BASE - 512 <= lo <= KERNEL_BASE) by (unfold lo; lia). unfold USER_STACK_VIRT, KERNEL_BASE in *.
  destruct (store_words_spec (addrs ++ [0]) cr3 v p1 (st_space _ _ _ _ _ Hst1) (stored_mapped _ _ _ _ _ Hst1 Hm)) as (p2 & -> & Hst2 & Hh2);
    [done|unfold USER_STACK_VIRT; lia|rewrite length_app; cbn [length]; unfold KERNEL_BASE; lia|].
  cbn [mbind option_bind]. rewrite length_app in Hst2. cbn [length] in Hst2. rewrite <- Hlen in Hst2. fold n in Hst2.
  destruct (store_word cr3 p2 (v - 4) (Z.of_nat n) (st_space _ _ _ _ _ Hst2)) as (p3 & -> & Hst3 & Hh3);
    [apply stack_user; unfold USER_STACK_VIRT, KERNEL_BASE; lia|zmod| |].
  { apply (stored_mapped _ _ _ _ _ Hst2 (stored_mapped _ _ _ _ _ Hst1 Hm)). unfold USER_STACK_VIRT, KERNEL_BASE. lia. }
  assert (Hup : forall w, v <= w < 0xC0000000 -> load8 cr3 p3 w = load8 cr3 p2 w).
  { intros w Hw. apply (st_other _ _ _ _ _ Hst3); [apply stack_user; unfold USER_STACK_VIRT, KERNEL_BASE|]; lia. }
  assert (Hup2 : forall w, lo <= w < 0xC0000000 -> load8 cr3 p2 w = load8 cr3 p1 w).
  { intros w Hw. apply (st_other _ _ _ _ _ Hst2); [apply stack_user; unfold USER_STACK_VIRT, KERNEL_BASE|]; lia. }
  assert (Hword : forall i w, (addrs ++ [0]) !! i = Some w -> 0 <= w < 2 ^ 32 -> load32 cr3 p3 (v - 4 + 4 + 4 * Z.of_nat i) = Some w).
  { intros i w Hi Hw. assert (Hin : (i <= n)%nat) by (apply lookup_lt_Some in Hi; rewrite length_app in Hi; cbn [length] in Hi; lia).
    replace (v - 4 + 4 + 4 * Z.of_nat i) with (v + 4 * Z.of_nat i) by lia. apply holds_load32; [lia|lia|done|].
    apply (holds_keep cr3 p2); [by apply Hh2|]. intros x Hx. change (length (word_bytes w)) with 4%nat in Hx. apply Hup. lia. }
  cbn [mbind option_bind]. exists (v - 4), p3. split; [done|]. split; [zmod|]. split; [lia|]. split; [|split; [|split]].
  - apply (stored_trans cr3 p p1 p3 _ _ lo (args_size argv) (v - 4) (4 * (Z.of_nat n + 1) + 4) Hst1); [|lia..].
    apply (stored_trans cr3 p1 p2 p3 _ _ _ _ _ _ Hst2 Hst3); lia.
  - apply holds_load32; [lia|lia|lia|done].
  - intros i b Hi. destruct (Forall2_lookup_l _ _ _ _ _ Hf Hi) as (q & Hq & Hlq & Hhq & Hhold). exists q. unfold strlen in Hhq.
    assert (Hin : (i < n)%nat) by (by apply lookup_lt_Some in Hi).
    split; [apply Hword; [by apply lookup_app_l_Some|lia]|].
    replace (length b + 1)%nat with (length (b ++ [0])) by (by rewrite length_app). apply holds_load_bytes; [lia|rewrite length_app; cbn [length]; lia|].
    apply (holds_keep cr3 p1); [done|]. intros w Hw. rewrite length_app in Hw. cbn [length] in Hw. rewrite Hup, Hup2 by lia. done.
  - apply Hword; [|lia]. rewrite Hlen. by apply list_lookup_middle.
Qed.

(** The arguments that a program gets: an empty one ends the table, as does its last row. *)
Fixpoint passed (n : nat) (argv : list (list Z)) : list (list Z) :=
  match n, argv with
  | S n, a :: argv => if decide (a = []) then [] else a :: passed n argv
  | _, _ => []
  end.

Definition row_ok (a : list Z) : Prop := cstr a /\ strlen a < EXEC_ARG_MAXLEN.

Lemma passed_ok n argv : Forall row_ok argv -> Forall arg_ok (passed n argv) /\ (length (passed n argv) <= n)%nat.
Proof.
  intros Hok. revert n. induction Hok as [|a argv Ha _ IH]; intros [|n]; cbn [passed length]; try (split; [constructor|lia]).
  case_decide; cbn [length]; [split; [constructor|lia]|]. destruct (IH n) as [H1 H2]. split; [|lia].
  constructor; [|done]. destruct Ha. by split.
Qed.

Lemma push_args_passed n argv cr3 sp p : Forall row_ok argv -> push_args n argv cr3 sp p = push_args n (passed n argv) cr3 sp p.
Proof.
  intros Hok. revert n sp p. induction Hok as [|a argv Ha Hok IH]; intros [|n] sp p; cbn [push_args passed]; try done.
  case_decide as E; [by subst|]. cbn [push_args]. destruct (char_at a 0 =? 0); [done|].
  destruct (store_bytes _ _ _ p) as [p1|]; [|done]. cbn [mbind option_bind]. by rewrite IH.
Qed.

(** C9: the arguments of a program.  On a mapped stack page and for any table of arguments of
    at most 63 characters, [build_arg_stack] never faults and leaves room on the page.  It
    passes on at most eight arguments, and of these the ones before the first empty one (an
    empty argument and all behind it are dropped): at the aligned stack pointer it returns
    stand their number, the argv pointers and NULL, each pointer leads to its argument with
    its NUL, and nothing below the stack pointer or outside the page has changed: what the
    start code of a program expects. *)
Theorem build_arg_stack_layout cr3 p argv :
  space_ok cr3 p -> stack_mapped cr3 p -> Forall row_ok argv ->
  let args := passed MAX_EXEC_ARGS argv in
  exists sp p', build_arg_stack cr3 argv p = Some (sp, p') /\ sp mod 4 = 0 /\ USER_STACK_VIRT <= sp < KERNEL_BASE /\
    stored cr3 p p' sp (KERNEL_BASE - sp) /\
    load32 cr3 p' sp = Some (Z.of_nat (length args)) /\
    (forall i a, args !! i = Some a -> exists q, load32 cr3 p' (sp + 4 + 4 * Z.of_nat i) = Some q /\
       load_bytes cr3 p' q (length a + 1) = Some (a ++ [0])) /\
    load32 cr3 p' (sp + 4 + 4 * Z.of_nat (length args)) = Some 0.
Proof.
  intros Hs Hm Hok args. destruct (passed_ok MAX_EXEC_ARGS argv Hok) as [H1 H2].
  assert (E : build_arg_stack cr3 argv p = build_arg_stack cr3 args p) by (unfold build_arg_stack; by rewrite push_args_passed).
  rewrite E. by apply arg_stack_spec.
Qed.

(** An empty argument hides the ones behind it. *)
Theorem empty_argument_drops_rest cr3 p args rest :
  Forall (fun a => a <> []) args -> Forall row_ok (args ++ [] :: rest) -> Forall row_ok args ->
  build_arg_stack cr3 (args ++ [] :: rest) p = build_arg_stack cr3 args p.
Proof.
  intros Hne H1 H2. unfold build_arg_stack. rewrite (push_args_passed _ _ _ _ _ H1), (push_args_passed _ args _ _ _ H2).
  assert (E : forall n, passed n (args ++ [] :: rest) = passed n args).
  { clear H1 H2. induction Hne as [|a args Ha _ IH]; intros [|n]; cbn [passed app]; try done. by rewrite IH. }
  by rewrite E.
Qed.

(** ** Witness: a stack page and two arguments *)

Definition stack_page : paging := first_page 0x100000 USER_STACK_VIRT boot_paging.

Lemma stack_page_ok : space_ok 0x100000 stack_page /\ stack_mapped 0x100000 stack_page.
Proof.
  assert (Hlen : Z.of_nat (length (freeq boot_paging)) = 15360).
  { unfold boot_paging. rewrite paging_init_freeq. unfold init_freeq. rewrite length_seqZ. apply Z2Nat.id. vm_compute. discriminate. }
  destruct (first_page_ok 0x100000 boot_paging USER_STACK_VIRT boot_space_ok) as (H1 & _ & _ & H2);
    [lia|unfold user, USER_STACK_VIRT, KERNEL_BASE; lia|exact boot_no_user|].
  split; [exact H1|]. intros v Hv. apply H2; [by apply stack_user|]. apply same_page_div. unfold USER_STACK_VIRT, KERNEL_BASE in *. zmod.
Qed.

Lemma build_arg_stack_layout_witness :
  exists sp p', build_arg_stack 0x100000 [lit "ls"; lit "-l"; []; lit "x"] stack_page = Some (sp, p') /\ load32 0x100000 p' sp = Some 2.
Proof.
  destruct (build_arg_stack_layout 0x100000 stack_page [lit "ls"; lit "-l"; []; lit "x"]) as (sp & p' & E & _ & _ & _ & Hargc & _).
  - exact (proj1 stack_page_ok).
  - exact (proj2 stack_page_ok).
  - assert (Hok : forall a, Forall (fun c => 0 < c < 256) a -> strlen a < 64 -> row_ok a) by done.
    apply Forall_cons_2; [apply Hok|apply Forall_cons_2; [apply Hok|apply Forall_cons_2; [apply Hok|apply Forall_cons_2; [apply Hok|apply Forall_nil_2]]]];
      vm_compute; try reflexivity; repeat constructor.
  - exists sp, p'. split; [exact E|exact Hargc].
Defined.
