(* ===== verification/Teardown.v ===== *)
(** * Releasing an address space (teardown_current_pd of src/kernel/process.c) *)

From S2P Require Import Prelude LList Cstr Heap HeapInv HeapSpec HeapTheorems Alloc Task TaskInv Sched Paging PagingInv PagingTheorems UserMem UserMemTheorems AddrSpace ForkMem Vm Vfs Memfs Elf ElfTheorems Process ProcessTheorems ForkTheorems.

(** ** Releasing a list of frames *)

Definition free_list (l : list Z) (p : paging) : paging := foldl (fun p f => free_page_frame f p) p l.

Lemma free_frame_pmem f p : pmem (free_page_frame f p) = pmem p.
Proof.
  unfold free_page_frame, free_phys_page. cbv zeta. repeat (match goal with |- context [if ?b then _ else _] => destruct b end; try done).
Qed.

Lemma free_frame_set f p m : free_page_frame f (p <| pmem := m |>) = (free_page_frame f p) <| pmem := m |>.
Proof.
  destruct p as [pm fq rc pf pr]. cbv -[rd wr Z.ltb Z.leb Z.shiftr Z.sub Z.lor andb NUM_PAGES PAGE_START_INDEX PG_FREE].
  repeat match goal with |- context [if ?b then _ else _] =>
    lazymatch b with context [if _ then _ else _] => fail | _ => destruct b end end; done.
Qed.

Lemma free_list_pmem l p : pmem (free_list l p) = pmem p.
Proof. revert p. induction l as [|f l IH]; intros p; [done|]. cbn [free_list foldl]. fold (free_list l (free_page_frame f p)). by rewrite IH, free_frame_pmem. Qed.

Lemma free_list_set l p m : free_list l (p <| pmem := m |>) = (free_list l p) <| pmem := m |>.
Proof.
  revert p. induction l as [|f l IH]; intros p; [done|]. cbn [free_list foldl]. rewrite free_frame_set.
  fold (free_list l ((free_page_frame f p) <| pmem := m |>)) (free_list l (free_page_frame f p)). by rewrite IH.
Qed.

Lemma free_list_app l1 l2 p : free_list (l1 ++ l2) p = free_list l2 (free_list l1 p).
Proof. apply foldl_app. Qed.

(** A frame that the next [free_page_frame] gives back. *)
Definition last_ref (p : paging) (f : Z) : Prop :=
  frame_addr f /\ PAGE_START_INDEX <= f / 4096 < NUM_PAGES /\ rd (ref_count p) (f / 4096) <= 1.

Lemma free_frame_last f p : last_ref p f ->
  freeq (free_page_frame f p) = f / 4096 :: freeq p /\ forall k, k <> f / 4096 -> rd (ref_count (free_page_frame f p)) k = rd (ref_count p) k.
Proof.
  intros (Hf & Hr & Hc). unfold free_page_frame, free_phys_page. rewrite Z.shiftr_div_pow2 by lia. change (2 ^ 12) with 4096. set (k := f / 4096) in *.
  destruct (Z.ltb_spec k NUM_PAGES); [|lia]. cbv zeta. destruct (Z.ltb_spec 0 (rd (ref_count p) k)).
  - cbn [ref_count set_field eta_paging]. rewrite rd_wr_eq. destruct (Z.ltb_spec 0 (rd (ref_count p) k - 1)); [lia|].
    destruct (Z.leb_spec PAGE_START_INDEX k); [|lia]. cbn [andb]. split; [done|]. intros x Hx. cbn [ref_count set_field eta_paging]. by apply rd_wr_ne.
  - destruct (Z.ltb_spec 0 (rd (ref_count p) k)); [lia|]. destruct (Z.leb_spec PAGE_START_INDEX k); [|lia]. cbn [andb]. done.
Qed.

Lemma free_list_spec l p : NoDup l -> Forall (last_ref p) l -> freeq (free_list l p) = reverse ((fun f => f / 4096) <$> l) ++ freeq p.
Proof.
  revert p. induction l as [|f l IH]; intros p Hnd Hl; [done|]. apply NoDup_cons in Hnd as [Hf Hnd]. apply Forall_cons in Hl as [Hlf Hl].
  cbn [free_list foldl]. fold (free_list l (free_page_frame f p)). destruct (free_frame_last f p Hlf) as [Eq Hr].
  rewrite IH, Eq, fmap_cons, reverse_cons, <- app_assoc; [done|done|]. rewrite Forall_forall in Hl |- *. intros g Hg.
  destruct (Hl g Hg) as (H1 & H2 & H3). split; [done|]. split; [done|]. rewrite Hr; [done|]. intros E. destruct Hlf as [Hff _].
  apply Hf. replace f with g; [done|]. rewrite (frame_div g), (frame_div f), E by done. done.
Qed.

(** ** The loops *)

Lemma free_table_spec n cr3 p i f fl j0 :
  pt_wf cr3 (pmem p) -> 0 <= i < 1024 -> pde_is cr3 (pmem p) i f fl -> tst fl PTE_PRESENT = true -> 0 <= j0 -> j0 + Z.of_nat n <= 1024 ->
  for_loop n j0 (fun j p => pte ← vload cr3 p (pt_slot i j);
    Some (if tst pte PTE_PRESENT then free_page_frame (Z.land pte FRAME_MASK) p else p)) p
  = Some (free_list (snd <$> pt_pages f i (pmem p) j0 (Z.of_nat n)) p).
Proof.
  revert j0 p. induction n as [|n IH]; intros j0 p Hw Hi Hp Ht Hj Hn; cbn [for_loop]; [done|].
  rewrite (vload_pt cr3 p i j0 f fl) by (done || lia). cbn [mbind option_bind]. set (pte := rd (pmem p) (f + 4 * j0)).
  set (p1 := if tst pte PTE_PRESENT then _ else p). assert (Em : pmem p1 = pmem p) by (unfold p1; destruct (tst pte PTE_PRESENT); [apply free_frame_pmem|done]).
  rewrite IH by (rewrite ?Em; done || lia). rewrite Em. unfold pt_pages. rewrite (seqZ_cons j0) by lia.
  replace (Z.pred (Z.of_nat (S n))) with (Z.of_nat n) by lia. change (Z.succ j0) with (j0 + 1). cbn [mbind list_bind]. fold pte.
  rewrite fmap_app, free_list_app. f_equal. f_equal. unfold p1. by destruct (tst pte PTE_PRESENT).
Qed.

Lemma clear_slot_wf cr3 m i : pt_wf cr3 m -> 0 <= i < 1023 -> pt_wf cr3 (wr m (cr3 + 4 * i) 0).
Proof.
  intros [Hs He Hd] Hi. set (m' := wr _ _ _).
  assert (Hnew : pde_is cr3 m' i 0 0) by (split; [apply rd_wr_eq|split; [split; [done|lia]|lia]]).
  assert (Hold : forall j f fl, j <> i -> pde_is cr3 m' j f fl <-> pde_is cr3 m j f fl).
  { intros j f fl Hj. apply pde_is_ext. apply rd_wr_ne. lia. }
  assert (Hne : forall j f fl, pde_is cr3 m' j f fl -> tst fl PTE_PRESENT = true -> j <> i).
  { intros j f fl Hp Ht ->. destruct (pde_is_fun _ _ _ _ _ _ _ Hnew Hp) as [_ <-]. by vm_compute in Ht. }
  split.
  - destruct Hs as (fl & Hp & Ht). exists fl. split; [|done]. apply Hold; [lia|done].
  - intros j Hj. destruct (decide (j = i)) as [->|]; [by eauto|]. destruct (He j Hj) as (f & fl & Hp). exists f, fl. by apply Hold.
  - intros a b f fl f' fl' Ha Hb Hab Hp Ht Hp' Ht'. pose proof (Hne _ _ _ Hp Ht). pose proof (Hne _ _ _ Hp' Ht').
    apply Hold in Hp; [|done]. apply Hold in Hp'; [|done]. by apply (Hd a b f fl f' fl').
Qed.

(** The frames of a slot: its pages and its page table. *)
Definition slot_frames (cr3 : Z) (m : gmap Z Z) (i : Z) : list Z :=
  let pde := rd m (cr3 + 4 * i) in
  if tst pde PTE_PRESENT then (snd <$> slot_pages cr3 m i) ++ [Z.land pde FRAME_MASK] else [].

Definition teardown_step (cr3 i : Z) (p : paging) : option paging :=
  pde ← vload cr3 p (pd_slot i);
  if negb (tst pde PTE_PRESENT) then Some p
  else
    p ← for_loop 1024 0 (fun j p => pte ← vload cr3 p (pt_slot i j);
          Some (if tst pte PTE_PRESENT then free_page_frame (Z.land pte FRAME_MASK) p else p)) p;
    let p := free_page_frame (Z.land pde FRAME_MASK) p in
    vstore cr3 (pd_slot i) 0 p.

Lemma teardown_step_spec cr3 p i : pt_wf cr3 (pmem p) -> 0 <= i < 1023 ->
  exists m', teardown_step cr3 i p = Some ((free_list (slot_frames cr3 (pmem p) i) p) <| pmem := m' |>) /\ pt_wf cr3 m' /\
    tst (rd m' (cr3 + 4 * i)) PTE_PRESENT = false /\ (forall x, x <> cr3 + 4 * i -> rd m' x = rd (pmem p) x).
Proof.
  intros Hw Hi. unfold teardown_step, slot_frames. rewrite vload_pd by (done || lia). cbn [mbind option_bind]. cbv zeta.
  destruct (tst (rd (pmem p) (cr3 + 4 * i)) PTE_PRESENT) eqn:Ht; cbn [negb].
  2:{ exists (pmem p). split; [cbn [free_list foldl]; by destruct p|done]. }
  destruct (pw_entry _ _ Hw i ltac:(lia)) as (f & fl & Hp). pose proof Hp as (E & Hf & Hfl).
  rewrite (free_table_spec 1024 cr3 p i f fl 0) by (done || lia || (by rewrite <- (pde_tst _ _ _ _ _ Hp))). cbn [mbind option_bind].
  assert (Es : slot_pages cr3 (pmem p) i = pt_pages f i (pmem p) 0 1024) by (unfold slot_pages; by rewrite Ht, E, entry_frame).
  change (Z.of_nat 1024) with 1024. rewrite <- Es, E, entry_frame by done. set (p1 := free_list _ p).
  assert (Em : pmem (free_page_frame f p1) = pmem p) by (rewrite free_frame_pmem; apply free_list_pmem).
  unfold vstore. rewrite Em, pd_translate by (apply Hw || lia). cbn [mbind option_bind].
  exists (wr (pmem p) (cr3 + 4 * i) 0). rewrite free_list_app. split; [done|].
  assert (Hne : forall x, x <> cr3 + 4 * i -> rd (wr (pmem p) (cr3 + 4 * i) 0) x = rd (pmem p) x) by (intros x Hx; apply rd_wr_ne; congruence).
  split; [|split; [by rewrite rd_wr_eq|done]].
  by apply clear_slot_wf.
Qed.

Lemma list_bind_ext_in {A B} (f g : A -> list B) l : (forall x, x ∈ l -> f x = g x) -> l ≫= f = l ≫= g.
Proof.
  induction l as [|x l IH]; intros H; [done|]. rewrite !bind_cons, (H x) by (by left). f_equal. apply IH. intros y Hy. apply H. by right.
Qed.

Lemma slot_frames_ext cr3 m m' i0 i : pt_wf cr3 m -> 0 <= i0 < 1023 -> 0 <= i < 1023 -> i <> i0 ->
  (forall x, x <> cr3 + 4 * i0 -> rd m' x = rd m x) -> slot_frames cr3 m' i = slot_frames cr3 m i.
Proof.
  intros Hw Hi0 Hi Hne Hm. unfold slot_frames, slot_pages. rewrite (Hm (cr3 + 4 * i)) by lia. cbv zeta.
  destruct (tst (rd m (cr3 + 4 * i)) PTE_PRESENT) eqn:Ht; [|done]. f_equal. f_equal. unfold pt_pages. apply list_bind_ext_in.
  intros j Hj%elem_of_seqZ. cbv zeta. rewrite Hm; [done|]. destruct (pw_entry _ _ Hw i ltac:(lia)) as (f & fl & Hp). pose proof Hp as (E & Hf & Hfl).
  rewrite E, entry_frame by done. intros E'. destruct (addr_inj f cr3 j i0) as [Ef _]; [done|apply (self_frame _ _ (pw_self _ _ Hw))|lia|lia|done|].
  apply (pt_not_pd cr3 m i f fl); try done. by rewrite <- (pde_tst _ _ _ _ _ Hp).
Qed.

Lemma teardown_slots n cr3 i0 p : pt_wf cr3 (pmem p) -> 0 <= i0 -> i0 + Z.of_nat n <= 1023 ->
  exists m', for_loop n i0 (teardown_step cr3) p = Some ((free_list (seqZ i0 (Z.of_nat n) ≫= slot_frames cr3 (pmem p)) p) <| pmem := m' |>) /\
    pt_wf cr3 m' /\ (forall i, i0 <= i < i0 + Z.of_nat n -> tst (rd m' (cr3 + 4 * i)) PTE_PRESENT = false).
Proof.
  intros Hw Hi Hn. enough (H : exists m', for_loop n i0 (teardown_step cr3) p = Some ((free_list (seqZ i0 (Z.of_nat n) ≫= slot_frames cr3 (pmem p)) p) <| pmem := m' |>) /\
    pt_wf cr3 m' /\ (forall i, i0 <= i < i0 + Z.of_nat n -> tst (rd m' (cr3 + 4 * i)) PTE_PRESENT = false) /\
    (forall x, (forall i, i0 <= i < i0 + Z.of_nat n -> x <> cr3 + 4 * i) -> rd m' x = rd (pmem p) x)) by (destruct H as (m' & ? & ? & ? & _); eauto).
  revert i0 p Hw Hi Hn. induction n as [|n IH]; intros i0 p Hw Hi Hn; cbn [for_loop].
  { exists (pmem p). split; [by destruct p|]. split; [done|]. split; [intros; lia|done]. }
  destruct (teardown_step_spec cr3 p i0 Hw ltac:(lia)) as (m1 & -> & Hw1 & Hz1 & Hm1). cbn [mbind option_bind].
  set (p1 := (free_list (slot_frames cr3 (pmem p) i0) p) <| pmem := m1 |>). assert (Em : pmem p1 = m1) by reflexivity.
  destruct (IH (i0 + 1) p1) as (m2 & -> & Hw2 & Hz2 & Hm2); [by rewrite Em|lia|lia|].
  exists m2. rewrite Em in *. unfold p1.
  rewrite (seqZ_cons i0) by lia. replace (Z.pred (Z.of_nat (S n))) with (Z.of_nat n) by lia. change (Z.succ i0) with (i0 + 1).
  rewrite bind_cons, free_list_app, free_list_set. split; [|split; [done|split]].
  - rewrite (list_bind_ext_in (slot_frames cr3 m1) (slot_frames cr3 (pmem p))); [done|].
    intros i Hi'%elem_of_seqZ. apply (slot_frames_ext cr3 (pmem p) m1 i0); done || lia.
  - intros i Hi'. destruct (decide (i = i0)) as [->|]; [|apply Hz2; lia]. rewrite Hm2; [done|]. intros; lia.
  - intros x Hx. rewrite Hm2 by (intros; apply Hx; lia). apply Hm1. apply Hx. lia.
Qed.

(** ** The frames of a space *)

Definition space_frames (cr3 : Z) (m : gmap Z Z) : list Z := (seqZ 1 767 ≫= slot_frames cr3 m) ++ [cr3].

Lemma elem_of_slot_frames cr3 m i f : pt_wf cr3 m -> 1 <= i < 768 ->
  f ∈ slot_frames cr3 m i <->
  (exists va, (va, f) ∈ user_pages cr3 m /\ pd_index va = i) \/ (exists fl, pde_is cr3 m i f fl /\ tst fl PTE_PRESENT = true).
Proof.
  intros Hw Hi. unfold slot_frames. cbv zeta. destruct (pw_entry _ _ Hw i ltac:(lia)) as (g & gl & Hg). pose proof Hg as (E & Hgf & Hgl).
  assert (Hsp : forall va, (va, f) ∈ slot_pages cr3 m i <-> (va, f) ∈ user_pages cr3 m /\ pd_index va = i).
  { intros va. unfold user_pages. rewrite list_elem_of_bind. assert (Hpd : forall i, (va, f) ∈ slot_pages cr3 m i -> pd_index va = i).
    { intros j. unfold slot_pages. destruct (tst _ _); [|by intros ?%not_elem_of_nil].
      intros (x & Hx & _ & -> & _)%elem_of_pt_pages. exact (proj1 (page_indices j x Hx)). }
    split; [intros Hin; split; [exists i; split; [done|apply elem_of_seqZ; lia]|by apply Hpd]|].
    intros [(j & Hin & _) <-]. by rewrite (Hpd j Hin). }
  rewrite (pde_tst _ _ _ _ _ Hg). destruct (tst gl PTE_PRESENT) eqn:Ht.
  - rewrite elem_of_app, list_elem_of_fmap, list_elem_of_singleton, E, entry_frame by done. split.
    + intros [([va ph] & -> & Hin)| ->]; [left; exists va; by apply Hsp|right; by exists gl].
    + intros [(va & Hin)|(fl & Hp & _)]; [left; exists (va, f); split; [done|by apply Hsp]|right]. by destruct (pde_is_fun _ _ _ _ _ _ _ Hp Hg).
  - split; [by intros ?%not_elem_of_nil|]. intros [(va & Hin)|(fl & Hp & Hpt)].
    + exfalso. apply Hsp in Hin. unfold slot_pages in Hin. rewrite (pde_tst _ _ _ _ _ Hg), Ht in Hin. by apply not_elem_of_nil in Hin.
    + destruct (pde_is_fun _ _ _ _ _ _ _ Hp Hg) as [_ ->]. congruence.
Qed.

Lemma elem_of_space_frames cr3 m f : pt_wf cr3 m -> f ∈ space_frames cr3 m <-> owned cr3 m f.
Proof.
  intros Hw. unfold space_frames, owned. rewrite elem_of_app, list_elem_of_singleton, list_elem_of_bind. split.
  - intros [(i & Hin & Hi%elem_of_seqZ)|Hc]; [right|by left]. apply elem_of_slot_frames in Hin as [(va & Hin & _)|(fl & Hp)]; [| |done|lia].
    + right. apply elem_of_user_pages in Hin as (Hal & Hu & E); [|done]. exists va, f. splits; [done|done|].
      destruct (translate_frame _ _ _ _ E) as (g & Hg & Eg). rewrite Hal, Z.add_0_r in Eg. subst g. by apply frame_div.
    + left. exists i, fl. split; [lia|done].
  - intros [->|[(i & fl & Hi & Hp & Ht)|(v & a & Hv & E & ->)]]; [by right|left..].
    + exists i. split; [|apply elem_of_seqZ; lia]. apply elem_of_slot_frames; [done|done|]. right. by exists fl.
    + exists (pd_index v). assert (Hi : 1 <= pd_index v < 768) by (destruct Hv as [? H2]; unfold KERNEL_BASE in H2; rewrite pd_index_div; zmod).
      split; [|apply elem_of_seqZ; lia]. apply elem_of_slot_frames; [done|done|]. left. exists (v / 4096 * 4096).
      destruct (page_of v) as (Ev & Ho & Hal). assert (Hsp : same_page (v / 4096 * 4096) v) by (apply same_page_div; by rewrite Z.div_mul).
      split; [|by destruct Hsp]. apply elem_of_user_pages; [done|]. split; [done|]. split; [by apply user_page_start|].
      destruct (translate cr3 m (v / 4096 * 4096)) as [b|] eqn:Eb; [|by rewrite (translate_page _ _ _ _ Hsp Eb) in E].
      f_equal. rewrite Ev in E at 1. rewrite (translate_offset cr3 m _ b) in E by done. injection E as <-.
      destruct (translate_frame _ _ _ _ Eb) as (g & Hg & Eg). rewrite Hal, Z.add_0_r in Eg. subst g. symmetry. by apply frame_of_add.
Qed.

Lemma table_pages_differ cr3 p va f : space_ok cr3 p -> (va, f) ∈ user_pages cr3 (pmem p) -> ~ table cr3 (pmem p) f.
Proof.
  intros Hs Hin. pose proof (so_mm _ _ Hs) as [Hw _]. apply elem_of_user_pages in Hin as (Hal & Hu & E); [|done].
  destruct (translate_frame _ _ _ _ E) as (g & Hg & Eg). rewrite Hal, Z.add_0_r in Eg. subst g.
  intros Ht. apply (so_table _ _ Hs va f Hu E). unfold frame_of. by rewrite <- frame_div.
Qed.

Lemma user_pages_inj cr3 p va va' f : space_ok cr3 p -> (va, f) ∈ user_pages cr3 (pmem p) -> (va', f) ∈ user_pages cr3 (pmem p) -> va = va'.
Proof.
  intros Hs H1 H2. pose proof (so_mm _ _ Hs) as [Hw _]. apply elem_of_user_pages in H1 as (A1 & U1 & E1); [|done].
  apply elem_of_user_pages in H2 as (A2 & U2 & E2); [|done]. pose proof (so_inj _ _ Hs va va' f f U1 U2 E1 E2 eq_refl). zmod.
Qed.

Lemma space_frames_nodup cr3 p : space_ok cr3 p -> NoDup (space_frames cr3 (pmem p)).
Proof.
  intros Hs. pose proof (so_mm _ _ Hs) as [Hw _]. set (m := pmem p) in *.
  assert (Hin : forall i, i ∈ seqZ 1 767 -> 1 <= i < 768) by (intros i Hi%elem_of_seqZ; lia).
  assert (Htab : forall i f fl, 1 <= i < 768 -> pde_is cr3 m i f fl -> tst fl PTE_PRESENT = true -> table cr3 m f).
  { intros i f fl Hi Hp Ht. exists i, fl. split; [lia|done]. }
  unfold space_frames. apply NoDup_app. split; [|split; [|apply NoDup_singleton]].
  - apply NoDup_bind; [|intros i Hi%Hin|apply NoDup_seqZ].
    + intros i i' f Hi%Hin Hi'%Hin H1 H2. apply elem_of_slot_frames in H1; [|done|done]. apply elem_of_slot_frames in H2; [|done|done].
      destruct H1 as [(va & V1 & <-)|(fl & P1 & T1)], H2 as [(va' & V2 & <-)|(fl' & P2 & T2)].
      * by rewrite (user_pages_inj cr3 p va va' f).
      * destruct (table_pages_differ cr3 p va f Hs V1). by apply (Htab i' f fl').
      * destruct (table_pages_differ cr3 p va' f Hs V2). by apply (Htab i f fl).
      * destruct (decide (i = i')) as [|Hne]; [done|]. by destruct (pw_distinct _ _ Hw i i' f fl f fl' ltac:(lia) ltac:(lia) Hne P1 T1 P2 T2).
    + unfold slot_frames. cbv zeta. destruct (tst (rd m (cr3 + 4 * i)) PTE_PRESENT) eqn:Ht; [|apply NoDup_nil_2].
      assert (Hsub : forall x, x ∈ slot_pages cr3 m i -> x ∈ user_pages cr3 m).
      { intros x Hx. unfold user_pages. apply list_elem_of_bind. exists i. split; [done|]. apply elem_of_seqZ. lia. }
      apply NoDup_app. split; [|split; [|apply NoDup_singleton]].
      * apply NoDup_fmap_2_strong; [|apply slot_pages_nodup]. intros [va f] [va' f'] H1%Hsub H2%Hsub E. cbn [snd] in E. subst f'.
        by rewrite (user_pages_inj cr3 p va va' f).
      * intros f ([va f'] & -> & Hx%Hsub)%list_elem_of_fmap Hf%list_elem_of_singleton. cbn [snd] in Hf. subst f'.
        destruct (pw_entry _ _ Hw i ltac:(lia)) as (g & gl & Hg). pose proof Hg as (E & Hgf & Hgl). rewrite E, entry_frame in Hx by done.
        apply (table_pages_differ cr3 p va g Hs Hx). apply (Htab i g gl); try done. by rewrite <- (pde_tst _ _ _ _ _ Hg).
  - intros f (i & Hx & Hi%Hin)%list_elem_of_bind ->%list_elem_of_singleton. apply elem_of_slot_frames in Hx as [(va & V & _)|(fl & P & T)]; [| |done|done].
    + apply (table_pages_differ cr3 p va cr3 Hs V). destruct (pw_self _ _ Hw) as (fl & P & T). by exists 1023, fl.
    + by apply (pt_not_pd cr3 m i cr3 fl Hw ltac:(lia) P T).
Qed.

(** C10: an address space is given back completely and once.  When every frame of it (the
    pages, the page tables below the kernel, the directory) is allocatable memory with at most
    one reference, [teardown_current_pd] comes to an end without a fault; afterwards the free
    queue holds exactly what it held and those frames, each of them once, and no user
    address is mapped any more. *)
Theorem teardown_returns_frames cr3 p :
  space_ok cr3 p -> (forall f, owned cr3 (pmem p) f -> last_ref p f) ->
  exists p', teardown_current_pd cr3 cr3 p = Some p' /\ NoDup (freeq p') /\
    (forall k, k ∈ freeq p' <-> k ∈ freeq p \/ owned cr3 (pmem p) (k * 4096) /\ 0 <= k) /\
    (forall v, user v -> translate cr3 (pmem p') v = None).
Proof.
  intros Hs Hlr. pose proof (so_mm _ _ Hs) as [Hw Hf]. pose proof (space_frames_nodup cr3 p Hs) as Hnd.
  assert (Hmem : forall f, f ∈ space_frames cr3 (pmem p) <-> owned cr3 (pmem p) f) by (intros f; by apply elem_of_space_frames).
  destruct (teardown_slots 767 cr3 1 p Hw) as (m' & E & Hw' & Hz); [lia|lia|].
  set (l := seqZ 1 (Z.of_nat 767) ≫= slot_frames cr3 (pmem p)) in *. set (p' := free_page_frame cr3 ((free_list l p) <| pmem := m' |>)).
  assert (Et : teardown_current_pd cr3 cr3 p = Some p') by (unfold teardown_current_pd; fold (teardown_step cr3); rewrite E; done).
  assert (Ep' : p' = (free_list (space_frames cr3 (pmem p)) p) <| pmem := m' |>).
  { unfold p'. rewrite free_frame_set. unfold space_frames. by rewrite free_list_app. }
  assert (Hall : Forall (last_ref p) (space_frames cr3 (pmem p))) by (rewrite Forall_forall; intros f Hin%Hmem; by apply Hlr).
  assert (Eq : freeq p' = reverse ((fun f => f / 4096) <$> space_frames cr3 (pmem p)) ++ freeq p).
  { rewrite Ep'. by rewrite <- free_list_spec. }
  assert (Hdiv : forall f, f ∈ space_frames cr3 (pmem p) -> f = f / 4096 * 4096) by (intros f Hin%Hmem%Hlr; apply frame_div, Hin).
  exists p'. split; [done|]. rewrite Eq. split; [|split].
  - apply NoDup_app. split; [|split; [|apply Hf]].
    + rewrite reverse_Permutation. apply NoDup_fmap_2_strong; [|done]. intros f g H1%Hdiv H2%Hdiv E12. congruence.
    + intros k (f & -> & Hin)%elem_of_reverse%list_elem_of_fmap. apply Hmem in Hin. by apply (owned_not_free cr3).
  - intros k. rewrite elem_of_app, elem_of_reverse, list_elem_of_fmap. split.
    + intros [(f & -> & Hin)|Hk]; [right|by left]. pose proof (Hdiv f Hin) as Ef. apply Hmem in Hin. rewrite <- Ef. split; [done|].
      destruct (Hlr f Hin) as (_ & [? _] & _). unfold PAGE_START_INDEX in *. lia.
    + intros [Hk|[Ho Hk]]; [by right|left]. exists (k * 4096). split; [by rewrite Z.div_mul|by apply Hmem].
  - intros v Hv. rewrite Ep'. change (pmem (_ <| pmem := m' |>)) with m'. unfold translate.
    assert (Hi : 1 <= pd_index v < 768) by (destruct Hv as [? H2]; unfold KERNEL_BASE in H2; rewrite pd_index_div; zmod).
    by rewrite Hz by lia.
Qed.

(** ** Witness: a directory with one page *)

Definition empty_dir (g : Z) (q : list Z) : paging := mk_paging {[ g + 4 * 1023 := entry g 3 ]} q ∅ ∅ 0.

Lemma empty_dir_pde g q i f fl : 0 <= i < 1024 -> frame_addr g ->
  pde_is g (pmem (empty_dir g q)) i f fl <-> if decide (i = 1023) then f = g /\ fl = 3 else f = 0 /\ fl = 0.
Proof.
  intros Hi Hg. unfold pde_is, empty_dir, rd, entry, frame_addr in *. cbn [pmem]. destruct (decide (i = 1023)) as [->|Hne].
  - rewrite lookup_singleton_eq. cbn [default from_option id]. split; [intros (E & ? & ?); zmod|]. intros [-> ->]. splits; (done || lia || zmod).
  - rewrite lookup_singleton_ne by lia. cbn [default from_option id]. split; [intros (E & ? & ?); zmod|]. intros [-> ->]. splits; (done || lia).
Qed.

Lemma empty_dir_ok g q : frame_addr g -> NoDup q -> (forall k, k ∈ q -> 0 < k < 2 ^ 20) -> g / 4096 ∉ q ->
  space_ok g (empty_dir g q) /\ forall v, user v -> translate g (pmem (empty_dir g q)) v = None.
Proof.
  intros Hg Hnd Hr Hgq. assert (Hpr : forall i f fl, 0 <= i < 1024 -> pde_is g (pmem (empty_dir g q)) i f fl -> tst fl PTE_PRESENT = true -> i = 1023 /\ f = g).
  { intros i f fl Hi Hp Ht. apply empty_dir_pde in Hp; [|done|done]. case_decide as Hd; [by destruct Hp|]. destruct Hp as [_ ->]. by vm_compute in Ht. }
  assert (Hn : forall v, user v -> translate g (pmem (empty_dir g q)) v = None).
  { intros v Hv. destruct (user_addr v Hv) as [Hv1 Hv2]. rewrite (translate_unfold g _ v 0 0); [done|done|].
    apply empty_dir_pde; [by apply pd_index_range|done|]. by rewrite decide_False. }
  split; [|done]. split; [|intros v a Hv; by rewrite (Hn v Hv)..|intros v v' a a' Hv _; by rewrite (Hn v Hv)].
  split; [split|split]; [| | |done|done|].
  - exists 3. split; [|done]. apply empty_dir_pde; [lia|done|by rewrite decide_True].
  - intros i Hi. destruct (decide (i = 1023)) as [->|Hne]; [exists g, 3|exists 0, 0]; apply empty_dir_pde; try done; by case_decide.
  - intros i j f fl f' fl' Hi Hj Hne Hp Ht Hp' Ht'. destruct (Hpr i f fl Hi Hp Ht), (Hpr j f' fl' Hj Hp' Ht'). congruence.
  - intros k i f fl Hk Hi Hp Ht ->. destruct (Hpr i _ fl Hi Hp Ht) as [_ <-]. apply Hgq. by rewrite Z.div_mul.
Qed.

Definition small_space : paging := first_page 0x7D0000 0x400000 (empty_dir 0x7D0000 [2001; 2002; 2003]).

Lemma small_space_ok : space_ok 0x7D0000 small_space.
Proof.
  destruct (empty_dir_ok 0x7D0000 [2001; 2002; 2003]) as [Hs Hn].
  - split; [reflexivity|lia].
  - apply (bool_decide_unpack _). vm_compute. exact I.
  - intros k. rewrite !elem_of_cons, elem_of_nil. lia.
  - apply (bool_decide_unpack _). vm_compute. exact I.
  - apply first_page_ok; [exact Hs|cbn; lia|unfold user, KERNEL_BASE; lia|exact Hn].
Qed.

Lemma small_space_frames : space_frames 0x7D0000 (pmem small_space) = [2001 * 4096; 2002 * 4096; 2000 * 4096].
Proof. vm_compute. reflexivity. Qed.

Lemma teardown_returns_frames_witness :
  exists p', teardown_current_pd 0x7D0000 0x7D0000 small_space = Some p' /\ NoDup (freeq p') /\
    (forall k, k ∈ freeq p' <-> k ∈ freeq small_space \/ owned 0x7D0000 (pmem small_space) (k * 4096) /\ 0 <= k).
Proof.
  destruct (teardown_returns_frames 0x7D0000 small_space small_space_ok) as (p' & E & Hnd & Hk & _).
  - intros f Ho. apply elem_of_space_frames in Ho; [|apply (so_mm _ _ small_space_ok)]. rewrite small_space_frames in Ho.
    rewrite !elem_of_cons, elem_of_nil in Ho. unfold last_ref, frame_addr, PAGE_START_INDEX.
    destruct Ho as [->|[->|[->|[]]]]; (split; [split; [reflexivity|lia]|split; [vm_compute; split; [discriminate|reflexivity]|vm_compute; discriminate]]).
  - exists p'. split; [exact E|]. split; [exact Hnd|exact Hk].
Defined.
