(* ===== verification/Syscall.v ===== *)
(** * System calls (src/kernel/syscall.c, include/kernel/syscall.h, include/kernel/caps.h)

    One definition per system call, the table and the dispatcher with its capability check.
    A system call that does not return to its caller ends in an [outcome] of its own.  User
    memory is reached through the page tables in CR3; an access that would fault in the
    kernel is [None].  [serial] is what the system calls of this file and the trap handlers
    write to the serial line: console output and the report of [sys_kill_fn].  The diagnostics
    of the layers below (fork, exec, the ELF loader, the VFS) are left out. *)

From S2P Require Import Prelude LList Cstr Heap HeapInv HeapSpec HeapTheorems Alloc Task Sched Paging UserMem Vm Keyboard Vga Vfs Memfs Elf Process Ports.

Definition SYS_WRITE : Z := 0.
Definition SYS_OPEN : Z := 1.
Definition SYS_EXIT : Z := 2.
Definition SYS_GETCHAR : Z := 3.
Definition SYS_PUTCHAR : Z := 4.
Definition SYS_CLEAR : Z := 5.
Definition SYS_REBOOT : Z := 6.
Definition SYS_POWEROFF : Z := 7.
Definition SYS_TIER_QUERY : Z := 8.
Definition SYS_TIER_REQUEST : Z := 9.
Definition SYS_FORK : Z := 10.
Definition SYS_EXEC : Z := 11.
Definition SYS_WAIT : Z := 12.
Definition SYS_FORK_WITH_SANDBOX : Z := 13.
Definition SYS_MLFQ_QUERY : Z := 14.
Definition SYS_YIELD : Z := 15.
Definition SYS_READ : Z := 16.
Definition SYS_CLOSE : Z := 17.
Definition SYS_KILL : Z := 18.
Definition SYS_SET_TIER : Z := 19.
Definition SYS_UNAME : Z := 20.
Definition SYS_LS : Z := 21.
Definition SYS_SANDBOX_QUERY : Z := 22.

(** [syscall_caps]: the capability of every system call, by number. *)
Definition syscall_caps : list Z :=
  [CAP_WRITE; CAP_READ; CAP_EXIT; CAP_GETCHAR; CAP_PUTCHAR; CAP_CLEAR; CAP_REBOOT; CAP_POWEROFF;
   CAP_TIER_QUERY; CAP_TIER_REQUEST; CAP_FORK; CAP_EXEC; CAP_WAIT; CAP_FORK; CAP_MLFQ_QUERY; CAP_YIELD;
   CAP_READ; CAP_READ; CAP_KILL; CAP_SET_TIER; 0; CAP_READ; CAP_SANDBOX_QUERY].

Record machine (A : Type) := mk_machine {
  kern : kernel A;
  keyb : kbd;
  scr : vga;
  serial : list Z;
  ports : list (Z * Z);
  kernel_sb : fork_sandbox_config;
}.
Arguments mk_machine {A} _ _ _ _ _ _. Arguments kern {A} _. Arguments keyb {A} _. Arguments scr {A} _.
Arguments serial {A} _. Arguments ports {A} _. Arguments kernel_sb {A} _.
#[export] Instance eta_machine A : Eta (machine A) := fun m =>
  mk_machine (kern m) (keyb m) (scr m) (serial m) (ports m) (kernel_sb m).

(** How a system call ends: it returns a value, execs (with the new words on the syscall
    stack), sleeps in [sys_wait], or does not come back. *)
Inductive outcome := Return (r : Z) | Execed (stack : list Z) | Sleeping | Exited.

(** A register as a signed int, and a byte as a signed char. *)
Definition int32 (x : Z) : Z := if x <? 2 ^ 31 then x else x - 2 ^ 32.
Definition schar (b : Z) : Z := if b <? 128 then b else b - 256.

(** [exec_argv]: the words at [user_argv] up to NULL, and the strings they point to.  The
    check of a word looks at the page of its first byte. *)
Fixpoint argv_loop (n : nat) (cr3 : Z) (p : paging) (word : Z) : option (option (list (list Z))) :=
  match n with
  | O => Some (Some [])
  | S n' =>
      ok ← user_page cr3 p word;
      if negb ok then Some None
      else
        ptr ← load32 cr3 p word;
        if ptr =? 0 then Some (Some [])
        else if KERNEL_BASE <=? ptr then Some None
        else
          r ← copy_loop (Z.to_nat (EXEC_ARG_MAXLEN - 1)) cr3 p ptr;
          match r with
          | None => Some None
          | Some a => r ← argv_loop n' cr3 p (word +w 4); Some (option_map (cons a) r)
          end
  end.

Definition copy_exec_argv (cr3 : Z) (p : paging) (user_argv : Z) : option (option (list (list Z))) :=
  if user_argv =? 0 then Some (Some []) else argv_loop MAX_EXEC_ARGS cr3 p user_argv.

(** The path of [sys_exec_from_user]: unlike [copy_user_path] a path without a NUL in the
    first [n] bytes is an error. *)
Fixpoint exec_path_loop (n : nat) (cr3 : Z) (p : paging) (src : Z) : option (option (list Z)) :=
  match n with
  | O => Some None
  | S n' =>
      ok ← user_page cr3 p src;
      if negb ok then Some None
      else
        b ← load8 cr3 p src;
        if b =? 0 then Some (Some [])
        else r ← exec_path_loop n' cr3 p (src +w 1); Some (option_map (cons b) r)
  end.

(** [memcpy] of a [struct fork_sandbox_config]. *)
Definition read_config (cr3 : Z) (p : paging) (a : Z) : option fork_sandbox_config :=
  c ← load32 cr3 p a; lo ← load32 cr3 p (a +w 4); hi ← load32 cr3 p (a +w 8); q ← load32 cr3 p (a +w 12);
  r ← load32 cr3 p (a +w 16); t ← load32 cr3 p (a +w 20);
  Some (mk_sb c (lo + 2 ^ 32 * hi) q r (int32 t)).

Definition SIZEOF_SANDBOX_CONFIG : Z := 24.
Definition SIZEOF_SANDBOX_STATUS : Z := 96.

(** The bytes of [struct sandbox_status]. *)
Definition status_bytes (t : task) : list Z :=
  word_bytes (pid t) ++ word_bytes (caps t) ++ word_bytes (tier t) ++ word_bytes (mem_limit t mod 2 ^ 32) ++
  word_bytes (mem_limit t / 2 ^ 32) ++ word_bytes (cpu_quota t) ++ word_bytes (pages_charged t) ++
  word_bytes (quota_used_ticks t) ++ root_path t ++ replicate (64 - length (root_path t)) 0.

Section Syscall.
Context {A : Type} `{Allocator A}.
Implicit Types m : machine A.

Variables (fork_return kernel_pd : Z).
Variable stack_end : Z -> Z.
Variable iops : Z -> option (inode_operations (vfs A)).
Variable fops : Z -> option (file_operations (vfs A)).
Variable junk : Z -> Z.

(** Shorthands: the running task, CR3, and changes of parts of the state. *)
Definition cur m : Z := current_task (ks (kern m)).
Definition ctask m : task := tk (ks (kern m)) (cur m).
Definition mcr3 m : Z := cpu_cr3 (ks (kern m)).
Definition set_kp (p : paging) m : machine A := m <| kern := (kern m) <| kp := p |> |>.
Definition set_ks (s : sched) m : machine A := m <| kern := (kern m) <| ks := s |> |>.
Definition set_kv (v : vfs A) m : machine A := m <| kern := (kern m) <| kv := v |> |>.
Definition ret (r : Z) m : option (outcome * machine A) := Some (Return r, m).

Definition put_char (b : Z) m : machine A :=
  let m := m <| scr := vga_putchar (schar b) (scr m) |> in
  let m := if b =? 10 then m <| serial := serial m ++ [13] |> else m in
  m <| serial := serial m ++ [b] |>.

Definition write_buf (bs : list Z) m : machine A := foldl (fun m b => put_char b m) m bs.

Definition range_valid (addr len : Z) m : option bool := user_range_valid (mcr3 m) (kp (kern m)) addr len.

(** [!cur || fd < 3 || fd >= FD_MAX || !cur->fd_table[fd]]; otherwise the file. *)
Definition fd_file (fd : Z) m : Z :=
  if (cur m =? 0) || (fd <? 3) || (FD_MAX <=? fd) then 0 else default 0 (fd_table (ctask m) !! Z.to_nat fd).

Definition sys_write_fn (r : pt_regs) m : option (outcome * machine A) :=
  let fd := int32 (r_ebx r) in
  let buf := r_ecx r in
  let len := r_edx r in
  if (fd =? 1) || (fd =? 2) then
    ok ← range_valid buf len m;
    if negb ok then ret (- EINVAL) m
    else bs ← load_bytes (mcr3 m) (kp (kern m)) buf (Z.to_nat len); ret 0 (write_buf bs m)
  else
    let f := fd_file fd m in
    if f =? 0 then ret (- EINVAL) m
    else
      ok ← range_valid buf len m;
      if negb ok then ret (- EINVAL) m
      else
        bs ← load_bytes (mcr3 m) (kp (kern m)) buf (Z.to_nat len);
        '(n, v) ← vfs_write fops f bs (kv (kern m));
        ret n (set_kv v m).

(** [for (fd = 3; fd < FD_MAX; fd++) if (!cur->fd_table[fd]) break;] *)
Fixpoint free_fd (fds : list Z) (fd : Z) : Z :=
  match fds with
  | [] => fd
  | f :: fds => if f =? 0 then fd else free_fd fds (fd + 1)
  end.

Definition set_fd (fd f : Z) m : machine A :=
  set_ks ((ks (kern m)) <| (cur m) # fd_table := <[Z.to_nat fd := f]> (fd_table (ctask m)) |>) m.

Definition sys_open_fn (r : pt_regs) m : option (outcome * machine A) :=
  if cur m =? 0 then ret (- EINVAL) m
  else
    path ← copy_user_path (mcr3 m) (kp (kern m)) (r_ebx r) 128;
    match path with
    | None => ret (- EINVAL) m
    | Some path =>
        let root := root_path (ctask m) in
        let resolved := resolve_path root path 128 in
        '(f, v) ← vfs_open iops fops root resolved (r_ecx r) (kv (kern m));
        '(f, v) ← (if (f =? 0) && tst (r_ecx r) O_CREAT
                   then vfs_create iops fops resolved (Z.lor (Z.land (r_edx r) 0xFFFF) S_IFREG) v
                   else Some (f, v));
        let m := set_kv v m in
        if f =? 0 then ret (- ENOENT) m
        else
          let fd := free_fd (drop 3 (fd_table (ctask m))) 3 in
          if FD_MAX <=? fd then
            '(_, v) ← Vfs.vfs_close fops f (kv (kern m));
            ret (- ENOMEM) (set_kv v m)
          else ret fd (set_fd fd f m)
    end.

Definition sys_read_fn (r : pt_regs) m : option (outcome * machine A) :=
  let fd := int32 (r_ebx r) in
  let buf := r_ecx r in
  let len := r_edx r in
  if cur m =? 0 then ret (- EINVAL) m
  else if fd =? 0 then
    ok ← range_valid buf 1 m;
    if negb ok then ret (- EINVAL) m
    else
      let '(c, kb) := getchar (keyb m) in
      let m := m <| keyb := kb |> in
      if c =? 0 then ret 0 m
      else p ← store8 (mcr3 m) buf c (kp (kern m)); ret 1 (set_kp p m)
  else
    let f := fd_file fd m in
    if f =? 0 then ret (- EINVAL) m
    else
      ok ← range_valid buf len m;
      if negb ok then ret (- EINVAL) m
      else
        '(n, bs, v) ← vfs_read fops f len (kv (kern m));
        p ← store_bytes (mcr3 m) buf bs (kp (kern m));
        ret n (set_kp p (set_kv v m)).

Definition sys_close_fn (r : pt_regs) m : option (outcome * machine A) :=
  let fd := int32 (r_ebx r) in
  let f := fd_file fd m in
  if f =? 0 then ret (- EINVAL) m
  else
    '(n, v) ← Vfs.vfs_close fops f (kv (kern m));
    ret n (set_fd fd 0 (set_kv v m)).

(** [for (child = inode->i_children; child; child = child->d_next)]: [inl] is an error, [inr]
    the number of bytes written. *)
Fixpoint ls_loop (fuel : nat) (child ubuf buflen off : Z) m : option ((Z + Z) * machine A) :=
  match fuel with
  | O => None
  | S fuel' =>
      if child =? 0 then Some (inr off, m)
      else
        de ← dentries (kv (kern m)) !! child;
        name ← names (kv (kern m)) !! d_name de;
        let n := strlen name in
        if buflen <? (off +w n) +w 1 then Some (inr off, m)
        else
          ok ← range_valid (ubuf +w off) (n +w 1) m;
          if negb ok then Some (inl (- EINVAL), m)
          else
            p ← store_bytes (mcr3 m) (ubuf +w off) (name ++ [10]) (kp (kern m));
            ls_loop fuel' (d_next de) ubuf buflen (off +w (n +w 1)) (set_kp p m)
  end.

Definition sys_ls_fn (r : pt_regs) m : option (outcome * machine A) :=
  if cur m =? 0 then ret (- EINVAL) m
  else
    path ← copy_user_path (mcr3 m) (kp (kern m)) (r_ebx r) 128;
    match path with
    | None => ret (- EINVAL) m
    | Some path =>
        let root := root_path (ctask m) in
        '(d, v) ← vfs_lookup iops root (resolve_path root path 128) (kv (kern m));
        let m := set_kv v m in
        if d =? 0 then ret (- ENOENT) m
        else
          de ← dentries v !! d;
          if d_inode de =? 0 then ret (- ENOENT) m
          else
            i ← inodes v !! d_inode de;
            if negb (tst (i_mode i) S_IFDIR) then ret (- ENOTDIR) m
            else
              '(res, m) ← ls_loop (S (size (dentries v))) (i_children i) (r_ecx r) (r_edx r) 0 m;
              ret (match res with inl e => e | inr off => off end) m
    end.

(** What [task_exit] uses of this state: frames and files; [None] after a fault. *)
#[local] Instance exit_services : ExitServices (option (paging * vfs A)) := {
  Sched.vfs_close f w := '(p, v) ← w; '(_, v) ← Vfs.vfs_close fops f v; Some (p, v);
  teardown_frames cr3 pd w := '(p, v) ← w; p ← teardown_current_pd cr3 pd p; Some (p, v);
}.

Definition sys_exit_fn (r : pt_regs) m : option (outcome * machine A) :=
  '(s, w) ← task_exit kernel_pd (int32 (r_ebx r)) (ks (kern m), Some (kp (kern m), kv (kern m)));
  '(p, v) ← w;
  Some (Exited, set_ks s (set_kp p (set_kv v m))).

Definition sys_getchar_fn (r : pt_regs) m : option (outcome * machine A) :=
  let '(c, kb) := getchar (keyb m) in ret c (m <| keyb := kb |>).

Definition sys_putchar_fn (r : pt_regs) m : option (outcome * machine A) :=
  ret 0 (put_char (Z.land (r_ebx r) 0xFF) m).

Definition sys_clear_fn (r : pt_regs) m : option (outcome * machine A) := ret 0 (m <| scr := vga_clear (scr m) |>).

(** [outb] and [outw] to the keyboard controller and to the power port. *)
Definition sys_reboot_fn (r : pt_regs) m : option (outcome * machine A) := ret 0 (m <| ports := (0x64, 0xFE) :: ports m |>).
Definition sys_poweroff_fn (r : pt_regs) m : option (outcome * machine A) := ret 0 (m <| ports := (0x604, 0x2000) :: ports m |>).

Definition sys_tier_query_fn (r : pt_regs) m : option (outcome * machine A) :=
  ret (if cur m =? 0 then -1 else tier (ctask m)) m.

Definition sys_tier_request_fn (r : pt_regs) m : option (outcome * machine A) :=
  if TIER_CRITICAL <? r_ebx r then ret (-1) m
  else if cur m =? 0 then ret (-1) m
  else
    s ← task_set_tier (cur m) (r_ebx r) (ks (kern m));
    let m := set_ks s m in ret (tier (ctask m)) m.

Definition fork_with (r : pt_regs) (sb : option fork_sandbox_config) m : option (outcome * machine A) :=
  '(n, (p, s)) ← sys_fork fork_return stack_end r sb (kp (kern m), ks (kern m));
  ret n (set_ks s (set_kp p m)).

Definition sys_fork_fn (r : pt_regs) m : option (outcome * machine A) := fork_with r None m.

(** [copy_sandbox_config] into the static [kernel_sb]: [None] is -1. *)
Definition copy_sandbox_config (user_ptr : Z) m : option (option (machine A)) :=
  if KERNEL_BASE <=? user_ptr then Some None
  else
    ok ← range_valid user_ptr SIZEOF_SANDBOX_CONFIG m;
    if negb ok then Some None
    else c ← read_config (mcr3 m) (kp (kern m)) user_ptr; Some (Some (m <| kernel_sb := c |>)).

Definition sys_fork_with_sandbox_fn (r : pt_regs) m : option (outcome * machine A) :=
  o ← copy_sandbox_config (r_ebx r) m;
  match o with
  | None => ret (-1) m
  | Some m => fork_with r (Some (kernel_sb m)) m
  end.

(** [sys_exec_from_user]: the address of the registers is [r_esp - 32], where pusha put
    them. *)
Definition sys_exec_from_user (r : pt_regs) (path_ptr : Z) m : option (outcome * machine A) :=
  if KERNEL_BASE <=? path_ptr then ret (- EINVAL) m
  else
    path ← exec_path_loop 127 (mcr3 m) (kp (kern m)) path_ptr;
    match path with
    | None => ret (- EINVAL) m
    | Some path =>
        argv ← copy_exec_argv (mcr3 m) (kp (kern m)) (r_ecx r);
        match argv with
        | None => ret (- EINVAL) m
        | Some argv =>
            '(n, stack, k) ← sys_exec fork_return kernel_pd iops fops junk (r_esp r - 32) path argv (kern m);
            let m := m <| kern := k |> in
            if n =? 0 then Some (Execed stack, m) else ret n m
        end
    end.

Definition sys_exec_fn (r : pt_regs) m : option (outcome * machine A) := sys_exec_from_user r (r_ebx r) m.

Definition sys_wait_fn (r : pt_regs) m : option (outcome * machine A) :=
  '(o, s) ← sys_wait_round (int32 (r_ebx r)) (ks (kern m));
  Some (match o with Some n => Return n | None => Sleeping end, set_ks s m).

Definition sys_mlfq_query_fn (r : pt_regs) m : option (outcome * machine A) :=
  ret (if cur m =? 0 then -1 else mlfq_level (ctask m)) m.

Definition sys_yield_fn (r : pt_regs) m : option (outcome * machine A) :=
  s ← yield (ks (kern m)); ret 0 (set_ks s m).

Definition sys_kill_fn (r : pt_regs) m : option (outcome * machine A) :=
  if cur m =? 0 then ret (-1) m
  else
    let t := task_find_child (cur m) (int32 (r_ebx r)) (ks (kern m)) in
    if (t =? 0) || (state (tk (ks (kern m)) t) =? TASK_EXITED) then ret (-1) m
    else
      let m := set_ks ((ks (kern m)) <| t # kill_pending := 1 |>) m in
      let text := lit "[kill] pid " ++ hex_text (pid (tk (ks (kern m)) t)) ++ lit " (self " ++
                  hex_text (pid (ctask m)) ++ lit ") marked" ++ [NL] in
      ret 0 (m <| serial := serial m ++ crlf text |>).

Definition sys_set_tier_fn (r : pt_regs) m : option (outcome * machine A) :=
  if TIER_CRITICAL <? r_ebx r then ret (-1) m
  else if cur m =? 0 then ret (-1) m
  else
    s ← task_set_tier (cur m) (r_ebx r) (ks (kern m));
    let m := set_ks (s <| (cur m) # tier_override := r_ebx r |>) m in ret (tier (ctask m)) m.

Definition uname_string : list Z := lit "PokuOS 0.1".

Definition sys_uname_fn (r : pt_regs) m : option (outcome * machine A) :=
  let len := strlen uname_string + 1 in
  if KERNEL_BASE <=? r_ebx r then ret (-1) m
  else
    ok ← range_valid (r_ebx r) len m;
    if negb ok then ret (-1) m
    else p ← store_bytes (mcr3 m) (r_ebx r) (uname_string ++ [0]) (kp (kern m)); ret len (set_kp p m).

Definition sys_sandbox_query_fn (r : pt_regs) m : option (outcome * machine A) :=
  if (cur m =? 0) || (KERNEL_BASE <=? r_ebx r) then ret (-1) m
  else
    ok ← range_valid (r_ebx r) SIZEOF_SANDBOX_STATUS m;
    if negb ok then ret (-1) m
    else p ← store_bytes (mcr3 m) (r_ebx r) (status_bytes (ctask m)) (kp (kern m)); ret 0 (set_kp p m).

(** ** The table and the dispatcher *)

Definition syscall_table : list (pt_regs -> machine A -> option (outcome * machine A)) :=
  [sys_write_fn; sys_open_fn; sys_exit_fn; sys_getchar_fn; sys_putchar_fn; sys_clear_fn; sys_reboot_fn;
   sys_poweroff_fn; sys_tier_query_fn; sys_tier_request_fn; sys_fork_fn; sys_exec_fn; sys_wait_fn;
   sys_fork_with_sandbox_fn; sys_mlfq_query_fn; sys_yield_fn; sys_read_fn; sys_close_fn; sys_kill_fn;
   sys_set_tier_fn; sys_uname_fn; sys_ls_fn; sys_sandbox_query_fn].

Definition syscall_handler (r : pt_regs) m : option (outcome * machine A) :=
  match syscall_table !! Z.to_nat (r_eax r) with
  | None => ret (-1) m
  | Some fn =>
      if cur m =? 0 then ret (-1) m
      else
        let need := default 0 (syscall_caps !! Z.to_nat (r_eax r)) in
        if negb (need =? 0) && negb (Z.land (caps (ctask m)) need =? need) then ret (- EPERM) m
        else fn r m
  end.
End Syscall.
