(* ===== verification/SyscallTheorems.v ===== *)
(** * System calls: the capability check confines every call *)

From S2P Require Import Prelude LList Cstr Heap HeapInv HeapSpec HeapTheorems Alloc Task Sched Paging PagingInv UserMem UserMemTheorems Vm Keyboard Vga Vfs Memfs Elf Process Syscall.

(** ** What a computation leaves alone *)

Section frames.
Context {A : Type} `{Allocator A}.
Implicit Types m : machine A.

(** Every result of [c] agrees with [m] on [f]. *)
Definition leaves {B C} (f : machine A -> B) (c : option (C * machine A)) m : Prop :=
  forall o m', c = Some (o, m') -> f m' = f m.

Lemma leaves_some {B C} (f : machine A -> B) (o : C) m1 m : f m1 = f m -> leaves f (Some (o, m1)) m.
Proof. by intros Hf ? ? [= <- <-]. Qed.

Lemma leaves_none {B C} (f : machine A -> B) m : leaves f (None : option (C * machine A)) m.
Proof. done. Qed.

Lemma leaves_bind {B C D} (f : machine A -> B) (c : option D) (k : D -> option (C * machine A)) m :
  (forall x, leaves f (k x) m) -> leaves f (x ← c; k x) m.
Proof. intros Hk. destruct c as [x|]; [apply Hk|apply leaves_none]. Qed.

Lemma leaves_trans {B C D} (f : machine A -> B) (c : option (D * machine A)) (k : D * machine A -> option (C * machine A)) m :
  leaves f c m -> (forall x m1, f m1 = f m -> leaves f (k (x, m1)) m) -> leaves f (x ← c; k x) m.
Proof.
  intros Hc Hk. destruct c as [[x m1]|] eqn:E; [|apply leaves_none]. apply Hk. by apply (Hc x m1).
Qed.
End frames.

(** Walk through the body of a system call. *)
Ltac frame :=
  repeat first
    [ apply leaves_none
    | apply leaves_some; reflexivity
    | apply leaves_some; unfold put_char; destruct (_ =? 10); reflexivity
    | apply leaves_bind; intros
    | match goal with |- leaves _ (let '(_, _) := ?x in _) _ => destruct x end
    | match goal with |- leaves _ (match ?x with _ => _ end) _ => destruct x end
    | progress cbv zeta ].

Section gate.
Context {A : Type} `{Allocator A}.
Implicit Types m : machine A.
Variables (fork_return kernel_pd : Z) (stack_end : Z -> Z).
Variable iops : Z -> option (inode_operations (vfs A)).
Variable fops : Z -> option (file_operations (vfs A)).
Variable junk : Z -> Z.

(** The file systems. *)
Definition fs m := kv (kern m).

Lemma write_buf_leaves bs m :
  keyb (write_buf bs m) = keyb m /\ ports (write_buf bs m) = ports m /\ kern (write_buf bs m) = kern m /\ kernel_sb (write_buf bs m) = kernel_sb m.
Proof.
  revert m. induction bs as [|b bs IH]; intros m; [done|]. unfold write_buf in *. cbn [foldl].
  destruct (IH (put_char b m)) as (-> & -> & -> & ->). unfold put_char. by destruct (b =? 10).
Qed.

Lemma ls_loop_leaves {B} (f : machine A -> B) fuel child ubuf buflen off m :
  (forall p m, f (set_kp p m) = f m) -> leaves f (ls_loop fuel child ubuf buflen off m) m.
Proof.
  intros Hf. revert child off m. induction fuel as [|fuel IH]; intros child off m; cbn [ls_loop]; frame.
  intros o m' E. apply IH in E. by rewrite E, Hf.
Qed.

Lemma write_leaves r m :
  leaves keyb (sys_write_fn fops r m) m /\ leaves ports (sys_write_fn fops r m) m /\ leaves kernel_sb (sys_write_fn fops r m) m.
Proof.
  unfold sys_write_fn, ret. splits; frame; apply leaves_some;
    match goal with |- context [write_buf ?bs ?m] => destruct (write_buf_leaves bs m) as (? & ? & ? & ?) end; done.
Qed.

Definition table := syscall_table fork_return kernel_pd stack_end iops fops junk.

(** The system calls that change an observable: those in [ns]. *)
Definition only_calls {B} (f : machine A -> B) (ns : list nat) : Prop :=
  forall n fn, table !! n = Some fn -> (n ∉ ns) -> forall r m, leaves f (fn r m) m.

Ltac enum n Hfn Hns k :=
  lazymatch k with
  | O => cbn in Hfn; done
  | S ?k' => destruct n as [|n];
      [cbn in Hfn; injection Hfn as <-; try (exfalso; apply Hns; apply (bool_decide_unpack _); exact I); clear Hns|enum n Hfn Hns k']
  end.

Ltac each_call :=
  let n := fresh "n" in
  let fn := fresh "fn" in
  let Hfn := fresh "Hfn" in
  let Hns := fresh "Hns" in
  intros n fn Hfn Hns r m; unfold table, syscall_table in Hfn; enum n Hfn Hns 23%nat.

Ltac call :=
  unfold sys_open_fn, sys_exit_fn, sys_getchar_fn, sys_putchar_fn, sys_clear_fn, sys_reboot_fn, sys_poweroff_fn,
    sys_tier_query_fn, sys_tier_request_fn, sys_fork_fn, fork_with, sys_exec_fn, sys_exec_from_user, sys_wait_fn, sys_mlfq_query_fn,
    sys_yield_fn, sys_read_fn, sys_close_fn, sys_kill_fn, sys_set_tier_fn, sys_uname_fn, sys_sandbox_query_fn, ret;
  frame.

(** One goal for each number in the list. *)
Ltac pick_call Hn H2 := set_unfold in Hn; destruct_or? Hn; subst; injection H2 as <-.

Lemma fork_sandbox_leaves {B} (f : machine A -> B) r m :
  (forall s p m, f (set_ks s (set_kp p m)) = f m) -> (forall c m, f (m <| kernel_sb := c |>) = f m) ->
  leaves f (sys_fork_with_sandbox_fn fork_return stack_end r m) m.
Proof.
  intros H1 H2 o m' E. unfold sys_fork_with_sandbox_fn in E. apply bind_Some in E as (o1 & E1 & E).
  destruct o1 as [m1|]; [|by injection E as <- <-]. unfold fork_with in E. apply bind_Some in E as ([n [p s]] & _ & [= <- <-]).
  rewrite H1. unfold copy_sandbox_config in E1. destruct (KERNEL_BASE <=? _); [done|].
  apply bind_Some in E1 as (ok & _ & E1). destruct ok; cbn [negb] in E1; [|done].
  apply bind_Some in E1 as (c & _ & [= <-]). apply H2.
Qed.

Lemma ls_leaves {B} (f : machine A -> B) r m :
  (forall p m, f (set_kp p m) = f m) -> (forall v, f (set_kv v m) = f m) -> leaves f (sys_ls_fn iops r m) m.
Proof.
  intros H1 H2. unfold sys_ls_fn, ret. destruct (cur m =? 0); [by apply leaves_some|]. apply leaves_bind. intros [path|]; [|by apply leaves_some].
  apply leaves_bind. intros [d v]. cbv zeta. destruct (d =? 0); [by apply leaves_some|]. apply leaves_bind. intros de.
  destruct (d_inode de =? 0); [by apply leaves_some|]. apply leaves_bind. intros i. destruct (negb _); [by apply leaves_some|].
  intros o m' E. apply bind_Some in E as ([res m1] & E1 & [= <- <-]). apply (ls_loop_leaves f) in E1; [|done]. by rewrite E1.
Qed.

Lemma ports_calls : only_calls ports [6; 7]%nat.
Proof.
  each_call; try (call; done).
  - apply write_leaves.
  - by apply fork_sandbox_leaves.
  - by apply ls_leaves.
Qed.

Lemma screen_calls : only_calls scr [0; 4; 5]%nat.
Proof.
  each_call; try (call; done).
  - by apply fork_sandbox_leaves.
  - by apply ls_leaves.
Qed.

Lemma keyb_calls : only_calls keyb [3; 16]%nat.
Proof.
  each_call; try (call; done).
  - apply write_leaves.
  - by apply fork_sandbox_leaves.
  - by apply ls_leaves.
Qed.

Lemma sb_calls : only_calls kernel_sb [13]%nat.
Proof.
  each_call; try (call; done).
  - apply write_leaves.
  - by apply ls_leaves.
Qed.

Lemma fs_calls : only_calls fs [0; 1; 2; 11; 16; 17; 21]%nat.
Proof. each_call; try (call; done). by apply fork_sandbox_leaves. Qed.

(** ** The check *)

Lemma gate_cap c need : need <> 0 -> Z.land c need = need -> tst c need = true.
Proof. intros Hn E. unfold tst. rewrite E. by destruct (Z.eqb_spec need 0). Qed.

(** The capability of every call that needs one. *)
Definition call_caps : list (Z * Z) :=
  [(SYS_WRITE, CAP_WRITE); (SYS_OPEN, CAP_READ); (SYS_EXIT, CAP_EXIT); (SYS_GETCHAR, CAP_GETCHAR);
   (SYS_PUTCHAR, CAP_PUTCHAR); (SYS_CLEAR, CAP_CLEAR); (SYS_REBOOT, CAP_REBOOT); (SYS_POWEROFF, CAP_POWEROFF);
   (SYS_TIER_QUERY, CAP_TIER_QUERY); (SYS_TIER_REQUEST, CAP_TIER_REQUEST); (SYS_FORK, CAP_FORK);
   (SYS_EXEC, CAP_EXEC); (SYS_WAIT, CAP_WAIT); (SYS_FORK_WITH_SANDBOX, CAP_FORK); (SYS_MLFQ_QUERY, CAP_MLFQ_QUERY);
   (SYS_YIELD, CAP_YIELD); (SYS_READ, CAP_READ); (SYS_CLOSE, CAP_READ); (SYS_KILL, CAP_KILL);
   (SYS_SET_TIER, CAP_SET_TIER); (SYS_LS, CAP_READ); (SYS_SANDBOX_QUERY, CAP_SANDBOX_QUERY)].

Lemma call_caps_table n c : (n, c) ∈ call_caps -> syscall_caps !! Z.to_nat n = Some c /\ c <> 0 /\ is_Some (table !! Z.to_nat n).
Proof.
  intros Hin. assert (Hall : Forall (fun nc => syscall_caps !! Z.to_nat nc.1 = Some nc.2 /\ nc.2 <> 0 /\ is_Some (table !! Z.to_nat nc.1)) call_caps)
    by (repeat (apply Forall_cons_2; [split; [reflexivity|split; [discriminate|eexists; reflexivity]]|]); apply Forall_nil_2).
  rewrite Forall_forall in Hall. exact (Hall (n, c) Hin).
Qed.

Notation handler := (syscall_handler fork_return kernel_pd stack_end iops fops junk).

(** A call without its capability. *)
Lemma gate_denies n c r m o m' :
  (n, c) ∈ call_caps -> r_eax r = n -> cur m <> 0 -> tst (caps (ctask m)) c = false -> handler r m = Some (o, m') ->
  o = Return (- EPERM) /\ m' = m.
Proof.
  intros Hin Hn Hc Ht E. destruct (call_caps_table n c Hin) as (En & Hc0 & fn & Efn). unfold syscall_handler in E. fold table in E.
  rewrite Hn, Efn in E. destruct (Z.eqb_spec (cur m) 0); [done|]. rewrite En in E. change (default 0 (Some c)) with c in E.
  destruct (Z.eqb_spec c 0) as [?|_]; [done|]. cbn [negb andb] in E.
  destruct (Z.eqb_spec (Z.land (caps (ctask m)) c) c) as [Eg|_]; cbn [negb] in E; [by rewrite (gate_cap _ _ Hc0 Eg) in Ht|].
  by injection E as <- <-.
Qed.

(** An observable changes only in a call of [ncs] that is made with its capability. *)
Lemma gate_only {B} (f : machine A -> B) ns r m o m' :
  only_calls f ns -> 0 <= r_eax r -> handler r m = Some (o, m') ->
  f m' = f m \/ exists n c, n ∈ ns /\ r_eax r = Z.of_nat n /\ syscall_caps !! n = Some c /\ (c <> 0 -> tst (caps (ctask m)) c = true).
Proof.
  intros Hf Hr E. unfold syscall_handler in E. fold table in E. destruct (table !! _) as [fn|] eqn:Efn; [|left; by injection E as <- <-].
  destruct (cur m =? 0); [left; by injection E as <- <-|].
  destruct (decide (Z.to_nat (r_eax r) ∈ ns)) as [Hin|Hin].
  - assert (Hlt : (Z.to_nat (r_eax r) < 23)%nat) by (apply lookup_lt_Some in Efn; exact Efn).
    destruct (lookup_lt_is_Some_2 syscall_caps (Z.to_nat (r_eax r))) as [c Ec]; [exact Hlt|]. rewrite Ec in E. change (default 0 (Some c)) with c in E.
    destruct (negb (c =? 0) && negb (Z.land (caps (ctask m)) c =? c))%bool eqn:Eg; [left; by injection E as <- <-|right].
    exists (Z.to_nat (r_eax r)), c. splits; [done|lia|done|]. intros Hc0. apply gate_cap; [done|].
    destruct (Z.eqb_spec c 0); [done|]. destruct (Z.eqb_spec (Z.land (caps (ctask m)) c) c); done.
  - left. destruct (_ && _)%bool; [by injection E as <- <-|]. by apply (Hf _ _ Efn Hin r m o).
Qed.

End gate.

(** ** The arguments of exec *)

Lemma load32_aligned cr3 p a : user_ok cr3 (pmem p) a = true -> 0 <= a < 2 ^ 32 -> a mod 4 = 0 ->
  exists w, load32 cr3 p a = Some w /\ 0 <= w < 2 ^ 32.
Proof.
  intros Hok Ha Hal. unfold load32. rewrite !wrap32_small by zmod.
  assert (Hp : forall k, 0 <= k < 4 -> exists b, load8 cr3 p (a + k) = Some b /\ 0 <= b < 256).
  { intros k Hk. destruct (user_ok_load cr3 p (a + k)) as [b Eb].
    - rewrite (user_ok_page _ _ (a + k) a) by zmod. done.
    - exists b. split; [done|]. unfold load8 in Eb. apply bind_Some in Eb as (x & _ & [= <-]).
      unfold byte_of. change 0xFF with (Z.ones 8). rewrite Z.land_ones by lia. by apply Z.mod_pos_bound. }
  destruct (Hp 0) as (b0 & E0 & R0); [lia|]. rewrite Z.add_0_r in E0.
  destruct (Hp 1) as (b1 & E1 & R1); [lia|]. destruct (Hp 2) as (b2 & E2 & R2); [lia|]. destruct (Hp 3) as (b3 & E3 & R3); [lia|].
  rewrite E0, E1, E2, E3. cbn [mbind option_bind]. eexists. split; [done|]. lia.
Qed.

Lemma argv_loop_spec n cr3 p a : pt_wf cr3 (pmem p) -> 0 <= a < 2 ^ 32 -> a mod 4 = 0 ->
  exists r, argv_loop n cr3 p a = Some r /\
    forall argv, r = Some argv -> (length argv <= n)%nat /\ Forall (fun s => strlen s < EXEC_ARG_MAXLEN) argv.
Proof.
  intros Hw. revert a. induction n as [|n IH]; intros a Ha Hal; cbn [argv_loop].
  { exists (Some []). split; [done|]. intros argv [= <-]. split; [done|constructor]. }
  rewrite user_page_ok by done. cbn [mbind option_bind]. destruct (user_ok cr3 (pmem p) a) eqn:Eok; cbn [negb].
  2:{ by exists None. }
  destruct (load32_aligned cr3 p a Eok Ha Hal) as (ptr & -> & Hptr). cbn [mbind option_bind].
  destruct (Z.eqb_spec ptr 0). { exists (Some []). split; [done|]. intros argv [= <-]. split; [cbn; lia|constructor]. }
  destruct (Z.leb_spec KERNEL_BASE ptr) as [?|Hk]; [by exists None|]. unfold KERNEL_BASE in Hk.
  destruct (copy_loop_spec (Z.to_nat (EXEC_ARG_MAXLEN - 1)) cr3 p ptr Hw) as (r & -> & Hr); [lia|unfold EXEC_ARG_MAXLEN; lia|].
  cbn [mbind option_bind]. destruct r as [s|]; [|by exists None]. destruct Hr as (_ & Hl & _).
  destruct (IH (a +w 4)) as (r & -> & Hr'); [apply wrap32_range|unfold wrap32; zmod|]. cbn [mbind option_bind].
  exists (option_map (cons s) r). split; [done|]. intros argv E. destruct r as [l|]; [|done]. injection E as <-.
  destruct (Hr' l eq_refl) as [H1 H2]. split; [cbn; lia|]. constructor; [|done]. unfold strlen, EXEC_ARG_MAXLEN in *. lia.
Qed.

(** copying the arguments of exec never faults when the pointer array is word
    aligned, whatever the pointers in it, and stays in the bounds of [exec_argv]: at most 8
    strings of at most 63 characters. *)
Theorem exec_argv_bounded cr3 p a :
  pt_wf cr3 (pmem p) -> 0 <= a < 2 ^ 32 -> a mod 4 = 0 ->
  exists r, copy_exec_argv cr3 p a = Some r /\
    forall argv, r = Some argv -> (length argv <= MAX_EXEC_ARGS)%nat /\ Forall (fun s => strlen s < EXEC_ARG_MAXLEN) argv.
Proof.
  intros Hw Ha Hal. unfold copy_exec_argv. destruct (Z.eqb_spec a 0).
  - exists (Some []). split; [done|]. intros argv [= <-]. split; [cbn; lia|constructor].
  - by apply argv_loop_spec.
Qed.

(** The pointer array at 0x1FFE: the check of the first word looks at the mapped page 0x1000,
    and the load of its last two bytes faults in the kernel. *)
Lemma exec_argv_unaligned_faults : user_page 0x1000 string_demo 0x1FFE = Some true /\ copy_exec_argv 0x1000 string_demo 0x1FFE = None.
Proof. by vm_compute. Qed.

Lemma exec_argv_bounded_witness :
  pt_wf 0x1000 (pmem string_demo) /\ exists r, copy_exec_argv 0x1000 string_demo 0x1004 = Some r /\ r = Some [].
Proof.
  split; [exact string_demo_wf|].
  destruct (exec_argv_bounded 0x1000 string_demo 0x1004 string_demo_wf) as (r & Hr & _); [lia|reflexivity|].
  exists r. split; [exact Hr|].
  assert (E : copy_exec_argv 0x1000 string_demo 0x1004 = Some (Some [])) by (vm_compute; reflexivity).
  rewrite E in Hr. injection Hr as <-. reflexivity.
Defined.

(** ** A task without capabilities asks for a reboot *)

Definition empty_vfs : vfs bump := mk_vfs (mk_bump 16 ∅) ∅ ∅ ∅ ∅ ∅ ∅ ∅ ∅ ∅ ∅ ∅ 0 1 [] 0 0.
Definition no_iops (x : Z) : option (inode_operations (vfs bump)) := None.
Definition no_fops (x : Z) : option (file_operations (vfs bump)) := None.
Definition bare_machine : machine bump :=
  mk_machine (mk_kernel string_demo (mk_sched {[ 1 := zero_task <| in_use := 1 |> ]} ∅ ∅ 1 2 0 0x1000 1) empty_vfs ∅ ∅)
    kbd_zero (mk_vga ∅ 0 0 ∅) [] [] (mk_sb 0 0 0 0 0).
Definition reboot_regs : pt_regs := mk_regs 0 0 0 0 0 0 0 SYS_REBOOT [].

(** The same task with the capability to power off, but not to reboot. *)
Definition power_machine : machine bump :=
  set_ks (mk_sched {[ 1 := zero_task <| in_use := 1 |> <| caps := CAP_POWEROFF |> ]} ∅ ∅ 1 2 0 0x1000 1) bare_machine.

