(* ===== verification/FsBoot.v ===== *)
(** * Mounting the file systems at boot (src/kernel/kernel.c), and a checker of the invariant

    [mount_roots] is the part of [kernel_main] that mounts the boot image as the root and
    memfs at /home.  [fs_okb] decides the invariant of the directory tree of a concrete
    state. *)

From S2P Require Import Prelude LList Cstr Heap HeapInv HeapSpec HeapTheorems Alloc Vfs Memfs VfsInv VfsTheorems MemfsTheorems Tar Ramfs.

Section boot.
Context {A : Type} `{Allocator A}.
Implicit Types v : vfs A.

Definition mount_roots (fuel : nat) (mod_start : Z) v : option (vfs A) :=
  '(ram_sb, v) ← ramfs_mount fuel mod_start v;
  v ← (if negb (ram_sb =? 0) then
         b ← supers v !! ram_sb;
         Some (if negb (s_root b =? 0) then v <| vfs_root := s_root b |> else v)
       else Some v);
  '(home_sb, v) ← memfs_mount v;
  if negb (home_sb =? 0) then '(_, v) ← vfs_mount (lit "/home") home_sb v; Some v else Some v.
End boot.

(** ** Deciding the invariant *)

Section check.
Context {A : Type} `{Allocator A}.
Implicit Types v : vfs A.

(** The type of every object, by the store it is in. *)
Definition kinds v : gmap Z kind :=
  ((fun _ => KInode) <$> inodes v) ∪ ((fun _ => KDentry) <$> dentries v) ∪ ((fun _ => KName) <$> names v) ∪
  ((fun _ => KFile) <$> files v) ∪ ((fun _ => KSuper) <$> supers v) ∪ ((fun _ => KMem) <$> memnodes v) ∪
  ((fun _ => KRam) <$> ramnodes v) ∪ ((fun _ => KTar) <$> tarnodes v) ∪ ((fun _ => KTarFile) <$> tarfiles v) ∪
  ((fun _ => KBuf) <$> bufs v).

Definition store_okb {X} (s : gmap Z X) (T : gmap Z kind) (K : kind) : bool :=
  bool_decide (dom s = dom (filter (fun kx => kx.2 = K) T)).

(** The children from [p] on; [None]: a dangling pointer, or a cycle. *)
Fixpoint chain (fuel : nat) v (p : Z) : option (list Z) :=
  match fuel with
  | O => None
  | S fuel' =>
      if p =? 0 then Some []
      else de ← dentries v !! p; ds ← chain fuel' v (d_next de); Some (p :: ds)
  end.

Definition entry_okb v (de : dentry) : bool :=
  bool_decide (is_Some (inodes v !! d_inode de)) &&
  match names v !! d_name de with Some n => forallb (fun c => (0 <? c) && (c <? 256)) n | None => false end.

Definition fs_okb v : bool :=
  let T := kinds v in
  store_okb (inodes v) T KInode && store_okb (dentries v) T KDentry && store_okb (names v) T KName &&
  store_okb (files v) T KFile && store_okb (supers v) T KSuper && store_okb (memnodes v) T KMem &&
  store_okb (ramnodes v) T KRam && store_okb (tarnodes v) T KTar && store_okb (tarfiles v) T KTarFile &&
  store_okb (bufs v) T KBuf &&
  forallb (fun x => entry_okb v x.2) (map_to_list (dentries v)) &&
  forallb (fun x => match chain 100 v (i_children x.2) with Some _ => true | None => false end) (map_to_list (inodes v)).

Lemma store_okb_sound {X} (s : gmap Z X) T K p : store_okb s T K = true -> is_Some (s !! p) <-> T !! p = Some K.
Proof.
  unfold store_okb. intros Hd%bool_decide_eq_true. rewrite <- elem_of_dom, Hd, elem_of_dom. split.
  - intros [k [Hk Hp]%map_lookup_filter_Some]. cbn in Hp. by subst.
  - intros Hp. exists K. by apply map_lookup_filter_Some.
Qed.

Lemma chain_sound fuel v p ds : chain fuel v p = Some ds ->
  llist (dnext v) p ds /\ Forall (fun d => is_Some (dentries v !! d)) ds.
Proof.
  revert p ds. induction fuel as [|fuel IH]; intros p ds E; [done|]. cbn [chain] in E.
  destruct (Z.eqb_spec p 0) as [->|Hp]; [injection E as <-; by split|].
  apply bind_Some in E as (de & Ed & E). apply bind_Some in E as (ds' & Ec & [= <-]).
  destruct (IH _ _ Ec) as [Hl Hf]. split; [|constructor; [by rewrite Ed|done]].
  split; [done|]. split; [done|]. replace (dnext v p) with (d_next de) by (unfold dnext; by rewrite Ed). exact Hl.
Qed.

Lemma fs_okb_sound v : fs_okb v = true -> fs_ok v (kinds v).
Proof.
  unfold fs_okb. cbv zeta. rewrite !andb_true_iff. intros [[[[[[[[[[[H1 H2] H3] H4] H5] H6] H7] H8] H9] H10] H11] H12].
  split; try (intros p; by apply store_okb_sound).
  - intros d de Hd. rewrite forallb_forall in H11. specialize (H11 (d, de)).
    assert (Hin : In (d, de) (map_to_list (dentries v))) by (by apply list_elem_of_In, elem_of_map_to_list).
    specialize (H11 Hin). unfold entry_okb in H11. cbn [snd] in H11. apply andb_true_iff in H11 as [Hi Hn].
    apply bool_decide_eq_true in Hi. split; [done|]. destruct (names v !! d_name de) as [n|]; [|done]. exists n. split; [done|].
    apply Forall_forall. intros c Hc%list_elem_of_In. rewrite forallb_forall in Hn. specialize (Hn c Hc). bool_prop. lia.
  - intros i ino Hi. rewrite forallb_forall in H12. specialize (H12 (i, ino)).
    assert (Hin : In (i, ino) (map_to_list (inodes v))) by (by apply list_elem_of_In, elem_of_map_to_list).
    specialize (H12 Hin). cbn [snd] in H12. destruct (chain 100 v (i_children ino)) as [ds|] eqn:E; [|done].
    exists ds. by eapply chain_sound.
Qed.

(** memfs files. *)
Definition node_okb v (p : Z) (n : memfs_inode) : bool :=
  (0 <=? m_size n) && (m_size n <=? m_capacity n) && (m_capacity n <=? 2 ^ 31) &&
  ((m_capacity n =? 0) || (64 <=? m_capacity n)) && (negb (m_data n =? 0) || (m_capacity n =? 0)) &&
  ((m_data n =? 0) || bool_decide (is_Some (bufs v !! m_data n))) &&
  forallb (fun x => (x.1 =? p) || (m_data n =? 0) || negb (m_data x.2 =? m_data n)) (map_to_list (memnodes v)).

Definition memfs_okb v : bool := forallb (fun x => node_okb v x.1 x.2) (map_to_list (memnodes v)).

Lemma memfs_okb_sound v : memfs_okb v = true -> memfs_ok v.
Proof.
  unfold memfs_okb. rewrite forallb_forall. intros Hall.
  assert (Hin : forall p n, memnodes v !! p = Some n -> In (p, n) (map_to_list (memnodes v)))
    by (intros; by apply list_elem_of_In, elem_of_map_to_list).
  assert (Hn : forall p n, memnodes v !! p = Some n -> node_okb v p n = true) by (intros p n Hp; apply (Hall (p, n)), Hin, Hp).
  unfold node_okb in Hn. split; intros p n.
  - intros Hp. specialize (Hn p n Hp). bool_prop. lia.
  - intros Hp. specialize (Hn p n Hp). bool_prop. split; [lia|]. intros Hc. destruct (Z.eqb_spec (m_capacity n) 0); [done|].
    repeat match goal with H : (_ || _)%bool = true |- _ => apply orb_true_iff in H as [H|H] end; bool_prop; lia.
  - intros Hp Hd. specialize (Hn p n Hp). bool_prop.
    repeat match goal with H : (_ || _)%bool = true |- _ => apply orb_true_iff in H as [H|H] end; bool_prop; done || lia.
  - intros Hp Hd. specialize (Hn p n Hp). bool_prop.
    repeat match goal with H : (_ || _)%bool = true |- _ => apply orb_true_iff in H as [H|H] end; bool_prop; try done;
      try (eapply bool_decide_eq_true_1; eassumption); try lia.
  - intros n1 n2 Hp Hq Hne E. specialize (Hn p n1 Hp). rewrite !andb_true_iff in Hn. destruct Hn as [_ Hf].
    rewrite forallb_forall in Hf. specialize (Hf (n, n2) (Hin _ _ Hq)). cbn [fst snd] in Hf.
    apply orb_true_iff in Hf as [Hf|Hf]; [apply orb_true_iff in Hf as [Hf|Hf]; bool_prop; congruence|]. bool_prop. congruence.
Qed.
End check.
