(* ===== verification/FileOps.v ===== *)
(** * Open files of memfs through the VFS (src/fs/vfs.c, src/fs/memfs.c)

    What [vfs_open], [vfs_read], [vfs_write] and [vfs_close] do for a file of memfs, each with
    everything the next call needs: the tree, the other open files, the contents and the room
    in the heap.  The system calls are proved on top of these. *)

From S2P Require Import Prelude LList Cstr Heap HeapInv HeapSpec HeapTheorems Alloc Vfs Memfs VfsInv VfsTheorems MemfsTheorems.

Section fileops.
Context {A : Type} `{Allocator A}.
Implicit Types v : vfs A.
Variable tarfs_fops : file_operations (vfs A).
Notation fops := (fops_at tarfs_fops).

#[export] Instance same_tree_preorder : PreOrder (@same_tree A).
Proof. split; [by intros v|]. unfold same_tree. intros u v w. congruence. Qed.

Lemma same_tree_mem v a : same_tree v (v <| mem := a |>).
Proof. done. Qed.

Lemma fs_ok_retype v v' T T' :
  fs_ok v T -> same_tree v v' ->
  (forall p, is_Some (files v' !! p) <-> T' !! p = Some KFile) ->
  (forall p, is_Some (memnodes v' !! p) <-> is_Some (memnodes v !! p)) ->
  (forall p, is_Some (bufs v' !! p) <-> is_Some (bufs v !! p)) ->
  (forall p K, K <> KFile -> T' !! p = Some K <-> T !! p = Some K) -> fs_ok v' T'.
Proof.
  intros [Hi Hd Hn Hf Hs Hm Hr Hta Htf Hb He Hc] [= E1 E2 E3 E4 E5 E6 E7 _ _ _] Hf' Hm' Hb' HK.
  split; try done; intros; rewrite ?E1, ?E2, ?E3, ?E4, ?E5, ?E6, ?E7, ?Hm', ?Hb', ?HK by done; try done.
  - rewrite ?E1, ?E2, ?E3 in *. eauto.
  - assert (Edn : dnext v' = dnext v) by (unfold dnext; by rewrite E2). rewrite Edn. rewrite E1 in *. eauto.
Qed.

Lemma memfs_ok_data v v' : memfs_ok v -> memnodes v' = memnodes v -> bufs v' = bufs v -> memfs_ok v'.
Proof. intros [] E1 E2. split; rewrite ?E1, ?E2; eauto. Qed.

Lemma content_data v p n c : memfs_ok v -> memnodes v !! p = Some n -> content v p = Some c -> c <> [] -> m_data n <> 0.
Proof.
  intros Hmo En Hc Hne E. pose proof (mo_null _ Hmo p n En E) as E0. pose proof (mo_size _ Hmo p n En) as Hs.
  unfold content in Hc. rewrite En in Hc. cbn [mbind option_bind] in Hc. replace (m_size n) with 0 in Hc by lia.
  injection Hc as <-. done.
Qed.

Lemma roots_ok_tree v v' : roots_ok v -> same_tree v v' -> roots_ok v'.
Proof. intros [] [= E1 E2 E3 E4 E5 E6 E7 E8 E9 E10]. split; by rewrite ?E2, ?E4, ?E9, ?E10. Qed.

(** What a path names depends on the tree only. *)
Lemma is_child_tree v v' d n c : same_tree v v' -> is_child v d n c -> is_child v' d n c.
Proof.
  intros [= E1 E2 E3 _ _ _ _ _ _ _] (de & di & ds1 & ds2 & H1 & H2 & H3 & H4 & H5 & H6).
  assert (Ed : dnext v' = dnext v) by (unfold dnext; by rewrite E2).
  assert (En : dname v' = dname v) by (unfold dname; by rewrite E2, E3).
  exists de, di, ds1, ds2. rewrite E1, E2, Ed, En. done.
Qed.

Lemma resolves_tree v v' d ns c : same_tree v v' -> resolves v d ns c -> resolves v' d ns c.
Proof. intros Ht. induction 1; econstructor; eauto using is_child_tree. Qed.

Lemma same_tree_sym v v' : same_tree v v' -> same_tree v' v.
Proof. unfold same_tree. congruence. Qed.

Lemma names_entry_tree v v' path c : same_tree v v' -> names_entry v path c <-> names_entry v' path c.
Proof.
  assert (Hone : forall u u', same_tree u u' -> names_entry u path c -> names_entry u' path c).
  { intros u u' Ht (o & rest & Hm & Hr). pose proof Ht as [= _ _ _ E4 _ _ _ _ E9 E10]. exists o, rest. rewrite E9, E10. split; [done|].
    destruct o as [sb|]; [|by eapply resolves_tree]. destruct Hr as (b & Eb & Hr). exists b. rewrite E4. split; [done|]. by eapply resolves_tree. }
  intros Ht. split; apply Hone; [done|by apply same_tree_sym].
Qed.

(** ** Opening *)

(** The entry [c] is a file of memfs with private data at [p]. *)
Definition mem_entry v (c p : Z) : Prop :=
  c <> 0 /\ exists de i, dentries v !! c = Some de /\ d_inode de <> 0 /\ inodes v !! d_inode de = Some i /\
    i_private i = p /\ p <> 0 /\ i_fop i = MEMFS_OPS.

Lemma mem_entry_tree v v' c p : same_tree v v' -> mem_entry v c p -> mem_entry v' c p.
Proof. intros [= E1 E2 _ _ _ _ _ _ _ _]. unfold mem_entry. by rewrite E1, E2. Qed.

Definition open_room (path : list Z) : Z := lookup_room path + 64.

(** What a call on the open file [f] leaves alone; [nodes] are the nodes of memfs after it. *)
Definition touched v v' (f : Z) (nodes : gmap Z memfs_inode) : Prop :=
  same_tree v v' /\ memnodes v' = nodes /\ bufs v' = bufs v /\ (forall q, q <> f -> files v' !! q = files v !! q).
Notation opened v v' f := (touched v v' f (memnodes v)).

(** O_TRUNC sets the size to 0 and keeps the buffer. *)
Definition truncated v (p flags : Z) : gmap Z memfs_inode :=
  if tst flags O_TRUNC then alter (fun n => mk_memfs 0 (m_capacity n) (m_data n)) p (memnodes v) else memnodes v.

Lemma open_dentry_spec v T L k c p flags :
  fs_ok v T -> mem_ok v T L k -> mem_entry v c p -> is_Some (memnodes v !! p) -> 64 <= k ->
  exists de f v' T' L', dentries v !! c = Some de /\ d_inode de <> 0 /\ open_dentry fops c (d_inode de) flags v = Some (f, v') /\
    f <> 0 /\ files v !! f = None /\ handle v' f p 0 /\ touched v v' f (truncated v p flags) /\ fs_ok v' T' /\ mem_ok v' T' L' (k - 64).
Proof.
  intros Hv Hm (Hc & de & i & Ed & Hi0 & Ei & Ep & Hp & Eop) [n En] Hk. exists de. unfold open_dentry.
  destruct (malloc_room v T L k SIZEOF_FILE Hm) as (f & a & -> & Hf0 & HfL & Hm1); [unfold SIZEOF_FILE; lia..|].
  cbn [mbind option_bind]. destruct (Z.eqb_spec f 0) as [?|_]; [done|]. cbn [inodes set_field eta_vfs]. rewrite Ei. cbn [mbind option_bind].
  rewrite Eop. change (fops MEMFS_OPS) with (Some (@memfs_fops A _)). cbn [mbind option_bind op_open memfs_fops]. unfold memfs_open.
  cbn [inodes set_file set_field eta_vfs]. rewrite Ei. cbn [mbind option_bind]. destruct (Z.eqb_spec (i_private i) 0) as [?|_]; [congruence|].
  cbn [files set_file set_field eta_vfs]. rewrite lookup_insert_eq. cbn [mbind option_bind f_flags]. rewrite Ep.
  assert (HfT : T !! f = None) by (apply not_elem_of_dom; destruct Hm as [_ HT]; set_solver).
  assert (Hfn : files v !! f = None).
  { destruct (files v !! f) eqn:E; [|done]. assert (T !! f = Some KFile) by (apply (fo_file _ _ Hv); by rewrite E). congruence. }
  set (x := mk_file c 0 flags MEMFS_OPS 0). set (v' := v <| mem := a |> <| files := <[f := x]> (files v) |> <| memnodes := truncated v p flags |>).
  assert (Hfin : files v' !! f = Some x /\ handle v' f p 0 /\ touched v v' f (truncated v p flags)).
  { assert (E1 : files v' !! f = Some x) by (unfold v'; cbn; apply lookup_insert_eq). splits; [done|by exists x, de, i|].
    unfold touched. splits; try done. intros q Hq. unfold v'. cbn. by rewrite lookup_insert_ne. }
  exists f, v', (<[f := KFile]> T), ({[f]} ∪ L). splits; try done; [|by apply Hfin|by apply Hfin| |].
  - unfold v', truncated. destruct (tst flags O_TRUNC); cbn [mbind option_bind negb Z.eqb].
    + cbn [memnodes set_file set_field eta_vfs]. rewrite En. cbn [mbind option_bind negb Z.eqb]. do 2 f_equal.
      unfold set_file, set_memnode. cbn. rewrite insert_insert_eq. f_equal. apply map_eq. intros q.
      destruct (decide (q = p)) as [->|Hq]; [by rewrite lookup_insert_eq, lookup_alter_eq, En|by rewrite lookup_insert_ne, lookup_alter_ne].
    + done.
  - apply (fs_ok_retype v _ T); try done; unfold v'; cbn [files memnodes set_file set_field eta_vfs].
    + intros q. destruct (decide (q = f)) as [->|Hq]; [rewrite !lookup_insert_eq; by split|].
      rewrite !lookup_insert_ne by done. apply (fo_file _ _ Hv).
    + intros q. unfold truncated. destruct (tst flags O_TRUNC); [|done]. destruct (decide (q = p)) as [->|Hq].
      * rewrite lookup_alter_eq, En. cbn. split; eauto.
      * by rewrite lookup_alter_ne.
    + intros q K HK. destruct (decide (q = f)) as [->|Hq]; [rewrite lookup_insert_eq, HfT; split; congruence|by rewrite lookup_insert_ne].
  - destruct Hm1 as [Ha HT]. split; [unfold v'; cbn; unfold SIZEOF_FILE in Ha; by replace (k - 64) with (k - (24 + 40)) by lia|].
    rewrite dom_insert. set_solver.
Qed.

(** Truncation keeps the invariant of memfs. *)
Lemma truncated_ok v v' f p flags : memfs_ok v -> touched v v' f (truncated v p flags) -> memfs_ok v'.
Proof.
  intros Hmo (_ & E1 & E2 & _). unfold truncated in E1. destruct (tst flags O_TRUNC); [|by apply (memfs_ok_data v)].
  assert (Hn : forall q n', memnodes v' !! q = Some n' -> exists n, memnodes v !! q = Some n /\ m_capacity n' = m_capacity n /\ m_data n' = m_data n /\
    0 <= m_size n' <= m_size n).
  { intros q n'. rewrite E1. destruct (decide (q = p)) as [->|Hq].
    - rewrite lookup_alter_eq. intros (n & En & ->)%fmap_Some. exists n. pose proof (mo_size _ Hmo p n En). cbn. splits; try done; lia.
    - rewrite lookup_alter_ne by done. intros En. pose proof (mo_size _ Hmo q n' En). exists n'. splits; try done; lia. }
  split.
  - intros q n' (n & En & -> & _ & ?)%Hn. pose proof (mo_size _ Hmo q n En). lia.
  - intros q n' (n & En & -> & _ & ?)%Hn. by apply (mo_cap _ Hmo q n).
  - intros q n' (n & En & -> & -> & ?)%Hn. by apply (mo_null _ Hmo q n).
  - intros q n' (n & En & _ & -> & ?)%Hn. rewrite E2. by apply (mo_data _ Hmo q n).
  - intros q q' n' n2' (n & En & _ & -> & _)%Hn (n2 & En2 & _ & -> & _)%Hn. by apply (mo_inj _ Hmo q q' n n2).
Qed.

Lemma vfs_open_spec v T L k root path flags c p :
  fs_ok v T -> roots_ok v -> mem_ok v T L k -> cstr path -> cstr root -> strlen path <= 4096 -> open_room path <= k ->
  path <> [] -> confined root path -> names_entry v path c -> mem_entry v c p -> is_Some (memnodes v !! p) ->
  exists f v' T' L', vfs_open iops_at fops root path flags v = Some (f, v') /\
    f <> 0 /\ files v !! f = None /\ handle v' f p 0 /\ touched v v' f (truncated v p flags) /\ fs_ok v' T' /\ mem_ok v' T' L' (k - open_room path).
Proof.
  intros Hv Hr Hm Hp Hrt Hl Hk Hne Hcf Hn He Htr. unfold open_room in *. unfold vfs_open.
  destruct (vfs_lookup_spec v T L k root path) as (r & a & -> & Hm1 & Hf); try done; [lia|]. cbn [mbind option_bind].
  assert (r = c) as ->.
  { destruct Hf as [[-> Hno]|(_ & _ & _ & Hr')]; [by destruct (Hno c)|].
    destruct Hn as (o & rest & Ho & Hc), Hr' as (o' & rest' & Ho' & Hc'). destruct (mount_of_fun _ _ _ _ _ _ Ho Ho') as [<- <-].
    destruct o; [destruct Hc as (b & Eb & Hc), Hc' as (b' & Eb' & Hc'); simplify_eq|]; by eapply resolves_fun. }
  pose proof He as (Hc0 & _). destruct (Z.eqb_spec c 0) as [?|_]; [done|].
  destruct (open_dentry_spec (v <| mem := a |>) T L _ c p flags (fs_ok_mem _ _ _ Hv) Hm1) as
    (de & f & v' & T' & L' & Ed & Hi0 & Eo & Hf0 & Hfn & Hh & Ho & Hv' & Hm'); [done|done|lia|].
  rewrite Ed. cbn [mbind option_bind]. destruct (Z.eqb_spec (d_inode de) 0) as [?|_]; [done|].
  exists f, v', T', L'. splits; try done. eapply mem_ok_weaken; [exact Hm'|lia].
Qed.

Lemma vfs_open_missing v T L k root path flags :
  fs_ok v T -> roots_ok v -> mem_ok v T L k -> cstr path -> cstr root -> strlen path <= 4096 -> open_room path <= k ->
  (path = [] \/ ~ confined root path \/ forall c, ~ names_entry v path c) ->
  exists a, vfs_open iops_at fops root path flags v = Some (0, v <| mem := a |>) /\ mem_ok (v <| mem := a |>) T L (k - open_room path).
Proof.
  intros Hv Hr Hm Hp Hrt Hl Hk Hno. unfold open_room in *. unfold vfs_open.
  destruct (vfs_lookup_spec v T L k root path) as (r & a & -> & Hm1 & Hf); try done; [lia|]. cbn [mbind option_bind].
  assert (r = 0) as ->. { destruct Hf as [[-> _]|(_ & H1 & H2 & H3)]; [done|]. destruct Hno as [?|[?|Hn]]; [done|done|by destruct (Hn r)]. }
  exists a. split; [done|]. eapply mem_ok_weaken; [exact Hm1|lia].
Qed.

(** ** Closing, reading and writing *)

Lemma handle_file v f p pos : handle v f p pos ->
  exists x de i, files v !! f = Some x /\ fops (f_op x) = Some memfs_fops /\ dentries v !! f_dentry x = Some de /\
    inodes v !! d_inode de = Some i /\ i_private i = p.
Proof. intros (x & de & i & Ef & _ & Eop & _ & Ed & _ & Ei & Ep & _). exists x, de, i. by rewrite Eop. Qed.

Lemma handle_keep v v' f p pos : handle v f p pos -> same_tree v v' -> files v' !! f = files v !! f -> handle v' f p pos.
Proof. intros (x & de & i & Hx & Hr) [= E1 E2 _ _ _ _ _ _ _ _] Ef. exists x, de, i. by rewrite Ef, E1, E2. Qed.

Lemma vfs_close_spec v T L k f p pos :
  fs_ok v T -> mem_ok v T L k -> f <> 0 -> handle v f p pos ->
  exists v' T' L', vfs_close fops f v = Some (0, v') /\ opened v v' f /\ files v' !! f = None /\ fs_ok v' T' /\ mem_ok v' T' L' k.
Proof.
  intros Hv Hm Hf0 Hh. destruct (handle_file v f p pos Hh) as (x & de & i & Ef & Eop & Ed & _). unfold vfs_close.
  destruct (Z.eqb_spec f 0) as [?|_]; [done|]. rewrite Ef. cbn [mbind option_bind]. rewrite Eop. cbn [mbind option_bind op_release memfs_fops].
  rewrite Ed. cbn [mbind option_bind]. unfold memfs_release. cbn [mbind option_bind].
  assert (HfT : T !! f = Some KFile) by (apply (fo_file _ _ Hv); eauto). destruct Hm as [Ha HT].
  assert (HfL : f ∈ L) by (apply HT, elem_of_dom; eauto). destruct (al_free_spec _ _ _ _ Ha HfL) as (a & Ea & Ha').
  unfold free. rewrite Ea. cbn [mbind option_bind]. eexists _, (delete f T), (L ∖ {[f]}). split; [done|].
  split; [|split; [|split]].
  - unfold touched. splits; try done. intros q Hq. cbn. by rewrite lookup_delete_ne.
  - cbn. apply lookup_delete_eq.
  - apply (fs_ok_retype v _ T); try done; cbn [files set_field eta_vfs].
    + intros q. destruct (decide (q = f)) as [->|Hq]; [rewrite !lookup_delete_eq; split; [by intros []|done]|].
      rewrite !lookup_delete_ne by done. apply (fo_file _ _ Hv).
    + intros q K HK. destruct (decide (q = f)) as [->|Hq]; [rewrite lookup_delete_eq, HfT; split; congruence|by rewrite lookup_delete_ne].
  - split; [done|]. rewrite dom_delete. set_solver.
Qed.

(** A file to which nothing was ever written cannot be read: -1, where an empty file that has
    a buffer gives 0. *)
Lemma vfs_read_unwritten v f p pos n len :
  f <> 0 -> handle v f p pos -> memnodes v !! p = Some n -> m_data n = 0 -> vfs_read fops f len v = Some (-1, [], v).
Proof.
  intros Hf0 Hh En Hd. destruct (handle_file v f p pos Hh) as (x & de & i & Ef & Eop & _). unfold vfs_read.
  destruct (Z.eqb_spec f 0) as [?|_]; [done|]. rewrite Ef. cbn [mbind option_bind]. rewrite Eop. cbn [mbind option_bind op_read memfs_fops].
  unfold memfs_read. rewrite (handle_private _ _ _ _ Hh). cbn [mbind option_bind]. destruct Hh as (? & ? & ? & _ & _ & _ & _ & _ & _ & _ & _ & Hp).
  destruct (Z.eqb_spec p 0) as [?|_]; [done|]. rewrite En. cbn [mbind option_bind]. by rewrite Hd.
Qed.

Lemma vfs_read_spec v T L k f p pos n c len :
  fs_ok v T -> memfs_ok v -> mem_ok v T L k -> f <> 0 -> handle v f p pos -> memnodes v !! p = Some n -> content v p = Some c -> m_data n <> 0 ->
  0 <= pos < 2 ^ 63 -> 0 <= len < 2 ^ 32 ->
  exists v', let r := take (Z.to_nat len) (drop (Z.to_nat pos) c) in
    vfs_read fops f len v = Some (strlen r, r, v') /\ handle v' f p (pos + strlen r) /\ opened v v' f /\ fs_ok v' T /\ mem_ok v' T L k.
Proof.
  intros Hv Hmo Hm Hf0 Hh En Hc Hd Hpos Hl. destruct (handle_file v f p pos Hh) as (x & de & i & Ef & Eop & _). unfold vfs_read.
  destruct (Z.eqb_spec f 0) as [?|_]; [done|]. rewrite Ef. cbn [mbind option_bind]. rewrite Eop. cbn [mbind option_bind op_read memfs_fops].
  destruct (memfs_read_spec v f p pos n c len Hmo Hh En Hc Hd Hpos Hl) as (v' & E & Hh' & Ht & _ & E1 & E2 & E3 & E4 & E5).
  exists v'. cbv zeta. splits; try done; [|unfold mem_ok in *; by rewrite E3].
  apply (fs_ok_bufs v _ T); try done; [by rewrite E1|]. rewrite E2. apply (fo_buf _ _ Hv).
Qed.

Lemma vfs_write_spec v T L k f p off n c buf :
  fs_ok v T -> memfs_ok v -> mem_ok v T L k -> f <> 0 -> handle v f p off -> memnodes v !! p = Some n -> content v p = Some c ->
  0 < strlen buf -> 0 <= off -> off + strlen buf <= 2 ^ 30 -> 2 * (off + strlen buf) + 104 <= k ->
  exists gap v' T' L', vfs_write fops f buf v = Some (strlen buf, v') /\ strlen gap = Z.max 0 (off - m_size n) /\
    fs_ok v' T' /\ memfs_ok v' /\ mem_ok v' T' L' (k - (2 * (off + strlen buf) + 104)) /\ handle v' f p (off + strlen buf) /\
    content v' p = Some (patch off buf (c ++ gap)) /\ (forall q, q <> p -> content v' q = content v q) /\ same_tree v v' /\
    (forall q, q <> f -> files v' !! q = files v !! q) /\ (forall q, q <> p -> memnodes v' !! q = memnodes v !! q).
Proof.
  intros Hv Hmo Hm Hf0 Hh ? ? ? ? ? ?. destruct (handle_file v f p off Hh) as (x & de & i & Ef & Eop & _). unfold vfs_write.
  destruct (Z.eqb_spec f 0) as [?|_]; [done|]. rewrite Ef. cbn [mbind option_bind]. rewrite Eop. cbn [mbind option_bind op_write memfs_fops].
  by apply (memfs_write_spec v T L k f p off n c buf).
Qed.

(** Writing no bytes changes nothing. *)
Lemma vfs_write_nothing v f p off n :
  memfs_ok v -> f <> 0 -> handle v f p off -> memnodes v !! p = Some n -> 0 <= off <= m_size n ->
  exists v', vfs_write fops f [] v = Some (0, v') /\ handle v' f p off /\ opened v v' f /\ mem v' = mem v /\
    forall q, is_Some (files v' !! q) <-> is_Some (files v !! q).
Proof.
  intros Hmo Hf0 Hh En Hoff. destruct (handle_file v f p off Hh) as (x & de & i & Ef & Eop & _). unfold vfs_write.
  destruct (Z.eqb_spec f 0) as [?|_]; [done|]. rewrite Ef. cbn [mbind option_bind]. rewrite Eop. cbn [mbind option_bind op_write memfs_fops].
  pose proof (mo_size _ Hmo p n En). pose proof (mo_cap _ Hmo p n En) as [? _].
  pose proof Hh as (x' & ? & ? & Ef' & Epos & _ & _ & _ & _ & _ & _ & Hp). assert (x' = x) as -> by congruence.
  unfold memfs_write. rewrite (handle_private _ _ _ _ Hh). cbn [mbind option_bind].
  destruct (Z.eqb_spec p 0) as [?|_]; [done|]. rewrite Ef. cbn [mbind option_bind length]. rewrite Epos.
  change (wrap32 (Z.of_nat 0)) with 0. rewrite Z.add_0_r, (wrap32_small off), wrap32_small by lia.
  unfold memfs_grow. rewrite En. cbn [mbind option_bind]. destruct (Z.ltb_spec (m_capacity n) off); [lia|]. cbn [mbind option_bind negb].
  rewrite En. cbn [mbind option_bind]. change (0 <? Z.of_nat 0) with false. change (Z.of_nat 0) with 0. cbn [mbind option_bind].
  destruct (advance_spec v f p off 0 Hh) as (v' & -> & Hh' & Ht & E1 & E2 & E3 & E4 & E5); [lia|]. cbn [mbind option_bind].
  rewrite Z.add_0_r in Hh'. pose proof Hh' as (x' & ? & ? & Ef2 & Epos2 & _). rewrite Ef2. cbn [mbind option_bind]. rewrite Epos2.
  destruct (Z.ltb_spec (m_size n) off); [lia|]. exists v'. splits; try done.
Qed.
End fileops.
