(* ===== verification/FileCreate.v ===== *)
(** * Creating a file in memfs (src/fs/vfs.c, src/fs/memfs.c)

    [vfs_create] of a name below the mount point of memfs: the state it returns, written out
    in [created], is well formed, has the new file open and empty, and names everything else
    as before. *)

From S2P Require Import Prelude LList Cstr Heap HeapInv HeapSpec HeapTheorems Alloc Vfs Memfs VfsInv VfsTheorems MemfsTheorems FileOps.

(** A name of a file: without slashes, not empty. *)
Definition name_ok (name : list Z) : Prop := name <> [] /\ cstr name /\ SLASH ∉ name.

Lemma after_last_none s i b : SLASH ∉ s -> after_last_slash s i b = b.
Proof.
  revert i. induction s as [|c s IH]; intros i Hs; cbn [after_last_slash]; [done|].
  apply not_elem_of_cons in Hs as [Hc Hs]. destruct (Z.eqb_spec c SLASH); [congruence|]. by apply IH.
Qed.

Lemma char_at_name name : name_ok name -> (char_at name 0 =? 0) = false /\ (char_at name 0 =? SLASH) = false.
Proof.
  intros (Hne & Hc & Hs). destruct name as [|c s]; [done|]. apply Forall_cons in Hc as [Hc _]. apply not_elem_of_cons in Hs as [Hs _].
  unfold char_at. cbn. lia.
Qed.

(** A name below a mount point is one component. *)
Lemma components_name name : name_ok name -> components (SLASH :: name) = [name].
Proof.
  intros (Hne & Hc & Hs). unfold components. cbn [char_at nth_lookup]. change (char_at (SLASH :: name) 0 =? SLASH) with true. cbn [drop]. rewrite drop_0.
  cbn [split_path length]. pose proof (strchr_spec name SLASH) as Hx. destruct (strchr name SLASH) as [i|].
  - destruct Hx as (s1 & s2 & -> & _). destruct Hs. apply elem_of_app. right. left.
  - by rewrite decide_False.
Qed.

Section create.
Context {A : Type} `{Allocator A}.
Implicit Types v : vfs A.
Variable tarfs_fops : file_operations (vfs A).
Notation fops := (fops_at tarfs_fops).

(** The directory [dir] of memfs, with inode [di] at [ino]. *)
Definition mem_dir v (dir ino : Z) (di : inode) : Prop :=
  dir <> 0 /\ (exists de, dentries v !! dir = Some de /\ d_inode de = ino) /\ inodes v !! ino = Some di /\ i_op di = MEMFS_OPS.

(** The state after the creation of [name] in it: entry [pd] with its name at [pn], inode
    [pi] with private data at [pm], open file [pf]. *)
Definition created v (a : A) (dir ino : Z) (di : inode) (name : list Z) (mode pd pn pi pm pf : Z) : vfs A :=
  v <| mem := a |>
    <| inodes := <[pi := mk_inode (vfs_ino_next v) mode 0 1 0 0 MEMFS_OPS pm 0]> (<[ino := di <| i_children := pd |>]> (inodes v)) |>
    <| dentries := <[pd := mk_dentry pn pi dir (i_children di)]> (dentries v) |>
    <| names := <[pn := name]> (names v) |>
    <| files := <[pf := mk_file pd 0 0 MEMFS_OPS 0]> (files v) |>
    <| memnodes := <[pm := mk_memfs 0 0 0]> (memnodes v) |>
    <| vfs_ino_next := vfs_ino_next v +w 1 |>.

Definition create_room (name : list Z) : Z := 3 * strlen name + 444.

Definition kinds_after (T : gmap Z kind) (pd pn pi pm pf : Z) : gmap Z kind :=
  <[pd := KDentry]> (<[pn := KName]> (<[pi := KInode]> (<[pm := KMem]> (<[pf := KFile]> T)))).

Section state.
Context (v : vfs A) (T : gmap Z kind) (a : A) (dir ino : Z) (di : inode) (name : list Z) (mode pd pn pi pm pf : Z).
Hypothesis v_ok : fs_ok v T.
Hypothesis dir_ok : mem_dir v dir ino di.
Hypothesis addrs : NoDup [pd; pn; pi; pm; pf] /\ forall x, x ∈ [pd; pn; pi; pm; pf] -> T !! x = None /\ x <> 0.
Hypothesis name_good : name_ok name.
Let v' := created v a dir ino di name mode pd pn pi pm pf.
Let T' := kinds_after T pd pn pi pm pf.

Lemma addr_fresh x : x ∈ [pd; pn; pi; pm; pf] -> inodes v !! x = None /\ dentries v !! x = None /\ names v !! x = None /\
  files v !! x = None /\ memnodes v !! x = None /\ bufs v !! x = None.
Proof.
  intros Hx. destruct addrs as [_ Ha]. destruct (Ha x Hx) as [HT _].
  splits; apply eq_None_not_Some; intros Hs.
  - apply (fo_inode _ _ v_ok) in Hs. congruence.
  - apply (fo_dentry _ _ v_ok) in Hs. congruence.
  - apply (fo_name _ _ v_ok) in Hs. congruence.
  - apply (fo_file _ _ v_ok) in Hs. congruence.
  - apply (fo_mem _ _ v_ok) in Hs. congruence.
  - apply (fo_buf _ _ v_ok) in Hs. congruence.
Qed.

Lemma addr_diff : pd <> pn /\ pd <> pi /\ pd <> pm /\ pd <> pf /\ pn <> pi /\ pn <> pm /\ pn <> pf /\ pi <> pm /\ pi <> pf /\ pm <> pf.
Proof. destruct addrs as [Hn _]. repeat (apply NoDup_cons in Hn as [? Hn]). splits; set_solver. Qed.

Lemma created_dnext x : dnext v' x = if decide (x = pd) then i_children di else dnext v x.
Proof. unfold dnext, v'. cbn. case_decide as E; [subst; by rewrite lookup_insert_eq|by rewrite lookup_insert_ne]. Qed.

Lemma created_dname x : dname v' x = if decide (x = pd) then Some name else dname v x.
Proof.
  unfold dname, v'. cbn. case_decide as E; [subst; rewrite lookup_insert_eq; cbn; by rewrite lookup_insert_eq|].
  rewrite lookup_insert_ne by done. destruct (dentries v !! x) as [de|] eqn:Ed; [|done]. cbn. apply lookup_insert_ne. intros Ep.
  destruct (fo_entry _ _ v_ok x de Ed) as (_ & n & En & _). destruct (addr_fresh pn) as (_ & _ & E3 & _); [set_solver|congruence].
Qed.

(** The chains of entries of [v] are chains of [v']. *)
Lemma created_chain p ds : Forall (fun d => is_Some (dentries v !! d)) ds -> llist (dnext v) p ds <-> llist (dnext v') p ds.
Proof.
  intros Hds. assert (He : forall x, x ∈ ds -> dnext v x = dnext v' x).
  { intros x Hx. rewrite created_dnext. rewrite decide_False; [done|]. intros ->. rewrite Forall_forall in Hds. destruct (Hds pd Hx) as [? E].
    destruct (addr_fresh pd) as (_ & E2 & _); [set_solver|congruence]. }
  split; apply lseg_ext; [exact He|]. intros x Hx. symmetry. by apply He.
Qed.

Lemma created_entry_old d : is_Some (dentries v !! d) -> is_Some (dentries v' !! d).
Proof. intros Hd. unfold v'. cbn. apply lookup_insert_is_Some'. by right. Qed.

(** The children of the directory, the new entry first. *)
Lemma created_children ds : llist (dnext v) (i_children di) ds -> Forall (fun d => is_Some (dentries v !! d)) ds ->
  llist (dnext v') pd (pd :: ds).
Proof.
  intros Hl Hds. destruct addrs as [_ Ha]. split; [done|]. split; [apply Ha; set_solver|]. rewrite created_dnext, decide_True by done.
  by apply created_chain.
Qed.

Lemma created_ino : ino <> pi.
Proof.
  intros E. destruct dir_ok as (_ & _ & Ei & _). destruct (addr_fresh pi) as (E1 & _); [set_solver|].
  rewrite E in Ei. congruence.
Qed.


Lemma created_types x : T' !! x =
  if decide (x = pd) then Some KDentry else if decide (x = pn) then Some KName else if decide (x = pi) then Some KInode
  else if decide (x = pm) then Some KMem else if decide (x = pf) then Some KFile else T !! x.
Proof. pose proof addr_diff. unfold T', kinds_after. repeat case_decide; subst; by simplify_map_eq. Qed.

Lemma created_kind x K : T' !! x = Some K <->
  (x = pd /\ K = KDentry) \/ (x = pn /\ K = KName) \/ (x = pi /\ K = KInode) \/ (x = pm /\ K = KMem) \/ (x = pf /\ K = KFile) \/ T !! x = Some K.
Proof.
  destruct addrs as [_ Ha]. pose proof addr_diff as Hd. rewrite created_types.
  assert (H1 : T !! pd = None) by (apply Ha; set_solver). assert (H2 : T !! pn = None) by (apply Ha; set_solver).
  assert (H3 : T !! pi = None) by (apply Ha; set_solver). assert (H4 : T !! pm = None) by (apply Ha; set_solver).
  assert (H5 : T !! pf = None) by (apply Ha; set_solver). clear Ha.
  repeat (case_decide; [subst x; split; [intros [= <-]; tauto|intuition congruence]|]). intuition congruence.
Qed.

(** A store with a new object at [k], and one that keeps its objects. *)
Lemma store_new {X} (st : gmap Z X) K k y : T' !! k = Some K -> (forall x, T' !! x = Some K <-> x = k \/ T !! x = Some K) ->
  (forall x, is_Some (st !! x) <-> T !! x = Some K) -> forall x, is_Some (<[k := y]> st !! x) <-> T' !! x = Some K.
Proof. intros Hk Hn Hst x. rewrite lookup_insert_is_Some', Hn, Hst. intuition congruence. Qed.

Lemma created_fs_ok : fs_ok v' T'.
Proof.
  pose proof dir_ok as (_ & (dd & Edd & Eino) & Ei & _). pose proof name_good as (_ & Hcn & _).
  assert (Hk : forall K, K = KSuper \/ K = KRam \/ K = KTar \/ K = KTarFile \/ K = KBuf -> forall x, T' !! x = Some K <-> T !! x = Some K)
    by (intros K HK x; rewrite created_kind; intuition congruence).
  assert (Hi : forall x, is_Some (<[ino := di <| i_children := pd |>]> (inodes v) !! x) <-> T !! x = Some KInode).
  { intros x. rewrite lookup_insert_is_Some'. rewrite <- (fo_inode _ _ v_ok x). split; [|tauto]. intros [<-|?]; [eauto|done]. }
  split; unfold v'; cbn [inodes dentries names files supers memnodes ramnodes tarnodes tarfiles bufs created set_field eta_vfs].
  1: apply store_new; [rewrite created_kind; tauto|intros x; rewrite created_kind; intuition congruence|exact Hi].
  1: apply store_new; [rewrite created_kind; tauto|intros x; rewrite created_kind; intuition congruence|apply (fo_dentry _ _ v_ok)].
  1: apply store_new; [rewrite created_kind; tauto|intros x; rewrite created_kind; intuition congruence|apply (fo_name _ _ v_ok)].
  1: apply store_new; [rewrite created_kind; tauto|intros x; rewrite created_kind; intuition congruence|apply (fo_file _ _ v_ok)].
  2: apply store_new; [rewrite created_kind; tauto|intros x; rewrite created_kind; intuition congruence|apply (fo_mem _ _ v_ok)].
  1-5: intros x; rewrite Hk by tauto; destruct v_ok; auto.
  - intros d de [[<- <-]|[Hd Ed]]%lookup_insert_Some.
    + split; [by rewrite lookup_insert_eq|]. exists name. by rewrite lookup_insert_eq.
    + destruct (fo_entry _ _ v_ok d de Ed) as ([i Ei'] & n & En & Hn). rewrite !lookup_insert_is_Some'. split; [rewrite Ei'; eauto|].
      exists n. split; [|done]. rewrite lookup_insert_ne; [done|]. intros Ep. destruct (addr_fresh pn) as (_ & _ & E3 & _); [set_solver|congruence].
  - change (dnext _) with (dnext v'). assert (Hold : forall ds, Forall (fun d => is_Some (dentries v !! d)) ds -> Forall (fun d => is_Some (dentries v' !! d)) ds)
      by (intros ds Hds; eapply Forall_impl; [exact Hds|apply created_entry_old]).
    intros i x [[<- <-]|[Hi' [[<- <-]|[Hi2 Ex]]%lookup_insert_Some]]%lookup_insert_Some.
    + exists []. done.
    + destruct (fo_children _ _ v_ok ino di Ei) as (ds & Hl & Hds). exists (pd :: ds). split; [by apply created_children|].
      constructor; [unfold v'; cbn; by rewrite lookup_insert_eq|by apply Hold].
    + destruct (fo_children _ _ v_ok i x Ex) as (ds & Hl & Hds). exists ds. split; [by apply created_chain|by apply Hold].
Qed.

Lemma created_memfs_ok : memfs_ok v -> memfs_ok v'.
Proof.
  intros [Hs Hc Hn Hd Hi]. destruct (addr_fresh pm) as (_ & _ & _ & _ & Em & _); [set_solver|].
  split; unfold v'; cbn [memnodes bufs created set_field eta_vfs]; intros q.
  - intros x [[<- <-]|[? Eq]]%lookup_insert_Some; [done|eauto].
  - intros x [[<- <-]|[? Eq]]%lookup_insert_Some; [done|eauto].
  - intros x [[<- <-]|[? Eq]]%lookup_insert_Some; [done|eauto].
  - intros x [[<- <-]|[? Eq]]%lookup_insert_Some; [done|eauto].
  - intros q' x x' [[<- <-]|[? Eq]]%lookup_insert_Some [[<- <-]|[? Eq']]%lookup_insert_Some; [done|done|done|eauto].
Qed.

Lemma created_content q : q <> pm -> content v' q = content v q.
Proof. intros Hq. unfold content, v'. cbn. by rewrite lookup_insert_ne. Qed.

(** The new entry is in the directory, and the other names mean what they meant. *)
Lemma created_child : is_child v' dir name pd.
Proof.
  pose proof dir_ok as (_ & (dd & Edd & Eino) & Ei & Eop). destruct (fo_children _ _ v_ok ino di Ei) as (ds & Hl & Hds).
  assert (Hdir : dir <> pd) by (intros ->; destruct (addr_fresh pd) as (_ & E & _); [set_solver|congruence]).
  exists dd, (di <| i_children := pd |>), [], ds. splits.
  - unfold v'. cbn. by rewrite lookup_insert_ne.
  - unfold v'. cbn. rewrite Eino, lookup_insert_ne by (pose proof created_ino; congruence). by rewrite lookup_insert_eq.
  - cbn. rewrite Eop. eauto.
  - by apply created_children.
  - by rewrite created_dname, decide_True.
  - intros x Hx. by apply not_elem_of_nil in Hx.
Qed.

Lemma created_child_other n c : n <> name -> is_child v dir n c -> is_child v' dir n c.
Proof.
  intros Hn (dd & di' & ds1 & ds2 & Edd & Ei' & Hop & Hl & Hc & Hf).
  pose proof dir_ok as (_ & (dd' & Edd' & Eino) & Ei & Eop). assert (dd' = dd) as -> by congruence. assert (di' = di) as -> by congruence.
  assert (Hold : Forall (fun d => is_Some (dentries v !! d)) (ds1 ++ c :: ds2)).
  { destruct (fo_children _ _ v_ok _ _ Ei') as (ds & Hl' & Hds). by rewrite (llist_unique _ _ _ _ Hl Hl'). }
  assert (Hnp : forall x, x ∈ ds1 ++ c :: ds2 -> x <> pd).
  { intros x Hx ->. rewrite Forall_forall in Hold. destruct (Hold pd Hx) as [? E]. destruct (addr_fresh pd) as (_ & E2 & _); [set_solver|congruence]. }
  assert (Hdir : dir <> pd) by (intros ->; destruct (addr_fresh pd) as (_ & E & _); [set_solver|congruence]).
  exists dd, (di <| i_children := pd |>), (pd :: ds1), ds2. splits.
  - unfold v'. cbn. by rewrite lookup_insert_ne.
  - unfold v'. cbn. rewrite Eino, lookup_insert_ne by (pose proof created_ino; congruence). by rewrite lookup_insert_eq.
  - done.
  - by apply (created_children (ds1 ++ c :: ds2)).
  - rewrite created_dname, decide_False; [done|]. apply Hnp. set_solver.
  - intros x [->|Hx]%elem_of_cons; rewrite created_dname; [rewrite decide_True by done; congruence|].
    rewrite decide_False; [by apply Hf|]. apply Hnp. set_solver.
Qed.

Lemma created_child_back n c : n <> name -> is_child v' dir n c -> is_child v dir n c.
Proof.
  intros Hn (dd & di' & ds1 & ds2 & Edd & Ei' & Hop & Hl & Hc & Hf).
  pose proof dir_ok as (_ & (dd' & Edd' & Eino) & Ei & Eop).
  assert (Hdir : dir <> pd) by (intros ->; destruct (addr_fresh pd) as (_ & E & _); [set_solver|congruence]).
  assert (dd = dd') as -> by (revert Edd; unfold v'; cbn; rewrite lookup_insert_ne by done; congruence).
  assert (di' = di <| i_children := pd |>) as ->.
  { revert Ei'. unfold v'. cbn. rewrite Eino, lookup_insert_ne by (pose proof created_ino; congruence). rewrite lookup_insert_eq. congruence. }
  destruct (fo_children _ _ v_ok ino di Ei) as (ds & Hld & Hds).
  pose proof (created_children ds Hld Hds) as Hl'. pose proof (llist_unique _ _ _ _ Hl Hl') as E.
  assert (Hcp : c <> pd) by (intros ->; rewrite created_dname, decide_True in Hc by done; congruence).
  destruct ds1 as [|x ds1]; cbn in E; injection E as Ex E; [done|]. subst x.
  exists dd', di, ds1, ds2. splits; [done|by rewrite Eino|done|by rewrite E| |].
  - rewrite created_dname, decide_False in Hc by done. done.
  - intros x Hx. specialize (Hf x). rewrite created_dname in Hf. rewrite decide_False in Hf; [apply Hf; by right|]. intros ->.
    assert (Hin : pd ∈ ds) by (rewrite <- E; set_solver). rewrite Forall_forall in Hds. destruct (Hds pd Hin) as [? E2].
    destruct (addr_fresh pd) as (_ & E3 & _); [set_solver|congruence].
Qed.

(** An inode of [v] has its private data and operations in [v']. *)
Lemma created_inode q i : inodes v !! q = Some i ->
  exists i', inodes v' !! q = Some i' /\ i_private i' = i_private i /\ i_fop i' = i_fop i.
Proof.
  intros Ei. pose proof dir_ok as (_ & _ & Ed & _).
  assert (Hq : q <> pi) by (intros ->; destruct (addr_fresh pi) as (E & _); [set_solver|congruence]).
  unfold v'. cbn. rewrite lookup_insert_ne by done. destruct (decide (q = ino)) as [->|Hne].
  - rewrite lookup_insert_eq. simplify_eq. eauto.
  - rewrite lookup_insert_ne by done. eauto.
Qed.

Lemma created_dentry q de : dentries v !! q = Some de -> dentries v' !! q = Some de.
Proof.
  intros Ed. unfold v'. cbn. rewrite lookup_insert_ne; [done|]. intros <-. destruct (addr_fresh pd) as (_ & E & _); [set_solver|congruence].
Qed.

Lemma created_mem_entry c p : mem_entry v c p -> mem_entry v' c p.
Proof.
  intros (Hc & de & i & Ed & Hi0 & Ei & Ep & Hp & Eop). split; [done|]. destruct (created_inode _ _ Ei) as (i' & Ei' & Ep' & Eop').
  exists de, i'. rewrite (created_dentry _ _ Ed). splits; [done..|congruence|done|congruence].
Qed.

Lemma created_handle f p pos : handle v f p pos -> handle v' f p pos.
Proof.
  intros (x & de & i & Ef & H1 & H2 & H3 & Ed & H4 & Ei & H5 & H6). destruct (created_inode _ _ Ei) as (i' & Ei' & Ep' & Eop').
  exists x, de, i'. rewrite (created_dentry _ _ Ed). splits; try done; [|congruence].
  unfold v'. cbn. rewrite lookup_insert_ne; [done|]. intros <-. destruct (addr_fresh pf) as (_ & _ & _ & E & _); [set_solver|congruence].
Qed.

Lemma created_new_entry : mem_entry v' pd pm /\ handle v' pf pm 0.
Proof.
  destruct addrs as [_ Ha]. assert (Hp : pd <> 0 /\ pi <> 0 /\ pm <> 0) by (splits; apply Ha; set_solver). destruct Hp as (Hpd & Hpi & Hpm).
  split.
  - split; [done|]. unfold v'. cbn. rewrite lookup_insert_eq. do 2 eexists. split; [done|]. cbn. split; [done|]. rewrite lookup_insert_eq. done.
  - exists (mk_file pd 0 0 MEMFS_OPS 0), (mk_dentry pn pi dir (i_children di)), (mk_inode (vfs_ino_next v) mode 0 1 0 0 MEMFS_OPS pm 0).
    unfold v'. cbn. rewrite !lookup_insert_eq. done.
Qed.

Lemma created_roots_ok : roots_ok v -> roots_ok v'.
Proof.
  intros [[Hr Hr0] Hn Hm]. split.
  - split; [by apply created_entry_old|done].
  - done.
  - intros mp sb Hin. destruct (Hm mp sb Hin) as (H1 & b & Eb & Hb & Hb0). split; [done|]. exists b. splits; [done|by apply created_entry_old|done].
Qed.
End state.

(** ** The call *)

Lemma find_home v path sb rest : roots_ok v -> cstr path -> mount_of (mounts v) path (Some sb) rest -> vfs_find_mount path v = (sb, rest).
Proof.
  intros Hr Hp Hm. pose proof (find_mount_of (mounts v) path Hp (ro_names _ Hr)) as Hf. unfold vfs_find_mount.
  destruct (find_mount_loop _ _ _ _) as [o n]. by destruct (mount_of_fun _ _ _ _ _ _ Hm Hf) as [<- <-].
Qed.

Lemma malloc_al w a0 L k n : mem w = a0 -> al_ok a0 L k -> 0 < n <= 0xFFFFE000 -> n + 40 <= k ->
  exists p a, malloc n w = Some (p, w <| mem := a |>) /\ p <> 0 /\ (p ∉ L) /\ al_ok a ({[p]} ∪ L) (k - (n + 40)).
Proof.
  intros <- Ha Hn Hk. destruct (malloc_room w ∅ L k n) as (p & a & E & Hp & HpL & Ha' & _); [by split; [|set_solver]|done|done|]. eauto 10.
Qed.

Lemma free_al w a0 L k p : mem w = a0 -> al_ok a0 L k -> p ∈ L -> exists a, free p w = Some (w <| mem := a |>) /\ al_ok a (L ∖ {[p]}) k.
Proof. intros <- Ha Hp. destruct (al_free_spec _ _ _ _ Ha Hp) as (a & E & Ha'). exists a. unfold free. by rewrite E. Qed.

(** Addresses allocated one after the other. *)
Lemma fresh_five (T : gmap Z kind) (L : gset Z) pd pn pi pm pf :
  dom T ⊆ L -> pd ∉ L -> pn ∉ {[pd]} ∪ L -> pi ∉ {[pn]} ∪ ({[pd]} ∪ L) -> pm ∉ {[pi]} ∪ ({[pn]} ∪ ({[pd]} ∪ L)) ->
  pf ∉ {[pm]} ∪ ({[pi]} ∪ ({[pn]} ∪ ({[pd]} ∪ L))) -> pd <> 0 -> pn <> 0 -> pi <> 0 -> pm <> 0 -> pf <> 0 ->
  NoDup [pd; pn; pi; pm; pf] /\ forall x, x ∈ [pd; pn; pi; pm; pf] -> T !! x = None /\ x <> 0.
Proof.
  intros HT. rewrite !not_elem_of_union, !not_elem_of_singleton. intros N1 [? N2] (? & ? & N3) (? & ? & ? & N4) (? & ? & ? & ? & N5) ? ? ? ? ?.
  assert (Hn : forall x, x ∉ L -> T !! x = None) by (intros x Hx; apply not_elem_of_dom; set_solver). split.
  - rewrite !NoDup_cons, !not_elem_of_cons. splits; auto using not_elem_of_nil, NoDup_nil_2.
  - apply Forall_forall. rewrite !Forall_cons, Forall_nil. splits; auto.
Qed.

(** The next allocation succeeds. *)
Ltac alloc Ha p Hp HpL :=
  match goal with |- context [malloc ?n ?w] =>
    let a := fresh "a" in let Ha' := fresh in
    destruct (malloc_al w _ _ _ n eq_refl Ha) as (p & a & -> & Hp & HpL & Ha'); [lia..|];
    clear Ha; rename Ha' into Ha; cbn [mbind option_bind]; destruct (Z.eqb_spec p 0) as [?|_]; [done|] end.

(** The steps of a creation, on any state. *)
Lemma new_dentry_state w L k name dir dd di :
  dentries w !! dir = Some dd -> inodes w !! d_inode dd = Some di -> dir <> 0 -> al_ok (mem w) L k -> strlen name <= 4096 -> strlen name + 101 <= k ->
  exists pd pn a, vfs_new_dentry name 0 dir w =
      Some (pd, set_inode (d_inode dd) (di <| i_children := pd |>)
                  (set_dentry pd (mk_dentry pn 0 dir (i_children di)) (w <| mem := a |> <| names := <[pn := name]> (names w) |>))) /\
    pd <> 0 /\ pn <> 0 /\ (pd ∉ L) /\ (pn ∉ {[pd]} ∪ L) /\ al_ok a ({[pn]} ∪ ({[pd]} ∪ L)) (k - (strlen name + 101)).
Proof.
  destruct w. cbn. intros Edd Ei Hd0 Ha Hl Hk. pose proof (strlen_nonneg name). unfold vfs_new_dentry, SIZEOF_DENTRY.
  alloc Ha pd Hpd HpdL. cbn. alloc Ha pn Hpn HpnL. cbn. destruct (Z.eqb_spec dir 0) as [?|_]; [done|]. cbn. rewrite Edd. cbn. rewrite Ei. cbn.
  eexists pd, pn, _. split; [done|]. splits; [done..|]. eapply al_weaken; [exact Ha|lia].
Qed.

Lemma memfs_create_state w L k dirino d mode de :
  dentries w !! d = Some de -> al_ok (mem w) L k -> 136 <= k ->
  exists pi pm a, memfs_create dirino d mode w =
      Some (0, w <| mem := a |> <| inodes := <[pi := mk_inode (vfs_ino_next w) mode 0 1 0 0 MEMFS_OPS pm 0]> (inodes w) |>
                 <| dentries := <[d := de <| d_inode := pi |>]> (dentries w) |>
                 <| memnodes := <[pm := mk_memfs 0 0 0]> (memnodes w) |> <| vfs_ino_next := vfs_ino_next w +w 1 |>) /\
    pi <> 0 /\ pm <> 0 /\ (pi ∉ L) /\ (pm ∉ {[pi]} ∪ L) /\ al_ok a ({[pm]} ∪ ({[pi]} ∪ L)) (k - 136).
Proof.
  destruct w. cbn. intros Ed Ha Hk. unfold memfs_create, memfs_alloc_inode, vfs_new_inode, SIZEOF_INODE, SIZEOF_MEMFS_INODE.
  alloc Ha pi Hpi HpiL. cbn. destruct (Z.eqb_spec pi 0) as [?|_]; [done|]. alloc Ha pm Hpm HpmL. cbn. rewrite lookup_insert_eq. cbn.
  destruct (Z.eqb_spec pi 0) as [?|_]; [done|]. rewrite lookup_insert_eq. cbn. rewrite Ed. cbn. unfold set_dentry, set_inode, set_memnode. cbn. rewrite !insert_insert_eq.
  eexists pi, pm, _. split; [done|]. splits; [done..|]. eapply al_weaken; [exact Ha|lia].
Qed.

Lemma open_new_state w L k d pi i : inodes w !! pi = Some i -> i_fop i = MEMFS_OPS -> i_private i <> 0 -> al_ok (mem w) L k -> 64 <= k ->
  exists pf a, open_dentry fops d pi 0 w = Some (pf, w <| mem := a |> <| files := <[pf := mk_file d 0 0 MEMFS_OPS 0]> (files w) |>) /\
    pf <> 0 /\ (pf ∉ L) /\ al_ok a ({[pf]} ∪ L) (k - 64).
Proof.
  destruct w. cbn. intros Ei Eop Hp Ha Hk. unfold open_dentry, SIZEOF_FILE. alloc Ha pf Hpf HpfL. cbn. rewrite Ei. cbn. rewrite Eop.
  change (fops MEMFS_OPS) with (Some (@memfs_fops A _)). cbn. unfold memfs_open. cbn. rewrite Ei. cbn.
  destruct (Z.eqb_spec (i_private i) 0) as [?|_]; [done|]. rewrite lookup_insert_eq. cbn.
  eexists pf, _. split; [done|]. splits; [done..|]. eapply al_weaken; [exact Ha|lia].
Qed.

Section call.
Context (v : vfs A) (T : gmap Z kind) (L : gset Z) (k : Z) (path : list Z) (sb : Z) (b : super_block) (dir ino : Z) (di : inode) (name : list Z) (mode : Z).
Hypothesis v_ok : fs_ok v T.
Hypothesis r_ok : roots_ok v.
Hypothesis m_ok : mem_ok v T L k.
Hypothesis path_ok : cstr path.
Hypothesis mount_ok : mount_of (mounts v) path (Some sb) (SLASH :: name).
Hypothesis super_ok : supers v !! sb = Some b /\ s_root b = dir.
Hypothesis dir_ok : mem_dir v dir ino di.
Hypothesis name_good : name_ok name.
Hypothesis name_len : strlen name <= 4096.
Hypothesis room_ok : create_room name <= k.

(** Up to the search for the name in the directory. *)
Lemma create_search :
  exists copy old a, copy <> 0 /\ (copy ∉ L) /\ mem_ok (v <| mem := a |>) T ({[copy]} ∪ L) (k - (2 * strlen name + 143)) /\
    found old (is_child v dir name) /\
    vfs_create iops_at fops path mode v =
      (let v := v <| mem := a |> in
       if negb (old =? 0) then v ← free copy v; Some (0, v)
       else
         '(d, v) ← vfs_new_dentry name 0 dir v;
         v ← free copy v;
         if d =? 0 then Some (0, v)
         else
           dd ← dentries v !! dir;
           di ← inodes v !! d_inode dd;
           '(r, v) ← (match iops_at (i_op di) ≫= op_create with
                      | None => Some (-1, v)
                      | Some create => create (d_inode dd) d mode v
                      end);
           if negb (r =? 0) then v ← vfs_free_dentry d v; Some (0, v)
           else de ← dentries v !! d; open_dentry fops d (d_inode de) 0 v).
Proof.
  destruct super_ok as [Eb Er]. pose proof dir_ok as (Hd0 & (dd & Edd & Eino) & Ei & Eop). destruct name_good as (Hne & Hcn & Hsl).
  pose proof (strlen_nonneg name) as Hn0. unfold create_room in room_ok.
  assert (Hpne : path <> []) by (destruct mount_ok as [(? & _)|(mp & ? & ? & ? & _ & _ & ? & -> & _)]; [done|by destruct mp]).
  assert (E0 : (char_at path 0 =? 0) = false) by (apply Z.eqb_neq; by rewrite char_at_nil).
  assert (Hsb : sb <> 0). { destruct mount_ok as [(? & _)|(mp & sb' & ms1 & ms2 & [= <-] & Ems & _)]; [done|].
    destruct (ro_mounts _ r_ok mp sb) as [? _]; [rewrite Ems; apply elem_of_app; right; left|done]. }
  destruct (malloc_room v T L k (strlen (SLASH :: name) + 1) m_ok) as (copy & a & Em & Hc0 & HcL & Hm1); [unfold strlen in *; cbn [length]; lia..|].
  destruct (lookup_component_spec (v <| mem := a |>) T _ _ dir name (fs_ok_mem _ _ _ v_ok) Hm1) as (old & a1 & El & Hm2 & Hf);
    [cbn; eauto|done|done|unfold strlen in *; cbn [length]; lia|].
  exists copy, old, a1. splits; [done|done|eapply mem_ok_weaken; [exact Hm2|unfold strlen in *; cbn [length]; lia]|exact Hf|].
  unfold vfs_create. rewrite E0. destruct (ro_root _ r_ok) as [_ Hr0]. destruct (Z.eqb_spec (vfs_root v) 0) as [?|_]; [done|]. cbn [orb].
  rewrite (find_home v path sb (SLASH :: name)) by done. destruct (Z.eqb_spec sb 0) as [?|_]; [done|]. cbn [negb]. rewrite Eb. cbn [mbind option_bind].
  rewrite Er. destruct (Z.eqb_spec dir 0) as [?|_]; [done|]. cbn [negb]. rewrite Em. cbn [mbind option_bind].
  destruct (Z.eqb_spec copy 0) as [?|_]; [done|].
  assert (Ea : after_last_slash (SLASH :: name) 0 0 = 1%nat) by (cbn [after_last_slash]; change (SLASH =? SLASH) with true; by apply after_last_none).
  rewrite Ea. cbn [drop Nat.ltb Nat.leb Nat.sub take]. rewrite drop_0. change (char_at [] 0 =? 0) with true.
  destruct (char_at_name name) as [-> _]; [done|]. cbn [mbind option_bind]. destruct (Z.eqb_spec dir 0) as [?|_]; [done|]. rewrite El. done.
Qed.

(** The name exists: nothing is created. *)
Lemma vfs_create_exists c : is_child v dir name c ->
  exists a, vfs_create iops_at fops path mode v = Some (0, v <| mem := a |>) /\ mem_ok (v <| mem := a |>) T L (k - create_room name).
Proof.
  intros Hc. destruct create_search as (copy & old & a & Hc0 & HcL & Hm & Hf & ->). cbv zeta.
  destruct Hf as [[-> Hno]|[Hold _]]; [by destruct (Hno c)|]. destruct (Z.eqb_spec old 0) as [?|_]; [done|]. cbn [negb].
  destruct m_ok as [_ HT]. destruct (free_temp _ _ _ _ copy Hm) as (a' & -> & Hm'); [set_solver..|]. cbn [mbind option_bind].
  exists a'. split; [done|]. destruct Hm' as [Ha' _]. split; [|done].
  replace (({[copy]} ∪ L) ∖ {[copy]}) with L in Ha' by set_solver. eapply al_weaken; [exact Ha'|].
  pose proof (strlen_nonneg name). unfold create_room. lia.
Qed.

(** The name is new. *)
Lemma vfs_create_new : (forall c, ~ is_child v dir name c) ->
  exists a pd pn pi pm pf L', let v' := created v a dir ino di name mode pd pn pi pm pf in
    vfs_create iops_at fops path mode v = Some (pf, v') /\
    (NoDup [pd; pn; pi; pm; pf] /\ forall x, x ∈ [pd; pn; pi; pm; pf] -> T !! x = None /\ x <> 0) /\
    mem_ok v' (kinds_after T pd pn pi pm pf) L' (k - create_room name).
Proof.
  intros Hno. destruct create_search as (copy & old & a & Hc0 & HcL & Hm & Hf & ->). cbv zeta.
  destruct Hf as [[-> _]|[_ Hold]]; [|by destruct (Hno old)]. cbn [Z.eqb negb]. destruct Hm as [Ha _]. destruct m_ok as [_ HT].
  pose proof dir_ok as (Hd0 & (dd & Edd & Eino) & Ei & Eop). pose proof (strlen_nonneg name) as Hn0. unfold create_room in *.
  match goal with |- context [vfs_new_dentry name 0 dir ?w] =>
    destruct (new_dentry_state w _ _ name dir dd di Edd ltac:(by rewrite Eino) Hd0 Ha name_len) as
      (pd & pn & a1 & -> & Hpd & Hpn & HpdL & HpnL & Ha1); [lia|] end. cbn [mbind option_bind]. rewrite Eino.
  set (v1 := set_inode _ _ _). destruct (free_al v1 a1 _ _ copy eq_refl Ha1) as (a2 & -> & Ha2); [set_solver|]. cbn [mbind option_bind].
  replace (({[pn]} ∪ ({[pd]} ∪ ({[copy]} ∪ L))) ∖ {[copy]}) with ({[pn]} ∪ ({[pd]} ∪ L)) in Ha2 by (clear - HcL HpdL HpnL; set_solver).
  destruct (Z.eqb_spec pd 0) as [?|_]; [done|].
  assert (Hdd : dir <> pd).
  { intros ->. assert (pd ∈ dom T) by (apply elem_of_dom; exists KDentry; apply (fo_dentry _ _ v_ok); eauto). set_solver. }
  change (dentries (v1 <| mem := a2 |>)) with (<[pd := mk_dentry pn 0 dir (i_children di)]> (dentries v)).
  rewrite lookup_insert_ne by done. rewrite Edd. cbn [mbind option_bind]. rewrite Eino.
  change (inodes (v1 <| mem := a2 |>)) with (<[ino := di <| i_children := pd |>]> (inodes v)). rewrite lookup_insert_eq. cbn [mbind option_bind].
  change (i_op (di <| i_children := pd |>)) with (i_op di). rewrite Eop. cbn [iops_at MEMFS_OPS Z.eqb Pos.eqb mbind option_bind op_create memfs_iops].
  match goal with |- context [memfs_create ino pd mode ?w] =>
    destruct (memfs_create_state w _ _ ino pd mode (mk_dentry pn 0 dir (i_children di))
      (lookup_insert_eq (dentries v) pd _) Ha2) as (pi & pm & a3 & -> & Hpi & Hpm & HpiL & HpmL & Ha3); [lia|] end.
  cbn [mbind option_bind Z.eqb negb]. set (v2 := _ <| vfs_ino_next := _ |>).
  change (dentries v2) with (<[pd := mk_dentry pn pi dir (i_children di)]> (<[pd := mk_dentry pn 0 dir (i_children di)]> (dentries v))).
  rewrite lookup_insert_eq. cbn [mbind option_bind d_inode].
  destruct (open_new_state v2 _ _ pd pi (mk_inode (vfs_ino_next v) mode 0 1 0 0 MEMFS_OPS pm 0) (lookup_insert_eq _ pi _) eq_refl Hpm Ha3)
    as (pf & a4 & -> & Hpf & HpfL & Ha4); [lia|].
  eexists a4, pd, pn, pi, pm, pf, _. split; [|split; [|split; [eapply al_weaken; [exact Ha4|lia]|]]].
  - f_equal. f_equal. unfold v2, v1, created. clear. destruct v. cbn. by rewrite insert_insert_eq.
  - apply (fresh_five T L); try done; [clear - HpdL; set_solver|clear - HpnL; set_solver].
  - unfold kinds_after. rewrite !dom_insert. clear - HT HcL. set_solver.
Qed.
End call.
End create.
