(* ===== verification/FileStore.v ===== *)
(** * The files of memfs as a map from names to contents

    [fs_rel] relates the file systems in the heap to an abstract store: a map from names to
    contents ([None]: never written) and a table of open files, each a name and a position.
    Every call of the VFS on files of memfs is a step of that store. *)

From S2P Require Import Prelude LList Cstr Heap HeapInv HeapSpec HeapTheorems Alloc Vfs Memfs VfsInv VfsTheorems MemfsTheorems FileOps FileCreate.

Definition is_byte (b : Z) : Prop := 0 <= b < 256.

Lemma patch_length off bs c : 0 <= off <= strlen c -> strlen (patch off bs c) = Z.max (strlen c) (off + strlen bs).
Proof. intros Ho. unfold patch, strlen in *. rewrite !length_app, length_take, length_drop. lia. Qed.

Lemma patch_bytes off bs c : Forall is_byte bs -> Forall is_byte c -> Forall is_byte (patch off bs c).
Proof. intros H1 H2. unfold patch. apply Forall_app. split; [by apply Forall_take|]. apply Forall_app. split; [done|by apply Forall_drop]. Qed.

Section store.
Context {A : Type} `{Allocator A}.
Implicit Types (v : vfs A) (F : gmap (list Z) (option (list Z))) (D : list (option (list Z * Z))) (nodes : gmap (list Z) Z) (tbl : list Z).
Variable tarfs_fops : file_operations (vfs A).
Notation fops := (fops_at tarfs_fops).

(** Where memfs is mounted. *)
Variable home : list Z.
Definition home_path (name : list Z) : list Z := home ++ SLASH :: name.

(** The private data at [p] hold [o]. *)
Definition node_is v (p : Z) (o : option (list Z)) : Prop :=
  exists n, memnodes v !! p = Some n /\
    match o with None => m_data n = 0 | Some c => m_data n <> 0 /\ content v p = Some c /\ Forall is_byte c end.

Definition home_dir v (sb dir ino : Z) (di : inode) : Prop :=
  (exists b, supers v !! sb = Some b /\ s_root b = dir) /\ mem_dir v dir ino di /\
  forall name, name_ok name -> mount_of (mounts v) (home_path name) (Some sb) (SLASH :: name).

(** The entry of [name] in the directory. *)
Definition entry_is v (dir : Z) (name : list Z) (o : option Z) : Prop :=
  match o with Some p => exists c, is_child v dir name c /\ mem_entry v c p | None => forall c, ~ is_child v dir name c end.

Record fs_rel v (T : gmap Z kind) (L : gset Z) (k : Z) tbl F D nodes : Prop := {
  fr_fs : fs_ok v T;
  fr_roots : roots_ok v;
  fr_memfs : memfs_ok v;
  fr_mem : mem_ok v T L k;
  fr_dir : exists sb dir ino di, home_dir v sb dir ino di /\ forall name, name_ok name -> entry_is v dir name (nodes !! name);
  fr_dom name : is_Some (nodes !! name) <-> is_Some (F !! name);
  fr_inj n1 n2 p : nodes !! n1 = Some p -> nodes !! n2 = Some p -> n1 = n2;
  fr_data name p o : nodes !! name = Some p -> F !! name = Some o -> node_is v p o;
  fr_len : length D = length tbl;
  fr_fds i name pos : D !! i = Some (Some (name, pos)) ->
    exists f p o, tbl !! i = Some f /\ f <> 0 /\ nodes !! name = Some p /\ handle v f p pos /\ F !! name = Some o /\ 0 <= pos < 2 ^ 32;
  fr_closed i : D !! i = Some None -> tbl !! i = Some 0;
  fr_apart i j f : tbl !! i = Some f -> tbl !! j = Some f -> f <> 0 -> i = j;
}.

Lemma entry_is_tree v v' dir name o : same_tree v v' -> entry_is v dir name o -> entry_is v' dir name o.
Proof.
  intros Ht. destruct o as [p|]; cbn.
  - intros (c & Hc & He). exists c. split; [by eapply is_child_tree|by eapply mem_entry_tree].
  - intros Hn c Hc. apply (Hn c). eapply is_child_tree; [|exact Hc]. by apply same_tree_sym.
Qed.

Lemma home_dir_tree v v' sb dir ino di : same_tree v v' -> home_dir v sb dir ino di -> home_dir v' sb dir ino di.
Proof. intros [= E1 E2 E3 E4 _ _ _ _ _ E10]. unfold home_dir, mem_dir. by rewrite E1, E2, E4, E10. Qed.

Lemma fr_dir_tree v v' nodes : same_tree v v' ->
  (exists sb dir ino di, home_dir v sb dir ino di /\ forall name, name_ok name -> entry_is v dir name (nodes !! name)) ->
  exists sb dir ino di, home_dir v' sb dir ino di /\ forall name, name_ok name -> entry_is v' dir name (nodes !! name).
Proof.
  intros Ht (sb & dir & ino & di & Hh & He). exists sb, dir, ino, di. split; [by eapply home_dir_tree|].
  intros name Hn. eapply entry_is_tree; eauto.
Qed.

Lemma node_is_same v v' p o : node_is v p o -> memnodes v' !! p = memnodes v !! p -> content v' p = content v p -> node_is v' p o.
Proof. intros (n & En & Ho) E1 E2. exists n. by rewrite E1, E2. Qed.

Lemma node_size v p o n : memfs_ok v -> node_is v p o -> memnodes v !! p = Some n -> m_size n = strlen (default [] o) /\ content v p = Some (default [] o).
Proof.
  intros Hmo (n' & En' & Ho) En. assert (n' = n) as -> by congruence. pose proof (mo_size _ Hmo p n En). destruct o as [c|].
  - destruct Ho as (_ & Hc & _). split; [|done]. revert Hc. unfold content. rewrite En. cbn. intros [= <-]. rewrite copy_out_length; lia.
  - pose proof (mo_null _ Hmo p n En Ho). assert (E0 : m_size n = 0) by lia. split; [done|]. unfold content. rewrite En. cbn. by rewrite E0.
Qed.

(** What the table of open files says of one slot. *)
Definition slot_is v tbl F nodes (i : nat) (name : list Z) (pos : Z) : Prop :=
  exists f p o, tbl !! i = Some f /\ f <> 0 /\ nodes !! name = Some p /\ handle v f p pos /\ F !! name = Some o /\ 0 <= pos < 2 ^ 32.

(** A call on the open file [f] of slot [i] may change the position and the contents of files. *)
Lemma slots_update v v' T L k tbl F F' D nodes i f name0 pos0 :
  fs_rel v T L k tbl F D nodes -> same_tree v v' -> (forall q, q <> f -> files v' !! q = files v !! q) -> tbl !! i = Some f -> f <> 0 ->
  (forall name o, F !! name = Some o -> is_Some (F' !! name)) ->
  slot_is v' tbl F' nodes i name0 pos0 ->
  forall j name pos, <[i := Some (name0, pos0)]> D !! j = Some (Some (name, pos)) -> slot_is v' tbl F' nodes j name pos.
Proof.
  intros Hr Ht Hfl Hi Hf0 HF Hs j name pos Hj.
  apply list_lookup_insert_Some in Hj as [(<- & [= <- <-] & _)|[Hne Hj]]; [done|].
  destruct (fr_fds _ _ _ _ _ _ _ _ Hr j name pos Hj) as (g & p & o & Hg & Hg0 & Hn & Hh & Ho & Hp). destruct (HF name o Ho) as [o' Ho'].
  exists g, p, o'. splits; [done|done|done| |done|lia|lia]. eapply handle_keep; [exact Hh|done|]. apply Hfl. intros ->. apply Hne.
  by eapply (fr_apart _ _ _ _ _ _ _ _ Hr i j).
Qed.

Lemma closed_update v T L k tbl F D nodes i e : fs_rel v T L k tbl F D nodes ->
  forall j, <[i := Some e]> D !! j = Some None -> tbl !! j = Some 0.
Proof. intros Hr j [(_ & [=] & _)|[_ Hj]]%list_lookup_insert_Some. by apply (fr_closed _ _ _ _ _ _ _ _ Hr). Qed.

Section calls.
Context (v : vfs A) (T : gmap Z kind) (L : gset Z) (k : Z) (tbl : list Z) (F : gmap (list Z) (option (list Z))) (D : list (option (list Z * Z))) (nodes : gmap (list Z) Z).
Hypothesis rel : fs_rel v T L k tbl F D nodes.

(** [vfs_write] of at least one byte. *)
Lemma fs_write i name pos f o bs :
  D !! i = Some (Some (name, pos)) -> tbl !! i = Some f -> F !! name = Some o ->
  pos <= strlen (default [] o) -> 0 < strlen bs -> Forall is_byte bs -> 2 * (pos + strlen bs) + 104 <= k -> k <= 2 ^ 31 ->
  exists v' T' L', vfs_write fops f bs v = Some (strlen bs, v') /\
    fs_rel v' T' L' (k - (2 * (pos + strlen bs) + 104)) tbl (<[name := Some (patch pos bs (default [] o))]> F) (<[i := Some (name, pos + strlen bs)]> D) nodes.
Proof.
  intros Hi Hf Ho Hend Hlen Hbs Hk Hk31. destruct rel as [Hv Hr Hmo Hm Hd Hdom Hinj Hdata Hl Hfds Hcl Hap].
  destruct (Hfds i name pos Hi) as (f' & p & o' & Hf' & Hf0 & Hn & Hh & Ho' & Hpos). simplify_eq.
  pose proof (Hdata name p o Hn Ho) as Hnode. pose proof Hnode as (n & En & Hno).
  destruct (node_size v p o n Hmo Hnode En) as [Hsz Hc].
  destruct (vfs_write_spec tarfs_fops v T L k f p pos n (default [] o) bs) as
    (gap & v' & T' & L' & E & Hgap & Hv' & Hmo' & Hm' & Hh' & Hc' & Hoth & Ht & Hfl & Hnl); try done; [lia|lia|].
  assert (gap = []) as -> by (unfold strlen in *; destruct gap; [done|cbn [length] in Hgap; lia]). rewrite app_nil_r in Hc'.
  exists v', T', L'. split; [done|]. set (c' := patch pos bs (default [] o)) in *.
  assert (Hlc : strlen c' = Z.max (strlen (default [] o)) (pos + strlen bs)) by (apply patch_length; lia).
  assert (HF : forall nm x, F !! nm = Some x -> is_Some (<[name := Some c']> F !! nm)).
  { intros nm x Hx. rewrite lookup_insert_is_Some'. right. eauto. }
  split; try done.
  - by eapply roots_ok_tree.
  - by eapply fr_dir_tree.
  - intros nm. rewrite Hdom, lookup_insert_is_Some'. split; [tauto|]. intros [<-|?]; [eauto|done].
  - intros nm q x Hq [[<- <-]|[Hne Hx]]%lookup_insert_Some.
    + simplify_eq. apply bind_Some in Hc' as Hc2. destruct Hc2 as (n' & En' & _). exists n'. split; [done|]. splits; [|done|].
      * eapply content_data; [done|done|exact Hc'|]. intros E0. rewrite E0 in Hlc. unfold strlen at 1 in Hlc. cbn in Hlc. lia.
      * apply patch_bytes; [done|]. destruct o as [c|]; cbn; [apply Hno|constructor].
    + assert (q <> p) by (intros ->; by eapply Hne, Hinj). eapply node_is_same; [by apply (Hdata nm)|by apply Hnl|by apply Hoth].
  - by rewrite length_insert.
  - eapply slots_update; try done. exists f, p, (Some c'). rewrite lookup_insert_eq. splits; try done; cbn [default id]; lia.
  - by eapply closed_update.
Qed.

(** A call that touches [f] only and no contents. *)
Lemma fs_touch v' T' L' k' i f name pos0 pos :
  D !! i = Some (Some (name, pos0)) -> tbl !! i = Some f -> touched v v' f (memnodes v) -> fs_ok v' T' -> mem_ok v' T' L' k' ->
  (forall p, nodes !! name = Some p -> handle v' f p pos) -> 0 <= pos < 2 ^ 32 ->
  fs_rel v' T' L' k' tbl F (<[i := Some (name, pos)]> D) nodes.
Proof.
  intros Hi Hf (Ht & E1 & E2 & Hfl) Hv' Hm' Hh' Hpos. destruct rel as [Hv Hr Hmo Hm Hd Hdom Hinj Hdata Hl Hfds Hcl Hap].
  destruct (Hfds i name pos0 Hi) as (f' & p & o & Hf' & Hf0 & Hn & _ & Ho & _). simplify_eq. split; try done.
  - by eapply roots_ok_tree.
  - by apply (memfs_ok_data v).
  - by eapply fr_dir_tree.
  - intros nm q x Hq Hx. eapply node_is_same; [by apply (Hdata nm)|by rewrite E1|unfold content; by rewrite E1, E2].
  - by rewrite length_insert.
  - eapply slots_update; try done. exists f, p, o. splits; auto; lia.
  - by eapply closed_update.
Qed.

Lemma fs_write_nothing i name pos f o0 :
  D !! i = Some (Some (name, pos)) -> tbl !! i = Some f -> F !! name = Some o0 -> pos <= strlen (default [] o0) ->
  exists v', vfs_write fops f [] v = Some (0, v') /\ fs_rel v' T L k tbl F D nodes.
Proof.
  intros Hi Hf Ho0 Hend. destruct (fr_fds _ _ _ _ _ _ _ _ rel i name pos Hi) as (f' & p & o & Hf' & Hf0 & Hn & Hh & Ho & Hpos). simplify_eq.
  pose proof (fr_data _ _ _ _ _ _ _ _ rel name p o0 Hn Ho0) as Hnode. pose proof Hnode as (n & En & _). pose proof (fr_memfs _ _ _ _ _ _ _ _ rel) as Hmo.
  destruct (node_size v p o0 n Hmo Hnode En) as [Hsz _].
  destruct (vfs_write_nothing tarfs_fops v f p pos n) as (v' & E & Hh' & Ht & Em & Hfl); try done; [lia|]. exists v'. split; [done|].
  rewrite <- (list_insert_id D i (Some (name, pos))) by done. eapply fs_touch; try done.
  - pose proof (fr_fs _ _ _ _ _ _ _ _ rel) as Hv. pose proof Ht as (Ht' & E1 & E2 & _). apply (fs_ok_bufs v _ T); try done; [by rewrite E1|].
    rewrite E2. apply (fo_buf _ _ Hv).
  - pose proof (fr_mem _ _ _ _ _ _ _ _ rel) as Hm. unfold mem_ok in *. by rewrite Em.
  - intros q Hq. by simplify_eq.
Qed.

Lemma fs_read i name pos f c len :
  D !! i = Some (Some (name, pos)) -> tbl !! i = Some f -> F !! name = Some (Some c) -> 0 <= len < 2 ^ 32 ->
  exists v', let r := take (Z.to_nat len) (drop (Z.to_nat pos) c) in
    vfs_read fops f len v = Some (strlen r, r, v') /\ Forall is_byte r /\ strlen r <= len /\
    fs_rel v' T L k tbl F (<[i := Some (name, pos + strlen r)]> D) nodes.
Proof.
  intros Hi Hf Hc Hlen. destruct (fr_fds _ _ _ _ _ _ _ _ rel i name pos Hi) as (f' & p & o & Hf' & Hf0 & Hn & Hh & Ho & Hpos). simplify_eq.
  pose proof (fr_data _ _ _ _ _ _ _ _ rel name p _ Hn Hc) as Hnode. pose proof Hnode as (n & En & Hd0 & Hcc & Hb). pose proof (fr_memfs _ _ _ _ _ _ _ _ rel) as Hmo.
  destruct (node_size v p _ n Hmo Hnode En) as [Hsz _]. pose proof (mo_size _ Hmo p n En). pose proof (mo_cap _ Hmo p n En) as [Hcap _]. cbn [default id] in *.
  destruct (vfs_read_spec tarfs_fops v T L k f p pos n c len) as (v' & E & Hh' & Ht & Hv' & Hm'); try done; [apply rel|apply rel|lia|].
  exists v'. cbv zeta in *. set (r := take _ _) in *. assert (Hr : strlen r <= len /\ pos + strlen r <= Z.max pos (strlen c)).
  { unfold r, strlen in *. rewrite length_take, length_drop. lia. }
  splits; [done|by apply Forall_take, Forall_drop|lia|]. eapply fs_touch; try done.
  - intros q Hq. by simplify_eq.
  - unfold strlen in *. lia.
Qed.

Lemma fs_read_unwritten i name pos f len :
  D !! i = Some (Some (name, pos)) -> tbl !! i = Some f -> F !! name = Some None -> vfs_read fops f len v = Some (-1, [], v).
Proof.
  intros Hi Hf Hc. destruct (fr_fds _ _ _ _ _ _ _ _ rel i name pos Hi) as (f' & p & o & Hf' & Hf0 & Hn & Hh & Ho & Hpos). simplify_eq.
  destruct (fr_data _ _ _ _ _ _ _ _ rel name p _ Hn Hc) as (n & En & Hd0). by eapply vfs_read_unwritten.
Qed.

(** ** Files that are open and not in the table *)

Lemma slots_keep v' F' : same_tree v v' -> (forall f, f ∈ tbl -> f <> 0 -> files v' !! f = files v !! f) ->
  (forall name o, F !! name = Some o -> is_Some (F' !! name)) ->
  forall j name pos, D !! j = Some (Some (name, pos)) -> slot_is v' tbl F' nodes j name pos.
Proof.
  intros Ht Hfl HF j name pos Hj. destruct (fr_fds _ _ _ _ _ _ _ _ rel j name pos Hj) as (g & p & o & Hg & Hg0 & Hn & Hh & Ho & Hp).
  destruct (HF name o Ho) as [o' Ho']. exists g, p, o'. splits; [done|done|done| |done|lia|lia].
  eapply handle_keep; [exact Hh|done|]. apply Hfl; [|done]. by apply list_elem_of_lookup_2 in Hg.
Qed.

(** [f] goes into slot [i]. *)
Lemma fs_register i f name p o :
  D !! i = Some None -> f <> 0 -> f ∉ tbl -> nodes !! name = Some p -> handle v f p 0 -> F !! name = Some o ->
  fs_rel v T L k (<[i := f]> tbl) F (<[i := Some (name, 0)]> D) nodes.
Proof.
  intros Hi Hf0 Hft Hn Hh Ho. destruct rel as [Hv Hr Hmo Hm Hd Hdom Hinj Hdata Hl Hfds Hcl Hap]. pose proof (lookup_lt_Some _ _ _ Hi) as Hlt.
  split; try done.
  - by rewrite !length_insert.
  - intros j nm pos [(<- & [= <- <-] & _)|[Hne Hj]]%list_lookup_insert_Some.
    + exists f, p, o. rewrite list_lookup_insert_eq by lia. splits; done || lia.
    + destruct (Hfds j nm pos Hj) as (g & Hg). exists g. rewrite list_lookup_insert_ne by done. exact Hg.
  - intros j [(<- & [=] & _)|[Hne Hj]]%list_lookup_insert_Some. rewrite list_lookup_insert_ne by done. by apply Hcl.
  - intros j1 j2 g [(<- & -> & _)|[Hne1 H1]]%list_lookup_insert_Some [(<- & Eg & _)|[Hne2 H2]]%list_lookup_insert_Some Hg0; try done.
    + destruct Hft. by apply list_elem_of_lookup_2 in H2.
    + subst g. destruct Hft. by apply list_elem_of_lookup_2 in H1.
    + by apply (Hap j1 j2 g).
Qed.

(** Slot [i] is emptied. *)
Lemma fs_unregister i e : D !! i = Some (Some e) -> fs_rel v T L k (<[i := 0]> tbl) F (<[i := None]> D) nodes.
Proof.
  intros Hi. destruct rel as [Hv Hr Hmo Hm Hd Hdom Hinj Hdata Hl Hfds Hcl Hap]. pose proof (lookup_lt_Some _ _ _ Hi) as Hlt. split; try done.
  - by rewrite !length_insert.
  - intros j nm pos [(_ & [=] & _)|[Hne Hj]]%list_lookup_insert_Some. destruct (Hfds j nm pos Hj) as (g & Hg). exists g.
    rewrite list_lookup_insert_ne by done. exact Hg.
  - intros j [(<- & _ & _)|[Hne Hj]]%list_lookup_insert_Some; [apply list_lookup_insert_eq; lia|]. rewrite list_lookup_insert_ne by done. by apply Hcl.
  - intros j1 j2 g [(<- & -> & _)|[Hne1 H1]]%list_lookup_insert_Some [(<- & Eg & _)|[Hne2 H2]]%list_lookup_insert_Some Hg0; try done.
    by apply (Hap j1 j2 g).
Qed.

(** A state in which only files outside of the table changed. *)
Lemma fs_outside v' T' L' k' F' : same_tree v v' -> fs_ok v' T' -> memfs_ok v' -> mem_ok v' T' L' k' ->
  (forall f, f ∈ tbl -> f <> 0 -> files v' !! f = files v !! f) ->
  (forall name, is_Some (F' !! name) <-> is_Some (F !! name)) ->
  (forall name p o, nodes !! name = Some p -> F' !! name = Some o -> node_is v' p o) ->
  (forall j name pos, D !! j = Some (Some (name, pos)) -> slot_is v' tbl F' nodes j name pos) -> fs_rel v' T' L' k' tbl F' D nodes.
Proof.
  intros Ht Hv' Hmo' Hm' Hfl HF Hdata' Hs. destruct rel as [Hv Hr Hmo Hm Hd Hdom Hinj Hdata Hl Hfds Hcl Hap]. split; try done.
  - by eapply roots_ok_tree.
  - by eapply fr_dir_tree.
  - intros nm. by rewrite HF.
Qed.

Lemma fs_close f p pos : f <> 0 -> f ∉ tbl -> handle v f p pos ->
  exists v' T' L', Vfs.vfs_close fops f v = Some (0, v') /\ fs_rel v' T' L' k tbl F D nodes.
Proof.
  intros Hf0 Hft Hh. destruct (vfs_close_spec tarfs_fops v T L k f p pos) as (v' & T' & L' & E & (Ht & E1 & E2 & Hfl) & _ & Hv' & Hm'); try done; try apply rel.
  exists v', T', L'. split; [done|]. assert (Hfl' : forall g, g ∈ tbl -> g <> 0 -> files v' !! g = files v !! g) by (intros g Hg _; apply Hfl; by intros ->).
  apply fs_outside; try done.
  - apply (memfs_ok_data v); [apply rel|done|done].
  - intros nm q x Hq Hx. eapply node_is_same; [by eapply (fr_data _ _ _ _ _ _ _ _ rel nm)|by rewrite E1|unfold content; by rewrite E1, E2].
  - apply slots_keep; done || eauto.
Qed.

(** ** Opening and creating *)

Lemma fs_mem_change a L' k' : mem_ok (v <| mem := a |>) T L' k' -> fs_rel (v <| mem := a |>) T L' k' tbl F D nodes.
Proof.
  intros Hm'. apply fs_outside; try done.
  - apply fs_ok_mem, rel.
  - apply (memfs_ok_data v); [apply rel|done|done].
  - intros nm q x Hq Hx. eapply node_is_same; [by eapply (fr_data _ _ _ _ _ _ _ _ rel nm)|done|done].
  - apply slots_keep; done || eauto.
Qed.

Lemma open_not_in_table f : files v !! f = None -> f <> 0 -> f ∉ tbl.
Proof.
  intros Hf Hf0 [j Hj]%list_elem_of_lookup. assert (Hlt : (j < length D)%nat) by (rewrite (fr_len _ _ _ _ _ _ _ _ rel); by eapply lookup_lt_Some).
  apply lookup_lt_is_Some in Hlt as [[[name pos]|] HD].
  - destruct (fr_fds _ _ _ _ _ _ _ _ rel j name pos HD) as (g & p & o & Hg & _ & _ & (x & ? & ? & Ex & _) & _). congruence.
  - pose proof (fr_closed _ _ _ _ _ _ _ _ rel j HD). congruence.
Qed.

Lemma home_names sb dir ino di name c : home_dir v sb dir ino di -> name_ok name -> names_entry v (home_path name) c <-> is_child v dir name c.
Proof.
  intros ((b & Eb & Er) & _ & Hmt) Hn. rewrite (names_entry_from v _ (Some sb) (SLASH :: name) dir c (Hmt name Hn)) by (exists b; by subst).
  rewrite components_name by done. split.
  - intros Hx. inversion Hx as [|? ? ? c' ? Hc Hr]; subst. by inversion Hr; subst.
  - intros Hc. econstructor; [exact Hc|constructor].
Qed.

Context (name root : list Z).
Hypothesis name_good : name_ok name.
Hypothesis path_ok : cstr (home_path name) /\ strlen (home_path name) <= 4096.
Hypothesis root_ok : cstr root.

Lemma home_path_nonempty : home_path name <> [].
Proof. unfold home_path. by destruct home. Qed.

Lemma fs_open p o flags : nodes !! name = Some p -> F !! name = Some o -> denied root (home_path name) = false -> open_room (home_path name) <= k ->
  exists f v' T' L', vfs_open iops_at fops root (home_path name) flags v = Some (f, v') /\ f <> 0 /\ (f ∉ tbl) /\ handle v' f p 0 /\
    fs_rel v' T' L' (k - open_room (home_path name)) tbl (if tst flags O_TRUNC then <[name := (fun _ => []) <$> o]> F else F) D nodes.
Proof.
  intros Hn Ho Hden Hk. destruct path_ok as [Hp Hpl]. destruct (fr_dir _ _ _ _ _ _ _ _ rel) as (sb & dir & ino & di & Hh & He).
  pose proof (He name name_good) as Hen. rewrite Hn in Hen. destruct Hen as (c & Hc & Hme).
  pose proof (fr_data _ _ _ _ _ _ _ _ rel name p o Hn Ho) as Hnode. pose proof Hnode as (n & En & Hno).
  assert (Hcf : confined root (home_path name)) by (pose proof (denied_spec root (home_path name) root_ok Hp) as Hd; by rewrite Hden in Hd).
  destruct (vfs_open_spec tarfs_fops v T L k root (home_path name) flags c p) as (f & v' & T' & L' & E & Hf0 & Hfn & Hhd & Ht & Hv' & Hm');
    try done; try apply rel; [apply home_path_nonempty|by eapply home_names|].
  exists f, v', T', L'. assert (Hft : f ∉ tbl) by (by apply open_not_in_table). splits; try done.
  pose proof (fr_memfs _ _ _ _ _ _ _ _ rel) as Hmo. pose proof (truncated_ok v v' f p flags Hmo Ht) as Hmo'. pose proof Ht as (Htree & E1 & E2 & Hfl).
  assert (Hfl' : forall g, g ∈ tbl -> g <> 0 -> files v' !! g = files v !! g) by (intros g Hg _; apply Hfl; by intros ->).
  unfold truncated in E1. destruct (tst flags O_TRUNC) eqn:Etr.
  - assert (Hq : forall q, q <> p -> memnodes v' !! q = memnodes v !! q) by (intros q Hq; by rewrite E1, lookup_alter_ne).
    apply fs_outside; try done.
    + intros nm. rewrite lookup_insert_is_Some'. split; [intros [<-|?]; [eauto|done]|tauto].
    + intros nm q x Hq' [[<- <-]|[Hne Hx]]%lookup_insert_Some.
      * simplify_eq. exists (mk_memfs 0 (m_capacity n) (m_data n)). rewrite E1, lookup_alter_eq, En. split; [done|].
        destruct o as [c0|]; cbn in *; [|done]. destruct Hno as (Hd0 & _ & _). splits; [done| |constructor].
        unfold content. rewrite E1, lookup_alter_eq, En. done.
      * assert (q <> p) by (intros ->; by eapply Hne, (fr_inj _ _ _ _ _ _ _ _ rel)).
        eapply node_is_same; [by eapply (fr_data _ _ _ _ _ _ _ _ rel nm)|by apply Hq|unfold content; by rewrite Hq, E2].
    + apply slots_keep; try done. intros nm x Hx. rewrite lookup_insert_is_Some'. eauto.
  - apply fs_outside; try done.
    + intros nm q x Hq Hx. eapply node_is_same; [by eapply (fr_data _ _ _ _ _ _ _ _ rel nm)|by rewrite E1|unfold content; by rewrite E1, E2].
    + apply slots_keep; done || eauto.
Qed.

Lemma fs_open_missing flags : nodes !! name = None \/ denied root (home_path name) = true -> open_room (home_path name) <= k ->
  exists v', vfs_open iops_at fops root (home_path name) flags v = Some (0, v') /\ fs_rel v' T L (k - open_room (home_path name)) tbl F D nodes.
Proof.
  intros Hno Hk. destruct path_ok as [Hp Hpl]. destruct (fr_dir _ _ _ _ _ _ _ _ rel) as (sb & dir & ino & di & Hh & He).
  destruct (vfs_open_missing tarfs_fops v T L k root (home_path name) flags) as (a & E & Hm'); try done; try apply rel.
  - right. destruct Hno as [Hn|Hd]; [right|left].
    + intros c Hc. pose proof (He name name_good) as Hen. rewrite Hn in Hen. apply (Hen c). by eapply home_names.
    + pose proof (denied_spec root (home_path name) root_ok Hp) as Hs. by rewrite Hd in Hs.
  - eexists. split; [exact E|]. by apply fs_mem_change.
Qed.

Lemma fs_create_exists p mode : nodes !! name = Some p -> create_room name <= k ->
  exists v', vfs_create iops_at fops (home_path name) mode v = Some (0, v') /\ fs_rel v' T L (k - create_room name) tbl F D nodes.
Proof.
  intros Hn Hk. destruct path_ok as [Hp Hpl]. destruct (fr_dir _ _ _ _ _ _ _ _ rel) as (sb & dir & ino & di & Hh & He).
  pose proof (He name name_good) as Hen. rewrite Hn in Hen. destruct Hen as (c & Hc & Hme). destruct Hh as ((b & Eb & Er) & Hmd & Hmt).
  destruct (vfs_create_exists tarfs_fops v T L k (home_path name) sb b dir ino di name mode) with (c := c) as (a & E & Hm'); try done; try apply rel; [by apply Hmt| |].
  - unfold home_path, strlen in *. rewrite length_app in Hpl. cbn [length] in Hpl. lia.
  - eexists. split; [exact E|]. by apply fs_mem_change.
Qed.

Lemma fs_create mode : nodes !! name = None -> create_room name <= k ->
  exists f p v' T' L', vfs_create iops_at fops (home_path name) mode v = Some (f, v') /\ f <> 0 /\ (f ∉ tbl) /\ handle v' f p 0 /\
    fs_rel v' T' L' (k - create_room name) tbl (<[name := None]> F) D (<[name := p]> nodes).
Proof.
  intros Hn Hk. destruct path_ok as [Hp Hpl]. destruct (fr_dir _ _ _ _ _ _ _ _ rel) as (sb & dir & ino & di & Hh & He).
  pose proof (He name name_good) as Hen. rewrite Hn in Hen. pose proof Hh as ((b & Eb & Er) & Hmd & Hmt).
  destruct (vfs_create_new tarfs_fops v T L k (home_path name) sb b dir ino di name mode) as (a & pd & pn & pi & pm & pf & L' & E & Ha & Hm'); try done; try apply rel; [by apply Hmt| |].
  { unfold home_path, strlen in *. rewrite length_app in Hpl. cbn [length] in Hpl. lia. }
  set (v' := created v a dir ino di name mode pd pn pi pm pf) in *. pose proof (fr_fs _ _ _ _ _ _ _ _ rel) as Hv.
  destruct (addr_fresh v T pd pn pi pm pf Hv Ha pf) as (_ & _ & _ & Hpf & _); [set_solver|].
  destruct (addr_fresh v T pd pn pi pm pf Hv Ha pm) as (_ & _ & _ & _ & Hpm & _); [set_solver|].
  destruct (addr_fresh v T pd pn pi pm pf Hv Ha pd) as (_ & Hpd & _); [set_solver|].
  assert (Hpf0 : pf <> 0) by (apply (proj2 Ha pf); set_solver).
  assert (Hnn : mem_entry v' pd pm /\ handle v' pf pm 0) by (by eapply created_new_entry). destruct Hnn as [Hnew Hnh].
  assert (Hpmn : forall nm q, nodes !! nm = Some q -> q <> pm).
  { intros nm q Hq ->. assert (HF : is_Some (F !! nm)) by (apply (fr_dom _ _ _ _ _ _ _ _ rel); eauto). destruct HF as [x Hx].
    destruct (fr_data _ _ _ _ _ _ _ _ rel nm pm x Hq Hx) as (n' & En' & _). congruence. }
  exists pf, pm, v', (kinds_after T pd pn pi pm pf), L'. splits; try done; [by apply open_not_in_table|].
  pose proof rel as [_ Hr Hmo Hm Hd Hdom Hinj Hdata Hl Hfds Hcl Hap]. split; try done.
  - by eapply created_fs_ok.
  - by eapply created_roots_ok.
  - by eapply created_memfs_ok.
  - exists sb, dir, ino, (di <| i_children := pd |>). split.
    + split; [by exists b|]. split; [|done]. destruct Hmd as (Hd0 & (de & Ede & Ei0) & Ei & Eop). split; [done|]. split; [|split; [|done]].
      * exists de. split; [|done]. unfold v'. cbn. rewrite lookup_insert_ne; [done|]. intros <-. congruence.
      * unfold v'. cbn. rewrite lookup_insert_ne; [apply lookup_insert_eq|]. intros <-. destruct (addr_fresh v T pd pn pi pm pf Hv Ha pi) as (E2 & _); [set_solver|congruence].
    + intros nm Hnm. destruct (decide (nm = name)) as [->|Hne].
      * rewrite lookup_insert_eq. exists pd. split; [by apply (created_child v T)|done].
      * rewrite lookup_insert_ne by done. specialize (He nm Hnm). destruct (nodes !! nm) as [q|]; cbn in *.
        -- destruct He as (c & Hc & Hce). exists c. split; [by apply (created_child_other v T)|by apply (created_mem_entry v T)].
        -- intros c Hc. apply (He c). by apply (created_child_back v T a dir ino di name mode pd pn pi pm pf).
  - intros nm. rewrite !lookup_insert_is_Some', Hdom. done.
  - intros n1 n2 q [[<- <-]|[? H1]]%lookup_insert_Some [[<- Eq]|[? H2]]%lookup_insert_Some; [done|..|by eapply Hinj].
    + by destruct (Hpmn _ _ H2).
    + subst q. by destruct (Hpmn _ _ H1).
  - intros nm q x [[<- <-]|[Hne Hq]]%lookup_insert_Some [[E1 <-]|[Hne' Hx]]%lookup_insert_Some; try done.
    + exists (mk_memfs 0 0 0). unfold v'. cbn. by rewrite lookup_insert_eq.
    + pose proof (Hpmn _ _ Hq). eapply node_is_same; [by apply (Hdata nm)| |by apply created_content]. unfold v'. cbn. by rewrite lookup_insert_ne.
  - intros j nm pos Hj. destruct (Hfds j nm pos Hj) as (g & q & x & Hg & Hg0 & Hnq & Hhq & Hx & Hpos).
    assert (nm <> name) by congruence. exists g, q, x. rewrite !lookup_insert_ne by done. splits; try done; try lia. by apply (created_handle v T).
Qed.
End calls.
End store.
