(* ===== verification/FsTheorems.v ===== *)
(** * Theorems on the file systems through the VFS *)

From S2P Require Import Prelude LList Cstr Heap HeapInv HeapSpec HeapTheorems Alloc Vfs Memfs VfsInv VfsTheorems MemfsTheorems FileOps Tar Ramfs FsBoot.

Section theorems.
Context {A : Type} `{Allocator A}.
Implicit Types v : vfs A.
Variable tarfs_fops : file_operations (vfs A).
Notation fops := (fops_at tarfs_fops).

(** C16: path lookup.  On a well-formed tree and with enough heap, [vfs_lookup] ends, gives
    back all its temporary memory, changes nothing else, and returns the entry that the path
    names, starting from the file system mounted at the longest directory prefix; NULL exactly
    when there is none, or the path is empty or outside the caller's root directory. *)
Theorem vfs_lookup_resolves v T L k root path :
  fs_ok v T -> roots_ok v -> mem_ok v T L k -> cstr path -> cstr root -> strlen path <= 4096 -> lookup_room path <= k ->
  exists r a, vfs_lookup iops_at root path v = Some (r, v <| mem := a |>) /\
    mem_ok (v <| mem := a |>) T L (k - lookup_room path) /\
    found r (fun c => path <> [] /\ confined root path /\ names_entry v path c).
Proof. apply vfs_lookup_spec. Qed.

(** C17: what is written to a memfs file is read back, as long as the file stays below 1 GB and
    the heap has room for a larger buffer (twice the new end and 104 bytes).  A write through
    one open file puts the bytes at its position into the file, growing it as needed, leaves
    every other file alone and keeps the invariants; a read through another open file of the
    same file then returns the bytes of the new contents from its own position on.  The
    position may be behind the end of the file, where an O_TRUNC by somebody else can leave
    it: the code fills the bytes in between with nothing, so that the new contents have an
    unspecified [gap] there. *)
Theorem memfs_write_read v T L k f g p off pos n c buf len :
  fs_ok v T -> memfs_ok v -> mem_ok v T L k -> f <> 0 -> g <> 0 -> f <> g ->
  handle v f p off -> handle v g p pos -> memnodes v !! p = Some n -> content v p = Some c ->
  0 < strlen buf -> 0 <= off -> off + strlen buf <= 2 ^ 30 -> 2 * (off + strlen buf) + 104 <= k ->
  0 <= pos < 2 ^ 63 -> 0 <= len < 2 ^ 32 ->
  exists gap v1 v2 T' L', let r := take (Z.to_nat len) (drop (Z.to_nat pos) (patch off buf (c ++ gap))) in
    strlen gap = Z.max 0 (off - m_size n) /\
    vfs_write fops f buf v = Some (strlen buf, v1) /\
    fs_ok v1 T' /\ memfs_ok v1 /\ mem_ok v1 T' L' (k - (2 * (off + strlen buf) + 104)) /\
    vfs_read fops g len v1 = Some (strlen r, r, v2) /\
    handle v2 g p (pos + strlen r) /\ forall q, q <> p -> content v2 q = content v q.
Proof.
  intros Hv Hmo Hm Hf0 Hg0 Hfg Hf Hg En Hc Hlen Hoff Hmax Hk Hpos Hl.
  destruct (vfs_write_spec tarfs_fops v T L k f p off n c buf) as (gap & v1 & T1 & L1 & Ew & Hgap & Hv1 & Hmo1 & Hm1 & Hf1 & Hc1 & Hoth & Ht & Hfl & _); try done.
  assert (Hg1 : handle v1 g p pos) by (eapply handle_keep; [exact Hg|exact Ht|by apply Hfl]).
  assert (exists n1, memnodes v1 !! p = Some n1) as [n1 En1].
  { unfold content in Hc1. apply bind_Some in Hc1 as (n1 & ? & _). eauto. }
  assert (Hd1 : m_data n1 <> 0).
  { eapply content_data; [exact Hmo1|exact En1|exact Hc1|]. unfold patch. intros E%app_eq_nil. destruct E as [_ E%app_eq_nil].
    destruct E as [-> _]. unfold strlen in Hlen. cbn in Hlen. lia. }
  destruct (vfs_read_spec tarfs_fops v1 T1 L1 _ g p pos n1 (patch off buf (c ++ gap)) len Hv1 Hmo1 Hm1 Hg0 Hg1 En1 Hc1 Hd1 Hpos Hl)
    as (v2 & Er & Hg2 & (_ & E1 & E2 & _) & _).
  exists gap, v1, v2, T1, L1. cbv zeta. splits; try done. intros q Hq. rewrite <- Hoth by done. unfold content. by rewrite E1, E2.
Qed.
End theorems.

(** ** The booted file systems *)

Definition no_tarfs : file_operations (vfs bump) := mk_fops None None None None.
Definition blank_fs : vfs bump := mk_vfs (mk_bump 16 ∅) ∅ ∅ ∅ ∅ ∅ ∅ ∅ ∅ ∅ ∅ ∅ 0 1 [] 0 0.

(** An empty boot image as the root, memfs at /home. *)
Definition boot_fs : vfs bump := default blank_fs (mount_roots 1 0x200000 blank_fs).

(** /home/a, created and open as file 433, and opened again as file 481. *)
Definition file_fs : vfs bump :=
  default boot_fs ('(_, v) ← vfs_create iops_at (fops_at no_tarfs) (lit "/home/a") 0x81A4 boot_fs;
                   '(_, v) ← vfs_open iops_at (fops_at no_tarfs) [] (lit "/home/a") O_RDONLY v; Some v).

Lemma bump_mem_ok v T L k :
  mem v = mk_bump (b_next (mem v)) L -> (0 <? b_next (mem v)) && (b_next (mem v) + k <=? 2 ^ 32 - 1) &&
    forallb (fun p => (0 <? p) && (p <? b_next (mem v))) (elements L) && bool_decide (dom T ⊆ L) = true ->
  mem_ok v T L k.
Proof.
  intros E H. rewrite !andb_true_iff in H. destruct H as [[[H1 H2] H3] H4]. bool_prop.
  apply bool_decide_eq_true in H4. split; [|done]. unfold al_ok, bump_allocator, bump_ok. splits; [by rewrite E|lia|lia|].
  intros p Hp. rewrite forallb_forall in H3. specialize (H3 p). rewrite <- list_elem_of_In, elem_of_elements in H3. specialize (H3 Hp).
  bool_prop. lia.
Qed.

Lemma boot_fs_ok : fs_ok boot_fs (kinds boot_fs).
Proof. apply fs_okb_sound. vm_compute. reflexivity. Qed.

Lemma boot_roots_ok : roots_ok boot_fs.
Proof.
  split.
  - split; [|vm_compute; discriminate]. apply (bool_decide_unpack _). vm_compute. exact I.
  - vm_compute. repeat constructor; lia.
  - intros mp sb Hin. assert (E : mounts boot_fs = [(lit "/home", 110)]) by (vm_compute; reflexivity).
    rewrite E in Hin. apply list_elem_of_singleton in Hin as [= -> ->]. split; [done|].
    destruct (supers boot_fs !! 110) as [b|] eqn:Eb; [|vm_compute in Eb; discriminate Eb]. exists b. split; [done|].
    assert (Es : (fun b => s_root b) <$> supers boot_fs !! 110 = Some 186) by (vm_compute; reflexivity).
    rewrite Eb in Es. injection Es as ->. split; [|done]. apply (bool_decide_unpack _). vm_compute. exact I.
Qed.

Lemma boot_mem_ok : mem_ok boot_fs (kinds boot_fs) (b_live (mem boot_fs)) 100000.
Proof. apply bump_mem_ok; [by destruct (mem boot_fs)|]. vm_compute. reflexivity. Qed.

Lemma file_handles : handle file_fs 433 421 0 /\ handle file_fs 481 421 0.
Proof. split; do 3 eexists; splits; try (vm_compute; reflexivity); vm_compute; discriminate. Qed.

Definition hello : list Z := lit "hello".

Lemma vfs_lookup_resolves_witness :
  lookup_room (lit "/home/a") <= 100000 /\
  exists r a, vfs_lookup iops_at [] (lit "/home") boot_fs = Some (r, boot_fs <| mem := a |>) /\
    mem_ok (boot_fs <| mem := a |>) (kinds boot_fs) (b_live (mem boot_fs)) (100000 - lookup_room (lit "/home")) /\
    found r (fun c => lit "/home" <> [] /\ confined [] (lit "/home") /\ names_entry boot_fs (lit "/home") c).
Proof.
  split; [vm_compute; discriminate|].
  apply (vfs_lookup_resolves boot_fs (kinds boot_fs) (b_live (mem boot_fs)) 100000 [] (lit "/home"));
    [exact boot_fs_ok|exact boot_roots_ok|exact boot_mem_ok|vm_compute; repeat constructor; lia|constructor|vm_compute; discriminate..].
Defined.

Lemma memfs_write_read_witness :
  exists gap v1 v2 T' L', let r := take (Z.to_nat 3) (drop (Z.to_nat 0) (patch 0 hello ([] ++ gap))) in
    strlen gap = Z.max 0 (0 - 0) /\
    vfs_write (fops_at no_tarfs) 433 hello file_fs = Some (strlen hello, v1) /\
    fs_ok v1 T' /\ memfs_ok v1 /\ mem_ok v1 T' L' (100000 - (2 * (0 + strlen hello) + 104)) /\
    vfs_read (fops_at no_tarfs) 481 3 v1 = Some (strlen r, r, v2) /\
    handle v2 481 421 (0 + strlen r) /\ forall q, q <> 421 -> content v2 q = content file_fs q.
Proof.
  apply (memfs_write_read no_tarfs file_fs (kinds file_fs) (b_live (mem file_fs)) 100000 433 481 421 0 0
           (mk_memfs 0 0 0) [] hello 3).
  1: (apply fs_okb_sound; vm_compute; reflexivity).
  1: (apply memfs_okb_sound; vm_compute; reflexivity).
  1: (apply bump_mem_ok; [by destruct (mem file_fs)|vm_compute; reflexivity]).
  1-3: done.
  1: exact (proj1 file_handles).
  1: exact (proj2 file_handles).
  1-2: (vm_compute; reflexivity).
  all: vm_compute; first [reflexivity|discriminate|split; first [discriminate|reflexivity]].
Defined.

(** Creating a file on a file system without the operation (the boot image is read-only)
    fails after the new entry was linked into its directory and frees it there: the next
    walk of that directory reads freed memory. *)
Lemma failed_create_dangles :
  exists v', vfs_create iops_at (fops_at no_tarfs) (lit "/x") 0x81A4 boot_fs = Some (0, v') /\
    vfs_lookup iops_at [] (lit "/y") v' = None.
Proof.
  destruct (vfs_create iops_at (fops_at no_tarfs) (lit "/x") 0x81A4 boot_fs) as [[r v']|] eqn:E; [|vm_compute in E; discriminate E].
  exists v'. assert (r = 0) as -> by (vm_compute in E; congruence). split; [done|].
  vm_compute in E. injection E as <-. vm_compute. reflexivity.
Qed.
