(* ===== verification/FileCalls.v ===== *)
(** * The file system calls (src/kernel/syscall.c) on memfs

    [open], [read], [write] and [close] as a program makes them, through [syscall_handler],
    with pointers into its own memory.  [a_call] is what they promise: a store of named files,
    a table of descriptors and the bytes of user memory.  It is an executable definition, so
    that a sequence of calls can be predicted by evaluating it; [None] stands for calls it
    says nothing about (the console and the keyboard, paths outside of memfs, and a write at a
    position behind the end of the file, where the truncation of an open file can leave it:
    such a write exposes what the buffer happened to hold).  The result has the bytes of kernel heap that the call may take
    as a third component. *)

From S2P Require Import Prelude LList Cstr Heap HeapInv HeapSpec HeapTheorems Alloc Task TaskInv Sched Paging PagingInv PagingTheorems.
From S2P Require Import UserMem UserMemTheorems AddrSpace ForkMem Vm Keyboard Vga Vfs Memfs VfsInv VfsTheorems MemfsTheorems FileOps FileCreate FileStore.
From S2P Require Import Elf Process ProcessTheorems ForkTheorems ExecTheorems Syscall SyscallTheorems Tar Ramfs FsBoot FsTheorems OnePage.

(** ** The promise *)

Inductive fcall := COpen (path flags mode : Z) | CRead (fd buf len : Z) | CWrite (fd buf len : Z) | CClose (fd : Z).

Record afs := mk_afs {
  a_files : gmap (list Z) (option (list Z));
  a_fds : list (option (list Z * Z));
  a_mem : Z -> option Z;
}.

Section promise.
(** The pages mapped for user mode, the mount point of memfs, the root directory and the
    capabilities of the task. *)
Context (perm : Z -> bool) (home root : list Z) (cap : Z).

Definition a_range (a len : Z) : bool := (len =? 0) || ((a + len <=? KERNEL_BASE) && forallb perm (seqZ a len)).

Fixpoint a_string (n : nat) (mem : Z -> option Z) (src : Z) : option (list Z) :=
  match n with
  | O => Some []
  | S n' =>
      if perm src then
        let b := default 0 (mem src) in
        if b =? 0 then Some [] else cons b <$> a_string n' mem (src + 1)
      else None
  end.
Definition a_path (mem : Z -> option Z) (src : Z) : option (list Z) := if KERNEL_BASE <=? src then None else a_string 127 mem src.

Definition a_bytes (mem : Z -> option Z) (a len : Z) : list Z := (fun i => default 0 (mem i)) <$> seqZ a len.
Definition a_store (a : Z) (bs : list Z) (mem : Z -> option Z) : Z -> option Z :=
  fun w => if (a <=? w) && (w <? a + strlen bs) then bs !! Z.to_nat (w - a) else mem w.

(** The name of a file of memfs in a path. *)
Definition home_name (path : list Z) : option (list Z) :=
  let name := drop (S (length home)) path in
  if bool_decide (path = home_path home name) && bool_decide (name <> []) && bool_decide (SLASH ∉ name) then Some name else None.

Definition a_may (need : Z) : bool := Z.land cap need =? need.

Definition a_fd (fd : Z) (s : afs) : option (list Z * Z) :=
  if (fd <? 3) || (FD_MAX <=? fd) then None else mjoin (a_fds s !! Z.to_nat (fd - 3)).
Definition a_set_fd (fd : Z) (e : option (list Z * Z)) (s : afs) : afs := mk_afs (a_files s) (<[Z.to_nat (fd - 3) := e]> (a_fds s)) (a_mem s).

(** The new file goes into the first free descriptor. *)
Definition a_give (name : list Z) (s : afs) : Z * afs :=
  match list_find (fun e => e = None) (a_fds s) with
  | Some (i, _) => (Z.of_nat i + 3, mk_afs (a_files s) (<[i := Some (name, 0)]> (a_fds s)) (a_mem s))
  | None => (- ENOMEM, s)
  end.

Definition a_open (a flags : Z) (s : afs) : option (Z * afs * Z) :=
  match a_path (a_mem s) a with
  | None => Some (- EINVAL, s, 0)
  | Some path =>
      let path := resolve_path root path 128 in
      name ← home_name path;
      match a_files s !! name with
      | Some old =>
          if denied root path then
            Some (- ENOENT, s, open_room path + if tst flags O_CREAT then create_room name else 0)
          else if tst flags O_TRUNC then
            Some (a_give name (mk_afs (<[name := (fun _ => []) <$> old]> (a_files s)) (a_fds s) (a_mem s)), open_room path)
          else Some (a_give name s, open_room path)
      | None =>
          if tst flags O_CREAT
          then Some (a_give name (mk_afs (<[name := None]> (a_files s)) (a_fds s) (a_mem s)), open_room path + create_room name)
          else Some (- ENOENT, s, open_room path)
      end
  end.

Definition a_read (fd buf len : Z) (s : afs) : option (Z * afs * Z) :=
  if fd =? 0 then None
  else match a_fd fd s with
  | None => Some (- EINVAL, s, 0)
  | Some (name, pos) =>
      if negb (a_range buf len) then Some (- EINVAL, s, 0)
      else match mjoin (a_files s !! name) with
      | None => Some (-1, s, 0)
      | Some c =>
          let r := take (Z.to_nat len) (drop (Z.to_nat pos) c) in
          let s := a_set_fd fd (Some (name, pos + strlen r)) s in
          Some (strlen r, mk_afs (a_files s) (a_fds s) (a_store buf r (a_mem s)), 0)
      end
  end.

Definition a_write (fd buf len : Z) (s : afs) : option (Z * afs * Z) :=
  if (fd =? 1) || (fd =? 2) then None
  else match a_fd fd s with
  | None => Some (- EINVAL, s, 0)
  | Some (name, pos) =>
      if negb (a_range buf len) then Some (- EINVAL, s, 0)
      else if strlen (default [] (mjoin (a_files s !! name))) <? pos then None
      else if len =? 0 then Some (0, s, 0)
      else
        let c := patch pos (a_bytes (a_mem s) buf len) (default [] (mjoin (a_files s !! name))) in
        let s := a_set_fd fd (Some (name, pos + len)) s in
        Some (len, mk_afs (<[name := Some c]> (a_files s)) (a_fds s) (a_mem s), 2 * (pos + len) + 104)
  end.

Definition a_close (fd : Z) (s : afs) : option (Z * afs * Z) :=
  match a_fd fd s with
  | None => Some (- EINVAL, s, 0)
  | Some _ => Some (0, a_set_fd fd None s, 0)
  end.

Definition a_call (c : fcall) (s : afs) : option (Z * afs * Z) :=
  let need := match c with CWrite _ _ _ => CAP_WRITE | _ => CAP_READ end in
  if negb (a_may need) then Some (- EPERM, s, 0)
  else match c with
  | COpen a flags _ => a_open a flags s
  | CRead fd buf len => a_read (int32 fd) buf len s
  | CWrite fd buf len => a_write (int32 fd) buf len s
  | CClose fd => a_close (int32 fd) s
  end.

(** A sequence of calls while the heap has room for [k] bytes; the room left is returned. *)
Fixpoint a_calls (cs : list fcall) (s : afs) (k : Z) : option (list Z * afs * Z) :=
  match cs with
  | [] => Some ([], s, k)
  | c :: cs => '(r, s, n) ← a_call c s; if n <=? k then '(rs, s, k) ← a_calls cs s (k - n); Some (r :: rs, s, k) else None
  end.
End promise.

Lemma forallb_seqZ f a len : forallb f (seqZ a len) = true <-> forall v, a <= v < a + len -> f v = true.
Proof.
  rewrite forallb_forall. split; intros Hf v Hv.
  - apply Hf. apply list_elem_of_In, elem_of_seqZ. lia.
  - apply Hf. by apply list_elem_of_In, elem_of_seqZ in Hv.
Qed.

(** The registers of a call; the rest are 0. *)
Definition regs_of (c : fcall) : pt_regs :=
  match c with
  | COpen a flags mode => mk_regs 0 0 0 0 a mode flags SYS_OPEN []
  | CRead fd buf len => mk_regs 0 0 0 0 fd len buf SYS_READ []
  | CWrite fd buf len => mk_regs 0 0 0 0 fd len buf SYS_WRITE []
  | CClose fd => mk_regs 0 0 0 0 fd 0 0 SYS_CLOSE []
  end.

(** Arguments are words. *)
Definition word_ok (x : Z) : Prop := 0 <= x < 2 ^ 32.
Definition fcall_ok (c : fcall) : Prop :=
  match c with
  | COpen a flags mode => word_ok a /\ word_ok flags /\ word_ok mode
  | CRead fd buf len | CWrite fd buf len => word_ok fd /\ word_ok buf /\ word_ok len
  | CClose fd => word_ok fd
  end.


(** ** The calls keep the promise *)

Section refine.
Context {A : Type} `{Allocator A}.
Implicit Types m : machine A.
Context (fork_return kernel_pd : Z) (stack_end junk : Z -> Z) (tarfs_fops : file_operations (vfs A)).
Notation fops := (fops_at tarfs_fops).
Notation handler := (syscall_handler fork_return kernel_pd stack_end iops_at fops junk).

Definition run_call (c : fcall) m : option (Z * machine A) :=
  match handler (regs_of c) m with Some (Return r, m) => Some (r, m) | _ => None end.
Fixpoint run_calls (cs : list fcall) m : option (list Z * machine A) :=
  match cs with
  | [] => Some ([], m)
  | c :: cs => '(r, m) ← run_call c m; '(rs, m) ← run_calls cs m; Some (r :: rs, m)
  end.

Context (pd : Z) (perm : Z -> bool) (home root : list Z) (cap : Z).

(** The machine [m], whose current task makes the calls, is in the abstract state [s]. *)
Record call_rel m (s : afs) (T : gmap Z kind) (L : gset Z) (k : Z) (nodes : gmap (list Z) Z) : Prop := {
  cr_cur : cur m <> 0;
  cr_cr3 : mcr3 m = pd;
  cr_cap : caps (ctask m) = cap;
  cr_root : root_path (ctask m) = root;
  cr_space : space_ok (mcr3 m) (kp (kern m));
  cr_perm v : 0 <= v < 2 ^ 32 -> user_ok (mcr3 m) (pmem (kp (kern m))) v = perm v;
  cr_mem w : user w -> load8 (mcr3 m) (kp (kern m)) w = a_mem s w;
  cr_tbl : length (fd_table (ctask m)) = Z.to_nat FD_MAX;
  cr_fs : fs_rel home (kv (kern m)) T L k (drop 3 (fd_table (ctask m))) (a_files s) (a_fds s) nodes;
}.

(** User pages below the kernel, and where a path that begins there can end, are in the user
    part of the address space. *)
Hypothesis perm_user : forall v, 0 <= v < KERNEL_BASE + 128 -> perm v = true -> user v.
Hypothesis root_ok : cstr root.

Section user_memory.
Context (m : machine A) (s : afs) (T : gmap Z kind) (L : gset Z) (k : Z) (nodes : gmap (list Z) Z).
Hypothesis rel : call_rel m s T L k nodes.

Lemma perm_load v : 0 <= v < KERNEL_BASE + 128 -> perm v = true -> exists b, load8 (mcr3 m) (kp (kern m)) v = Some b /\ a_mem s v = Some b /\ is_byte b.
Proof.
  intros Hv0 Hp. pose proof (perm_user v Hv0 Hp) as Hu. destruct (user_addr v Hu) as [Hv _].
  destruct (user_ok_load (mcr3 m) (kp (kern m)) v) as [b Hb]; [by rewrite (cr_perm _ _ _ _ _ _ rel)|].
  exists b. rewrite <- (cr_mem _ _ _ _ _ _ rel v Hu). splits; [done|done|]. unfold load8 in Hb. apply bind_Some in Hb as (a & _ & [= <-]).
  unfold is_byte, byte_of. change 0xFF with (Z.ones 8). rewrite Z.land_ones by lia. apply Z.mod_pos_bound. lia.
Qed.

Lemma range_exact a len : word_ok a -> word_ok len -> range_valid a len m = Some (a_range perm a len).
Proof.
  intros Ha Hl. unfold range_valid. pose proof (cr_space _ _ _ _ _ _ rel) as Hs. pose proof (so_mm _ _ Hs) as [Hw _].
  destruct (user_range_valid_exact (mcr3 m) (kp (kern m)) a len Hw Ha Hl) as (b & -> & Hb & _). f_equal. unfold a_range.
  apply eq_bool_prop_intro. rewrite !Is_true_true, Hb, orb_true_iff, andb_true_iff, Z.eqb_eq, Z.leb_le, forallb_seqZ.
  unfold word_ok, KERNEL_BASE in *. split; (intros [?|[H1 H2]]; [by left|right; split; [done|]]); intros v Hv.
  - rewrite <- (cr_perm _ _ _ _ _ _ rel) by lia. by apply H2.
  - rewrite (cr_perm _ _ _ _ _ _ rel) by lia. by apply H2.
Qed.

Lemma range_perm a len v : a_range perm a len = true -> a <= v < a + len -> perm v = true.
Proof.
  unfold a_range. rewrite orb_true_iff, andb_true_iff, Z.eqb_eq, forallb_seqZ. intros [?|[_ H2]] Hv; [lia|]. by apply H2.
Qed.

Lemma load_exact a len : word_ok a -> word_ok len -> a_range perm a len = true ->
  load_bytes (mcr3 m) (kp (kern m)) a (Z.to_nat len) = Some (a_bytes (a_mem s) a len) /\ Forall is_byte (a_bytes (a_mem s) a len) /\ strlen (a_bytes (a_mem s) a len) = len.
Proof.
  intros Ha Hl Hr. assert (El : length (a_bytes (a_mem s) a len) = Z.to_nat len) by (unfold a_bytes; by rewrite length_fmap, length_seqZ).
  assert (Hb : forall i b, a_bytes (a_mem s) a len !! i = Some b -> load8 (mcr3 m) (kp (kern m)) (a + Z.of_nat i) = Some b /\ is_byte b).
  { intros i b Hi. pose proof (lookup_lt_Some _ _ _ Hi) as Hlt. rewrite El in Hlt. unfold a_bytes in Hi. rewrite list_lookup_fmap, lookup_seqZ_lt in Hi by lia.
    cbn in Hi. injection Hi as <-. destruct (perm_load (a + Z.of_nat i)) as (b & H1 & H2 & H3); [|apply (range_perm a len); [done|lia]|by rewrite H2].
    unfold a_range, word_ok, KERNEL_BASE in *. bool_prop. lia. }
  splits.
  - rewrite <- El. unfold word_ok in *. apply holds_load_bytes; [lia| |intros i b Hi; by apply Hb].
    rewrite El. unfold a_range, KERNEL_BASE in Hr. bool_prop. lia.
  - apply Forall_lookup. intros i b Hi. by apply (Hb i).
  - unfold strlen, word_ok in *. lia.
Qed.

Lemma string_exact n a : 0 <= a -> a + Z.of_nat n <= KERNEL_BASE + 128 -> copy_loop n (mcr3 m) (kp (kern m)) a = Some (a_string perm n (a_mem s) a).
Proof.
  intros Ha. pose proof (cr_space _ _ _ _ _ _ rel) as Hs. pose proof (so_mm _ _ Hs) as [Hw _]. revert a Ha.
  induction n as [|n IH]; intros a Ha Hn; cbn [copy_loop a_string]; [done|]. unfold KERNEL_BASE in *. rewrite user_page_ok by (done || lia). cbn [mbind option_bind].
  rewrite (cr_perm _ _ _ _ _ _ rel) by lia. destruct (perm a) eqn:Ep; cbn [negb]; [|done].
  destruct (perm_load a ltac:(unfold KERNEL_BASE; lia) Ep) as (b & -> & -> & _). cbn [mbind option_bind default id]. destruct (b =? 0); [done|].
  rewrite wrap32_small by lia. rewrite IH; [done|lia|unfold KERNEL_BASE; lia].
Qed.

Lemma path_exact a : word_ok a -> copy_user_path (mcr3 m) (kp (kern m)) a 128 = Some (a_path perm (a_mem s) a).
Proof.
  intros Ha. unfold copy_user_path, a_path. unfold word_ok, KERNEL_BASE in *. destruct (Z.leb_spec 0xC0000000 a); [done|].
  change (Z.to_nat (128 - 1)) with 127%nat. apply string_exact; unfold KERNEL_BASE; lia.
Qed.

Lemma string_cstr n a p : 0 <= a -> a + Z.of_nat n <= KERNEL_BASE + 128 -> a_string perm n (a_mem s) a = Some p -> cstr p /\ (length p <= n)%nat.
Proof.
  revert a p. induction n as [|n IH]; intros a p Ha Hn; cbn [a_string]; [intros [= <-]; split; [constructor|done]|].
  destruct (perm a) eqn:Ep; [|done]. destruct (perm_load a ltac:(lia) Ep) as (b & _ & -> & Hb). cbn [default id].
  destruct (Z.eqb_spec b 0) as [->|Hb0]; [intros [= <-]; split; [constructor|cbn; lia]|]. intros (q & Hq & ->)%fmap_Some.
  destruct (IH (a + 1) q ltac:(lia) ltac:(lia) Hq) as [Hc Hl]. split; [constructor; [unfold is_byte in Hb; lia|done]|cbn; lia].
Qed.

(** ** Descriptors *)

Lemma fd_exact fd :
  match a_fd fd s with
  | Some (name, pos) => 3 <= fd < FD_MAX /\ a_fds s !! Z.to_nat (fd - 3) = Some (Some (name, pos)) /\
      drop 3 (fd_table (ctask m)) !! Z.to_nat (fd - 3) = Some (fd_file fd m) /\ fd_file fd m <> 0
  | None => fd_file fd m = 0
  end.
Proof.
  unfold a_fd, fd_file. pose proof (cr_cur _ _ _ _ _ _ rel) as Hc. pose proof (cr_tbl _ _ _ _ _ _ rel) as Ht. pose proof (cr_fs _ _ _ _ _ _ rel) as Hf.
  destruct (Z.eqb_spec (cur m) 0) as [?|_]; [done|]. cbn [orb]. destruct ((fd <? 3) || (FD_MAX <=? fd)) eqn:Eb; [done|]. bool_prop.
  pose proof (fr_len _ _ _ _ _ _ _ _ _ Hf) as Hl. rewrite length_drop, Ht in Hl. unfold FD_MAX in *.
  assert (El : drop 3 (fd_table (ctask m)) !! Z.to_nat (fd - 3) = fd_table (ctask m) !! Z.to_nat fd) by (rewrite lookup_drop; f_equal; lia).
  assert (Hlt : (Z.to_nat (fd - 3) < length (a_fds s))%nat) by lia. apply lookup_lt_is_Some in Hlt as [e He]. rewrite He. cbn [mjoin option_join].
  destruct e as [[name pos]|].
  - destruct (fr_fds _ _ _ _ _ _ _ _ _ Hf _ name pos He) as (f & p & o & Htf & Hf0 & _). rewrite El in *. rewrite Htf. cbn [default id]. splits; try done; lia.
  - pose proof (fr_closed _ _ _ _ _ _ _ _ _ Hf _ He) as Htf. rewrite El in Htf. by rewrite Htf.
Qed.

(** Relation after a change of the file systems, of memory and of the table. *)
Lemma rel_kv v' F' D' T' L' k' nodes' : fs_rel home v' T' L' k' (drop 3 (fd_table (ctask m))) F' D' nodes' ->
  call_rel (set_kv v' m) (mk_afs F' D' (a_mem s)) T' L' k' nodes'.
Proof. destruct rel. by split. Qed.

Lemma rel_fd fd f v' F' D' T' L' k' nodes' : 3 <= fd < FD_MAX ->
  fs_rel home v' T' L' k' (<[Z.to_nat (fd - 3) := f]> (drop 3 (fd_table (ctask m)))) F' D' nodes' ->
  call_rel (set_fd fd f (set_kv v' m)) (mk_afs F' D' (a_mem s)) T' L' k' nodes'.
Proof.
  intros Hfd Hf. destruct rel as [Hc Hcr Hcap Hr Hs Hp Hm Ht _].
  assert (Ec : ctask (set_fd fd f (set_kv v' m)) = (ctask m) <| fd_table := <[Z.to_nat fd := f]> (fd_table (ctask m)) |>).
  { unfold ctask, set_fd, set_ks, cur. cbn [kern ks current_task set_field eta_machine eta_kernel]. rewrite tk_upd_eq. done. }
  assert (Eks : cur (set_fd fd f (set_kv v' m)) = cur m) by reflexivity.
  split; rewrite ?Ec; try done.
  - cbn. by rewrite length_insert.
  - cbn [fd_table set_field eta_task]. rewrite drop_insert_ge by lia. by replace (Z.to_nat fd - 3)%nat with (Z.to_nat (fd - 3)) by lia.
Qed.
End user_memory.

Lemma free_fd_find (tbl : list Z) (D : list (option (list Z * Z))) n : length D = length tbl -> (forall i, D !! i = Some None -> tbl !! i = Some 0) ->
  (forall i e, D !! i = Some (Some e) -> exists f, tbl !! i = Some f /\ f <> 0) ->
  free_fd tbl n = match list_find (fun e => e = None) D with Some (i, _) => Z.of_nat i + n | None => n + Z.of_nat (length tbl) end.
Proof.
  revert D n. induction tbl as [|f tbl IH]; intros [|e D] n Hl Hn Hs; try done; cbn [free_fd list_find length] in *; [lia|].
  destruct e as [e|].
  - rewrite decide_False by done. destruct (Hs 0%nat e eq_refl) as (f' & [= <-] & Hf). destruct (Z.eqb_spec f 0) as [?|_]; [done|].
    rewrite (IH D (n + 1)); [|lia|intros i; apply (Hn (S i))|intros i; apply (Hs (S i))].
    destruct (list_find _ D) as [[i x]|]; cbn; lia.
  - rewrite decide_True by done. pose proof (Hn 0%nat eq_refl) as [= ->]. cbn. lia.
Qed.

(** ** The calls one by one *)

Definition fn_of (c : fcall) : pt_regs -> machine A -> option (outcome * machine A) :=
  match c with
  | COpen _ _ _ => sys_open_fn iops_at fops
  | CRead _ _ _ => sys_read_fn fops
  | CWrite _ _ _ => sys_write_fn fops
  | CClose _ => sys_close_fn fops
  end.

Lemma handler_gate c m s T L k nodes : call_rel m s T L k nodes ->
  handler (regs_of c) m =
    if a_may cap (match c with CWrite _ _ _ => CAP_WRITE | _ => CAP_READ end) then fn_of c (regs_of c) m else ret (- EPERM) m.
Proof.
  intros Hr. unfold syscall_handler, a_may. pose proof (cr_cur _ _ _ _ _ _ Hr) as Hc. pose proof (cr_cap _ _ _ _ _ _ Hr) as Hcap.
  destruct c; cbn [regs_of r_eax fn_of];
    match goal with |- context [syscall_table _ _ _ _ _ _ !! ?i] => let f := eval vm_compute in i in change i with f end;
    cbn [lookup list_lookup syscall_table syscall_caps]; destruct (Z.eqb_spec (cur m) 0) as [?|_]; try done; cbn [default id];
    rewrite Hcap; change (CAP_READ =? 0) with false; change (CAP_WRITE =? 0) with false; cbn [negb andb]; by destruct (_ =? _).
Qed.

Section one_call.
Context (m : machine A) (s : afs) (T : gmap Z kind) (L : gset Z) (k : Z) (nodes : gmap (list Z) Z).
Hypothesis rel : call_rel m s T L k nodes.
Hypothesis k_ok : k <= 2 ^ 31.

(** The call [c] returns [r] in a machine that is in state [s']. *)
Definition steps (x : option (outcome * machine A)) (r : Z) (s' : afs) (n : Z) : Prop :=
  exists m' T' L' nodes', x = Some (Return r, m') /\ call_rel m' s' T' L' (k - n) nodes'.

Lemma steps_same r : steps (ret r m) r s 0.
Proof. exists m, T, L, nodes. split; [done|]. by replace (k - 0) with k by lia. Qed.

Lemma close_steps fd r s' n : word_ok fd -> a_close (int32 fd) s = Some (r, s', n) -> steps (sys_close_fn fops (regs_of (CClose fd)) m) r s' n.
Proof.
  intros Hw. unfold a_close, sys_close_fn. cbn [regs_of r_ebx]. pose proof (fd_exact m s T L k nodes rel (int32 fd)) as Hfd.
  destruct (a_fd (int32 fd) s) as [[name pos]|].
  2:{ intros [= <- <- <-]. rewrite Hfd. apply steps_same. }
  intros [= <- <- <-]. destruct Hfd as (Hr & HD & Ht & Hf0). destruct (Z.eqb_spec (fd_file (int32 fd) m) 0) as [?|_]; [done|].
  pose proof (cr_fs _ _ _ _ _ _ rel) as Hfs. destruct (fr_fds _ _ _ _ _ _ _ _ _ Hfs _ name pos HD) as (f & p & o & Htf & _ & Hn & Hh & Ho & Hpos). simplify_eq.
  pose proof (fs_unregister home _ _ _ _ _ _ _ _ Hfs _ _ HD) as Hun.
  destruct (fs_close tarfs_fops home _ _ _ _ _ _ _ _ Hun (fd_file (int32 fd) m) p pos Hf0) as (v' & T' & L' & -> & Hfs'); [|done|].
  { intros [j Hj]%list_elem_of_lookup. apply list_lookup_insert_Some in Hj as [(_ & ? & _)|[Hne Hj]]; [done|].
    apply Hne. by eapply (fr_apart _ _ _ _ _ _ _ _ _ Hfs). }
  cbn [mbind option_bind]. eexists _, T', L', nodes. split; [done|]. rewrite Z.sub_0_r. apply (rel_fd m s T L k nodes rel); done.
Qed.

Lemma range_user buf len : 0 <= buf -> a_range perm buf len = true -> 0 < len -> user buf /\ buf + len <= KERNEL_BASE.
Proof.
  intros Hb0 Hr Hl. split; [apply perm_user, (range_perm buf len); [|done|lia]|]; unfold a_range in Hr; bool_prop; lia.
Qed.

Lemma write_steps fd buf len r s' n : word_ok fd -> word_ok buf -> word_ok len -> a_write perm (int32 fd) buf len s = Some (r, s', n) -> n <= k ->
  steps (sys_write_fn fops (regs_of (CWrite fd buf len)) m) r s' n.
Proof.
  intros Hw Hb Hl. unfold a_write, sys_write_fn. cbn [regs_of r_ebx r_ecx r_edx]. destruct ((int32 fd =? 1) || (int32 fd =? 2)); [done|].
  pose proof (fd_exact m s T L k nodes rel (int32 fd)) as Hfd. destruct (a_fd (int32 fd) s) as [[name pos]|].
  2:{ intros [= <- <- <-] _. rewrite Hfd. apply steps_same. }
  destruct Hfd as (Hr & HD & Ht & Hf0). destruct (Z.eqb_spec (fd_file (int32 fd) m) 0) as [?|_]; [done|].
  rewrite (range_exact m s T L k nodes rel buf len Hb Hl). cbn [mbind option_bind]. destruct (a_range perm buf len) eqn:Er; cbn [negb].
  2:{ intros [= <- <- <-] _. apply steps_same. }
  destruct (load_exact m s T L k nodes rel buf len Hb Hl Er) as (-> & Hby & Hln). cbn [mbind option_bind].
  pose proof (cr_fs _ _ _ _ _ _ rel) as Hfs. destruct (fr_fds _ _ _ _ _ _ _ _ _ Hfs _ name pos HD) as (f & p & o & Htf & _ & Hn & Hh & Ho & Hpos). simplify_eq.
  rewrite Ho. cbn [mjoin option_join]. destruct (Z.ltb_spec (strlen (default [] o)) pos) as [?|Hend]; [done|].
  destruct (Z.eqb_spec len 0) as [->|Hl0]; intros [= <- <- <-] Hk.
  - change (a_bytes (a_mem s) buf 0) with (@nil Z). destruct (fs_write_nothing tarfs_fops home _ _ _ _ _ _ _ _ Hfs _ name pos _ o HD Ht Ho Hend) as (v' & -> & Hfs').
    cbn [mbind option_bind]. eexists _, T, L, nodes. split; [done|]. rewrite Z.sub_0_r.
    pose proof (rel_kv m s T L k nodes rel v' (a_files s) (a_fds s) T L k nodes Hfs') as Hx. by destruct s.
  - set (bs := a_bytes (a_mem s) buf len) in *. unfold word_ok in *.
    destruct (fs_write tarfs_fops home _ _ _ _ _ _ _ _ Hfs _ name pos _ o bs HD Ht Ho Hend) as (v' & T' & L' & E & Hfs'); [lia|done|lia|done|].
    rewrite E, Hln. cbn [mbind option_bind]. eexists _, T', L', nodes. split; [done|]. rewrite Hln in Hfs'. by apply (rel_kv m s T L k nodes rel).
Qed.

Lemma rel_kp p' mem' v' F' D' T' L' k' nodes' :
  space_ok (mcr3 m) p' -> (forall w, 0 <= w < 2 ^ 32 -> user_ok (mcr3 m) (pmem p') w = user_ok (mcr3 m) (pmem (kp (kern m))) w) ->
  (forall w, user w -> load8 (mcr3 m) p' w = mem' w) -> fs_rel home v' T' L' k' (drop 3 (fd_table (ctask m))) F' D' nodes' ->
  call_rel (set_kp p' (set_kv v' m)) (mk_afs F' D' mem') T' L' k' nodes'.
Proof.
  intros Hs Hu Hl Hf. destruct rel as [Hc Hcr Hcap Hr _ Hp _ Ht _]. split; try done. intros w Hw. rewrite <- Hp by done. by apply Hu.
Qed.

(** The bytes of a read in user memory. *)
Lemma store_exact buf len r : word_ok buf -> word_ok len -> a_range perm buf len = true -> Forall is_byte r -> strlen r <= len ->
  exists p', store_bytes (mcr3 m) buf r (kp (kern m)) = Some p' /\ space_ok (mcr3 m) p' /\
    (forall w, 0 <= w < 2 ^ 32 -> user_ok (mcr3 m) (pmem p') w = user_ok (mcr3 m) (pmem (kp (kern m))) w) /\
    (forall w, user w -> load8 (mcr3 m) p' w = a_store buf r (a_mem s) w).
Proof.
  intros Hb Hl Hr Hby Hle. pose proof (cr_space _ _ _ _ _ _ rel) as Hs. unfold a_store. destruct (decide (r = [])) as [->|Hne].
  { exists (kp (kern m)). splits; try done. intros w Hw. unfold strlen. cbn [length].
    destruct (Z.leb_spec buf w), (Z.ltb_spec w (buf + Z.of_nat 0)); cbn [andb]; try lia; by apply (cr_mem _ _ _ _ _ _ rel). }
  assert (Hr0 : 0 < strlen r) by (destruct r; [done|unfold strlen; cbn [length]; lia]).
  destruct (range_user buf len (proj1 Hb) Hr) as [Hu Hk]; [lia|]. unfold strlen in *.
  destruct (store_string (mcr3 m) (kp (kern m)) buf r Hs Hu) as (p' & E & [Hs' _ Ho] & Hh); [lia|done| |].
  { intros w Hw. apply user_ok_translate. unfold word_ok, KERNEL_BASE in *. rewrite (cr_perm _ _ _ _ _ _ rel) by lia. apply (range_perm buf len); [done|lia]. }
  exists p'. splits; [done|done|intros w Hw; eapply store_bytes_user_ok; try done; lia|].
  intros w Hw. destruct ((buf <=? w) && (w <? buf + Z.of_nat (length r))) eqn:Ew; bool_prop.
  - assert (Hlt : (Z.to_nat (w - buf) < length r)%nat) by lia. apply lookup_lt_is_Some in Hlt as [b Hbb]. rewrite Hbb, <- (Hh _ _ Hbb). f_equal. lia.
  - rewrite Ho by (done || lia). by apply (cr_mem _ _ _ _ _ _ rel).
Qed.

Lemma read_steps fd buf len r s' n : word_ok fd -> word_ok buf -> word_ok len -> a_read perm (int32 fd) buf len s = Some (r, s', n) ->
  steps (sys_read_fn fops (regs_of (CRead fd buf len)) m) r s' n.
Proof.
  intros Hw Hb Hl. unfold a_read, sys_read_fn. cbn [regs_of r_ebx r_ecx r_edx]. pose proof (cr_cur _ _ _ _ _ _ rel) as Hc.
  destruct (Z.eqb_spec (cur m) 0) as [?|_]; [done|]. destruct (int32 fd =? 0); [done|].
  pose proof (fd_exact m s T L k nodes rel (int32 fd)) as Hfd. destruct (a_fd (int32 fd) s) as [[name pos]|].
  2:{ intros [= <- <- <-]. rewrite Hfd. apply steps_same. }
  destruct Hfd as (Hr & HD & Ht & Hf0). destruct (Z.eqb_spec (fd_file (int32 fd) m) 0) as [?|_]; [done|].
  rewrite (range_exact m s T L k nodes rel buf len Hb Hl). cbn [mbind option_bind]. destruct (a_range perm buf len) eqn:Er; cbn [negb].
  2:{ intros [= <- <- <-]. apply steps_same. }
  pose proof (cr_fs _ _ _ _ _ _ rel) as Hfs. destruct (fr_fds _ _ _ _ _ _ _ _ _ Hfs _ name pos HD) as (f & p & o & Htf & _ & Hn & Hh & Ho & Hpos). simplify_eq.
  rewrite Ho. cbn [mjoin option_join]. destruct o as [c|]; intros [= <- <- <-].
  - destruct (fs_read tarfs_fops home _ _ _ _ _ _ _ _ Hfs _ name pos _ c len HD Ht Ho Hl) as (v' & E & Hby & Hle & Hfs'). cbv zeta in *.
    rewrite E. cbn [mbind option_bind]. set (bs := take _ _) in *. destruct (store_exact buf len bs Hb Hl Er Hby Hle) as (p' & -> & Hs' & Hu & Hld).
    cbn [mbind option_bind]. eexists _, T, L, nodes. split; [done|]. rewrite Z.sub_0_r. by apply rel_kp.
  - rewrite (fs_read_unwritten tarfs_fops home _ _ _ _ _ _ _ _ Hfs _ name pos _ len HD Ht Ho). cbn [mbind option_bind store_bytes].
    eexists _, T, L, nodes. split; [done|]. rewrite Z.sub_0_r.
    assert (Hx : call_rel (set_kp (kp (kern m)) (set_kv (kv (kern m)) m)) (mk_afs (a_files s) (a_fds s) (a_mem s)) T L k nodes).
    { destruct rel as [_ _ _ _ Hs _ Hm _ _]. by apply rel_kp. }
    by destruct s.
Qed.

(** A file that was opened gets the first free descriptor, or is closed again. *)
Lemma give_steps name p o f v' F' T' L' n nodes' : f <> 0 -> f ∉ drop 3 (fd_table (ctask m)) -> handle v' f p 0 -> nodes' !! name = Some p ->
  F' !! name = Some o -> fs_rel home v' T' L' (k - n) (drop 3 (fd_table (ctask m))) F' (a_fds s) nodes' ->
  let m1 := set_kv v' m in
  let '(r, s') := a_give name (mk_afs F' (a_fds s) (a_mem s)) in
  steps (let fd := free_fd (drop 3 (fd_table (ctask m1))) 3 in
         if FD_MAX <=? fd then '(_, v) ← Vfs.vfs_close fops f (kv (kern m1)); ret (- ENOMEM) (set_kv v m1) else ret fd (set_fd fd f m1)) r s' n.
Proof.
  intros Hf0 Hft Hh Hn Ho Hfs m1. change (fd_table (ctask m1)) with (fd_table (ctask m)). cbv zeta. change (kv (kern m1)) with v'.
  pose proof (cr_tbl _ _ _ _ _ _ rel) as Ht. pose proof (fr_len _ _ _ _ _ _ _ _ _ Hfs) as Hl. pose proof Hl as Hl'. rewrite length_drop, Ht in Hl'.
  rewrite (free_fd_find _ (a_fds s) 3 Hl (fr_closed _ _ _ _ _ _ _ _ _ Hfs)).
  2:{ intros i [nm pos] Hi. destruct (fr_fds _ _ _ _ _ _ _ _ _ Hfs i nm pos Hi) as (g & _ & _ & Hg & Hg0 & _). eauto. }
  unfold a_give. cbn [a_fds a_files a_mem]. rewrite length_drop, Ht. unfold FD_MAX in *. destruct (list_find _ (a_fds s)) as [[i e]|] eqn:Ef.
  - apply list_find_Some in Ef as (Hi & -> & _). pose proof (lookup_lt_Some _ _ _ Hi). destruct (Z.leb_spec 8 (Z.of_nat i + 3)); [lia|].
    eexists _, T', L', nodes'. split; [done|]. apply (rel_fd m s T L k nodes rel); [unfold FD_MAX; lia|]. replace (Z.to_nat (Z.of_nat i + 3 - 3)) with i by lia.
    by eapply fs_register.
  - change (8 <=? 3 + Z.of_nat (Z.to_nat 8 - 3)) with true.
    destruct (fs_close tarfs_fops home _ _ _ _ _ _ _ _ Hfs f p 0 Hf0 Hft Hh) as (v2 & T2 & L2 & -> & Hfs2). cbn [mbind option_bind].
    eexists _, T2, L2, nodes'. split; [done|]. by apply (rel_kv m s T L k nodes rel).
Qed.

Lemma resolve_ok path : cstr path -> (length path <= 127)%nat -> cstr (resolve_path root path 128) /\ strlen (resolve_path root path 128) <= 4096.
Proof.
  intros Hp Hl. unfold resolve_path. destruct (_ || _); [unfold strlen; split; [done|lia]|].
  destruct (Z.ltb_spec 128 (strlen root + strlen path + 2)); [unfold strlen; split; [done|lia]|]. unfold strlen in *.
  assert (Hs : cstr [SLASH]) by (repeat constructor). destruct (negb _); rewrite !cstr_app, !length_app; cbn [length]; split; try done; lia.
Qed.

Lemma home_name_spec path name : home_name home path = Some name -> cstr path -> path = home_path home name /\ name_ok name.
Proof.
  unfold home_name. cbv zeta. destruct (_ && _) eqn:E; [|done]. intros [= <-] Hc. rewrite !andb_true_iff, !bool_decide_eq_true in E.
  destruct E as [[E1 E2] E3]. split; [done|]. split; [done|]. split; [by apply Forall_drop|done].
Qed.

Lemma open_steps a flags mode r s' n : word_ok a -> a_open perm home root a flags s = Some (r, s', n) -> n <= k ->
  steps (sys_open_fn iops_at fops (regs_of (COpen a flags mode)) m) r s' n /\ 0 <= n.
Proof.
  intros Ha. unfold a_open, sys_open_fn. cbn [regs_of r_ebx r_ecx r_edx]. pose proof (cr_cur _ _ _ _ _ _ rel) as Hc.
  destruct (Z.eqb_spec (cur m) 0) as [?|_]; [done|]. rewrite (path_exact m s T L k nodes rel a Ha). cbn [mbind option_bind].
  destruct (a_path perm (a_mem s) a) as [path|] eqn:Ep.
  2:{ intros [= <- <- <-] _. split; [apply steps_same|done]. }
  assert (Hp : cstr path /\ (length path <= 127)%nat) by (unfold a_path, word_ok, KERNEL_BASE in *; destruct (Z.leb_spec 0xC0000000 a); [done|];
    eapply (string_cstr m s T L k nodes rel); [| |exact Ep]; unfold KERNEL_BASE; lia).
  destruct Hp as [Hpc Hpl]. rewrite (cr_root _ _ _ _ _ _ rel). destruct (resolve_ok path Hpc Hpl) as [Hrc Hrl]. set (q := resolve_path root path 128) in *. clearbody q.
  destruct (home_name home q) as [name|] eqn:Eh; [|done]. cbn [mbind option_bind]. destruct (home_name_spec q name Eh Hrc) as [-> Hname].
  set (mode' := Z.lor _ _). pose proof (cr_fs _ _ _ _ _ _ rel) as Hfs. pose proof (fr_dom _ _ _ _ _ _ _ _ _ Hfs name) as Hdom.
  pose proof (strlen_nonneg name) as Hn0. pose proof (strlen_nonneg (home_path home name)) as Hq0.
  assert (Hroom : 0 <= open_room (home_path home name) /\ 0 <= create_room name) by (unfold open_room, lookup_room, create_room; lia).
  assert (Hmiss : nodes !! name = None \/ denied root (home_path home name) = true -> open_room (home_path home name) <= k ->
    exists v1, vfs_open iops_at fops root (home_path home name) flags (kv (kern m)) = Some (0, v1) /\
      fs_rel home v1 T L (k - open_room (home_path home name)) (drop 3 (fd_table (ctask m))) (a_files s) (a_fds s) nodes).
  { intros H1 H2. by apply fs_open_missing. }
  destruct (a_files s !! name) as [old|] eqn:Eold.
  - assert (Hnode : is_Some (nodes !! name)) by (apply Hdom; eauto). destruct Hnode as [p Hn].
    destruct (denied root (home_path home name)) eqn:Eden.
    + intros [= <- <- <-] Hk. split; [|destruct (tst flags O_CREAT); lia].
      destruct Hmiss as (v1 & -> & Hfs1); [by right|destruct (tst flags O_CREAT); lia|]. cbn [mbind option_bind]. change (0 =? 0) with true. cbn [andb].
      destruct (tst flags O_CREAT).
      * destruct (fs_create_exists tarfs_fops home v1 T L _ _ _ _ _ Hfs1 name Hname (conj Hrc Hrl) p mode' Hn) as (v2 & -> & Hfs2); [lia|].
        cbn [mbind option_bind]. change (0 =? 0) with true. eexists _, T, L, nodes. split; [done|]. rewrite Z.sub_add_distr.
        pose proof (rel_kv m s T L k nodes rel v2 _ _ _ _ _ _ Hfs2) as Hx. by destruct s.
      * cbn [mbind option_bind]. change (0 =? 0) with true. eexists _, T, L, nodes. split; [done|]. rewrite Z.add_0_r.
        pose proof (rel_kv m s T L k nodes rel v1 _ _ _ _ _ _ Hfs1) as Hx. by destruct s.
    + assert (Hopen : forall F', F' = (if tst flags O_TRUNC then <[name := (fun _ => []) <$> old]> (a_files s) else a_files s) ->
        open_room (home_path home name) <= k ->
        exists f v1 T1 L1, vfs_open iops_at fops root (home_path home name) flags (kv (kern m)) = Some (f, v1) /\ f <> 0 /\
          (f ∉ drop 3 (fd_table (ctask m))) /\ handle v1 f p 0 /\ is_Some (F' !! name) /\
          fs_rel home v1 T1 L1 (k - open_room (home_path home name)) (drop 3 (fd_table (ctask m))) F' (a_fds s) nodes).
      { intros F' -> Hk. destruct (fs_open tarfs_fops home _ _ _ _ _ _ _ _ Hfs name root Hname (conj Hrc Hrl) root_ok p old flags Hn Eold Eden Hk)
          as (f & v1 & T1 & L1 & E & H1 & H2 & H3 & H4).
        exists f, v1, T1, L1. splits; try done. destruct (tst flags O_TRUNC); [rewrite lookup_insert_eq|]; eauto. }
      intros Hres Hk. assert (Hgive : exists F', F' = (if tst flags O_TRUNC then <[name := (fun _ => []) <$> old]> (a_files s) else a_files s) /\
        (r, s') = a_give name (mk_afs F' (a_fds s) (a_mem s)) /\ n = open_room (home_path home name)).
      { destruct (tst flags O_TRUNC).
        - eexists. split; [done|]. destruct (a_give name _). by simplify_eq.
        - eexists. split; [done|]. replace (mk_afs (a_files s) (a_fds s) (a_mem s)) with s by (by destruct s). destruct (a_give name _). by simplify_eq. }
      destruct Hgive as (F' & EF & Eg & ->). destruct (Hopen F' EF Hk) as (f & v1 & T1 & L1 & -> & H1 & H2 & H3 & [o Ho] & H4).
      split; [|lia]. cbn [mbind option_bind]. destruct (Z.eqb_spec f 0) as [?|_]; [done|]. cbn [andb mbind option_bind].
      destruct (Z.eqb_spec f 0) as [?|_]; [done|]. pose proof (give_steps name p o f v1 F' T1 L1 _ nodes H1 H2 H3 Hn Ho H4) as Hg. rewrite <- Eg in Hg. exact Hg.
  - assert (Hnone : nodes !! name = None) by (apply eq_None_not_Some; rewrite Hdom; by intros []).
    destruct (tst flags O_CREAT) eqn:Ec; intros Hres Hk.
    + assert (Hg0 : (r, s') = a_give name (mk_afs (<[name := None]> (a_files s)) (a_fds s) (a_mem s)) /\ n = open_room (home_path home name) + create_room name)
        by (destruct (a_give name _); by simplify_eq).
      destruct Hg0 as [Eg ->]. split; [|lia]. destruct Hmiss as (v1 & -> & Hfs1); [by left|lia|]. cbn [mbind option_bind]. change (0 =? 0) with true. cbn [andb].
      destruct (fs_create tarfs_fops home v1 T L _ _ _ _ _ Hfs1 name root Hname (conj Hrc Hrl) root_ok mode' Hnone) as (f & p & v2 & T2 & L2 & -> & H1 & H2 & H3 & H4); [lia|].
      cbn [mbind option_bind]. destruct (Z.eqb_spec f 0) as [?|_]; [done|]. rewrite <- Z.sub_add_distr in H4.
      pose proof (give_steps name p None f v2 _ T2 L2 _ _ H1 H2 H3 (lookup_insert_eq _ _ _) (lookup_insert_eq _ _ _) H4) as Hg. rewrite <- Eg in Hg. exact Hg.
    + injection Hres as <- <- <-. split; [|lia]. destruct Hmiss as (v1 & -> & Hfs1); [by left|lia|]. cbn [mbind option_bind]. change (0 =? 0) with true. cbn [andb mbind option_bind].
      eexists _, T, L, nodes. split; [done|]. pose proof (rel_kv m s T L k nodes rel v1 _ _ _ _ _ _ Hfs1) as Hx. by destruct s.
Qed.
End one_call.

Lemma call_steps c m s T L k nodes r s' n :
  call_rel m s T L k nodes -> k <= 2 ^ 31 -> fcall_ok c -> a_call perm home root cap c s = Some (r, s', n) -> n <= k ->
  0 <= n /\ exists m' T' L' nodes', run_call c m = Some (r, m') /\ call_rel m' s' T' L' (k - n) nodes'.
Proof.
  intros Hr Hk31 Hok E Hk. unfold run_call. rewrite (handler_gate c m s T L k nodes Hr). unfold a_call in E. cbv zeta in E.
  destruct (a_may cap _); cbn [negb] in E.
  2:{ simplify_eq. split; [done|]. cbn. exists m, T, L, nodes. split; [done|]. by rewrite Z.sub_0_r. }
  assert (Hs : steps k (fn_of c (regs_of c) m) r s' n /\ 0 <= n).
  { destruct c as [a flags mode|fd buf len|fd buf len|fd]; cbn [fn_of fcall_ok] in *.
    - destruct Hok as (Ha & _). by apply (open_steps m s T L k nodes).
    - destruct Hok as (H1 & H2 & H3). split; [by apply (read_steps m s T L k nodes)|].
      unfold a_read in E. repeat case_match; simplify_eq; done.
    - destruct Hok as (H1 & H2 & H3). split; [by apply (write_steps m s T L k nodes)|].
      pose proof (fd_exact m s T L k nodes Hr (int32 fd)) as Hfd. unfold a_write in E. destruct (_ || _); [done|].
      destruct (a_fd (int32 fd) s) as [[name pos]|]; [|by simplify_eq]. destruct (negb _); [by simplify_eq|]. destruct (_ <? _); [done|]. destruct (_ =? _); simplify_eq; [done|].
      destruct Hfd as (_ & HD & _). destruct (fr_fds _ _ _ _ _ _ _ _ _ (cr_fs _ _ _ _ _ _ Hr) _ name pos HD) as (f & p & o & _ & _ & _ & _ & _ & Hpos).
      unfold word_ok in *. lia.
    - split; [by apply (close_steps m s T L k nodes)|]. unfold a_close in E. by destruct (a_fd _ _); simplify_eq. }
  destruct Hs as [(m' & T' & L' & nodes' & Ex & Hr') Hn]. rewrite Ex. eauto 10.
Qed.

(** C6: The file system calls keep their promise.  Whatever sequence of [open], [read], [write]
    and [close] a program makes on the files of memfs, with any flags (the truncation of an
    open file included), descriptors, lengths and pointers, good or bad, except for a write
    through a descriptor whose position is behind the end of its file (after somebody else
    truncated it; see truncation_exposes_old_bytes), the kernel answers each call as the store of named files predicts,
    error codes included, moves exactly the predicted bytes between the files and the memory of
    the program, and keeps its invariants, as long as the heap has the predicted room. *)
Theorem file_calls_refine cs m s T L k nodes rs s' k' :
  call_rel m s T L k nodes -> k <= 2 ^ 31 -> Forall fcall_ok cs -> a_calls perm home root cap cs s k = Some (rs, s', k') ->
  exists m' T' L' nodes', run_calls cs m = Some (rs, m') /\ call_rel m' s' T' L' k' nodes'.
Proof.
  intros Hr Hk31 Hok. revert m s T L k nodes rs Hr Hk31. induction Hok as [|c cs Hc Hok IH]; intros m s T L k nodes rs Hr Hk31 E; cbn [a_calls run_calls] in *.
  { simplify_eq. by exists m, T, L, nodes. }
  apply bind_Some in E as ([[r1 s1] n1] & E1 & E). destruct (Z.leb_spec n1 k); [|done]. apply bind_Some in E as ([[rs2 s2] k2] & E2 & E). simplify_eq.
  destruct (call_steps c m s T L k nodes r1 s1 n1 Hr Hk31 Hc E1) as (Hn1 & m1 & T1 & L1 & nodes1 & -> & Hr1); [lia|]. cbn [mbind option_bind].
  destruct (IH m1 s1 T1 L1 (k - n1) nodes1 rs2 Hr1) as (m2 & T2 & L2 & nodes2 & -> & Hr2); [lia|done|]. cbn [mbind option_bind].
  by exists m2, T2, L2, nodes2.
Qed.
End refine.

(** ** A program that saves five bytes and reads them back *)

Definition note_path : Z := USER_STACK_VIRT.
Definition note_text : Z := USER_STACK_VIRT + 16.
Definition note_dest : Z := USER_STACK_VIRT + 32.
Definition note_bytes : list Z := lit "/home/a" ++ [0; 0; 0; 0; 0; 0; 0; 0; 0] ++ lit "hello".

(** A stack page that holds the path and the text. *)
Definition note_mem : paging := default one_page (store_bytes 0x1000 note_path note_bytes one_page).

Definition note_machine : machine bump :=
  mk_machine (mk_kernel note_mem (mk_sched {[ 1 := zero_task <| in_use := 1 |> <| caps := Z.lor CAP_READ CAP_WRITE |> ]} ∅ ∅ 1 2 0 0x1000 1) boot_fs ∅ ∅)
    kbd_zero (mk_vga ∅ 0 0 ∅) [] [] (mk_sb 0 0 0 0 0).
Definition note_perm : Z -> bool := user_ok 0x1000 (pmem note_mem).
Definition note_state : afs := mk_afs ∅ (replicate 5 None) (load8 0x1000 note_mem).
Definition note_calls : list fcall :=
  [COpen note_path O_CREAT 0x1A4; CWrite 3 note_text 5; CClose 3; COpen note_path O_RDONLY 0; CRead 3 note_dest 10; CRead 4 note_dest 10].

Lemma note_mem_ok : space_ok 0x1000 note_mem /\ forall v, 0 <= v < 2 ^ 32 -> note_perm v = user_ok 0x1000 (pmem one_page) v.
Proof.
  unfold note_perm, note_mem. assert (El : Z.of_nat (length note_bytes) = 21) by reflexivity.
  assert (Hu : user note_path) by (unfold user, note_path, USER_STACK_VIRT, KERNEL_BASE; lia).
  destruct (store_bytes_spec note_bytes 0x1000 one_page note_path one_page_space Hu) as (p' & E & Hs' & _).
  - rewrite El. unfold note_path, USER_STACK_VIRT, KERNEL_BASE. lia.
  - intros w Hw. rewrite El in Hw. unfold note_path, USER_STACK_VIRT in Hw. destruct (one_page_user w) as [-> _]; [unfold KERNEL_BASE; lia|].
    rewrite decide_True by zmod. eauto.
  - rewrite E. cbn [default id]. split; [exact Hs'|]. intros v Hv. eapply store_bytes_user_ok; [exact one_page_space|exact Hu| |exact E|exact Hv].
    rewrite El. unfold note_path, USER_STACK_VIRT, KERNEL_BASE. lia.
Qed.

Lemma note_perm_user v : 0 <= v < KERNEL_BASE + 128 -> note_perm v = true -> user v.
Proof.
  intros Hv Hp. destruct (one_page_user v Hv) as [_ E]. unfold KERNEL_BASE in Hv. rewrite (proj2 note_mem_ok), E in Hp by lia.
  apply bool_decide_eq_true in Hp. unfold user, KERNEL_BASE. zmod.
Qed.

(** A memfs at /home without files. *)
Lemma empty_home (v : vfs bump) T L k sb dir ino :
  fs_ok v T -> roots_ok v -> memfs_ok v -> mem_ok v T L k -> mounts v = [(lit "/home", sb)] -> dir <> 0 ->
  s_root <$> supers v !! sb = Some dir -> d_inode <$> dentries v !! dir = Some ino ->
  (fun i => (i_op i, i_children i)) <$> inodes v !! ino = Some (MEMFS_OPS, 0) ->
  fs_rel (lit "/home") v T L k (replicate 5 0) ∅ (replicate 5 None) ∅.
Proof.
  intros Hv Hr Hmo Hm Em Hd0 (b & Eb & Es)%fmap_Some (de & Ede & Ed)%fmap_Some (di & Edi & [= Eop Ech])%fmap_Some.
  split; try done.
  - exists sb, dir, ino, di. split; [split; [by exists b|split]|].
    + split; [done|]. split; [by exists de|]. done.
    + intros name Hn. rewrite Em. right. exists (lit "/home"), sb, [], []. splits; try done.
      * exists (SLASH :: name). split; [done|]. right. by exists name.
      * intros mp' sb' [[= -> ->]|Hx]%elem_of_cons _; [done|by apply not_elem_of_nil in Hx].
      * intros mp' sb' Hx. by apply not_elem_of_nil in Hx.
    + intros name Hn. rewrite lookup_empty. intros c (de' & di' & ds1 & ds2 & E1 & E2 & _ & Hl & _). assert (de' = de) as -> by congruence. assert (di' = di) as -> by congruence.
      rewrite <- Ech in Hl. apply llist_nil_iff in Hl as [H1 _]. assert (E : ds1 ++ c :: ds2 = []) by (by apply H1). by destruct ds1.
  - intros name. rewrite !lookup_empty. by split; intros [].
  - intros i name pos Hi. apply lookup_replicate in Hi as [? _]. done.
  - intros i Hi. apply lookup_replicate in Hi as [_ Hi]. by apply lookup_replicate.
  - intros i j f Hi _ Hf. apply lookup_replicate in Hi as [-> _]. done.
Qed.

Lemma note_fs_rel : fs_rel (lit "/home") boot_fs (kinds boot_fs) (b_live (mem boot_fs)) 100000 (replicate 5 0) ∅ (replicate 5 None) ∅.
Proof.
  apply (empty_home boot_fs _ _ _ 110 186 130); [exact boot_fs_ok|exact boot_roots_ok| |exact boot_mem_ok|vm_compute; reflexivity|lia|vm_compute; reflexivity..].
  apply memfs_okb_sound. vm_compute. reflexivity.
Qed.

Lemma note_rel : call_rel 0x1000 note_perm (lit "/home") [] (Z.lor CAP_READ CAP_WRITE) note_machine note_state (kinds boot_fs) (b_live (mem boot_fs)) 100000 ∅.
Proof.
  split; [discriminate|reflexivity|reflexivity|reflexivity|exact (proj1 note_mem_ok)|reflexivity|reflexivity|reflexivity|exact note_fs_rel].
Qed.

Definition note_result : option (list Z * list Z) :=
  (fun x => (x.1.1, a_bytes (a_mem x.1.2) note_dest 5)) <$> a_calls note_perm (lit "/home") [] (Z.lor CAP_READ CAP_WRITE) note_calls note_state 100000.

Lemma note_run_value : note_result = Some ([3; 5; 0; 3; 5; - EINVAL], lit "hello").
Proof. vm_compute. reflexivity. Qed.

Lemma file_calls_refine_witness :
  exists m', run_calls 0 0 (fun _ => 0) (fun _ => 0) no_tarfs note_calls note_machine = Some ([3; 5; 0; 3; 5; - EINVAL], m') /\
    forall i b, lit "hello" !! i = Some b -> default 0 (load8 0x1000 (kp (kern m')) (note_dest + Z.of_nat i)) = b.
Proof.
  pose proof note_run_value as Hv. unfold note_result in Hv.
  destruct (a_calls note_perm (lit "/home") [] (Z.lor CAP_READ CAP_WRITE) note_calls note_state 100000) as [[[rs s'] k']|] eqn:E; [|done].
  apply (inj Some), pair_equal_spec in Hv as [Hrs Hb]. cbn [fst snd] in Hrs, Hb.
  destruct (file_calls_refine 0 0 (fun _ => 0) (fun _ => 0) no_tarfs 0x1000 note_perm (lit "/home") [] (Z.lor CAP_READ CAP_WRITE) note_perm_user ltac:(constructor)
    note_calls note_machine note_state (kinds boot_fs) (b_live (mem boot_fs)) 100000 ∅ rs s' k' note_rel) as (m' & T' & L' & nodes' & Er & Hr).
  - lia.
  - repeat constructor; unfold word_ok, note_path, note_text, note_dest, USER_STACK_VIRT, O_CREAT, O_RDONLY; lia.
  - exact E.
  - exists m'. rewrite Hrs in Er. split; [exact Er|]. intros i b Hi. pose proof (cr_mem _ _ _ _ _ _ _ _ _ _ _ Hr (note_dest + Z.of_nat i)) as Hm.
    rewrite (cr_cr3 _ _ _ _ _ _ _ _ _ _ _ Hr) in Hm. pose proof (lookup_lt_Some _ _ _ Hi) as Hlt. change (length (lit "hello")) with 5%nat in Hlt.
    rewrite Hm by (unfold user, note_dest, USER_STACK_VIRT, KERNEL_BASE; lia). rewrite <- Hb in Hi. unfold a_bytes in Hi.
    rewrite list_lookup_fmap, lookup_seqZ_lt in Hi by lia. cbn in Hi. by injection Hi.
Defined.

(** ** Truncating an open file *)

(** A program that writes five bytes, truncates the file with a second [open] and writes one
    byte through the first descriptor gets the truncated bytes back: the position of the
    first descriptor is still 5, and [memfs_write] makes everything below it part of the file
    again. *)
Definition trunc_calls : list fcall :=
  [COpen note_path O_CREAT 0x1A4; CWrite 3 note_text 5; COpen note_path O_TRUNC 0; CWrite 3 note_text 1; CRead 4 note_dest 10].

Theorem truncation_exposes_old_bytes :
  exists m', run_calls 0 0 (fun _ => 0) (fun _ => 0) no_tarfs trunc_calls note_machine = Some ([3; 5; 4; 1; 6], m') /\
    load_bytes 0x1000 (kp (kern m')) note_dest 6 = Some (lit "helloh").
Proof.
  assert (Hc : match run_calls 0 0 (fun _ => 0) (fun _ => 0) no_tarfs trunc_calls note_machine with
    | Some (rs, m') => bool_decide (rs = [3; 5; 4; 1; 6] /\ load_bytes 0x1000 (kp (kern m')) note_dest 6 = Some (lit "helloh"))
    | None => false end = true) by (vm_compute; reflexivity).
  destruct (run_calls 0 0 _ _ no_tarfs trunc_calls note_machine) as [[rs m']|]; [|discriminate Hc]. exists m'.
  apply bool_decide_eq_true in Hc as [-> Hm]. split; [reflexivity|exact Hm].
Qed.

(** When that write has to grow the buffer, the bytes below the position are what the heap
    happened to hold: here 64 bytes of 0xCC, the fill of the allocator of this run. *)
Theorem truncation_exposes_heap_bytes :
  exists v g v', (('(_, v) ← vfs_write (fops_at no_tarfs) 433 (replicate 64 7) file_fs;
      '(g, v) ← vfs_open iops_at (fops_at no_tarfs) [] (lit "/home/a") O_TRUNC v;
      '(_, v) ← vfs_write (fops_at no_tarfs) 433 [7] v; Some (g, v)) = Some (g, v)) /\
    vfs_read (fops_at no_tarfs) g 100 v = Some (65, replicate 64 0xCC ++ [7], v').
Proof.
  set (x := '(_, v) ← _; _).
  assert (Hc : match x with
    | Some (g, v) => match vfs_read (fops_at no_tarfs) g 100 v with
      | Some (r, bs, _) => bool_decide (r = 65 /\ bs = replicate 64 0xCC ++ [7]) | None => false end
    | None => false end = true) by (vm_compute; reflexivity).
  destruct x as [[g v]|]; [|discriminate Hc]. exists v, g.
  destruct (vfs_read (fops_at no_tarfs) g 100 v) as [[[r bs] v']|]; [|discriminate Hc]. exists v'.
  apply bool_decide_eq_true in Hc as [-> ->]. split; reflexivity.
Qed.
