(* ===== verification/User.v ===== *)
(** * User programs (src/user/lib/syscall.h, src/user/povi/syscall.hpp)

    A user program is a tree of system calls: [Sys c k] traps with the call [c] and goes on as
    [k r] when the kernel answers [r].  The wrappers of the user library build one call each.
    Arrays of the program are lists; an access outside of an array is [Fault], and [Exit]
    does not return.  [interp] runs a program against a kernel, given as a handler of calls. *)

From S2P Require Import Prelude Cstr.

(** ** System calls, by the value in EAX and their arguments

    A pointer argument stands for the bytes it points to.  [Exec] has the strings of argv up
    to the NULL pointer, and [None] when the array has no NULL pointer. *)

Record fork_sandbox_config_user := mk_config_user {
  u_caps_allow : Z;
  u_mem_limit : Z;
  u_cpu_quota : Z;
  u_root_path : option (list Z);
  u_tier_override : Z;
}.
#[global] Instance eta_config_user : Eta fork_sandbox_config_user := fun c =>
  mk_config_user (u_caps_allow c) (u_mem_limit c) (u_cpu_quota c) (u_root_path c) (u_tier_override c).

Record sandbox_status_user := mk_status_user {
  us_pid : Z;
  us_caps : Z;
  us_tier : Z;
  us_mem_limit_lo : Z;
  us_mem_limit_hi : Z;
  us_cpu_quota : Z;
  us_pages_charged : Z;
  us_quota_used_ticks : Z;
  us_root_path : list Z;
}.

Inductive call :=
| Write (fd : Z) (bytes : list Z)
| Open (path : list Z) (flags : Z)
| Getchar
| Putchar (c : Z)
| Clear
| Reboot
| Poweroff
| TierQuery
| TierRequest (tier : Z)
| Fork
| Exec (path : list Z) (argv : option (list (list Z)))
| Wait (pid : Z)
| ForkWithSandbox (config : fork_sandbox_config_user)
| MlfqQuery
| Yield
| Read (fd : Z) (buflen : Z)
| Close (fd : Z)
| Kill (pid : Z)
| SetTier (tier : Z)
| Uname
| Ls (path : list Z) (buflen : Z)
| SandboxQuery.

(** What comes back: the value of EAX; for a call that fills a buffer, [inl] an error code,
    or [inr] the bytes it wrote, whose number is the value of EAX. *)
Definition resp (c : call) : Type :=
  match c with
  | Putchar _ | Clear | Reboot | Poweroff | Yield => unit
  | Read _ _ | Ls _ _ | Uname => Z + list Z
  | SandboxQuery => Z + sandbox_status_user
  | _ => Z
  end.

(** EAX on entry. *)
Definition call_nr (c : call) : Z :=
  match c with
  | Write _ _ => 0 | Open _ _ => 1 | Getchar => 3 | Putchar _ => 4 | Clear => 5 | Reboot => 6
  | Poweroff => 7 | TierQuery => 8 | TierRequest _ => 9 | Fork => 10 | Exec _ _ => 11 | Wait _ => 12
  | ForkWithSandbox _ => 13 | MlfqQuery => 14 | Yield => 15 | Read _ _ => 16 | Close _ => 17
  | Kill _ => 18 | SetTier _ => 19 | Uname => 20 | Ls _ _ => 21 | SandboxQuery => 22
  end.

Definition SYS_EXIT : Z := 2.

(** ** Programs *)

Inductive prog (A : Type) : Type :=
| Ret (a : A)
| Exit (code : Z)
| Fault
| Sys (c : call) (k : resp c -> prog A).
Arguments Ret {A} a.
Arguments Exit {A} code.
Arguments Fault {A}.
Arguments Sys {A} c k.

#[global] Instance prog_ret : MRet prog := @Ret.
#[global] Instance prog_bind : MBind prog := fun A B f =>
  fix bind (p : prog A) : prog B :=
    match p with
    | Ret a => f a
    | Exit code => Exit code
    | Fault => Fault
    | Sys c k => Sys c (fun r => bind (k r))
    end.

Definition lift {A} (o : option A) : prog A := match o with Some a => Ret a | None => Fault end.

(** One system call. *)
Definition trap (c : call) : prog (resp c) := Sys c Ret.

(** ** The wrappers *)

Definition sys_open (path : list Z) (flags : Z) : prog Z := trap (Open path flags).
Definition sys_read (fd len : Z) : prog (Z + list Z) := trap (Read fd len).
Definition sys_close (fd : Z) : prog Z := trap (Close fd).
Definition sys_write (s : list Z) : prog Z := trap (Write 1 s).
Definition sys_write_fd (fd : Z) (s : list Z) : prog Z := trap (Write fd s).
Definition sys_getchar : prog Z := trap Getchar.
Definition sys_putchar (c : Z) : prog unit := trap (Putchar c).
Definition sys_clear : prog unit := trap Clear.
Definition sys_reboot : prog unit := trap Reboot.
Definition sys_poweroff : prog unit := trap Poweroff.
Definition sys_exit {A} (code : Z) : prog A := Exit code.
Definition sys_tier_query : prog Z := trap TierQuery.
Definition sys_tier_request (tier : Z) : prog Z := trap (TierRequest tier).
Definition sys_mlfq_query : prog Z := trap MlfqQuery.
Definition sys_yield : prog unit := trap Yield.
Definition sys_fork : prog Z := trap Fork.
Definition sys_fork_with_sandbox (config : fork_sandbox_config_user) : prog Z := trap (ForkWithSandbox config).
Definition sys_exec (path : list Z) (argv : option (list (list Z))) : prog Z := trap (Exec path argv).
Definition sys_wait (pid : Z) : prog Z := trap (Wait pid).
Definition sys_kill (pid : Z) : prog Z := trap (Kill pid).
Definition sys_set_tier (tier : Z) : prog Z := trap (SetTier tier).
Definition sys_uname : prog (Z + list Z) := trap Uname.
Definition sys_sandbox_query : prog (Z + sandbox_status_user) := trap SandboxQuery.
Definition sys_ls (path : list Z) (buflen : Z) : prog (Z + list Z) := trap (Ls path buflen).

(** ** Arrays *)

(** The C string at the start of an array; [None]: no NUL in the array. *)
Fixpoint cstring (l : list Z) : option (list Z) :=
  match l with
  | [] => None
  | c :: l' => if c =? 0 then Some [] else cons c <$> cstring l'
  end.

(** [a[i] = v]; [None]: out of bounds. *)
Definition aset {X} (l : list X) (i : Z) (v : X) : option (list X) :=
  if (0 <=? i) && (i <? Z.of_nat (length l)) then Some (<[Z.to_nat i := v]> l) else None.

Definition aget {X} (l : list X) (i : Z) : option X :=
  if (0 <=? i) then l !! Z.to_nat i else None.

(** ** Running a program *)

Inductive outcome (A : Type) : Type :=
| Done (a : A)
| Exited (code : Z)
| Crashed.
Arguments Done {A} a.
Arguments Exited {A} code.
Arguments Crashed {A}.

Section Interp.
Context {W : Type} (kernel : forall c : call, W -> resp c * W).

Fixpoint interp {A} (p : prog A) (w : W) : outcome A * W :=
  match p with
  | Ret a => (Done a, w)
  | Exit code => (Exited code, w)
  | Fault => (Crashed, w)
  | Sys c k => let '(r, w) := kernel c w in interp (k r) w
  end.

Definition obind {A B} (f : A -> W -> outcome B * W) (r : outcome A * W) : outcome B * W :=
  match r with
  | (Done a, w) => f a w
  | (Exited code, w) => (Exited code, w)
  | (Crashed, w) => (Crashed, w)
  end.

Lemma interp_bind {A B} (p : prog A) (f : A -> prog B) w :
  interp (p ≫= f) w = obind (fun a => interp (f a)) (interp p w).
Proof.
  revert w. induction p as [a|code| |c k IH]; intros w; try reflexivity.
  simpl. destruct (kernel c w) as [r w']. apply IH.
Qed.
End Interp.

(** ** A predicate for every answer of the kernel: [wp p Q] holds when [p] does not fault,
    whatever the kernel answers within [ok], and [Q] holds of the trace of calls and the
    result. *)
Record event := mk_event { ev_call : call; ev_resp : resp ev_call }.

Fixpoint wp {A} (ok : forall c, resp c -> Prop) (p : prog A) (tr : list event)
    (Q : A -> list event -> Prop) (X : Z -> list event -> Prop) : Prop :=
  match p with
  | Ret a => Q a tr
  | Exit code => X code tr
  | Fault => False
  | Sys c k => forall r, ok c r -> wp ok (k r) (tr ++ [mk_event c r]) Q X
  end.

Lemma wp_bind {A B} ok (p : prog A) (f : A -> prog B) tr Q X :
  wp ok (p ≫= f) tr Q X <-> wp ok p tr (fun a tr => wp ok (f a) tr Q X) X.
Proof.
  revert tr. induction p as [a|code| |c k IH]; intros tr; try reflexivity.
  simpl. split; intros H r Hr; apply IH; auto.
Qed.

Lemma wp_mono {A} ok (p : prog A) tr (Q Q' : A -> list event -> Prop) (X X' : Z -> list event -> Prop) :
  wp ok p tr Q X -> (forall a tr, Q a tr -> Q' a tr) -> (forall code tr, X code tr -> X' code tr) -> wp ok p tr Q' X'.
Proof.
  revert tr. induction p as [a|code| |c k IH]; intros tr Hp HQ HX; simpl in *; auto.
Qed.

Lemma wp_lift {A} ok (o : option A) tr Q X : (exists a, o = Some a /\ Q a tr) -> wp ok (lift o) tr Q X.
Proof. intros (a & -> & H). exact H. Qed.

Lemma wp_trap ok c tr Q X : wp ok (trap c) tr Q X <-> forall r, ok c r -> Q r (tr ++ [mk_event c r]).
Proof. reflexivity. Qed.

(** Calls are added to the trace, with answers within [ok]. *)
Definition answered (ok : forall c, resp c -> Prop) (e : event) : Prop := ok (ev_call e) (ev_resp e).

Definition goes_on (ok : forall c, resp c -> Prop) (tr tr' : list event) : Prop :=
  exists evs, tr' = tr ++ evs /\ Forall (answered ok) evs.

Lemma wp_trace {A} ok (p : prog A) tr (Q : A -> list event -> Prop) (X : Z -> list event -> Prop) :
  wp ok p tr Q X ->
  wp ok p tr (fun a tr' => Q a tr' /\ goes_on ok tr tr') (fun code tr' => X code tr' /\ goes_on ok tr tr').
Proof.
  revert tr. induction p as [a|code| |c k IH]; intros tr Hp; simpl in *.
  - split; [done|]. exists []. by rewrite app_nil_r.
  - split; [done|]. exists []. by rewrite app_nil_r.
  - done.
  - intros r Hr.
    assert (forall tr', goes_on ok (tr ++ [mk_event c r]) tr' -> goes_on ok tr tr') as Hgo.
    { intros tr' (evs & -> & He). exists (mk_event c r :: evs). rewrite <- app_assoc. split; [done|]. by constructor. }
    eapply wp_mono; [apply IH, Hp, Hr|..]; intros ? ? [? ?]; auto.
Qed.

(** ** Lemmas on arrays *)

Lemma cstring_spec l s :
  cstring l = Some s <-> exists t, l = s ++ 0 :: t /\ 0 ∉ s.
Proof.
  revert s. induction l as [|c l IH]; intros s; simpl.
  - split; [done|]. intros (t & H & _). by destruct s.
  - destruct (Z.eqb_spec c 0) as [->|Hc].
    + split.
      * intros [= <-]. exists l. split; [done|]. set_solver.
      * intros (t & H & Hs). destruct s as [|x s]; [done|]. simplify_eq/=. set_solver.
    + rewrite fmap_Some. setoid_rewrite IH. split.
      * intros (s' & (t & -> & Hs) & ->). exists t. split; [done|]. set_solver.
      * intros (t & H & Hs). destruct s as [|x s]; simplify_eq/=.
        exists s. split; [|done]. exists t. split; [done|]. set_solver.
Qed.

Lemma aset_Some {X} (l : list X) i v :
  0 <= i < Z.of_nat (length l) -> aset l i v = Some (<[Z.to_nat i := v]> l).
Proof. intros. unfold aset. replace (0 <=? i) with true by lia. by replace (i <? _) with true by lia. Qed.

Lemma aset_inv {X} (l l' : list X) i v :
  aset l i v = Some l' -> 0 <= i < Z.of_nat (length l) /\ l' = <[Z.to_nat i := v]> l.
Proof. unfold aset. destruct (_ && _)%bool eqn:E; [|done]. intros [= <-]. bool_prop. split; [lia|done]. Qed.

Lemma take_insert_end {X} (l : list X) n v :
  (n < length l)%nat -> take (S n) (<[n := v]> l) = take n l ++ [v].
Proof.
  intros H. erewrite take_S_r by (by rewrite list_lookup_insert_eq).
  by rewrite take_insert_ge by lia.
Qed.

(** ** Running against a kernel that keeps its promises: [wp] is sound for [interp]. *)
Section Logged.
Context {W : Type} (kernel : forall c : call, W -> resp c * W) (ok : forall c, resp c -> Prop).

Definition logged (c : call) (w : W * list event) : resp c * (W * list event) :=
  let '(r, w') := kernel c w.1 in (r, (w', w.2 ++ [mk_event c r])).

Lemma interp_wp {A} (p : prog A) w tr Q X :
  (forall c w, ok c (kernel c w).1) -> wp ok p tr Q X ->
  match interp logged p (w, tr) with
  | (Done a, (_, tr')) => Q a tr'
  | (Exited code, (_, tr')) => X code tr'
  | (Crashed, _) => False
  end.
Proof.
  intros Hk. revert w tr. induction p as [a|code| |c k IH]; intros w tr Hp; simpl in *; auto.
  unfold logged at 1. simpl. specialize (Hk c w). destruct (kernel c w) as [r w'] eqn:E. simpl in *.
  by apply IH, Hp.
Qed.
End Logged.
