(* ===== verification/Shell.v ===== *)
(** * The shell (src/user/shell.c)

    The shell reads one character per system call; [shell_char] is the body of its two loops
    for one character: it edits the line, completes it, recalls history, or runs it and
    prints the next prompt.  Arrays keep their sizes and whatever they held before; strings
    inside them are read up to the NUL. *)

From S2P Require Import Prelude Cstr User Keyboard.

Definition CMD_MAX : Z := 64.
Definition HIST_MAX : Z := 16.
Definition CAND_MAX : Z := 24.
Definition CAND_LEN : Z := 48.

Definition ENOENT : Z := 2.
Definition ENOEXEC : Z := 8.
Definition ENOMEM : Z := 12.
Definition EACCES : Z := 13.

Definition BS : Z := 8.
Definition TAB : Z := 9.
Definition SPACE : Z := 32.

(** ** Strings *)

Fixpoint strcmp (a b : list Z) : Z :=
  match a, b with
  | x :: a', y :: b' => if x =? y then strcmp a' b' else x - y
  | _, _ => char_at a 0 - char_at b 0
  end.

Fixpoint strncmp (a b : list Z) (n : nat) {struct n} : Z :=
  match n with
  | O => 0
  | S n' =>
      match a, b with
      | x :: a', y :: b' => if x =? y then strncmp a' b' n' else x - y
      | _, _ => char_at a 0 - char_at b 0
      end
  end.

(** The eight digits, from the last one. *)
Fixpoint hex_loop (n : nat) (v : Z) (p : list Z) : list Z :=
  match n with
  | O => p
  | S n' =>
      let nib := Z.land v 0xF in
      hex_loop n' (Z.shiftr v 4) ((if nib <? 10 then 48 + nib else 65 + nib - 10) :: p)
  end.

Definition print_hex (v : Z) : prog Z := sys_write (hex_loop 8 (wrap32 v) []).

(** [split]: the loop from position [p] on, [s] being the array from there.  Blanks become
    NULs in place; [argv] collects the positions of the words.  [None]: no NUL in the array. *)
Fixpoint split_loop (s : list Z) (p : Z) (inw : bool) (argv : list Z) (max : Z)
    : option (list Z * list Z) :=
  match s with
  | [] => None
  | c :: s' =>
      if c =? 0 then Some (s, argv)
      else if (c =? SPACE) || (c =? TAB) then
        '(t, argv) ← split_loop s' (p + 1) false argv max; Some (0 :: t, argv)
      else if negb inw then
        let argv := argv ++ [p] in
        if max <=? Z.of_nat (length argv) then Some (s, argv)
        else '(t, argv) ← split_loop s' (p + 1) true argv max; Some (c :: t, argv)
      else '(t, argv) ← split_loop s' (p + 1) true argv max; Some (c :: t, argv)
  end.

Definition split (cmd : list Z) (max : Z) : option (list Z * list Z) :=
  split_loop cmd 0 false [] max.

(** The string at position [p] of the command. *)
Definition arg (cmd : list Z) (p : Z) : option (list Z) := cstring (drop (Z.to_nat p) cmd).

(** ** Completion

    A row of [cands] is the string in it; a row takes at most 47 characters. *)

Definition builtin_cmds : list (list Z) :=
  lit <$> ["help"; "clear"; "ls"; "reboot"; "poweroff"; "tier"; "exit"; "wait"; "run"]%string.

(** [strcpy(cands[cnt], s); cnt++] *)
Definition add_cand (cands : list (list Z)) (s : list Z) : option (list (list Z)) :=
  if (Z.of_nat (length cands) <? CAND_MAX) && (Z.of_nat (length s) <? CAND_LEN)
  then Some (cands ++ [s]) else None.

(** The inner loop: characters up to a line feed, at most 47; then what is left. *)
Fixpoint take_name (t : nat) (buf : list Z) : list Z * list Z :=
  match t, buf with
  | S t', c :: buf' =>
      if c =? NL then ([], buf)
      else let '(tmp, rest) := take_name t' buf' in (c :: tmp, rest)
  | _, _ => ([], buf)
  end.

Definition skip_nl (buf : list Z) : list Z :=
  match buf with c :: buf' => if c =? NL then buf' else buf | [] => [] end.

Fixpoint collect_loop (fuel : nat) (buf base : list Z) (blen : Z) (cands : list (list Z)) (max : Z)
    : option (list (list Z)) :=
  match buf with
  | [] => Some cands
  | _ =>
      if max <=? Z.of_nat (length cands) then Some cands
      else
        match fuel with
        | O => None
        | S fuel' =>
            let '(tmp, rest) := take_name (Z.to_nat (CAND_LEN - 1)) buf in
            let rest := skip_nl rest in
            let s := until_nul tmp in
            if (blen <=? Z.of_nat (length tmp)) && (strncmp s base (Z.to_nat blen) =? 0)
            then cands ← add_cand cands s; collect_loop fuel' rest base blen cands max
            else collect_loop fuel' rest base blen cands max
        end
  end.

Definition LS_BUF : Z := 512.

Definition collect_ls_prefix (path base : list Z) (blen : Z) (cands : list (list Z)) (max : Z)
    : prog (list (list Z)) :=
  r ← sys_ls path (LS_BUF - 1);
  match r with
  | inl _ => mret cands
  | inr buf =>
      if Z.of_nat (length buf) <? LS_BUF
      then lift (collect_loop (length buf) buf base blen cands max)
      else Fault
  end.

Fixpoint builtin_loop (cmds : list (list Z)) (pre : list Z) (base_len : Z) (cands : list (list Z))
    : option (list (list Z)) :=
  match cmds with
  | [] => Some cands
  | b :: cmds' =>
      if strncmp b pre (Z.to_nat base_len) =? 0
      then cands ← add_cand cands b; builtin_loop cmds' pre base_len cands
      else builtin_loop cmds' pre base_len cands
  end.

(** [full], the candidate behind its directory, cut at 47 characters. *)
Definition full_name (dir s : list Z) : option (list Z) :=
  let full := take (Z.to_nat (CAND_LEN - 1)) dir ++ [SLASH] in
  let full := full ++ take (Z.to_nat (CAND_LEN - 1) - length full) s in
  if Z.of_nat (length full) <? CAND_LEN then Some full else None.

(** The loop over the directories. *)
Fixpoint dirs_loop (dirs : list (list Z)) (pre : list Z) (base_len : Z) (cands : list (list Z))
    : prog (list (list Z)) :=
  match dirs with
  | [] => mret cands
  | dir :: dirs' =>
      let dl := strlen dir in
      if (dl <? base_len) && (strncmp pre dir (Z.to_nat dl) =? 0) && (char_at pre (Z.to_nat dl) =? SLASH)
      then
        let base := drop (Z.to_nat (dl + 1)) pre in
        let blen := base_len - dl - 1 in
        let before := length cands in
        cands ← collect_ls_prefix dir base blen cands CAND_MAX;
        tl ← lift (mapM (full_name dir) (drop before cands));
        mret (take before cands ++ tl)
      else dirs_loop dirs' pre base_len cands
  end.

(** [cmd[len++] = c; sys_putchar(c)] for the characters [cs], while [len < cap - 1]. *)
Fixpoint push_chars (cs cmd : list Z) (len cap : Z) : prog (list Z * Z) :=
  match cs with
  | [] => mret (cmd, len)
  | c :: cs' =>
      if len <? cap - 1 then
        cmd ← lift (aset cmd len c);
        _ ← sys_putchar c;
        push_chars cs' cmd (len + 1) cap
      else mret (cmd, len)
  end.

(** [cands[k][j]], up to the NUL. *)
Definition cand_at (s : list Z) (j : Z) : option Z :=
  if j <=? Z.of_nat (length s) then Some (char_at s (Z.to_nat j)) else None.

Fixpoint all_have (cands : list (list Z)) (j c : Z) : option bool :=
  match cands with
  | [] => Some true
  | s :: cands' =>
      x ← cand_at s j;
      if x =? c then all_have cands' j c else Some false
  end.

Fixpoint common_loop (fuel : nat) (c0 : list Z) (others : list (list Z)) (common : Z) : option Z :=
  c ← cand_at c0 common;
  if c =? 0 then Some common
  else
    b ← all_have others common c;
    if (b : bool) then match fuel with O => None | S fuel' => common_loop fuel' c0 others (common + 1) end
    else Some common.

Fixpoint list_cands (cands : list (list Z)) : prog unit :=
  match cands with
  | [] => mret tt
  | s :: cands' => _ ← sys_write s; _ ← sys_putchar SPACE; list_cands cands'
  end.

Fixpoint put_chars (cs : list Z) : prog unit :=
  match cs with [] => mret tt | c :: cs' => _ ← sys_putchar c; put_chars cs' end.

(** The start of the last word: back from [len] to a blank. *)
Fixpoint word_start (cmd : list Z) (ws : nat) : option Z :=
  match ws with
  | O => Some 0
  | S ws' => c ← cmd !! ws'; if c =? SPACE then Some (Z.of_nat ws) else word_start cmd ws'
  end.

Definition find_cands (pre : list Z) (base_len : Z) (first : bool) : prog (list (list Z)) :=
  if first then
    cands ← lift (builtin_loop builtin_cmds pre base_len []);
    collect_ls_prefix (lit "/mnt") pre base_len cands CAND_MAX
  else if char_at pre 0 =? SLASH then dirs_loop [lit "/mnt"; lit "/home"] pre base_len []
  else mret [].

(** Append [cs] and terminate. *)
Definition extend (cs cmd : list Z) (len cap : Z) : prog (list Z * Z) :=
  '(cmd, len) ← push_chars cs cmd len cap;
  cmd ← lift (aset cmd len 0);
  mret (cmd, len).

(** With the candidates: complete a single one, or to the common prefix, or list them. *)
Definition complete (cands : list (list Z)) (base_len : Z) (cmd : list Z) (len cap : Z) : prog (list Z * Z) :=
  match cands with
  | [] => mret (cmd, len)
  | [c0] =>
      _ ← lift (cand_at c0 base_len);
      extend (drop (Z.to_nat base_len) c0) cmd len cap
  | c0 :: others =>
      common ← lift (common_loop (length c0) c0 others base_len);
      if base_len <? common
      then extend (take (Z.to_nat (common - base_len)) (drop (Z.to_nat base_len) c0)) cmd len cap
      else
        _ ← sys_write [NL];
        _ ← list_cands cands;
        _ ← sys_write ([NL] ++ lit "> ");
        _ ← put_chars (take (Z.to_nat len) cmd);
        mret (cmd, len)
  end.

Definition tab_complete (cmd : list Z) (len cap : Z) : prog (list Z * Z) :=
  ws ← lift (word_start cmd (Z.to_nat len));
  let base_len := len - ws in
  if CAND_LEN <=? base_len then mret (cmd, len)
  else
    let pre := take (Z.to_nat base_len) (drop (Z.to_nat ws) cmd) in
    cands ← find_cands pre base_len (ws =? 0);
    complete cands base_len cmd len cap.

(** ** The state of the main loop *)

Record shell := mk_shell {
  history : list (list Z);
  hist_count : Z;
  cmd : list Z;
  len : Z;
  hist_pos : Z;
}.
#[global] Instance eta_shell : Eta shell := fun s =>
  mk_shell (history s) (hist_count s) (cmd s) (len s) (hist_pos s).

(** [static char history[HIST_MAX][CMD_MAX]] starts as zeros; [cmd] is on the stack. *)
Definition init_shell (stack : list Z) : shell :=
  mk_shell (replicate 16 (replicate 64 0)) 0 stack 0 0.

Definition prompt (s : shell) : prog shell :=
  _ ← sys_write (lit "> ");
  c ← lift (aset (cmd s) 0 0);
  mret (s <| len := 0 |> <| cmd := c |> <| hist_pos := hist_count s |>).

(** ** History *)

Fixpoint erase_line (n : nat) : prog unit :=
  match n with O => mret tt | S n' => _ ← sys_putchar BS; erase_line n' end.

(** Recalling a line has no bound on [len]: [cap] is never reached. *)
Definition recall (up : bool) (s : shell) : prog shell :=
  let pos := if up then hist_pos s - 1 else hist_pos s + 1 in
  if (pos <? 0) || (hist_count s <=? pos) then mret s
  else
    _ ← erase_line (Z.to_nat (len s));
    row ← lift (aget (history s) pos);
    t ← lift (cstring row);
    '(c, l) ← push_chars t (cmd s) 0 (CMD_MAX + CMD_MAX);
    c ← lift (aset c l 0);
    mret (s <| hist_pos := pos |> <| cmd := c |> <| len := l |>).

(** [history[i] = history[i + 1]] for all rows but the last, which stays. *)
Definition shift_rows (h : list (list Z)) : list (list Z) :=
  drop 1 h ++ option_list (last h).

Definition remember (s : shell) : prog shell :=
  if 0 <? len s then
    let '(h, n) := if hist_count s =? HIST_MAX then (shift_rows (history s), HIST_MAX - 1)
                   else (history s, hist_count s) in
    row ← lift (aget h n);
    let k := Z.to_nat (Z.min (len s + 1) CMD_MAX) in
    h ← lift (aset h n (take k (cmd s) ++ drop k row));
    mret (s <| history := h |> <| hist_count := n + 1 |>)
  else mret s.

(** ** Running a line *)

(** The number of words before one that starts with an ampersand, and whether there is one. *)
Fixpoint before_amp (args : list (list Z)) : nat * bool :=
  match args with
  | [] => (0%nat, false)
  | a :: args' =>
      if char_at a 0 =? 38 then (0%nat, true)
      else let '(n, bg) := before_amp args' in (S n, bg)
  end.

(** What [ls] prints for the answer of the kernel: an array of 512 bytes that is written up
    to the first NUL. *)
Definition print_listing (r : Z + list Z) (err : list Z) : prog Z :=
  match r with
  | inl _ => sys_write err
  | inr [] => sys_write (line "(empty)")
  | inr buf => if Z.of_nat (length buf) <? LS_BUF then sys_write (until_nul buf) else Fault
  end.

Definition ls_path (a : list Z) : list Z :=
  if char_at a 0 =? SLASH then take (Z.to_nat (CMD_MAX + 15)) a
  else lit "/mnt/" ++ take (Z.to_nat (CMD_MAX + 15) - 5) a.

Definition run_ls (args : list (list Z)) : prog Z :=
  match args with
  | _ :: a :: _ =>
      let lspath := ls_path a in
      r ← sys_ls lspath (LS_BUF - 1);
      match r with
      | inl _ =>
          _ ← sys_write (lit "error: cannot list ");
          _ ← sys_write lspath;
          sys_write [NL]
      | inr _ => print_listing r []
      end
  | _ =>
      _ ← sys_write (line "/home:");
      r ← sys_ls (lit "/home") (LS_BUF - 1);
      _ ← print_listing r (line "error: cannot list /home");
      _ ← sys_write (line "/mnt:");
      r ← sys_ls (lit "/mnt") (LS_BUF - 1);
      print_listing r (line "error: cannot list /mnt")
  end.

(** Process id and exit code of a wait status. *)
Definition print_status (what : list Z) (st : Z) : prog Z :=
  _ ← sys_write what;
  _ ← print_hex (Z.land (Z.shiftr st 8) 0xFFFF);
  _ ← sys_write (lit " code=");
  _ ← print_hex (Z.land st 0xFF);
  sys_write [NL].

(** [path], an array of 80 bytes with a NUL behind the string. *)
Definition exec_path (a : list Z) : option (list Z) :=
  let path := if char_at a 0 =? SLASH then take (Z.to_nat CMD_MAX) a
              else lit "/mnt/" ++ take (Z.to_nat (CMD_MAX + 16) - 5) a in
  if Z.of_nat (length path) <? CMD_MAX + 16 then Some path else None.

Definition has_elf (path : list Z) : bool :=
  (4 <=? length path)%nat && bool_decide (drop (length path - 4) path = lit ".elf").

Definition exec_error (r : Z) (path : list Z) : prog Z :=
  if r =? - ENOENT then sys_write (line "error: command not found")
  else if r =? - ENOEXEC then sys_write (line "error: not an executable")
  else if r =? - ENOMEM then sys_write (line "error: out of memory")
  else if r =? - EACCES then sys_write (line "error: permission denied")
  else
    _ ← sys_write (lit "error: exec failed (");
    _ ← sys_write path;
    sys_write (line ")").

(** The array [argv] has four pointers; with fewer words a NULL follows them. *)
Definition exec_argv (args : list (list Z)) : option (list (list Z)) :=
  if (length args <? 4)%nat then Some args else None.

(** The child: try the path, then with [.elf] behind it. *)
Definition run_child (a : list Z) (args : list (list Z)) : prog unit :=
  path ← lift (exec_path a);
  r ← sys_exec path (exec_argv args);
  '(r, path) ←
    (if negb (r =? 0) && negb (has_elf path) && (Z.of_nat (length path) <? CMD_MAX + 11) then
       let path := path ++ lit ".elf" in
       r ← sys_exec path (exec_argv args);
       mret (r, path)
     else mret (r, path));
  _ ← (if negb (r =? 0) then exec_error r path else mret 0);
  sys_exit 1.

Definition run_program (a : list Z) (args : list (list Z)) (bg : bool) : prog unit :=
  pid ← sys_fork;
  if pid =? 0 then run_child a args
  else if 0 <? pid then
    if bg then
      _ ← sys_write (lit "[bg] child pid=");
      _ ← print_hex pid;
      _ ← sys_write [NL];
      mret tt
    else
      st ← sys_wait pid;
      _ ← (if st <? 0 then sys_write (line "wait failed") else print_status (lit "done pid=") st);
      mret tt
  else
    _ ← sys_write (line "fork failed");
    mret tt.

Definition print_level (what : list Z) (t : Z) : prog unit :=
  _ ← sys_write what;
  _ ← sys_putchar (48 + t);
  _ ← sys_write [NL];
  mret tt.

Definition run_args (args : list (list Z)) (bg : bool) : prog unit :=
  match args with
  | [] => mret tt
  | a :: _ =>
      let named s := strcmp a (lit s) =? 0 in
      if named "help"%string then _ ← sys_write (line "commands: help clear ls reboot poweroff tier exit wait run"); mret tt
      else if named "ls"%string then _ ← run_ls args; mret tt
      else if named "clear"%string then sys_clear
      else if named "reboot"%string then _ ← sys_write (line "Rebooting..."); sys_reboot
      else if named "poweroff"%string then _ ← sys_write (line "Powering off..."); sys_poweroff
      else if named "tier"%string then t ← sys_tier_query; print_level (lit "tier=") t
      else if named "mlfq"%string then lv ← sys_mlfq_query; print_level (lit "mlfq=") lv
      else if named "exit"%string then _ ← sys_write (line "bye"); sys_exit 0
      else if named "wait"%string then
        st ← sys_wait (-1);
        _ ← (if st <? 0 then sys_write (line "no child") else print_status (lit "reaped pid=") st);
        mret tt
      else run_program a args bg
  end.

Definition run_line (s : shell) : prog shell :=
  if 0 <? len s then
    '(c, argv) ← lift (split (cmd s) 4);
    args ← lift (mapM (arg c) argv);
    let '(n, bg) := before_amp args in
    _ ← run_args (take n args) bg;
    mret (s <| cmd := c |>)
  else mret s.

(** ** One character *)

Definition is_ignored (c : Z) : bool :=
  (c =? KEY_HOME) || (c =? KEY_END) || (c =? KEY_PGUP) || (c =? KEY_PGDN) || (c =? KEY_INS) || (c =? KEY_DEL).

Definition shell_char (c : Z) (s : shell) : prog shell :=
  if c =? 0 then mret s
  else if c =? NL then
    _ ← sys_write [NL];
    s ← remember s;
    s ← run_line s;
    prompt s
  else if (c =? KEY_UP) || (c =? KEY_DOWN) then recall (c =? KEY_UP) s
  else if c =? BS then
    if 0 <? len s then
      _ ← sys_putchar BS;
      mret (s <| len := len s - 1 |>)
    else mret s
  else if c =? TAB then
    '(c, l) ← tab_complete (cmd s) (len s) CMD_MAX;
    mret (s <| cmd := c |> <| len := l |>)
  else if is_ignored c then mret s
  else if len s <? CMD_MAX - 1 then
    a ← lift (aset (cmd s) (len s) c);
    a ← lift (aset a (len s + 1) 0);
    _ ← sys_putchar c;
    mret (s <| cmd := a |> <| len := len s + 1 |>)
  else mret s.

(** The start of [main], and a round of its loops. *)
Definition shell_start (stack : list Z) : prog shell :=
  _ ← sys_write (line "PokuOS User Shell");
  prompt (init_shell stack).

Definition shell_round (s : shell) : prog shell :=
  c ← sys_getchar;
  shell_char c s.

(** The rounds in which the kernel answers with the characters [cs]. *)
Fixpoint shell_type (cs : list Z) (s : shell) : prog shell :=
  match cs with
  | [] => mret s
  | c :: cs' => s ← shell_char c s; shell_type cs' s
  end.
