(* ===== verification/ShellTheorems.v ===== *)
(** * Theorems on the shell

    [shell_session_safe]: in every session the shell stays inside its arrays, and its output
    ends with the line that it edits.  [split_words], [tab_completes]: the words of a line
    and the completion of a command, against reference definitions.  [typed_line_runs]: a typed
    line of at most four words is run as typed; [fifth_word_not_split]: not so with more
    words; [erased_character_runs]: nor after a backspace. *)

From S2P Require Import Prelude Cstr User Keyboard Shell.

(** ** Words of a line *)

Definition blank (c : Z) : bool := (c =? SPACE) || (c =? TAB).

Fixpoint skip_blanks (t : list Z) : list Z :=
  match t with [] => [] | c :: t' => if blank c then skip_blanks t' else t end.

(** A word and what follows it. *)
Fixpoint span_word (t : list Z) : list Z * list Z :=
  match t with
  | [] => ([], [])
  | c :: t' => if blank c then ([], t) else let '(w, r) := span_word t' in (c :: w, r)
  end.

(** All words of a line, from its end: the word that [t] starts with, which may be empty, and
    the words behind it. *)
Definition push_word (w : list Z) (ws : list (list Z)) : list (list Z) :=
  match w with [] => ws | _ => w :: ws end.

Fixpoint cut_words (t : list Z) : list Z * list (list Z) :=
  match t with
  | [] => ([], [])
  | c :: t' =>
      let '(w, ws) := cut_words t' in
      if blank c then ([], push_word w ws) else (c :: w, ws)
  end.

Definition all_words (t : list Z) : list (list Z) := let '(w, ws) := cut_words t in push_word w ws.

(** What [split] finds: at most [n] words, where word [n] is all the rest of the line. *)
Fixpoint words (n : nat) (t : list Z) : list (list Z) :=
  match n, skip_blanks t with
  | O, _ | _, [] => []
  | 1%nat, t' => [t']
  | S n', t' => let '(w, r) := span_word t' in w :: words n' r
  end.

Lemma all_words_blank c t : blank c = true -> all_words (c :: t) = all_words t.
Proof. intros H. unfold all_words. simpl. destruct (cut_words t) as [w ws]. by rewrite H. Qed.

Lemma cut_words_span t : cut_words t = ((span_word t).1, all_words (span_word t).2).
Proof.
  induction t as [|c t IH]; simpl; [done|]. destruct (blank c) eqn:Eb.
  - simpl. rewrite all_words_blank by done. unfold all_words. by destruct (cut_words t).
  - rewrite IH. by destruct (span_word t).
Qed.

Lemma all_words_skip t :
  all_words t = match skip_blanks t with [] => [] | t' => (span_word t').1 :: all_words (span_word t').2 end.
Proof.
  induction t as [|c t IH]; [done|]. cbn [skip_blanks]. destruct (blank c) eqn:Eb; [by rewrite all_words_blank|].
  unfold all_words at 1. rewrite cut_words_span. simpl. rewrite Eb. by destruct (span_word t).
Qed.

Lemma span_word_app t : (span_word t).1 ++ (span_word t).2 = t.
Proof. induction t as [|c t IH]; simpl; [done|]. destruct (blank c); [done|]. destruct (span_word t). simpl in *. by rewrite IH. Qed.

Lemma skip_blanks_suffix t : exists k, t = k ++ skip_blanks t.
Proof.
  induction t as [|c t [k IH]]; simpl; [by exists []|]. destruct (blank c); [|by exists []].
  exists (c :: k). simpl. by rewrite <- IH.
Qed.

(** The line does not end with a blank. *)
Definition no_blank_end (t : list Z) : Prop := forall c, last t = Some c -> blank c = false.

Lemma no_blank_end_suffix k t : no_blank_end (k ++ t) -> no_blank_end t.
Proof. intros H c Hc. apply H. rewrite last_app. by rewrite Hc. Qed.

Lemma no_words_blank t : all_words t = [] -> no_blank_end t -> t = [].
Proof.
  intros Ha Hn. destruct t as [|x t] using rev_ind; [done|]. exfalso. clear IHt.
  assert (blank x = false) as Hx by (apply Hn; by rewrite last_snoc).
  enough (all_words (t ++ [x]) <> []) by done. clear -Hx. induction t as [|c t IH].
  - unfold all_words. simpl. by rewrite Hx.
  - simpl. rewrite all_words_skip. cbn [skip_blanks]. destruct (blank c) eqn:Eb; [|done].
    rewrite all_words_skip in IH. exact IH.
Qed.

(** A line of less than [n] words, or of [n] words and no blank at its end, is split into its words. *)
Definition splits_whole (n : nat) (t : list Z) : Prop :=
  (length (all_words t) < n)%nat \/ (length (all_words t) = n /\ no_blank_end t).

Lemma all_words_cons t x w r :
  skip_blanks t = x -> x <> [] -> span_word x = (w, r) -> all_words t = w :: all_words r.
Proof. intros E Hne Es. rewrite all_words_skip, E. destruct x; [done|]. cbv zeta. by rewrite Es. Qed.

Lemma words_all n t : splits_whole n t -> words n t = all_words t.
Proof.
  revert t. induction n as [|n IH]; intros t Hw.
  - destruct Hw as [Hw|[Hw _]]; [lia|]. symmetry. by apply nil_length_inv.
  - destruct (skip_blanks_suffix t) as [k Hk]. cbn [words].
    destruct (skip_blanks t) as [|c t'] eqn:Es; [rewrite all_words_skip, Es; by destruct n|].
    destruct (span_word (c :: t')) as [w rest] eqn:Esp.
    pose proof (span_word_app (c :: t')) as Hsp. rewrite Esp in Hsp. cbn [fst snd] in Hsp.
    unfold splits_whole in Hw. rewrite (all_words_cons t _ _ _ Es ltac:(done) Esp) in *. cbn [length] in Hw.
    rewrite Hk, <- Hsp, app_assoc in Hw. destruct n as [|n].
    + destruct Hw as [Hw|[Hw Hn]]; [lia|]. assert (all_words rest = []) as Hz by (apply nil_length_inv; lia).
      apply no_blank_end_suffix, (no_words_blank _ Hz) in Hn. rewrite <- Hsp, Hz, Hn. by rewrite app_nil_r.
    + f_equal. apply (IH rest). destruct Hw as [Hw|[Hw Hn]]; [left; lia|right]. split; [lia|].
      by apply no_blank_end_suffix in Hn.
Qed.

Lemma mapM_shift (s : list Z) c p (qs : list Z) :
  Forall (fun q => p + 1 <= q) qs ->
  mapM (fun q => cstring (drop (Z.to_nat (q - p)) (c :: s))) qs
  = mapM (fun q => cstring (drop (Z.to_nat (q - (p + 1))) s)) qs.
Proof.
  induction 1 as [|q qs Hq _ IH]; [done|].
  cbn [mapM]. rewrite IH. by replace (Z.to_nat (q - p)) with (S (Z.to_nat (q - (p + 1)))) by lia.
Qed.

(** The loop of [split] from position [p] on, with room for [k] more words. *)
Lemma split_loop_spec t rest p inw argv max k :
  0 ∉ t -> max = Z.of_nat (length argv) + Z.of_nat k -> (0 < k)%nat ->
  exists s' new,
    split_loop (t ++ 0 :: rest) p inw argv max = Some (s', argv ++ new)
    /\ length s' = length (t ++ 0 :: rest)
    /\ Forall (fun q => p <= q) new
    /\ mapM (fun q => cstring (drop (Z.to_nat (q - p)) s')) new
       = Some (words k (if inw then (span_word t).2 else t))
    /\ (inw = true -> cstring s' = Some (span_word t).1).
Proof.
  revert p inw argv k. induction t as [|c t IH]; intros p inw argv k Ht Hm Hk.
  - exists (0 :: rest), []. simpl. rewrite app_nil_r. splits; try done.
    destruct k as [|[|k]], inw; done.
  - apply not_elem_of_cons in Ht as [Hc Ht]. cbn [app split_loop span_word].
    replace (c =? 0) with false by lia. fold (blank c). destruct (blank c) eqn:Eb.
    + destruct (IH (p + 1) false argv k Ht Hm Hk) as (s' & new & -> & Hl & Hn & Hw & _).
      exists (0 :: s'), new. splits; try done.
      * simpl. by rewrite Hl.
      * eapply Forall_impl; [exact Hn|]. simpl. lia.
      * rewrite mapM_shift, Hw by done.
        destruct inw; destruct k as [|[|k]]; simpl; try rewrite Eb; done.
    + destruct inw; simpl.
      * destruct (IH (p + 1) true argv k Ht Hm Hk) as (s' & new & -> & Hl & Hn & Hw & Hs).
        exists (c :: s'), new. destruct (span_word t) as [w r] eqn:Es. splits; try done.
        -- simpl. by rewrite Hl.
        -- eapply Forall_impl; [exact Hn|]. simpl. lia.
        -- by rewrite mapM_shift, Hw by done.
        -- intros _. simpl. replace (c =? 0) with false by lia. by rewrite Hs.
      * rewrite length_app. simpl. destruct (Z.leb_spec max (Z.of_nat (length argv + 1))) as [Hle|Hgt].
        -- assert (k = 1%nat) as -> by lia. exists (c :: t ++ 0 :: rest), [p]. splits; try done.
           ++ constructor; [lia|constructor].
           ++ assert (cstring (c :: t ++ 0 :: rest) = Some (c :: t)) as E.
              { apply cstring_spec. exists rest. split; [done|]. set_solver. }
              cbn [mapM]. rewrite Z.sub_diag. change (drop (Z.to_nat 0) ?l) with l. rewrite E.
              cbn [words skip_blanks]. by rewrite Eb.
        -- destruct k as [|[|k]]; [lia|lia|].
           destruct (IH (p + 1) true (argv ++ [p]) (S k) Ht) as (s' & new & -> & Hl & Hn & Hw & Hs);
             [rewrite length_app; simpl; lia|lia|].
           exists (c :: s'), (p :: new). destruct (span_word t) as [w r] eqn:Es. splits; try done.
           ++ by rewrite <- app_assoc.
           ++ simpl. by rewrite Hl.
           ++ constructor; [lia|]. eapply Forall_impl; [exact Hn|]. simpl. lia.
           ++ assert (cstring (c :: s') = Some (c :: w)) as E.
              { simpl. replace (c =? 0) with false by lia. by rewrite Hs. }
              cbn [mapM]. rewrite mapM_shift, Hw, Z.sub_diag by done.
              change (drop (Z.to_nat 0) ?l) with l. rewrite E.
              cbn [words skip_blanks span_word]. rewrite Eb. cbn [span_word]. by rewrite Eb, Es.
Qed.

Lemma split_spec cmd t (max : nat) :
  cstring cmd = Some t -> (0 < max)%nat ->
  exists cmd' argv,
    split cmd (Z.of_nat max) = Some (cmd', argv)
    /\ length cmd' = length cmd
    /\ mapM (arg cmd') argv = Some (words max t).
Proof.
  intros Hc Hm. apply cstring_spec in Hc as (rest & -> & Ht).
  destruct (split_loop_spec t rest 0 false [] (Z.of_nat max) max Ht) as (s' & new & Hs & Hl & _ & Hw & _);
    [simpl; lia|done|].
  exists s', new. splits; try done. rewrite <- Hw. apply mapM_ext. intros q.
  unfold arg. by rewrite Z.sub_0_r.
Qed.

(** [split] finds the words of the line: it keeps the size of the array, and the strings
    at the positions it returns are the words in order, at most [max] of them; the last one of
    [max] words is the rest of the line, blanks included. *)
Theorem split_words cmd t (max : nat) :
  cstring cmd = Some t -> (0 < max)%nat ->
  exists cmd' argv,
    split cmd (Z.of_nat max) = Some (cmd', argv)
    /\ length cmd' = length cmd
    /\ mapM (arg cmd') argv = Some (words max t).
Proof. apply split_spec. Qed.

(** ** The output

    What the program has written since the last line feed or clear of the screen, where each backspace
    takes the last character back.  This is a reading of the trace, not of the screen: it has
    no width, and only these characters move the cursor. *)

Definition putc (l : list Z) (c : Z) : list Z :=
  if c =? NL then [] else if c =? BS then take (length l - 1) l else l ++ [c].

Definition show (l : list Z) (c : call) : list Z :=
  match c with
  | Putchar c => putc l c
  | Write fd s => if fd =? 1 then foldl putc l s else l
  | Clear => []
  | _ => l
  end.

Definition screen (tr : list event) : list Z := foldl show [] (ev_call <$> tr).

Lemma screen_snoc tr e : screen (tr ++ [e]) = show (screen tr) (ev_call e).
Proof. unfold screen. by rewrite fmap_app, foldl_app. Qed.

Lemma putc_prompt l : foldl putc l (lit "> ") = l ++ lit "> ".
Proof. change ((l ++ [62]) ++ [32] = l ++ [62; 32]). by rewrite <- app_assoc. Qed.

(** Whether the names in the listings of directories are free of backspaces. *)
Class Names := no_backspace : bool.

Create HintDb safe.

Section Session.
Context {nb : Names}.

(** Characters of a line. *)
Definition good (c : Z) : Prop := c <> 0 /\ c <> NL /\ (no_backspace = true -> c <> BS).

Lemma plain_good s : Forall (fun c => c <> 0 /\ c <> NL /\ c <> BS) s -> Forall good s.
Proof. intros H. eapply Forall_impl; [exact H|]. intros c (? & ? & ?). by split. Qed.

Lemma putc_good l c : good c -> no_backspace = true -> putc l c = l ++ [c].
Proof. intros (_ & H1 & H2) Hnb. specialize (H2 Hnb). unfold putc. replace (c =? NL) with false by lia. by replace (c =? BS) with false by lia. Qed.

(** The output, when names hold no backspaces. *)
Definition says (tr : list event) (l : list Z) : Prop := no_backspace = true -> screen tr = l.

Lemma putc_bs l c : putc (l ++ [c]) BS = l.
Proof. unfold putc. simpl. rewrite length_app, Nat.add_sub. by rewrite take_app_length. Qed.

Lemma good_no_nul s : Forall good s -> 0 ∉ s.
Proof. intros H Hin. rewrite Forall_forall in H. destruct (H _ Hin). done. Qed.

(** ** Strings and prefixes *)

Lemma sh_strcmp_eq a b : 0 ∉ a -> 0 ∉ b -> strcmp a b = 0 <-> a = b.
Proof.
  revert b. induction a as [|x a IH]; intros [|y b] Ha Hb; simpl.
  - done.
  - unfold char_at. simpl. set_solver by lia.
  - unfold char_at. simpl. set_solver by lia.
  - destruct (Z.eqb_spec x y) as [->|Hne]; [rewrite IH by set_solver; naive_solver|].
    split; [lia|congruence].
Qed.

Lemma sh_strncmp_prefix s p : 0 ∉ p -> strncmp s p (length p) = 0 <-> p `prefix_of` s.
Proof.
  revert s. induction p as [|y p IH]; intros s Hp; simpl.
  - split; [|done]. intros _. apply prefix_nil.
  - apply not_elem_of_cons in Hp as [Hy Hp]. destruct s as [|x s].
    + unfold char_at. simpl. split; [lia|]. intros H. by apply prefix_nil_not in H.
    + destruct (Z.eqb_spec x y) as [->|Hne].
      * rewrite IH by done. split; [apply prefix_cons|apply prefix_cons_inv_2].
      * split; [lia|]. intros H. by apply prefix_cons_inv_1 in H.
Qed.

(** ** Lines: the array holds the string [t], of which the first [n] characters are shown. *)
Definition line_ok (cmd : list Z) (n : Z) (t : list Z) : Prop :=
  length cmd = 64%nat /\ cstring cmd = Some t /\ Forall good t /\ 0 <= n <= Z.of_nat (length t).

Lemma line_ok_bound cmd n t : line_ok cmd n t -> n <= Z.of_nat (length t) <= 63.
Proof.
  intros (Hl & Ht & _ & Hn). apply cstring_spec in Ht as (r & -> & _).
  rewrite length_app in Hl. simpl in Hl. lia.
Qed.

Lemma line_ok_take cmd n t : line_ok cmd n t -> take (Z.to_nat n) cmd = take (Z.to_nat n) t.
Proof.
  intros (_ & Ht & _ & Hn). apply cstring_spec in Ht as (r & -> & _). apply take_app_le. lia.
Qed.

(** A line written over the start of the array, and its NUL. *)
Lemma line_ok_written (t r : list Z) :
  Forall good t -> length (t ++ 0 :: r) = 64%nat -> line_ok (t ++ 0 :: r) (Z.of_nat (length t)) t.
Proof.
  intros Ht Hl. unfold line_ok. splits; try done; try lia. apply cstring_spec. exists r. split; [done|]. by apply good_no_nul.
Qed.

(** ** Output of characters *)

Section Edit.
Variable ok : forall c, resp c -> Prop.
Implicit Types (Q : list Z * Z -> list event -> Prop) (X : Z -> list event -> Prop).

Lemma wp_put_chars cs tr (Q : unit -> list event -> Prop) X :
  Forall good cs -> (forall tr', says tr' (screen tr ++ cs) -> Q tt tr') -> wp ok (put_chars cs) tr Q X.
Proof.
  intros H. revert tr. induction H as [|c cs Hc _ IH]; intros tr HQ.
  - apply HQ. intros _. by rewrite app_nil_r.
  - simpl. intros [] _. apply IH. intros tr' Htr. apply HQ. intros Hnb.
    rewrite (Htr Hnb), screen_snoc. simpl. by rewrite putc_good, <- app_assoc.
Qed.

Lemma wp_erase_line n tr (Q : unit -> list event -> Prop) X pre t :
  length t = n -> says tr (pre ++ t) ->
  (forall tr', says tr' pre -> Q tt tr') -> wp ok (erase_line n) tr Q X.
Proof.
  intros Hn. subst n. revert tr. induction t as [|c t IH] using rev_ind; intros tr Hs HQ.
  - apply HQ. intros Hnb. by rewrite (Hs Hnb), app_nil_r.
  - rewrite length_app, Nat.add_comm. simpl. intros [] _. apply IH; [|done].
    intros Hnb. rewrite screen_snoc. simpl. by rewrite (Hs Hnb), app_assoc, putc_bs.
Qed.

Lemma wp_list_cands cands tr (Q : unit -> list event -> Prop) X :
  (forall tr', Q tt tr') -> wp ok (list_cands cands) tr Q X.
Proof.
  intros HQ. revert tr. induction cands as [|s cands IH]; intros tr; [apply HQ|].
  simpl. intros r _ [] _. apply IH.
Qed.

(** The characters appended: as many as fit. *)
Definition room (cs : list Z) (len cap : Z) : nat := Nat.min (length cs) (Z.to_nat (cap - 1 - len)).

Lemma wp_push_chars cs cmd len cap tr Q X :
  Forall good cs -> 0 <= len -> (Z.to_nat len + room cs len cap <= length cmd)%nat ->
  (forall tr', says tr' (screen tr ++ take (room cs len cap) cs) ->
     Q (take (Z.to_nat len) cmd ++ take (room cs len cap) cs ++ drop (Z.to_nat len + room cs len cap) cmd,
        len + Z.of_nat (room cs len cap)) tr') ->
  wp ok (push_chars cs cmd len cap) tr Q X.
Proof.
  intros H. revert cmd len tr. induction H as [|c cs Hc _ IH]; intros cmd len tr Hl Hr HQ.
  - simpl. specialize (HQ tr). simpl in HQ. rewrite Nat.add_0_r, Z.add_0_r, take_drop, app_nil_r in HQ. by apply HQ; intros _.
  - simpl. destruct (Z.ltb_spec len (cap - 1)) as [Hc'|Hc'].
    + assert (room (c :: cs) len cap = S (room cs (len + 1) cap)) as E.
      { unfold room. simpl. replace (Z.to_nat (cap - 1 - len)) with (S (Z.to_nat (cap - 1 - (len + 1)))) by lia. lia. }
      rewrite E in *. rewrite aset_Some by lia. simpl. intros [] _. apply IH; [lia|rewrite length_insert; lia|].
      intros tr' Htr. specialize (HQ tr').
      assert (says tr' (screen tr ++ c :: take (room cs (len + 1) cap) cs)) as Htr'.
      { intros Hnb. rewrite (Htr Hnb), screen_snoc. simpl. rewrite putc_good by done. by rewrite <- app_assoc. }
      replace (Z.to_nat (len + 1)) with (S (Z.to_nat len)) by lia.
      rewrite take_insert_end, drop_insert_lt by lia. rewrite <- !app_assoc in *.
      replace (len + 1 + Z.of_nat (room cs (len + 1) cap)) with (len + Z.of_nat (S (room cs (len + 1) cap))) by lia.
      replace (S (Z.to_nat len) + room cs (len + 1) cap)%nat with (Z.to_nat len + S (room cs (len + 1) cap))%nat by lia.
      by apply HQ.
    + assert (room (c :: cs) len cap = 0%nat) as E by (unfold room; lia).
      specialize (HQ tr). rewrite E in HQ. simpl in HQ.
      rewrite Nat.add_0_r, Z.add_0_r, take_drop, app_nil_r in HQ. by apply HQ; intros _.
Qed.

(** [extend] on a line: what fits is appended, shown and terminated. *)
Lemma wp_extend cs cmd n t tr Q X :
  line_ok cmd n t -> Forall good cs ->
  (forall cmd' tr',
     let u := take (Z.to_nat n) t ++ take (room cs n CMD_MAX) cs in
     line_ok cmd' (Z.of_nat (length u)) u ->
     says tr' (screen tr ++ take (room cs n CMD_MAX) cs) ->
     Q (cmd', Z.of_nat (length u)) tr') ->
  wp ok (extend cs cmd n CMD_MAX) tr Q X.
Proof.
  intros Hok Hcs HQ. pose proof (line_ok_bound _ _ _ Hok) as Hb. pose proof (line_ok_take _ _ _ Hok) as Ht.
  destruct Hok as (Hl & _ & Hg & Hn). set (k := room cs n CMD_MAX) in *.
  assert (k <= length cs /\ Z.to_nat n + k <= 63)%nat as Hk by (unfold k, room, CMD_MAX; lia).
  unfold extend. apply wp_bind, wp_push_chars; [done|lia|lia|].
  fold k. intros tr' Htr. rewrite Ht.
  assert (exists x r, drop (Z.to_nat n + k) cmd = x :: r) as (x & r & Hd).
  { destruct (drop (Z.to_nat n + k) cmd) eqn:E; [|eauto]. apply (f_equal length) in E.
    rewrite length_drop in E. simpl in E. lia. }
  set (u := take (Z.to_nat n) t ++ take k cs).
  assert (length u = Z.to_nat n + k)%nat as Hu by (unfold u; rewrite length_app, !length_take; lia).
  assert (length (u ++ x :: r) = 64%nat) as Hlen.
  { apply (f_equal length) in Hd. rewrite length_drop in Hd. rewrite length_app, Hu, <- Hd. lia. }
  rewrite app_assoc, Hd. fold u. apply wp_bind, wp_lift. exists (u ++ 0 :: r). split.
  - rewrite aset_Some by (rewrite Hlen; lia). f_equal.
    replace (Z.to_nat (n + Z.of_nat k)) with (length u + 0)%nat by lia. by rewrite insert_app_r.
  - simpl. replace (n + Z.of_nat k) with (Z.of_nat (length u)) by lia. apply HQ; [|done].
    apply line_ok_written; [|by rewrite length_app in Hlen |- *].
    unfold u. apply Forall_app; split; by apply Forall_take.
Qed.
End Edit.

(** ** Common prefixes *)

(** [p] is the longest common prefix of [l]. *)
Definition is_lcp (p : list Z) (l : list (list Z)) : Prop :=
  (forall s, s ∈ l -> p `prefix_of` s) /\ (forall q, (forall s, s ∈ l -> q `prefix_of` s) -> q `prefix_of` p).

(** A candidate for the word [pre]. *)
Definition cand_ok (pre s : list Z) : Prop :=
  pre `prefix_of` s /\ (length s < 48)%nat /\ Forall good s.

Lemma cand_at_lookup s j : 0 <= j <= Z.of_nat (length s) -> cand_at s j = Some (default 0 (s !! Z.to_nat j)).
Proof. intros. unfold cand_at. by replace (j <=? _) with true by lia. Qed.

Lemma all_have_spec l j c :
  c <> 0 -> 0 <= j -> Forall (fun s => j <= Z.of_nat (length s)) l ->
  exists b : bool, all_have l j c = Some b
    /\ if b then Forall (fun s => s !! Z.to_nat j = Some c) l
       else exists s, s ∈ l /\ s !! Z.to_nat j <> Some c.
Proof.
  intros Hc Hj. induction 1 as [|s l Hs _ IH]; simpl; [by exists true|].
  rewrite cand_at_lookup by lia. simpl. destruct (Z.eqb_spec (default 0 (s !! Z.to_nat j)) c) as [E|E].
  - destruct IH as (b & -> & Hb). exists b. split; [done|]. destruct b; [|set_solver].
    constructor; [|done]. destruct (s !! Z.to_nat j); simpl in *; congruence.
  - exists false. split; [done|]. exists s. split; [set_solver|].
    destruct (s !! Z.to_nat j); simpl in *; congruence.
Qed.

Lemma prefix_take_S (a s : list Z) n c :
  take n a `prefix_of` s -> a !! n = Some c -> s !! n = Some c -> take (S n) a `prefix_of` s.
Proof.
  intros [k ->] Ha Hs. apply lookup_lt_Some in Ha as Hl. rewrite lookup_app_r, length_take in Hs by (rewrite length_take; lia).
  replace (n - n `min` length a)%nat with 0%nat in Hs by lia. destruct k as [|x k]; [done|]. simplify_eq/=.
  erewrite take_S_r by done. exists k. by rewrite <- app_assoc.
Qed.

Lemma prefix_le_take (q a : list Z) n : q `prefix_of` a -> (length q <= n)%nat -> q `prefix_of` take n a.
Proof.
  intros [k ->] Hn. rewrite take_app_ge by done. by eexists.
Qed.

Lemma prefix_lookup_some (q s : list Z) i : q `prefix_of` s -> (i < length q)%nat -> s !! i = q !! i.
Proof. intros [k ->] Hi. by apply lookup_app_l. Qed.

(** The loop stops at [n]: at the end of the first candidate, or where another one differs. *)
Lemma lcp_stop (n : nat) c0 others :
  Forall (fun s => take n c0 `prefix_of` s) others ->
  (length c0 <= n)%nat \/ (exists s, s ∈ others /\ s !! n <> c0 !! n) -> is_lcp (take n c0) (c0 :: others).
Proof.
  intros Hp Hend. rewrite Forall_forall in Hp. split.
  - intros s [-> | Hs]%elem_of_cons; [|by apply Hp]. exists (drop n c0). by rewrite take_drop.
  - intros q Hq. apply prefix_le_take; [apply Hq; set_solver|].
    destruct (decide (length q <= n)%nat) as [|Hgt]; [done|]. exfalso.
    assert (q `prefix_of` c0) as H0 by (apply Hq; set_solver).
    destruct Hend as [Hl | (s & Hs & Hne)].
    + apply prefix_length in H0. lia.
    + apply Hne. rewrite (prefix_lookup_some q s), (prefix_lookup_some q c0) by (lia || done || (apply Hq; set_solver)). done.
Qed.

Lemma common_loop_spec fuel c0 others (n : nat) :
  Forall good c0 -> (n <= length c0)%nat -> (length c0 - n <= fuel)%nat ->
  Forall (fun s => take n c0 `prefix_of` s) others ->
  exists m, common_loop fuel c0 others (Z.of_nat n) = Some (Z.of_nat m)
    /\ (n <= m <= length c0)%nat /\ is_lcp (take m c0) (c0 :: others).
Proof.
  intros Hg. revert n. induction fuel as [|fuel IH]; intros n Hn Hf Hp; simpl;
    rewrite cand_at_lookup by lia; simpl; rewrite Nat2Z.id.
  - rewrite lookup_ge_None_2 by lia. exists n. split; [done|]. split; [lia|]. apply lcp_stop; [done|]. left. lia.
  - destruct (c0 !! n) as [c|] eqn:Ec; simpl.
    + assert (good c) as Hc by (rewrite Forall_lookup in Hg; eauto). apply lookup_lt_Some in Ec as Hlt.
      replace (c =? 0) with false by (destruct Hc; lia).
      destruct (all_have_spec others (Z.of_nat n) c) as (b & -> & Hb); [by destruct Hc|lia| |].
      { eapply Forall_impl; [exact Hp|]. intros s Hs. apply prefix_length in Hs. rewrite length_take in Hs. lia. }
      simpl. rewrite Nat2Z.id in Hb. destruct b.
      * replace (Z.of_nat n + 1) with (Z.of_nat (S n)) by lia.
        destruct (IH (S n)) as (m & -> & Hm & Hlc); [lia|lia| |exists m; split; [done|]; split; [lia|done]].
        rewrite Forall_forall in Hb, Hp |- *. intros s Hs. eapply prefix_take_S; eauto.
      * exists n. split; [done|]. split; [lia|]. apply lcp_stop; [done|]. right. by rewrite Ec.
    + exists n. split; [done|]. split; [lia|]. apply lcp_stop; [done|]. left. by apply lookup_ge_None.
Qed.

(** ** Completion *)

(** The output ends with the prompt and the line [l]. *)
Definition shown (tr : list event) (l : list Z) : Prop :=
  no_backspace = true -> exists pre, screen tr = pre ++ lit "> " ++ l.

Lemma shown_app tr tr' l l' : shown tr l -> says tr' (screen tr ++ l') -> shown tr' (l ++ l').
Proof. intros H Htr Hnb. destruct (H Hnb) as [pre Hp]. exists pre. by rewrite (Htr Hnb), Hp, <- !app_assoc. Qed.

(** The line after completion of the word [pre] behind [before]. *)
Definition completed (cands : list (list Z)) (before pre l : list Z) : Prop :=
  match cands with
  | [] => l = before ++ pre
  | _ => exists p, is_lcp p cands /\ l = take 63 (before ++ p)
  end.

Lemma room_take (before pre cs : list Z) :
  (length (before ++ pre) <= 63)%nat ->
  (before ++ pre) ++ take (room cs (Z.of_nat (length (before ++ pre))) CMD_MAX) cs = take 63 (before ++ pre ++ cs).
Proof.
  intros Hl. rewrite app_assoc, take_app. rewrite (take_ge (before ++ pre)) by lia. f_equal.
  unfold room, CMD_MAX. replace (Z.to_nat (64 - 1 - Z.of_nat (length (before ++ pre)))) with (63 - length (before ++ pre))%nat by lia.
  destruct (decide (length cs <= 63 - length (before ++ pre))%nat).
  - by rewrite Nat.min_l, !take_ge by lia.
  - by rewrite Nat.min_r by lia.
Qed.

Section Complete.
Variable ok : forall c, resp c -> Prop.

Lemma wp_complete cands before pre cmd t tr Q X :
  line_ok cmd (Z.of_nat (length (before ++ pre))) t -> take (length (before ++ pre)) t = before ++ pre ->
  Forall (cand_ok pre) cands -> shown tr (before ++ pre) ->
  (forall cmd' n' t' tr', line_ok cmd' n' t' -> completed cands before pre (take (Z.to_nat n') t') ->
     shown tr' (take (Z.to_nat n') t') -> Q (cmd', n') tr') ->
  wp ok (complete cands (Z.of_nat (length pre)) cmd (Z.of_nat (length (before ++ pre))) CMD_MAX) tr Q X.
Proof.
  intros Hok Ht Hc Hs HQ. pose proof (line_ok_bound _ _ _ Hok) as Hb.
  assert (Hext : forall p cs, p = pre ++ cs -> Forall good cs -> is_lcp p cands -> cands <> [] ->
            wp ok (extend cs cmd (Z.of_nat (length (before ++ pre))) CMD_MAX) tr Q X).
  { intros p cs -> Hcs Hlcp Hne. eapply wp_extend; [done|done|]. intros cmd' tr' u Hok' Htr. unfold u in *. clear u.
    rewrite Nat2Z.id, Ht in *. apply (HQ _ _ _ _ Hok'); rewrite Nat2Z.id, firstn_all.
    - destruct cands; [done|]. exists (pre ++ cs). split; [done|]. apply room_take. lia.
    - by eapply shown_app. }
  destruct cands as [|c0 others].
  - simpl. eapply HQ; [done|..]; rewrite Nat2Z.id, Ht; done.
  - apply Forall_cons_1 in Hc as [Hc0 Hc]. destruct Hc0 as ([k ->] & Hl0 & Hg0).
    assert (Forall good k) as Hgk by (by apply Forall_app in Hg0 as [_ ?]).
    assert (Hlen : (length pre <= length (pre ++ k))%nat) by (rewrite length_app; lia).
    destruct others as [|c1 others].
    + simpl. rewrite cand_at_lookup by lia. simpl. rewrite Nat2Z.id, drop_app_length. apply (Hext (pre ++ k)); [done|done| |done].
      split; [set_solver|]. intros q Hq. apply Hq. set_solver.
    + destruct (common_loop_spec (length (pre ++ k)) (pre ++ k) (c1 :: others) (length pre)) as (m & Hm & Hmb & Hlcp);
        [done|done|lia| |].
      { eapply Forall_impl; [exact Hc|]. intros s (Hp & _). by rewrite take_app_length. }
      cbn [complete]. apply wp_bind, wp_lift. exists (Z.of_nat m). split; [done|].
      destruct (Z.ltb_spec (Z.of_nat (length pre)) (Z.of_nat m)).
      * rewrite Nat2Z.id, drop_app_length. apply (Hext (take m (pre ++ k))); [|by apply Forall_take|done|done].
        replace (Z.to_nat (Z.of_nat m - Z.of_nat (length pre))) with (m - length pre)%nat by lia.
        by rewrite take_app_ge by lia.
      * assert (m = length pre) as -> by lia. apply wp_bind, wp_trap. intros r1 _.
        apply wp_bind, wp_list_cands. intros tr1. apply wp_bind, wp_trap. intros r2 _. apply wp_bind. rewrite (line_ok_take _ _ _ Hok), Nat2Z.id, Ht.
        apply wp_put_chars; [destruct Hok as (_ & _ & Hg & _); rewrite <- Ht; by apply Forall_take|].
        intros tr2 Htr2. rewrite screen_snoc in Htr2. simpl in Htr2. eapply HQ; [done|..]; rewrite Nat2Z.id, Ht.
        -- exists pre. split; [by rewrite take_app_length in Hlcp|]. rewrite take_ge; [done|lia].
        -- intros Hnb. exists []. exact (Htr2 Hnb).
Qed.
End Complete.

(** ** Candidates *)

Lemma until_nul_prefix l : until_nul l `prefix_of` l /\ 0 ∉ until_nul l.
Proof.
  induction l as [|c l [IH1 IH2]]; simpl; [split; [done|set_solver]|].
  destruct (Z.eqb_spec c 0); [split; [apply prefix_nil|set_solver]|].
  split; [by apply prefix_cons|set_solver].
Qed.

Lemma until_nul_id l : 0 ∉ l -> until_nul l = l.
Proof.
  induction l as [|c l IH]; simpl; [done|]. intros H. replace (c =? 0) with false by set_solver by lia.
  f_equal. apply IH. set_solver.
Qed.

Lemma take_name_spec n buf tmp rest :
  take_name n buf = (tmp, rest) -> buf = tmp ++ rest /\ (length tmp <= n)%nat /\ NL ∉ tmp.
Proof.
  revert buf tmp rest. induction n as [|n IH]; intros [|c buf] tmp rest; simpl; intros H; simplify_eq;
    try (splits; [done|simpl; lia|set_solver]).
  destruct (Z.eqb_spec c NL); [simplify_eq; splits; [done|simpl; lia|set_solver]|].
  destruct (take_name n buf) as [tmp' rest'] eqn:E. simplify_eq. destruct (IH _ _ _ E) as (-> & Hl & Hn).
  splits; [done|simpl; lia|set_solver].
Qed.

Lemma skip_nl_suffix l : exists k, l = k ++ skip_nl l.
Proof. destruct l as [|c l]; simpl; [by exists []|]. destruct (c =? NL); [by exists [c]|by exists []]. Qed.

(** A round takes at least one character. *)
Lemma take_name_progress n buf tmp rest :
  buf <> [] -> take_name (S n) buf = (tmp, rest) -> (length (skip_nl rest) < length buf)%nat.
Proof.
  intros Hne E. destruct (take_name_spec _ _ _ _ E) as (Hb & _). destruct buf as [|c buf]; [done|].
  destruct (skip_nl_suffix rest) as [k Hk]. pose proof (f_equal length Hk) as Hkl. rewrite length_app in Hkl.
  pose proof (f_equal length Hb) as Hbl. rewrite length_app in Hbl. cbn [take_name] in E.
  destruct (Z.eqb_spec c NL) as [->|Hc].
  - injection E as <- <-. simpl. lia.
  - destruct (take_name _ buf). injection E as <- <-. simpl in *. lia.
Qed.

Lemma good_of_buf tmp (buf rest : list Z) : buf = tmp ++ rest -> (no_backspace = true -> BS ∉ buf) -> NL ∉ tmp -> Forall good (until_nul tmp).
Proof.
  intros -> Hb Hn. destruct (until_nul_prefix tmp) as [[k Hk] H0]. apply Forall_forall. intros c Hc.
  assert (c ∈ tmp) by (rewrite Hk; set_solver). split; [set_solver|]. split; [set_solver|].
  intros Hnb ->. apply (Hb Hnb). set_solver.
Qed.

Lemma collect_loop_ok fuel buf base cands :
  (no_backspace = true -> BS ∉ buf) -> 0 ∉ base -> (length buf <= fuel)%nat -> Forall (cand_ok base) cands ->
  exists cands', collect_loop fuel buf base (Z.of_nat (length base)) cands CAND_MAX = Some cands'
    /\ Forall (cand_ok base) cands'.
Proof.
  intros Hbuf Hb. revert buf cands Hbuf. induction fuel as [|fuel IH]; intros [|c buf] cands Hbuf Hf Hc;
    try (exists cands; split; [reflexivity|done]); simpl in Hf; [lia|].
  cbn [collect_loop]. destruct (Z.leb_spec CAND_MAX (Z.of_nat (length cands))); [by exists cands|].
  destruct (take_name _ (c :: buf)) as [tmp rest] eqn:E.
  pose proof (take_name_progress 46 (c :: buf) tmp rest ltac:(done) E) as Hp. destruct (take_name_spec _ _ _ _ E) as (Hs & Hl & Hn).
  destruct (skip_nl_suffix rest) as [k Hk].
  assert (no_backspace = true -> BS ∉ skip_nl rest) by (intros Hnb; specialize (Hbuf Hnb); rewrite Hs, Hk in Hbuf; set_solver). simpl in Hp.
  rewrite Nat2Z.id. case_match eqn:Et; [|apply IH; [done|lia|done]]. bool_prop.
  unfold add_cand. destruct (until_nul_prefix tmp) as [Hpre _]. apply prefix_length in Hpre.
  change (Z.to_nat (CAND_LEN - 1)) with 47%nat in Hl. unfold CAND_LEN.
  replace (Z.of_nat (length cands) <? CAND_MAX) with true by lia.
  replace (Z.of_nat (length (until_nul tmp)) <? 48) with true by lia. simpl.
  apply IH; [done|lia|]. apply Forall_app. split; [done|]. constructor; [|done].
  split; [|split]; [by apply sh_strncmp_prefix|lia|by eapply good_of_buf].
Qed.

(** The listing of a directory: its names, a line each. *)
Fixpoint listing (names : list (list Z)) : list Z :=
  match names with [] => [] | s :: names' => s ++ NL :: listing names' end.

Definition name_ok (s : list Z) : Prop := (length s <= 47)%nat /\ Forall good s.

Lemma take_name_exact n s rest : (length s <= n)%nat -> NL ∉ s -> take_name n (s ++ NL :: rest) = (s, NL :: rest).
Proof.
  revert n. induction s as [|c s IH]; intros n Hn Hs; simpl in *.
  - destruct n; [done|]. simpl. done.
  - destruct n as [|n]; [lia|]. simpl. replace (c =? NL) with false by (assert (c <> NL) by set_solver; lia).
    by rewrite IH by (lia || set_solver).
Qed.

Lemma good_no_nl s : Forall good s -> NL ∉ s.
Proof. intros H Hin. rewrite Forall_forall in H. destruct (H _ Hin) as (_ & ? & _). done. Qed.

Lemma collect_loop_listing names fuel base cands :
  Forall name_ok names -> 0 ∉ base -> (length (listing names) <= fuel)%nat -> (length cands <= 24)%nat ->
  collect_loop fuel (listing names) base (Z.of_nat (length base)) cands CAND_MAX
  = Some (take 24 (cands ++ filter (fun s => base `prefix_of` s) names)).
Proof.
  intros Hn Hb. revert fuel cands. induction Hn as [|s names [Hl Hg] _ IH]; intros fuel cands Hf Hc.
  - destruct fuel; simpl; by rewrite app_nil_r, take_ge by lia.
  - cbn [listing] in *. rewrite length_app in Hf. simpl in Hf.
    destruct fuel as [|fuel]; [lia|].
    destruct (s ++ NL :: _) as [|x l] eqn:Eb; [by destruct s|]. cbn [collect_loop].
    destruct (Z.leb_spec CAND_MAX (Z.of_nat (length cands))) as [Hge|Hlt]; unfold CAND_MAX in *.
    { rewrite take_app_le by lia. by rewrite take_ge by lia. }
    rewrite <- Eb. change (Z.to_nat (CAND_LEN - 1)) with 47%nat.
    rewrite take_name_exact by (done || by apply good_no_nl). cbn [skip_nl]. rewrite Z.eqb_refl.
    rewrite until_nul_id by (by apply good_no_nul). rewrite Nat2Z.id, filter_cons.
    destruct (decide (base `prefix_of` s)) as [Hp|Hp].
    + pose proof (prefix_length _ _ Hp). replace (Z.of_nat (length base) <=? Z.of_nat (length s)) with true by lia.
      rewrite (proj2 (sh_strncmp_prefix s base Hb) Hp). simpl. unfold add_cand, CAND_MAX, CAND_LEN.
      replace (Z.of_nat (length cands) <? 24) with true by lia. replace (Z.of_nat (length s) <? 48) with true by lia. simpl.
      rewrite IH by (rewrite ?length_app; simpl; lia). by rewrite <- app_assoc.
    + replace (strncmp s base (length base) =? 0) with false; [rewrite andb_false_r; apply IH; lia|].
      symmetry. apply Z.eqb_neq. by rewrite sh_strncmp_prefix.
Qed.

Lemma builtin_loop_spec cmds pre cands :
  0 ∉ pre -> (length cands + length cmds <= 24)%nat -> Forall (fun s => length s < 48)%nat cmds ->
  builtin_loop cmds pre (Z.of_nat (length pre)) cands = Some (cands ++ filter (fun s => pre `prefix_of` s) cmds).
Proof.
  intros Hp. revert cands. induction cmds as [|b cmds IH]; intros cands Hl Hf; simpl in *; [by rewrite app_nil_r|].
  apply Forall_cons_1 in Hf as [Hb Hf]. rewrite Nat2Z.id, filter_cons.
  destruct (decide (pre `prefix_of` b)) as [Hx|Hx].
  - rewrite (proj2 (sh_strncmp_prefix b pre Hp) Hx). simpl. unfold add_cand, CAND_MAX, CAND_LEN.
    replace (Z.of_nat (length cands) <? 24) with true by lia. replace (Z.of_nat (length b) <? 48) with true by lia. simpl.
    rewrite IH by (rewrite ?length_app; simpl; lia || done). by rewrite <- app_assoc.
  - replace (strncmp b pre (length pre) =? 0) with false; [apply IH; lia || done|].
    symmetry. apply Z.eqb_neq. by rewrite sh_strncmp_prefix.
Qed.

(** ** What the kernel promises: a listing fits into the buffer; its names may be free of backspaces. *)
Definition ls_ok (c : call) : resp c -> Prop :=
  match c with
  | Ls _ n => fun r => match r with inr buf => Z.of_nat (length buf) <= n /\ (no_backspace = true -> BS ∉ buf) | inl _ => True end
  | _ => fun _ => True
  end.

Lemma wp_collect path base cands tr Q X :
  0 ∉ base -> Forall (cand_ok base) cands ->
  (forall cands' tr', Forall (cand_ok base) cands' -> screen tr' = screen tr -> Q cands' tr') ->
  wp ls_ok (collect_ls_prefix path base (Z.of_nat (length base)) cands CAND_MAX) tr Q X.
Proof.
  intros Hb Hc HQ. unfold collect_ls_prefix. apply wp_bind, wp_trap. intros [e|buf] Hr; simpl in Hr.
  - apply HQ; [done|]. by rewrite screen_snoc.
  - destruct Hr as [Hl Hbs]. unfold LS_BUF in *. replace (Z.of_nat (length buf) <? 512) with true by lia.
    destruct (collect_loop_ok (length buf) buf base cands) as (c' & -> & Hc'); try done.
    apply HQ; [done|]. by rewrite screen_snoc.
Qed.

(** A directory in front of the candidates. *)
Lemma full_name_ok dir base s :
  (length (dir ++ SLASH :: base) < 48)%nat -> Forall good dir -> cand_ok base s ->
  exists f, full_name dir s = Some f /\ cand_ok (dir ++ SLASH :: base) f.
Proof.
  intros Hl Hd ([k ->] & _ & Hg). unfold full_name, CAND_LEN. change (Z.to_nat (48 - 1)) with 47%nat.
  rewrite length_app in Hl. simpl in Hl. rewrite (take_ge dir) by lia.
  set (n := (47 - length (dir ++ [SLASH]))%nat).
  assert (n = 46 - length dir)%nat as Hn by (unfold n; rewrite length_app; simpl; lia).
  assert (length ((dir ++ [SLASH]) ++ take n (base ++ k)) < 48)%nat as Hf
    by (rewrite !length_app, length_take; simpl; lia).
  case_match eqn:E; [|bool_prop; lia]. eexists. split; [done|]. split; [|split; [done|]].
  - rewrite <- app_assoc. simpl. apply prefix_app, prefix_cons. rewrite take_app_ge by lia. by eexists.
  - rewrite !Forall_app. split; [split; [done|]|by apply Forall_take]. repeat constructor; done.
Qed.

Lemma mapM_full_name dir base cands :
  (length (dir ++ SLASH :: base) < 48)%nat -> Forall good dir -> Forall (cand_ok base) cands ->
  exists fs, mapM (full_name dir) cands = Some fs /\ Forall (cand_ok (dir ++ SLASH :: base)) fs.
Proof.
  intros Hl Hd. induction 1 as [|s cands Hs _ (fs & IH & Hf)]; [by exists []|].
  destruct (full_name_ok dir base s Hl Hd Hs) as (f & E & Hok). exists (f :: fs).
  cbn [mapM]. rewrite E, IH. split; [done|by constructor].
Qed.

Lemma wp_dirs_loop dirs pre tr Q X :
  0 ∉ pre -> (length pre < 48)%nat -> Forall (Forall good) dirs ->
  (forall cands tr', Forall (cand_ok pre) cands -> screen tr' = screen tr -> Q cands tr') ->
  wp ls_ok (dirs_loop dirs pre (Z.of_nat (length pre)) []) tr Q X.
Proof.
  intros Hp Hl Hd HQ. induction Hd as [|dir dirs Hd _ IH]; [by apply HQ|].
  cbn [dirs_loop]. destruct (_ && _)%bool eqn:E; [|exact IH]. bool_prop.
  unfold strlen in *. rewrite Nat2Z.id in *.
  assert (dir `prefix_of` pre) as [k ->] by (apply sh_strncmp_prefix; [by apply good_no_nul|done]).
  match goal with H : char_at _ _ = SLASH |- _ => rewrite char_at_app_r in H; rename H into Hx end.
  destruct k as [|x base]; [done|]. change (x = SLASH) in Hx. subst x.
  replace (Z.to_nat (Z.of_nat (length dir) + 1)) with (length dir + 1)%nat by lia.
  replace (drop (length dir + 1) (dir ++ SLASH :: base)) with base by (by rewrite <- drop_drop, drop_app_length).
  replace (Z.of_nat (length (dir ++ SLASH :: base)) - Z.of_nat (length dir) - 1) with (Z.of_nat (length base))
    by (rewrite length_app; simpl; lia).
  apply wp_bind, wp_collect; [set_solver|constructor|]. intros cands tr' Hc Htr. simpl.
  destruct (mapM_full_name dir base cands Hl Hd Hc) as (fs & Ef & Hfs).
  apply wp_bind, wp_lift. exists fs. split; [done|]. by apply HQ.
Qed.

Lemma builtin_names_ok s : s ∈ builtin_cmds -> name_ok s.
Proof.
  intros Hin.
  assert (Forall (fun s => (length s <= 47)%nat /\ Forall (fun c => c <> 0 /\ c <> NL /\ c <> BS) s) builtin_cmds) as H
    by (by apply (bool_decide_unpack _)).
  rewrite Forall_forall in H. destruct (H s Hin). split; [done|by apply plain_good].
Qed.

Lemma wp_find_cands pre first tr Q X :
  0 ∉ pre -> (length pre < 48)%nat ->
  (forall cands tr', Forall (cand_ok pre) cands -> screen tr' = screen tr -> Q cands tr') ->
  wp ls_ok (find_cands pre (Z.of_nat (length pre)) first) tr Q X.
Proof.
  intros Hp Hl HQ. unfold find_cands. destruct first.
  - apply wp_bind, wp_lift. eexists. split.
    { apply builtin_loop_spec; [done|simpl; lia|]. by apply (bool_decide_unpack _). }
    apply wp_collect; [done| |done]. simpl. apply Forall_forall. intros s [Hs Hin]%list_elem_of_filter.
    assert (name_ok s) as [? ?]; [|split; [done|]; split; [lia|done]].
    apply builtin_names_ok, Hin.
  - destruct (_ =? _); [|by apply HQ].
    apply wp_dirs_loop; try done. eapply (Forall_impl (Forall (fun c => c <> 0 /\ c <> NL /\ c <> BS)));
      [by apply (bool_decide_unpack _)|apply plain_good].
Qed.

(** ** The last word *)
Lemma word_start_spec cmd n :
  (n <= length cmd)%nat ->
  exists ws, word_start cmd n = Some (Z.of_nat ws) /\ (ws <= n)%nat
    /\ (SPACE ∉ take (n - ws) (drop ws cmd)) /\ (ws = 0%nat \/ cmd !! (ws - 1)%nat = Some SPACE).
Proof.
  induction n as [|n IH]; intros Hn; cbn [word_start].
  - exists 0%nat. splits; [done|lia|set_solver|by left].
  - destruct (lookup_lt_is_Some_2 cmd n) as [c Hc]; [lia|]. rewrite Hc. simpl.
    destruct (Z.eqb_spec c SPACE) as [->|Hne].
    + exists (S n). splits; [done|lia| |right; by rewrite Nat.sub_1_r]. rewrite Nat.sub_diag. set_solver.
    + destruct IH as (ws & -> & Hw & Hs & He); [lia|]. exists ws. splits; [done|lia| |done].
      replace (S n - ws)%nat with (S (n - ws)) by lia.
      rewrite (take_S_r _ _ c); [set_solver|]. rewrite lookup_drop. by replace (ws + (n - ws))%nat with n by lia.
Qed.

(** The line as it is before its last word, and that word. *)
Lemma last_word cmd n t ws :
  line_ok cmd n t -> (ws <= Z.to_nat n)%nat ->
  let before := take ws t in
  let pre := take (Z.to_nat n - ws) (drop ws cmd) in
  take (Z.to_nat n) t = before ++ pre /\ length before = ws /\ length pre = (Z.to_nat n - ws)%nat /\ Forall good pre.
Proof.
  intros Hok Hw before pre. pose proof (line_ok_bound _ _ _ Hok) as Hb. pose proof (line_ok_take _ _ _ Hok) as Ht.
  destruct Hok as (Hl & Hc & Hg & Hn).
  assert (before = take ws cmd) as Eb.
  { unfold before. apply cstring_spec in Hc as (r & -> & _). rewrite take_app_le by lia. done. }
  assert (before ++ pre = take (Z.to_nat n) t) as E.
  { rewrite <- Ht, Eb. unfold pre. rewrite take_take_drop. f_equal. lia. }
  splits; [done|unfold before; rewrite length_take; lia|unfold pre; rewrite length_take, length_drop; lia|].
  assert (Forall good (before ++ pre)) as Hgg by (rewrite E; by apply Forall_take). by apply Forall_app in Hgg as [_ ?].
Qed.

Lemma wp_tab_complete cmd n t tr Q X :
  line_ok cmd n t -> shown tr (take (Z.to_nat n) t) ->
  (forall cmd' n' t' tr', line_ok cmd' n' t' -> shown tr' (take (Z.to_nat n') t') -> Q (cmd', n') tr') ->
  wp ls_ok (tab_complete cmd n CMD_MAX) tr Q X.
Proof.
  intros Hok Hs HQ. pose proof (line_ok_bound _ _ _ Hok) as Hb. unfold tab_complete.
  destruct (word_start_spec cmd (Z.to_nat n)) as (ws & Hws & Hle & _).
  { destruct Hok as (-> & _). lia. }
  apply wp_bind, wp_lift. exists (Z.of_nat ws). split; [done|].
  destruct (Z.leb_spec CAND_LEN (n - Z.of_nat ws)) as [|Hlt]; [by eapply HQ|].
  assert (0 <= n) as Hn0 by (by destruct Hok as (_ & _ & _ & ? & _)).
  destruct (last_word _ _ _ _ Hok Hle) as (Ht & Hlb & Hlp & Hg). rewrite Nat2Z.id.
  set (before := take ws t) in *.
  replace (Z.to_nat (n - Z.of_nat ws)) with (Z.to_nat n - ws)%nat by lia.
  set (pre := take (Z.to_nat n - ws) (drop ws cmd)) in *.
  replace (n - Z.of_nat ws) with (Z.of_nat (length pre)) by lia. unfold CAND_LEN in Hlt.
  apply wp_bind, wp_find_cands; [by apply good_no_nul|lia|]. intros cands tr' Hc Htr.
  assert (length (before ++ pre) = Z.to_nat n) as Hl by (rewrite length_app; lia).
  replace n with (Z.of_nat (length (before ++ pre))) by lia.
  eapply wp_complete; [by rewrite Hl, Z2Nat.id|by rewrite Hl|done| |by intros; eapply HQ].
  rewrite <- Ht. intros Hnb. destruct (Hs Hnb) as [p Hp]. exists p. by rewrite Htr.
Qed.

(** ** Programs that do not fault and do not exit *)
Definition safe {A} (p : prog A) : Prop := forall tr, wp ls_ok p tr (fun _ _ => True) (fun _ _ => False).

Lemma safe_bind {A B} (p : prog A) (f : A -> prog B) : safe p -> (forall a, safe (f a)) -> safe (p ≫= f).
Proof. intros Hp Hf tr. apply wp_bind. eapply wp_mono; [apply Hp| |done]. intros a tr' _. apply Hf. Qed.

Lemma safe_trap c : safe (trap c).
Proof. by intros tr r _. Qed.

Lemma safe_ret {A} (a : A) : safe (mret a).
Proof. done. Qed.

#[local] Hint Resolve safe_trap safe_ret : safe.

Ltac safe_steps :=
  repeat first
    [ progress intros
    | solve [auto with safe]
    | apply safe_trap
    | apply safe_bind
    | progress unfold sys_write, sys_putchar, sys_clear, sys_reboot, sys_poweroff, sys_tier_query, sys_mlfq_query,
        sys_fork, sys_exec, sys_wait, sys_exit
    | case_match; simplify_eq ].

Lemma safe_print_hex v : safe (print_hex v).
Proof. apply safe_trap. Qed.
#[local] Hint Resolve safe_print_hex : safe.

Lemma safe_print_status what st : safe (print_status what st).
Proof. unfold print_status. safe_steps. Qed.
Lemma safe_print_level what st : safe (print_level what st).
Proof. unfold print_level. safe_steps. Qed.
Lemma safe_exec_error r path : safe (exec_error r path).
Proof. unfold exec_error. safe_steps. Qed.
#[local] Hint Resolve safe_print_status safe_print_level safe_exec_error : safe.

(** A listing is printed: the answer of [ls] fits into its buffer. *)
Lemma safe_ls path (f : Z + list Z -> prog Z) :
  (forall r, ls_ok (Ls path (LS_BUF - 1)) r -> safe (f r)) -> safe (r ← sys_ls path (LS_BUF - 1); f r).
Proof. intros H tr. apply wp_bind, wp_trap. intros r Hr. by apply H. Qed.

Lemma safe_print_listing path r err : ls_ok (Ls path (LS_BUF - 1)) r -> safe (print_listing r err).
Proof.
  intros Hr. destruct r as [e|[|c buf]]; unfold print_listing; safe_steps.
  destruct Hr as [Hl _]. unfold LS_BUF in *. bool_prop. simpl in *. lia.
Qed.

Lemma safe_run_ls args : safe (run_ls args).
Proof.
  unfold run_ls.
  assert (H : safe (_ ← sys_write (line "/home:"); r ← sys_ls (lit "/home") (LS_BUF - 1);
    _ ← print_listing r (line "error: cannot list /home"); _ ← sys_write (line "/mnt:");
    r ← sys_ls (lit "/mnt") (LS_BUF - 1); print_listing r (line "error: cannot list /mnt"))).
  { apply safe_bind; [safe_steps|]. intros _. apply safe_ls. intros r Hr. apply safe_bind; [by eapply safe_print_listing|].
    intros _. apply safe_bind; [safe_steps|]. intros _. apply safe_ls. intros r2 Hr2. by eapply safe_print_listing. }
  destruct args as [|a [|b args]]; [exact H|exact H|].
  apply safe_ls. intros [e|buf] Hr; [safe_steps|by eapply safe_print_listing].
Qed.
#[local] Hint Resolve safe_run_ls : safe.

(** How a shell ends: with code 0 behind the message of the command [exit], or with code 1 when it
    is the child of a fork. *)
Definition in_child (tr : list event) : Prop := mk_event Fork (0 : resp Fork) ∈ tr.

Definition ends (code : Z) (tr : list event) : Prop :=
  (code = 0 /\ exists r, last tr = Some (mk_event (Write 1 (line "bye")) r)) \/ (code = 1 /\ in_child tr).

Lemma safe_ends {A} (p : prog A) tr : safe p -> wp ls_ok p tr (fun _ _ => True) ends.
Proof. intros Hp. eapply wp_mono; [apply Hp|done|]. by intros code tr' []. Qed.

Lemma wp_run_child a args tr : (length a <= 63)%nat -> in_child tr -> wp ls_ok (run_child a args) tr (fun _ _ => True) ends.
Proof.
  intros Ha Hch. unfold run_child.
  assert (exists path, exec_path a = Some path) as [path ->].
  { unfold exec_path. set (p := if char_at a 0 =? SLASH then _ else _).
    assert (length p <= 68)%nat by (unfold p; case_match; [|rewrite length_app; change (length (lit "/mnt/")) with 5%nat]; rewrite length_take; lia).
    replace (Z.of_nat (length p) <? CMD_MAX + 16) with true by (unfold CMD_MAX; lia). eauto. }
  match goal with |- wp _ (lift _ ≫= ?f) _ _ _ => change (wp ls_ok (f path) tr (fun _ _ => True) ends) end. cbv beta.
  apply wp_bind, wp_trap. intros r _. apply wp_bind.
  match goal with |- wp _ ?p _ _ _ => assert (safe p) as Hp by (safe_steps; apply safe_ret) end.
  eapply wp_mono; [apply wp_trace, Hp| |by intros ? ? [[] _]]. intros [r' path'] tr1 [_ (evs & -> & _)]. apply wp_bind.
  match goal with |- wp _ ?p _ _ _ => assert (safe p) as Hp2 by (safe_steps; apply safe_ret) end.
  eapply wp_mono; [apply wp_trace, Hp2| |by intros ? ? [[] _]]. intros r2 tr2 [_ (evs2 & -> & _)].
  right. split; [done|]. unfold in_child in *. set_solver.
Qed.

Lemma wp_run_program a args bg tr : (length a <= 63)%nat -> wp ls_ok (run_program a args bg) tr (fun _ _ => True) ends.
Proof.
  intros Ha. unfold run_program. apply wp_bind, wp_trap. intros pid _. change (resp Fork) with Z in pid.
  destruct (Z.eqb_spec pid 0) as [->|Hne].
  - apply wp_run_child; [done|]. unfold in_child. set_solver.
  - apply safe_ends. safe_steps.
Qed.

Lemma wp_run_args args bg tr :
  Forall (fun a => length a <= 63)%nat args -> wp ls_ok (run_args args bg) tr (fun _ _ => True) ends.
Proof.
  intros H. destruct H as [|a args Ha _]; [done|]. unfold run_args.
  repeat (case_match; [try (apply safe_ends; safe_steps; fail)|]).
  - apply wp_bind, wp_trap. intros r _. left. split; [done|]. exists r. by rewrite last_snoc.
  - by apply wp_run_program.
Qed.

(** ** The invariant of the main loop *)

(** A row of the history: terminated, and without characters that move the cursor. *)
Definition row_ok (row : list Z) : Prop :=
  length row = 64%nat /\ row !! 63%nat = Some 0 /\ Forall (fun c => c <> NL /\ (no_backspace = true -> c <> BS)) row.

Record shell_ok (s : shell) : Prop := {
  so_history : length (history s) = 16%nat /\ Forall row_ok (history s);
  so_count : 0 <= hist_count s <= 16;
  so_line : exists t, line_ok (cmd s) (len s) t;
}.

(** The text that the user sees. *)
Definition text (s : shell) : list Z := take (Z.to_nat (len s)) (cmd s).

Lemma row_ok_string row : row_ok row -> exists t, cstring row = Some t /\ Forall good t /\ (length t <= 63)%nat.
Proof.
  intros (Hl & Hz & Hg).
  assert (exists t, cstring row = Some t) as [t Ht].
  { assert (0 ∈ row) as Hin by (eapply list_elem_of_lookup_2; eauto). clear -Hin.
    induction row as [|c row IH]; [set_solver|]. simpl. destruct (Z.eqb_spec c 0); [eauto|].
    destruct IH as [t ->]; [set_solver|]. by eexists. }
  exists t. split; [done|]. apply cstring_spec in Ht as (r & -> & H0). rewrite length_app in Hl. simpl in Hl.
  split; [|lia]. apply Forall_app in Hg as [Hg _]. rewrite Forall_forall in Hg |- *. intros c Hc.
  split; [set_solver|]. by apply Hg.
Qed.

(** The line that [remember] stores. *)
Lemma row_ok_copy cmd n t row :
  line_ok cmd n t -> row_ok row ->
  let k := Z.to_nat (Z.min (n + 1) CMD_MAX) in row_ok (take k cmd ++ drop k row).
Proof.
  intros Hok (Hl & Hz & Hg) k. pose proof (line_ok_bound _ _ _ Hok) as Hb. destruct Hok as (Hlc & Ht & Hgt & Hn).
  assert (k = Z.to_nat n + 1)%nat as Hk by (unfold k, CMD_MAX; lia).
  apply cstring_spec in Ht as (r & -> & _). rewrite length_app in Hlc. simpl in Hlc.
  assert (Forall (fun c => c <> NL /\ (no_backspace = true -> c <> BS)) (take k (t ++ 0 :: r))) as Hgk.
  { replace (t ++ 0 :: r) with ((t ++ [0]) ++ r) by (by rewrite <- app_assoc).
    rewrite take_app_le by (rewrite length_app; simpl; lia). apply Forall_take, Forall_app. split.
    - eapply Forall_impl; [exact Hgt|]. by intros c (_ & ?).
    - repeat constructor; done. }
  split; [|split].
  - rewrite length_app, length_take, length_drop, length_app. simpl. lia.
  - destruct (decide (k = 64%nat)) as [E|E].
    + rewrite lookup_app_l by (rewrite length_take, length_app; simpl; lia). rewrite lookup_take_lt by lia.
      rewrite lookup_app_r by lia. by replace (63 - length t)%nat with 0%nat by lia.
    + rewrite lookup_app_r by (rewrite length_take, length_app; simpl; lia). rewrite lookup_drop, length_take, length_app.
      rewrite <- Hz. f_equal. simpl. lia.
  - apply Forall_app. split; [done|]. by apply Forall_drop.
Qed.

Lemma wp_remember s tr Q X :
  shell_ok s ->
  (forall s', shell_ok s' -> cmd s' = cmd s -> len s' = len s -> Q s' tr) -> wp ls_ok (remember s) tr Q X.
Proof.
  intros Hok HQ. destruct Hok as [[Hh Hr] Hc [t Ht]]. unfold remember.
  destruct (Z.ltb_spec 0 (len s)) as [Hpos|]; [|apply HQ; done || by split; eauto].
  assert (exists h n, (if hist_count s =? HIST_MAX then (shift_rows (history s), HIST_MAX - 1) else (history s, hist_count s)) = (h, n)
            /\ length h = 16%nat /\ Forall row_ok h /\ 0 <= n < 16) as (h & n & -> & Hlh & Hrh & Hn).
  { unfold HIST_MAX. destruct (Z.eqb_spec (hist_count s) 16) as [E|E]; eexists _, _; (split; [reflexivity|]); [|splits; try done; lia].
    unfold shift_rows. destruct (last (history s)) as [row|] eqn:El.
    - splits; [rewrite length_app, length_drop; simpl; lia| |lia|lia]. apply Forall_app. split; [by apply Forall_drop|].
      constructor; [|done]. apply last_Some_elem_of in El. rewrite Forall_forall in Hr. by apply Hr.
    - apply last_None in El. by rewrite El in Hh. }
  destruct (lookup_lt_is_Some_2 h (Z.to_nat n)) as [row Hrow]; [lia|].
  unfold aget. replace (0 <=? n) with true by lia. rewrite Hrow. simpl. rewrite aset_Some by lia. simpl.
  apply HQ; [|done|done]. split; simpl; [|lia|by exists t]. split; [by rewrite length_insert|].
  apply Forall_insert; [done|]. apply (row_ok_copy _ _ t); [done|]. rewrite Forall_lookup in Hrh. eauto.
Qed.

Lemma words_short k t : Forall (fun w => length w <= length t)%nat (words k t).
Proof.
  assert (Hsk : forall t, (length (skip_blanks t) <= length t)%nat).
  { clear. induction t as [|c t IH]; simpl; [lia|]. destruct (blank c); simpl; lia. }
  assert (Hsp : forall t, (length (span_word t).1 + length (span_word t).2)%nat = length t).
  { clear. induction t as [|c t IH]; simpl; [lia|]. destruct (blank c); simpl; [lia|]. destruct (span_word t). simpl in *. lia. }
  revert t. induction k as [|k IH]; intros t; cbn [words]; [done|]. specialize (Hsk t).
  destruct (skip_blanks t) as [|c t'] eqn:E; [destruct k; constructor|].
  destruct k as [|k]; [repeat constructor; done|].
  specialize (Hsp (c :: t')). destruct (span_word (c :: t')) as [w r]. constructor; [simpl in *; lia|].
  eapply Forall_impl; [apply IH|]. simpl in *. lia.
Qed.

Lemma wp_run_line s tr Q X :
  shell_ok s ->
  (forall c tr', length c = 64%nat -> Q (s <| cmd := c |>) tr') -> (forall code tr', ends code tr' -> X code tr') ->
  wp ls_ok (run_line s) tr Q X.
Proof.
  intros [_ _ [t Ht]] HQ HX. pose proof (line_ok_bound _ _ _ Ht) as Hb. destruct Ht as (Hl & Ht & _). unfold run_line.
  destruct (0 <? len s).
  - destruct (split_spec (cmd s) t 4 Ht) as (c & argv & Hs & Hlc & Ha); [lia|].
    apply wp_bind, wp_lift. exists (c, argv). split; [exact Hs|]. apply wp_bind, wp_lift. exists (words 4 t). split; [done|].
    destruct (before_amp (words 4 t)) as [n bg]. apply wp_bind. eapply wp_mono; [apply wp_run_args|..].
    + apply Forall_take. eapply Forall_impl; [apply words_short|]. simpl. lia.
    + intros a tr' _. apply HQ. by rewrite Hlc.
    + intros code tr'. apply HX.
  - specialize (HQ (cmd s) tr Hl). by destruct s.
Qed.

(** ** One character *)

Definition session_ok (s : shell) (tr : list event) : Prop := shell_ok s /\ shown tr (text s).

Lemma session_line s t tr :
  shell_ok s -> line_ok (cmd s) (len s) t -> shown tr (take (Z.to_nat (len s)) t) -> session_ok s tr.
Proof. intros Hs Hl Ht. split; [done|]. unfold text. by rewrite (line_ok_take _ _ _ Hl). Qed.

(** A state with another line. *)
Lemma shell_ok_line s c n t : shell_ok s -> line_ok c n t -> shell_ok (s <| cmd := c |> <| len := n |>).
Proof. intros [Hh Hc _] Hl. split; simpl; [done|done|by exists t]. Qed.

Lemma wp_prompt s tr Q X :
  length (history s) = 16%nat /\ Forall row_ok (history s) -> 0 <= hist_count s <= 16 -> length (cmd s) = 64%nat ->
  (forall s' tr', session_ok s' tr' -> len s' = 0 -> cstring (cmd s') = Some [] -> Q s' tr') ->
  wp ls_ok (prompt s) tr Q X.
Proof.
  intros Hh Hc Hl HQ. unfold prompt. apply wp_bind, wp_trap. intros r _. rewrite aset_Some by lia. simpl.
  destruct (cmd s) as [|x l] eqn:E; [done|]. simpl in *.
  assert (line_ok (0 :: l) 0 []) as Hok by (apply (line_ok_written [] l); done).
  apply HQ; [|done|done]. apply (session_line _ []); [split; simpl; eauto|done|]. simpl.
  intros _. exists (screen tr). rewrite screen_snoc.
  change (foldl putc (screen tr) (lit "> ") = screen tr ++ lit "> "). apply putc_prompt.
Qed.

Lemma wp_recall up s tr Q X :
  session_ok s tr -> (forall s' tr', session_ok s' tr' -> Q s' tr') -> wp ls_ok (recall up s) tr Q X.
Proof.
  intros [Hok Hs] HQ. unfold recall. set (pos := if up then _ else _).
  destruct (_ || _)%bool eqn:E; [by apply HQ|]. bool_prop.
  destruct Hok as [[Hh Hr] Hc [t Ht]]. pose proof (line_ok_bound _ _ _ Ht) as Hb.
  pose proof (line_ok_take _ _ _ Ht) as Htk. destruct Ht as (Hl & Ht & Hg & Hn). apply wp_bind.
  assert (exists pre, says tr ((pre ++ lit "> ") ++ text s)) as [pre Hpre].
  { unfold says. destruct (no_backspace : bool) eqn:Enb; [|by exists []]. destruct (Hs Enb) as [pre Hp]. exists pre. intros _. by rewrite Hp, app_assoc. }
  apply (wp_erase_line _ _ _ _ _ (pre ++ lit "> ") (text s)); [|done|].
  { unfold text. rewrite length_take. lia. }
  intros tr1 Htr1. destruct (lookup_lt_is_Some_2 (history s) (Z.to_nat pos)) as [row Hrow]; [lia|].
  unfold aget. replace (0 <=? pos) with true by lia. rewrite Hrow. apply wp_bind.
  assert (row_ok row) as Hro by (rewrite Forall_lookup in Hr; eauto).
  destruct (row_ok_string _ Hro) as (u & Hu & Hgu & Hlu). apply wp_bind. rewrite Hu. simpl. apply wp_bind.
  assert (room u 0 (CMD_MAX + CMD_MAX) = length u) as Hroom by (unfold room, CMD_MAX; lia).
  apply wp_push_chars; rewrite ?Hroom; [done|lia|simpl; lia|]. intros tr2 Htr2.
  rewrite take_ge in Htr2 by lia. change (Z.to_nat 0) with 0%nat. rewrite (take_ge u) by lia. simpl.
  destruct (drop (length u) (cmd s)) as [|x r] eqn:Ed.
  { apply (f_equal length) in Ed. rewrite length_drop in Ed. simpl in Ed. lia. }
  assert (length (u ++ 0 :: r) = 64%nat) as Hlen.
  { apply (f_equal length) in Ed. rewrite length_drop in Ed. rewrite length_app. simpl in *. lia. }
  rewrite aset_Some by (rewrite length_app in *; simpl in *; lia). simpl. rewrite Z.add_0_l.
  replace (Z.to_nat (Z.of_nat (length u))) with (length u + 0)%nat by lia. rewrite insert_app_r. simpl.
  pose proof (line_ok_written u r Hgu Hlen) as Hok'. apply HQ. apply (session_line _ u).
  - split; simpl; [done|done|by exists u].
  - done.
  - simpl. rewrite Nat2Z.id, firstn_all. intros Hnb. exists pre. by rewrite (Htr2 Hnb), (Htr1 Hnb), <- app_assoc.
Qed.

Lemma wp_typed c s tr Q X :
  session_ok s tr -> good c -> len s < 63 ->
  (forall s' tr', session_ok s' tr' -> len s' = len s + 1 -> text s' = text s ++ [c] ->
     cstring (cmd s') = Some (text s ++ [c]) -> Q s' tr') ->
  wp ls_ok (a ← lift (aset (cmd s) (len s) c); a ← lift (aset a (len s + 1) 0);
            _ ← sys_putchar c; mret (s <| cmd := a |> <| len := len s + 1 |>)) tr Q X.
Proof.
  intros [Hok Hs] Hg Hlt HQ. destruct Hok as [Hh Hc [t Ht]] eqn:Eok. pose proof (line_ok_take _ _ _ Ht) as Htk.
  destruct Ht as (Hl & Ht & Hgt & Hn). rewrite aset_Some by lia. apply wp_bind. simpl. apply wp_bind.
  rewrite aset_Some by (rewrite length_insert; lia). simpl. intros [] _.
  set (n := Z.to_nat (len s)) in *. replace (Z.to_nat (len s + 1)) with (S n) by lia.
  set (a := <[S n := 0]> _).
  assert (exists r, a = (text s ++ [c]) ++ 0 :: r) as [r Ha].
  { exists (drop (S (S n)) a).
    assert (take (S (S n)) a = (text s ++ [c]) ++ [0]) as E.
    { unfold a. rewrite take_insert_end by (rewrite length_insert; lia). by rewrite take_insert_end by lia. }
    rewrite <- (take_drop (S (S n)) a) at 1. by rewrite E, <- !app_assoc. }
  assert (Forall good (text s ++ [c])) as Hgg.
  { apply Forall_app. split; [unfold text; fold n; rewrite Htk; by apply Forall_take|by constructor]. }
  assert (length (text s ++ [c]) = S n) as Hlt' by (rewrite length_app; unfold text; rewrite length_take; fold n; simpl; lia).
  assert (line_ok a (len s + 1) (text s ++ [c])) as Hla.
  { rewrite Ha. replace (len s + 1) with (Z.of_nat (length (text s ++ [c]))) by lia. apply line_ok_written; [done|].
    rewrite <- Ha. unfold a. by rewrite !length_insert. }
  apply HQ; [|done| |by destruct Hla as (_ & ? & _)].
  2: { unfold text at 1. simpl. rewrite (line_ok_take _ _ _ Hla). apply take_ge. lia. }
  apply (session_line _ (text s ++ [c])); [split; simpl; eauto|done|].
  simpl. rewrite take_ge by lia. eapply shown_app; [done|]. intros Hnb. rewrite screen_snoc. simpl. by apply putc_good.
Qed.

Lemma wp_shell_char c s tr :
  session_ok s tr -> wp ls_ok (shell_char c s) tr session_ok ends.
Proof.
  intros Hso. pose proof Hso as [Hok Hs]. destruct (so_line _ Hok) as [t Ht]. unfold shell_char.
  destruct (Z.eqb_spec c 0); [exact Hso|].
  destruct (Z.eqb_spec c NL).
  { apply wp_bind, wp_trap. intros r _. apply wp_bind, wp_remember; [done|]. intros s' Hok' _ _.
    apply wp_bind, wp_run_line; [done| |done]. intros a tr' Ha.
    destruct Hok' as [Hh Hc _]. by apply wp_prompt. }
  destruct (_ || _)%bool; [by apply wp_recall|].
  destruct (Z.eqb_spec c BS).
  { destruct (Z.ltb_spec 0 (len s)) as [Hpos|]; [|exact Hso]. apply wp_bind, wp_trap. intros r _. simpl.
    pose proof (line_ok_bound _ _ _ Ht) as Hb. pose proof (line_ok_take _ _ _ Ht) as Htk. destruct Ht as (Hl & Ht & Hg & Hn).
    assert (line_ok (cmd s) (len s - 1) t) as Hl' by (unfold line_ok; splits; try done; lia).
    apply (session_line _ t); [by destruct Hok; split; simpl; eauto|done|].
    change (shown (tr ++ [mk_event (Putchar BS) r]) (take (Z.to_nat (len s - 1)) t)).
    intros Hnb. destruct (Hs Hnb) as [pre Hp]. exists pre. rewrite screen_snoc. cbn [show ev_call]. unfold text in Hp. rewrite Hp, Htk.
    replace (Z.to_nat (len s)) with (S (Z.to_nat (len s - 1))) by lia.
    destruct (lookup_lt_is_Some_2 t (Z.to_nat (len s - 1))) as [x Hx]; [lia|].
    rewrite (take_S_r _ _ x Hx), !app_assoc. apply putc_bs. }
  destruct (Z.eqb_spec c TAB).
  { apply wp_bind, (wp_tab_complete _ _ t); [done|by rewrite <- (line_ok_take _ _ _ Ht)|]. intros a n' t' tr' Hl' Hs'.
    apply (session_line _ t'); [by eapply shell_ok_line|done|done]. }
  destruct (is_ignored c); [exact Hso|].
  destruct (Z.ltb_spec (len s) (CMD_MAX - 1)); [|exact Hso]. apply wp_typed; [done|done|done|done].
Qed.

Lemma wp_session stack cs :
  length stack = 64%nat -> wp ls_ok (s ← shell_start stack; shell_type cs s) [] session_ok ends.
Proof.
  intros Hst. apply wp_bind. unfold shell_start. apply wp_bind, wp_trap. intros r _.
  apply wp_prompt; simpl; [|lia|done|].
  - split; [done|]. apply (Forall_replicate _ 16). split; [done|]. split; [done|]. by apply (Forall_replicate _ 64).
  - intros s tr Hso _ _. revert s tr Hso. induction cs as [|c cs IH]; intros s tr Hso; [exact Hso|].
    cbn [shell_type]. apply wp_bind. eapply wp_mono; [by apply wp_shell_char|apply IH|done].
Qed.
End Session.

(** C21: in every session of the shell, whatever is typed and whatever the kernel answers (the
    listing of a directory fitting into its buffer), the shell never leaves its arrays and keeps
    its invariant (terminated lines, at most 16 rows of history).  When no file name in a
    listing holds a backspace character ([nb]), then what it has written since the last line feed,
    each backspace taking a character back, always ends with the prompt and exactly the line that it
    edits.  It ends only with code 0 behind the message of the command exit, or with code 1
    as the child of a fork. *)
Theorem shell_session_safe (nb : Names) stack cs :
  length stack = 64%nat ->
  wp ls_ok (s ← shell_start stack; shell_type cs s) []
    (fun s tr => shell_ok s /\ (nb = true -> exists pre, screen tr = pre ++ lit "> " ++ text s)) ends.
Proof. apply wp_session. Qed.

(** From here on, names without backspaces. *)
#[local] Instance plain_names : Names := true.

#[local] Instance good_decision c : Decision (good c).
Proof. apply and_dec; [apply _|]. apply and_dec; [apply _|]. apply impl_dec; [left; reflexivity|apply _]. Defined.

(** ** Completion of a command *)

(** A kernel whose directory [/mnt] holds the files [names]. *)
Definition mnt_has (names : list (list Z)) (c : call) : resp c -> Prop :=
  match c with
  | Ls path n => fun r => path = lit "/mnt" -> r = inr (listing names)
  | _ => fun _ => True
  end.

(** C23: completion of a command name of less than 48 characters, when [/mnt] holds files with
    names of at most 47 characters without line feeds and backspaces, and its listing has at most
    511 bytes: the candidates are the built-in commands and the files in [/mnt] that start with
    what was typed, at most 24 of them; the line becomes the longest common prefix of the
    candidates, as far as the buffer takes it, and stays as it is when there is none; the output
    ends with the prompt and the new line. *)
Theorem tab_completes cmd n t names tr :
  line_ok cmd n t -> SPACE ∉ take (Z.to_nat n) t -> n < 48 ->
  Forall name_ok names -> Z.of_nat (length (listing names)) <= 511 -> shown tr (take (Z.to_nat n) t) ->
  wp (mnt_has names) (tab_complete cmd n CMD_MAX) tr
    (fun '(cmd', n') tr' => exists t', line_ok cmd' n' t' /\ shown tr' (take (Z.to_nat n') t')
       /\ completed (take 24 (filter (fun s => take (Z.to_nat n) t `prefix_of` s) (builtin_cmds ++ names)))
            [] (take (Z.to_nat n) t) (take (Z.to_nat n') t'))
    (fun _ _ => False).
Proof.
  intros Hok Hsp Hn Hnm Hlist Hs. pose proof (line_ok_bound _ _ _ Hok) as Hb. pose proof (line_ok_take _ _ _ Hok) as Htk.
  assert (length cmd = 64%nat) as Hl by (by destruct Hok). assert (0 <= n) as Hn0 by (by destruct Hok as (_ & _ & _ & ? & _)).
  unfold tab_complete.
  destruct (word_start_spec cmd (Z.to_nat n)) as (ws & Hws & Hle & _ & Hw0); [lia|].
  assert (ws = 0%nat) as ->.
  { destruct Hw0 as [|Hw0]; [done|]. destruct ws as [|ws]; [done|]. exfalso. apply Hsp. rewrite <- Htk.
    apply (list_elem_of_lookup_2 _ ws). rewrite lookup_take_lt by lia. by rewrite Nat.sub_1_r in Hw0. }
  apply wp_bind, wp_lift. exists 0. split; [done|]. rewrite Z.sub_0_r. unfold CAND_LEN.
  replace (48 <=? n) with false by lia. change (drop (Z.to_nat 0) cmd) with cmd. rewrite Htk.
  set (pre := take (Z.to_nat n) t) in *.
  assert (length pre = Z.to_nat n) as Hlp by (unfold pre; rewrite length_take; lia).
  assert (take (length pre) t = pre) as Hpt by (by rewrite Hlp).
  assert (Forall good pre) as Hg by (apply Forall_take; by destruct Hok as (_ & _ & ? & _)).
  replace n with (Z.of_nat (length pre)) in * by lia. rewrite Nat2Z.id in *. simpl Z.eqb. cbn [find_cands].
  apply wp_bind, wp_bind, wp_lift. eexists. split.
  { apply builtin_loop_spec; [by apply good_no_nul|simpl; lia|]. by apply (bool_decide_unpack _). }
  apply wp_bind, wp_trap. intros r Hr. simpl in Hr. rewrite Hr by done. unfold LS_BUF.
  replace (Z.of_nat (length (listing names)) <? 512) with true by lia.
  rewrite app_nil_l, collect_loop_listing; [|done|by apply good_no_nul|done|].
  2: { etransitivity; [apply length_filter|]. simpl. lia. }
  rewrite <- filter_app. apply (wp_complete _ _ [] pre cmd t); [done|done| | |].
  - apply Forall_take, Forall_forall. intros s [Hp [Hin|Hin]%elem_of_app]%list_elem_of_filter.
    + assert (name_ok s) as [? ?]; [|split; [done|]; split; [lia|done]].
      by apply builtin_names_ok.
    + rewrite Forall_forall in Hnm. destruct (Hnm _ Hin). split; [done|]. split; [lia|done].
  - intros Hnb. destruct (Hs Hnb) as [p Hp]. exists p. by rewrite screen_snoc.
  - intros cmd' n' t' tr' Hok' Hc Hs'. by exists t'.
Qed.

(** ** What is run *)

(** Keys that insert themselves. *)
Definition typable (c : Z) : Prop :=
  good c /\ c <> TAB /\ c <> KEY_UP /\ c <> KEY_DOWN /\ is_ignored c = false.

#[export] Instance typable_decision c : Decision (typable c) := _.

Lemma wp_shell_typable c s tr Q :
  session_ok s tr -> typable c -> len s < 63 ->
  (forall s' tr', session_ok s' tr' -> len s' = len s + 1 -> text s' = text s ++ [c] ->
     cstring (cmd s') = Some (text s ++ [c]) -> Q s' tr') ->
  wp ls_ok (shell_char c s) tr Q (fun _ _ => False).
Proof.
  intros Hso ((H0 & H1 & H2) & H3 & H4 & H5 & H6) Hl HQ. specialize (H2 eq_refl). unfold shell_char.
  replace (c =? 0) with false by lia. replace (c =? NL) with false by lia. replace (c =? KEY_UP) with false by lia.
  replace (c =? KEY_DOWN) with false by lia. replace (c =? BS) with false by lia. replace (c =? TAB) with false by lia.
  rewrite H6. unfold CMD_MAX. replace (len s <? 64 - 1) with true by lia. by apply wp_typed.
Qed.

Lemma wp_shell_type keys s tr Q :
  session_ok s tr -> Forall typable keys -> len s + Z.of_nat (length keys) <= 63 -> cstring (cmd s) = Some (text s) ->
  (forall s' tr', session_ok s' tr' -> len s' = len s + Z.of_nat (length keys) -> text s' = text s ++ keys ->
     cstring (cmd s') = Some (text s ++ keys) -> Q s' tr') ->
  wp ls_ok (shell_type keys s) tr Q (fun _ _ => False).
Proof.
  intros Hso Hk. revert s tr Hso. induction Hk as [|c keys Hc _ IH]; intros s tr Hso Hl Hs HQ.
  - rewrite Z.add_0_r, app_nil_r in HQ. by apply HQ.
  - cbn [shell_type]. simpl in Hl. apply wp_bind, wp_shell_typable; [done|done|lia|]. intros s' tr' Hso' Hl' Ht' Hc'.
    apply IH; [done|lia|by rewrite Ht'|]. rewrite Ht', Hl', <- !app_assoc. simpl. intros s2 tr2 ? ? ? ?. apply HQ; try done. simpl. lia.
Qed.

(** The program that [run_line] is, for the line [t] in the array. *)
Lemma run_line_words s t :
  0 < len s -> cstring (cmd s) = Some t ->
  exists c, run_line s = (let '(n, bg) := before_amp (words 4 t) in
                          _ ← run_args (take n (words 4 t)) bg; mret (s <| cmd := c |>)).
Proof.
  intros Hl Ht. unfold run_line. replace (0 <? len s) with true by lia.
  destruct (split_spec (cmd s) t 4 Ht) as (c & argv & Hs & Hlc & Ha); [lia|].
  exists c. change (Z.of_nat 4) with 4 in Hs. rewrite Hs. cbn [lift mbind prog_bind]. rewrite Ha. reflexivity.
Qed.

(** A word that starts with an ampersand, and the words in front of the first one. *)
Definition amp (w : list Z) : bool := match w with c :: _ => c =? 38 | [] => false end.

Fixpoint args_of (ws : list (list Z)) : list (list Z) :=
  match ws with [] => [] | w :: ws' => if amp w then [] else w :: args_of ws' end.

Lemma before_amp_spec ws : before_amp ws = (length (args_of ws), existsb amp ws) /\ take (length (args_of ws)) ws = args_of ws.
Proof.
  induction ws as [|w ws [IH1 IH2]]; [done|]. cbn [before_amp args_of existsb].
  assert ((char_at w 0 =? 38) = amp w) as -> by (by destruct w).
  destruct (amp w); [done|]. rewrite IH1. simpl. by rewrite IH2.
Qed.


(** A line with more than four words: the fourth argument is all the rest of the line.  With the line
    [a b c d &] the command [a] runs in the foreground, with the argument [d &]. *)
Theorem fifth_word_not_split s :
  0 < len s -> cstring (cmd s) = Some (lit "a b c d &") ->
  all_words (lit "a b c d &") = [lit "a"; lit "b"; lit "c"; lit "d"; lit "&"]
  /\ exists c, run_line s = (_ ← run_args [lit "a"; lit "b"; lit "c"; lit "d &"] false; mret (s <| cmd := c |>)).
Proof. intros Hl Hc. split; [reflexivity|]. destruct (run_line_words s _ Hl Hc) as [c H]. by exists c. Qed.

Lemma wp_type_app a b s tr Q X :
  wp ls_ok (shell_type a s) tr (fun s tr => wp ls_ok (shell_type b s) tr Q X) X -> wp ls_ok (shell_type (a ++ b) s) tr Q X.
Proof.
  revert s tr. induction a as [|c a IH]; intros s tr H; [done|]. cbn [app shell_type] in *.
  apply wp_bind. rewrite wp_bind in H. eapply wp_mono; [exact H| |done]. intros s' tr' H'. by apply IH.
Qed.

(** backspace removes the last character from the output and not from the line that is
    run: after typing [keys], another character and a backspace, the output ends with [keys], and
    Enter runs the line with the erased character in it. *)
Theorem erased_character_runs keys x s tr :
  session_ok s tr -> len s = 0 -> cstring (cmd s) = Some [] ->
  Forall typable (keys ++ [x]) -> Z.of_nat (length keys) < 63 -> keys <> [] ->
  wp ls_ok (shell_type (keys ++ [x] ++ [BS]) s) tr
    (fun s' tr' => shown tr' keys /\ exists c,
       run_line s' = (let '(n, bg) := before_amp (words 4 (keys ++ [x])) in
                      _ ← run_args (take n (words 4 (keys ++ [x]))) bg; mret (s' <| cmd := c |>)))
    (fun _ _ => False).
Proof.
  intros Hso Hl Hc Hk Hlk Hne. assert (text s = []) as Ht by (unfold text; by rewrite Hl).
  rewrite app_assoc. apply wp_type_app.
  assert (length (keys ++ [x]) = S (length keys)) as Hlx by (rewrite length_app; simpl; lia).
  apply wp_shell_type; [done|done|lia|by rewrite Ht|]. rewrite Ht. simpl. intros s' tr' [Hok' Hsh] Hl' Ht' Hc'. destruct (Hsh eq_refl) as [pre Hs'].
  unfold shell_char. simpl. replace (0 <? len s') with true by lia. simpl. intros r _. rewrite Ht' in Hs'. split.
  - intros _. exists pre. rewrite screen_snoc. cbn [show ev_call]. by rewrite Hs', !app_assoc, putc_bs.
  - apply run_line_words; [|done]. destruct keys; [done|]. simpl in *. lia.
Qed.

(** ** Examples *)

Definition demo_stack : list Z := replicate 64 65.

(** The state at a first prompt. *)
Definition demo_shell : shell := mk_shell (replicate 16 (replicate 64 0)) 0 (0 :: replicate 63 65) 0 0.
Definition demo_trace : list event := [mk_event (Write 1 (lit "> ")) (0 : resp (Write 1 (lit "> ")))].

Lemma demo_session : session_ok demo_shell demo_trace.
Proof.
  split.
  - split; [|simpl; lia|].
    + split; [done|]. by apply (bool_decide_unpack _).
    + exists []. apply (line_ok_written [] (replicate 63 65)); [by apply Forall_nil|done].
  - intros _. exists []. reflexivity.
Qed.

Lemma split_words_witness :
  cstring (lit "ls  /mnt" ++ [0; 7]) = Some (lit "ls  /mnt")
  /\ exists cmd' argv, split (lit "ls  /mnt" ++ [0; 7]) 4 = Some (cmd', argv)
       /\ mapM (arg cmd') argv = Some [lit "ls"; lit "/mnt"].
Proof.
  split; [reflexivity|].
  destruct (split_words (lit "ls  /mnt" ++ [0; 7]) (lit "ls  /mnt") 4 eq_refl) as (c & a & H1 & _ & H2); [lia|].
  by exists c, a.
Defined.

Lemma shell_session_safe_witness :
  wp ls_ok (s ← shell_start demo_stack; shell_type (lit "ls" ++ [TAB; NL; KEY_UP]) s) []
    (fun s tr => shell_ok s /\ (true = true -> exists pre, screen tr = pre ++ lit "> " ++ text s)) ends.
Proof. apply (shell_session_safe true). reflexivity. Defined.

Lemma tab_completes_witness :
  wp (mnt_has [lit "povi.elf"; lit "shell.elf"]) (tab_complete (lit "sh" ++ replicate 62 0) 2 CMD_MAX)
    [mk_event (Write 1 (lit "> sh")) (0 : resp (Write 1 (lit "> sh")))]
    (fun '(cmd', n') tr' => exists t', line_ok cmd' n' t' /\ shown tr' (take (Z.to_nat n') t')
       /\ completed [lit "shell.elf"] [] (lit "sh") (take (Z.to_nat n') t'))
    (fun _ _ => False).
Proof.
  apply (tab_completes (lit "sh" ++ replicate 62 0) 2 (lit "sh") [lit "povi.elf"; lit "shell.elf"]).
  - apply (line_ok_written (lit "sh") (replicate 61 0)); [by apply (bool_decide_unpack _)|done].
  - by apply (bool_decide_unpack _).
  - lia.
  - by apply (bool_decide_unpack _).
  - vm_compute. discriminate.
  - intros _. exists []. reflexivity.
Defined.


Lemma erased_character_runs_witness :
  wp ls_ok (shell_type (lit "lsx" ++ [BS]) demo_shell) demo_trace
    (fun s' tr' => shown tr' (lit "ls") /\ exists c,
       run_line s' = (_ ← run_args [lit "lsx"] false; mret (s' <| cmd := c |>)))
    (fun _ _ => False).
Proof.
  apply (erased_character_runs (lit "ls") 120 demo_shell demo_trace demo_session eq_refl eq_refl).
  - by apply (bool_decide_unpack _).
  - vm_compute. reflexivity.
  - discriminate.
Defined.

(** Four words: the array of pointers passed to exec has no NULL at its end. *)
Lemma four_words_unterminated w : exec_argv (words 4 (lit "a b c d") ++ w) = None.
Proof. reflexivity. Qed.
