(* ===== verification/Povi.v ===== *)
(** * The editor povi (src/user/povi/)

    runtime.cpp, string.hpp, vector.hpp, buffer.cpp, editor.cpp, file_io.cpp, keymap.cpp,
    ui.cpp and povi.cpp, on the tree of system calls of [User].  A [String] owns its character
    array, which is the list [chars] of [cap_] bytes ([[]] for the NULL pointer); it is never
    shared, since every copy is deep.  Lines are String objects behind pointers: [objs] holds
    them by their offset in the arena, and the vector of the buffer is an array of such
    offsets.  The arena is zero at the start and never reuses memory, so that a fresh array is
    zero.  [substr] returns its local string without a copy, as compilers do. *)

From S2P Require Import Prelude Cstr User Keyboard Shell.

Definition HEAP_SIZE : Z := 64 * 1024.
Definition SIZEOF_STRING : Z := 12.
Definition SIZEOF_PTR : Z := 4.

Record String_ := mk_String { chars : list Z; len_ : Z }.
#[global] Instance eta_String : Eta String_ := fun s => mk_String (chars s) (len_ s).

Definition cap_ (s : String_) : Z := Z.of_nat (length (chars s)).

Record arena := mk_arena { heap_off : Z; objs : gmap Z String_ }.
#[global] Instance eta_arena : Eta arena := fun a => mk_arena (heap_off a) (objs a).

(** ** runtime.cpp *)

(** The offset of the block in the arena. *)
Definition povi_alloc (n : Z) (a : arena) : prog (Z * arena) :=
  let n := Z.ldiff (n + 3) 3 in
  if HEAP_SIZE <? heap_off a + n then sys_exit 1
  else mret (heap_off a, a <| heap_off := heap_off a + n |>).

(** [pv_memcpy(dst + at, src, n)], as an update of the array [dst]. *)
Fixpoint pv_memcpy (dst : list Z) (at_ : Z) (src : list Z) (n : nat) {struct n} : option (list Z) :=
  match n with
  | O => Some dst
  | S n' =>
      match src with
      | [] => None
      | c :: src' => dst ← aset dst at_ c; pv_memcpy dst (at_ + 1) src' n'
      end
  end.

Fixpoint pv_strcmp (a b : list Z) : Z :=
  match a, b with
  | x :: a', y :: b' => if x =? y then pv_strcmp a' b' else x - y
  | _, _ => char_at a 0 - char_at b 0
  end.

(** ** string.hpp *)

Definition empty_string : String_ := mk_String [] 0.

(** [p_ ? p_ : ""] *)
Definition c_str (s : String_) : list Z := if (cap_ s =? 0) then [0] else chars s.

Fixpoint double_cap (fuel : nat) (new_cap need : Z) : option Z :=
  if need <=? new_cap then Some new_cap
  else match fuel with O => None | S fuel' => double_cap fuel' (new_cap * 2) need end.

Definition reserve (need : Z) (s : String_) (a : arena) : prog (String_ * arena) :=
  if need <=? cap_ s then mret (s, a)
  else
    new_cap ← lift (double_cap 32 (if cap_ s =? 0 then 16 else cap_ s * 2) need);
    '(_, a) ← povi_alloc new_cap a;
    let np := replicate (Z.to_nat new_cap) 0 in
    np ← lift (if cap_ s =? 0 then aset np 0 0 else pv_memcpy np 0 (chars s) (Z.to_nat (len_ s + 1)));
    mret (s <| chars := np |>, a).

Definition str_clear (s : String_) : option String_ :=
  if cap_ s =? 0 then Some (s <| len_ := 0 |>)
  else c ← aset (chars s) 0 0; Some (mk_String c 0).

Definition append_char (c : Z) (s : String_) (a : arena) : prog (String_ * arena) :=
  '(s, a) ← reserve (len_ s + 2) s a;
  b ← lift (aset (chars s) (len_ s) c);
  b ← lift (aset b (len_ s + 1) 0);
  mret (mk_String b (len_ s + 1), a).

Definition append (src : list Z) (n : Z) (s : String_) (a : arena) : prog (String_ * arena) :=
  '(s, a) ← reserve (len_ s + n + 1) s a;
  b ← lift (pv_memcpy (chars s) (len_ s) src (Z.to_nat n));
  b ← lift (aset b (len_ s + n) 0);
  mret (mk_String b (len_ s + n), a).

Definition str_set (src : list Z) (s : String_) (a : arena) : prog (String_ * arena) :=
  s ← lift (str_clear s);
  t ← lift (cstring src);
  append src (Z.of_nat (length t)) s a.

Definition assign (o : String_) (s : String_) (a : arena) : prog (String_ * arena) :=
  s ← lift (str_clear s);
  append (c_str o) (len_ o) s a.

(** [for (i = len_; i > idx; i--) p_[i] = p_[i - 1]], [k] steps from [i] down. *)
Fixpoint shift_right {X} (l : list X) (i : Z) (k : nat) : option (list X) :=
  match k with
  | O => Some l
  | S k' => x ← aget l (i - 1); l ← aset l i x; shift_right l (i - 1) k'
  end.

(** [for (i = idx; i < ...; i++) p_[i] = p_[i + 1]], [k] steps. *)
Fixpoint shift_left {X} (l : list X) (i : Z) (k : nat) : option (list X) :=
  match k with
  | O => Some l
  | S k' => x ← aget l (i + 1); l ← aset l i x; shift_left l (i + 1) k'
  end.

Definition clamp (x hi : Z) : Z := if x <? 0 then 0 else if hi <? x then hi else x.

Definition insert_at (idx c : Z) (s : String_) (a : arena) : prog (String_ * arena) :=
  let idx := clamp idx (len_ s) in
  '(s, a) ← reserve (len_ s + 2) s a;
  b ← lift (shift_right (chars s) (len_ s) (Z.to_nat (len_ s - idx)));
  b ← lift (aset b idx c);
  b ← lift (aset b (len_ s + 1) 0);
  mret (mk_String b (len_ s + 1), a).

Definition erase_at (idx : Z) (s : String_) : option String_ :=
  if (idx <? 0) || (len_ s <=? idx) then Some s
  else
    b ← shift_left (chars s) idx (Z.to_nat (len_ s - idx));
    Some (mk_String b (len_ s - 1)).

Definition truncate (n : Z) (s : String_) : option String_ :=
  let n := clamp n (len_ s) in
  if cap_ s =? 0 then Some (s <| len_ := n |>)
  else b ← aset (chars s) n 0; Some (mk_String b n).

Definition substr (from : Z) (s : String_) (a : arena) : prog (String_ * arena) :=
  let from := clamp from (len_ s) in
  append (if cap_ s =? 0 then [0] else drop (Z.to_nat from) (chars s)) (len_ s - from) empty_string a.

(** ** vector.hpp, for pointers to strings; [arr_] has [cap_] elements. *)

Record Vector := mk_Vector { arr_ : list Z; count_ : Z }.
#[global] Instance eta_Vector : Eta Vector := fun v => mk_Vector (arr_ v) (count_ v).

Definition empty_vector : Vector := mk_Vector [] 0.

Definition vcap (v : Vector) : Z := Z.of_nat (length (arr_ v)).

Definition grow (v : Vector) (a : arena) : prog (Vector * arena) :=
  let new_cap := if vcap v =? 0 then 8 else vcap v * 2 in
  '(_, a) ← povi_alloc (SIZEOF_PTR * new_cap) a;
  na ← lift (pv_memcpy (replicate (Z.to_nat new_cap) 0) 0 (arr_ v) (Z.to_nat (count_ v)));
  mret (v <| arr_ := na |>, a).

Definition grow_if_full (v : Vector) (a : arena) : prog (Vector * arena) :=
  if count_ v =? vcap v then grow v a else mret (v, a).

Definition push_back (p : Z) (v : Vector) (a : arena) : prog (Vector * arena) :=
  '(v, a) ← grow_if_full v a;
  arr ← lift (aset (arr_ v) (count_ v) p);
  mret (mk_Vector arr (count_ v + 1), a).

Definition vinsert (idx p : Z) (v : Vector) (a : arena) : prog (Vector * arena) :=
  let idx := clamp idx (count_ v) in
  '(v, a) ← grow_if_full v a;
  arr ← lift (shift_right (arr_ v) (count_ v) (Z.to_nat (count_ v - idx)));
  arr ← lift (aset arr idx p);
  mret (mk_Vector arr (count_ v + 1), a).

Definition vremove (idx : Z) (v : Vector) : option Vector :=
  if (idx <? 0) || (count_ v <=? idx) then Some v
  else
    arr ← shift_left (arr_ v) idx (Z.to_nat (count_ v - 1 - idx));
    Some (mk_Vector arr (count_ v - 1)).

Definition vclear (v : Vector) : Vector := v <| count_ := 0 |>.

(** ** buffer.cpp *)

Record Buffer := mk_Buffer { lines_ : Vector }.

Definition num_lines (b : Buffer) : Z := count_ (lines_ b).

(** [*lines_[r]] *)
Definition line_at (b : Buffer) (r : Z) (a : arena) : option (Z * String_) :=
  p ← aget (arr_ (lines_ b)) r;
  s ← objs a !! p;
  Some (p, s).

Definition line_length (b : Buffer) (r : Z) (a : arena) : option Z :=
  '(_, s) ← line_at b r a; Some (len_ s).

Definition put_obj (p : Z) (s : String_) (a : arena) : arena := a <| objs := <[p := s]> (objs a) |>.

(** [new String()] *)
Definition new_String (a : arena) : prog (Z * arena) :=
  '(p, a) ← povi_alloc SIZEOF_STRING a;
  mret (p, put_obj p empty_string a).

Definition insert_line (row : Z) (b : Buffer) (a : arena) : prog (Buffer * arena) :=
  let row := clamp row (num_lines b) in
  '(p, a) ← new_String a;
  '(v, a) ← vinsert row p (lines_ b) a;
  mret (mk_Buffer v, a).

Definition delete_line (row : Z) (b : Buffer) (a : arena) : option (Buffer * arena) :=
  if (row <? 0) || (num_lines b <=? row) then Some (b, a)
  else if num_lines b =? 1 then
    '(p, s) ← line_at b 0 a;
    s ← str_clear s;
    Some (b, put_obj p s a)
  else
    v ← vremove row (lines_ b);
    Some (mk_Buffer v, a).

Definition buf_insert_char (row col ch : Z) (b : Buffer) (a : arena) : prog (Buffer * arena) :=
  if (row <? 0) || (num_lines b <=? row) then mret (b, a)
  else
    '(p, s) ← lift (line_at b row a);
    if ch =? NL then
      '(tail, a) ← substr col s a;
      s ← lift (truncate col s);
      let a := put_obj p s a in
      '(b, a) ← insert_line (row + 1) b a;
      '(p1, s1) ← lift (line_at b (row + 1) a);
      '(s1, a) ← assign tail s1 a;
      mret (b, put_obj p1 s1 a)
    else
      '(s, a) ← insert_at col ch s a;
      mret (b, put_obj p s a).

Definition buf_delete_char (row col : Z) (b : Buffer) (a : arena) : prog (Buffer * arena) :=
  if (row <? 0) || (num_lines b <=? row) then mret (b, a)
  else
    '(p, l) ← lift (line_at b row a);
    if col <? len_ l then
      l ← lift (erase_at col l);
      mret (b, put_obj p l a)
    else if row + 1 <? num_lines b then
      '(_, l1) ← lift (line_at b (row + 1) a);
      '(l, a) ← append (c_str l1) (len_ l1) l a;
      lift (delete_line (row + 1) b (put_obj p l a))
    else mret (b, a).

Definition add_line (s : list Z) (n : Z) (b : Buffer) (a : arena) : prog (Buffer * arena) :=
  '(p, a) ← new_String a;
  '(ln, a) ← append s n empty_string a;
  '(v, a) ← push_back p (lines_ b) (put_obj p ln a);
  mret (mk_Buffer v, a).

Definition clear_lines (b : Buffer) (a : arena) : prog (Buffer * arena) :=
  let v := vclear (lines_ b) in
  '(p, a) ← new_String a;
  '(v, a) ← push_back p v a;
  mret (mk_Buffer v, a).

(** [Buffer()] *)
Definition new_Buffer (a : arena) : prog (Buffer * arena) :=
  '(p, a) ← new_String a;
  '(v, a) ← push_back p empty_vector a;
  mret (mk_Buffer v, a).

(** ** editor.cpp; the arena and the static variables [dirty] and [pending_g] included *)

Inductive Mode := MODE_NORMAL | MODE_INSERT | MODE_COMMAND.
#[global] Instance Mode_eq_dec : EqDecision Mode.
Proof. solve_decision. Defined.

Record Editor := mk_Editor {
  mem : arena;
  buffer : Buffer;
  cursor_row : Z;
  cursor_col : Z;
  top_row : Z;
  mode : Mode;
  filename : String_;
  modified : bool;
  message : String_;
  cmd_line : String_;
  dirty : bool;
  pending_g : bool;
}.
#[global] Instance eta_Editor : Eta Editor := fun e =>
  mk_Editor (mem e) (buffer e) (cursor_row e) (cursor_col e) (top_row e) (mode e) (filename e) (modified e)
    (message e) (cmd_line e) (dirty e) (pending_g e).

Definition new_Editor : prog Editor :=
  '(b, a) ← new_Buffer (mk_arena 0 ∅);
  mret (mk_Editor a b 0 0 0 MODE_NORMAL empty_string false empty_string empty_string true false).

Definition ed_line_length (r : Z) (e : Editor) : option Z := line_length (buffer e) r (mem e).

Definition set_text (r : Buffer * arena) (e : Editor) : Editor := e <| buffer := r.1 |> <| mem := r.2 |>.

Definition clamp_cursor (e : Editor) : option Editor :=
  let e := if cursor_row e <? 0 then e <| cursor_row := 0 |> else e in
  let max_row := num_lines (buffer e) - 1 in
  let e := if max_row <? cursor_row e then e <| cursor_row := max_row |> else e in
  let e := if cursor_col e <? 0 then e <| cursor_col := 0 |> else e in
  n ← ed_line_length (cursor_row e) e;
  Some (if n <? cursor_col e then e <| cursor_col := n |> else e).

Definition scroll_to_cursor (e : Editor) : Editor :=
  let e := if cursor_row e <? top_row e then e <| top_row := cursor_row e |> else e in
  if top_row e + 24 <=? cursor_row e then e <| top_row := cursor_row e - 23 |> else e.

Definition move_left (e : Editor) : option Editor :=
  if 0 <? cursor_col e then Some (e <| cursor_col := cursor_col e - 1 |>)
  else if 0 <? cursor_row e then
    n ← ed_line_length (cursor_row e - 1) e;
    Some (e <| cursor_row := cursor_row e - 1 |> <| cursor_col := n |>)
  else Some e.

Definition move_right (e : Editor) : option Editor :=
  n ← ed_line_length (cursor_row e) e;
  if cursor_col e <? n then Some (e <| cursor_col := cursor_col e + 1 |>)
  else if cursor_row e + 1 <? num_lines (buffer e) then
    Some (e <| cursor_row := cursor_row e + 1 |> <| cursor_col := 0 |>)
  else Some e.

(** [if (cursor_col > line_length(cursor_row)) cursor_col = line_length(cursor_row)] *)
Definition cut_col (e : Editor) : option Editor :=
  n ← ed_line_length (cursor_row e) e;
  Some (if n <? cursor_col e then e <| cursor_col := n |> else e).

Definition move_up (e : Editor) : option Editor :=
  if 0 <? cursor_row e then cut_col (e <| cursor_row := cursor_row e - 1 |>) else Some e.

Definition move_down (e : Editor) : option Editor :=
  if cursor_row e + 1 <? num_lines (buffer e) then cut_col (e <| cursor_row := cursor_row e + 1 |>) else Some e.

Definition goto_line_start (e : Editor) : option Editor := Some (e <| cursor_col := 0 |>).

Definition goto_line_end (e : Editor) : option Editor :=
  n ← ed_line_length (cursor_row e) e; Some (e <| cursor_col := n |>).

Definition goto_first_line (e : Editor) : option Editor := Some (e <| cursor_row := 0 |> <| cursor_col := 0 |>).

Definition goto_last_line (e : Editor) : option Editor :=
  let e := e <| cursor_row := num_lines (buffer e) - 1 |> in
  n ← ed_line_length (cursor_row e) e; Some (e <| cursor_col := n |>).

Definition insert_char (c : Z) (e : Editor) : prog Editor :=
  r ← buf_insert_char (cursor_row e) (cursor_col e) c (buffer e) (mem e);
  let e := set_text r e in
  if c =? NL then mret (e <| cursor_row := cursor_row e + 1 |> <| cursor_col := 0 |>)
  else mret (e <| cursor_col := cursor_col e + 1 |>).

Definition backspace (e : Editor) : prog Editor :=
  if 0 <? cursor_col e then
    r ← buf_delete_char (cursor_row e) (cursor_col e - 1) (buffer e) (mem e);
    mret (set_text r e <| cursor_col := cursor_col e - 1 |>)
  else if 0 <? cursor_row e then
    prev_len ← lift (ed_line_length (cursor_row e - 1) e);
    r ← buf_delete_char (cursor_row e - 1) prev_len (buffer e) (mem e);
    mret (set_text r e <| cursor_row := cursor_row e - 1 |> <| cursor_col := prev_len |>)
  else mret e.

Definition delete_char (e : Editor) : prog Editor :=
  r ← buf_delete_char (cursor_row e) (cursor_col e) (buffer e) (mem e);
  lift (cut_col (set_text r e)).

(** A literal as an array. *)
Definition carray (s : string) : list Z := lit s ++ [0].

Definition status_message (m : list Z) (e : Editor) : prog Editor :=
  '(s, a) ← str_set m (message e) (mem e);
  mret (e <| message := s |> <| mem := a |>).

(** ** file_io.cpp *)

Definition O_RDONLY : Z := 0.
Definition O_WRONLY : Z := 1.
Definition O_CREAT : Z := 0x100.
Definition O_TRUNC : Z := 0x200.

(** The loop over the bytes of one read. *)
Fixpoint load_bytes (tmp : list Z) (cur : String_) (b : Buffer) (a : arena) : prog (String_ * Buffer * arena) :=
  match tmp with
  | [] => mret (cur, b, a)
  | c :: tmp' =>
      if c =? NL then
        '(b, a) ← add_line (c_str cur) (len_ cur) b a;
        cur ← lift (str_clear cur);
        load_bytes tmp' cur b a
      else
        '(cur, a) ← append_char c cur a;
        load_bytes tmp' cur b a
  end.

(** The loop over the reads, [reads] of them at most; the flag is [any]. *)
Fixpoint load_loop (reads : nat) (fd : Z) (any : bool) (cur : String_) (b : Buffer) (a : arena)
    : prog (bool * String_ * Buffer * arena) :=
  match reads with
  | O => Fault
  | S reads' =>
      r ← sys_read fd 512;
      match r with
      | inl _ | inr [] => mret (any, cur, b, a)
      | inr tmp =>
          if Z.of_nat (length tmp) <=? 512 then
            '(cur, b, a) ← load_bytes tmp cur b a;
            load_loop reads' fd true cur b a
          else Fault
      end
  end.

Definition load_file (reads : nat) (path : list Z) (b : Buffer) (a : arena) : prog (bool * (Buffer * arena)) :=
  fd ← sys_open path O_RDONLY;
  if fd <? 0 then mret (false, (b, a))
  else
    '(b, a) ← clear_lines b a;
    '(any, cur, b, a) ← load_loop reads fd false empty_string b a;
    r ← (if negb any || (0 <? len_ cur) then add_line (c_str cur) (len_ cur) b a else mret (b, a));
    _ ← sys_close fd;
    mret (true, r).

(** The loop from line [i] on, for [n] lines. *)
Fixpoint save_loop (n : nat) (i fd : Z) (b : Buffer) (a : arena) : prog bool :=
  match n with
  | O => _ ← sys_close fd; mret true
  | S n' =>
      '(_, l) ← lift (line_at b i a);
      r ← sys_write_fd fd (take (Z.to_nat (len_ l)) (c_str l));
      if r <? 0 then _ ← sys_close fd; mret false
      else
        r ← sys_write_fd fd [NL];
        if r <? 0 then _ ← sys_close fd; mret false
        else save_loop n' (i + 1) fd b a
  end.

Definition save_file (path : list Z) (b : Buffer) (a : arena) : prog bool :=
  fd ← sys_open path (Z.lor (Z.lor O_WRONLY O_CREAT) O_TRUNC);
  if fd <? 0 then mret false else save_loop (Z.to_nat (num_lines b)) 0 fd b a.

(** ** keymap.cpp *)

Inductive KeyEvent :=
| KEYEV_NONE | KEYEV_CHAR (ch : Z) | KEYEV_ESC | KEYEV_ENTER | KEYEV_BACKSPACE
| KEYEV_UP | KEYEV_DOWN | KEYEV_LEFT | KEYEV_RIGHT.

Definition key_event (c : Z) : KeyEvent :=
  if c =? 0 then KEYEV_NONE
  else if c =? 0x1B then KEYEV_ESC
  else if c =? NL then KEYEV_ENTER
  else if c =? BS then KEYEV_BACKSPACE
  else if c =? KEY_UP then KEYEV_UP
  else if c =? KEY_DOWN then KEYEV_DOWN
  else if c =? KEY_LEFT then KEYEV_LEFT
  else if c =? KEY_RIGHT then KEYEV_RIGHT
  else KEYEV_CHAR c.

Definition get_key_event : prog KeyEvent := c ← sys_getchar; mret (key_event c).

(** ** ui.cpp *)

Definition UI_COLS : Z := 80.
Definition UI_ROWS : nat := 24.

Definition ui_write_line (s : list Z) : prog unit :=
  _ ← put_chars (take (Z.to_nat UI_COLS) (until_nul s));
  sys_putchar NL.

(** Characters of a string while [chars < UI_COLS]; the count after them. *)
Fixpoint put_limited (s : list Z) (chars : Z) : prog Z :=
  match s with
  | [] => mret chars
  | c :: s' => if chars <? UI_COLS then _ ← sys_putchar c; put_limited s' (chars + 1) else mret chars
  end.

(** The decimal digits, last one first; ten are enough for an int. *)
Fixpoint dec_loop (fuel : nat) (v : Z) : list Z :=
  match fuel with
  | O => []
  | S fuel' => if 0 <? v then (48 + v mod 10) :: dec_loop fuel' (v / 10) else []
  end.

Definition decimal (v : Z) : list Z := rev (if v =? 0 then [48] else dec_loop 10 v).

Definition mode_str (m : Mode) : list Z :=
  match m with MODE_INSERT => lit "-- INSERT --" | MODE_COMMAND => lit "-- :" | MODE_NORMAL => lit "-- NORMAL --" end.

Definition write_status (e : Editor) : prog unit :=
  chars ← put_limited (mode_str (mode e)) 0;
  _ ← sys_putchar SPACE;
  chars ← put_limited (until_nul (c_str (filename e))) (chars + 1);
  _ ← sys_putchar SPACE;
  let chars := chars + 1 in
  chars ← (if modified e then _ ← sys_putchar 43; mret (chars + 1) else mret chars);
  _ ← sys_putchar SPACE;
  _ ← put_chars (decimal (cursor_row e + 1));
  _ ← sys_putchar SLASH;
  _ ← put_chars (decimal (num_lines (buffer e)));
  let chars := chars + 1 + 5 in
  chars ← (if decide (mode e = MODE_COMMAND) then
             _ ← sys_putchar SPACE;
             _ ← sys_putchar 58;
             put_limited (until_nul (c_str (cmd_line e))) chars
           else mret chars);
  if 0 <? len_ (message e) then
    _ ← sys_putchar SPACE;
    _ ← put_limited (until_nul (c_str (message e))) chars;
    mret tt
  else mret tt.

(** Rows [row], [row + 1], ..., [n] of them. *)
Fixpoint refresh_rows (n : nat) (r : Z) (e : Editor) : prog unit :=
  match n with
  | O => mret tt
  | S n' =>
      _ ← (if r <? num_lines (buffer e) then
             '(_, l) ← lift (line_at (buffer e) r (mem e));
             ui_write_line (c_str l)
           else sys_putchar NL);
      refresh_rows n' (r + 1) e
  end.

Definition refresh (e : Editor) : prog Editor :=
  let e := scroll_to_cursor e in
  _ ← sys_clear;
  _ ← refresh_rows UI_ROWS (top_row e) e;
  _ ← write_status e;
  mret e.

(** ** povi.cpp *)

Definition mark_dirty (e : Editor) : Editor := e <| dirty := true |>.

Definition run_command (e : Editor) : prog (Editor * bool) :=
  cmd ← lift (cstring (c_str (cmd_line e)));
  let named s := pv_strcmp cmd (lit s) =? 0 in
  '(e, quit) ←
    (if named "w"%string then
       if len_ (filename e) =? 0 then e ← status_message (carray "no file name") e; mret (e, false)
       else
         saved ← save_file (until_nul (c_str (filename e))) (buffer e) (mem e);
         if (saved : bool) then
           e ← status_message (carray "written") (e <| modified := false |>); mret (e, false)
         else e ← status_message (carray "write failed") e; mret (e, false)
     else if named "q"%string then
       if modified e then e ← status_message (carray "no write since last change (use :q!)") e; mret (e, false)
       else mret (e, true)
     else if named "wq"%string then
       if len_ (filename e) =? 0 then e ← status_message (carray "no file name") e; mret (e, false)
       else
         saved ← save_file (until_nul (c_str (filename e))) (buffer e) (mem e);
         if (saved : bool) then mret (e, true)
         else e ← status_message (carray "write failed") e; mret (e, false)
     else if named "q!"%string then mret (e, true)
     else e ← status_message (carray "not an editor command") e; mret (e, false));
  c ← lift (str_clear (cmd_line e));
  mret (mark_dirty (e <| mode := MODE_NORMAL |> <| cmd_line := c |>), quit).

Definition handle_command_mode (ev : KeyEvent) (e : Editor) : prog (Editor * bool) :=
  match ev with
  | KEYEV_ESC =>
      c ← lift (str_clear (cmd_line e));
      mret (mark_dirty (e <| mode := MODE_NORMAL |> <| cmd_line := c |>), false)
  | KEYEV_ENTER => run_command e
  | KEYEV_BACKSPACE =>
      c ← lift (if 0 <? len_ (cmd_line e) then truncate (len_ (cmd_line e) - 1) (cmd_line e) else Some (cmd_line e));
      mret (mark_dirty (e <| cmd_line := c |>), false)
  | KEYEV_CHAR ch =>
      '(c, a) ← append_char ch (cmd_line e) (mem e);
      mret (mark_dirty (e <| cmd_line := c |> <| mem := a |>), false)
  | _ => mret (e, false)
  end.

Definition edited (e : Editor) : Editor := mark_dirty (e <| modified := true |>).

Definition handle_insert_mode (ev : KeyEvent) (e : Editor) : prog Editor :=
  match ev with
  | KEYEV_CHAR ch => e ← insert_char ch e; mret (edited e)
  | KEYEV_ENTER => e ← insert_char NL e; mret (edited e)
  | KEYEV_BACKSPACE => e ← backspace e; mret (edited e)
  | KEYEV_ESC => mret (mark_dirty (e <| mode := MODE_NORMAL |>))
  | KEYEV_UP => e ← lift (move_up e); mret (mark_dirty e)
  | KEYEV_DOWN => e ← lift (move_down e); mret (mark_dirty e)
  | KEYEV_LEFT => e ← lift (move_left e); mret (mark_dirty e)
  | KEYEV_RIGHT => e ← lift (move_right e); mret (mark_dirty e)
  | KEYEV_NONE => mret e
  end.

(** The cases of a character in normal mode. *)
Definition handle_normal_char (ch : Z) (e : Editor) : prog Editor :=
  let e0 := e <| pending_g := false |> in
  let moved (o : option Editor) := e ← lift o; mret (mark_dirty e) in
  if ch =? 104 then moved (move_left e0)
  else if (ch =? 106) || (ch =? NL) then moved (move_down e0)
  else if ch =? 107 then moved (move_up e0)
  else if ch =? 108 then moved (move_right e0)
  else if ch =? 48 then moved (goto_line_start e0)
  else if ch =? 36 then moved (goto_line_end e0)
  else if ch =? 120 then e ← delete_char e0; mret (edited e)
  else if ch =? 105 then mret (mark_dirty (e0 <| mode := MODE_INSERT |>))
  else if ch =? 58 then
    c ← lift (str_clear (cmd_line e0));
    mret (mark_dirty (e0 <| mode := MODE_COMMAND |> <| cmd_line := c |>))
  else if ch =? 103 then
    if pending_g e then moved (goto_first_line e0) else mret (e <| pending_g := true |>)
  else if ch =? 71 then moved (goto_last_line e0)
  else mret e0.

Definition handle_normal_mode (ev : KeyEvent) (e : Editor) : prog Editor :=
  let e0 := e <| pending_g := false |> in
  let moved (o : option Editor) := e ← lift o; mret (mark_dirty e) in
  match ev with
  | KEYEV_CHAR ch => handle_normal_char ch e
  | KEYEV_UP => moved (move_up e0)
  | KEYEV_DOWN => moved (move_down e0)
  | KEYEV_LEFT => moved (move_left e0)
  | KEYEV_RIGHT => moved (move_right e0)
  | KEYEV_ENTER => moved (move_down e0)
  | _ => mret e
  end.

(** A key, by the mode; the flag is [quit]. *)
Definition handle_key (ev : KeyEvent) (e : Editor) : prog (Editor * bool) :=
  match mode e with
  | MODE_COMMAND => handle_command_mode ev e
  | MODE_INSERT => e ← handle_insert_mode ev e; mret (e, false)
  | MODE_NORMAL => e ← handle_normal_mode ev e; mret (e, false)
  end.

(** The start of [main]; [arg1] is argv[1] when there is one. *)
Definition povi_start (reads : nat) (arg1 : option (list Z)) : prog Editor :=
  e ← new_Editor;
  e ← match arg1 with
      | Some arg =>
          '(f, a) ← str_set arg (filename e) (mem e);
          '(f, a) ←
            (if negb (char_at (c_str f) 0 =? SLASH) then
               '(full, a) ← str_set (carray "/home/") empty_string a;
               '(full, a) ← append (c_str f) (len_ f) full a;
               assign full f a
             else mret (f, a));
          '(ok, r) ← load_file reads (until_nul (c_str f)) (buffer e) a;
          let e := set_text r (e <| filename := f |>) in
          if (ok : bool) then mret e else status_message (carray "new file") e
      | None => status_message (carray "usage: povi <filename>") e
      end;
  mret (mark_dirty e).

(** A round of the main loop: refresh when needed, read a key, handle it. *)
Definition povi_round (e : Editor) : prog (Editor * bool) :=
  e ← (if dirty e then e ← refresh e; mret (e <| dirty := false |>) else mret e);
  ev ← get_key_event;
  match ev with
  | KEYEV_NONE => _ ← sys_yield; mret (e, false)
  | _ => handle_key ev e
  end.

(** [n] rounds, or fewer when the editor quits. *)
Fixpoint povi_run (n : nat) (e : Editor) : prog (Editor * bool) :=
  match n with
  | O => mret (e, false)
  | S n' =>
      '(e, quit) ← povi_round e;
      if (quit : bool) then mret (e, true) else povi_run n' e
  end.
