(* ===== verification/PoviText.v ===== *)
(** * Strings, vectors and buffers of povi

    The operations of string.hpp, vector.hpp and buffer.cpp on the representation of [Povi]
    implement the operations on lists: a string stands for a list of characters, a buffer for a
    list of lines.  An operation never leaves an array; it returns, or ends the program with code
    1 when the arena is used up: each specification bounds the memory that its operation takes,
    and the operation returns when that much is left. *)

From S2P Require Import Prelude Cstr User Keyboard Shell Povi.

(** ** Memory

    How much of the arena is used after a result. *)
Class Uses (A : Type) := used : A -> Z.
#[export] Instance uses_pair {A} : Uses (A * arena) := fun r => heap_off r.2.
Arguments used {_ _} /.
Arguments uses_pair {_} _ /.

(** ** Programs without system calls that return, or end with code 1 because memory is used up

    [runs lim p P]: [p] returns a result with [P] that leaves at most [lim] bytes of the arena in
    use; or it ends the program with code 1, and the arena has less than [lim] bytes.  With
    [lim <= HEAP_SIZE] the program returns. *)
Definition runs `{Uses A} (lim : Z) (p : prog A) (P : A -> Prop) : Prop :=
  (p = Exit 1 /\ HEAP_SIZE < lim) \/ exists a, p = Ret a /\ used a <= lim /\ P a.

Lemma runs_ret `{Uses A} lim (a : A) P : used a <= lim -> P a -> runs lim (mret a) P.
Proof. right. by exists a. Qed.

Lemma runs_bind `{Uses A, Uses B} lim lim' (p : prog A) (f : A -> prog B) P R :
  runs lim p P -> lim <= lim' -> (forall a, P a -> used a <= lim -> runs lim' (f a) R) -> runs lim' (p ≫= f) R.
Proof. intros [[-> Hl] | (a & -> & Hu & Ha)] Hle Hf; [left; split; [done|lia]|by apply Hf]. Qed.

Lemma runs_lift {A} `{Uses B} lim (o : option A) (f : A -> prog B) a R :
  o = Some a -> runs lim (f a) R -> runs lim (lift o ≫= f) R.
Proof. by intros ->. Qed.

Lemma runs_mono `{Uses A} lim lim' (p : prog A) (P R : A -> Prop) :
  runs lim p P -> lim <= lim' -> (forall a, P a -> R a) -> runs lim' p R.
Proof. intros [[-> Hl] | (a & -> & Hu & Ha)] Hle HR; [left; split; [done|lia]|right; exists a; splits; [done|lia|auto]]. Qed.

Lemma wp_runs `{Uses A} lim ok (p : prog A) P tr Q (X : Z -> list event -> Prop) :
  runs lim p P -> (forall a, P a -> used a <= lim -> Q a tr) -> (HEAP_SIZE < lim -> X 1 tr) -> wp ok p tr Q X.
Proof. intros [[-> Hl] | (a & -> & Hu & Ha)] HQ HX; simpl; auto. Qed.

(** Bounds on the memory in use. *)
Ltac bytes := simpl in *; lia.

(** The guard of an index that is in range. *)
Ltac in_range :=
  match goal with |- context [if (?x || ?y)%bool then _ else _] =>
    let E := fresh in
    destruct (x || y)%bool eqn:E; [exfalso; apply orb_true_iff in E as [E|E]; bool_prop; lia|clear E]
  end.

(** ** Arrays *)

Lemma aget_Some {X} (l : list X) i x : 0 <= i -> l !! Z.to_nat i = Some x -> aget l i = Some x.
Proof. intros. unfold aget. by replace (0 <=? i) with true by lia. Qed.

Lemma pv_memcpy_spec (dst src : list Z) (at_ n : nat) :
  (at_ + n <= length dst)%nat -> (n <= length src)%nat ->
  pv_memcpy dst (Z.of_nat at_) src n = Some (take at_ dst ++ take n src ++ drop (at_ + n) dst).
Proof.
  revert dst src at_. induction n as [|n IH]; intros dst src at_ Hd Hs; simpl.
  - by rewrite Nat.add_0_r, take_drop.
  - destruct src as [|c src]; simpl in Hs; [lia|]. rewrite aset_Some by lia. simpl. rewrite Nat2Z.id.
    replace (Z.of_nat at_ + 1) with (Z.of_nat (S at_)) by lia. rewrite IH by (rewrite ?length_insert; lia).
    rewrite take_insert_end, drop_insert_lt by lia. rewrite <- app_assoc. simpl.
    by replace (at_ + S n)%nat with (S (at_ + n)) by lia.
Qed.

Lemma pv_memcpy_spec0 (dst src : list Z) (n : nat) :
  (n <= length dst)%nat -> (n <= length src)%nat -> pv_memcpy dst 0 src n = Some (take n src ++ drop n dst).
Proof. intros. by apply (pv_memcpy_spec dst src 0 n). Qed.

(** Moving the elements [idx], ..., [idx + k - 1] one place to the right. *)
Lemma shift_right_spec {X} (l1 l2 : list X) y l3 :
  exists z, shift_right (l1 ++ l2 ++ y :: l3) (Z.of_nat (length (l1 ++ l2))) (length l2) = Some (l1 ++ z :: l2 ++ l3).
Proof.
  revert y l3. induction l2 as [|x l2 IH] using rev_ind; intros y l3; [by exists y|].
  replace (length (l2 ++ [x])) with (S (length l2)) by (rewrite length_app; simpl; lia).
  set (i := Z.of_nat (length (l1 ++ l2))).
  assert (Z.of_nat (length (l1 ++ l2 ++ [x])) = i + 1) as -> by (unfold i; rewrite !length_app; simpl; lia).
  cbn [shift_right]. rewrite Z.add_simpl_r, <- (app_assoc l2), (app_assoc l1). cbn [app].
  rewrite (aget_Some _ _ x); [|lia|]; unfold i.
  2: { rewrite Nat2Z.id. by apply list_lookup_middle. }
  cbn [mbind option_bind]. rewrite aset_Some by (rewrite (length_app (l1 ++ l2)); simpl; lia). cbn [mbind option_bind].
  replace (Z.to_nat (Z.of_nat (length (l1 ++ l2)) + 1)) with (length (l1 ++ l2) + 1)%nat by lia. rewrite insert_app_r. simpl.
  destruct (IH x (x :: l3)) as [z Hz]. exists z. rewrite <- !app_assoc in *. exact Hz.
Qed.

Lemma shift_left_spec {X} (l1 l2 : list X) y l3 :
  exists z, shift_left (l1 ++ y :: l2 ++ l3) (Z.of_nat (length l1)) (length l2) = Some (l1 ++ l2 ++ z :: l3).
Proof.
  revert l1 y. induction l2 as [|x l2 IH]; intros l1 y; [by exists y|].
  cbn [length shift_left]. rewrite (aget_Some _ _ x); [|lia|].
  2: { replace (Z.to_nat (Z.of_nat (length l1) + 1)) with (length l1 + 1)%nat by lia.
       by rewrite lookup_app_r, Nat.add_sub' by lia. }
  cbn [mbind option_bind]. rewrite aset_Some by (rewrite length_app; simpl; lia). cbn [mbind option_bind].
  replace (Z.to_nat (Z.of_nat (length l1))) with (length l1 + 0)%nat by lia. rewrite insert_app_r. simpl.
  destruct (IH (l1 ++ [x]) x) as [z Hz]. exists z. rewrite length_app in Hz. simpl in Hz.
  replace (Z.of_nat (length l1 + 1)) with (Z.of_nat (length l1) + 1) in Hz by lia. rewrite <- !app_assoc in Hz. exact Hz.
Qed.

(** ** Strings *)

(** [s] holds the characters [l]: a terminated array, or none for the empty string. *)
Definition str_rep (s : String_) (l : list Z) : Prop :=
  len_ s = Z.of_nat (length l) /\ cap_ s <= HEAP_SIZE
  /\ ((chars s = [] /\ l = []) \/ exists r, chars s = l ++ 0 :: r).

(** The arena only grows, and the line objects stay. *)
Definition ext (a a' : arena) : Prop := 0 <= heap_off a <= heap_off a' /\ objs a' = objs a.

Lemma ext_trans a1 a2 a3 : ext a1 a2 -> ext a2 a3 -> ext a1 a3.
Proof. intros [? ?] [? ?]. split; [lia|congruence]. Qed.

Lemma ext_refl a : 0 <= heap_off a -> ext a a.
Proof. by split. Qed.

Lemma povi_alloc_spec n a :
  0 <= heap_off a -> 0 < n ->
  runs (heap_off a + n + 3) (povi_alloc n a) (fun '(p, a') => p = heap_off a /\ heap_off a + n <= heap_off a' <= HEAP_SIZE /\ objs a' = objs a).
Proof.
  intros Ha Hn. unfold povi_alloc. assert (Z.ldiff (n + 3) 3 = (n + 3) / 4 * 4) as ->.
  { change 3 with (Z.ones 2) at 2. rewrite Z.ldiff_ones_r, Z.shiftl_mul_pow2, Z.shiftr_div_pow2 by lia. done. }
  destruct (Z.ltb_spec HEAP_SIZE (heap_off a + (n + 3) / 4 * 4)); [left; split; [done|zmod]|].
  apply runs_ret; [simpl; zmod|]. simpl. split; [done|]. split; [zmod|done].
Qed.

Lemma double_cap_spec fuel c need :
  0 < c -> need <= c * 2 ^ Z.of_nat fuel -> exists c', double_cap fuel c need = Some c' /\ need <= c' /\ c <= c' <= Z.max c (2 * need).
Proof.
  revert c. induction fuel as [|fuel IH]; intros c Hc Hn; simpl; (destruct (Z.leb_spec need c); [exists c; splits; done || lia|]).
  - simpl in Hn. lia.
  - destruct (IH (c * 2)) as (c' & -> & ? & ?); [lia| |exists c'; splits; done || lia].
    replace (Z.of_nat (S fuel)) with (Z.of_nat fuel + 1) in Hn by lia. rewrite Z.pow_add_r in Hn by lia. lia.
Qed.

Lemma str_rep_len s l : str_rep s l -> len_ s = Z.of_nat (length l) /\ Z.of_nat (length l) <= HEAP_SIZE.
Proof.
  intros (Hl & Hc & [[E ->] | [r Hr]]); [split; [done|simpl; unfold HEAP_SIZE; lia]|].
  split; [done|]. unfold cap_ in Hc. rewrite Hr, length_app in Hc. simpl in Hc. lia.
Qed.

(** After [reserve] the array is there and has room. *)
Lemma reserve_spec need s l a :
  str_rep s l -> 0 <= heap_off a -> Z.of_nat (length l) < need <= 2 ^ 30 ->
  runs (heap_off a + 2 * need + 19) (reserve need s a) (fun '(s', a') =>
    len_ s' = len_ s /\ ext a a' /\ cap_ s' <= HEAP_SIZE /\ exists r, chars s' = l ++ 0 :: r /\ need <= Z.of_nat (length l + S (length r))).
Proof.
  intros Hs Ha Hn. pose proof (str_rep_len _ _ Hs) as [Hl Hlb]. destruct Hs as (_ & Hc & Hs). unfold reserve.
  destruct (Z.leb_spec need (cap_ s)) as [Hle|Hgt].
  - apply runs_ret; [bytes|]. split; [done|]. split; [by apply ext_refl|]. split; [done|]. unfold cap_ in Hle.
    destruct Hs as [[E ->] | [r Hr]]; [rewrite E in Hle; simpl in *; lia|]. exists r. split; [done|].
    rewrite Hr, length_app in Hle. exact Hle.
  - set (c0 := if cap_ s =? 0 then 16 else cap_ s * 2).
    assert (0 < c0) as Hc0 by (unfold c0, cap_; case_match; bool_prop; lia).
    destruct (double_cap_spec 32 c0 need Hc0) as (c' & Ec & Hc' & Hcc); [change (2 ^ Z.of_nat 32) with (2 ^ 30 * 4); lia|].
    eapply runs_lift; [exact Ec|]. assert (c0 <= 2 * need + 16) as Hc2 by (unfold c0; case_match; lia).
    eapply runs_bind; [apply povi_alloc_spec; [done|lia]|lia|].
    intros [p a'] (-> & Hoff & Hobj) Hu.
    assert (exists r, (if cap_ s =? 0 then aset (replicate (Z.to_nat c') 0) 0 0
              else pv_memcpy (replicate (Z.to_nat c') 0) 0 (chars s) (Z.to_nat (len_ s + 1))) = Some (l ++ 0 :: r)
              /\ length (l ++ 0 :: r) = Z.to_nat c') as (r & Er & Hlr).
    { destruct Hs as [[E ->] | [r Hr]].
      - unfold cap_. rewrite E. simpl. rewrite aset_Some by (rewrite length_replicate; lia).
        exists (replicate (Z.to_nat c' - 1) 0). replace (Z.to_nat c') with (S (Z.to_nat c' - 1)) at 1 3 by lia. simpl.
        split; [done|]. rewrite length_replicate. lia.
      - assert (length l + S (length r) = length (chars s))%nat as Hlen by (by rewrite Hr, length_app).
        unfold cap_ in *. replace (Z.of_nat (length (chars s)) =? 0) with false by lia. rewrite Hl.
        replace (Z.to_nat (Z.of_nat (length l) + 1)) with (length l + 1)%nat by lia.
        rewrite (pv_memcpy_spec0 _ _ (length l + 1)) by (rewrite ?length_replicate; lia).
        exists (drop (length l + 1) (replicate (Z.to_nat c') 0)). rewrite Hr.
        rewrite take_app, take_ge by lia. replace (length l + 1 - length l)%nat with 1%nat by lia. simpl.
        rewrite <- app_assoc. split; [done|]. rewrite length_app. simpl. rewrite length_drop, length_replicate. lia. }
    eapply runs_lift; [exact Er|]. apply runs_ret; [bytes|]. simpl. split; [done|]. split; [split; [lia|done]|].
    unfold cap_. simpl. rewrite Hlr. split; [unfold HEAP_SIZE in *; lia|]. exists r. split; [done|].
    rewrite length_app in Hlr. simpl in Hlr. lia.
Qed.

Lemma str_rep_intro b l r n : b = l ++ 0 :: r -> n = Z.of_nat (length l) -> Z.of_nat (length b) <= HEAP_SIZE -> str_rep (mk_String b n) l.
Proof. intros -> -> H. split; [done|]. split; [done|]. right. by exists r. Qed.

Lemma cap_nonzero s l r : chars s = l ++ 0 :: r -> (cap_ s =? 0) = false.
Proof. intros E. unfold cap_. rewrite E, length_app. cbn [length]. apply Z.eqb_neq. lia. Qed.

Lemma clamp_id x hi : 0 <= x <= hi -> clamp x hi = x.
Proof. intros. unfold clamp. replace (x <? 0) with false by lia. by replace (hi <? x) with false by lia. Qed.

Lemma empty_string_rep : str_rep empty_string [].
Proof. split; [done|]. split; [done|]. by left. Qed.

Lemma str_clear_spec s l : str_rep s l -> exists s', str_clear s = Some s' /\ str_rep s' [].
Proof.
  intros (Hl & Hc & Hs). unfold str_clear. destruct Hs as [[E ->] | [r Hr]].
  - unfold cap_. rewrite E. simpl. eexists. split; [done|]. split; [done|]. split; [by unfold cap_; simpl; rewrite E|]. by left.
  - rewrite (cap_nonzero _ _ _ Hr). unfold cap_ in Hc. rewrite Hr in *. rewrite length_app in Hc. simpl in Hc.
    rewrite aset_Some by (rewrite length_app; simpl; lia). eexists. split; [done|].
    destruct l as [|x l]; simpl; eapply str_rep_intro; try done; simpl in *; rewrite ?length_app; simpl; lia.
Qed.

(** What the appending operations promise. *)
Definition str_result (a : arena) (l : list Z) (r : String_ * arena) : Prop := str_rep r.1 l /\ ext a r.2.

Lemma append_spec src n s l a :
  str_rep s l -> 0 <= heap_off a -> 0 <= n <= Z.of_nat (length src) -> n <= 2 ^ 20 ->
  runs (heap_off a + 2 * (Z.of_nat (length l) + n) + 21) (append src n s a) (str_result a (l ++ take (Z.to_nat n) src)).
Proof.
  intros Hs Ha Hn Hb. pose proof (str_rep_len _ _ Hs) as [Hl Hlb]. unfold append.
  eapply runs_bind; [apply (reserve_spec _ s l); [done|done|unfold HEAP_SIZE in *; lia]|lia|].
  intros [s' a'] (El & Hext & Hcap & r & Hr & Hroom) Hu. rewrite El, Hl, Hr. unfold cap_ in Hcap. rewrite Hr in Hcap.
  eapply runs_lift; [apply pv_memcpy_spec; rewrite ?length_app; simpl; lia|].
  rewrite take_app_length. set (t := take (Z.to_nat n) src). assert (length t = Z.to_nat n) as Ht by (unfold t; rewrite length_take; lia).
  destruct (drop (length l + Z.to_nat n) (l ++ 0 :: r)) as [|x r'] eqn:Ed.
  { apply (f_equal length) in Ed. rewrite length_drop, length_app in Ed. simpl in Ed. lia. }
  assert (length l + Z.to_nat n + S (length r') = length (l ++ 0%Z :: r))%nat as Hlen.
  { apply (f_equal length) in Ed. rewrite length_drop in Ed. simpl in Ed. rewrite length_app in *. simpl in *. lia. }
  rewrite app_assoc. eapply runs_lift; [apply aset_Some; rewrite !length_app; simpl; lia|].
  replace (Z.to_nat (Z.of_nat (length l) + n)) with (length (l ++ t) + 0)%nat by (rewrite length_app; lia).
  rewrite insert_app_r. apply runs_ret; [bytes|]. split; [|done]. simpl.
  eapply str_rep_intro; [done|rewrite length_app; lia|]. rewrite !length_app in *. simpl in *. lia.
Qed.

Lemma append_char_spec c s l a :
  str_rep s l -> 0 <= heap_off a -> runs (heap_off a + 2 * Z.of_nat (length l) + 23) (append_char c s a) (str_result a (l ++ [c])).
Proof.
  intros Hs Ha. pose proof (str_rep_len _ _ Hs) as [Hl Hlb]. unfold append_char.
  eapply runs_bind; [apply (reserve_spec _ s l); [done|done|unfold HEAP_SIZE in *; lia]|lia|].
  intros [s' a'] (El & Hext & Hcap & r & Hr & Hroom) Hu. rewrite El, Hl, Hr. unfold cap_ in Hcap. rewrite Hr in Hcap.
  destruct r as [|x r]; [simpl in *; lia|].
  eapply runs_lift; [apply aset_Some; rewrite !length_app; simpl; lia|]. rewrite Nat2Z.id.
  rewrite <- (Nat.add_0_r (length l)), insert_app_r. simpl.
  eapply runs_lift; [apply aset_Some; rewrite !length_app; simpl; lia|].
  replace (Z.to_nat (Z.of_nat (length l + 0) + 1)) with (length l + 1)%nat by lia. rewrite insert_app_r. simpl.
  apply runs_ret; [bytes|]. split; [|done]. simpl. eapply (str_rep_intro _ _ r); [by rewrite <- app_assoc|rewrite length_app; simpl; lia|].
  rewrite !length_app in *. simpl in *. lia.
Qed.

Lemma insert_at_spec (idx : nat) c s l a :
  str_rep s l -> 0 <= heap_off a -> (idx <= length l)%nat ->
  runs (heap_off a + 2 * Z.of_nat (length l) + 23) (insert_at (Z.of_nat idx) c s a) (str_result a (take idx l ++ c :: drop idx l)).
Proof.
  intros Hs Ha Hi. pose proof (str_rep_len _ _ Hs) as [Hl Hlb]. unfold insert_at. rewrite clamp_id by lia.
  eapply runs_bind; [apply (reserve_spec _ s l); [done|done|unfold HEAP_SIZE in *; lia]|lia|].
  intros [s' a'] (El & Hext & Hcap & r & Hr & Hroom) Hu. rewrite El, Hl, Hr. unfold cap_ in Hcap. rewrite Hr in Hcap.
  destruct r as [|x r]; [simpl in *; lia|].
  destruct (shift_right_spec (take idx l) (drop idx l) 0 (x :: r)) as [z Hz].
  rewrite take_drop, app_assoc, take_drop, length_drop in Hz.
  eapply runs_lift; [replace (Z.to_nat (Z.of_nat (length l) - Z.of_nat idx)) with (length l - idx)%nat by lia; exact Hz|].
  assert (length (take idx l) = idx) as Ht by (rewrite length_take; lia).
  assert (length (drop idx l) = length l - idx)%nat as Hd by (apply length_drop).
  eapply runs_lift; [apply aset_Some; rewrite !length_app; simpl; rewrite length_app; simpl; lia|].
  rewrite Nat2Z.id. rewrite <- (Nat.add_0_r idx) at 1. rewrite <- Ht at 1. rewrite insert_app_r. simpl.
  eapply runs_lift; [apply aset_Some; rewrite !length_app; simpl; rewrite length_app; simpl; lia|].
  replace (Z.to_nat (Z.of_nat (length l) + 1)) with (length (take idx l ++ c :: drop idx l) + 0)%nat
    by (rewrite length_app; simpl; lia).
  replace (take idx l ++ c :: drop idx l ++ x :: r) with ((take idx l ++ c :: drop idx l) ++ x :: r) by (by rewrite <- app_assoc).
  rewrite insert_app_r. simpl. apply runs_ret; [bytes|]. split; [|done].
  eapply str_rep_intro; [done|rewrite length_app; simpl; lia|]. rewrite !length_app in *. simpl in *. lia.
Qed.

Lemma erase_at_spec (idx : nat) s l :
  str_rep s l -> (idx < length l)%nat ->
  exists s', erase_at (Z.of_nat idx) s = Some s' /\ str_rep s' (take idx l ++ drop (S idx) l).
Proof.
  intros Hs Hi. pose proof (str_rep_len _ _ Hs) as [Hl Hlb]. destruct Hs as (_ & Hc & [[_ ->] | [r Hr]]); [simpl in Hi; lia|].
  unfold erase_at. replace (_ || _)%bool with false by (rewrite Hl; lia).
  destruct (lookup_lt_is_Some_2 l idx Hi) as [x Hx].
  pose proof (take_drop_middle l idx x Hx) as Hmid.
  destruct (shift_left_spec (take idx l) (drop (S idx) l ++ [0]) x r) as [z Hz].
  rewrite <- app_assoc in Hz. change ([0] ++ r) with (0 :: r) in Hz.
  assert (take idx l ++ x :: drop (S idx) l ++ 0 :: r = chars s) as Hch.
  { rewrite Hr. rewrite <- Hmid at 3. by rewrite <- app_assoc. }
  rewrite Hch in Hz.
  rewrite length_take, Nat.min_l in Hz by lia. rewrite length_app, length_drop in Hz. simpl in Hz.
  replace (length l - S idx + 1)%nat with (length l - idx)%nat in Hz by lia.
  replace (Z.to_nat (len_ s - Z.of_nat idx)) with (length l - idx)%nat by lia. rewrite Hz. eexists. split; [done|].
  unfold cap_ in Hc. rewrite Hr in Hc. rewrite length_app in Hc. simpl in Hc.
  eapply (str_rep_intro _ _ (z :: r)); [by rewrite <- !app_assoc|rewrite length_app, length_take, length_drop; lia|].
  rewrite !length_app, length_take, length_drop. simpl. lia.
Qed.

Lemma truncate_spec (n : nat) s l :
  str_rep s l -> (n <= length l)%nat -> exists s', truncate (Z.of_nat n) s = Some s' /\ str_rep s' (take n l).
Proof.
  intros Hs Hi. pose proof (str_rep_len _ _ Hs) as [Hl Hlb]. destruct Hs as (_ & Hc & Hs). unfold truncate. rewrite clamp_id by lia.
  destruct Hs as [[E ->] | [r Hr]].
  - simpl in Hi. assert (n = 0%nat) as -> by lia. unfold cap_. rewrite E. simpl. eexists. split; [done|]. split; [done|].
    split; [by unfold cap_; simpl; rewrite E|]. by left.
  - rewrite (cap_nonzero _ _ _ Hr). unfold cap_ in Hc. rewrite Hr in *. rewrite length_app in Hc. simpl in Hc.
    rewrite aset_Some by (rewrite length_app; simpl; lia). eexists. split; [done|]. rewrite Nat2Z.id.
    destruct (drop n (l ++ 0 :: r)) as [|x r'] eqn:Ed.
    { apply (f_equal length) in Ed. rewrite length_drop, length_app in Ed. simpl in Ed. lia. }
    assert (l ++ 0 :: r = take n l ++ x :: r') as Hsp.
    { rewrite <- (take_drop n (l ++ 0 :: r)), Ed, take_app_le by lia. done. }
    rewrite Hsp. assert (length (take n l) = n) as Ht by (rewrite length_take; lia).
    rewrite <- (Nat.add_0_r n) at 1. rewrite <- Ht at 1. rewrite insert_app_r. simpl.
    apply (f_equal length) in Hsp. rewrite !length_app in Hsp. simpl in Hsp.
    eapply str_rep_intro; [done|lia|]. rewrite length_app. simpl. lia.
Qed.

Lemma c_str_chars s l : str_rep s l -> exists r, c_str s = l ++ 0 :: r.
Proof.
  intros (_ & _ & [[E ->] | [r Hr]]); unfold c_str.
  - unfold cap_. rewrite E. by exists [].
  - rewrite (cap_nonzero _ _ _ Hr), Hr. by exists r.
Qed.

Lemma assign_spec o lo s l a :
  str_rep o lo -> str_rep s l -> 0 <= heap_off a -> runs (heap_off a + 2 * Z.of_nat (length lo) + 21) (assign o s a) (str_result a lo).
Proof.
  intros Ho Hs Ha. unfold assign. destruct (str_clear_spec _ _ Hs) as (s' & Es & Hs'). eapply runs_lift; [exact Es|].
  destruct (c_str_chars _ _ Ho) as [r ->]. pose proof (str_rep_len _ _ Ho) as [Hl Hlb].
  eapply runs_mono; [apply (append_spec _ _ s' []); [done|done|rewrite length_app; lia|unfold HEAP_SIZE in *; lia]|simpl; lia|].
  simpl. intros r'. by rewrite Hl, Nat2Z.id, take_app_length.
Qed.

Lemma substr_spec (from : nat) s l a :
  str_rep s l -> 0 <= heap_off a -> (from <= length l)%nat -> 
  runs (heap_off a + 2 * Z.of_nat (length l) + 21) (substr (Z.of_nat from) s a) (str_result a (drop from l)).
Proof.
  intros Hs Ha Hf. pose proof (str_rep_len _ _ Hs) as [Hl Hlb]. unfold substr. rewrite clamp_id by lia.
  set (src := if cap_ s =? 0 then _ else _).
  assert (exists r, src = drop from l ++ 0 :: r) as [r Hr].
  { unfold src. destruct Hs as (_ & _ & [[E ->] | [r Hr]]).
    - unfold cap_. rewrite E. exists []. by destruct from.
    - rewrite (cap_nonzero _ _ _ Hr), Hr. exists r. by rewrite Nat2Z.id, drop_app_le by lia. }
  rewrite Hr. eapply runs_mono.
  - apply (append_spec _ _ empty_string []); [apply empty_string_rep|done|rewrite length_app, length_drop; lia|unfold HEAP_SIZE in *; lia].
  - simpl. lia.
  - simpl. intros r'. replace (Z.to_nat (len_ s - Z.of_nat from)) with (length (drop from l)) by (rewrite length_drop; lia).
    by rewrite take_app_length.
Qed.

Lemma str_set_spec src t s l a :
  str_rep s l -> 0 <= heap_off a -> cstring src = Some t -> Z.of_nat (length t) <= 2 ^ 20 -> 
  runs (heap_off a + 2 * Z.of_nat (length t) + 21) (str_set src s a) (str_result a t).
Proof.
  intros Hs Ha Ht Hb. unfold str_set. destruct (str_clear_spec _ _ Hs) as (s' & Es & Hs'). eapply runs_lift; [exact Es|].
  eapply runs_lift; [exact Ht|]. apply cstring_spec in Ht as (r & -> & _).
  eapply runs_mono; [apply (append_spec _ _ s' []); [done|done|rewrite length_app; lia|done]|simpl; lia|].
  simpl. intros r'. by rewrite Nat2Z.id, take_app_length.
Qed.

(** ** Vectors *)

Definition vec_rep (v : Vector) (ps : list Z) : Prop := count_ v = Z.of_nat (length ps) /\ exists r, arr_ v = ps ++ r.

Lemma grow_if_full_spec v ps a :
  vec_rep v ps -> 0 <= heap_off a ->
  runs (heap_off a + 8 * Z.of_nat (length ps) + 35) (grow_if_full v a) (fun '(v', a') => ext a a' /\ count_ v' = Z.of_nat (length ps) /\ exists x r, arr_ v' = ps ++ x :: r).
Proof.
  intros (Hc & r & Hr) Ha. unfold grow_if_full, vcap. destruct (Z.eqb_spec (count_ v) (Z.of_nat (length (arr_ v)))) as [E|E].
  - unfold grow, vcap. set (n := if _ =? 0 then 8 else _).
    rewrite Hr, length_app in E. assert (r = []) as -> by (apply nil_length_inv; lia). rewrite app_nil_r in Hr.
    assert (Z.of_nat (length ps) < n <= 2 * Z.of_nat (length ps) + 8) as Hn by (unfold n; rewrite Hr; case_match; bool_prop; lia).
    eapply runs_bind; [apply povi_alloc_spec; [done|unfold SIZEOF_PTR; lia]|unfold SIZEOF_PTR; lia|]. intros [p a'] (-> & Hoff & Hobj) Hu.
    eapply runs_lift; [apply (pv_memcpy_spec0 _ _ (Z.to_nat (count_ v))); rewrite ?length_replicate, ?Hr; lia|].
    apply runs_ret; [unfold SIZEOF_PTR in *; bytes|]. split; [split; [unfold SIZEOF_PTR in *; lia|done]|]. split; [done|]. simpl.
    replace (Z.to_nat (count_ v)) with (length ps) by lia. rewrite Hr, firstn_all, drop_replicate.
    exists 0, (replicate (Z.to_nat n - length ps - 1) 0).
    by replace (Z.to_nat n - length ps)%nat with (S (Z.to_nat n - length ps - 1)) at 1 by lia.
  - apply runs_ret; [bytes|]. split; [by apply ext_refl|]. split; [done|]. destruct r as [|x r]; [rewrite app_nil_r in Hr; congruence|].
    by exists x, r.
Qed.

(** What the growing operations promise. *)
Definition vec_result (a : arena) (ps : list Z) (r : Vector * arena) : Prop := vec_rep r.1 ps /\ ext a r.2.

Lemma push_back_spec p v ps a :
  vec_rep v ps -> 0 <= heap_off a -> 
  runs (heap_off a + 8 * Z.of_nat (length ps) + 35) (push_back p v a) (vec_result a (ps ++ [p])).
Proof.
  intros Hv Ha. unfold push_back. eapply runs_bind; [by apply grow_if_full_spec|lia|].
  intros [v' a'] (Hext & Hc & x & r & Hr) Hu. rewrite Hc, Hr.
  eapply runs_lift; [apply aset_Some; rewrite length_app; simpl; lia|]. apply runs_ret; [bytes|]. split; [|done]. simpl.
  rewrite Nat2Z.id, <- (Nat.add_0_r (length ps)), insert_app_r. simpl.
  split; simpl; [rewrite length_app; simpl; lia|]. exists r. by rewrite <- app_assoc.
Qed.

Lemma vinsert_spec (idx : nat) p v ps a :
  vec_rep v ps -> 0 <= heap_off a -> (idx <= length ps)%nat ->
  runs (heap_off a + 8 * Z.of_nat (length ps) + 35) (vinsert (Z.of_nat idx) p v a) (vec_result a (take idx ps ++ p :: drop idx ps)).
Proof.
  intros Hv Ha Hi. unfold vinsert. rewrite clamp_id by (destruct Hv as [-> _]; lia).
  eapply runs_bind; [by apply grow_if_full_spec|lia|]. intros [v' a'] (Hext & Hc & x & r & Hr) Hu. rewrite Hc, Hr.
  destruct (shift_right_spec (take idx ps) (drop idx ps) x r) as [z Hz].
  rewrite take_drop, app_assoc, take_drop, length_drop in Hz.
  eapply runs_lift; [replace (Z.to_nat (Z.of_nat (length ps) - Z.of_nat idx)) with (length ps - idx)%nat by lia; exact Hz|].
  assert (length (take idx ps) = idx) as Ht by (rewrite length_take; lia).
  eapply runs_lift; [apply aset_Some; rewrite length_app; simpl; lia|]. rewrite Nat2Z.id.
  rewrite <- (Nat.add_0_r idx) at 1. rewrite <- Ht at 1. rewrite insert_app_r. simpl. apply runs_ret; [bytes|]. split; [|done].
  split; simpl; [rewrite length_app, length_take; simpl; rewrite length_drop; lia|]. exists r. by rewrite <- app_assoc.
Qed.

Lemma vremove_spec (idx : nat) v ps :
  vec_rep v ps -> (idx < length ps)%nat ->
  exists v', vremove (Z.of_nat idx) v = Some v' /\ vec_rep v' (take idx ps ++ drop (S idx) ps).
Proof.
  intros (Hc & r & Hr) Hi. unfold vremove. replace (_ || _)%bool with false by (rewrite Hc; lia).
  destruct (lookup_lt_is_Some_2 ps idx Hi) as [x Hx]. pose proof (take_drop_middle ps idx x Hx) as Hmid.
  destruct (shift_left_spec (take idx ps) (drop (S idx) ps) x r) as [z Hz].
  assert (take idx ps ++ x :: drop (S idx) ps ++ r = arr_ v) as Hch.
  { rewrite Hr. rewrite <- Hmid at 3. by rewrite <- app_assoc. }
  rewrite Hch, length_take, Nat.min_l, length_drop in Hz by lia.
  replace (Z.to_nat (count_ v - 1 - Z.of_nat idx)) with (length ps - S idx)%nat by lia. rewrite Hz. eexists. split; [done|].
  split; simpl; [rewrite length_app, length_take, length_drop; lia|]. exists (z :: r). by rewrite <- app_assoc.
Qed.

(** ** Buffers *)

(** Complete lines, each with its line feed. *)
Fixpoint unlines (ls : list (list Z)) : list Z :=
  match ls with [] => [] | l :: ls' => l ++ NL :: unlines ls' end.

Lemma unlines_app ls ls' : unlines (ls ++ ls') = unlines ls ++ unlines ls'.
Proof. induction ls as [|x ls IH]; simpl; [done|]. by rewrite IH, <- app_assoc. Qed.

Lemma unlines_count ls : (length ls <= length (unlines ls))%nat.
Proof. induction ls as [|l ls IH]; simpl; [lia|]. rewrite length_app. simpl. lia. Qed.

(** The size of a text, around a line. *)
Lemma unlines_size pre l post :
  length (unlines (pre ++ l :: post)) = (length (unlines pre) + length l + 1 + length (unlines post))%nat.
Proof. rewrite unlines_app. simpl. rewrite !length_app. simpl. lia. Qed.

(** The buffer holds the lines [ls], in String objects at [ps]. *)
Record buf_rep (b : Buffer) (a : arena) (ps : list Z) (ls : list (list Z)) : Prop := {
  br_off : 0 <= heap_off a;
  br_vec : vec_rep (lines_ b) ps;
  br_nodup : NoDup ps;
  br_fresh : forall p, is_Some (objs a !! p) -> p < heap_off a;
  br_lines : Forall2 (fun p l => exists s, objs a !! p = Some s /\ str_rep s l) ps ls;
}.

(** What the operations on the text promise. *)
Definition buf_result (ls : list (list Z)) (r : Buffer * arena) : Prop := exists ps, buf_rep r.1 r.2 ps ls.

Lemma num_lines_spec b a ps ls : buf_rep b a ps ls -> num_lines b = Z.of_nat (length ls).
Proof. intros [_ [Hc _] _ _ Hl]. unfold num_lines. apply Forall2_length in Hl. lia. Qed.

Lemma line_at_spec b a ps ls (i : nat) l :
  buf_rep b a ps ls -> ls !! i = Some l ->
  exists p s, line_at b (Z.of_nat i) a = Some (p, s) /\ ps !! i = Some p /\ objs a !! p = Some s /\ str_rep s l.
Proof.
  intros [_ [_ [r Hr]] _ _ Hl] Hi. destruct (Forall2_lookup_r _ _ _ _ _ Hl Hi) as (p & Hp & s & Hs & Hrep).
  exists p, s. splits; try done. unfold line_at. rewrite (aget_Some _ _ p); [|lia|].
  - simpl. by rewrite Hs.
  - rewrite Nat2Z.id, Hr. by apply lookup_app_l_Some.
Qed.

Lemma line_length_spec b a ps ls (i : nat) l :
  buf_rep b a ps ls -> ls !! i = Some l -> line_length b (Z.of_nat i) a = Some (Z.of_nat (length l)).
Proof.
  intros Hb Hi. destruct (line_at_spec _ _ _ _ _ _ Hb Hi) as (p & s & Hla & _ & _ & Hrep).
  unfold line_length. rewrite Hla. simpl. by rewrite (proj1 (str_rep_len _ _ Hrep)).
Qed.

(** Another arena with the same objects. *)
Lemma buf_rep_ext b a a' ps ls : buf_rep b a ps ls -> ext a a' -> buf_rep b a' ps ls.
Proof.
  intros [Ho Hv Hn Hf Hl] [Hle Hobj]. split; try done; [lia|intros p Hp; rewrite Hobj in Hp; specialize (Hf p Hp); lia|by rewrite Hobj].
Qed.

(** Storing a line. *)
Lemma put_line b a ps ls (i : nat) p s l :
  buf_rep b a ps ls -> ps !! i = Some p -> str_rep s l -> buf_rep b (put_obj p s a) ps (<[i := l]> ls).
Proof.
  intros [Ho Hv Hn Hf Hl] Hp Hs. split; simpl; try done.
  - intros q [x Hx]. destruct (decide (q = p)) as [->|Hne].
    + apply Hf. destruct (Forall2_lookup_l _ _ _ _ _ Hl Hp) as (l0 & _ & s0 & Hs0 & _). eauto.
    + rewrite lookup_insert_ne in Hx by done. eauto.
  - apply Forall2_same_length_lookup_2; [by rewrite length_insert; eapply Forall2_length|].
    intros j q l' Hq Hl'. destruct (decide (j = i)) as [->|Hne].
    + simplify_eq. rewrite list_lookup_insert_eq in Hl' by (rewrite <- (Forall2_length _ _ _ Hl); by eapply lookup_lt_Some).
      simplify_eq. exists s. by rewrite lookup_insert_eq.
    + rewrite list_lookup_insert_ne in Hl' by done.
      destruct (Forall2_lookup_lr _ _ _ _ _ _ Hl Hq Hl') as (s' & Hs' & Hrep). exists s'. split; [|done].
      rewrite lookup_insert_ne; [done|]. intros ->. apply Hne. by eapply NoDup_lookup.
Qed.

(** A new, empty line object. *)
Lemma new_String_spec b a ps ls :
  buf_rep b a ps ls ->
  runs (heap_off a + 15) (new_String a) (fun '(p, a') => buf_rep b a' ps ls /\ (p ∉ ps) /\ p < heap_off a' /\ objs a' !! p = Some empty_string).
Proof.
  intros [Ho Hv Hn Hf Hl]. unfold new_String. eapply runs_bind; [apply povi_alloc_spec; [done|unfold SIZEOF_STRING; lia]|unfold SIZEOF_STRING; lia|].
  unfold SIZEOF_STRING. intros [p a'] (-> & Hoff & Hobj) Hu. apply runs_ret; [bytes|].
  assert (objs a !! heap_off a = None) as Hnone.
  { apply eq_None_not_Some. intros Hs. specialize (Hf _ Hs). lia. }
  split; [|split; [|split; [simpl; lia|by simpl; rewrite lookup_insert_eq]]].
  - split; simpl; try done; [lia| |].
    + intros q [x Hx]. destruct (decide (q = heap_off a)) as [->|Hne]; [lia|].
      rewrite lookup_insert_ne, Hobj in Hx by done. specialize (Hf q ltac:(eauto)). lia.
    + eapply Forall2_impl; [exact Hl|]. intros q l (s & Hs & Hrep). exists s. split; [|done].
      rewrite lookup_insert_ne, Hobj; [done|]. congruence.
  - intros Hin. apply list_elem_of_lookup in Hin as [i Hi].
    destruct (Forall2_lookup_l _ _ _ _ _ Hl Hi) as (l & _ & s & Hs & _). congruence.
Qed.

Lemma Forall2_insert_middle {A B} (P : A -> B -> Prop) (i : nat) x y xs ys :
  Forall2 P xs ys -> P x y -> Forall2 P (take i xs ++ x :: drop i xs) (take i ys ++ y :: drop i ys).
Proof. intros H Hxy. apply Forall2_app; [by apply Forall2_take|]. constructor; [done|by apply Forall2_drop]. Qed.

Lemma Forall2_delete_middle {A B} (P : A -> B -> Prop) (i : nat) xs ys :
  Forall2 P xs ys -> Forall2 P (take i xs ++ drop (S i) xs) (take i ys ++ drop (S i) ys).
Proof. intros H. apply Forall2_app; [by apply Forall2_take|by apply Forall2_drop]. Qed.

Lemma insert_line_spec (row : nat) b a ps ls :
  buf_rep b a ps ls -> (row <= length ls)%nat ->
  runs (heap_off a + 8 * Z.of_nat (length ls) + 50) (insert_line (Z.of_nat row) b a) (buf_result (take row ls ++ [] :: drop row ls)).
Proof.
  intros Hb Hr. unfold insert_line. rewrite (num_lines_spec _ _ _ _ Hb), clamp_id by lia.
  eapply runs_bind; [by apply new_String_spec|lia|]. intros [p a1] (Hb1 & Hp & Hpo & Hpe) Hu1.
  pose proof (Forall2_length _ _ _ (br_lines _ _ _ _ Hb)) as Hlen.
  eapply runs_bind; [apply vinsert_spec; [apply Hb1|apply Hb1|lia]|bytes|]. intros [v a2] [Hv Hext] Hu2. apply runs_ret; [bytes|].
  destruct (buf_rep_ext _ _ _ _ _ Hb1 Hext) as [Ho _ Hn Hf Hl]. simpl in Hv.
  exists (take row ps ++ p :: drop row ps). split; simpl; try done.
  - rewrite <- (take_drop row ps) in Hn, Hp. apply NoDup_app in Hn as (H1 & H2 & H3). rewrite elem_of_app in Hp.
    apply NoDup_app. split; [done|]. split; [set_solver|]. constructor; [tauto|done].
  - apply Forall2_insert_middle; [done|]. exists empty_string. split; [|apply empty_string_rep].
    destruct Hext as [_ Hobj]. simpl in *. by rewrite Hobj.
Qed.

Lemma delete_line_off row b a r : delete_line row b a = Some r -> used r = heap_off a.
Proof. unfold delete_line. intros H. repeat case_match; simplify_option_eq; repeat case_match; simplify_option_eq; done. Qed.

Lemma delete_line_spec (row : nat) b a ps ls :
  buf_rep b a ps ls -> (row < length ls)%nat -> (1 < length ls)%nat ->
  exists r, delete_line (Z.of_nat row) b a = Some r /\ buf_result (take row ls ++ drop (S row) ls) r.
Proof.
  intros Hb Hr H1. unfold delete_line. rewrite (num_lines_spec _ _ _ _ Hb).
  in_range. replace (Z.of_nat (length ls) =? 1) with false by lia.
  pose proof (Forall2_length _ _ _ (br_lines _ _ _ _ Hb)) as Hlen.
  destruct (vremove_spec row (lines_ b) ps) as (v & -> & Hv); [apply Hb|lia|]. simpl. eexists. split; [done|].
  destruct Hb as [Ho _ Hn Hf Hl]. exists (take row ps ++ drop (S row) ps). split; simpl; try done.
  - rewrite <- (take_drop row ps) in Hn. apply NoDup_app in Hn as (H2 & H3 & H4).
    destruct (drop row ps) as [|p ps'] eqn:Ed.
    { apply (f_equal length) in Ed. rewrite length_drop in Ed. simpl in Ed. lia. }
    assert (drop (S row) ps = ps') as -> by (by rewrite <- Nat.add_1_r, <- drop_drop, Ed).
    apply NoDup_app. apply NoDup_cons in H4 as [_ H4]. set_solver.
  - by apply Forall2_delete_middle.
Qed.

(** The list of lines around the line [row]. *)
Lemma lookup_split {A} (ls : list A) (row : nat) l : ls !! row = Some l -> exists pre post, ls = pre ++ l :: post /\ length pre = row.
Proof.
  intros H. exists (take row ls), (drop (S row) ls). split; [by rewrite take_drop_middle|].
  rewrite length_take. apply lookup_lt_Some in H. lia.
Qed.

Lemma buf_rep_length b a ps pre l post :
  buf_rep b a ps (pre ++ l :: post) -> num_lines b = Z.of_nat (length pre) + 1 + Z.of_nat (length post).
Proof. intros H. rewrite (num_lines_spec _ _ _ _ H), length_app. simpl. lia. Qed.

Lemma buf_insert_char_spec (col : nat) ch b a ps pre l post :
  buf_rep b a ps (pre ++ l :: post) -> (col <= length l)%nat -> ch <> NL ->
  runs (heap_off a + 2 * Z.of_nat (length l) + 23) (buf_insert_char (Z.of_nat (length pre)) (Z.of_nat col) ch b a)
    (buf_result (pre ++ (take col l ++ ch :: drop col l) :: post)).
Proof.
  intros Hb Hc Hch. unfold buf_insert_char. rewrite (buf_rep_length _ _ _ _ _ _ Hb).
  in_range.
  destruct (line_at_spec _ _ _ _ (length pre) l Hb (list_lookup_middle _ _ _ _ eq_refl)) as (p & s & Hla & Hp & Hs & Hrep).
  eapply runs_lift; [exact Hla|]. replace (ch =? NL) with false by lia.
  eapply runs_bind; [apply (insert_at_spec col ch s l); [done|apply Hb|done]|lia|]. intros [s' a'] [Hs' Hext] Hu.
  apply runs_ret; [bytes|]. exists ps. simpl. pose proof (put_line _ _ _ _ _ _ _ _ (buf_rep_ext _ _ _ _ _ Hb Hext) Hp Hs') as H.
  rewrite <- (Nat.add_0_r (length pre)), insert_app_r in H. exact H.
Qed.

Lemma buf_insert_nl_spec (col : nat) b a ps pre l post :
  buf_rep b a ps (pre ++ l :: post) -> (col <= length l)%nat ->
  runs (heap_off a + 4 * Z.of_nat (length l) + 8 * Z.of_nat (length (pre ++ l :: post)) + 92)
    (buf_insert_char (Z.of_nat (length pre)) (Z.of_nat col) NL b a)
    (buf_result (pre ++ take col l :: drop col l :: post)).
Proof.
  intros Hb Hc. unfold buf_insert_char. rewrite (buf_rep_length _ _ _ _ _ _ Hb).
  in_range.
  destruct (line_at_spec _ _ _ _ (length pre) l Hb (list_lookup_middle _ _ _ _ eq_refl)) as (p & s & Hla & Hp & Hs & Hrep).
  eapply runs_lift; [exact Hla|]. change (NL =? NL) with true. cbv iota.
  eapply runs_bind; [apply (substr_spec col s l); [done|apply Hb|done]|lia|]. intros [tl a1] [Htl Hext1] Hu1.
  destruct (truncate_spec col s l Hrep Hc) as (s' & Es & Hs'). eapply runs_lift; [exact Es|].
  pose proof (put_line _ _ _ _ _ _ _ _ (buf_rep_ext _ _ _ _ _ Hb Hext1) Hp Hs') as H1.
  rewrite <- (Nat.add_0_r (length pre)), insert_app_r in H1. simpl in H1.
  replace (Z.of_nat (length pre) + 1) with (Z.of_nat (length (pre ++ [take col l]))) by (rewrite length_app; simpl; lia).
  eapply runs_bind; [apply (insert_line_spec _ _ _ _ _ H1); rewrite !length_app; simpl; lia|rewrite !length_app; bytes|].
  intros [b2 a2] [ps2 H2] Hu2. rewrite !length_app in Hu2. simpl in H2.
  rewrite (app_assoc pre [take col l] post : pre ++ take col l :: post = _), take_app_length, drop_app_length in H2.
  destruct (line_at_spec _ _ _ _ _ [] H2 (list_lookup_middle _ _ _ _ eq_refl)) as (p1 & s1 & Hla1 & Hp1 & Hs1 & Hrep1).
  eapply runs_lift; [exact Hla1|]. eapply runs_bind; [apply (assign_spec tl (drop col l) s1 []); [done|done|apply H2]|rewrite !length_app, length_drop; bytes|].
  intros [s2 a3] [Hs2 Hext2] Hu3. rewrite length_drop in Hu3. apply runs_ret; [rewrite !length_app; bytes|]. exists ps2. simpl.
  pose proof (put_line _ _ _ _ _ _ _ _ (buf_rep_ext _ _ _ _ _ H2 Hext2) Hp1 Hs2) as H3.
  rewrite <- (Nat.add_0_r (length (pre ++ [take col l]))), insert_app_r, <- app_assoc in H3. exact H3.
Qed.

(** Deleting the character at [col], joining with the next line, or nothing at the end. *)
Definition deleted (col : nat) (pre : list (list Z)) (l : list Z) (post : list (list Z)) : list (list Z) :=
  if decide (col < length l)%nat then pre ++ (take col l ++ drop (S col) l) :: post
  else match post with [] => pre ++ [l] | l1 :: post' => pre ++ (l ++ l1) :: post' end.

Lemma buf_delete_char_spec (col : nat) b a ps pre l post :
  buf_rep b a ps (pre ++ l :: post) -> (col <= length l)%nat ->
  runs (heap_off a + 2 * Z.of_nat (length (unlines (pre ++ l :: post))) + 21)
    (buf_delete_char (Z.of_nat (length pre)) (Z.of_nat col) b a) (buf_result (deleted col pre l post)).
Proof.
  intros Hb Hc. unfold buf_delete_char, deleted. rewrite unlines_size. rewrite (buf_rep_length _ _ _ _ _ _ Hb).
  in_range.
  destruct (line_at_spec _ _ _ _ (length pre) l Hb (list_lookup_middle _ _ _ _ eq_refl)) as (p & s & Hla & Hp & Hs & Hrep).
  eapply runs_lift; [exact Hla|]. pose proof (str_rep_len _ _ Hrep) as [Hl Hlb]. rewrite Hl. case_decide as Hd.
  - replace (Z.of_nat col <? Z.of_nat (length l)) with true by lia.
    destruct (erase_at_spec col s l Hrep Hd) as (s' & Es & Hs'). eapply runs_lift; [exact Es|]. apply runs_ret; [bytes|]. exists ps. simpl.
    pose proof (put_line _ _ _ _ _ _ _ _ Hb Hp Hs') as H. rewrite <- (Nat.add_0_r (length pre)), insert_app_r in H. exact H.
  - replace (Z.of_nat col <? Z.of_nat (length l)) with false by lia. destruct post as [|l1 post]; simpl length.
    { case_match eqn:E; [bool_prop; lia|]. apply runs_ret; [bytes|]. by exists ps. }
    case_match eqn:E; [clear E|bool_prop; lia].
    replace (Z.of_nat (length pre) + 1) with (Z.of_nat (length (pre ++ [l]))) by (rewrite length_app; simpl; lia).
    destruct (line_at_spec _ _ _ _ (length (pre ++ [l])) l1 Hb) as (p1 & s1 & Hla1 & Hp1 & Hs1 & Hrep1).
    { rewrite (app_assoc pre [l] _ : pre ++ l :: l1 :: post = _). by apply list_lookup_middle. }
    eapply runs_lift; [exact Hla1|]. pose proof (str_rep_len _ _ Hrep1) as [Hl1 Hlb1]. destruct (c_str_chars _ _ Hrep1) as [r ->].
    eapply runs_bind.
    { apply (append_spec _ _ s l); [done|apply Hb|rewrite length_app; lia|unfold HEAP_SIZE in *; lia]. }
    { cbn [unlines]. rewrite !length_app. simpl. lia. }
    rewrite Hl1, Nat2Z.id, take_app_length. intros [s2 a2] [Hs2 Hext] Hu. simpl in Hs2, Hext, Hu.
    pose proof (put_line _ _ _ _ _ _ _ _ (buf_rep_ext _ _ _ _ _ Hb Hext) Hp Hs2) as H.
    rewrite <- (Nat.add_0_r (length pre)), insert_app_r in H. simpl in H.
    assert (length (pre ++ [l]) = length (pre ++ [l ++ l1])) as -> by (by rewrite !length_app).
    destruct (delete_line_spec (length (pre ++ [l ++ l1])) _ _ _ _ H) as (r2 & Er2 & Hr2); [rewrite !length_app; simpl; lia..|].
    rewrite Er2. apply runs_ret; [|].
    { rewrite (delete_line_off _ _ _ _ Er2). cbn [unlines]. rewrite !length_app. bytes. }
    rewrite (app_assoc pre [l ++ l1] _ : pre ++ (l ++ l1) :: l1 :: post = _) in Hr2.
    rewrite take_app_length, <- Nat.add_1_r, <- drop_drop, drop_app_length, <- app_assoc in Hr2. exact Hr2.
Qed.

Lemma add_line_spec s (n : nat) b a ps ls :
  buf_rep b a ps ls -> (n <= length s)%nat -> Z.of_nat n <= 2 ^ 20 ->
  runs (heap_off a + 2 * Z.of_nat n + 8 * Z.of_nat (length ls) + 71) (add_line s (Z.of_nat n) b a) (buf_result (ls ++ [take n s])).
Proof.
  intros Hb Hn Hn2. unfold add_line. eapply runs_bind; [by apply new_String_spec|lia|]. intros [p a1] (Hb1 & Hp & Hpo & Hpe) Hu1.
  eapply runs_bind; [apply (append_spec _ _ empty_string []); [apply empty_string_rep|apply Hb1|lia|lia]|bytes|].
  rewrite Nat2Z.id. simpl app. intros [ln a2] [Hln Hext] Hu2. simpl in Hln, Hext.
  pose proof (Forall2_length _ _ _ (br_lines _ _ _ _ Hb)) as Hlen.
  assert (0 <= heap_off a2) as Ha2 by (destruct Hext; lia).
  eapply runs_bind; [apply push_back_spec; [apply Hb1|done]|bytes|]. intros [v a3] [Hv Hext3] Hu3. apply runs_ret; [bytes|]. simpl in Hv, Hext3.
  destruct (buf_rep_ext _ _ _ _ _ Hb1 Hext) as [Ho _ Hnd Hf Hl]. destruct Hext as [Hle Hobj], Hext3 as [Hle3 Hobj3]. simpl in *.
  exists (ps ++ [p]). split; simpl; try done; [lia| | |].
  - apply NoDup_app. split; [done|]. split; [set_solver|]. by apply NoDup_singleton.
  - intros q [x Hx]. rewrite Hobj3 in Hx. destruct (decide (q = p)) as [->|Hne]; [lia|].
    rewrite lookup_insert_ne in Hx by done. specialize (Hf q ltac:(eauto)). lia.
  - apply Forall2_app; [|constructor; [|constructor]].
    + apply Forall2_same_length_lookup_2; [by eapply Forall2_length|]. intros j q l' Hq Hl'.
      destruct (Forall2_lookup_lr _ _ _ _ _ _ Hl Hq Hl') as (s' & Hs' & Hrep). exists s'. split; [|done].
      rewrite Hobj3, lookup_insert_ne; [done|]. intros ->. apply Hp. by eapply list_elem_of_lookup_2.
    + exists ln. by rewrite Hobj3, lookup_insert_eq.
Qed.

(** A single empty line, in whatever was there before. *)
Lemma clear_lines_spec b a ps ls : 
  buf_rep b a ps ls -> runs (heap_off a + 50) (clear_lines b a) (buf_result [[]]).
Proof.
  intros Hb. unfold clear_lines.
  assert (buf_rep (mk_Buffer (vclear (lines_ b))) a [] []) as Hc.
  { destruct Hb as [Ho [_ [r Hr]] _ Hf _]. split; try done; [|constructor]. split; [done|]. by exists (arr_ (lines_ b)). }
  eapply runs_bind; [apply (new_String_spec _ _ _ _ Hc)|lia|]. intros [p a1] (Hb1 & Hp & Hpo & Hpe) Hu1.
  eapply runs_bind; [apply push_back_spec; apply Hb1|bytes|]. intros [v a2] [Hv Hext] Hu2. apply runs_ret; [bytes|].
  destruct (buf_rep_ext _ _ _ _ _ Hb1 Hext) as [Ho _ Hnd Hf Hl]. destruct Hext as [Hle Hobj]. simpl in *.
  exists [p]. split; simpl; try done; [by apply NoDup_singleton|].
  constructor; [|constructor]. exists empty_string. rewrite Hobj. split; [done|apply empty_string_rep].
Qed.

Lemma new_Buffer_spec : runs 50 (new_Buffer (mk_arena 0 ∅)) (buf_result [[]]).
Proof.
  assert (buf_rep (mk_Buffer empty_vector) (mk_arena 0 ∅) [] []) as Hc.
  { split; simpl; try done; [split; [done|by exists []]|constructor|by intros p [x Hx]; rewrite lookup_empty in Hx]. }
  exact (clear_lines_spec _ _ _ _ Hc).
Qed.
