(* ===== verification/PoviTheorems.v ===== *)
(** * Theorems on povi

    The editor refines a gap buffer: the text before the cursor and the text behind it.  Every
    key keeps the cursor inside the text and takes a bounded amount of memory; unsaved text is not
    lost silently; what a file holds after saving, and what loading makes of it. *)

From S2P Require Import Prelude Cstr User Keyboard Shell Povi PoviText.

(** ** The text before and behind the cursor *)

(** Lines that follow another one. *)
Fixpoint more_lines (ls : list (list Z)) : list Z :=
  match ls with [] => [] | l :: ls' => NL :: l ++ more_lines ls' end.

Lemma unlines_snoc ls l : unlines (ls ++ [l]) = unlines ls ++ l ++ [NL].
Proof. apply unlines_app. Qed.

Lemma more_lines_size ls : length (more_lines ls) = length (unlines ls).
Proof. induction ls as [|l ls IH]; simpl; [done|]. rewrite !length_app. simpl. lia. Qed.

#[export] Instance uses_editor : Uses Editor := fun e => heap_off (mem e).
Arguments uses_editor _ /.

(** The lines [pre], [l], [post] with the cursor before character [col] of [l]. *)
Record at_cursor (e : Editor) (pre : list (list Z)) (l : list Z) (post : list (list Z)) (col : nat) : Prop := {
  ac_text : buf_result (pre ++ l :: post) (buffer e, mem e);
  ac_nl : Forall (fun l => NL ∉ l) (pre ++ l :: post);
  ac_row : cursor_row e = Z.of_nat (length pre);
  ac_col : cursor_col e = Z.of_nat col;
  ac_le : (col <= length l)%nat;
}.

(** [e] shows the text [b] before the cursor and [a] behind it. *)
Definition gap_rep (e : Editor) (b a : list Z) : Prop :=
  exists pre l post col, at_cursor e pre l post col
    /\ b = unlines pre ++ take col l /\ a = drop col l ++ more_lines post.

Lemma gap_intro e pre l post col b a :
  at_cursor e pre l post col -> b = unlines pre ++ take col l -> a = drop col l ++ more_lines post -> gap_rep e b a.
Proof. intros. by exists pre, l, post, col. Qed.

(** The number of characters around the cursor. *)
Lemma gap_size (pre : list (list Z)) l post col :
  length (unlines (pre ++ l :: post))
  = S (length (unlines pre ++ take col l) + length (drop col l ++ more_lines post)).
Proof.
  rewrite unlines_size, !length_app, more_lines_size.
  pose proof (f_equal length (take_drop col l)) as H. rewrite length_app in H. lia.
Qed.

(** Memory that an edit of the text [b] before the cursor and [a] behind it may take. *)
Definition edit_bytes (b a : list Z) : Z := 8 * Z.of_nat (length b + length a) + 100.

(** What the operations on text and cursor leave alone. *)
Definition frame (e e' : Editor) : Prop :=
  mode e' = mode e /\ filename e' = filename e /\ message e' = message e /\ cmd_line e' = cmd_line e
  /\ modified e' = modified e /\ top_row e' = top_row e.

Lemma ed_line_length_spec e pre l post col (i : nat) l' :
  at_cursor e pre l post col -> (pre ++ l :: post) !! i = Some l' -> ed_line_length (Z.of_nat i) e = Some (Z.of_nat (length l')).
Proof. intros [[ps Hb] _ _ _ _] Hi. by eapply line_length_spec. Qed.

Lemma cursor_length e pre l post col :
  at_cursor e pre l post col -> ed_line_length (cursor_row e) e = Some (Z.of_nat (length l)).
Proof. intros H. rewrite (ac_row _ _ _ _ _ H). eapply ed_line_length_spec; [done|]. by apply list_lookup_middle. Qed.

Lemma cursor_num_lines e pre l post col :
  at_cursor e pre l post col -> num_lines (buffer e) = Z.of_nat (length pre) + 1 + Z.of_nat (length post).
Proof. intros [[ps Hb] _ _ _ _]. by eapply buf_rep_length. Qed.

(** The same text with another cursor. *)
Lemma at_cursor_move e e' pre l post pre' l' post' col col' :
  at_cursor e pre l post col -> pre' ++ l' :: post' = pre ++ l :: post ->
  buffer e' = buffer e -> mem e' = mem e -> cursor_row e' = Z.of_nat (length pre') -> cursor_col e' = Z.of_nat col' ->
  (col' <= length l')%nat -> at_cursor e' pre' l' post' col'.
Proof. intros [Ht Hn _ _ _] E Hb Hm Hr Hc Hle. split; try done; by rewrite E, ?Hb, ?Hm. Qed.

Lemma take_pred {X} (l : list X) x : take (length (l ++ [x]) - 1) (l ++ [x]) = l.
Proof. rewrite length_app, Nat.add_sub. by rewrite take_app_length. Qed.

Lemma drop_pred {X} (l : list X) x : drop (length (l ++ [x]) - 1) (l ++ [x]) = [x].
Proof. rewrite length_app, Nat.add_sub. by rewrite drop_app_length. Qed.

Lemma take_S_middle {X} n (l k : list X) x : length l = n -> take (S n) (l ++ x :: k) = l ++ [x].
Proof. intros <-. rewrite <- Nat.add_1_r, take_app_add. done. Qed.

Lemma drop_S_middle {X} n (l k : list X) x : length l = n -> drop (S n) (l ++ x :: k) = k.
Proof. intros <-. rewrite <- Nat.add_1_r, drop_app_add. done. Qed.

Lemma insert_char_gap c e b a :
  gap_rep e b a -> runs (heap_off (mem e) + edit_bytes b a) (insert_char c e) (fun e' => gap_rep e' (b ++ [c]) a /\ frame e e').
Proof.
  intros (pre & l & post & col & Hac & -> & ->). pose proof Hac as [[ps Hb] Hn Hr Hc Hle]. unfold insert_char. rewrite Hr, Hc.
  pose proof (gap_size pre l post col) as Hsz. pose proof (unlines_count (pre ++ l :: post)) as Hct. pose proof (unlines_size pre l post) as Hus.
  pose proof (unlines_count pre). pose proof (unlines_count post). unfold edit_bytes.
  assert (length (take col l) = col) as Ht by (rewrite length_take; lia).
  destruct (Z.eqb_spec c NL) as [->|Hne].
  - eapply runs_bind; [by eapply buf_insert_nl_spec|rewrite length_app; simpl; lia|]. intros r Hres Hu. rewrite length_app in Hu.
    apply runs_ret; [bytes|]. split; [|done].
    apply (gap_intro _ (pre ++ [take col l]) (drop col l) post 0).
    + split; simpl; [rewrite <- app_assoc; by destruct r| |rewrite length_app; simpl; lia|done|lia].
      rewrite <- app_assoc. apply Forall_app in Hn as [H1 [H2 H3]%Forall_cons_1]. apply Forall_app. split; [done|].
      constructor; [|constructor; [|done]]; rewrite <- (take_drop col l) in H2; set_solver.
    + by rewrite unlines_snoc, <- !app_assoc, app_nil_r.
    + done.
  - eapply runs_bind; [by eapply buf_insert_char_spec|lia|]. intros r Hres Hu. apply runs_ret; [bytes|]. split; [|done].
    apply (gap_intro _ pre (take col l ++ c :: drop col l) post (S col)).
    + split; simpl; [by destruct r| |done|rewrite Hc; lia|rewrite length_app; simpl; rewrite length_drop; lia].
      apply Forall_app in Hn as [H1 [H2 H3]%Forall_cons_1]. apply Forall_app. split; [done|]. constructor; [|done].
      rewrite <- (take_drop col l) in H2. set_solver.
    + rewrite <- app_assoc. f_equal. symmetry. by apply take_S_middle.
    + f_equal. symmetry. by apply drop_S_middle.
Qed.

Lemma deleted_nl col pre l post : Forall (fun l => NL ∉ l) (pre ++ l :: post) -> Forall (fun l => NL ∉ l) (deleted col pre l post).
Proof.
  intros [H1 [H2 H3]%Forall_cons_1]%Forall_app. unfold deleted. case_decide.
  - apply Forall_app. split; [done|]. constructor; [|done]. rewrite <- (take_drop col l) in H2.
    assert (drop (S col) l = drop 1 (drop col l)) as -> by (by rewrite drop_drop, Nat.add_1_r).
    intros [Hin|Hin]%elem_of_app; [set_solver|]. apply H2, elem_of_app. right.
    rewrite <- (take_drop 1 (drop col l)). set_solver.
  - destruct post as [|l1 post]; apply Forall_app; (split; [done|]); [by constructor|].
    apply Forall_cons_1 in H3 as [H3 H4]. constructor; [set_solver|done].
Qed.

Lemma take_S_drop {X} (l : list X) n : (0 < n <= length l)%nat -> exists x, take n l = take (n - 1) l ++ [x].
Proof.
  intros Hn. destruct (lookup_lt_is_Some_2 l (n - 1)) as [x Hx]; [lia|]. exists x.
  rewrite <- (take_S_r _ _ _ Hx). f_equal. lia.
Qed.

Lemma backspace_gap e b a :
  gap_rep e b a -> runs (heap_off (mem e) + edit_bytes b a) (backspace e) (fun e' => gap_rep e' (take (length b - 1) b) a /\ frame e e').
Proof.
  intros (pre & l & post & col & Hac & -> & ->). pose proof Hac as [[ps Hb] Hn Hr Hc Hle]. unfold backspace. rewrite Hc.
  pose proof (gap_size pre l post col) as Hsz. unfold edit_bytes.
  destruct (Z.ltb_spec 0 (Z.of_nat col)) as [Hpos|Hz].
  - rewrite Hr. replace (Z.of_nat col - 1) with (Z.of_nat (col - 1)) by lia.
    eapply runs_bind; [eapply buf_delete_char_spec; [exact Hb|lia]|lia|]. intros r Hres Hu. apply runs_ret; [bytes|]. split; [|done].
    pose proof (deleted_nl (col - 1) _ _ _ Hn) as Hn'. unfold deleted in *.
    rewrite decide_True in Hres, Hn' by lia. replace (S (col - 1)) with col in * by lia.
    assert (length (take (col - 1) l) = (col - 1)%nat) as Ht by (rewrite length_take; lia).
    apply (gap_intro _ pre (take (col - 1) l ++ drop col l) post (col - 1)).
    + split; simpl; [by destruct r|done|done|done|rewrite length_app; lia].
    + destruct (take_S_drop l col) as [x Hx]; [lia|]. rewrite Hx, app_assoc, take_pred. f_equal.
      by rewrite take_app_length' by lia.
    + by rewrite drop_app_length' by lia.
  - assert (col = 0%nat) as -> by lia. destruct (Z.ltb_spec 0 (cursor_row e)) as [Hrow|Hrow].
    + destruct (exists_last (l := pre)) as (pre0 & l0 & ->); [intros ->; simpl in *; lia|].
      rewrite length_app in Hr. simpl in Hr. rewrite Hr.
      replace (Z.of_nat (length pre0 + 1) - 1) with (Z.of_nat (length pre0)) by lia. rewrite <- app_assoc in Hb, Hn, Hsz at 1.
      eapply runs_lift; [eapply ed_line_length_spec; [exact Hac|]; rewrite <- app_assoc; by apply list_lookup_middle|].
      eapply runs_bind; [eapply buf_delete_char_spec; [exact Hb|lia]|simpl in *; lia|]. intros r Hres Hu. apply runs_ret; [bytes|]. split; [|done].
      pose proof (deleted_nl (length l0) _ _ _ Hn) as Hn'. unfold deleted in *. rewrite decide_False in Hres, Hn' by lia. simpl in Hres, Hn'.
      apply (gap_intro _ pre0 (l0 ++ l) post (length l0)).
      * split; simpl; [by destruct r|done|done|done|rewrite length_app; lia].
      * simpl. rewrite app_nil_r, unlines_snoc, take_app_length. rewrite (app_assoc _ l0). by rewrite take_pred.
      * by rewrite drop_app_length.
    + apply runs_ret; [bytes|]. split; [|done]. destruct pre; [|simpl in *; lia]. apply (gap_intro _ [] l post 0); done.
Qed.

Lemma cut_col_id e pre l post col : at_cursor e pre l post col -> cut_col e = Some e.
Proof.
  intros H. unfold cut_col. rewrite (cursor_length _ _ _ _ _ H). simpl.
  replace (Z.of_nat (length l) <? cursor_col e) with false; [done|]. destruct H as [_ _ _ -> Hle]. lia.
Qed.

Lemma delete_char_gap e b a :
  gap_rep e b a -> runs (heap_off (mem e) + edit_bytes b a) (delete_char e) (fun e' => gap_rep e' b (drop 1 a) /\ frame e e').
Proof.
  intros (pre & l & post & col & Hac & -> & ->). pose proof Hac as [[ps Hb] Hn Hr Hc Hle]. unfold delete_char. rewrite Hr, Hc.
  pose proof (gap_size pre l post col) as Hsz. unfold edit_bytes.
  eapply runs_bind; [by eapply buf_delete_char_spec|lia|]. intros r Hres Hu.
  assert (exists l' post', deleted col pre l post = pre ++ l' :: post' /\ take col l' = take col l /\ (col <= length l')%nat
            /\ drop col l' ++ more_lines post' = drop 1 (drop col l ++ more_lines post)) as (l' & post' & E & Et & Hl' & Ed).
  { unfold deleted. case_decide as Hd.
    - assert (length (take col l) = col) as Ht by (rewrite length_take; lia).
      exists (take col l ++ drop (S col) l), post. split; [done|].
      split; [rewrite take_app_le by lia; apply take_ge; lia|]. split; [rewrite length_app; lia|].
      destruct (lookup_lt_is_Some_2 l col Hd) as [x Hx]. rewrite (drop_S _ _ _ Hx). simpl. f_equal.
      by rewrite drop_app_length' by lia.
    - assert (col = length l) as -> by lia. rewrite firstn_all, drop_all. destruct post as [|l1 post].
      + exists l, []. splits; try done. by rewrite firstn_all. by rewrite drop_all.
      + exists (l ++ l1), post. split; [done|]. split; [by rewrite take_app_length|]. split; [rewrite length_app; lia|].
        by rewrite drop_app_length. }
  pose proof (deleted_nl col _ _ _ Hn) as Hn'. rewrite E in Hres, Hn'.
  assert (at_cursor (set_text r e) pre l' post' col) as Hac' by (split; simpl; try done; by destruct r).
  rewrite (cut_col_id _ _ _ _ _ Hac'). apply runs_ret; [bytes|]. split; [|done]. apply (gap_intro _ pre l' post' col); [done|by rewrite Et|by rewrite Ed].
Qed.

Lemma move_left_gap e b a :
  gap_rep e b a ->
  exists e', move_left e = Some e' /\ gap_rep e' (take (length b - 1) b) (drop (length b - 1) b ++ a).
Proof.
  intros (pre & l & post & col & Hac & -> & ->). pose proof Hac as [_ _ Hr Hc Hle]. unfold move_left. rewrite Hc.
  destruct (Z.ltb_spec 0 (Z.of_nat col)) as [Hpos|Hz].
  - destruct (take_S_drop l col) as [x Hx]; [lia|]. rewrite Hx, app_assoc, take_pred, drop_pred. eexists. split; [done|].
    apply (gap_intro _ pre l post (col - 1)); [|done|].
    + eapply at_cursor_move; [exact Hac|done|done|done|done|simpl; lia|lia].
    + simpl. rewrite <- (take_drop col l) at 2. rewrite Hx, <- !app_assoc.
      by rewrite drop_app_length' by (rewrite length_take; lia).
  - assert (col = 0%nat) as -> by lia. destruct (Z.ltb_spec 0 (cursor_row e)) as [Hrow|Hrow].
    + destruct (exists_last (l := pre)) as (pre0 & l0 & ->); [intros ->; simpl in *; lia|].
      rewrite length_app in Hr. simpl in Hr. rewrite Hr.
      replace (Z.of_nat (length pre0 + 1) - 1) with (Z.of_nat (length pre0)) by lia.
      rewrite (ed_line_length_spec _ _ _ _ _ (length pre0) l0 Hac) by (rewrite <- app_assoc; by apply list_lookup_middle).
      eexists. split; [done|]. rewrite app_nil_r, unlines_snoc, (app_assoc _ l0), take_pred, drop_pred.
      apply (gap_intro _ pre0 l0 (l :: post) (length l0)); [|by rewrite firstn_all|by rewrite drop_all].
      eapply at_cursor_move; [exact Hac|by rewrite <- app_assoc|done..].
    + destruct pre; [|simpl in *; lia]. exists e. split; [done|]. apply (gap_intro _ [] l post 0); done.
Qed.

Lemma move_right_gap e b a :
  gap_rep e b a -> exists e', move_right e = Some e' /\ gap_rep e' (b ++ take 1 a) (drop 1 a).
Proof.
  intros (pre & l & post & col & Hac & -> & ->). pose proof Hac as [_ _ Hr Hc Hle]. unfold move_right.
  rewrite (cursor_length _ _ _ _ _ Hac), (cursor_num_lines _ _ _ _ _ Hac). simpl. rewrite Hc, Hr.
  destruct (Z.ltb_spec (Z.of_nat col) (Z.of_nat (length l))) as [Hlt|Hge].
  - eexists. split; [done|]. destruct (lookup_lt_is_Some_2 l col) as [x Hx]; [lia|]. rewrite (drop_S _ _ _ Hx). simpl.
    apply (gap_intro _ pre l post (S col)); [|by rewrite (take_S_r _ _ _ Hx), <- app_assoc|done].
    eapply at_cursor_move; [exact Hac|done|done|done|done|simpl; lia|lia].
  - assert (col = length l) as -> by lia. rewrite firstn_all, drop_all. destruct post as [|l1 post]; simpl length.
    + case_match eqn:Ew; [bool_prop; lia|].
      exists e. split; [done|]. apply (gap_intro _ pre l [] (length l)); [done|by rewrite firstn_all, app_nil_r|by rewrite drop_all].
    + case_match eqn:Ew; [|bool_prop; lia].
      eexists. split; [done|]. simpl. apply (gap_intro _ (pre ++ [l]) l1 post 0).
      * eapply at_cursor_move; [exact Hac|by rewrite <- app_assoc|done|done|simpl; rewrite length_app; simpl; lia|done|lia].
      * by rewrite unlines_snoc, <- !app_assoc, app_nil_r.
      * done.
Qed.

(** C24: the editor refines a gap buffer, the text [b] before the cursor and the text [a] behind
    it, lines and line feeds included: inserting appends to [b], backspace takes the last
    character of [b] away, deleting the first of [a], and moving left or right passes one
    character from one side to the other, whatever lines and arrays it takes; each
    returns, except that an edit ends the program with code 1 when its memory is used up, that
    is, when fewer than 8 bytes for each character of the text and 100 more are left of its
    64 KB; an edit takes no more than that. *)
Theorem editor_refines_gap e b a :
  gap_rep e b a ->
  let lim := heap_off (mem e) + edit_bytes b a in
  (forall c, runs lim (insert_char c e) (fun e' => gap_rep e' (b ++ [c]) a))
  /\ runs lim (backspace e) (fun e' => gap_rep e' (take (length b - 1) b) a)
  /\ runs lim (delete_char e) (fun e' => gap_rep e' b (drop 1 a))
  /\ (exists e', move_left e = Some e' /\ gap_rep e' (take (length b - 1) b) (drop (length b - 1) b ++ a))
  /\ (exists e', move_right e = Some e' /\ gap_rep e' (b ++ take 1 a) (drop 1 a)).
Proof.
  intros H lim. splits.
  - intros c. eapply runs_mono; [by apply insert_char_gap|done|]. by intros e' [? _].
  - eapply runs_mono; [by apply backspace_gap|done|]. by intros e' [? _].
  - eapply runs_mono; [by apply delete_char_gap|done|]. by intros e' [? _].
  - by apply move_left_gap.
  - by apply move_right_gap.
Qed.

(** ** Other moves keep the text *)

(** The text of the editor: [e] shows the lines [ls]. *)
Definition shows (e : Editor) (ls : list (list Z)) : Prop :=
  exists pre l post col, at_cursor e pre l post col /\ ls = pre ++ l :: post.

Lemma shows_gap e b a : gap_rep e b a -> exists ls, shows e ls.
Proof. intros (pre & l & post & col & H & _). exists (pre ++ l :: post). by exists pre, l, post, col. Qed.

(** A cursor on a line of the text. *)
Lemma shows_at e pre l post col e' (i col' : nat) l' :
  at_cursor e pre l post col -> buffer e' = buffer e -> mem e' = mem e ->
  (pre ++ l :: post) !! i = Some l' -> cursor_row e' = Z.of_nat i -> cursor_col e' = Z.of_nat col' -> (col' <= length l')%nat ->
  shows e' (pre ++ l :: post).
Proof.
  intros Hac Hb Hm Hi Hr Hc Hle. destruct (lookup_split _ _ _ Hi) as (pre' & post' & E & <-).
  exists pre', l', post', col'. split; [|done]. by eapply at_cursor_move.
Qed.

Lemma cut_col_shows e pre l post col e1 (i : nat) l' :
  at_cursor e pre l post col -> buffer e1 = buffer e -> mem e1 = mem e -> cursor_col e1 = cursor_col e ->
  (pre ++ l :: post) !! i = Some l' -> cursor_row e1 = Z.of_nat i ->
  exists e', cut_col e1 = Some e' /\ shows e' (pre ++ l :: post) /\ (e' = e1 \/ exists n, e' = e1 <| cursor_col := n |>).
Proof.
  intros Hac Hb Hm Hc Hi Hr. unfold cut_col, ed_line_length. rewrite Hb, Hm, Hr.
  assert (line_length (buffer e) (Z.of_nat i) (mem e) = Some (Z.of_nat (length l'))) as -> by (by apply (ed_line_length_spec _ _ _ _ _ i l' Hac)).
  simpl. eexists. split; [done|]. pose proof (ac_col _ _ _ _ _ Hac) as Hcc. rewrite Hc, Hcc.
  destruct (Z.ltb_spec (Z.of_nat (length l')) (Z.of_nat col)).
  - split; [|right; by eexists]. by eapply (shows_at _ _ _ _ _ _ i (length l')); eauto.
  - split; [|by left]. eapply (shows_at _ _ _ _ _ _ i col); eauto; [congruence|lia].
Qed.

(** What a move promises. *)
Definition moves (f : Editor -> option Editor) : Prop :=
  forall e ls, shows e ls -> exists e', f e = Some e' /\ shows e' ls /\ frame e e' /\ mem e' = mem e.

Lemma move_left_moves : moves move_left.
Proof.
  intros e ls (pre & l & post & col & Hac & ->). pose proof Hac as [_ _ Hr Hc Hle]. unfold move_left.
  destruct (Z.ltb_spec 0 (cursor_col e)).
  - eexists. split; [done|]. split; [|done].
    eapply (shows_at _ _ _ _ _ _ (length pre) (col - 1)); [exact Hac|done|done|by apply list_lookup_middle|done|simpl; lia|lia].
  - destruct (Z.ltb_spec 0 (cursor_row e)).
    + destruct (exists_last (l := pre)) as (pre0 & l0 & ->); [intros ->; simpl in *; lia|].
      rewrite length_app in Hr. simpl in Hr. rewrite Hr. replace (Z.of_nat (length pre0 + 1) - 1) with (Z.of_nat (length pre0)) by lia.
      assert (((pre0 ++ [l0]) ++ l :: post) !! length pre0 = Some l0) as Hi by (rewrite <- app_assoc; by apply list_lookup_middle).
      rewrite (ed_line_length_spec _ _ _ _ _ _ l0 Hac Hi). eexists. split; [done|]. split; [|done].
      by eapply (shows_at _ _ _ _ _ _ (length pre0) (length l0)).
    + exists e. split; [done|]. split; [|done]. by exists pre, l, post, col.
Qed.

Lemma move_right_moves : moves move_right.
Proof.
  intros e ls (pre & l & post & col & Hac & ->). pose proof Hac as [_ _ Hr Hc Hle]. unfold move_right.
  rewrite (cursor_length _ _ _ _ _ Hac), (cursor_num_lines _ _ _ _ _ Hac). simpl.
  destruct (Z.ltb_spec (cursor_col e) (Z.of_nat (length l))); [|case_match eqn:Ew; bool_prop]; eexists; (split; [done|]); (split; [|done]).
  - eapply (shows_at _ _ _ _ _ _ (length pre) (S col)); [exact Hac|done|done|by apply list_lookup_middle|done|simpl; lia|lia].
  - destruct post as [|l1 post]; [simpl in *; lia|].
    eapply (shows_at _ _ _ _ _ _ (S (length pre)) 0 l1); [exact Hac|done|done| |simpl; lia|done|lia].
    rewrite lookup_app_r by lia. by replace (S (length pre) - length pre)%nat with 1%nat by lia.
  - by exists pre, l, post, col.
Qed.

Lemma cut_col_moves e pre l post col (i : nat) l' :
  at_cursor e pre l post col -> (pre ++ l :: post) !! i = Some l' ->
  exists e', cut_col (e <| cursor_row := Z.of_nat i |>) = Some e' /\ shows e' (pre ++ l :: post) /\ frame e e' /\ mem e' = mem e.
Proof.
  intros Hac Hi. destruct (cut_col_shows e pre l post col (e <| cursor_row := Z.of_nat i |>) i l') as (e' & He & Hs & Hor); try done.
  exists e'. split; [done|]. split; [done|]. by destruct Hor as [-> | [n ->]].
Qed.

Lemma move_up_moves : moves move_up.
Proof.
  intros e ls (pre & l & post & col & Hac & ->). pose proof Hac as [_ _ Hr Hc Hle]. unfold move_up.
  destruct (Z.ltb_spec 0 (cursor_row e)); [|exists e; split; [done|]; split; [by exists pre, l, post, col|done]].
  destruct (lookup_lt_is_Some_2 (pre ++ l :: post) (length pre - 1)) as [l' Hl']; [rewrite length_app; lia|].
  replace (cursor_row e - 1) with (Z.of_nat (length pre - 1)) by lia. by eapply cut_col_moves.
Qed.

Lemma move_down_moves : moves move_down.
Proof.
  intros e ls (pre & l & post & col & Hac & ->). pose proof Hac as [_ _ Hr Hc Hle]. unfold move_down.
  rewrite (cursor_num_lines _ _ _ _ _ Hac).
  destruct (Z.ltb_spec (cursor_row e + 1) (Z.of_nat (length pre) + 1 + Z.of_nat (length post)));
    [|exists e; split; [done|]; split; [by exists pre, l, post, col|done]].
  destruct (lookup_lt_is_Some_2 (pre ++ l :: post) (length pre + 1)) as [l' Hl']; [rewrite length_app; simpl; lia|].
  replace (cursor_row e + 1) with (Z.of_nat (length pre + 1)) by lia. by eapply cut_col_moves.
Qed.

Lemma goto_moves : moves goto_line_start /\ moves goto_line_end /\ moves goto_first_line /\ moves goto_last_line.
Proof.
  splits; intros e ls (pre & l & post & col & Hac & ->); pose proof Hac as [_ _ Hr Hc Hle].
  - eexists. split; [done|]. split; [|done].
    eapply (shows_at _ _ _ _ _ _ (length pre) 0); [exact Hac|done|done|by apply list_lookup_middle|done|done|lia].
  - unfold goto_line_end. rewrite (cursor_length _ _ _ _ _ Hac). eexists. split; [done|]. split; [|done].
    eapply (shows_at _ _ _ _ _ _ (length pre) (length l)); [exact Hac|done|done|by apply list_lookup_middle|done|done|lia].
  - eexists. split; [done|]. split; [|done].
    destruct (lookup_lt_is_Some_2 (pre ++ l :: post) 0) as [l' Hl']; [rewrite length_app; simpl; lia|].
    eapply (shows_at _ _ _ _ _ _ 0 0); [exact Hac|done|done|done|done|done|lia].
  - unfold goto_last_line. set (e1 := e <| cursor_row := _ |>). cbv zeta.
    set (i := (length pre + length post)%nat).
    destruct (lookup_lt_is_Some_2 (pre ++ l :: post) i) as [l' Hl']; [rewrite length_app; simpl; lia|].
    assert (cursor_row e1 = Z.of_nat i) as Hi by (simpl; rewrite (cursor_num_lines _ _ _ _ _ Hac); lia).
    assert (ed_line_length (cursor_row e1) e1 = Some (Z.of_nat (length l'))) as ->.
    { rewrite Hi. change (ed_line_length (Z.of_nat i) e = Some (Z.of_nat (length l'))). by eapply ed_line_length_spec. }
    eexists. split; [done|]. split; [|done]. by eapply (shows_at _ _ _ _ _ _ i (length l')).
Qed.

(** ** Keys *)

Definition strings_ok (e : Editor) : Prop :=
  (exists l, str_rep (filename e) l) /\ (exists l, str_rep (message e) l) /\ (exists l, str_rep (cmd_line e) l).

Definition ed_ok (e : Editor) : Prop := (exists ls, shows e ls) /\ strings_ok e /\ 0 <= top_row e.

Lemma shows_to_gap e ls : shows e ls -> exists b a, gap_rep e b a.
Proof. intros (pre & l & post & col & Hac & _). eexists _, _. by apply (gap_intro _ pre l post col). Qed.

(** The same text, with more memory used. *)
Lemma shows_ext e e' ls :
  shows e ls -> buffer e' = buffer e -> cursor_row e' = cursor_row e -> cursor_col e' = cursor_col e -> ext (mem e) (mem e') ->
  shows e' ls.
Proof.
  intros (pre & l & post & col & [[ps Hb] Hn Hr Hc Hle] & ->) Eb Er Ec Hext. exists pre, l, post, col. split; [|done].
  split; [|done|congruence|congruence|done]. exists ps. simpl. rewrite Eb. by eapply buf_rep_ext.
Qed.

Lemma shows_off e ls : shows e ls -> 0 <= heap_off (mem e).
Proof. intros (pre & l & post & col & [[ps Hb] _ _ _ _] & _). apply Hb. Qed.

Lemma shows_same e e' ls :
  shows e ls -> buffer e' = buffer e -> cursor_row e' = cursor_row e -> cursor_col e' = cursor_col e -> mem e' = mem e -> shows e' ls.
Proof. intros H ? ? ? Hm. eapply shows_ext; [done..|]. rewrite Hm. apply ext_refl. by eapply shows_off. Qed.

Lemma frame_ok e e' : strings_ok e -> frame e e' -> strings_ok e'.
Proof. intros (H1 & H2 & H3) (_ & Hf & Hm & Hc & _). unfold strings_ok. by rewrite Hf, Hm, Hc. Qed.

(** *** Saving *)

Definition SAVE_FLAGS : Z := Z.lor (Z.lor O_WRONLY O_CREAT) O_TRUNC.

(** The writes of lines, each with an answer that [took] accepts for the bytes written. *)
Inductive written (took : list Z -> Z -> Prop) (fd : Z) : list (list Z) -> list event -> Prop :=
| written_nil : written took fd [] []
| written_cons l ls evs (r1 : resp (Write fd l)) (r2 : resp (Write fd [NL])) :
    took l r1 -> took [NL] r2 -> written took fd ls evs ->
    written took fd (l :: ls) (mk_event (Write fd l) r1 :: mk_event (Write fd [NL]) r2 :: evs).

(** Between the traces [tr] and [tr'] the lines [ls], and nothing else, were written to [path]. *)
Definition saved (took : list Z -> Z -> Prop) (path : list Z) (ls : list (list Z)) (tr tr' : list event) : Prop :=
  exists (fd : resp (Open path SAVE_FLAGS)) evs (r : resp (Close fd)),
    0 <= fd /\ written took fd ls evs /\ tr' = tr ++ mk_event (Open path SAVE_FLAGS) fd :: evs ++ [mk_event (Close fd) r].

(** What the code tests, and what it takes for the bytes to be in the file. *)
Definition no_error (_ : list Z) (r : Z) : Prop := 0 <= r.
Definition all_bytes (bs : list Z) (r : Z) : Prop := r = Z.of_nat (length bs).

(** A kernel that writes to a file all bytes or none: descriptors of files are 3 and more. *)
Definition writes_whole (c : call) : resp c -> Prop :=
  match c with
  | Open _ _ => fun fd => fd < 0 \/ 3 <= fd
  | Write fd bs => fun r => 3 <= fd -> r < 0 \/ r = Z.of_nat (length bs)
  | _ => fun _ => True
  end.

Lemma written_whole fd ls evs :
  3 <= fd -> written no_error fd ls evs -> Forall (answered writes_whole) evs -> written all_bytes fd ls evs.
Proof.
  intros Hfd. induction 1 as [|l ls evs r1 r2 H1 H2 _ IH]; intros He; [constructor|].
  apply Forall_cons in He as [Ha1 [Ha2 He]%Forall_cons]. unfold answered, no_error, all_bytes in *. simpl in Ha1, Ha2.
  constructor; [|apply Ha2 in Hfd; simpl in *; lia|by apply IH]. apply Ha1 in Hfd. lia.
Qed.

Lemma saved_whole path ls tr tr' : saved no_error path ls tr tr' -> goes_on writes_whole tr tr' -> saved all_bytes path ls tr tr'.
Proof.
  intros (fd & evs & r & Hfd & Hw & ->) (evs' & E & Ha). apply app_inv_head in E as <-.
  apply Forall_cons in Ha as [Hf [Ha _]%Forall_app]. unfold answered in Hf. simpl in Hf.
  exists fd, evs, r. split; [done|]. split; [|done]. apply written_whole; [|done|done].
  destruct Hf; [|done]. change (resp (Open path SAVE_FLAGS)) with Z in *. lia.
Qed.

Lemma str_rep_written s l : str_rep s l -> take (Z.to_nat (len_ s)) (c_str s) = l.
Proof.
  intros Hs. destruct (c_str_chars _ _ Hs) as [r ->]. rewrite (proj1 (str_rep_len _ _ Hs)), Nat2Z.id. apply take_app_length.
Qed.

Section Keys.
Variable ok : forall c, resp c -> Prop.

Lemma wp_save_loop b a ps before todo fd tr Q X :
  buf_rep b a ps (before ++ todo) ->
  (forall tr', Q false tr') ->
  (forall evs (r : resp (Close fd)), written no_error fd todo evs -> Q true (tr ++ evs ++ [mk_event (Close fd) r])) ->
  wp ok (save_loop (length todo) (Z.of_nat (length before)) fd b a) tr Q X.
Proof.
  intros Hb HF HT. revert before tr Hb HT. induction todo as [|l todo IH]; intros before tr Hb HT; cbn [length save_loop].
  - apply wp_bind, wp_trap. intros r _. apply (HT [] r). constructor.
  - destruct (line_at_spec _ _ _ _ (length before) l Hb (list_lookup_middle _ _ _ _ eq_refl)) as (p & s & Hla & _ & _ & Hrep).
    apply wp_bind, wp_lift. exists (p, s). split; [done|]. rewrite (str_rep_written _ _ Hrep).
    apply wp_bind, wp_trap. intros r1 _. destruct (Z.ltb_spec r1 0); [by apply wp_bind, wp_trap; intros r _; apply HF|].
    apply wp_bind, wp_trap. intros r2 _. destruct (Z.ltb_spec r2 0); [by apply wp_bind, wp_trap; intros r _; apply HF|].
    replace (Z.of_nat (length before) + 1) with (Z.of_nat (length (before ++ [l]))) by (rewrite length_app; simpl; lia).
    apply IH; [by rewrite <- app_assoc|]. intros evs r Hw. rewrite <- !app_assoc. simpl.
    apply (HT (mk_event (Write fd l) r1 :: mk_event (Write fd [NL]) r2 :: evs) r). by constructor.
Qed.

Lemma wp_save_file e ls path tr Q X :
  shows e ls -> (forall tr', Q false tr') -> (forall tr', saved no_error path ls tr tr' -> Q true tr') ->
  wp ok (save_file path (buffer e) (mem e)) tr Q X.
Proof.
  intros (pre & l & post & col & [[ps Hb] _ _ _ _] & ->) HF HT. unfold save_file. apply wp_bind, wp_trap. intros fd _.
  destruct (Z.ltb_spec fd 0); [apply HF|]. simpl in Hb. rewrite (num_lines_spec _ _ _ _ Hb), Nat2Z.id.
  apply (wp_save_loop _ _ ps [] (pre ++ l :: post)); [done|done|]. intros evs r Hw. apply HT. exists fd, evs, r.
  split; [done|]. split; [done|]. by rewrite <- app_assoc.
Qed.

Lemma wp_status_message m t e ls tr Q (X : Z -> list event -> Prop) :
  shows e ls -> strings_ok e -> cstring m = Some t -> Z.of_nat (length t) <= 39 ->
  (forall e', shows e' ls -> strings_ok e' -> modified e' = modified e -> top_row e' = top_row e -> cmd_line e' = cmd_line e ->
     heap_off (mem e') <= heap_off (mem e) + 100 -> Q e' tr) ->
  (HEAP_SIZE < heap_off (mem e) + 100 -> X 1 tr) -> wp ok (status_message m e) tr Q X.
Proof.
  intros Hs (Hf & [lm Hm] & Hc) Ht Hl HQ HX. unfold status_message. apply wp_bind.
  eapply wp_runs; [apply (str_set_spec m t (message e) lm); [done|by eapply shows_off|done|lia]| |].
  - intros [s a] [Hrep Hext] Hu. simpl in *. apply HQ; simpl; try done; [by eapply shows_ext| |lia].
    split; [done|]. split; [by exists t|done].
  - intros Hlt. apply HX. lia.
Qed.
End Keys.

Lemma pv_strcmp_eq a b : 0 ∉ a -> 0 ∉ b -> pv_strcmp a b = 0 -> a = b.
Proof.
  revert b. induction a as [|x a IH]; intros [|y b] Ha Hb; simpl; try done; unfold char_at; simpl.
  - intros. assert (y = 0) by lia. set_solver.
  - intros. assert (x = 0) by lia. set_solver.
  - destruct (Z.eqb_spec x y) as [->|Hne]; [|lia]. intros H. f_equal. apply IH; set_solver.
Qed.

(** *** What a key may do *)

(** The name of the file. *)
Definition file_name (e : Editor) : list Z := until_nul (c_str (filename e)).

(** Memory that a key may take in an editor with the lines [ls]. *)
Definition key_bytes (e : Editor) (ls : list (list Z)) : Z :=
  8 * Z.of_nat (length (unlines ls)) + 2 * len_ (cmd_line e) + 100.

(** Memory is used up: the program ends with code 1, and a key may take more than is left. *)
Definition exhausted (e : Editor) (code : Z) (_ : list event) : Prop :=
  code = 1 /\ forall ls, shows e ls -> HEAP_SIZE < heap_off (mem e) + key_bytes e ls.

(** What a key adds: memory, and at most a character to the text and to the command line. *)
Definition grows (e e' : Editor) : Prop :=
  forall ls, shows e ls ->
    heap_off (mem e') <= heap_off (mem e) + key_bytes e ls
    /\ len_ (cmd_line e') <= len_ (cmd_line e) + 1
    /\ exists ls', shows e' ls' /\ (length (unlines ls') <= S (length (unlines ls)))%nat.

(** After a key the editor is well formed; it is unmodified only with the text it had when it
    was unmodified, or with the text that was just saved; it quits only when it was
    unmodified, when the text was just saved, or on [q!]. *)
Definition key_post (e : Editor) (tr : list event) (r : Editor * bool) (tr' : list event) : Prop :=
  ed_ok r.1 /\ grows e r.1
  /\ (forall ls, shows e ls -> modified r.1 = false ->
        shows r.1 ls /\ (modified e = false \/ saved no_error (file_name e) ls tr tr'))
  /\ (r.2 = true ->
        modified e = false \/ (exists ls, shows e ls /\ saved no_error (file_name e) ls tr tr')
        \/ cstring (c_str (cmd_line e)) = Some (lit "q!")).

Lemma cmd_len e : strings_ok e -> 0 <= len_ (cmd_line e).
Proof. intros (_ & _ & [l Hl]). destruct (str_rep_len _ _ Hl). lia. Qed.

Lemma grows_same e e' :
  strings_ok e -> (forall ls, shows e ls -> shows e' ls) ->
  heap_off (mem e') <= heap_off (mem e) + 2 * len_ (cmd_line e) + 100 ->
  len_ (cmd_line e') <= len_ (cmd_line e) + 1 -> grows e e'.
Proof.
  intros Hs Hsh Hm Hc ls Hls. pose proof (cmd_len _ Hs). unfold key_bytes.
  split; [lia|]. split; [done|]. exists ls. split; [by apply Hsh|lia].
Qed.

(** A key that does not edit the text. *)
Lemma key_post_same e tr e' q tr' :
  ed_ok e' -> grows e e' -> (forall ls, shows e ls -> shows e' ls) -> modified e' = modified e ->
  (q = true -> modified e = false \/ cstring (c_str (cmd_line e)) = Some (lit "q!")) -> key_post e tr (e', q) tr'.
Proof.
  intros H1 Hg H2 H3 H4. split; [done|]. split; [done|]. split.
  - simpl. intros ls Hls Hm. split; [by apply H2|]. left. congruence.
  - simpl. intros Hq. destruct (H4 Hq); auto.
Qed.

(** A key that edits it. *)
Lemma key_post_edited e tr e' tr' : ed_ok e' -> grows e e' -> modified e' = true -> key_post e tr (e', false) tr'.
Proof. intros H1 Hg H2. split; [done|]. split; [done|]. simpl. by rewrite H2. Qed.

(** The text is determined by the editor. *)
Lemma str_rep_unique s l l' : str_rep s l -> str_rep s l' -> l = l'.
Proof.
  intros H H'. pose proof (str_rep_written _ _ H) as E. by rewrite (str_rep_written _ _ H') in E.
Qed.

Lemma buf_rep_unique b a ps ps' ls ls' : buf_rep b a ps ls -> buf_rep b a ps' ls' -> ls = ls'.
Proof.
  intros [_ [Hc [r Hr]] _ _ Hl] [_ [Hc' [r' Hr']] _ _ Hl'].
  assert (ps = ps') as <-.
  { assert (ps ++ r = ps' ++ r') as E by congruence. by apply app_inj_1 in E as [? _]; [|lia]. }
  clear -Hl Hl'. revert ls' Hl'. induction Hl as [|p l ps ls (s & Hs & Hrep) _ IH]; intros ls' Hl'; inversion Hl' as [|? l' ? ls2 (s' & Hs' & Hrep') Hl2]; [done|].
  subst. f_equal; [|by apply IH]. simplify_eq. by eapply str_rep_unique.
Qed.

Lemma shows_unique e ls ls' : shows e ls -> shows e ls' -> ls = ls'.
Proof.
  intros (pre & l & post & col & [[ps Hb] _ _ _ _] & ->) (pre' & l' & post' & col' & [[ps' Hb'] _ _ _ _] & ->).
  by eapply buf_rep_unique.
Qed.

Lemma gap_lines e b a ls : gap_rep e b a -> shows e ls -> length (unlines ls) = S (length b + length a).
Proof.
  intros (pre & l & post & col & Hac & -> & ->) Hs.
  assert (shows e (pre ++ l :: post)) as Hs' by (by exists pre, l, post, col).
  rewrite (shows_unique _ _ _ Hs Hs'). apply gap_size.
Qed.

Section HandleKey.
Variable ok : forall c, resp c -> Prop.

(** The end of [run_command]. *)
Lemma wp_command_end e0 e ls q tr tr' X :
  shows e0 ls -> strings_ok e0 -> shows e ls -> strings_ok e -> 0 <= top_row e ->
  heap_off (mem e) <= heap_off (mem e0) + 100 -> cmd_line e = cmd_line e0 ->
  (modified e = false -> modified e0 = false \/ saved no_error (file_name e0) ls tr tr') ->
  (q = true -> modified e0 = false \/ saved no_error (file_name e0) ls tr tr'
               \/ cstring (c_str (cmd_line e0)) = Some (lit "q!")) ->
  wp ok (c ← lift (str_clear (cmd_line e)); mret (mark_dirty (e <| mode := MODE_NORMAL |> <| cmd_line := c |>), q)) tr'
    (key_post e0 tr) X.
Proof.
  intros Hs0 Hstr0 Hs (Hf & Hm & [lc Hc]) Ht Hu Ecmd Hmod Hq. destruct (str_clear_spec _ _ Hc) as (c & Ecl & Hcl).
  apply wp_bind, wp_lift. exists c. split; [done|]. simpl. pose proof (cmd_len _ Hstr0) as Hc0.
  assert (shows (mark_dirty (e <| mode := MODE_NORMAL |> <| cmd_line := c |>)) ls) as Hsame by (by eapply shows_same).
  split; [split; [by exists ls|split; [|done]]; split; [done|split; [done|by exists []]]|].
  split; [|split; simpl].
  - apply grows_same; [done|intros ls' Hls'; by rewrite (shows_unique _ _ _ Hls' Hs0)|simpl; lia|].
    simpl. rewrite (proj1 (str_rep_len _ _ Hcl)). simpl. lia.
  - intros ls' Hls' Hm'. rewrite (shows_unique _ _ _ Hls' Hs0). split; [done|]. by apply Hmod.
  - intros Eq. destruct (Hq Eq) as [|[H|]]; [by left|right; left; by exists ls|by right; right].
Qed.

Lemma wp_run_command e tr : ed_ok e -> wp ok (run_command e) tr (key_post e tr) (exhausted e).
Proof.
  intros ([ls Hs] & Hstr & Ht). pose proof Hstr as (_ & _ & [lc Hc]). destruct (c_str_chars _ _ Hc) as [r Hr].
  assert (exists cmd, cstring (c_str (cmd_line e)) = Some cmd) as [cmd Hcmd].
  { rewrite Hr. clear. induction lc as [|x lc [t IH]]; simpl; [by eexists|]. case_match; [by eexists|]. rewrite IH. by eexists. }
  assert (0 ∉ cmd) as Hnz by (apply cstring_spec in Hcmd as (? & _ & ?); done).
  assert (HX : forall tr', HEAP_SIZE < heap_off (mem e) + 100 -> exhausted e 1 tr').
  { intros tr' Hlt. split; [done|]. intros ls' _. pose proof (cmd_len _ Hstr). unfold key_bytes. lia. }
  unfold run_command. apply wp_bind, wp_lift. exists cmd. split; [done|]. cbv zeta. apply wp_bind.
  match goal with |- wp _ _ _ ?K _ =>
    assert (Hend : forall e' q tr', shows e' ls -> strings_ok e' -> 0 <= top_row e' ->
              heap_off (mem e') <= heap_off (mem e) + 100 -> cmd_line e' = cmd_line e ->
              (modified e' = false -> modified e = false \/ saved no_error (file_name e) ls tr tr') ->
              (q = true -> modified e = false \/ saved no_error (file_name e) ls tr tr'
                 \/ cstring (c_str (cmd_line e)) = Some (lit "q!")) -> K (e', q) tr');
    [intros e' q tr' ? ? ? ? ? ? ?; by eapply wp_command_end|]; generalize dependent K
  end.
  intros K Hend.
  assert (Hmsg : forall m t tr', cstring m = Some t -> Z.of_nat (length t) <= 39 ->
            wp ok (e' ← status_message m e; mret (e', false)) tr' K (exhausted e)).
  { intros m t tr' Hm Hl. apply wp_bind. eapply wp_status_message; [done|done|done|done| |by apply HX].
    intros e' Hs' Hstr' Hmod' Htop' Hcmd' Hu'. apply Hend; [done|done|lia|done|done| |done]. rewrite Hmod'. by left. }
  destruct (pv_strcmp cmd (lit "w") =? 0).
  { destruct (len_ (filename e) =? 0); [by eapply Hmsg|]. apply wp_bind. eapply (wp_save_file ok e ls); [done| |].
    - intros tr'. by eapply Hmsg.
    - intros tr' Hsv. apply wp_bind.
      eapply (wp_status_message ok _ (lit "written") _ ls); [by eapply shows_same|done|done|done| |by apply HX].
      intros e' Hs' Hstr' Hmod' Htop' Hcmd' Hu'. apply Hend; [done|done|by rewrite Htop'|done|done| |done]. auto. }
  destruct (pv_strcmp cmd (lit "q") =? 0).
  { destruct (modified e) eqn:Em; [by eapply Hmsg|]. apply Hend; auto; lia. }
  destruct (pv_strcmp cmd (lit "wq") =? 0).
  { destruct (len_ (filename e) =? 0); [by eapply Hmsg|]. apply wp_bind. eapply (wp_save_file ok e ls); [done| |].
    - intros tr'. by eapply Hmsg.
    - intros tr' Hsv. apply Hend; [done|done|done|lia|done|by left|]. auto. }
  destruct (Z.eqb_spec (pv_strcmp cmd (lit "q!")) 0) as [Eq|]; [|by eapply Hmsg].
  apply Hend; [done|done|done|lia|done|by left|]. intros _. right. right. rewrite Hcmd. f_equal.
  apply pv_strcmp_eq; [done|by apply (bool_decide_unpack _)|done].
Qed.

(** A key that moves the cursor. *)
Lemma wp_moved f e e0 tr X :
  moves f -> ed_ok e -> frame e e0 -> mem e0 = mem e -> (forall ls, shows e ls -> shows e0 ls) ->
  wp ok (e' ← lift (f e0); mret (mark_dirty e')) tr (fun e' tr' => key_post e tr (e', false) tr') X.
Proof.
  intros Hf ([ls Hs] & Hstr & Ht) Hfr Hm0 H0. destruct (Hf e0 ls (H0 _ Hs)) as (e' & He & Hs' & Hfr' & Hm').
  apply wp_bind, wp_lift. exists e'. split; [done|]. simpl. pose proof (cmd_len _ Hstr) as Hc0.
  assert (frame e e') as Hfe by (unfold frame in *; intuition congruence).
  pose proof (frame_ok _ _ Hstr Hfe) as Hstr'. destruct Hfe as (_ & _ & _ & Hcmd & Hm & Htop).
  assert (forall ls', shows e ls' -> shows (mark_dirty e') ls') as Hsame.
  { intros ls' Hls'. rewrite (shows_unique _ _ _ Hls' Hs). by eapply shows_same. }
  apply key_post_same; [|apply grows_same; [done|done|simpl; rewrite Hm', Hm0; lia|simpl; rewrite Hcmd; lia]|done|done|done].
  split; [exists ls; by apply Hsame|]. split; [done|]. simpl. lia.
Qed.

(** A key that edits the text. *)
Lemma wp_edited (p : prog Editor) e e0 b a tr :
  ed_ok e -> gap_rep e0 b a -> (forall ls, shows e ls -> shows e0 ls) -> mem e0 = mem e -> cmd_line e0 = cmd_line e ->
  runs (heap_off (mem e0) + edit_bytes b a) p
    (fun e' => (exists b' a', gap_rep e' b' a' /\ (length b' + length a' <= S (length b + length a))%nat) /\ frame e e') ->
  wp ok (e' ← p; mret (edited e')) tr (fun e' tr' => key_post e tr (e', false) tr') (exhausted e).
Proof.
  intros ([ls Hs] & Hstr & Ht) Hg0 H0 Hm0 Hc0 Hp. pose proof (cmd_len _ Hstr) as Hcl.
  assert (forall ls, shows e ls -> edit_bytes b a <= key_bytes e ls /\ length (unlines ls) = S (length b + length a)) as Hb.
  { intros ls' Hls'. rewrite (gap_lines _ _ _ _ Hg0 (H0 _ Hls')). split; [|done]. unfold edit_bytes, key_bytes.
    rewrite (gap_lines _ _ _ _ Hg0 (H0 _ Hls')). lia. }
  apply wp_bind. eapply wp_runs; [exact Hp| |].
  - intros e' [(b' & a' & Hg & Hsz) Hfr] Hu. simpl in *.
    destruct (shows_gap _ _ _ Hg) as [ls' Hls']. pose proof (frame_ok _ _ Hstr Hfr) as Hstr'.
    destruct Hfr as (_ & _ & _ & Hcmd & _ & Htop). assert (shows (edited e') ls') as Hsh by (by eapply shows_same).
    apply key_post_edited; [|intros ls1 Hls1|done].
    + split; [by exists ls'|]. split; [done|]. simpl. lia.
    + destruct (Hb ls1 Hls1) as [Hle E]. simpl. rewrite Hcmd, <- Hm0. split; [lia|]. split; [lia|].
      exists ls'. split; [done|]. rewrite (gap_lines _ _ _ _ Hg Hls'). lia.
  - intros Hlt. split; [done|]. intros ls' Hls'. destruct (Hb ls' Hls'). rewrite <- Hm0. lia.
Qed.

(** A key that changes only the mode, the command line or the flags. *)
Lemma key_post_flags e tr e' tr' :
  ed_ok e -> buffer e' = buffer e -> cursor_row e' = cursor_row e -> cursor_col e' = cursor_col e -> ext (mem e) (mem e') ->
  filename e' = filename e -> message e' = message e -> (exists l, str_rep (cmd_line e') l) ->
  modified e' = modified e -> top_row e' = top_row e ->
  heap_off (mem e') <= heap_off (mem e) + 2 * len_ (cmd_line e) + 100 -> len_ (cmd_line e') <= len_ (cmd_line e) + 1 ->
  key_post e tr (e', false) tr'.
Proof.
  intros ([ls Hs] & Hstr & Ht) Eb Er Ec Hext Ef Em Hc Emod Etop Hu Hlen. pose proof Hstr as (Hf & Hm & _).
  apply key_post_same; [|apply grows_same; [done|intros; by eapply shows_ext|done|done]|intros; by eapply shows_ext|done|done].
  split; [exists ls; by eapply shows_ext|]. split; [|lia]. unfold strings_ok. by rewrite Ef, Em.
Qed.

Lemma ed_ok_off e : ed_ok e -> 0 <= heap_off (mem e).
Proof. intros ([ls Hs] & _). by eapply shows_off. Qed.

Ltac flags :=
  apply key_post_flags; simpl; try done; try (by apply ext_refl, ed_ok_off); try (by eexists); try lia.

Lemma wp_handle_command_mode ev e tr : ed_ok e -> wp ok (handle_command_mode ev e) tr (key_post e tr) (exhausted e).
Proof.
  intros Hok. pose proof Hok as ([ls0 Hs0] & Hstr & _). pose proof Hstr as (_ & _ & [lc Hc]).
  pose proof (cmd_len _ Hstr) as Hcl. pose proof (str_rep_len _ _ Hc) as [Hl _].
  unfold handle_command_mode. destruct ev as [|ch| | | | | | |]; try by (simpl; flags).
  - apply wp_bind. eapply wp_runs; [apply (append_char_spec ch _ lc); [done|by apply ed_ok_off]| |].
    + intros [s a] [Hs Hext] Hu. simpl in *. destruct (str_rep_len _ _ Hs) as [Hl' _]. rewrite length_app in Hl'. simpl in Hl'. flags.
    + intros Hlt. split; [done|]. intros ls _. unfold key_bytes. lia.
  - destruct (str_clear_spec _ _ Hc) as (c & Ecl & Hcl'). apply wp_bind, wp_lift. exists c. split; [done|]. simpl.
    destruct (str_rep_len _ _ Hcl') as [Hl' _]. simpl in Hl'. flags.
  - by apply wp_run_command.
  - destruct (Z.ltb_spec 0 (len_ (cmd_line e))).
    + destruct (truncate_spec (length lc - 1) _ _ Hc) as (c & Ecl & Hcl'); [lia|].
      replace (Z.of_nat (length lc - 1)) with (len_ (cmd_line e) - 1) in Ecl by lia.
      apply wp_bind, wp_lift. exists c. split; [done|]. simpl.
      destruct (str_rep_len _ _ Hcl') as [Hl' _]. rewrite length_take in Hl'. flags.
    + simpl. flags.
Qed.

Lemma wp_handle_insert_mode ev e tr :
  ed_ok e -> wp ok (handle_insert_mode ev e) tr (fun e' tr' => key_post e tr (e', false) tr') (exhausted e).
Proof.
  intros Hok. pose proof Hok as ([ls Hs] & Hstr & _). pose proof Hstr as (_ & _ & Hc). pose proof (cmd_len _ Hstr) as Hcl.
  destruct (shows_to_gap _ _ Hs) as (b & a & Hg).
  unfold handle_insert_mode. destruct ev as [|ch| | | | | | |].
  - simpl. flags.
  - eapply (wp_edited _ e e); try done. eapply runs_mono; [by apply insert_char_gap|done|].
    intros e' [? ?]. split; [|done]. eexists _, _. split; [done|]. rewrite length_app. simpl. lia.
  - simpl. flags.
  - eapply (wp_edited _ e e); try done. eapply runs_mono; [by apply insert_char_gap|done|].
    intros e' [? ?]. split; [|done]. eexists _, _. split; [done|]. rewrite length_app. simpl. lia.
  - eapply (wp_edited _ e e); try done. eapply runs_mono; [by apply backspace_gap|done|].
    intros e' [? ?]. split; [|done]. eexists _, _. split; [done|]. rewrite length_take. lia.
  - by apply wp_moved; [apply move_up_moves|..].
  - by apply wp_moved; [apply move_down_moves|..].
  - by apply wp_moved; [apply move_left_moves|..].
  - by apply wp_moved; [apply move_right_moves|..].
Qed.

Lemma wp_handle_normal_mode ev e tr :
  ed_ok e -> wp ok (handle_normal_mode ev e) tr (fun e' tr' => key_post e tr (e', false) tr') (exhausted e).
Proof.
  intros Hok. pose proof Hok as ([ls Hs] & Hstr & _). pose proof Hstr as (_ & _ & [lc Hc]). pose proof (cmd_len _ Hstr) as Hcl.
  assert (Hmv : forall f, moves f -> wp ok (e' ← lift (f (e <| pending_g := false |>)); mret (mark_dirty e')) tr
                 (fun e' tr' => key_post e tr (e', false) tr') (exhausted e)).
  { intros f Hf. apply wp_moved; [done|done|done|done|]. intros ls' Hls'. by eapply shows_same. }
  destruct goto_moves as (G1 & G2 & G3 & G4).
  unfold handle_normal_mode. destruct ev as [|ch| | | | | | |]; try (by simpl; flags);
    try (by apply Hmv; auto using move_up_moves, move_down_moves, move_left_moves, move_right_moves).
  unfold handle_normal_char.
  repeat case_match; try (by apply Hmv; auto using move_up_moves, move_down_moves, move_left_moves, move_right_moves);
    try (by simpl; flags).
  - assert (forall ls, shows e ls -> shows (e <| pending_g := false |>) ls) as Hs0 by (intros ls' Hls'; by eapply shows_same).
    destruct (shows_to_gap _ _ (Hs0 _ Hs)) as (b & a & Hg).
    eapply (wp_edited _ e (e <| pending_g := false |>)); try done. eapply runs_mono; [by apply delete_char_gap|done|].
    intros e' [? ?]. split; [|done]. eexists _, _. split; [done|]. rewrite length_drop. lia.
  - destruct (str_clear_spec _ _ Hc) as (c & Ecl & Hcl'). apply wp_bind, wp_lift. exists c. split; [done|]. simpl.
    destruct (str_rep_len _ _ Hcl') as [Hl' _]. simpl in Hl'. flags.
Qed.

Lemma wp_handle_key ev e tr : ed_ok e -> wp ok (handle_key ev e) tr (key_post e tr) (exhausted e).
Proof.
  intros Hok. unfold handle_key. destruct (mode e).
  - apply wp_bind. eapply wp_mono; [by apply wp_handle_normal_mode|done|done].
  - apply wp_bind. eapply wp_mono; [by apply wp_handle_insert_mode|done|done].
  - by apply wp_handle_command_mode.
Qed.
End HandleKey.

(** C25: the editor does not lose text silently, provided that the kernel writes to a file all
    bytes it is given or answers an error (the editor does not look for short writes) and that
    the editor has memory left: a key leaves the editor unmodified only with the text that
    was unmodified before, or after all bytes of all lines of the text, and nothing else, have
    been written to its file; and it makes the editor quit only in these cases or on the
    command [q!].  Without memory, that is with fewer than 8 bytes for each character of the text, 2
    for each of the command line and 100 more left, a key may end the editor with code 1. *)
Theorem no_silent_loss ev e ls tr :
  ed_ok e -> shows e ls ->
  wp writes_whole (handle_key ev e) tr
    (fun '(e', quit) tr' =>
       (modified e' = false -> shows e' ls /\ (modified e = false \/ saved all_bytes (file_name e) ls tr tr'))
       /\ (quit = true -> modified e = false \/ saved all_bytes (file_name e) ls tr tr'
             \/ cstring (c_str (cmd_line e)) = Some (lit "q!")))
    (fun code _ => code = 1 /\ HEAP_SIZE < heap_off (mem e) + key_bytes e ls).
Proof.
  intros Hok Hs. eapply wp_mono; [by apply wp_trace, wp_handle_key| |].
  - intros [e' q] tr' [(_ & _ & Hm & Hq) Hgo]. simpl in *. split.
    + intros Em. destruct (Hm _ Hs Em) as [? [?|Hsv]]; [auto|]. split; [done|]. right. by apply saved_whole.
    + intros Eq. destruct (Hq Eq) as [|[(ls' & Hs' & Hsv)|]]; [by left| |by right; right].
      right. left. rewrite (shows_unique _ _ _ Hs Hs'). by apply saved_whole.
  - intros code tr' [[-> Hx] _]. split; [done|]. by apply Hx.
Qed.

(** ** Rounds *)

Section Rounds.
Variable ok : forall c, resp c -> Prop.

(** Output cannot fail. *)
Definition quiet {A} (p : prog A) : Prop := forall tr Q X, (forall a tr', Q a tr') -> wp ok p tr Q X.

Lemma quiet_bind {A B} (p : prog A) (f : A -> prog B) : quiet p -> (forall a, quiet (f a)) -> quiet (p ≫= f).
Proof. intros Hp Hf tr Q X HQ. apply wp_bind, Hp. intros a tr'. by apply Hf. Qed.

Lemma quiet_trap c : quiet (trap c).
Proof. intros tr Q X HQ. apply wp_trap. auto. Qed.

Lemma quiet_putchar c : quiet (sys_putchar c).
Proof. exact (quiet_trap (Putchar c)). Qed.

Lemma quiet_ret {A} (a : A) : quiet (mret a).
Proof. intros tr Q X HQ. apply HQ. Qed.

Lemma quiet_put_chars cs : quiet (put_chars cs).
Proof. induction cs as [|c cs IH]; [apply quiet_ret|]. apply quiet_bind; [apply quiet_putchar|done]. Qed.

Lemma quiet_put_limited s n : quiet (put_limited s n).
Proof.
  revert n. induction s as [|c s IH]; intros n; [apply quiet_ret|]. cbn [put_limited]. case_match; [|apply quiet_ret].
  apply quiet_bind; [apply quiet_putchar|done].
Qed.

Lemma quiet_write_status e : quiet (write_status e).
Proof.
  unfold write_status.
  repeat first [progress intros | apply quiet_bind | apply quiet_putchar | apply quiet_ret | apply quiet_put_limited
               | apply quiet_put_chars | case_match].
Qed.

Lemma wp_refresh_rows n r e ls tr Q X :
  shows e ls -> 0 <= r -> (forall tr', Q tt tr') -> wp ok (refresh_rows n r e) tr Q X.
Proof.
  intros (pre & l & post & col & [[ps Hb] _ _ _ _] & ->) Hr HQ. simpl in Hb.
  revert r tr Hr. induction n as [|n IH]; intros r tr Hr; [apply HQ|]. cbn [refresh_rows]. apply wp_bind.
  rewrite (num_lines_spec _ _ _ _ Hb). destruct (Z.ltb_spec r (Z.of_nat (length (pre ++ l :: post)))).
  - destruct (lookup_lt_is_Some_2 (pre ++ l :: post) (Z.to_nat r)) as [l' Hl']; [lia|].
    destruct (line_at_spec _ _ _ _ _ _ Hb Hl') as (p & s & Hla & _). rewrite Z2Nat.id in Hla by done.
    apply wp_bind, wp_lift. exists (p, s). split; [done|]. unfold ui_write_line. apply wp_bind, quiet_put_chars. intros _ tr1.
    apply quiet_putchar. intros _ tr2. apply IH. lia.
  - apply quiet_putchar. intros _ tr1. apply IH. lia.
Qed.

Lemma scroll_shows e ls :
  shows e ls -> 0 <= top_row e ->
  let e' := scroll_to_cursor e in
  shows e' ls /\ 0 <= top_row e' <= cursor_row e' /\ cursor_row e' < top_row e' + 24
  /\ filename e' = filename e /\ message e' = message e /\ cmd_line e' = cmd_line e /\ mem e' = mem e.
Proof.
  intros Hs Ht. assert (0 <= cursor_row e) as Hr by (destruct Hs as (pre & l & post & col & [_ _ Hr _ _] & _); lia).
  unfold scroll_to_cursor. simpl.
  destruct (Z.ltb_spec (cursor_row e) (top_row e)); simpl;
    match goal with |- context [?x <=? ?y] => destruct (Z.leb_spec x y) end; simpl;
    (splits; [by eapply shows_same|lia|lia|lia|done|done|done|done]).
Qed.

(** Keys that were read: the answers of getchar other than 0. *)
Definition is_key (ev : event) : bool :=
  match ev_call ev as c return resp c -> bool with Getchar => fun r => negb (r =? 0) | _ => fun _ => false end (ev_resp ev).

Definition keys (tr : list event) : Z := Z.of_nat (length (filter is_key tr)).

Lemma keys_goes_on tr tr' : goes_on ok tr tr' -> keys tr <= keys tr'.
Proof. intros (evs & -> & _). unfold keys. rewrite filter_app, length_app. lia. Qed.

(** Memory that a session with [k] keys may have taken. *)
Definition bytes_after (k : Z) : Z := 5 * k * k + 103 * k + 115.

Lemma bytes_after_mono k k' : 0 <= k <= k' -> bytes_after k <= bytes_after k'.
Proof. unfold bytes_after. nia. Qed.

(** After [k] keys: at most [k] characters in the text and in the command line. *)
Definition after_keys (e : Editor) (k : Z) : Prop :=
  ed_ok e /\ 0 <= k /\ heap_off (mem e) <= bytes_after k /\ len_ (cmd_line e) <= k
  /\ exists ls, shows e ls /\ Z.of_nat (length (unlines ls)) <= k + 1.

Lemma after_keys_mono e k k' : after_keys e k -> k <= k' -> after_keys e k'.
Proof.
  intros (Hok & Hk & Hb & Hc & ls & Hs & Hl) Hle. pose proof (bytes_after_mono k k').
  split; [done|]. split; [lia|]. split; [lia|]. split; [lia|]. exists ls. split; [done|lia].
Qed.

Lemma key_bytes_after e k ls :
  heap_off (mem e) <= bytes_after k -> len_ (cmd_line e) <= k -> Z.of_nat (length (unlines ls)) <= k + 1 ->
  heap_off (mem e) + key_bytes e ls <= bytes_after (k + 1).
Proof. unfold key_bytes, bytes_after. nia. Qed.

Lemma after_keys_key e e' k : after_keys e k -> ed_ok e' -> grows e e' -> after_keys e' (k + 1).
Proof.
  intros (_ & Hk & Hb & Hc & ls & Hs & Hl) Hok' Hg. destruct (Hg ls Hs) as (Hu & Hc' & ls' & Hs' & Hl').
  pose proof (key_bytes_after e k ls Hb Hc Hl). split; [done|]. split; [lia|]. split; [lia|]. split; [lia|].
  exists ls'. split; [done|lia].
Qed.

(** The program ends with code 1 only when the keys may have used up the memory. *)
Definition ends_late (code : Z) (tr : list event) : Prop := code = 1 /\ HEAP_SIZE < bytes_after (keys tr).

Lemma exhausted_late e k code tr : after_keys e k -> exhausted e code tr -> k + 1 <= keys tr -> ends_late code tr.
Proof.
  intros (_ & Hk & Hb & Hc & ls & Hs & Hl) [-> Hx] Hkeys. split; [done|]. specialize (Hx ls Hs).
  pose proof (key_bytes_after e k ls Hb Hc Hl). pose proof (bytes_after_mono (k + 1) (keys tr)). lia.
Qed.

Definition session_post (r : Editor * bool) (tr : list event) : Prop := after_keys r.1 (keys tr).

Lemma wp_read_key e tr :
  after_keys e (keys tr) ->
  wp ok (ev ← get_key_event; match ev with KEYEV_NONE => _ ← sys_yield; mret (e, false) | _ => handle_key ev e end) tr
    session_post ends_late.
Proof.
  intros Haf. apply wp_bind. unfold get_key_event. apply wp_bind, wp_trap. intros c _. change (resp Getchar) with Z in c.
  set (tr1 := tr ++ [mk_event Getchar c]).
  assert (keys tr1 = keys tr + if c =? 0 then 0 else 1) as Hk1.
  { unfold tr1, keys. rewrite filter_app, length_app, filter_cons, filter_nil.
    destruct (c =? 0) eqn:E0; (case_decide as Hd; unfold is_key in Hd; simpl in Hd; rewrite E0 in Hd; simpl in *; [try done|try done]; lia). }
  destruct (Z.eqb_spec c 0) as [->|Hc].
  { simpl. intros r _. eapply after_keys_mono; [done|]. unfold keys in *. simpl in *. rewrite filter_app, length_app. lia. }
  assert (Hk : forall ev, wp ok (handle_key ev e) tr1 session_post ends_late).
  { intros ev. eapply wp_mono; [apply wp_trace, wp_handle_key, Haf| |].
    - intros [e' q] tr' [(Hok' & Hg & _) Hgo]. apply keys_goes_on in Hgo.
      eapply after_keys_mono; [by eapply after_keys_key|]. lia.
    - intros code tr' [Hx Hgo]. apply keys_goes_on in Hgo. eapply exhausted_late; [done|done|lia]. }
  assert (key_event c <> KEYEV_NONE) as Hne.
  { unfold key_event. replace (c =? 0) with false by lia. repeat case_match; done. }
  cbn [mbind prog_bind mret prog_ret wp]. destruct (key_event c); [done|apply Hk..].
Qed.

Lemma wp_povi_round e tr : after_keys e (keys tr) -> wp ok (povi_round e) tr session_post ends_late.
Proof.
  intros Haf. unfold povi_round. apply wp_bind. destruct (dirty e); [|by apply wp_read_key].
  unfold refresh. pose proof Haf as (([ls0 Hs0] & Hstr & Ht) & Hk & Hb & Hc & ls & Hs & Hl).
  destruct (scroll_shows e ls Hs Ht) as (Hs' & Ht' & _ & Ef & Em & Ec & Emem). set (e1 := scroll_to_cursor e) in *.
  eapply wp_mono with (Q := fun e' tr' => after_keys e' (keys tr) /\ goes_on ok tr tr') (X := fun code tr' => False /\ goes_on ok tr tr').
  - apply wp_trace. apply wp_bind, wp_bind, (quiet_trap Clear). intros _ tr1. apply wp_bind. eapply wp_refresh_rows; [done|lia|]. intros tr2.
    apply wp_bind, quiet_write_status. intros _ tr3. simpl.
    assert (shows (e1 <| dirty := false |>) ls) as Hs1 by (by eapply shows_same).
    split; [split; [exact (ex_intro _ ls Hs1)|]|split; [done|]].
    + split; [|simpl; lia]. unfold strings_ok in *. simpl. by rewrite Ef, Em, Ec.
    + split; [simpl; by rewrite Emem|]. split; [simpl; by rewrite Ec|]. exact (ex_intro _ ls (conj Hs1 Hl)).
  - intros e' tr' [Haf' Hgo]. apply keys_goes_on in Hgo. apply wp_read_key. by eapply after_keys_mono.
  - by intros ? ? [[] _].
Qed.

Lemma wp_povi_run n e tr : after_keys e (keys tr) -> wp ok (povi_run n e) tr session_post ends_late.
Proof.
  revert e tr. induction n as [|n IH]; intros e tr Hok; [done|]. cbn [povi_run]. apply wp_bind.
  eapply wp_mono; [by apply wp_povi_round| |done]. intros [e' q] tr' Hok'. destruct q; [done|by apply IH].
Qed.

Lemma new_Editor_spec : runs 50 new_Editor (fun e => ed_ok e /\ shows e [[]] /\ cmd_line e = empty_string).
Proof.
  unfold new_Editor. eapply runs_bind; [apply new_Buffer_spec|done|]. intros [b a] Hr Hu. apply runs_ret; [done|].
  match goal with |- ed_ok ?e /\ _ => assert (shows e [[]]) as Hs end.
  { exists [], [], [], 0%nat. split; [|done]. split; simpl; try done. constructor; [set_solver|constructor]. }
  split; [|done]. split; [by eexists|]. split; [|done]. repeat split; simpl; eexists; apply empty_string_rep.
Qed.
End Rounds.

(** The start without a file. *)
Lemma wp_povi_start ok reads :
  wp ok (povi_start reads None) [] (fun e tr => after_keys e (keys tr)) (fun _ _ => False).
Proof.
  unfold povi_start. apply wp_bind. eapply wp_runs; [apply new_Editor_spec| |by vm_compute].
  intros e (Hok & Hs & Hcmd) Hu. simpl in Hu. apply wp_bind. unfold status_message. apply wp_bind.
  destruct Hok as (_ & (Hf & [lm Hm] & _) & Ht).
  eapply wp_runs; [apply (str_set_spec _ (lit "usage: povi <filename>") _ lm); [done|by eapply shows_off|reflexivity|by vm_compute]| |].
  - intros [s a] [Hrep Hext] Hu2. change (Z.of_nat (length (lit "usage: povi <filename>"))) with 22 in Hu2. simpl in Hrep, Hext, Hu2.
    assert (forall e', buffer e' = buffer e -> cursor_row e' = cursor_row e -> cursor_col e' = cursor_col e -> mem e' = a -> shows e' [[]]) as Hsh.
    { intros. eapply shows_ext; [done..|]. congruence. }
    cbn [wp]. split; [split; [exists [[]]; by apply Hsh|split; [|done]]|].
    + split; [done|]. split; [by exists (lit "usage: povi <filename>")|]. simpl. rewrite Hcmd. exists []. apply empty_string_rep.
    + simpl. rewrite Hcmd. split; [done|]. split; [unfold bytes_after; replace (keys []) with 0 by done; lia|]. split; [done|]. exists [[]]. split; [by apply Hsh|done].
  - change (Z.of_nat (length (lit "usage: povi <filename>"))) with 22. unfold HEAP_SIZE. intros. lia.
Qed.

(** C26: from its start without a file, for every sequence of keys and whatever the kernel
    answers, povi never leaves an array or an object, its cursor is on a character of the
    text or at the end of a line, and lines hold no line feed; it ends early only with code 1,
    when its memory is used up: when the keys read so far may have taken more than its 64 KB ([k]
    keys take at most [5k^2 + 103k + 115] bytes), which takes more than 104 keys. *)
Theorem povi_session_safe reads n :
  wp (fun _ _ => True) (e ← povi_start reads None; povi_run n e) []
    (fun '(e, _) _ => exists ls l, shows e ls
       /\ ls !! Z.to_nat (cursor_row e) = Some l /\ 0 <= cursor_row e
       /\ 0 <= cursor_col e <= Z.of_nat (length l) /\ Forall (fun l => NL ∉ l) ls)
    (fun code tr => code = 1 /\ HEAP_SIZE < bytes_after (keys tr) /\ 104 < keys tr).
Proof.
  apply wp_bind. eapply wp_mono; [apply wp_povi_start| |done]. intros e tr Haf.
  eapply wp_mono; [by apply wp_povi_run|intros [e2 q] tr2 (([ls Hls] & _) & _)|].
  - destruct Hls as (pre & l & post & col & Hac & E). exists ls, l. subst ls.
    pose proof Hac as [_ Hn Hr Hc Hle]. simpl in Hr, Hc. rewrite Hr, Hc, Nat2Z.id. splits; try lia; [|by apply list_lookup_middle|done].
    by exists pre, l, post, col.
  - intros code tr2 [-> Hx]. split; [done|]. split; [done|]. unfold HEAP_SIZE, bytes_after, keys in *. nia.
Qed.

(** ** Files *)

(** A kernel with one file: its bytes, and the position of the next read. *)
Definition file_kernel (c : call) (w : list Z * nat) : resp c * (list Z * nat) :=
  match c return resp c * (list Z * nat) with
  | Open _ flags => (3, (if tst flags O_TRUNC then [] else w.1, 0%nat))
  | Write _ s => (Z.of_nat (length s), (w.1 ++ s, w.2))
  | Read _ n => (inr (take (Z.to_nat n) (drop w.2 w.1)), (w.1, (w.2 + Z.to_nat n)%nat))
  | Putchar _ | Clear | Reboot | Poweroff | Yield => (tt, w)
  | Ls _ _ | Uname | SandboxQuery => (inl (-1), w)
  | _ => (0, w)
  end.

Lemma interp_runs `{Uses A} lim (p : prog A) P w :
  runs lim p P -> lim <= HEAP_SIZE -> exists a, interp file_kernel p w = (Done a, w) /\ used a <= lim /\ P a.
Proof. intros [[-> Hl] | (a & -> & Hu & Ha)] Hle; [lia|by exists a]. Qed.

(** The reference: the bytes cut at line feeds, and a rest without one. *)
Fixpoint feed (data cur : list Z) (ls : list (list Z)) : list Z * list (list Z) :=
  match data with
  | [] => (cur, ls)
  | c :: data' => if c =? NL then feed data' [] (ls ++ [cur]) else feed data' (cur ++ [c]) ls
  end.

Definition lines_of (data : list Z) : list (list Z) :=
  let '(cur, ls) := feed data [] [] in
  match data, cur with
  | [], _ => [[]]
  | _, [] => ls
  | _, _ => ls ++ [cur]
  end.

Lemma feed_app d1 d2 cur ls : feed (d1 ++ d2) cur ls = let '(c, l) := feed d1 cur ls in feed d2 c l.
Proof. revert cur ls. induction d1 as [|x d1 IH]; intros cur ls; simpl; [done|]. case_match; apply IH. Qed.

Lemma feed_prefix d cur ls ls0 : feed d cur (ls0 ++ ls) = let '(c, l) := feed d cur ls in (c, ls0 ++ l).
Proof.
  revert cur ls. induction d as [|x d IH]; intros cur ls; simpl; [done|]. case_match; [|apply IH].
  rewrite <- app_assoc. apply IH.
Qed.

Lemma feed_line l d cur ls : NL ∉ l -> feed (l ++ d) cur ls = feed d (cur ++ l) ls.
Proof.
  revert cur. induction l as [|x l IH]; intros cur Hl; simpl; [by rewrite app_nil_r|].
  replace (x =? NL) with false by (assert (x <> NL) by set_solver; lia). rewrite IH by set_solver. by rewrite <- app_assoc.
Qed.

Lemma feed_unlines ls ls0 : Forall (fun l => NL ∉ l) ls -> feed (unlines ls) [] ls0 = ([], ls0 ++ ls).
Proof.
  intros H. revert ls0. induction H as [|l ls Hl _ IH]; intros ls0; simpl; [by rewrite app_nil_r|].
  rewrite feed_line by done. simpl. rewrite IH. by rewrite <- app_assoc.
Qed.

Lemma lines_of_unlines ls : ls <> [] -> Forall (fun l => NL ∉ l) ls -> lines_of (unlines ls) = ls.
Proof.
  intros Hne H. unfold lines_of. rewrite feed_unlines by done. simpl. destruct ls as [|l ls]; [done|].
  simpl. by destruct (l ++ NL :: unlines ls) eqn:E; [destruct l|].
Qed.

Lemma feed_size d cur ls cur' ls' :
  feed d cur ls = (cur', ls') -> (length cur' <= length cur + length d /\ length ls' <= length ls + length d)%nat.
Proof.
  revert cur ls. induction d as [|x d IH]; intros cur ls; simpl; [intros [= <- <-]; lia|].
  case_match; intros E; apply IH in E; rewrite length_app in E; simpl in E; lia.
Qed.

(** Memory that a byte of a file may take: for lines of at most [N] characters, [M] of them. *)
Definition byte_bytes (N M : nat) : Z := 2 * Z.of_nat N + 8 * Z.of_nat M + 71.

Lemma load_bytes_spec (N M : nat) tmp cur k b a ls :
  buf_result ls (b, a) -> str_rep cur k -> (length k + length tmp <= N)%nat -> (length ls + length tmp <= M)%nat ->
  runs (heap_off a + Z.of_nat (length tmp) * byte_bytes N M) (load_bytes tmp cur b a) (fun '(cur', b', a') =>
    let '(k', ls') := feed tmp k ls in buf_result ls' (b', a') /\ str_rep cur' k').
Proof.
  revert cur k b a ls. induction tmp as [|c tmp IH]; intros cur k b a ls Hb Hc HN HM; cbn [load_bytes feed];
    [by apply runs_ret; [simpl; lia|]|].
  destruct Hb as [ps Hb]. simpl in Hb, HN, HM.
  assert (heap_off a + Z.of_nat (length (c :: tmp)) * byte_bytes N M
          = heap_off a + byte_bytes N M + Z.of_nat (length tmp) * byte_bytes N M) as -> by (simpl; lia).
  assert (0 <= byte_bytes N M) as H0 by (unfold byte_bytes; lia).
  destruct (c =? NL).
  - destruct (c_str_chars _ _ Hc) as [r Hr]. pose proof (str_rep_len _ _ Hc) as [Hl Hlb]. rewrite Hl, Hr.
    eapply runs_bind; [eapply add_line_spec; [exact Hb|rewrite length_app; lia|unfold HEAP_SIZE in *; lia]|unfold byte_bytes in *; lia|].
    rewrite take_app_length. intros [b' a'] Hb' Hu. destruct (str_clear_spec _ _ Hc) as (cur' & Ec & Hc').
    eapply runs_lift; [exact Ec|].
    eapply runs_mono; [apply (IH cur' [] b' a' (ls ++ [k])); [done|done|simpl; lia|rewrite length_app; simpl; lia]| |done].
    unfold byte_bytes in *. simpl in Hu. lia.
  - eapply runs_bind; [apply (append_char_spec c cur k); [done|apply Hb]|unfold byte_bytes in *; lia|].
    intros [cur' a'] [Hc' Hext] Hu. simpl in Hc', Hext, Hu.
    eapply runs_mono; [apply (IH cur' (k ++ [c]) b a' ls); [|done|rewrite length_app; simpl; lia|lia]| |done].
    + exists ps. by eapply buf_rep_ext.
    + unfold byte_bytes in *. lia.
Qed.

Lemma load_loop_spec (N M : nat) reads fd any cur k b a ls file pos :
  buf_result ls (b, a) -> str_rep cur k -> (length file - pos < reads)%nat ->
  (length k + length (drop pos file) <= N)%nat -> (length ls + length (drop pos file) <= M)%nat ->
  heap_off a + Z.of_nat (length (drop pos file)) * byte_bytes N M <= HEAP_SIZE ->
  exists cur' b' a' w,
    interp file_kernel (load_loop reads fd any cur b a) (file, pos)
    = (Done ((any || negb (bool_decide (drop pos file = []))), cur', b', a'), w) /\ w.1 = file
    /\ heap_off a' <= heap_off a + Z.of_nat (length (drop pos file)) * byte_bytes N M
    /\ let '(k', ls') := feed (drop pos file) k ls in buf_result ls' (b', a') /\ str_rep cur' k'.
Proof.
  revert any cur k b a ls pos. induction reads as [|reads IH]; intros any cur k b a ls pos Hb Hc Hl HN HM Hroom; [lia|].
  cbn [load_loop]. change (Z.to_nat 512) with 512%nat. unfold sys_read, trap. cbn [mbind prog_bind interp file_kernel].
  set (n := Z.to_nat 512). simpl fst. simpl snd.
  destruct (drop pos file) as [|c rest] eqn:Ed.
  - rewrite take_nil. exists cur, b, a, (file, (pos + n)%nat). rewrite bool_decide_true, orb_false_r by done.
    split; [done|]. split; [done|]. split; [simpl; lia|]. done.
  - assert (exists x t, take n (c :: rest) = x :: t) as (x & t & Et) by (by exists c, (take (n - 1) rest)).
    rewrite Et. rewrite <- Et.
    assert ((Z.of_nat (length (take n (c :: rest))) <=? 512) = true) as -> by (apply Z.leb_le; rewrite length_take; unfold n; lia).
    assert (0 <= byte_bytes N M) as H0 by (unfold byte_bytes; lia).
    pose proof (f_equal length (take_drop n (c :: rest))) as Hsp. rewrite length_app in Hsp.
    assert (drop n (c :: rest) = drop (pos + n) file) as Hdr by (by rewrite <- Ed, drop_drop). rewrite Hdr in Hsp.
    rewrite <- Hsp in Hroom, HN, HM.
    rewrite interp_bind.
    pose proof (load_bytes_spec N M (take n (c :: rest)) cur k b a ls Hb Hc ltac:(lia) ltac:(lia)) as Hload.
    destruct (interp_runs _ _ _ (file, (pos + n)%nat) Hload) as ([[cur' b'] a'] & -> & Hu & Hp); [nia|]. cbn [obind].
    destruct (feed (take n (c :: rest)) k ls) as [k1 ls1] eqn:Ef. destruct Hp as [Hb' Hc']. destruct (feed_size _ _ _ _ _ Ef) as [Hf1 Hf2].
    assert (length file - (pos + n) < reads)%nat as Hl'.
    { apply (f_equal length) in Ed. rewrite length_drop in Ed. simpl in Ed. unfold n. lia. }
    change (heap_off a' <= heap_off a + Z.of_nat (length (take n (c :: rest))) * byte_bytes N M) in Hu.
    rewrite Nat2Z.inj_add, Z.mul_add_distr_r in Hroom.
    destruct (IH true cur' k1 b' a' ls1 (pos + n)%nat Hb' Hc' Hl') as (cur2 & b2 & a2 & w & -> & Hw & Ha & Hf); [lia|lia|lia|].
    exists cur2, b2, a2, w. rewrite (bool_decide_false (c :: rest = [])), orb_true_r by done. split; [done|]. split; [done|].
    split; [rewrite <- Hsp, Nat2Z.inj_add, Z.mul_add_distr_r; lia|].
    rewrite <- Ed, <- (take_drop n (drop pos file)), feed_app, Ed, Ef.
    by rewrite <- drop_drop, Ed in Hf.
Qed.

(** Memory that loading a file of [n] bytes may take. *)
Definition load_bytes_need (n : nat) : Z := 50 + (Z.of_nat n + 1) * (10 * Z.of_nat n + 79).

Lemma load_file_spec reads path b a ls0 w :
  buf_result ls0 (b, a) -> (length w.1 < reads)%nat -> heap_off a + load_bytes_need (length w.1) <= HEAP_SIZE ->
  exists res w', interp file_kernel (load_file reads path b a) w = (Done (true, res), w')
    /\ w'.1 = w.1 /\ buf_result ([] :: lines_of w.1) res.
Proof.
  intros [ps Hb] Hl Hroom. destruct w as [file pos]. simpl in Hb, Hl, Hroom. unfold load_bytes_need in Hroom.
  unfold load_file, sys_open, trap. cbn [mbind prog_bind interp file_kernel fst snd].
  change (tst O_RDONLY O_TRUNC) with false. change (3 <? 0) with false. cbv iota. rewrite interp_bind.
  set (N := length file). set (M := S (length file)).
  assert (byte_bytes N M = 10 * Z.of_nat (length file) + 79) as Hby by (unfold byte_bytes, N, M; lia).
  destruct (interp_runs _ _ _ (file, 0%nat) (clear_lines_spec b a ps ls0 Hb)) as ([b1 a1] & -> & Hu1 & Hb1); [nia|].
  simpl in Hu1. cbn [obind]. rewrite interp_bind.
  destruct (load_loop_spec N M reads 3 false empty_string [] b1 a1 [[]] file 0 Hb1 empty_string_rep)
    as (cur & b2 & a2 & w' & -> & Hw & Hu2 & Hf); rewrite ?drop_0; [lia|simpl; lia|simpl; lia|rewrite Hby; nia|].
  cbn [obind]. rewrite drop_0, orb_false_l in *.
  rewrite (feed_prefix file [] [] [[]] : feed file [] [[]] = _) in Hf. unfold lines_of.
  destruct (feed file [] []) as [k ls] eqn:Ef. destruct Hf as [[ps2 Hb2] Hc]. simpl in Hb2.
  destruct (feed_size _ _ _ _ _ Ef) as [Hk Hls]. simpl in Hk, Hls.
  destruct (c_str_chars _ _ Hc) as [r Hr]. pose proof (str_rep_len _ _ Hc) as [Hlc Hlb].
  assert (Hadd : runs HEAP_SIZE (add_line (c_str cur) (len_ cur) b2 a2) (buf_result (([] :: ls) ++ [k]))).
  { rewrite Hlc, Hr. eapply runs_mono; [eapply add_line_spec; [exact Hb2|rewrite length_app; lia|unfold HEAP_SIZE in *; lia]| |].
    - simpl length. rewrite Hby in Hu2. nia.
    - intros res. by rewrite take_app_length. }
  assert (Hend : forall p : prog (Buffer * arena),
    runs HEAP_SIZE p (buf_result ([] :: match file, k with [], _ => [[]] | _, [] => ls | _, _ => ls ++ [k] end)) ->
    exists res w2, interp file_kernel (res ← p; _ ← sys_close 3; mret (true, res)) w' = (Done (true, res), w2) /\ w2.1 = file
      /\ buf_result ([] :: match file, k with [], _ => [[]] | _, [] => ls | _, _ => ls ++ [k] end) res).
  { intros p Hp. rewrite interp_bind. destruct (interp_runs _ _ _ w' Hp) as (res & -> & _ & Hres); [lia|]. by exists res, w'. }
  apply Hend. rewrite negb_involutive. destruct file as [|c file].
  - simpl in Ef. simplify_eq. exact Hadd.
  - rewrite bool_decide_false by done. simpl orb. rewrite Hlc. destruct k as [|x k]; simpl length.
    + apply runs_ret; [|by exists ps2]. rewrite Hby in Hu2. simpl used. nia.
    + rewrite Hlc in Hadd. exact Hadd.
Qed.

Lemma save_loop_spec b a ps before todo fd w :
  buf_rep b a ps (before ++ todo) ->
  interp file_kernel (save_loop (length todo) (Z.of_nat (length before)) fd b a) w = (Done true, (w.1 ++ unlines todo, w.2)).
Proof.
  revert before w. induction todo as [|l todo IH]; intros before [file pos] Hb; cbn [length save_loop].
  - simpl. by rewrite app_nil_r.
  - destruct (line_at_spec _ _ _ _ (length before) l Hb (list_lookup_middle _ _ _ _ eq_refl)) as (p & s & Hla & _ & _ & Hrep).
    rewrite Hla. unfold sys_write_fd, trap. cbn [lift mbind prog_bind]. rewrite (str_rep_written _ _ Hrep).
    cbn [interp file_kernel]. assert ((Z.of_nat (length l) <? 0) = false) as -> by (apply Z.ltb_ge; lia). cbn [interp file_kernel].
    change (Z.of_nat (length [NL]) <? 0) with false. cbv iota.
    replace (Z.of_nat (length before) + 1) with (Z.of_nat (length (before ++ [l]))) by (rewrite length_app; simpl; lia).
    rewrite IH by (by rewrite <- app_assoc). simpl. by rewrite <- !app_assoc.
Qed.

(** saving writes the lines of the text, each with a line feed, and loading the file again
    gives these lines with an empty line in front of them: [load_file] clears the buffer to
    one empty line and then appends, so that a text grows by a line each time it is loaded.
    The arena has to have room for the file. *)
Theorem reload_adds_line reads path b a ps ls b0 a0 ls0 w :
  buf_rep b a ps ls -> ls <> [] -> Forall (fun l => NL ∉ l) ls -> buf_result ls0 (b0, a0) ->
  (length (unlines ls) < reads)%nat -> heap_off a0 + load_bytes_need (length (unlines ls)) <= HEAP_SIZE ->
  exists res w',
    interp file_kernel (ok ← save_file path b a; r ← load_file reads path b0 a0; mret (ok, r)) w
    = (Done (true, (true, res)), w') /\ w'.1 = unlines ls /\ buf_result ([] :: ls) res.
Proof.
  intros Hb Hne Hn Hb0 Hreads Hroom. rewrite interp_bind. unfold save_file, sys_open, trap. cbn [mbind prog_bind interp file_kernel].
  change (tst _ O_TRUNC) with true. change (3 <? 0) with false. cbv iota.
  rewrite (num_lines_spec _ _ _ _ Hb), Nat2Z.id. rewrite (save_loop_spec b a ps [] ls 3 _ Hb). cbn [obind fst snd app].
  rewrite interp_bind. destruct (load_file_spec reads path b0 a0 ls0 (unlines ls, 0%nat) Hb0 Hreads Hroom) as (res & w' & -> & Hw & Hres).
  exists res, w'. cbn [obind interp mret prog_ret fst] in *.
  split; [done|]. split; [done|]. by rewrite lines_of_unlines in Hres.
Qed.

(** ** Examples *)

Definition blank_editor : Editor :=
  mk_Editor (mk_arena 0 ∅) (mk_Buffer empty_vector) 0 0 0 MODE_NORMAL empty_string false empty_string empty_string true false.

(** The editor that has just started. *)
Definition demo_editor : Editor := match new_Editor with Ret e => e | _ => blank_editor end.

Lemma demo_editor_ok : ed_ok demo_editor /\ shows demo_editor [[]].
Proof.
  destruct new_Editor_spec as [[H _] | (e & H & _ & Hok & Hs & _)]; [vm_compute in H; discriminate|]. unfold demo_editor. by rewrite H.
Qed.

Lemma demo_gap : gap_rep demo_editor [] [].
Proof.
  destruct demo_editor_ok as [_ (pre & l & post & col & Hac & E)].
  destruct pre as [|x pre]; simplify_eq/=; [|by destruct pre]. apply (gap_intro _ [] [] [] col); [done|by destruct col..].
Qed.

Lemma editor_refines_gap_witness :
  gap_rep demo_editor [] [] /\ exists e', insert_char 97 demo_editor = Ret e' /\ gap_rep e' [97] [].
Proof.
  split; [exact demo_gap|].
  destruct (proj1 (editor_refines_gap demo_editor [] [] demo_gap) 97) as [[H _] | (e' & H & _ & Hg)];
    [vm_compute in H; discriminate|by exists e'].
Defined.

(** A buffer with a line of text. *)
Definition demo_arena : arena := mk_arena 100 {[ 0 := mk_String [104; 105; 0] 2 ]}.
Definition demo_buffer : Buffer := mk_Buffer (mk_Vector [0; 0] 1).

Lemma demo_buffer_rep : buf_rep demo_buffer demo_arena [0] [[104; 105]].
Proof.
  split; simpl; [lia|split; [done|by exists [0]]|by apply NoDup_singleton| |].
  - intros p [s Hs]. apply lookup_singleton_Some in Hs as [<- _]. lia.
  - constructor; [|constructor]. exists (mk_String [104; 105; 0] 2). split; [apply lookup_singleton_eq|].
    eapply (str_rep_intro _ _ []); [done|done|]. vm_compute. discriminate.
Qed.

(** An editor with unsaved text in which a command has been typed. *)
Definition with_command (c : string) : Editor :=
  mk_Editor demo_arena demo_buffer 0 2 0 MODE_COMMAND (mk_String (carray "/home/a") 7) true empty_string
    (mk_String (carray c) (Z.of_nat (String.length c))) true false.

Lemma with_wq_ok : ed_ok (with_command "wq") /\ shows (with_command "wq") [[104; 105]].
Proof.
  assert (shows (with_command "wq") [[104; 105]]) as Hs.
  { exists [], [104; 105], [], 2%nat. split; [|done].
    split; simpl; try done; [exists [0]; apply demo_buffer_rep|by apply (bool_decide_unpack _)]. }
  split; [|done]. split; [by eexists|]. split; [|done]. split; [|split].
  - exists (lit "/home/a"). by eapply (str_rep_intro _ _ []).
  - exists []. apply empty_string_rep.
  - exists (lit "wq"). by eapply (str_rep_intro _ _ []).
Qed.

Lemma file_kernel_whole c w : writes_whole c (file_kernel c w).1.
Proof. destruct c; simpl; try done; [right|right]; done || lia. Qed.

(** The command [wq] on unsaved text: all of it is in the file, and the editor quits. *)
Lemma no_silent_loss_witness :
  modified (with_command "wq") = true
  /\ exists e' w' tr',
       interp (logged file_kernel) (handle_key KEYEV_ENTER (with_command "wq")) (([], 0%nat), []) = (Done (e', true), (w', tr'))
       /\ w'.1 = [104; 105; NL] /\ saved all_bytes (lit "/home/a") [[104; 105]] [] tr'.
Proof.
  split; [reflexivity|].
  pose proof (interp_wp file_kernel writes_whole _ ([], 0%nat) [] _ _ file_kernel_whole
    (no_silent_loss KEYEV_ENTER (with_command "wq") [[104; 105]] [] (proj1 with_wq_ok) (proj2 with_wq_ok))) as H.
  assert (Hc : match interp (logged file_kernel) (handle_key KEYEV_ENTER (with_command "wq")) (([], 0%nat), []) with
               | (Done (_, q), (w, _)) => q && bool_decide (w.1 = [104; 105; NL])
               | _ => false
               end = true) by (vm_compute; reflexivity).
  destruct (interp _ _ _) as [[[e' q]| |] [w' tr']]; [|done|done]. apply andb_true_iff in Hc as [-> Hw]. apply bool_decide_eq_true in Hw.
  destruct H as [_ H]. destruct (H eq_refl) as [Hm|[Hs|Hq]]; [discriminate Hm|by exists e', w', tr'|discriminate Hq].
Defined.

(** The kernel of a device that takes no bytes. *)
Definition full_kernel (c : call) (w : list Z * nat) : resp c * (list Z * nat) :=
  match c return resp c * (list Z * nat) with
  | Write _ _ => (0, w)
  | c => file_kernel c w
  end.

(** A write that takes fewer bytes than it was given counts as success: the command [w] makes
    the editor unmodified, and nothing of the text is in the file. *)
Theorem short_write_unnoticed :
  modified (with_command "w") = true
  /\ exists e' w', interp full_kernel (handle_key KEYEV_ENTER (with_command "w")) ([], 0%nat) = (Done (e', false), w')
       /\ modified e' = false /\ w'.1 = [].
Proof.
  split; [reflexivity|].
  assert (Hc : match interp full_kernel (handle_key KEYEV_ENTER (with_command "w")) ([], 0%nat) with
               | (Done (e', q), w) => negb q && negb (modified e') && bool_decide (w.1 = [])
               | _ => false
               end = true) by (vm_compute; reflexivity).
  destruct (interp _ _ _) as [[[e' q]| |] w']; [|done|done]. apply andb_true_iff in Hc as [[Hq Hm]%andb_true_iff Hw].
  apply bool_decide_eq_true in Hw. destruct q; [done|]. destruct (modified e') eqn:E; [done|]. by exists e', w'.
Qed.

Lemma reload_adds_line_witness :
  exists res w', interp file_kernel
      (ok ← save_file (lit "/home/a") demo_buffer demo_arena; r ← load_file 20 (lit "/home/a") demo_buffer demo_arena; mret (ok, r)) ([], 0%nat)
    = (Done (true, (true, res)), w') /\ w'.1 = [104; 105; NL] /\ buf_result [[]; [104; 105]] res.
Proof.
  apply (reload_adds_line 20 (lit "/home/a") demo_buffer demo_arena [0] [[104; 105]] demo_buffer demo_arena [[104; 105]] ([], 0%nat));
    [apply demo_buffer_rep|done| |by exists [0]; apply demo_buffer_rep|simpl; lia|].
  - by apply (bool_decide_unpack _).
  - vm_compute. discriminate.
Defined.
