(* ===== verification/LocksTest.v ===== *)
(** * The lock self test (src/kernel/locks_test.c)

    The two kernel threads and [locks_test_run] as lists of the calls they make, executed on
    the mutex and the scheduler: the thread in [current_task] makes its next call, a call
    of [mutex_lock] that waits is repeated when the thread runs again, and the timer may
    interrupt between two calls.  The output is what is passed to [serial_write]. *)

From S2P Require Import Prelude LList Task TaskInv Watchdog Sched SchedSpec SchedSteps SchedFrame SchedTheorems Locks Cstr Ports.

Definition TASK_PRIO_HIGH : Z := 20.

(** ** What locks.c prints *)

(** The report of [mutex_lock] when it lends a tier. *)
Definition inherit_text (m : mutex) (me : Z) (s : sched) : list Z :=
  let h := holder m in
  if tst (mflags m) LOCK_FLAG_INHERIT && negb (h =? 0) && (tier (tk s me) <? tier (tk s h)) then
    lit "[PRIO_INHERIT] pid=" ++ hex_text (pid (tk s h)) ++ lit " tier " ++ hex_text (tier (tk s me)) ++
    lit " wait=" ++ hex_text (pid (tk s me)) ++ [NL]
  else [].

(** The report of [mutex_lock], a round of which prints only when it has to wait. *)
Definition lock_text (m : mutex) (s : sched) : list Z :=
  let me := current_task s in
  if (me =? 0) || (locked m =? 0) then [] else inherit_text m me s.

(** The report of [mutex_unlock] when it takes the lent tier back. *)
Definition unlock_text (m : mutex) (s : sched) : list Z :=
  let h := holder m in
  if negb (h =? 0) && tst (flags (tk s h)) TASK_INHERITED then
    lit "[PRIO_RESTORE] pid=" ++ hex_text (pid (tk s h)) ++ lit " tier " ++ hex_text (saved_tier (tk s h)) ++ [NL]
  else [].

(** ** The threads *)

Inductive act :=
  | ALock | AUnlock                      (* mutex_lock(&g_lock), mutex_unlock(&g_lock) *)
  | AWrite (s : list Z) | AWritePid      (* serial_write(s), serial_write_hex(me->pid) *)
  | AWake                                (* if (g_waiter) enqueue_task(g_waiter) *)
  | AYield | ASchedule                   (* yield(), schedule() *)
  | ASleep.                              (* for (;;) { state = TASK_WAITING; schedule(); } *)

Definition lock_holder_fn : list act :=
  [ALock; AWrite (lit "[locks_test] holder pid="); AWritePid; AWrite (line " held"); AWake; AYield;
   AUnlock; AWrite (line "[locks_test] holder unlock restored"); ASleep].

Definition lock_waiter_fn : list act :=
  [AWrite (lit "[locks_test] waiter pid="); AWritePid; AWrite (line " start"); ALock;
   AWrite (line "[locks_test] waiter got lock"); AUnlock; AWrite (line "[locks_test] OK"); ASleep].

(** The mutex and the waiter of the test, the scheduler, the output, and what each thread
    still has to do. *)
Record lt := mk_lt {
  g_lock : mutex;
  g_waiter : Z;
  lt_s : sched;
  lt_out : list Z;
  lt_code : gmap Z (list act);
}.
#[export] Instance eta_lt : Eta lt := fun l => mk_lt (g_lock l) (g_waiter l) (lt_s l) (lt_out l) (lt_code l).

Definition say (t : list Z) (l : lt) : lt := l <| lt_out := lt_out l ++ t |>.

(** The next call of the running thread. *)
Definition lt_step (l : lt) : option lt :=
  let s := lt_s l in
  let c := current_task s in
  match default [] (lt_code l !! c) with
  | [] => Some l
  | a :: rest =>
      let l' := l <| lt_code := <[c := rest]> (lt_code l) |> in
      match a with
      | AWrite t => Some (say t l')
      | AWritePid => Some (say (hex_text (pid (tk s c))) l')
      | AWake => Some (if g_waiter l =? 0 then l' else l' <| lt_s := enqueue_task (g_waiter l) s |>)
      | AYield => s ← yield s; Some (l' <| lt_s := s |>)
      | ASchedule => s ← schedule s; Some (l' <| lt_s := s |>)
      | ASleep => s ← schedule (s <| c # state := TASK_WAITING |>); Some (l <| lt_s := s |>)
      | ALock =>
          let t := lock_text (g_lock l) s in
          '(got, m, s) ← mutex_lock_round (g_lock l) s;
          Some (say t ((if (got : bool) then l' else l) <| g_lock := m |> <| lt_s := s |>))
      | AUnlock =>
          let t := unlock_text (g_lock l) s in
          '(m, s) ← mutex_unlock (g_lock l) s;
          Some (say t (l' <| g_lock := m |> <| lt_s := s |>))
      end
  end.

Section Run.
Context (page_directory exit_handler holder_code waiter_code : Z).

(** [locks_test_run] up to its call of [schedule]; what it does from there on is the code of
    the thread that runs it. *)
Definition locks_test_run (m : mutex) (s : sched) : lt :=
  let me := current_task s in
  let m := mutex_init (lit "locks_test_lock") LOCK_FLAG_INHERIT m in
  let out := line "[locks_test] start" in
  let '(a, s) := create_task page_directory exit_handler holder_code TASK_PRIO_NORMAL s in
  let '(b, s) := create_task page_directory exit_handler waiter_code TASK_PRIO_HIGH s in
  if (a =? 0) || (b =? 0) then mk_lt m 0 s (out ++ line "[locks_test] create task failed") ∅
  else
    let s := s <| b # tier := TIER_SYSTEM |> <| b # caps := CAP_SYSTEM_DEFAULT |> in
    let s := enqueue_task a s in
    mk_lt m b s out
      (<[me := [ASchedule; AWrite (line "[locks_test] spawned")]]> (<[a := lock_holder_fn]> {[b := lock_waiter_fn]})).

(** [n] calls, with a timer interrupt before the calls in [ticks]. *)
Fixpoint lt_run (n : nat) (i : Z) (ticks : list Z) (wd : wdog) (l : lt) : option (wdog * lt) :=
  match n with
  | O => Some (wd, l)
  | S n' =>
      '(wd, l) ← (if bool_decide (i ∈ ticks)
                  then '(wd, s, _) ← pit_handler page_directory (wd, lt_s l, tt); Some (wd, l <| lt_s := s |>)
                  else Some (wd, l));
      l ← lt_step l;
      lt_run n' (i + 1) ticks wd l
  end.
End Run.

(** ** The test passes *)

Definition after_task_init : sched := task_init 0x1000 0x2000 0x3000 (mk_sched ∅ ∅ ∅ 0 1 0 0 0).
Definition test_start : lt := locks_test_run 0x1000 0x2000 0x4000 0x5000 (mk_mutex 0 0 0 0 []) after_task_init.

(** Both threads sleep for good, [locks_test_run] has returned, the mutex is free, and the
    holder is back at its own tier. *)
Definition passed (l : lt) : bool :=
  (locked (g_lock l) =? 0) && (holder (g_lock l) =? 0) && (waitq (g_lock l) =? 0) &&
  (state (tk (lt_s l) 1) =? TASK_WAITING) && (state (tk (lt_s l) 2) =? TASK_WAITING) &&
  (tier (tk (lt_s l) 1) =? TIER_USER) && (tier (tk (lt_s l) 2) =? TIER_SYSTEM) &&
  negb (tst (flags (tk (lt_s l) 1)) TASK_INHERITED) &&
  match lt_code l !! 1, lt_code l !! 2, lt_code l !! IDLE with
  | Some [ASleep], Some [ASleep], Some [] => true
  | _, _, _ => false
  end.

(** Without interrupts the test prints that the waiter started while the holder had the lock,
    that the holder was raised to tier 1 and set back to tier 2, and that the waiter then
    got the lock. *)
Theorem locks_test_output :
  option_map (fun x => (lt_out x.2, passed x.2)) (lt_run 0x1000 25 0 [] (mk_wdog [] 0) test_start) =
  Some (line "[locks_test] start" ++ line "[locks_test] holder pid=00000001 held" ++
        line "[locks_test] waiter pid=00000002 start" ++
        line "[PRIO_INHERIT] pid=00000001 tier 00000001 wait=00000002" ++
        line "[PRIO_RESTORE] pid=00000001 tier 00000002" ++ line "[locks_test] holder unlock restored" ++
        line "[locks_test] waiter got lock" ++ line "[locks_test] OK" ++ line "[locks_test] spawned", true).
Proof. vm_compute. reflexivity. Qed.

(** Wherever two timer interrupts fall between its calls, the test passes. *)
Theorem locks_test_two_ticks i j :
  0 <= i < 26 -> 0 <= j < 26 ->
  exists wd l, lt_run 0x1000 30 0 [i; j] (mk_wdog [] 0) test_start = Some (wd, l) /\ passed l = true.
Proof.
  intros Hi Hj.
  assert (Hall : forallb (fun i => forallb (fun j =>
    match lt_run 0x1000 30 0 [i; j] (mk_wdog [] 0) test_start with Some (_, l) => passed l | None => false end)
    (seqZ 0 26)) (seqZ 0 26) = true) by (vm_compute; reflexivity).
  pose proof (Check.forallb_at _ _ i Hall ltac:(apply elem_of_seqZ; lia)) as H. cbv beta in H.
  pose proof (Check.forallb_at _ _ j H ltac:(apply elem_of_seqZ; lia)) as H'. cbv beta in H'.
  revert H'. generalize (lt_run 0x1000 30 0 [i; j] (mk_wdog [] 0) test_start). clear. intros [[wd l]|] H; [|discriminate H].
  by exists wd, l.
Qed.
