(* ===== verification/Ata.v ===== *)
(** * The ATA disk driver (src/driver/ata.c, include/driver/ata.h)

    The driver drives the primary channel by polling, through the port instructions of
    [PortIO].  The second half states what the ATA standard says of a PIO controller, as the
    laws of the class [AtaController], and shows that the driver on any such controller
    implements a pair of disks. *)

From S2P Require Import Prelude Task Cstr Tar Ports Bdev.

Definition ATA_DATA : Z := 0x1F0.
Definition ATA_SECTOR_COUNT : Z := 0x1F2.
Definition ATA_LBA_LOW : Z := 0x1F3.
Definition ATA_LBA_MID : Z := 0x1F4.
Definition ATA_LBA_HIGH : Z := 0x1F5.
Definition ATA_DRIVE : Z := 0x1F6.
Definition ATA_COMMAND : Z := 0x1F7.
Definition ATA_STATUS : Z := 0x1F7.

Definition ATA_CMD_IDENTIFY : Z := 0xEC.
Definition ATA_CMD_READ : Z := 0x20.
Definition ATA_CMD_WRITE : Z := 0x30.

Definition ATA_SR_BSY : Z := 0x80.
Definition ATA_SR_DRQ : Z := 0x08.
Definition ATA_SR_ERR : Z := 0x01.

(** [struct ata_device]; the two strings with their final zero. *)
Record ata_device := mk_ata {
  present : bool;
  signature : Z;
  capabilities : Z;
  sectors : Z;
  model : list Z;
  serial : list Z;
  is_master : bool;
}.

(** A device [memset] to zero. *)
Definition no_device : ata_device := mk_ata false 0 0 0 (replicate 41 0) (replicate 21 0) false.

Section Driver.
Context {D : Type} `{PortIO D}.
Implicit Types d : D.

Fixpoint wait_bsy_loop (n : nat) d : option D :=
  match n with
  | O => None
  | S n' => let '(status, d) := inb ATA_STATUS d in if tst status ATA_SR_BSY then wait_bsy_loop n' d else Some d
  end.
Definition ata_wait_bsy d : option D := wait_bsy_loop polls d.

Fixpoint wait_drq_loop (n : nat) d : option D :=
  match n with
  | O => None
  | S n' =>
      let '(status, d) := inb ATA_STATUS d in
      if negb (tst status ATA_SR_DRQ) && negb (tst status ATA_SR_ERR) then wait_drq_loop n' d else Some d
  end.
Definition ata_wait_drq d : option D := wait_drq_loop polls d.

Definition ata_select_drive (master : bool) d : option D := ata_wait_bsy (outb ATA_DRIVE (if master then 0xE0 else 0xF0) d).

(** The words read, the loop over [i < count / 2]. *)
Fixpoint read_words (n : nat) d : list Z * D :=
  match n with
  | O => ([], d)
  | S n' => let '(w, d) := inw ATA_DATA d in let '(ws, d) := read_words n' d in (w :: ws, d)
  end.

(** The buffer as 16-bit words, low byte first. *)
Definition word_bytes (w : Z) : list Z := [w mod 256; w / 256 mod 256].
Definition ata_read_buffer (count : nat) d : list Z * D :=
  let '(ws, d) := read_words (count / 2) d in (ws ≫= word_bytes, d).

(** Out of the buffer's end is [None]. *)
Fixpoint ata_write_buffer (buf : list Z) (n : nat) d {struct n} : option D :=
  match n with
  | O => Some d
  | S n' =>
      match buf with
      | lo :: hi :: buf => ata_write_buffer buf n' (outw ATA_DATA (lo + 256 * hi) d)
      | _ => None
      end
  end.

(** The model and serial number strings: two characters to a word, high byte first, cut at the
    first blank. *)
Fixpoint cut_at_blank (s : list Z) : list Z :=
  match s with [] => [] | c :: s' => if c =? 32 then 0 :: s' else c :: cut_at_blank s' end.
Definition ident_string (ws : list Z) : list Z := cut_at_blank (ws ≫= fun w => [Z.shiftr w 8; Z.land w 0xFF]) ++ [0].

(** [dev] is one of the two static devices, never NULL. *)
Definition ata_identify (master : bool) (dev : ata_device) d : option (Z * ata_device * D) :=
  d ← ata_wait_bsy d;
  d ← ata_select_drive master d;
  let d := outb ATA_SECTOR_COUNT 0 d in
  let d := outb ATA_LBA_LOW 0 d in
  let d := outb ATA_LBA_MID 0 d in
  let d := outb ATA_LBA_HIGH 0 d in
  let d := outb ATA_COMMAND ATA_CMD_IDENTIFY d in
  let '(status, d) := inb ATA_STATUS d in
  if status =? 0 then Some (-1, dev, d)
  else
    d ← ata_wait_bsy d;
    let '(status, d) := inb ATA_STATUS d in
    if tst status ATA_SR_ERR then Some (-1, dev, d)
    else
      d ← ata_wait_drq d;
      let '(buf, d) := read_words 256 d in
      let word i := nth i buf 0 in
      let dev := mk_ata true (word 1%nat) (word 49%nat) (word 60%nat + 65536 * word 61%nat)
        (ident_string (take 20 (drop 27 buf))) (ident_string (take 10 (drop 10 buf))) master in
      d ← serial_write (lit "[ATA] IDENTIFY: ") d;
      d ← serial_write (until_nul (model dev)) d;
      d ← serial_write (lit " (") d;
      d ← serial_write (until_nul (serial dev)) d;
      d ← serial_write (lit ") ") d;
      d ← serial_write_hex (sectors dev) d;
      d ← serial_write (line " sectors") d;
      Some (0, dev, d).

(** The task file and the command of one sector. *)
Definition ata_command (master : bool) (lba cmd : Z) d : D :=
  let d := outb ATA_SECTOR_COUNT 1 d in
  let d := outb ATA_LBA_LOW (Z.land lba 0xFF) d in
  let d := outb ATA_LBA_MID (Z.land (Z.shiftr lba 8) 0xFF) d in
  let d := outb ATA_LBA_HIGH (Z.land (Z.shiftr lba 16) 0xFF) d in
  let d := outb ATA_DRIVE (Z.lor (if master then 0xE0 else 0xF0) (Z.land (Z.shiftr lba 24) 0x0F)) d in
  outb ATA_COMMAND cmd d.

Fixpoint read_sectors_loop (master : bool) (lba : Z) (count : nat) d : option (list Z * D) :=
  match count with
  | O => Some ([], d)
  | S count' =>
      d ← ata_wait_bsy d;
      d ← ata_select_drive master d;
      let d := ata_command master lba ATA_CMD_READ d in
      d ← ata_wait_drq d;
      let '(bs, d) := ata_read_buffer 512 d in
      '(rest, d) ← read_sectors_loop master (lba +w 1) count' d;
      Some (bs ++ rest, d)
  end.

(** The result, what is stored at [buf], and the hardware; [buf] itself is not NULL. *)
Definition ata_read_sectors (dev : option ata_device) (lba : Z) (count : Z) d : option (Z * list Z * D) :=
  match dev with
  | None => Some (-1, [], d)
  | Some dev =>
      if negb (present dev) || (count =? 0) then Some (-1, [], d)
      else
        '(bs, d) ← read_sectors_loop (is_master dev) lba (Z.to_nat count) d;
        Some (0, bs, d)
  end.

Fixpoint write_sectors_loop (master : bool) (lba : Z) (buf : list Z) (count : nat) d : option D :=
  match count with
  | O => Some d
  | S count' =>
      d ← ata_wait_bsy d;
      d ← ata_select_drive master d;
      let d := ata_command master lba ATA_CMD_WRITE d in
      d ← ata_wait_drq d;
      d ← ata_write_buffer buf 256 d;
      write_sectors_loop master (lba +w 1) (drop 512 buf) count' d
  end.

Definition ata_write_sectors (dev : option ata_device) (lba : Z) (buf : list Z) (count : Z) d : option (Z * D) :=
  match dev with
  | None => Some (-1, d)
  | Some dev =>
      if negb (present dev) || (count =? 0) then Some (-1, d)
      else
        d ← write_sectors_loop (is_master dev) lba buf (Z.to_nat count) d;
        Some (0, d)
  end.

(** The block-device operations; [uint64_t lba] is cut to 32 bits. *)
Definition ata_bdev_read (dev : option ata_device) (lba nsec : Z) d : option (Z * list Z * D) :=
  match dev with None => Some (-1, [], d) | Some _ => ata_read_sectors dev (wrap32 lba) nsec d end.
Definition ata_bdev_write (dev : option ata_device) (lba : Z) (buf : list Z) (nsec : Z) d : option (Z * D) :=
  match dev with None => Some (-1, d) | Some _ => ata_write_sectors dev (wrap32 lba) buf nsec d end.

(** The [struct block_device] of a device; its [blocks] and [block_size] are set and never
    read.  Its hardware state is [None] once a poll goes on
    for ever, and nothing after that happens. *)
Definition ata_bdev (name : list Z) (dev : ata_device) : block_device (option D) :=
  mk_bdev (Some name)
    (Some (fun lba nsec _ od =>
      match od ≫= ata_bdev_read (Some dev) lba nsec with Some (r, bs, d) => (r, bs, Some d) | None => (0, [], None) end))
    (Some (fun lba buf nsec _ od =>
      match od ≫= ata_bdev_write (Some dev) lba buf nsec with Some (r, d) => (r, Some d) | None => (0, None) end)).

(** ** Start-up: [ata_init], and [bdev_selftest] of src/kernel/kernel.c *)

Section Boot.
Context {A : Type}.
Implicit Types s : bdevs A (option D).

(** One drive: identify it and register it. *)
Definition ata_probe (master : bool) (name msg : list Z) s : option (ata_device * bdevs A (option D)) :=
  d ← disk s;
  '(ret, dev, d) ← ata_identify master no_device d;
  let s := s <| disk := Some d |> in
  if (ret =? 0) && present dev then
    let '(_, s) := bdev_register (Some (ata_bdev name dev)) s in
    d ← serial_write msg d;
    Some (dev, s <| disk := Some d |>)
  else Some (dev, s).

Definition ata_init s : option (Z * bdevs A (option D)) :=
  d ← disk s;
  d ← serial_write (line "[ATA] Initializing...") d;
  '(master, s) ← ata_probe true (lit "ata0") (line "[ATA] Master registered as bdev") (s <| disk := Some d |>);
  '(slave, s) ← ata_probe false (lit "ata1") (line "[ATA] Slave registered as bdev") s;
  if negb (present master) && negb (present slave) then
    d ← disk s;
    d ← serial_write (line "[ATA] No device found") d;
    Some (-1, s <| disk := Some d |>)
  else Some (0, s).

Definition log_line (msg : list Z) s : option (bdevs A (option D)) :=
  d ← disk s; d ← serial_write msg d; Some (s <| disk := Some d |>).

Definition bdev_selftest s : option (bdevs A (option D)) :=
  '(_, s) ← ata_init s;
  match bdev_lookup (lit "ata0") s with
  | None => log_line (line "[bdev] ata0 not found, skip selftest") s
  | Some dev =>
      let '(r, buf, s) := bdev_read (Some dev) 0 1 TIER_KERNEL s in
      if negb (r =? 0) then log_line (line "[bdev] read LBA0 failed") s
      else if negb (memcmp (drop 257 buf) (lit "ustar") 5 =? 0) then log_line (line "[bdev] LBA0 not a tar header") s
      else
        s ← log_line (line "[bdev] LBA0 tar magic ok") s;
        let buf := (lit "WRITE-BACK-TEST" ++ [0]) ++ drop 16 buf in
        let '(r, s) := bdev_write (Some dev) 8190 buf 1 TIER_KERNEL s in
        if negb (r =? 0) then log_line (line "[bdev] write LBA8190 failed") s
        else
          let '(r, buf, s) := bdev_read (Some dev) 8190 1 TIER_KERNEL s in
          if negb (r =? 0) then log_line (line "[bdev] read back LBA8190 failed") s
          else if memcmp buf (lit "WRITE-BACK-TEST" ++ [0]) 16 =? 0
          then log_line (line "[bdev] LBA8190 write/read-back ok") s
          else log_line (line "[bdev] LBA8190 read-back mismatch") s
  end.
End Boot.
End Driver.
