(* ===== verification/AtaTheorems.v ===== *)
(** * The ATA driver implements two disks

    [AtaController] is the PIO protocol of the ATA standard as the driver relies on it: the
    task-file registers, the BSY, DRQ and ERR bits, the data port during a transfer.  As the
    standard has it, the other bits of the status register mean nothing while BSY is set.
    The driver looks at them all the same, so that its theorems need one more assumption on
    the controller, the class [QuietWhileBusy]; without it the driver can read a sector that is
    not there yet ([ata_reads_early]).  [sim] is a controller with all these laws. *)

From S2P Require Import Prelude Cstr Alloc Ports Bdev Ata.

(** ** The controller *)

(** A drive: the words of its IDENTIFY block and of its sectors. *)
Record drive := mk_drive { d_ident : list Z; d_data : list (list Z) }.

(** What the selected drive is about to do.  [DataOut ws]: [ws] are the words of the sector
    written so far.  [Failed]: the last command ended with an error. *)
Inductive phase := Idle | DataIn (ws : list Z) | DataOut (ws : list Z) | Failed.

(** [h_busy] is how many more times a poll finds BSY set. *)
Record channel := mk_channel {
  r_count : Z; r_low : Z; r_mid : Z; r_high : Z; r_drive : Z;
  h_phase : phase;
  h_busy : nat;
  h_master : option drive;
  h_slave : option drive;
}.
#[export] Instance eta_channel : Eta channel := fun h =>
  mk_channel (r_count h) (r_low h) (r_mid h) (r_high h) (r_drive h) (h_phase h) (h_busy h) (h_master h) (h_slave h).

Definition drive_of (master : bool) (h : channel) : option drive := if master then h_master h else h_slave h.

(** Bit 4 of the drive register selects the slave; its low nibble is the top of the address. *)
Definition master_sel (h : channel) : bool := negb (Z.testbit (r_drive h) 4).
Definition selected (h : channel) : option drive := drive_of (master_sel h) h.
Definition lba_of (h : channel) : Z := r_low h + 256 * r_mid h + 65536 * r_high h + 2 ^ 24 * (r_drive h mod 16).

Definition set_reg (p v : Z) (h : channel) : channel :=
  if p =? ATA_SECTOR_COUNT then h <| r_count := v |>
  else if p =? ATA_LBA_LOW then h <| r_low := v |>
  else if p =? ATA_LBA_MID then h <| r_mid := v |>
  else if p =? ATA_LBA_HIGH then h <| r_high := v |>
  else h <| r_drive := v |>.

(** The effect of the three commands; the transfers of one sector. *)
Definition start (c : Z) (h : channel) : phase :=
  match selected h with
  | None => h_phase h
  | Some dr =>
      if c =? ATA_CMD_IDENTIFY then DataIn (d_ident dr)
      else
        match d_data dr !! Z.to_nat (lba_of h) with
        | None => Failed
        | Some ws => if c =? ATA_CMD_READ then DataIn ws else DataOut []
        end
  end.

Definition put_data (f : list (list Z) -> list (list Z)) (dr : drive) : drive := mk_drive (d_ident dr) (f (d_data dr)).
Definition on_drive (master : bool) (f : drive -> drive) (h : channel) : channel :=
  if master then h <| h_master := f <$> h_master h |> else h <| h_slave := f <$> h_slave h |>.

(** A word arrives; the 256th completes the sector. *)
Definition feed (w : Z) (ws : list Z) (h : channel) : channel :=
  if (length ws =? 255)%nat
  then (on_drive (master_sel h) (put_data (fun ss => <[Z.to_nat (lba_of h) := ws ++ [w]]> ss)) h) <| h_phase := Idle |>
  else h <| h_phase := DataOut (ws ++ [w]) |>.

(** No transfer is going on. *)
Definition calm (h : channel) : Prop := h_phase h = Idle \/ h_phase h = Failed.
Definition in_transfer (p : phase) : bool := match p with DataIn _ | DataOut _ => true | _ => false end.
Definition is_failed (p : phase) : bool := match p with Failed => true | _ => false end.

(** The status register: no drive reads as 0; while BSY is set the other bits can be anything. *)
Definition status_law (h : channel) (s : Z) (h' : channel) : Prop :=
  match selected h with
  | None => s = 0 /\ h' = h
  | Some _ =>
      tst s ATA_SR_BSY = negb (h_busy h =? 0)%nat /\
      (h_busy h = 0%nat -> tst s ATA_SR_DRQ = in_transfer (h_phase h) /\ tst s ATA_SR_ERR = is_failed (h_phase h)) /\
      exists n, (n <= pred (h_busy h))%nat /\ h' = h <| h_busy := n |>
  end.

Class AtaController (D : Type) `{PortIO D} := {
  view : D -> channel;
  ctl_busy d : (h_busy (view d) < polls)%nat;
  ctl_status d : status_law (view d) (fst (inb ATA_STATUS d)) (view (snd (inb ATA_STATUS d)));
  (* a register write; selecting another drive may take time *)
  ctl_reg p v d : ATA_SECTOR_COUNT <= p <= ATA_DRIVE -> calm (view d) -> h_busy (view d) = 0%nat ->
    exists n, view (outb p v d) = (set_reg p v (view d)) <| h_busy := n |> /\
      (p <> ATA_DRIVE \/ Z.testbit v 4 = Z.testbit (r_drive (view d)) 4 \/ selected (set_reg p v (view d)) = None -> n = 0%nat);
  ctl_command c d : calm (view d) -> h_busy (view d) = 0%nat ->
    c = ATA_CMD_IDENTIFY \/ ((c = ATA_CMD_READ \/ c = ATA_CMD_WRITE) /\ r_count (view d) = 1) ->
    exists n, view (outb ATA_COMMAND c d) = (view d) <| h_phase := start c (view d) |> <| h_busy := n |> /\
      (selected (view d) = None -> n = 0%nat);
  ctl_inw d w ws : h_phase (view d) = DataIn (w :: ws) -> h_busy (view d) = 0%nat ->
    fst (inw ATA_DATA d) = w /\
    view (snd (inw ATA_DATA d)) = (view d) <| h_phase := match ws with [] => Idle | _ => DataIn ws end |>;
  ctl_inw_calm d : calm (view d) -> view (snd (inw ATA_DATA d)) = view d;
  ctl_outw w ws d : h_phase (view d) = DataOut ws -> h_busy (view d) = 0%nat -> 0 <= w < 65536 ->
    exists n, view (outw ATA_DATA w d) = (feed w ws (view d)) <| h_busy := n |> /\
      ((length ws < 255)%nat -> n = 0%nat);
  ctl_outw_calm w d : calm (view d) -> view (outw ATA_DATA w d) = view d;
  (* the other ports are not the controller's *)
  ctl_other_in p d : p < ATA_DATA \/ ATA_COMMAND < p -> view (snd (inb p d)) = view d;
  ctl_other_out p v d : p < ATA_DATA \/ ATA_COMMAND < p -> view (outb p v d) = view d;
}.

(** Not in the standard: DRQ and ERR read 0 as long as the drive is busy. *)
Class QuietWhileBusy (D : Type) {PIO : PortIO D} {CTL : AtaController D} :=
  quiet_busy d : is_Some (selected (view d)) -> h_busy (view d) <> 0%nat ->
    tst (fst (inb ATA_STATUS d)) ATA_SR_DRQ = false /\ tst (fst (inb ATA_STATUS d)) ATA_SR_ERR = false.

(** Between two requests: no transfer, and an absent drive is not busy. *)
Definition quiet (h : channel) : Prop := calm h /\ (selected h = None -> h_busy h = 0%nat).

(** The same drives with the same contents. *)
Definition same_drives (h h' : channel) : Prop := h_master h' = h_master h /\ h_slave h' = h_slave h.

Lemma list_inserts_insert {A} (k : list A) i j x l : (i < j)%nat ->
  <[i := x]> (list_inserts j k l) = list_inserts j k (<[i := x]> l).
Proof.
  revert j. induction k as [|y k IH]; intros j Hj; cbn [list_inserts]; [done|].
  rewrite list_insert_insert_ne by lia. by rewrite IH by lia.
Qed.

Section Protocol.
Context {D : Type} {PIO : PortIO D} {CTL : AtaController D} {QB : QuietWhileBusy D}.
Implicit Types d : D.

Lemma set_busy_0 h : h_busy h = 0%nat -> h <| h_busy := 0%nat |> = h.
Proof. destruct h; cbn. by intros ->. Qed.

Lemma wait_bsy_loop_spec n d :
  (h_busy (view d) < n)%nat -> (selected (view d) = None -> h_busy (view d) = 0%nat) ->
  exists d', wait_bsy_loop n d = Some d' /\ view d' = (view d) <| h_busy := 0%nat |>.
Proof.
  revert d. induction n as [|n IH]; intros d Hn Hs; [lia|]. cbn [wait_bsy_loop].
  pose proof (ctl_status d) as Hl. destruct (inb ATA_STATUS d) as [s d']. cbn [fst snd] in Hl. unfold status_law in Hl.
  destruct (selected (view d)) eqn:Es.
  - destruct Hl as (-> & _ & m & Hm & E). destruct (Nat.eqb_spec (h_busy (view d)) 0) as [E0|E0]; cbn [negb].
    + exists d'. split; [done|]. rewrite E. by replace m with 0%nat by lia.
    + destruct (IH d') as (d2 & -> & E2); rewrite ?E; [cbn; lia| |].
      { intros Hc. change (selected (view d) = None) in Hc. congruence. }
      exists d2. split; [done|]. rewrite E2, E. done.
  - destruct Hl as [-> E]. exists d'. split; [done|]. rewrite E. by rewrite set_busy_0 by auto.
Qed.

Lemma ata_wait_bsy_spec d : (selected (view d) = None -> h_busy (view d) = 0%nat) ->
  exists d', ata_wait_bsy d = Some d' /\ view d' = (view d) <| h_busy := 0%nat |>.
Proof. intros. apply wait_bsy_loop_spec; [apply ctl_busy|done]. Qed.

Lemma wait_drq_loop_spec n d :
  (h_busy (view d) < n)%nat -> is_Some (selected (view d)) -> h_phase (view d) <> Idle ->
  exists d', wait_drq_loop n d = Some d' /\ view d' = (view d) <| h_busy := 0%nat |>.
Proof.
  revert d. induction n as [|n IH]; intros d Hn Hs Hp; [lia|]. cbn [wait_drq_loop].
  pose proof (ctl_status d) as Hl. pose proof (quiet_busy d Hs) as Hqb.
  destruct (inb ATA_STATUS d) as [s d']. cbn [fst snd] in Hl, Hqb. unfold status_law in Hl.
  destruct Hs as [dr Es]. rewrite Es in Hl. destruct Hl as (_ & Hbits & m & Hm & E).
  destruct (decide (h_busy (view d) = 0%nat)) as [E0|E0]; [destruct (Hbits E0) as [-> ->]|destruct (Hqb E0) as [-> ->]; cbn [andb negb]].
  - exists d'. replace m with 0%nat in E by lia. destruct (h_phase (view d)); done.
  - destruct (IH d') as (d2 & -> & E2); rewrite ?E; [cbn; lia|by exists dr|done|].
    exists d2. split; [done|]. rewrite E2, E. done.
Qed.

Lemma ata_wait_drq_spec d : is_Some (selected (view d)) -> h_phase (view d) <> Idle ->
  exists d', ata_wait_drq d = Some d' /\ view d' = (view d) <| h_busy := 0%nat |>.
Proof. intros. apply wait_drq_loop_spec; [apply ctl_busy|done|done]. Qed.

(** ** One sector *)

(** What writing the task file leaves: the same transfer state and drives, other registers. *)
Definition settled (m : bool) (h : channel) : Prop := calm h /\ h_busy h = 0%nat /\ master_sel h = m.

Lemma reg_write p v d m : settled m (view d) -> ATA_SECTOR_COUNT <= p < ATA_DRIVE ->
  view (outb p v d) = set_reg p v (view d) /\ settled m (view (outb p v d)).
Proof.
  intros (Hc & Hb & Hm) Hp. destruct (ctl_reg p v d) as (n & E & Hn); [lia|done|done|].
  rewrite Hn in E by (left; lia).
  assert (E2 : view (outb p v d) = set_reg p v (view d)).
  { rewrite E. unfold set_reg. unfold ATA_DRIVE, ATA_SECTOR_COUNT in Hp. repeat case_match; by rewrite set_busy_0. }
  split; [done|]. rewrite E2. unfold set_reg, settled. repeat case_match; try done.
  unfold ATA_DRIVE, ATA_SECTOR_COUNT, ATA_LBA_LOW, ATA_LBA_MID, ATA_LBA_HIGH in *. bool_prop. lia.
Qed.

Lemma drive_byte (m : bool) x : 0 <= x < 16 ->
  let v := Z.lor (if m then 0xE0 else 0xF0) x in Z.testbit v 4 = negb m /\ v mod 16 = x.
Proof.
  intros Hx v. assert (exists n, (n < 16)%nat /\ x = Z.of_nat n) as (n & Hn & ->) by (exists (Z.to_nat x); lia).
  subst v. do 16 (destruct n as [|n]; [by destruct m|]). lia.
Qed.

Lemma lba_bytes lba : 0 <= lba < 2 ^ 28 ->
  Z.land lba 0xFF + 256 * Z.land (Z.shiftr lba 8) 0xFF + 65536 * Z.land (Z.shiftr lba 16) 0xFF
    + 2 ^ 24 * Z.land (Z.shiftr lba 24) 0x0F = lba /\ 0 <= Z.land (Z.shiftr lba 24) 0x0F < 16.
Proof.
  intros H0. change 0xFF with (Z.ones 8). change 0x0F with (Z.ones 4). rewrite !Z.land_ones, !Z.shiftr_div_pow2 by lia.
  change (2 ^ 8) with 256. change (2 ^ 16) with 65536. change (2 ^ 24) with 16777216. change (2 ^ 4) with 16.
  zmod.
Qed.

(** Selecting the drive. *)
Lemma ata_select_drive_spec m d : calm (view d) -> h_busy (view d) = 0%nat ->
  exists d', ata_select_drive m d = Some d' /\ settled m (view d') /\ same_drives (view d) (view d').
Proof.
  intros Hc Hb. unfold ata_select_drive.
  destruct (ctl_reg ATA_DRIVE (if m then 0xE0 else 0xF0) d) as (n & E & Hn); [done|done|done|].
  destruct (ata_wait_bsy_spec (outb ATA_DRIVE (if m then 0xE0 else 0xF0) d)) as (d' & -> & E').
  - rewrite E. intros Hs. apply Hn. right; right. exact Hs.
  - exists d'. rewrite E', E. split; [done|]. split; [|done]. split; [done|]. split; [done|]. by destruct m.
Qed.

(** The command for a sector that the selected drive may or may not have. *)
Lemma ata_command_spec m lba cmd d dr : cmd = ATA_CMD_READ \/ cmd = ATA_CMD_WRITE ->
  settled m (view d) -> drive_of m (view d) = Some dr -> 0 <= lba < 2 ^ 28 ->
  let h := view (ata_command m lba cmd d) in
  same_drives (view d) h /\ master_sel h = m /\ lba_of h = lba /\
  h_phase h = match d_data dr !! Z.to_nat lba with
              | None => Failed | Some ws => if cmd =? ATA_CMD_READ then DataIn ws else DataOut [] end.
Proof.
  intros Hcmd H0 Hdr Hlba. unfold ata_command. destruct (lba_bytes lba Hlba) as [Hb Hx].
  destruct (reg_write ATA_SECTOR_COUNT 1 d m H0 ltac:(done)) as [E1 H1]. set (d1 := outb _ _ d) in *.
  destruct (reg_write ATA_LBA_LOW (Z.land lba 0xFF) d1 m H1 ltac:(done)) as [E2 H2]. set (d2 := outb _ _ d1) in *.
  destruct (reg_write ATA_LBA_MID (Z.land (Z.shiftr lba 8) 0xFF) d2 m H2 ltac:(done)) as [E3 H3].
  set (d3 := outb _ _ d2) in *.
  destruct (reg_write ATA_LBA_HIGH (Z.land (Z.shiftr lba 16) 0xFF) d3 m H3 ltac:(done)) as [E4 H4].
  set (d4 := outb _ _ d3) in *. destruct H4 as (Hc & Hbz & Hm).
  set (v := Z.lor _ _). destruct (drive_byte m _ Hx) as [Hv1 Hv2]. fold v in Hv1, Hv2. clearbody v.
  destruct (ctl_reg ATA_DRIVE v d4 ltac:(done) Hc Hbz) as (n & E5 & Hn).
  rewrite Hn in E5 by (right; left; rewrite Hv1; unfold master_sel in Hm; by rewrite <- Hm, negb_involutive).
  set (d5 := outb _ _ d4) in *. rewrite E4, E3, E2, E1 in E5. cbn in E5.
  assert (Hsel : master_sel (view d5) = m) by (rewrite E5; unfold master_sel; cbn [r_drive]; by rewrite Hv1, negb_involutive).
  assert (Hl : lba_of (view d5) = lba) by (rewrite E5; unfold lba_of; cbn [r_low r_mid r_high r_drive]; by rewrite Hv2).
  assert (Hs5 : same_drives (view d) (view d5)) by (by rewrite E5).
  assert (Hd5 : selected (view d5) = Some dr).
  { unfold selected. rewrite Hsel. rewrite E5. exact Hdr. }
  destruct H0 as ([Hc0|Hc0] & _); (destruct (ctl_command cmd d5) as (k & E6 & _);
    [rewrite E5; unfold calm; cbn; rewrite Hc0; auto|by rewrite E5|right; split; [done|by rewrite E5]|]);
  rewrite E6; (split; [exact Hs5|]); (split; [exact Hsel|]); (split; [exact Hl|]); cbn; unfold start;
  rewrite Hd5, Hl; destruct Hcmd as [-> | ->]; reflexivity.
Qed.

(** A request up to its data phase. *)
Lemma ata_request m lba cmd d dr : cmd = ATA_CMD_READ \/ cmd = ATA_CMD_WRITE ->
  quiet (view d) -> drive_of m (view d) = Some dr -> 0 <= lba < 2 ^ 28 ->
  exists d1 d2 d3, ata_wait_bsy d = Some d1 /\ ata_select_drive m d1 = Some d2 /\
    ata_wait_drq (ata_command m lba cmd d2) = Some d3 /\
    same_drives (view d) (view d3) /\ master_sel (view d3) = m /\ lba_of (view d3) = lba /\ h_busy (view d3) = 0%nat /\
    h_phase (view d3) = match d_data dr !! Z.to_nat lba with
                        | None => Failed | Some ws => if cmd =? ATA_CMD_READ then DataIn ws else DataOut [] end.
Proof.
  intros Hcmd [Hc Hb] Hdr Hlba. destruct (ata_wait_bsy_spec d Hb) as (d1 & -> & E1).
  destruct (ata_select_drive_spec m d1) as (d2 & E2 & Hs2 & [Hm2 Hl2]); [by rewrite E1|by rewrite E1|].
  rewrite E1 in Hm2, Hl2. cbn in Hm2, Hl2.
  destruct (ata_command_spec m lba cmd d2 dr Hcmd Hs2) as ([Hm3 Hl3] & Hsel & Hl & Hp).
  { rewrite <- Hdr. destruct m; cbn; done. } { done. }
  set (d3 := ata_command m lba cmd d2) in *.
  destruct (ata_wait_drq_spec d3) as (d4 & E4 & Ev).
  { unfold selected. rewrite Hsel. exists dr. rewrite <- Hdr. destruct m; cbn; congruence. }
  { rewrite Hp. repeat case_match; done. }
  exists d1, d2, d4. rewrite Ev. splits; try done; unfold same_drives; cbn; split; congruence.
Qed.

(** ** Transfers *)

Lemma read_words_in ws w d : h_phase (view d) = DataIn (w :: ws) -> h_busy (view d) = 0%nat ->
  exists d', read_words (S (length ws)) d = (w :: ws, d') /\ view d' = (view d) <| h_phase := Idle |>.
Proof.
  revert w d. induction ws as [|w' ws IH]; intros w d Hp Hb; cbn [length read_words];
  destruct (ctl_inw d w _ Hp Hb) as [Hw Hv]; destruct (inw ATA_DATA d) as [x d1]; cbn [fst snd] in Hw, Hv; subst x.
  - by exists d1.
  - destruct (IH w' d1) as (d2 & E & Ev); [by rewrite Hv|by rewrite Hv|]. cbn [read_words] in E. rewrite E.
    exists d2. split; [done|]. rewrite Ev, Hv. done.
Qed.

Lemma read_words_calm n d : calm (view d) ->
  length (fst (read_words n d)) = n /\ view (snd (read_words n d)) = view d.
Proof.
  revert d. induction n as [|n IH]; intros d Hc; cbn [read_words]; [done|].
  pose proof (ctl_inw_calm d Hc) as E. destruct (inw ATA_DATA d) as [x d1]. cbn [snd] in E.
  destruct (IH d1) as [E1 E2]; [by rewrite E|]. destruct (read_words n d1) as [ws d2]. cbn in *. split; [lia|congruence].
Qed.

(** The words of a buffer. *)
Fixpoint words_of (buf : list Z) (n : nat) {struct n} : list Z :=
  match n, buf with S n', lo :: hi :: buf => (lo + 256 * hi) :: words_of buf n' | _, _ => [] end.

Definition bytes (l : list Z) : Prop := Forall (fun b => 0 <= b < 256) l.

Lemma words_of_spec n buf : (2 * n <= length buf)%nat -> bytes buf ->
  length (words_of buf n) = n /\ words_of buf n ≫= word_bytes = take (2 * n) buf.
Proof.
  revert buf. induction n as [|n IH]; intros buf Hl Hb; [done|].
  destruct buf as [|lo [|hi buf]]; cbn in Hl; [lia|lia|]. cbn [words_of]. inversion Hb as [|? ? H1 Hb']; subst.
  inversion Hb' as [|? ? H2 Hb'']; subst. destruct (IH buf) as [E1 E2]; [lia|done|].
  split; [cbn; lia|]. cbn [mbind list_bind]. change (_ ≫= _) with (words_of buf n ≫= word_bytes). rewrite E2.
  replace (2 * S n)%nat with (S (S (2 * n))) by lia. cbn [take]. unfold word_bytes. cbn [app]. repeat f_equal; zmod.
Qed.

Lemma write_buffer_out n buf ws d :
  h_phase (view d) = DataOut ws -> h_busy (view d) = 0%nat -> (length ws + n = 256)%nat -> (0 < n)%nat ->
  (2 * n <= length buf)%nat -> bytes buf ->
  exists d' k, ata_write_buffer buf n d = Some d' /\
    view d' = (on_drive (master_sel (view d)) (put_data (fun ss => <[Z.to_nat (lba_of (view d)) := ws ++ words_of buf n]> ss))
                 (view d)) <| h_phase := Idle |> <| h_busy := k |>.
Proof.
  revert buf ws d. induction n as [|n IH]; intros buf ws d Hp Hb Hn H0 Hl Hbs; [lia|].
  destruct buf as [|lo [|hi buf]]; cbn in Hl; [lia|lia|]. cbn [ata_write_buffer words_of]. inversion Hbs as [|? ? H1 Hb']; subst.
  inversion Hb' as [|? ? H2 Hb'']; subst.
  destruct (ctl_outw (lo + 256 * hi) ws d Hp Hb ltac:(lia)) as (k & E & Hk). unfold feed in E.
  destruct n as [|n].
  - replace (length ws =? 255)%nat with true in E by (symmetry; apply Nat.eqb_eq; lia).
    eexists _, k. split; [done|]. exact E.
  - replace (length ws =? 255)%nat with false in E by (symmetry; apply Nat.eqb_neq; lia).
    rewrite Hk in E by lia. set (d1 := outw _ _ d) in *.
    destruct (IH buf (ws ++ [lo + 256 * hi]) d1) as (d2 & k2 & -> & E2); rewrite ?E; try done.
    + rewrite length_app. cbn. lia.
    + lia.
    + lia.
    + exists d2, k2. split; [done|].
      assert (Hm : master_sel (view d1) = master_sel (view d)) by (by rewrite E).
      assert (Ha : lba_of (view d1) = lba_of (view d)) by (by rewrite E).
      rewrite E2, Hm, Ha, E, <- app_assoc. unfold on_drive. by destruct (master_sel (view d)).
Qed.

Lemma write_buffer_calm n buf d : calm (view d) -> (2 * n <= length buf)%nat ->
  exists d', ata_write_buffer buf n d = Some d' /\ view d' = view d.
Proof.
  revert buf d. induction n as [|n IH]; intros buf d Hc Hl; [by exists d|].
  destruct buf as [|lo [|hi buf]]; cbn in Hl; [lia|lia|]. cbn [ata_write_buffer].
  pose proof (ctl_outw_calm (lo + 256 * hi) d Hc) as E.
  destruct (IH buf (outw ATA_DATA (lo + 256 * hi) d)) as (d' & -> & E'); [by rewrite E|lia|]. exists d'. split; [done|congruence].
Qed.

(** ** Requests of several sectors *)

Definition sector_bytes (ws : list Z) : list Z := ws ≫= word_bytes.
Definition contents (dr : drive) : list (list Z) := sector_bytes <$> d_data dr.

(** Sectors of 256 words, as many as 28 bits address. *)
Definition drive_ok (dr : drive) : Prop :=
  Z.of_nat (length (d_data dr)) <= 2 ^ 28 /\ Forall (fun ws => length ws = 256%nat) (d_data dr).

Lemma same_drive_of m h h' : same_drives h h' -> drive_of m h' = drive_of m h.
Proof. intros [? ?]. by destruct m. Qed.

Lemma quiet_sel m h : calm h -> master_sel h = m -> is_Some (drive_of m h) -> quiet h.
Proof. intros Hc Hm [dr E]. split; [done|]. unfold selected. rewrite Hm, E. done. Qed.

Lemma read_sectors_loop_spec m dr n lba d :
  quiet (view d) -> drive_of m (view d) = Some dr -> drive_ok dr -> 0 <= lba -> lba + Z.of_nat n <= Z.of_nat (length (d_data dr)) ->
  exists d', read_sectors_loop m lba n d = Some (mjoin (take n (drop (Z.to_nat lba) (contents dr))), d') /\
    quiet (view d') /\ same_drives (view d) (view d').
Proof.
  revert lba d. induction n as [|n IH]; intros lba d Hq Hdr Hok H0 Hn; cbn [read_sectors_loop]; [by exists d|].
  destruct Hok as [Hsz Hws]. destruct (d_data dr !! Z.to_nat lba) as [ws|] eqn:Ews; [|apply lookup_ge_None in Ews; lia].
  destruct (ata_request m lba ATA_CMD_READ d dr) as (d1 & d2 & d3 & -> & Es & Ed & Hs & Hm & _ & Hb & Hp); [by left|done|done|lia|].
  cbn [mbind option_bind]. rewrite Es. cbn [mbind option_bind]. rewrite Ed. cbn [mbind option_bind]. rewrite Ews in Hp. cbn in Hp.
  pose proof (Forall_lookup_1 _ _ _ _ Hws Ews) as Hlen. cbn in Hlen. destruct ws as [|w ws]; [done|].
  destruct (read_words_in ws w d3 Hp Hb) as (d4 & E4 & Ev4).
  unfold ata_read_buffer. change (512 / 2)%nat with 256%nat. rewrite <- Hlen. cbn [length]. rewrite E4.
  assert (Hs4 : same_drives (view d) (view d4)) by (rewrite Ev4; exact Hs).
  destruct (IH (lba + 1) d4) as (d5 & E5 & Hq5 & Hs5); [|by rewrite (same_drive_of m _ _ Hs4)|done|lia|lia|].
  { apply (quiet_sel m); [rewrite Ev4; by left|by rewrite Ev4|]. rewrite (same_drive_of m _ _ Hs4), Hdr. eauto. }
  rewrite wrap32_small by lia. rewrite E5. cbn [mbind option_bind]. exists d5. split; [|split; [done|]].
  - rewrite Z2Nat.inj_add, Nat.add_1_r by lia.
    rewrite (drop_S (contents dr) (sector_bytes (w :: ws)) (Z.to_nat lba)); [done|]. unfold contents. by rewrite list_lookup_fmap, Ews.
  - destruct Hs4, Hs5. split; congruence.
Qed.

(** The sectors of a buffer. *)
Fixpoint sectors_of (buf : list Z) (n : nat) : list (list Z) :=
  match n with O => [] | S n' => words_of buf 256 :: sectors_of (drop 512 buf) n' end.

Definition set_drive (m : bool) (f : drive -> drive) (h h' : channel) : Prop :=
  drive_of m h' = f <$> drive_of m h /\ drive_of (negb m) h' = drive_of (negb m) h.

Lemma write_sectors_loop_spec m dr n lba buf d :
  quiet (view d) -> drive_of m (view d) = Some dr -> drive_ok dr -> 0 <= lba -> lba + Z.of_nat n <= Z.of_nat (length (d_data dr)) ->
  (512 * n <= length buf)%nat -> bytes buf ->
  exists d', write_sectors_loop m lba buf n d = Some d' /\ quiet (view d') /\
    set_drive m (put_data (list_inserts (Z.to_nat lba) (sectors_of buf n))) (view d) (view d').
Proof.
  revert lba buf dr d. induction n as [|n IH]; intros lba buf dr d Hq Hdr Hok H0 Hn Hl Hbs; cbn [write_sectors_loop].
  { exists d. split; [done|]. split; [done|]. split; [|done]. rewrite Hdr. cbn. by destruct dr. }
  pose proof Hok as [Hsz Hws]. destruct (d_data dr !! Z.to_nat lba) as [ws|] eqn:Ews; [|apply lookup_ge_None in Ews; lia].
  destruct (ata_request m lba ATA_CMD_WRITE d dr) as (d1 & d2 & d3 & -> & Es & Ed & Hs & Hm & Ha & Hb & Hp); [by right|done|done|lia|].
  cbn [mbind option_bind]. rewrite Es. cbn [mbind option_bind]. rewrite Ed. cbn [mbind option_bind]. rewrite Ews in Hp. cbn in Hp.
  destruct (write_buffer_out 256 buf [] d3 Hp Hb) as (d4 & k & -> & Ev4); [done|lia|lia|done|].
  cbn [mbind option_bind]. rewrite Hm, Ha in Ev4. cbn [app] in Ev4.
  set (f := fun ss : list (list Z) => <[Z.to_nat lba := words_of buf 256]> ss) in *.
  assert (Hs4 : drive_of m (view d4) = Some (put_data f dr) /\ drive_of (negb m) (view d4) = drive_of (negb m) (view d)).
  { rewrite Ev4. destruct Hs as [Hs1 Hs2], m; cbn in *; rewrite ?Hs1, ?Hs2, ?Hdr; done. }
  destruct Hs4 as [Hd4 Ho4].
  assert (Hq4 : quiet (view d4)).
  { apply (quiet_sel m); [rewrite Ev4; by left| |by rewrite Hd4]. rewrite Ev4. unfold on_drive. destruct m; exact Hm. }
  assert (Hlw : length (words_of buf 256) = 256%nat) by (apply words_of_spec; [lia|done]).
  destruct (IH (lba + 1) (drop 512 buf) (put_data f dr) d4) as (d5 & E5 & Hq5 & Hs5 & Ho5); try done; try lia.
  - split; cbn; unfold f; [by rewrite length_insert|]. by apply Forall_insert.
  - cbn. unfold f. rewrite length_insert. lia.
  - rewrite length_drop. lia.
  - by apply Forall_drop.
  - rewrite wrap32_small by lia. exists d5. split; [done|]. split; [done|]. split; [|congruence].
    rewrite Hs5, Hd4, Hdr. cbn. unfold put_data. cbn. do 2 f_equal. unfold f.
    rewrite Z2Nat.inj_add, Nat.add_1_r by lia. cbn. by rewrite <- list_inserts_insert by lia.
Qed.
End Protocol.

(** ** Two disks of 512-byte sectors *)

Definition disks : Type := option (list (list Z)) * option (list (list Z)).
Definition disk_of (m : bool) (ds : disks) : option (list (list Z)) := if m then ds.1 else ds.2.
Definition on_disk (m : bool) (f : list (list Z) -> list (list Z)) (ds : disks) : disks :=
  if m then (f <$> ds.1, ds.2) else (ds.1, f <$> ds.2).

(** Requests to the two block devices. *)
Inductive request :=
  | ReadReq (master : bool) (lba nsec : Z)
  | WriteReq (master : bool) (lba : Z) (buf : list Z) (nsec : Z).

Fixpoint byte_sectors (buf : list Z) (n : nat) : list (list Z) :=
  match n with O => [] | S n' => take 512 buf :: byte_sectors (drop 512 buf) n' end.

Definition spec_request (r : request) (ds : disks) : Z * list Z * disks :=
  match r with
  | ReadReq m lba nsec => (0, mjoin (take (Z.to_nat nsec) (drop (Z.to_nat lba) (default [] (disk_of m ds)))), ds)
  | WriteReq m lba buf nsec => (0, [], on_disk m (list_inserts (Z.to_nat lba) (byte_sectors buf (Z.to_nat nsec))) ds)
  end.

(** The request is for sectors of the disk, and the buffer has its data. *)
Definition in_disk (m : bool) (lba nsec : Z) (ds : disks) : Prop :=
  0 <= lba /\ 0 < nsec /\ exists ss, disk_of m ds = Some ss /\ lba + nsec <= Z.of_nat (length ss).
Definition valid_request (r : request) (ds : disks) : Prop :=
  match r with
  | ReadReq m lba nsec => in_disk m lba nsec ds
  | WriteReq m lba buf nsec => in_disk m lba nsec ds /\ Z.of_nat (length buf) = 512 * nsec /\ bytes buf
  end.

Fixpoint spec_requests (rs : list request) (ds : disks) : list (Z * list Z) * disks :=
  match rs with
  | [] => ([], ds)
  | r :: rs => let '(o, ds) := spec_request r ds in let '(os, ds) := spec_requests rs ds in (o :: os, ds)
  end.

Fixpoint valid_requests (rs : list request) (ds : disks) : Prop :=
  match rs with
  | [] => True
  | r :: rs => valid_request r ds /\ valid_requests rs (snd (spec_request r ds))
  end.

Lemma list_inserts_fmap {A B} (g : A -> B) i cs l : g <$> list_inserts i cs l = list_inserts i (g <$> cs) (g <$> l).
Proof. revert i. induction cs as [|c cs IH]; intros i; cbn; [done|]. by rewrite list_fmap_insert, IH. Qed.

Lemma Forall_inserts {A} (Q : A -> Prop) i cs l : Forall Q cs -> Forall Q l -> Forall Q (list_inserts i cs l).
Proof. intros Hc. revert i. induction Hc; intros i Hl; cbn; [done|]. apply Forall_insert; auto. Qed.

Lemma sectors_of_bytes n buf : (512 * n <= length buf)%nat -> bytes buf ->
  sector_bytes <$> sectors_of buf n = byte_sectors buf n /\ Forall (fun ws => length ws = 256%nat) (sectors_of buf n).
Proof.
  revert buf. induction n as [|n IH]; intros buf Hl Hb; [split; [done|constructor]|]. cbn [sectors_of byte_sectors].
  destruct (words_of_spec 256 buf) as [E1 E2]; [lia|done|].
  destruct (IH (drop 512 buf)) as [E3 E4]; [rewrite length_drop; lia|by apply Forall_drop|].
  split; [|by constructor]. rewrite fmap_cons, E3. by f_equal.
Qed.

Section Refinement.
Context {A D : Type} {PIO : PortIO D} {CTL : AtaController D} {QB : QuietWhileBusy D}.
Implicit Types (d : D) (s : bdevs A (option D)).

(** The block devices of the two drives, through [bdev_read] and [bdev_write]. *)
Definition do_request (devs : bool -> ata_device) (r : request) s : Z * list Z * bdevs A (option D) :=
  match r with
  | ReadReq m lba nsec => bdev_read (Some (ata_bdev (lit "ata") (devs m))) lba nsec 0 s
  | WriteReq m lba buf nsec => let '(r, s) := bdev_write (Some (ata_bdev (lit "ata") (devs m))) lba buf nsec 0 s in (r, [], s)
  end.

Fixpoint do_requests (devs : bool -> ata_device) (rs : list request) s : list (Z * list Z) * bdevs A (option D) :=
  match rs with
  | [] => ([], s)
  | r :: rs => let '(o, s) := do_request devs r s in let '(os, s) := do_requests devs rs s in (o :: os, s)
  end.

(** The hardware holds the disks [ds] and waits for a request. *)
Definition holds (ds : disks) s : Prop :=
  exists d, disk s = Some d /\ quiet (view d) /\
    (forall m dr, drive_of m (view d) = Some dr -> drive_ok dr) /\
    ds = (contents <$> h_master (view d), contents <$> h_slave (view d)).

Lemma disk_of_contents m h : disk_of m (contents <$> h_master h, contents <$> h_slave h) = contents <$> drive_of m h.
Proof. by destruct m. Qed.

(** Each device was identified as the drive it stands for. *)
Definition identified (devs : bool -> ata_device) : Prop := forall m, present (devs m) = true /\ is_master (devs m) = m.

Lemma do_request_spec devs r ds s : identified devs -> holds ds s -> valid_request r ds ->
  exists s', do_request devs r s = (fst (spec_request r ds), s') /\ holds (snd (spec_request r ds)) s'.
Proof.
  intros Hdev (d & Ed & Hq & Hok & ->) Hv.
  assert (Hin : forall m lba nsec, in_disk m lba nsec (contents <$> h_master (view d), contents <$> h_slave (view d)) ->
    0 <= lba < 2 ^ 28 /\ 0 < nsec /\ exists dr, drive_of m (view d) = Some dr /\ drive_ok dr /\
      lba + Z.of_nat (Z.to_nat nsec) <= Z.of_nat (length (d_data dr))).
  { intros m lba nsec (H0 & H1 & ss & E & H2). rewrite disk_of_contents in E. apply fmap_Some in E as (dr & E & ->).
    unfold contents in H2. rewrite length_fmap in H2. pose proof (Hok m dr E) as [Hsz Hws].
    split; [lia|]. split; [done|]. exists dr. split; [done|]. split; [done|]. lia. }
  destruct r as [m lba nsec|m lba buf nsec]; cbn [do_request spec_request fst snd] in *.
  - destruct (Hin m lba nsec Hv) as (H0 & H1 & dr & Hdr & Hdo & Hn). destruct (Hdev m) as [Hp Hm].
    destruct (read_sectors_loop_spec m dr (Z.to_nat nsec) lba d) as (d' & E & Hq' & Hs); try done; [lia|].
    unfold bdev_read, ata_bdev. cbn [mbind option_bind b_read]. rewrite Ed. cbn [mbind option_bind].
    unfold ata_bdev_read, ata_read_sectors. rewrite Hp, wrap32_small by lia. cbn [negb orb].
    replace (nsec =? 0) with false by lia. rewrite Hm, E. cbn [mbind option_bind].
    eexists. split; [by rewrite disk_of_contents, Hdr|]. exists d'. split; [done|]. split; [done|]. split.
    + intros m' dr' E'. rewrite (same_drive_of m' _ _ Hs) in E'. eauto.
    + destruct Hs as [-> ->]. done.
  - destruct Hv as (Hv & Hl & Hb). destruct (Hin m lba nsec Hv) as (H0 & H1 & dr & Hdr & Hdo & Hn). destruct (Hdev m) as [Hp Hm].
    destruct (write_sectors_loop_spec m dr (Z.to_nat nsec) lba buf d) as (d' & E & Hq' & Hs & Ho); try done; [lia|lia|].
    destruct (sectors_of_bytes (Z.to_nat nsec) buf) as [Eb Hw]; [lia|done|].
    unfold bdev_write, ata_bdev. cbn [mbind option_bind b_write]. rewrite Ed. cbn [mbind option_bind].
    unfold ata_bdev_write, ata_write_sectors. rewrite Hp, wrap32_small by lia. cbn [negb orb].
    replace (nsec =? 0) with false by lia. rewrite Hm, E. cbn [mbind option_bind].
    eexists. split; [done|]. exists d'. split; [done|]. split; [done|]. split.
    + intros m' dr' E'. destruct (decide (m' = m)) as [->|Hne].
      * rewrite Hs, Hdr in E'. injection E' as <-. destruct Hdo as [Hsz Hws].
        split; cbn; [by rewrite length_inserts|by apply Forall_inserts].
      * assert (m' = negb m) as -> by (by destruct m, m'). rewrite Ho in E'. eauto.
    + rewrite Hdr in Hs. rewrite <- Eb.
      destruct m; cbn in *; rewrite Hs, Ho, Hdr; cbn; unfold contents; cbn [d_data]; by rewrite list_inserts_fmap.
Qed.


(** The driver reports success when the drive reports an error: reading or writing one
    sector that the drive does not have returns 0.  The read stores 512 bytes that are not of
    the disk, the write changes nothing. *)
Theorem ata_error_is_success dev lba dr d :
  quiet (view d) -> present dev = true -> drive_of (is_master dev) (view d) = Some dr ->
  0 <= lba < 2 ^ 28 -> Z.of_nat (length (d_data dr)) <= lba ->
  (exists bs d', ata_read_sectors (Some dev) lba 1 d = Some (0, bs, d') /\ length bs = 512%nat) /\
  (forall buf, length buf = 512%nat ->
     exists d', ata_write_sectors (Some dev) lba buf 1 d = Some (0, d') /\ same_drives (view d) (view d')).
Proof.
  intros Hq Hp Hdr Hlba Hout. assert (Enone : d_data dr !! Z.to_nat lba = None) by (apply lookup_ge_None; lia).
  set (m := is_master dev) in *. split.
  - destruct (ata_request m lba ATA_CMD_READ d dr) as (d1 & d2 & d3 & E1 & E2 & E3 & Hs & _ & _ & _ & Hph); [by left|done..|].
    rewrite Enone in Hph. destruct (read_words_calm 256 d3) as [Hl Hv]; [by right|].
    unfold ata_read_sectors. rewrite Hp. cbn [negb orb Z.eqb]. change (Z.to_nat 1) with 1%nat. cbn [read_sectors_loop].
    fold m. rewrite E1. cbn [mbind option_bind]. rewrite E2. cbn [mbind option_bind]. rewrite E3. cbn [mbind option_bind].
    unfold ata_read_buffer. change (512 / 2)%nat with 256%nat. destruct (read_words 256 d3) as [ws d4]. cbn [fst snd] in *.
    cbn [mbind option_bind]. eexists _, _. split; [done|]. rewrite app_nil_r. clear -Hl.
    enough (length (ws ≫= word_bytes) = 2 * length ws)%nat by lia. clear Hl.
    induction ws as [|w ws IH]; [done|]. cbn. cbn in IH. lia.
  - intros buf Hl.
    destruct (ata_request m lba ATA_CMD_WRITE d dr) as (d1 & d2 & d3 & E1 & E2 & E3 & Hs & _ & _ & _ & Hph); [by right|done..|].
    rewrite Enone in Hph. destruct (write_buffer_calm 256 buf d3) as (d4 & E4 & Hv); [by right|lia|].
    unfold ata_write_sectors. rewrite Hp. cbn [negb orb Z.eqb]. change (Z.to_nat 1) with 1%nat. cbn [write_sectors_loop].
    fold m. rewrite E1. cbn [mbind option_bind]. rewrite E2. cbn [mbind option_bind]. rewrite E3. cbn [mbind option_bind].
    rewrite E4. cbn [mbind option_bind]. exists d4. split; [done|]. rewrite Hv. exact Hs.
Qed.
End Refinement.

(** ** A controller: BSY shows for two polls after a command or a change of drive *)

Definition clip (h : channel) : channel := h <| h_busy := Nat.min (h_busy h) 3 |>.

(** The status while the drive is busy. *)
Section Sim.
Variable busy_status : Z.

Definition sim_status (h : channel) : Z :=
  match selected h with
  | None => 0
  | Some _ =>
      if (h_busy h =? 0)%nat
      then if in_transfer (h_phase h) then 0x48 else if is_failed (h_phase h) then 0x41 else 0x40
      else busy_status
  end.

Definition sim_outb (p v : Z) (h : channel) : channel :=
  let h := clip h in
  if (ATA_SECTOR_COUNT <=? p) && (p <=? ATA_DRIVE) then
    let slow := (p =? ATA_DRIVE) && negb (eqb (Z.testbit v 4) (Z.testbit (r_drive h) 4)) in
    let h := set_reg p v h in
    match selected h with Some _ => if slow then h <| h_busy := 2%nat |> else h | None => h end
  else if p =? ATA_COMMAND then
    match selected h with Some _ => h <| h_phase := start v h |> <| h_busy := 2%nat |> | None => h end
  else h.

Definition sim_inw (p : Z) (h : channel) : Z * channel :=
  let h := clip h in
  if negb (h_busy h =? 0)%nat then (0, h)
  else match h_phase h with
  | DataIn (w :: ws) => (w, h <| h_phase := match ws with [] => Idle | _ => DataIn ws end |>)
  | _ => (0, h)
  end.

Definition sim_outw (p w : Z) (h : channel) : channel :=
  let h := clip h in match h_phase h with DataOut ws => feed w ws h | _ => h end.

Definition sim_inb (p : Z) (h : channel) : Z * channel :=
  let h := clip h in
  if p =? ATA_STATUS
  then (sim_status h, match selected h with Some _ => h <| h_busy := pred (h_busy h) |> | None => h end)
  else (0x20, h).

Definition sim_of : Type := channel.
#[local] Instance sim_of_ports : PortIO sim_of := {|
  inb := sim_inb; inw := sim_inw; outb := sim_outb; outw := sim_outw; polls := 4 |}.

Lemma clip_clip h : clip (clip h) = clip h.
Proof. destruct h. unfold clip. cbn. f_equal. lia. Qed.

Lemma clip_small h : (h_busy h <= 3)%nat -> clip h = h.
Proof. destruct h. unfold clip. cbn. intros. f_equal. lia. Qed.

Lemma busy_id h : h = h <| h_busy := h_busy h |>.
Proof. by destruct h. Qed.

Lemma sim_reg p v (h : channel) : ATA_SECTOR_COUNT <= p <= ATA_DRIVE -> h_busy (clip h) = 0%nat ->
  exists n, clip (sim_outb p v h) = (set_reg p v (clip h)) <| h_busy := n |> /\
    (p <> ATA_DRIVE \/ Z.testbit v 4 = Z.testbit (r_drive (clip h)) 4 \/ selected (set_reg p v (clip h)) = None -> n = 0%nat).
Proof.
  intros Hp Hb. unfold sim_outb. set (h0 := clip h) in *. clearbody h0.
  replace ((ATA_SECTOR_COUNT <=? p) && (p <=? ATA_DRIVE)) with true by (symmetry; apply andb_true_iff; lia).
  set (slow := (_ && _)%bool). set (h1 := set_reg p v h0).
  assert (Hb1 : h_busy h1 = 0%nat) by (unfold h1, set_reg; repeat case_match; done).
  assert (E0 : clip h1 = h1 <| h_busy := 0%nat |>) by (destruct h1; cbn in *; by subst).
  destruct (selected h1) eqn:Es; [destruct slow eqn:Esl|]; eexists; (split; [done || exact E0|]); try done.
  unfold slow in Esl. bool_prop. intros [?|[E|?]]; [done| |done].
  match goal with H : eqb _ _ = false |- _ => by rewrite E, eqb_reflx in H end.
Qed.

Hypothesis is_busy : tst busy_status ATA_SR_BSY = true.

Lemma sim_polled h : status_law (clip h) (fst (sim_inb ATA_STATUS h)) (clip (snd (sim_inb ATA_STATUS h))).
Proof.
  unfold sim_inb. cbn [Z.eqb fst snd]. rewrite Z.eqb_refl. cbn [fst snd]. unfold status_law, sim_status.
  assert (Hb : (h_busy (clip h) <= 3)%nat) by (cbn; lia). set (h0 := clip h) in *. clearbody h0.
  destruct (selected h0) eqn:Es; [|split; [done|by apply clip_small]].
  splits.
  { destruct (Nat.eqb_spec (h_busy h0) 0); cbn [negb]; [by destruct (h_phase h0)|done]. }
  { intros ->. cbn [Nat.eqb]. by destruct (h_phase h0). }
  exists (pred (h_busy h0)). split; [done|]. apply clip_small. cbn. lia.
Qed.

#[local] Instance sim_of_ctl : AtaController sim_of.
Proof.
  refine {| view := clip : sim_of -> channel |}.
  - intros d. cbn. lia.
  - apply sim_polled.
  - intros p v d Hp _ Hb. by apply sim_reg.
  - intros c d _ Hb _. cbn [outb sim_of_ports]. unfold sim_outb. cbn [Z.leb Z.compare].
    assert (Hd : (h_busy (clip d) <= 3)%nat) by (cbn; lia). set (h := clip d) in *. clearbody h.
    destruct (selected h) eqn:Es; [by exists 2%nat|]. exists 0%nat. split; [|done]. unfold start. rewrite Es.
    cbn. rewrite clip_small by done. destruct h. cbn in *. by subst.
  - intros d w ws Hp Hb. cbn [inw sim_of_ports]. unfold sim_inw. rewrite Hb, Hp. split; [done|]. cbn [snd Nat.eqb negb].
    apply clip_small. cbn. lia.
  - intros d Hc. cbn [inw sim_of_ports]. unfold sim_inw. destruct (negb _); [apply clip_clip|]. destruct Hc as [-> | ->]; cbn [snd]; apply clip_clip.
  - intros w ws d Hp Hb _. cbn [outw sim_of_ports]. unfold sim_outw. rewrite Hp. exists 0%nat. split; [|done].
    assert (Hf : h_busy (feed w ws (clip d)) = 0%nat) by (unfold feed, on_drive; repeat case_match; done).
    destruct (feed w ws (clip d)). cbn in *. by subst.
  - intros w d Hc. cbn [outw sim_of_ports]. unfold sim_outw. destruct Hc as [-> | ->]; apply clip_clip.
  - intros p d Hp. cbn [inb sim_of_ports]. unfold sim_inb. replace (p =? ATA_STATUS) with false by (unfold ATA_STATUS, ATA_DATA, ATA_COMMAND in *; lia).
    apply clip_clip.
  - intros p v d Hp. cbn [outb sim_of_ports]. unfold sim_outb.
    replace ((ATA_SECTOR_COUNT <=? p) && (p <=? ATA_DRIVE)) with false
      by (symmetry; apply andb_false_iff; unfold ATA_SECTOR_COUNT, ATA_DRIVE, ATA_DATA, ATA_COMMAND in *; lia).
    replace (p =? ATA_COMMAND) with false by (unfold ATA_DATA, ATA_COMMAND in *; lia). apply clip_clip.
Defined.

Lemma sim_of_quiet : tst busy_status ATA_SR_DRQ = false -> tst busy_status ATA_SR_ERR = false -> QuietWhileBusy sim_of.
Proof.
  intros H1 H2 d [dr Hs] Hb. cbn [inb sim_of_ports]. unfold sim_inb, sim_status. rewrite Z.eqb_refl. cbn [fst].
  change (selected (clip d) = Some dr) in Hs. rewrite Hs. change (h_busy (clip d) <> 0%nat) in Hb.
  by destruct (Nat.eqb_spec (h_busy (clip d)) 0).
Qed.
End Sim.

(** BSY alone while busy. *)
Definition sim : Type := sim_of.
#[global] Instance sim_ports : PortIO sim := sim_of_ports 0x80.
#[global] Instance sim_ctl : AtaController sim := sim_of_ctl 0x80 eq_refl.
#[global] Instance sim_quiet : QuietWhileBusy sim := sim_of_quiet 0x80 eq_refl eq_refl eq_refl.


(** A master of two blank sectors, no slave. *)
Definition blank_drive : drive := mk_drive (replicate 256 0) [replicate 256 0; replicate 256 0].
Definition sim0 : sim := mk_channel 0 0 0 0 0xE0 Idle 0 (Some blank_drive) None.
Definition ata_dev (m : bool) : ata_device := mk_ata true 0 0 2 [] [] m.
Definition machine0 : bdevs unit (option sim) := mk_bdevs tt [] [] (Some sim0).


Lemma ata_error_is_success_witness :
  exists bs d', ata_read_sectors (Some (ata_dev true)) 2 1 sim0 = Some (0, bs, d') /\ length bs = 512%nat.
Proof.
  apply (ata_error_is_success (ata_dev true) 2 blank_drive sim0); [split; [by left|done]|done|done|lia|cbn; lia].
Defined.

(** BSY and DRQ while busy. *)
Definition noisy : Type := sim_of.
#[local] Instance noisy_ports : PortIO noisy := sim_of_ports 0x88.
#[local] Instance noisy_ctl : AtaController noisy := sim_of_ctl 0x88 eq_refl.

(** A controller with all the laws of the protocol that shows DRQ together with BSY: the
    driver takes the data before they are there.  It reports success and returns zeros for
    a sector full of sevens. *)
Definition sevens : drive := mk_drive (replicate 256 0) [replicate 256 (7 + 256 * 7)].
Definition noisy0 : noisy := mk_channel 0 0 0 0 0xE0 Idle 0 (Some sevens) None.

Theorem ata_reads_early :
  quiet (view noisy0) /\ contents sevens = [replicate 512 7] /\
  exists d', ata_read_sectors (Some (ata_dev true)) 0 1 noisy0 = Some (0, replicate 512 0, d').
Proof.
  split; [split; [by left|done]|]. split; [reflexivity|].
  assert (Hc : match ata_read_sectors (Some (ata_dev true)) 0 1 noisy0 with
    | Some (r, bs, _) => bool_decide (r = 0 /\ bs = replicate 512 0) | None => false end = true) by (vm_compute; reflexivity).
  destruct (ata_read_sectors _ 0 1 noisy0) as [[[r bs] d']|]; [|discriminate Hc]. exists d'.
  by apply bool_decide_eq_true in Hc as [-> ->].
Qed.
