(* ===== verification/AtaBoot.v ===== *)
(** * Probing the disks at boot

    [ata_identify], [ata_init] and [bdev_selftest] on a machine with an ATA controller and a
    serial port. *)

From S2P Require Import Prelude Task Cstr Tar Ports Bdev Ata AtaTheorems.

Section Boot.
Context {A D : Type} {PIO : PortIO D} {CTL : AtaController D} {QB : QuietWhileBusy D} {UART : Uart (D := D)}.
Implicit Types (d : D) (s : bdevs A (option D)).

(** ** The serial port is not the controller's *)

Lemma serial_wait_view n d d' : serial_wait n d = Some d' -> view d' = view d.
Proof.
  revert d. induction n as [|n IH]; intros d E; [done|]. cbn [serial_wait] in E. unfold serial_transmit_empty in E.
  pose proof (ctl_other_in (COM1 + 5) d ltac:(right; done)) as Hv. destruct (inb (COM1 + 5) d) as [x d1]. cbn [snd] in Hv.
  destruct (tst x 0x20); [by simplify_eq|]. rewrite (IH d1 E). done.
Qed.

Lemma serial_char_view c d : exists d', serial_write_char c d = Some d' /\ view d' = view d.
Proof.
  destruct (serial_write_char_spec c d) as (d' & E & _). exists d'. split; [done|].
  unfold serial_write_char in E. destruct (serial_wait polls d) as [d1|] eqn:E1; [|done]. cbn in E. simplify_eq.
  rewrite ctl_other_out by (right; done). by eapply serial_wait_view.
Qed.

Lemma serial_write_view m d : exists d', serial_write m d = Some d' /\ view d' = view d.
Proof.
  revert d. induction m as [|c m IH]; intros d; cbn [serial_write]; [by exists d|].
  assert (exists d1, (if c =? NL then serial_write_char 13 d else Some d) = Some d1 /\ view d1 = view d) as (d1 & -> & E1)
    by (destruct (c =? NL); [apply serial_char_view|by exists d]).
  destruct (serial_char_view c d1) as (d2 & E & E2). cbn [mbind option_bind]. rewrite E. cbn [mbind option_bind].
  destruct (IH d2) as (d3 & -> & E3). exists d3. split; [done|congruence].
Qed.

Lemma serial_hex_view n d : exists d', serial_write_hex n d = Some d' /\ view d' = view d.
Proof. apply serial_write_view. Qed.

(** ** Identification *)

(** The device record of a drive. *)
Definition device_of (m : bool) (dr : drive) : ata_device :=
  let word i := nth i (d_ident dr) 0 in
  mk_ata true (word 1%nat) (word 49%nat) (word 60%nat + 65536 * word 61%nat)
    (ident_string (take 20 (drop 27 (d_ident dr)))) (ident_string (take 10 (drop 10 (d_ident dr)))) m.

Ltac say := match goal with
  | |- context [serial_write ?m ?d] =>
      let d1 := fresh "d" in let E := fresh "E" in destruct (serial_write_view m d) as (d1 & -> & E); cbn [mbind option_bind]
  | |- context [serial_write_hex ?m ?d] =>
      let d1 := fresh "d" in let E := fresh "E" in destruct (serial_hex_view m d) as (d1 & -> & E); cbn [mbind option_bind]
  end.

Lemma nonzero_status (x : Z) (b : nat) : tst x ATA_SR_BSY = negb (b =? 0)%nat -> (b = 0%nat -> tst x ATA_SR_DRQ = true) -> (x =? 0) = false.
Proof. intros H1 H2. destruct (Z.eqb_spec x 0) as [->|]; [|done]. destruct b; [by specialize (H2 eq_refl)|done]. Qed.

Lemma ata_identify_spec m dev d :
  quiet (view d) -> (forall dr, drive_of m (view d) = Some dr -> length (d_ident dr) = 256%nat) ->
  exists d', ata_identify m dev d = Some (match drive_of m (view d) with
                                          | Some dr => (0, device_of m dr, d') | None => (-1, dev, d') end) /\
    quiet (view d') /\ same_drives (view d) (view d').
Proof.
  intros [Hc Hb] Hid. unfold ata_identify. destruct (ata_wait_bsy_spec d Hb) as (d1 & -> & E1). cbn [mbind option_bind].
  destruct (ata_select_drive_spec m d1) as (d2 & E2 & Hs2 & Hd2); [by rewrite E1|by rewrite E1|].
  rewrite E2. cbn [mbind option_bind]. rewrite E1 in Hd2. change (same_drives (view d) (view d2)) in Hd2.
  destruct (reg_write ATA_SECTOR_COUNT 0 d2 m Hs2 ltac:(done)) as [F1 H1]. set (e1 := outb _ _ d2) in *.
  destruct (reg_write ATA_LBA_LOW 0 e1 m H1 ltac:(done)) as [F2 H2]. set (e2 := outb _ _ e1) in *.
  destruct (reg_write ATA_LBA_MID 0 e2 m H2 ltac:(done)) as [F3 H3]. set (e3 := outb _ _ e2) in *.
  destruct (reg_write ATA_LBA_HIGH 0 e3 m H3 ltac:(done)) as [F4 (Hc4 & Hb4 & Hm4)]. set (e4 := outb _ _ e3) in *.
  destruct (ctl_command ATA_CMD_IDENTIFY e4 Hc4 Hb4) as (n & E5 & Hn); [by left|]. set (e5 := outb _ _ e4) in *.
  assert (Hd4 : same_drives (view d) (view e4)) by (rewrite F4, F3, F2, F1; exact Hd2).
  assert (Hsel : selected (view e4) = drive_of m (view d)) by (unfold selected; rewrite Hm4; by apply same_drive_of).
  pose proof (ctl_status e5) as Hst. destruct (inb ATA_STATUS e5) as [st d5]. cbn [fst snd] in Hst. unfold status_law in Hst.
  assert (Hsel5 : selected (view e5) = selected (view e4)) by (by rewrite E5). rewrite Hsel5, Hsel in Hst.
  destruct (drive_of m (view d)) as [dr|] eqn:Edr.
  - destruct Hst as (Hbsy & Hdrq & k & Hk & Ev5).
    assert (Hp5 : h_phase (view e5) = DataIn (d_ident dr)) by (rewrite E5; cbn; unfold start; by rewrite Hsel).
    rewrite Hp5 in Hdrq. rewrite (nonzero_status _ _ Hbsy (fun H0 => proj1 (Hdrq H0))).
    assert (Hsel6 : selected (view d5) = Some dr) by (rewrite Ev5; change (selected (view e5) = Some dr); congruence).
    destruct (ata_wait_bsy_spec d5) as (d6 & -> & E6); [rewrite Hsel6; done|]. cbn [mbind option_bind].
    assert (Hsel7 : selected (view d6) = Some dr) by (rewrite E6; exact Hsel6).
    assert (Hp6 : h_phase (view d6) = DataIn (d_ident dr)) by (rewrite E6, Ev5; exact Hp5).
    pose proof (ctl_status d6) as Hst6. destruct (inb ATA_STATUS d6) as [st6 d7]. cbn [fst snd] in Hst6.
    unfold status_law in Hst6. rewrite Hsel7 in Hst6. destruct Hst6 as (_ & Hbits6 & k7 & Hk7 & E7).
    destruct Hbits6 as [_ ->]; [by rewrite E6|]. rewrite Hp6. cbn [is_failed].
    assert (Hd7 : same_drives (view d) (view d7)) by (rewrite E7, E6, Ev5, E5; exact Hd4).
    assert (Hm7 : master_sel (view d7) = m) by (rewrite E7, E6, Ev5, E5; exact Hm4).
    destruct (ata_wait_drq_spec d7) as (d8 & -> & E8).
    { unfold selected. rewrite Hm7, (same_drive_of m _ _ Hd7), Edr. eauto. } { rewrite E7. cbn. by rewrite Hp6. }
    cbn [mbind option_bind]. pose proof (Hid dr eq_refl) as Hlen. destruct (d_ident dr) as [|w ws] eqn:Eid; [done|].
    destruct (read_words_in ws w d8) as (d9 & E9 & Ev9); [rewrite E8, E7; exact Hp6|by rewrite E8|].
    cbn [length] in Hlen. rewrite Hlen in E9. rewrite E9. cbn [mbind option_bind].
    repeat say. eexists. split; [unfold device_of; rewrite Eid; reflexivity|].
    match goal with |- quiet (view ?x) /\ _ => assert (view x = view d9) as -> by congruence end.
    rewrite Ev9, E8. split; [|exact Hd7].
    apply (quiet_sel m); [by left|exact Hm7|]. exists dr. destruct Hd7 as [Ha Hb']. destruct m; cbn in *; congruence.
  - destruct Hst as [-> Ev5]. cbn [Z.eqb]. exists d5. split; [done|].
    assert (E : view d5 = view e4).
    { rewrite Ev5, E5, Hn by done. unfold start. rewrite Hsel. destruct (view e4). cbn in *. by subst. }
    rewrite E. split; [|done]. split; [done|]. auto.
Qed.

(** ** Registration *)

(** Every drive has an IDENTIFY block. *)
Definition idents_ok (h : channel) : Prop := forall m dr, drive_of m h = Some dr -> length (d_ident dr) = 256%nat.

Lemma idents_ok_same h h' : same_drives h h' -> idents_ok h -> idents_ok h'.
Proof. intros Hs Hi m dr E. rewrite (same_drive_of m _ _ Hs) in E. eauto. Qed.

Lemma same_drives_trans h1 h2 h3 : same_drives h1 h2 -> same_drives h2 h3 -> same_drives h1 h3.
Proof. intros [? ?] [? ?]. split; congruence. Qed.

(** What the kernel knows of the drives after the probe: the device tables. *)
Definition probed (name : list Z) (m : bool) (h : channel) : list (block_device (option D)) :=
  match drive_of m h with Some dr => [ata_bdev name (device_of m dr)] | None => [] end.

Lemma ata_probe_spec m name msg s d :
  disk s = Some d -> quiet (view d) -> idents_ok (view d) -> (length (bdev_table s) < 8)%nat ->
  exists s' d', ata_probe m name msg s =
      Some (match drive_of m (view d) with Some dr => device_of m dr | None => no_device end, s') /\
    disk s' = Some d' /\ quiet (view d') /\ same_drives (view d) (view d') /\
    bdev_table s' = bdev_table s ++ probed name m (view d).
Proof.
  intros Ed Hq Hi Hl. unfold ata_probe, probed. rewrite Ed. cbn [mbind option_bind].
  destruct (ata_identify_spec m no_device d Hq (Hi m)) as (d1 & -> & Hq1 & Hs1).
  destruct (drive_of m (view d)) as [dr|]; cbn [mbind option_bind].
  - cbn [Z.eqb present device_of andb]. unfold bdev_register, BDEV_MAX. 
    change (bdev_table (s <| disk := Some d1 |>)) with (bdev_table s).
    replace (8 <=? Z.of_nat (length (bdev_table s))) with false by (symmetry; apply Z.leb_gt; lia).
    destruct (serial_write_view msg d1) as (d2 & -> & E2). cbn [mbind option_bind].
    eexists _, d2. split; [reflexivity|]. rewrite E2. done.
  - cbn [Z.eqb present no_device andb]. eexists _, d1. split; [done|]. cbn. by rewrite app_nil_r.
Qed.

(** The state of the boot: the disks [ds], and both drives' block devices registered. *)
Definition booted (ds : disks) s : Prop :=
  holds ds s /\ exists d, disk s = Some d /\
    bdev_table s = probed (lit "ata0") true (view d) ++ probed (lit "ata1") false (view d).

Lemma probed_same name m h h' : same_drives h h' -> probed name m h' = probed name m h.
Proof. intros Hs. unfold probed. by rewrite (same_drive_of m _ _ Hs). Qed.

Lemma ata_init_spec ds s :
  holds ds s -> (forall d, disk s = Some d -> idents_ok (view d)) -> bdev_table s = [] ->
  exists s', ata_init s = Some (if decide (ds = (None, None)) then -1 else 0, s') /\ booted ds s'.
Proof.
  intros (d & Ed & Hq & Hok & ->) Hi Ht. specialize (Hi d Ed). unfold ata_init. rewrite Ed. cbn [mbind option_bind].
  destruct (serial_write_view (line "[ATA] Initializing...") d) as (d1 & -> & E1). cbn [mbind option_bind].
  destruct (ata_probe_spec true (lit "ata0") (line "[ATA] Master registered as bdev") (s <| disk := Some d1 |>) d1)
    as (s2 & d2 & -> & Ed2 & Hq2 & Hs2 & Ht2); [done|by rewrite E1|by rewrite E1|cbn; by rewrite Ht; cbn; lia|].
  cbn [mbind option_bind]. 
  change (bdev_table (s <| disk := Some d1 |>)) with (bdev_table s) in Ht2. rewrite E1 in *. rewrite Ht in Ht2. cbn [app] in Ht2.
  destruct (ata_probe_spec false (lit "ata1") (line "[ATA] Slave registered as bdev") s2 d2)
    as (s3 & d3 & -> & Ed3 & Hq3 & Hs3 & Ht3); [done|done|by eapply idents_ok_same| |].
  { rewrite Ht2. unfold probed. case_match; cbn; lia. }
  cbn [mbind option_bind]. pose proof (same_drives_trans _ _ _ Hs2 Hs3) as Hs. rewrite (same_drive_of false _ _ Hs2).
  assert (Hb : forall s' d', disk s' = Some d' -> view d' = view d3 -> bdev_table s' = bdev_table s3 ->
            booted (contents <$> h_master (view d), contents <$> h_slave (view d)) s').
  { intros s' d' E' Ev Et. split.
    - exists d'. rewrite Ev. split; [done|]. split; [done|]. split; [|by destruct Hs as [-> ->]].
      intros m dr Hdr. rewrite (same_drive_of m _ _ Hs) in Hdr. eauto.
    - exists d'. split; [done|]. rewrite Ev, Et, Ht3, Ht2, !(probed_same _ _ _ _ Hs). f_equal. by apply probed_same. }
  unfold drive_of. destruct (h_master (view d)) as [dm|] eqn:Em, (h_slave (view d)) as [dv|] eqn:Ev; cbn [present device_of no_device negb andb];
    rewrite ?Em, ?Ev in Hb; cbn [fmap option_fmap option_map] in *;
    try (rewrite decide_False by done; exists s3; split; [done|]; by apply (Hb s3 d3)).
  rewrite decide_True by done. rewrite Ed3. cbn [mbind option_bind].
  destruct (serial_write_view (line "[ATA] No device found") d3) as (d4 & -> & E4). cbn [mbind option_bind].
  eexists. split; [done|]. by apply (Hb _ d4).
Qed.

(** ** The self test *)

Lemma log_line_spec msg ds s : holds ds s ->
  exists s', log_line msg s = Some s' /\ holds ds s' /\ bdev_table s' = bdev_table s.
Proof.
  intros (d & Ed & Hq & Hok & ->). unfold log_line. rewrite Ed. cbn [mbind option_bind].
  destruct (serial_write_view msg d) as (d1 & -> & E1). cbn [mbind option_bind]. eexists. split; [done|].
  split; [|done]. exists d1. rewrite E1. done.
Qed.

(** A request to a disk keeps the table of devices. *)
Lemma request_table dr r ds s : holds ds s -> valid_request r ds ->
  exists s', do_request (fun m => device_of m dr) r s = (fst (spec_request r ds), s') /\
    holds (snd (spec_request r ds)) s' /\ bdev_table s' = bdev_table s.
Proof.
  intros Hh Hv. destruct (do_request_spec (fun m => device_of m dr) r ds s) as (s' & E & Hh'); [done|done|done|].
  exists s'. split; [done|]. split; [done|].
  destruct r; cbn [do_request] in E; unfold bdev_read, bdev_write in E; cbn [mbind option_bind ata_bdev b_read b_write] in E;
    repeat case_match; simplify_eq; done.
Qed.

Lemma sector_bytes_spec ws : length (sector_bytes ws) = (2 * length ws)%nat /\ bytes (sector_bytes ws).
Proof.
  induction ws as [|w ws [IH1 IH2]]; [split; [done|constructor]|]. unfold sector_bytes in *. cbn [mbind list_bind].
  split; [rewrite length_app; cbn in *; lia|]. apply Forall_app. split; [|exact IH2].
  repeat constructor; apply Z.mod_pos_bound; lia.
Qed.

(** The sectors of the disks are 512 bytes. *)
Lemma sector_of_disk ds s m ss i b : holds ds s -> disk_of m ds = Some ss -> ss !! i = Some b ->
  length b = 512%nat /\ bytes b.
Proof.
  intros (d & Ed & _ & Hok & ->) Hss Hb. rewrite disk_of_contents in Hss. apply fmap_Some in Hss as (dr & Hdr & ->).
  destruct (Hok m dr Hdr) as [_ Hws]. unfold contents in Hb. rewrite list_lookup_fmap in Hb.
  apply fmap_Some in Hb as (ws & Hw & ->). pose proof (Forall_lookup_1 _ _ _ _ Hws Hw) as Hl. cbn in Hl.
  destruct (sector_bytes_spec ws) as [H1 H2]. split; [lia|done].
Qed.

Lemma memcmp_take n (s1 s2 : list Z) : (n <= length s1)%nat -> (n <= length s2)%nat ->
  (memcmp s1 s2 n =? 0) = bool_decide (take n s1 = take n s2).
Proof.
  revert s1 s2. induction n as [|n IH]; intros s1 s2 H1 H2; [done|]. destruct s1 as [|a s1], s2 as [|b s2]; cbn in H1, H2; try lia.
  cbn [memcmp take tail]. change (char_at (a :: s1) 0) with a. change (char_at (b :: s2) 0) with b.
  destruct (Z.eqb_spec a b) as [->|Hne]; cbn [negb].
  - rewrite IH by lia. apply bool_decide_ext. split; [by intros ->|by injection 1].
  - rewrite bool_decide_false by congruence. lia.
Qed.

Lemma ata0_found dev rest s : bdev_table s = ata_bdev (lit "ata0") dev :: rest ->
  bdev_lookup (lit "ata0") s = Some (ata_bdev (lit "ata0") dev).
Proof. intros E. unfold bdev_lookup. by rewrite E. Qed.

(** Writing one sector and reading it back. *)
Lemma write_back dr lba buf ds ss s :
  let dev := ata_bdev (lit "ata0") (device_of true dr) in
  holds ds s -> disk_of true ds = Some ss -> 0 <= lba < Z.of_nat (length ss) -> length buf = 512%nat -> bytes buf ->
  exists s1 s2 bs, bdev_write (Some dev) lba buf 1 TIER_KERNEL s = (0, s1) /\
    bdev_read (Some dev) lba 1 TIER_KERNEL s1 = (0, bs, s2) /\
    holds (on_disk true (list_inserts (Z.to_nat lba) [buf]) ds) s2 /\ bdev_table s2 = bdev_table s.
Proof.
  intros dev Hh Hss Hlba Hl Hb. destruct (request_table dr (WriteReq true lba buf 1) ds s Hh) as (s1 & E1 & Hh1 & Ht1).
  { split; [|split; [by rewrite Hl|done]]. split; [lia|]. split; [lia|]. exists ss. split; [done|lia]. }
  cbn [do_request spec_request fst snd] in E1, Hh1. change (Z.to_nat 1) with 1%nat in Hh1. cbn [byte_sectors] in Hh1.
  rewrite (take_ge buf) in Hh1 by lia.
  change (bdev_write _ lba buf 1 0 s) with (bdev_write (Some dev) lba buf 1 TIER_KERNEL s) in E1.
  destruct (bdev_write (Some dev) lba buf 1 TIER_KERNEL s) as [r s1']. injection E1 as -> ->.
  destruct (request_table dr (ReadReq true lba 1) _ s1 Hh1) as (s2 & E2 & Hh2 & Ht2).
  { split; [lia|]. split; [lia|]. exists (list_inserts (Z.to_nat lba) [buf] ss). cbn [disk_of on_disk fst].
    change (ds.1) with (disk_of true ds). rewrite Hss. split; [done|]. rewrite length_inserts. lia. }
  cbn [do_request spec_request fst snd] in E2, Hh2.
  change (bdev_read _ lba 1 0 s1) with (bdev_read (Some dev) lba 1 TIER_KERNEL s1) in E2.
  eexists _, s2, _. split; [done|]. split; [exact E2|]. split; [exact Hh2|congruence].
Qed.

Definition marker : list Z := lit "WRITE-BACK-TEST" ++ [0].

(** What the self test does to the disks, the first sector being [b0]. *)
Definition selftest_disks (b0 : list Z) (ds : disks) : disks :=
  if bool_decide (take 5 (drop 257 b0) = lit "ustar")
  then on_disk true (list_inserts (Z.to_nat 8190) [marker ++ drop 16 b0]) ds else ds.

(** The boot probes the drives and tests the first.  [bdev_selftest] returns, registers the
    master as "ata0", and leaves the disks as they were, except that sector 8190 of a master
    whose first sector has the tar magic is overwritten with the marker and bytes of sector 0. *)
Theorem selftest_overwrites_sector ds ss b0 s :
  holds ds s -> (forall d, disk s = Some d -> idents_ok (view d)) -> bdev_table s = [] ->
  disk_of true ds = Some ss -> 8190 < Z.of_nat (length ss) -> ss !! 0%nat = Some b0 ->
  exists s' dev, bdev_selftest s = Some s' /\ holds (selftest_disks b0 ds) s' /\
    bdev_lookup (lit "ata0") s' = Some (ata_bdev (lit "ata0") dev) /\ present dev = true /\ is_master dev = true.
Proof.
  intros Hh Hi Ht Hss Hlen H0. destruct (sector_of_disk ds s true ss 0 b0 Hh Hss H0) as [Hl0 Hb0].
  unfold bdev_selftest. destruct (ata_init_spec ds s Hh Hi Ht) as (s1 & -> & Hh1 & d1 & Ed1 & Ht1). cbn [mbind option_bind].
  assert (exists dr, drive_of true (view d1) = Some dr) as (dr & Hdr).
  { destruct Hh1 as (d' & Ed' & _ & _ & ->). rewrite Ed1 in Ed'. injection Ed' as <-. rewrite disk_of_contents in Hss.
    apply fmap_Some in Hss as (dr & ? & _). eauto. }
  unfold probed at 1 in Ht1. rewrite Hdr in Ht1. cbn [app] in Ht1. set (dev := device_of true dr) in *.
  rewrite (ata0_found dev _ s1 Ht1).
  destruct (request_table dr (ReadReq true 0 1) ds s1 Hh1) as (s2 & E2 & Hh2 & Ht2).
  { split; [lia|]. split; [lia|]. exists ss. split; [done|lia]. }
  change (do_request _ (ReadReq true 0 1) s1) with (bdev_read (Some (ata_bdev (lit "ata0") dev)) 0 1 TIER_KERNEL s1) in E2.
  cbn [spec_request fst snd] in E2, Hh2. rewrite Hss in E2.
  assert (Eb : mjoin (take (Z.to_nat 1) (drop (Z.to_nat 0) (default [] (Some ss)))) = b0).
  { destruct ss as [|x ss]; [done|]. cbn in H0. injection H0 as ->. apply (app_nil_r b0). }
  rewrite E2, Eb. cbn [Z.eqb negb]. rewrite (memcmp_take 5) by (rewrite ?length_drop; cbn; lia).
  change (take 5 (lit "ustar")) with (lit "ustar"). unfold selftest_disks.
  destruct (bool_decide (take 5 (drop 257 b0) = lit "ustar")); cbn [negb].
  2:{ destruct (log_line_spec (line "[bdev] LBA0 not a tar header") ds s2 Hh2) as (s3 & -> & Hh3 & Ht3).
      exists s3, dev. split; [done|]. split; [done|]. split; [eapply ata0_found; rewrite Ht3, Ht2; exact Ht1|done]. }
  destruct (log_line_spec (line "[bdev] LBA0 tar magic ok") ds s2 Hh2) as (s3 & -> & Hh3 & Ht3). cbn [mbind option_bind].
  fold marker. set (buf := marker ++ drop 16 b0).
  destruct (write_back dr 8190 buf ds ss s3 Hh3 Hss) as (s4 & s5 & bs & E4 & E5 & Hh5 & Ht5); [lia| | |].
  { unfold buf. rewrite length_app, length_drop, Hl0. reflexivity. }
  { apply Forall_app. split; [repeat constructor; done|by apply Forall_drop]. }
  fold dev in E4, E5. rewrite E4. cbn [Z.eqb negb]. rewrite E5. cbn [Z.eqb negb].
  match goal with |- context [if ?b then log_line ?m1 s5 else log_line ?m2 s5] =>
    destruct (log_line_spec (if b then m1 else m2) _ s5 Hh5) as (s6 & E6 & Hh6 & Ht6);
    replace (if b then log_line m1 s5 else log_line m2 s5) with (Some s6) by (rewrite <- E6; by destruct b) end.
  exists s6, dev. split; [done|]. split; [done|]. split; [eapply ata0_found; rewrite Ht6, Ht5, Ht3, Ht2; exact Ht1|done].
Qed.
End Boot.

(** ** A machine with the controller [sim] and a serial line *)

Definition board : Type := sim * list Z.
#[global] Instance board_ports : PortIO board := {|
  inb p d := let '(v, h) := inb p d.1 in (v, (h, d.2));
  inw p d := let '(v, h) := inw p d.1 in (v, (h, d.2));
  outb p v d := (outb p v d.1, if p =? COM1 then d.2 ++ [v] else d.2);
  outw p v d := (outw p v d.1, d.2);
  polls := 4 |}.

#[global] Instance board_ctl : AtaController board.
Proof.
  refine {| view := fun d : board => view d.1 |}.
  - intros d. exact (ctl_busy (d.1 : sim)).
  - intros d. pose proof (ctl_status d.1) as Hl. cbn [inb board_ports]. by destruct (inb ATA_STATUS d.1).
  - intros p v d. apply (ctl_reg p v d.1).
  - intros c d. apply (ctl_command c d.1).
  - intros d w ws H1 H2. pose proof (ctl_inw d.1 w ws H1 H2) as Hl. cbn [inw board_ports]. by destruct (inw ATA_DATA d.1).
  - intros d H1. pose proof (ctl_inw_calm d.1 H1) as Hl. cbn [inw board_ports]. by destruct (inw ATA_DATA d.1).
  - intros w ws d. apply (ctl_outw w ws d.1).
  - intros w d. apply (ctl_outw_calm w d.1).
  - intros p d Hp. pose proof (ctl_other_in p d.1 Hp) as Hl. cbn [inb board_ports]. by destruct (inb p d.1).
  - intros p v d. apply (ctl_other_out p v d.1).
Defined.

#[global] Instance board_quiet : QuietWhileBusy board.
Proof.
  intros d Hs Hb. pose proof (quiet_busy (d.1 : sim) Hs Hb) as Hq. cbn [inb board_ports]. by destruct (inb ATA_STATUS (d.1 : sim)).
Qed.

#[global] Instance board_uart : Uart (D := board).
Proof. refine {| sent := fun d : board => d.2; delay := fun _ => 0%nat |}; [intros d; cbn; lia|done|done]. Defined.

(** A master of 8192 sectors, the size of the disk image, each with the tar magic. *)
Definition tar_sector : list Z := replicate 128 0 ++ [117 * 256; 116 * 256 + 115; 114 * 256 + 97] ++ replicate 125 0.
Definition tar_drive : drive := mk_drive (replicate 256 0) (replicate (Z.to_nat 8192) tar_sector).
Definition board0 : board := (mk_channel 0 0 0 0 0xE0 Idle 0 (Some tar_drive) None, []).

Lemma selftest_overwrites_sector_witness :
  let s := mk_bdevs tt [] [] (Some board0) in
  let ds := (Some (contents tar_drive), None) in
  exists s' dev, bdev_selftest s = Some s' /\
    holds (on_disk true (list_inserts (Z.to_nat 8190) [marker ++ drop 16 (sector_bytes tar_sector)]) ds) s' /\
    bdev_lookup (lit "ata0") s' = Some (ata_bdev (lit "ata0") dev).
Proof.
  intros s ds.
  destruct (selftest_overwrites_sector ds (contents tar_drive) (sector_bytes tar_sector) s) as (s' & dev & E & Hh & Hl & _).
  - exists board0. split; [done|]. split; [split; [by left|done]|]. split; [|done].
    intros [] dr Hdr; cbn in Hdr; [|done]. injection Hdr as <-. split; [|by apply Forall_replicate].
    unfold tar_drive, d_data. rewrite length_replicate. lia.
  - intros d Ed. injection Ed as <-. intros [] dr Hdr; cbn in Hdr; [|done]. injection Hdr as <-. done.
  - done.
  - done.
  - unfold contents, tar_drive, d_data. rewrite length_fmap, length_replicate. lia.
  - unfold contents, tar_drive, d_data. rewrite list_lookup_fmap, lookup_replicate_2 by lia. done.
  - exists s', dev. split; [exact E|]. split; [exact Hh|exact Hl].
Defined.
