(* ===== verification/Trap.v ===== *)
(** * Exceptions and interrupt tables (src/kernel/trap.c, src/kernel/idt.c, src/user/tss.c)

    [exception_trap] writes a report to the serial line and the screen, then ends the task or
    halts the machine.  The report reads memory through the page tables; a load that would
    fault in the kernel is [None].  The interrupt descriptor table and the TSS are built from
    the addresses of the handlers. *)

From S2P Require Import Prelude LList Cstr Heap HeapInv HeapSpec HeapTheorems Alloc Task Sched Paging UserMem Vm Keyboard Vga Vfs Memfs Elf Process Syscall Ports.

Record trap_frame := mk_tf { tf_eip : Z; tf_cs : Z; tf_eflags : Z; tf_esp : Z; tf_ss : Z }.

Definition exception_names : list string :=
  ["Divide Error"; "Debug"; "Non-Maskable Interrupt"; "Breakpoint"; "Overflow"; "Bound Range Exceeded"; "Invalid Opcode";
   "Device Not Available"; "Double Fault"; "Coprocessor Segment Overrun"; "Invalid TSS"; "Segment Not Present";
   "Stack-Segment Fault"; "General Protection Fault"; "Page Fault"; "Reserved"; "x87 FPU Error"; "Alignment Check";
   "Machine Check"; "SIMD FP Exception"; "Virtualization Exception"; "Control Protection Exception"; "Reserved";
   "Reserved"; "Reserved"; "Reserved"; "Reserved"; "Reserved"; "Reserved"; "Reserved"; "Reserved"; "Reserved"]%string.

(** The digits, from the last one. *)
Fixpoint trap_hex_loop (n : nat) (v : Z) (p : list Z) : list Z :=
  match n with
  | O => p
  | S n' => let nib := Z.land v 0xF in trap_hex_loop n' (Z.shiftr v 4) ((if nib <? 10 then 48 + nib else 65 + nib - 10) :: p)
  end.

(** How a trap ends: the code goes on, the task is gone, the machine is halted. *)
Inductive trap_end := Resumed | Killed | Halted.

Section Trap.
Context {A : Type} `{Allocator A}.
Implicit Types m : machine A.
Variable kernel_pd : Z.
Variable fops : Z -> option (file_operations (vfs A)).

(** Serial line and screen. *)
Definition trap_out (s : list Z) m : machine A :=
  m <| serial := serial m ++ crlf s |> <| scr := vga_write s (scr m) |>.

Definition trap_hex_out (v : Z) m : machine A := trap_out (trap_hex_loop 8 (wrap32 v) []) m.

Definition trap_field (name : list Z) (value : Z) m : machine A :=
  trap_out (line "") (trap_hex_out value (trap_out (lit "=0x") (trap_out name m))).

(** [for (i = 0; i < 16; i++)] from [addr] on. *)
Fixpoint dump_loop (n : nat) (addr limit : Z) m : option (machine A) :=
  match n with
  | O => Some m
  | S n' =>
      if limit <=? addr then Some m
      else
        let m := trap_out (lit "] 0x") (trap_hex_out addr (trap_out (lit "  [0x") m)) in
        w ← load32 (mcr3 m) (kp (kern m)) addr;
        dump_loop n' (addr +w 4) limit (trap_out (line "") (trap_hex_out w m))
  end.

Definition dump_limit (esp : Z) (is_user : bool) : Z :=
  if is_user then 0xC0000000
  else
    let page_base := Z.ldiff esp 0xFFF in
    let page_base := if (page_base <? 0xFF000000) || (0xFFFFF000 <? page_base) then 0xFF000000 else page_base in
    let limit := page_base +w 0x4000 in
    if 0xFFFFF000 <? limit then 0xFFFFF000 else limit.

Definition trap_dump_stack (esp : Z) (is_user : bool) m : option (machine A) :=
  let m := trap_out (lit "stack dump (") (trap_out (line "") m) in
  let m := trap_out (if is_user then lit "user" else lit "kernel") m in
  dump_loop 16 esp (dump_limit esp is_user) (trap_out (line "):") m).

Definition trap_error_code_decode (error_code : Z) m : machine A :=
  let m := trap_out ([NL] ++ lit "error_code bits: ") m in
  let m := trap_out (if tst error_code 1 then lit "present " else lit "not-present ") m in
  let m := trap_out (if tst error_code 2 then lit "write " else lit "read ") m in
  let m := trap_out (if tst error_code 4 then lit "user-mode" else lit "kernel-mode") m in
  let m := trap_out (line "") m in
  let kind := Z.shiftr (Z.land error_code 0x1F) 3 in
  if negb (kind =? 0) then trap_out (line "") (trap_hex_out kind (trap_out (lit "  selector index=") m)) else m.

(** [task_exit(code)]; it returns when there is no current task. *)
Definition kill_current (code : Z) m : option (trap_end * machine A) :=
  '(s, w) ← task_exit (H := exit_services fops) kernel_pd code (ks (kern m), Some (kp (kern m), kv (kern m)));
  '(p, v) ← w;
  Some (if cur m =? 0 then Halted else Killed, set_ks s (set_kp p (set_kv v m))).

Definition is_user (tf : trap_frame) : bool := negb (Z.land (tf_cs tf) 3 =? 0).

(** The report up to the stack dump. *)
Definition trap_report (tf : trap_frame) (error_code vector cr2 : Z) m : machine A :=
  let m := trap_out ([NL] ++ line "==============================") m in
  let m := trap_out (lit "KERNEL EXCEPTION: ") m in
  let m := trap_out (if is_user tf then lit "[USER MODE] " else lit "[KERNEL MODE] ") m in
  let m := trap_out (if vector <? 32 then lit (nth (Z.to_nat vector) exception_names ""%string) else lit "Unknown") m in
  let m := trap_out (line "") m in
  let m := trap_field (lit "vector") vector m in
  let m := trap_field (lit "eip") (tf_eip tf) m in
  let m := trap_field (lit "cs") (tf_cs tf) m in
  let m := trap_field (lit "eflags") (tf_eflags tf) m in
  let m := if is_user tf then trap_field (lit "user_ss") (tf_ss tf) (trap_field (lit "user_esp") (tf_esp tf) m) else m in
  let m := trap_field (lit "error_code") error_code m in
  let m := trap_field (lit "cr2") cr2 m in
  if vector =? 14 then trap_error_code_decode error_code m else m.

(** [kesp] is the stack pointer of the kernel at the stack dump. *)
Definition exception_trap (tf : trap_frame) (error_code vector cr2 kesp : Z) m : option (trap_end * machine A) :=
  let m := trap_report tf error_code vector cr2 m in
  m ← (if is_user tf then trap_dump_stack (tf_esp tf) true m else trap_dump_stack kesp false m);
  let m := trap_out ([NL] ++ lit "current_task pid=") m in
  let m := if negb (cur m =? 0) then trap_hex_out (pid (ctask m)) m else trap_out (lit "NULL") m in
  let m := trap_out ([NL] ++ line "==============================") m in
  if is_user tf then kill_current vector (trap_out (line "USER task killed, returning to scheduler") m)
  else Some (Halted, m).

(** The handlers [exc_vector00] to [exc_vector31]: those defined with an error code. *)
Definition handler_ec (vector : Z) : bool := existsb (Z.eqb vector) [8; 10; 11; 12; 13; 14; 17].
Definition exc_handler (vector : Z) (tf : trap_frame) (error_code cr2 kesp : Z) m : option (trap_end * machine A) :=
  exception_trap tf (if handler_ec vector then error_code else 0) vector cr2 kesp m.

Definition page_fault_handler (tf : trap_frame) (error_code cr2 kesp : Z) m : option (trap_end * machine A) :=
  let map := if cur m =? 0 then 0 else map_ptr (ctask m) in
  if map =? 0 then exception_trap tf error_code 14 cr2 kesp m
  else
    '(r, (p, s)) ← vm_fault true cr2 error_code (kp (kern m), ks (kern m));
    let m := set_ks s (set_kp p m) in
    if r =? 0 then Some (Resumed, m) else exception_trap tf error_code 14 cr2 kesp m.

(** The handler of [int 0x90]. *)
Definition user_test_int_handler m : machine A :=
  m <| serial := serial m ++ crlf (line "User mode interrupt triggered!") |>.
End Trap.

(** ** The interrupt descriptor table *)

Definition IRQ1_VECTOR : Z := 33.
Definition GATE_INTERRUPT : Z := 0x8E.
Definition GATE_USER : Z := 0xEE.

Record idt_entry := mk_gate { base_low : Z; sel : Z; always0 : Z; flags_ : Z; base_high : Z }.

(** [struct idt_ptr], and the table, zero at start. *)
Record idt_state := mk_idt { idt : list idt_entry; idtp_limit : Z; idtp_base : Z }.
#[export] Instance eta_idt : Eta idt_state := fun s => mk_idt (idt s) (idtp_limit s) (idtp_base s).
Definition zero_gate : idt_entry := mk_gate 0 0 0 0 0.
Definition idt_zero : idt_state := mk_idt (replicate 256 zero_gate) 0 0.

Definition idt_set_gate (num base sel flags : Z) (s : idt_state) : idt_state :=
  s <| idt := <[Z.to_nat num := mk_gate (Z.land base 0xFFFF) sel 0 flags (Z.land (Z.shiftr base 16) 0xFFFF)]> (idt s) |>.

(** The addresses of the handlers and of the table. *)
Record symbols := mk_symbols {
  a_syscall_entry : Z; a_exc_handlers : Z -> Z; a_page_fault_handler : Z;
  a_keyboard_entry : Z; a_pit_entry : Z; a_user_test_int_handler : Z; a_idt : Z;
}.

(** [for (i = 0; i < 32; i++)]: the assignments to [*e] are those of [idt_set_gate]. *)
Fixpoint exc_gates (n : nat) (i : Z) (y : symbols) (s : idt_state) : idt_state :=
  match n with
  | O => s
  | S n' => exc_gates n' (i + 1) y (idt_set_gate i (a_exc_handlers y i) 0x08 GATE_INTERRUPT s)
  end.

(** Its messages on the serial line are left out. *)
Definition idt_init (y : symbols) (s : idt_state) : idt_state :=
  let s := idt_set_gate 0x80 (a_syscall_entry y) 0x08 0xEE s in
  let s := s <| idtp_limit := 8 * 256 - 1 |> <| idtp_base := a_idt y |> in
  let s := exc_gates 32 0 y s in
  let s := idt_set_gate 14 (a_page_fault_handler y) 0x08 GATE_INTERRUPT s in
  let s := idt_set_gate IRQ1_VECTOR (a_keyboard_entry y) 0x08 GATE_INTERRUPT s in
  let s := idt_set_gate 32 (a_pit_entry y) 0x08 GATE_INTERRUPT s in
  idt_set_gate 0x90 (a_user_test_int_handler y) 0x08 GATE_USER s.

(** ** The task state segment *)

(** The fields that the code sets; the rest stays 0. *)
Record tss_entry := mk_tss { esp0 : Z; ss0 : Z; iomap_base : Z }.
#[export] Instance eta_tss : Eta tss_entry := fun t => mk_tss (esp0 t) (ss0 t) (iomap_base t).
Definition SIZEOF_TSS : Z := 104.

(** The TSS and the bytes of its descriptor in the GDT, the TSS being at [base]. *)
Definition tss_init (base : Z) (gdt_tss : list Z) : tss_entry * list Z :=
  let g := <[2%nat := Z.land base 0xFF]> gdt_tss in
  let g := <[3%nat := Z.land (Z.shiftr base 8) 0xFF]> g in
  let g := <[4%nat := Z.land (Z.shiftr base 16) 0xFF]> g in
  let g := <[7%nat := Z.land (Z.shiftr base 24) 0xFF]> g in
  ((mk_tss 0 0 0) <| iomap_base := SIZEOF_TSS |> <| ss0 := 0x10 |>, g).

Definition tss_set_kernel_stack (e : Z) (t : tss_entry) : tss_entry := t <| esp0 := e |>.
