(* ===== verification/TrapTheorems.v ===== *)
(** * What an exception does to the system; which interrupts a program can raise *)

From S2P Require Import Prelude LList Cstr Heap HeapInv HeapSpec HeapTheorems Alloc Task Sched Paging UserMem Vm Keyboard Vga Vfs Memfs Elf Process Syscall SyscallTheorems UserMemTheorems Ports Trap.

Create HintDb trap.

Section Trap.
Context {A : Type} `{Allocator A}.
Implicit Types m : machine A.

(** Only the console differs. *)
Record console_only m m' : Prop := {
  co_kern : kern m' = kern m;
  co_keyb : keyb m' = keyb m;
  co_ports : ports m' = ports m;
  co_sb : kernel_sb m' = kernel_sb m;
  co_log : serial m `prefix_of` serial m';
}.

Lemma co_refl m : console_only m m.
Proof. by split. Qed.

Lemma co_trans m1 m2 m3 : console_only m1 m2 -> console_only m2 m3 -> console_only m1 m3.
Proof. intros [] []. split; try congruence. by etrans. Qed.

Lemma co_out s m m' : console_only m m' -> console_only m (trap_out s m').
Proof. intros Hc. eapply co_trans; [exact Hc|]. split; try done. cbn. by apply prefix_app_r. Qed.

Lemma co_hex v m m' : console_only m m' -> console_only m (trap_hex_out v m').
Proof. apply co_out. Qed.

Lemma co_field n v m m' : console_only m m' -> console_only m (trap_field n v m').
Proof. intros. unfold trap_field. by apply co_out, co_hex, co_out, co_out. Qed.

Lemma co_if (b : bool) m m1 m2 : console_only m m1 -> console_only m m2 -> console_only m (if b then m1 else m2).
Proof. by destruct b. Qed.

#[local] Hint Resolve co_refl co_out co_hex co_field co_if : trap.

Lemma co_report tf ec v cr2 m : console_only m (trap_report tf ec v cr2 m).
Proof.
  unfold trap_report, trap_error_code_decode. cbv zeta. apply co_if; repeat (apply co_if || apply co_out || apply co_hex || apply co_field || apply co_refl).
Qed.

(** ** The stack dump *)

Lemma dump_loop_readable n addr limit m : 0 <= addr -> limit <= 0xFFFFF000 ->
  (forall i, 0 <= i < Z.of_nat n -> addr + 4 * i < limit -> is_Some (load32 (mcr3 m) (kp (kern m)) (addr + 4 * i))) ->
  exists m', dump_loop n addr limit m = Some m' /\ console_only m m'.
Proof.
  revert addr m. induction n as [|n IH]; intros addr m Ha Hl Hr; cbn [dump_loop]; [eauto with trap|].
  destruct (Z.leb_spec limit addr); [eauto with trap|].
  destruct (Hr 0) as [w Hw]; [lia|lia|]. rewrite Z.mul_0_r, Z.add_0_r in Hw.
  change (load32 _ _ addr) with (load32 (mcr3 m) (kp (kern m)) addr). rewrite Hw. cbn [mbind option_bind].
  rewrite wrap32_small by lia.
  destruct (IH (addr + 4) (trap_out (line "") (trap_hex_out w (trap_out (lit "] 0x") (trap_hex_out addr (trap_out (lit "  [0x") m))))))
    as (m' & -> & Hc); [lia|done| |].
  { intros i Hi Hlt. specialize (Hr (i + 1)). replace (addr + 4 + 4 * i) with (addr + 4 * (i + 1)) in * by lia.
    apply Hr; lia. }
  exists m'. split; [done|]. eapply co_trans; [|exact Hc]. eauto 10 with trap.
Qed.

Lemma dump_loop_faults n addr limit m i : 0 <= addr -> limit <= 0xFFFFF000 ->
  0 <= i < Z.of_nat n -> addr + 4 * i < limit -> load32 (mcr3 m) (kp (kern m)) (addr + 4 * i) = None ->
  dump_loop n addr limit m = None.
Proof.
  revert addr m i. induction n as [|n IH]; intros addr m i Ha Hl Hi Hlt Hn; [lia|]. cbn [dump_loop].
  destruct (Z.leb_spec limit addr); [lia|].
  change (load32 _ _ addr) with (load32 (mcr3 m) (kp (kern m)) addr).
  destruct (decide (i = 0)) as [->|Hi0].
  - rewrite Z.mul_0_r, Z.add_0_r in Hn. by rewrite Hn.
  - destruct (load32 (mcr3 m) (kp (kern m)) addr) as [w|]; [|done]. cbn [mbind option_bind]. rewrite wrap32_small by lia.
    apply (IH _ _ (i - 1)); [lia|done|lia|lia|]. cbn. replace (addr + 4 + 4 * (i - 1)) with (addr + 4 * i) by lia. exact Hn.
Qed.

(** The words of the dump of a stack at [esp], below [limit]. *)
Definition dumped (esp limit a : Z) : Prop := exists i, 0 <= i < 16 /\ a = esp + 4 * i /\ a < limit.
Definition readable m (a : Z) : Prop := is_Some (load32 (mcr3 m) (kp (kern m)) a).

Lemma readable_co m m' a : console_only m m' -> readable m a -> readable m' a.
Proof. intros [E _ _ _ _]. unfold readable, mcr3. by rewrite E. Qed.

Lemma dump_limit_bound esp u : dump_limit esp u <= 0xFFFFF000.
Proof. unfold dump_limit. destruct u; [done|]. cbv zeta. case_match; bool_prop; lia. Qed.

Lemma trap_dump_readable esp u m : 0 <= esp -> (forall a, dumped esp (dump_limit esp u) a -> readable m a) ->
  exists m', trap_dump_stack esp u m = Some m' /\ console_only m m'.
Proof.
  intros He Hr. unfold trap_dump_stack. cbv zeta. set (m1 := trap_out (line "):") _).
  assert (Hc1 : console_only m m1) by (unfold m1; eauto 10 with trap).
  destruct (dump_loop_readable 16 esp (dump_limit esp u) m1 He (dump_limit_bound esp u)) as (m' & -> & Hc).
  - intros i Hi Hlt. apply (readable_co m); [done|]. apply Hr. exists i. split; [lia|done].
  - exists m'. split; [done|]. by eapply co_trans.
Qed.

Section Exit.
Variable kernel_pd : Z.
Variable fops : Z -> option (file_operations (vfs A)).

(** The registers of [exit(code)]. *)
Definition exit_regs (code : Z) : pt_regs := mk_regs 0 0 0 0 code 0 0 SYS_EXIT [].

Lemma kill_is_exit code m : cur m <> 0 -> 0 <= code < 2 ^ 31 ->
  kill_current kernel_pd fops code m = ('(_, m') ← sys_exit_fn kernel_pd fops (exit_regs code) m; Some (Killed, m')).
Proof.
  intros Hc Hv. unfold kill_current, sys_exit_fn. cbn [r_ebx exit_regs]. unfold int32. replace (code <? 2 ^ 31) with true by lia.
  destruct (task_exit _ _ _) as [[s w]|]; [|done]. cbn [mbind option_bind]. destruct w as [[p v]|]; [|done].
  cbn [mbind option_bind]. by replace (cur m =? 0) with false by lia.
Qed.

Lemma user_trap_is_exit tf error_code vector cr2 kesp m :
  is_user tf = true -> cur m <> 0 -> 0 <= vector < 2 ^ 31 -> 0 <= tf_esp tf ->
  (forall a, dumped (tf_esp tf) 0xC0000000 a -> readable m a) ->
  exists m1, console_only m m1 /\
    exception_trap kernel_pd fops tf error_code vector cr2 kesp m =
      ('(_, m') ← sys_exit_fn kernel_pd fops (exit_regs vector) m1; Some (Killed, m')).
Proof.
  intros Hu Hcur Hv He Hr. unfold exception_trap. rewrite Hu.
  pose proof (co_report tf error_code vector cr2 m) as Hc0. set (m0 := trap_report _ _ _ _ m) in *.
  destruct (trap_dump_readable (tf_esp tf) true m0 He) as (m1 & -> & Hc1).
  { intros a Ha. apply (readable_co m); [done|]. by apply Hr. }
  cbn [mbind option_bind]. cbv zeta. set (m2 := trap_out (line "USER task killed, returning to scheduler") _).
  assert (Hc2 : console_only m m2).
  { eapply co_trans; [exact Hc0|]. eapply co_trans; [exact Hc1|]. unfold m2. apply co_out, co_out, co_if; eauto with trap. }
  exists m2. split; [done|]. apply kill_is_exit; [|done]. unfold cur. by rewrite (co_kern _ _ Hc2).
Qed.

(** The handler that the interrupt table has for an exception ([handler_of] below). *)
Definition exception_entry (vector : Z) (tf : trap_frame) (error_code cr2 kesp : Z) m : option (trap_end * machine A) :=
  if vector =? 14 then page_fault_handler kernel_pd fops tf error_code cr2 kesp m
  else exc_handler kernel_pd fops vector tf error_code cr2 kesp m.

(** What is tried before the task is given up: [vm_fault] for a page fault of a task with an
    address map.  The result says whether the fault is resolved. *)
Definition repair (vector error_code cr2 : Z) m : option (bool * machine A) :=
  if (vector =? 14) && negb (map_ptr (ctask m) =? 0) then
    '(r, (p, s)) ← vm_fault true cr2 error_code (kp (kern m), ks (kern m));
    Some (r =? 0, set_ks s (set_kp p m))
  else Some (false, m).

(** C19: An exception in user mode, of any of the 32 vectors, goes one of two ways.  A page
    fault that [vm_fault] resolves resumes the program, and the repair is all that happened.
    Any other exception ends the task as exit would: when the words of its stack that the
    report prints can be read, the effect on the whole system is a report on the console
    followed by what the exit call does ([sys_exit_fn], whatever capabilities the task has)
    with the vector as exit code. *)
Theorem user_exception_is_exit tf error_code vector cr2 kesp m fixed m0 :
  is_user tf = true -> 0 <= vector < 32 -> cur m <> 0 -> 0 <= tf_esp tf ->
  repair vector error_code cr2 m = Some (fixed, m0) ->
  if (fixed : bool) then exception_entry vector tf error_code cr2 kesp m = Some (Resumed, m0)
  else cur m0 <> 0 -> (forall a, dumped (tf_esp tf) 0xC0000000 a -> readable m0 a) ->
    exists m1, console_only m0 m1 /\
      exception_entry vector tf error_code cr2 kesp m =
        ('(_, m') ← sys_exit_fn kernel_pd fops (exit_regs vector) m1; Some (Killed, m')).
Proof.
  intros Hu Hv Hcur He. unfold repair, exception_entry, page_fault_handler, exc_handler.
  destruct (Z.eqb_spec vector 14) as [->|Hne]; cbn [andb].
  2:{ intros [= <- <-] _ Hr. apply user_trap_is_exit; [done..|lia|done|done]. }
  cbv zeta. replace (cur m =? 0) with false by lia. cbv iota. destruct (Z.eqb_spec (map_ptr (ctask m)) 0) as [_|_]; cbn [negb].
  { intros [= <- <-] _ Hr. apply user_trap_is_exit; [done..|lia|done|done]. }
  destruct (vm_fault true cr2 error_code _) as [[r [p s]]|]; [|done]. cbn [mbind option_bind]. intros [= <- <-].
  destruct (r =? 0); [done|]. intros Hc0 Hr. by apply user_trap_is_exit.
Qed.

(** In kernel mode the machine halts and nothing but the console has changed. *)
Lemma kernel_exception_halts tf error_code vector cr2 kesp m :
  is_user tf = false -> 0 <= kesp -> (forall a, dumped kesp (dump_limit kesp false) a -> readable m a) ->
  exists m1, exception_trap kernel_pd fops tf error_code vector cr2 kesp m = Some (Halted, m1) /\ console_only m m1.
Proof.
  intros Hu He Hr. unfold exception_trap. rewrite Hu.
  pose proof (co_report tf error_code vector cr2 m) as Hc0. set (m0 := trap_report _ _ _ _ m) in *.
  destruct (trap_dump_readable kesp false m0 He) as (m1 & -> & Hc1).
  { intros a Ha. apply (readable_co m); [done|]. by apply Hr. }
  cbn [mbind option_bind]. cbv zeta. eexists. split; [done|].
  eapply co_trans; [exact Hc0|]. eapply co_trans; [exact Hc1|]. apply co_out, co_if; eauto with trap.
Qed.

(** C20: The report follows the stack pointer of the program without a check.  A program that
    raises any exception while one of the sixteen words at its stack pointer, below 3 GB, is
    not mapped makes the kernel itself fault: the exception handler does not return. *)
Theorem bad_user_stack_faults_kernel tf error_code vector cr2 kesp m a :
  is_user tf = true -> 0 <= tf_esp tf -> dumped (tf_esp tf) 0xC0000000 a -> ~ readable m a ->
  exc_handler kernel_pd fops vector tf error_code cr2 kesp m = None.
Proof.
  intros Hu He (i & Hi & -> & Hlt) Hn. unfold exc_handler, exception_trap. rewrite Hu.
  set (ec := if handler_ec vector then _ else _).
  pose proof (co_report tf ec vector cr2 m) as Hc0. set (m0 := trap_report _ _ _ _ m) in *.
  unfold trap_dump_stack. cbv zeta. set (m1 := trap_out (line "):") _).
  assert (Hc1 : console_only m m1) by (eapply co_trans; [exact Hc0|]; unfold m1; eauto 10 with trap).
  rewrite (dump_loop_faults 16 (tf_esp tf) (dump_limit (tf_esp tf) true) m1 i); [done|done|done|lia|done|].
  apply eq_None_not_Some. intros Hs. apply Hn. unfold readable. rewrite <- (co_kern _ _ Hc1). unfold mcr3 in *.
  by rewrite <- (co_kern _ _ Hc1).
Qed.
End Exit.
End Trap.

(** ** A program at work on the page at 0x1000 *)

Definition user_frame (esp : Z) : trap_frame := mk_tf 0x1000 0x1B 0x202 esp 0x23.

Lemma user_exception_is_exit_witness :
  exists m1, console_only bare_machine m1 /\
    exception_entry 0 no_fops 13 (user_frame 0x1F00) 0 0 0 bare_machine =
      ('(_, m') ← sys_exit_fn 0 no_fops (exit_regs 13) m1; Some (Killed, m')).
Proof.
  apply (user_exception_is_exit 0 no_fops (user_frame 0x1F00) 0 13 0 0 bare_machine false bare_machine); [done|lia|done|done|done|done|].
  intros a (i & Hi & -> & _). assert (exists n, (n < 16)%nat /\ i = Z.of_nat n) as (n & Hn & ->) by (exists (Z.to_nat i); lia).
  do 16 (destruct n as [|n]; [eexists; reflexivity|]). lia.
Defined.

Lemma bad_user_stack_faults_kernel_witness :
  exc_handler 0 no_fops 0 (user_frame 0x5000) 0 0 0 bare_machine = None.
Proof.
  apply (bad_user_stack_faults_kernel 0 no_fops (user_frame 0x5000) 0 0 0 0 bare_machine 0x5000); [done|done| |].
  - exists 0. done.
  - intros [w Hw]. done.
Defined.

(** ** The interrupt descriptor table *)

(** How the processor reads a gate. *)
Definition gate_base (g : idt_entry) : Z := base_low g + 65536 * base_high g.
Definition gate_present (g : idt_entry) : bool := Z.testbit (flags_ g) 7.
Definition gate_dpl (g : idt_entry) : Z := Z.land (Z.shiftr (flags_ g) 5) 3.

(** The handler of a vector. *)
Definition handler_of (y : symbols) (v : Z) : option Z :=
  if v =? 14 then Some (a_page_fault_handler y)
  else if v <? 32 then Some (a_exc_handlers y v)
  else if v =? 32 then Some (a_pit_entry y)
  else if v =? 33 then Some (a_keyboard_entry y)
  else if v =? 0x80 then Some (a_syscall_entry y)
  else if v =? 0x90 then Some (a_user_test_int_handler y)
  else None.

(** An [int v] of a program at privilege [cpl] goes through. *)
Definition int_allowed (g : idt_entry) (cpl : Z) : bool := gate_present g && (cpl <=? gate_dpl g).

Definition symbols_ok (y : symbols) : Prop := forall v a, 0 <= v < 256 -> handler_of y v = Some a -> 0 <= a < 2 ^ 32.

Lemma set_gate_lookup num base sel flags s v : length (idt s) = 256%nat -> 0 <= num < 256 -> 0 <= v < 256 ->
  idt (idt_set_gate num base sel flags s) !! Z.to_nat v =
    if v =? num then Some (mk_gate (Z.land base 0xFFFF) sel 0 flags (Z.land (Z.shiftr base 16) 0xFFFF))
    else idt s !! Z.to_nat v.
Proof.
  intros Hl Hn Hv. cbn. destruct (Z.eqb_spec v num) as [->|Hne].
  - apply list_lookup_insert_eq. lia.
  - apply list_lookup_insert_ne. lia.
Qed.

Lemma set_gate_length num base sel flags s : length (idt (idt_set_gate num base sel flags s)) = length (idt s).
Proof. apply length_insert. Qed.

Lemma exc_gates_length n i y s : length (idt (exc_gates n i y s)) = length (idt s).
Proof. revert i s. induction n as [|n IH]; intros i s; cbn [exc_gates]; [done|]. by rewrite IH, set_gate_length. Qed.

Lemma exc_gates_lookup n i y s v : length (idt s) = 256%nat -> 0 <= i -> i + Z.of_nat n <= 256 -> 0 <= v < 256 ->
  idt (exc_gates n i y s) !! Z.to_nat v =
    if (i <=? v) && (v <? i + Z.of_nat n)
    then Some (mk_gate (Z.land (a_exc_handlers y v) 0xFFFF) 0x08 0 GATE_INTERRUPT (Z.land (Z.shiftr (a_exc_handlers y v) 16) 0xFFFF))
    else idt s !! Z.to_nat v.
Proof.
  revert i s. induction n as [|n IH]; intros i s Hl Hi Hn Hv; cbn [exc_gates].
  - case_match; [bool_prop; lia|done].
  - rewrite IH by (by rewrite set_gate_length || lia). rewrite set_gate_lookup by (done || lia).
    destruct (Z.leb_spec (i + 1) v), (Z.ltb_spec v (i + 1 + Z.of_nat n)), (Z.leb_spec i v), (Z.ltb_spec v (i + Z.of_nat (S n))),
      (Z.eqb_spec v i); cbn [andb]; try lia; try done; by subst.
Qed.

Lemma gate_of_base a flags : 0 <= a < 2 ^ 32 ->
  gate_base (mk_gate (Z.land a 0xFFFF) 0x08 0 flags (Z.land (Z.shiftr a 16) 0xFFFF)) = a.
Proof.
  intros Ha. unfold gate_base. cbn [base_low base_high]. change 0xFFFF with (Z.ones 16).
  rewrite !Z.land_ones, Z.shiftr_div_pow2 by lia. change (2 ^ 16) with 65536. zmod.
Qed.

(** The table as one case distinction. *)
Lemma idt_init_lookup y v : 0 <= v < 256 ->
  idt (idt_init y idt_zero) !! Z.to_nat v =
    Some (match handler_of y v with
          | Some a => mk_gate (Z.land a 0xFFFF) 0x08 0 (if (v =? 0x80) || (v =? 0x90) then 0xEE else 0x8E)
                        (Z.land (Z.shiftr a 16) 0xFFFF)
          | None => zero_gate end).
Proof.
  intros Hv. unfold idt_init. cbv zeta. set (s1 := _ <| idtp_limit := _ |> <| idtp_base := _ |>).
  assert (Hl1 : length (idt s1) = 256%nat) by done.
  assert (E1 : idt s1 !! Z.to_nat v = if v =? 0x80 then Some (mk_gate (Z.land (a_syscall_entry y) 0xFFFF) 0x08 0 0xEE
                 (Z.land (Z.shiftr (a_syscall_entry y) 16) 0xFFFF)) else Some zero_gate).
  { change (idt s1) with (idt (idt_set_gate 0x80 (a_syscall_entry y) 0x08 0xEE idt_zero)).
    rewrite set_gate_lookup by (done || lia). case_match; [done|]. apply lookup_replicate_2. lia. }
  clearbody s1. unfold IRQ1_VECTOR.
  rewrite !set_gate_lookup, exc_gates_lookup, E1 by (rewrite ?set_gate_length, ?exc_gates_length; done || lia).
  unfold handler_of, GATE_INTERRUPT, GATE_USER. replace (0 <=? v) with true by lia. cbn [andb].
  change (0 + Z.of_nat 32) with 32.
  destruct (Z.eqb_spec v 0x90), (Z.eqb_spec v 32), (Z.eqb_spec v 33), (Z.eqb_spec v 14), (Z.ltb_spec v 32), (Z.eqb_spec v 0x80);
    cbn [orb]; try lia; done.
Qed.

(** After [idt_init] every vector has the gate it should: exceptions, timer, keyboard and
    the two software interrupts reach the addresses of their handlers in the kernel's code
    segment, the other vectors are not present, and a program in ring 3 can raise with [int]
    only the system call 0x80 and the test interrupt 0x90. *)
Theorem idt_gates y v :
  symbols_ok y -> 0 <= v < 256 ->
  exists g, idt (idt_init y idt_zero) !! Z.to_nat v = Some g /\
    (forall a, handler_of y v = Some a -> gate_present g = true /\ gate_base g = a /\ sel g = 0x08) /\
    (handler_of y v = None -> gate_present g = false) /\
    (int_allowed g 3 = true <-> v = 0x80 \/ v = 0x90).
Proof.
  intros Hy Hv. eexists. split; [by apply idt_init_lookup|]. specialize (Hy v). unfold int_allowed.
  destruct (handler_of y v) as [a|] eqn:Eh.
  - split; [intros a' [= <-]|split; [done|]].
    + split; [|split; [|done]]; [by case_match|]. apply gate_of_base. eauto.
    + destruct (Z.eqb_spec v 0x80), (Z.eqb_spec v 0x90); cbn; split; intros; try lia; try done; auto.
  - split; [done|]. split; [done|]. split; [done|]. intros [-> | ->]; done.
Qed.

Definition demo_symbols : symbols :=
  mk_symbols 0x101000 (fun v => 0x102000 + 16 * v) 0x103000 0x104000 0x105000 0x106000 0x107000.

Lemma idt_gates_witness :
  exists g, idt (idt_init demo_symbols idt_zero) !! Z.to_nat 0x80 = Some g /\ gate_base g = 0x101000 /\ int_allowed g 3 = true.
Proof.
  destruct (idt_gates demo_symbols 0x80) as (g & E & Hh & _ & Hi); [|lia|].
  - intros v a Hv. unfold handler_of, demo_symbols. cbn [a_page_fault_handler a_exc_handlers a_pit_entry a_keyboard_entry
      a_syscall_entry a_user_test_int_handler]. repeat case_match; intros [= <-]; lia.
  - exists g. split; [exact E|]. split; [by apply Hh|]. apply Hi. by left.
Defined.

(** ** The task state segment *)

(** The base address as the processor reads it from the descriptor. *)
Definition descriptor_base (g : list Z) : Z :=
  nth 2 g 0 + 2 ^ 8 * nth 3 g 0 + 2 ^ 16 * nth 4 g 0 + 2 ^ 24 * nth 7 g 0.

(** The descriptor holds the address of the TSS, the other bytes are the boot code's, and the
    I/O bitmap lies outside of the segment, so that a program has no port. *)
Lemma tss_init_base base g : length g = 8%nat -> 0 <= base < 2 ^ 32 ->
  descriptor_base (snd (tss_init base g)) = base /\ ss0 (fst (tss_init base g)) = 0x10 /\
  iomap_base (fst (tss_init base g)) = SIZEOF_TSS /\
  (forall i, i ∈ [0; 1; 5; 6]%nat -> snd (tss_init base g) !! i = g !! i).
Proof.
  intros Hl Hb. do 8 (destruct g as [|? g]; [done|]). destruct g; [|done].
  unfold descriptor_base, tss_init. cbn [fst snd nth insert list_insert ss0 iomap_base].
  split; [|split; [done|split; [done|]]].
  - change 0xFF with (Z.ones 8). rewrite !Z.land_ones, !Z.shiftr_div_pow2 by lia.
    change (2 ^ 8) with 256. change (2 ^ 16) with 65536. change (2 ^ 24) with 16777216. zmod.
  - intros i Hi. repeat (apply elem_of_cons in Hi as [-> | Hi]; [done|]). by apply elem_of_nil in Hi.
Qed.
