(* ===== verification/Programs.v ===== *)
(** * Small user programs (src/user/hello.c, args.c, fork_test.c, lib/crt0.c)

    [main] of each program as a tree of system calls, and what it prints and returns whatever
    the kernel answers. *)

From S2P Require Import Prelude Cstr User Shell.

(** ** crt0.c: the value of [main] is the exit code. *)
Definition _start (main : prog Z) : prog Z := code ← main; sys_exit code.

(** ** hello.c *)
Definition hello_main : prog Z := _ ← sys_write (line "hello from hello.elf"); mret 3.

(** ** args.c *)

Fixpoint print_str (s : list Z) : prog unit :=
  match s with [] => mret tt | c :: s' => _ ← sys_putchar c; print_str s' end.

(** [while (n > 0)]: the array [buf] of 12 bytes, filled up to [i]; ten digits at most. *)
Fixpoint dec_digits (fuel : nat) (n i : Z) (buf : list Z) : option (Z * list Z) :=
  if 0 <? n then
    match fuel with
    | O => None
    | S fuel' => buf ← aset buf i (48 + n mod 10); dec_digits fuel' (n / 10) (i + 1) buf
    end
  else Some (i, buf).

(** [while (i > 0) sys_putchar(buf[--i]);] *)
Fixpoint put_back (i : nat) (buf : list Z) : prog unit :=
  match i with
  | O => mret tt
  | S i' => c ← lift (buf !! i'); _ ← sys_putchar c; put_back i' buf
  end.

Definition print_dec (n : Z) : prog unit :=
  if n =? 0 then sys_putchar 48
  else '(i, buf) ← lift (dec_digits 11 n 0 (replicate 12 0)); put_back (Z.to_nat i) buf.

(** [for (i = 0; i < argc; i++)] *)
Fixpoint args_loop (i : Z) (argv : list (list Z)) : prog unit :=
  match argv with
  | [] => mret tt
  | a :: argv' =>
      _ ← sys_write (lit "arg");
      _ ← print_dec i;
      _ ← sys_write (lit "=");
      _ ← print_str a;
      _ ← sys_write (line "");
      args_loop (i + 1) argv'
  end.

(** [argc] is the length of [argv]. *)
Definition args_main (argv : list (list Z)) : prog Z :=
  _ ← sys_write (lit "args argc=");
  _ ← print_dec (Z.of_nat (length argv));
  _ ← sys_write (line "");
  _ ← args_loop 0 argv;
  mret 0.

(** ** fork_test.c; its [print_hex] is that of the shell. *)
Definition fork_test_main : prog Z :=
  _ ← sys_write (line "fork_test: about to fork");
  pid ← sys_fork;
  if pid =? 0 then
    _ ← sys_write (line "fork_test: child running");
    _ ← sys_write (line "fork_test: child exiting with code 7");
    mret 7
  else if 0 <? pid then
    _ ← sys_write (lit "fork_test: parent, child pid=0x");
    _ ← print_hex pid;
    _ ← sys_write (line "");
    st ← sys_wait (-1);
    _ ← sys_write (lit "fork_test: parent wait st=0x");
    _ ← print_hex st;
    _ ← sys_write (line "");
    mret 0
  else
    _ ← sys_write (line "fork_test: fork failed");
    mret 1.

(** ** What a program prints *)

Definition shown (e : event) : list Z :=
  match ev_call e with Write 1 bs => bs | Putchar c => [c] | _ => [] end.
Definition printed (tr : list event) : list Z := tr ≫= shown.

Lemma printed_app t1 t2 : printed (t1 ++ t2) = printed t1 ++ printed t2.
Proof. apply bind_app. Qed.

(** The program prints [text] and goes on, or ends with [Q]. *)
Definition prints {A} ok (p : prog A) (text : list Z) (Q : A -> Prop) : Prop :=
  forall tr, wp ok p tr (fun a tr' => printed tr' = printed tr ++ text /\ Q a) (fun _ _ => False).

Lemma prints_bind {A B} ok (p : prog A) (f : A -> prog B) t1 t2 Q R :
  prints ok p t1 Q -> (forall a, Q a -> prints ok (f a) t2 R) -> prints ok (p ≫= f) (t1 ++ t2) R.
Proof.
  intros Hp Hf tr. apply wp_bind. eapply wp_mono; [apply Hp| |done]. intros a tr' [E Ha].
  eapply wp_mono; [by apply Hf| |done]. intros b tr'' [E' Hb]. split; [|done]. by rewrite E', E, app_assoc.
Qed.

Lemma prints_ret {A} ok (a : A) (Q : A -> Prop) : Q a -> prints ok (mret a) [] Q.
Proof. intros Ha tr. split; [by rewrite app_nil_r|done]. Qed.

Lemma prints_write ok s : prints ok (sys_write s) s (fun _ => True).
Proof. intros tr r _. split; [|done]. rewrite printed_app. cbn. by rewrite app_nil_r. Qed.

Lemma prints_char ok c : prints ok (sys_putchar c) [c] (fun _ => True).
Proof. intros tr r _. split; [|done]. by rewrite printed_app. Qed.

Lemma prints_str ok s : prints ok (print_str s) s (fun _ => True).
Proof.
  induction s as [|c s IH]; cbn [print_str]; [by apply prints_ret|].
  eapply (prints_bind _ _ _ [c] s); [apply prints_char|]. intros _ _. exact IH.
Qed.

(** ** Decimal numbers *)

Definition dec_value (s : list Z) : Z := foldl (fun acc c => acc * 10 + (c - 48)) 0 s.

(** The filled part of the array, last digit first, is the decimal number. *)
Lemma dec_digits_spec fuel n i buf : 0 <= n < 10 ^ Z.of_nat fuel -> 0 <= i -> i + Z.of_nat fuel <= Z.of_nat (length buf) ->
  exists ds buf', dec_digits fuel n i buf = Some (i + Z.of_nat (length ds), buf') /\
    take (Z.to_nat i + length ds) buf' = take (Z.to_nat i) buf ++ ds /\
    (length ds <= fuel)%nat /\ length buf' = length buf /\
    foldr (fun c acc => acc * 10 + (c - 48)) 0 ds = n.
Proof.
  revert n i buf. induction fuel as [|fuel IH]; intros n i buf Hn Hi Hl.
  - exists [], buf. replace n with 0 by (cbn in Hn; lia). cbn. rewrite Nat.add_0_r, Z.add_0_r, app_nil_r. auto.
  - cbn [dec_digits]. destruct (Z.ltb_spec 0 n) as [Hp|Hp].
    + rewrite aset_Some by lia. cbn [mbind option_bind].
      destruct (IH (n / 10) (i + 1) (<[Z.to_nat i := 48 + n mod 10]> buf)) as (ds & buf' & E & Ht & Hd & Hb & Hv).
      { replace (Z.of_nat (S fuel)) with (Z.of_nat fuel + 1) in Hn by lia. rewrite Z.pow_add_r in Hn by lia.
        change (10 ^ 1) with 10 in Hn. split; [zmod|]. apply Z.div_lt_upper_bound; lia. }
      { lia. } { rewrite length_insert. lia. }
      exists ((48 + n mod 10) :: ds), buf'. split; [rewrite E; f_equal; f_equal; cbn; lia|].
      split; [|split; [cbn; lia|split; [by rewrite Hb, length_insert|]]].
      * replace (Z.to_nat (i + 1)) with (S (Z.to_nat i)) in Ht by lia. rewrite take_insert_end in Ht by lia.
        cbn [length]. rewrite Nat.add_succ_r. cbn [plus] in Ht. by rewrite Ht, <- app_assoc.
      * cbn [foldr]. rewrite Hv. zmod.
    + exists [], buf. replace n with 0 by lia. cbn. rewrite Nat.add_0_r, Z.add_0_r, app_nil_r. splits; auto. lia.
Qed.

Lemma put_back_prints ok n buf : (n <= length buf)%nat -> prints ok (put_back n buf) (rev (take n buf)) (fun _ => True).
Proof.
  induction n as [|n IH]; intros Hl; cbn [put_back]; [by apply prints_ret|].
  destruct (lookup_lt_is_Some_2 buf n) as [c Hc]; [lia|]. rewrite Hc.
  rewrite (take_S_r _ _ _ Hc), rev_app_distr. cbn [rev app lift mbind prog_bind].
  eapply (prints_bind _ _ _ [c]); [apply prints_char|]. intros _ _. apply IH. lia.
Qed.

Lemma dec_value_rev ds : dec_value (rev ds) = foldr (fun c acc => acc * 10 + (c - 48)) 0 ds.
Proof.
  induction ds as [|c ds IH]; [done|]. cbn [rev foldr]. unfold dec_value in *. rewrite foldl_app, IH. done.
Qed.

(** [print_dec] prints digits whose value is the number. *)
Lemma print_dec_prints ok n : 0 <= n < 10 ^ 11 ->
  exists ds, prints ok (print_dec n) ds (fun _ => True) /\ dec_value ds = n.
Proof.
  intros Hn. unfold print_dec. destruct (Z.eqb_spec n 0) as [->|H0].
  - exists [48]. split; [apply prints_char|done].
  - destruct (dec_digits_spec 11 n 0 (replicate 12 0)) as (ds & buf & -> & Ht & Hd & Hb & Hv); [done|lia|cbn; lia|].
    exists (rev ds). split; [|by rewrite dec_value_rev]. cbn [lift mbind prog_bind].
    rewrite length_replicate in Hb. replace (Z.to_nat (0 + Z.of_nat (length ds))) with (length ds) by lia.
    replace ds with (take (length ds) buf) at 2 by exact Ht. apply put_back_prints. lia.
Qed.

(** ** args.c *)

(** The report of arguments from the [i]-th on: a line "arg<i>=<argument>" for each. *)
Fixpoint report (i : Z) (argv : list (list Z)) (text : list Z) : Prop :=
  match argv with
  | [] => text = []
  | a :: argv' => exists ds rest, dec_value ds = i /\ report (i + 1) argv' rest /\
      text = lit "arg" ++ ds ++ lit "=" ++ a ++ line "" ++ rest
  end.

Lemma args_loop_prints ok argv i : 0 <= i -> i + Z.of_nat (length argv) < 10 ^ 11 ->
  exists text, prints ok (args_loop i argv) text (fun _ => True) /\ report i argv text.
Proof.
  revert i. induction argv as [|a argv IH]; intros i Hi Hl; cbn [args_loop report].
  - exists []. split; [by apply prints_ret|done].
  - cbn [length] in Hl. destruct (print_dec_prints ok i) as (ds & Hds & Hv); [lia|].
    destruct (IH (i + 1)) as (rest & Hrest & Hr); [lia|lia|].
    eexists. split; [|exists ds, rest; split; [done|split; [done|reflexivity]]].
    eapply prints_bind; [apply prints_write|intros _ _]. eapply prints_bind; [exact Hds|intros _ _].
    eapply prints_bind; [apply prints_write|intros _ _]. eapply prints_bind; [apply prints_str|intros _ _].
    eapply prints_bind; [apply prints_write|intros _ _]. exact Hrest.
Qed.

(** The program args, whatever the kernel answers, prints the number of its arguments in
    decimal and each of them on a line of its own, and returns 0. *)
Theorem args_main_reports ok argv : Z.of_nat (length argv) < 10 ^ 11 ->
  exists ds text, prints ok (args_main argv) (lit "args argc=" ++ ds ++ line "" ++ text) (fun code => code = 0) /\
    dec_value ds = Z.of_nat (length argv) /\ report 0 argv text.
Proof.
  intros Hl. destruct (print_dec_prints ok (Z.of_nat (length argv))) as (ds & Hds & Hv); [lia|].
  destruct (args_loop_prints ok argv 0) as (text & Ht & Hr); [lia|lia|].
  exists ds, text. split; [|done]. unfold args_main.
  eapply prints_bind; [apply prints_write|intros _ _]. eapply prints_bind; [exact Hds|intros _ _].
  eapply prints_bind; [apply prints_write|intros _ _]. rewrite <- (app_nil_r text).
  eapply prints_bind; [exact Ht|intros _ _]. by apply prints_ret.
Qed.

(** An event of a trace that grew by one event per call. *)
Ltac in_trace := repeat (apply elem_of_app; first [right; apply list_elem_of_singleton; reflexivity | left]).

(** ** fork_test.c: the child ends with 7, the parent waits once and ends with 0. *)
Lemma fork_test_exit ok tr :
  wp ok (_start fork_test_main) tr (fun _ _ => False) (fun code tr' =>
    exists pid, mk_event Fork pid ∈ tr' /\
      ((pid = 0 /\ code = 7) \/ (0 < pid /\ code = 0 /\ exists st, mk_event (Wait (-1)) st ∈ tr') \/ (pid < 0 /\ code = 1))).
Proof.
  cbn. intros ? _ pid _. destruct (Z.eqb_spec pid 0) as [->|H0]; [|destruct (Z.ltb_spec 0 pid)]; cbn.
  - intros. exists 0. split; [in_trace|]. by left.
  - intros ? _ ? _ ? _ st _ ? _ ? _ ? _. exists pid. split; [in_trace|]. right; left. split; [done|]. split; [done|].
    exists st. in_trace.
  - intros. exists pid. split; [in_trace|]. right; right. split; [lia|done].
Qed.
