(* ===== verification/Demos.v ===== *)
(** * Demonstration programs (src/user/burner.c, sandbox_test.c, cppdemo.cpp, cpp_lib/)

    [main] of each program as a tree of system calls, and what it prints.  The delay loops of
    burner.c and sandbox_test.c count and have no effect.  The classes of cpp_lib/ are those
    of the editor, function by function with another prefix of the names and without the
    operations that only the editor uses; their definitions here are those of [Povi]. *)

From S2P Require Import Prelude Cstr User Shell Povi Programs.

(** ** burner.c *)

Definition pr_lvl (tag : list Z) : prog unit :=
  _ ← sys_write (lit "burn: ");
  _ ← sys_write tag;
  _ ← sys_write (lit " lvl=");
  lvl ← sys_mlfq_query;
  _ ← sys_putchar (48 + lvl);
  _ ← sys_write (line "");
  mret tt.

(** Phase A, from [i] on with [n] rounds left. *)
Fixpoint burn_a (n : nat) (i : Z) : prog unit :=
  match n with
  | O => mret tt
  | S n' =>
      _ ← sys_putchar 65;
      _ ← sys_putchar (48 + i);
      _ ← pr_lvl (lit "A");
      burn_a n' (i + 1)
  end.

(** Phase B: every round gives up the CPU first. *)
Fixpoint burn_b (n : nat) (i : Z) : prog unit :=
  match n with
  | O => mret tt
  | S n' =>
      _ ← sys_yield;
      _ ← sys_putchar 66;
      _ ← sys_putchar (48 + i);
      _ ← pr_lvl (lit "B");
      burn_b n' (i + 1)
  end.

(** The bytes of the UTF-8 text between the parentheses. *)
Definition phase_b_text : list Z :=
  lit "burn: phase B (yield, " ++ [0xE5; 0xBA; 0x94; 0xE6; 0x8F; 0x90; 0xE5; 0x8D; 0x87; 0xE5; 0x9B; 0x9E] ++ line " 0)".

Definition burner_main : prog Z :=
  _ ← sys_write (lit "burn: start tier=");
  tr ← sys_tier_query;
  _ ← sys_putchar (48 + tr);
  _ ← sys_write (line "");
  _ ← burn_a 8 0;
  _ ← sys_write phase_b_text;
  _ ← burn_b 5 0;
  _ ← sys_write (line "burn: done");
  mret 5.

(** ** sandbox_test.c

    [None] is the child of the last test, which loops for ever. *)

Definition put_ok (b : bool) (s : string) : prog Z :=
  sys_write (if b then line (s ++ " ok") else line (s ++ " FAIL")).

(** [if (pid > 0) sys_wait(pid);] *)
Definition wait_child (pid : Z) : prog unit :=
  if 0 <? pid then _ ← sys_wait pid; mret tt else mret tt.

Definition sandbox_kill_test (pid : Z) : prog unit :=
  ret ← sys_kill pid;
  _ ← put_ok (ret =? 0) "sb kill_mark";
  ret ← sys_wait pid;
  _ ← (if negb (Z.land ret 0xFF =? 0xF7) then sys_write (line "sb kill exit_code FAIL") else mret 0);
  _ ← sys_write (line "sb kill ok");
  mret tt.

(** What comes after the last fork. *)
Definition sandbox_last (pid : Z) : prog (option Z) :=
  if pid =? 0 then
    _ ← sys_write (line "sb child alive");
    mret None
  else
    _ ← (if 0 <? pid then sandbox_kill_test pid else mret tt);
    _ ← sys_write (line "sandbox_test: done");
    mret (Some 0).

Definition sandbox_test_main : prog (option Z) :=
  _ ← sys_write (line "sandbox_test: start");
  let sb := mk_config_user (Z.ldiff 0xFFFFFFFF (Z.shiftl 1 15)) 0 0 None 0 in
  pid ← sys_fork_with_sandbox sb;
  _ ← (if pid =? 0 then r ← sys_mlfq_query; _ ← put_ok (r <? 0) "sb caps_denied"; sys_exit 0 else mret tt);
  _ ← wait_child pid;
  let sb := sb <| u_caps_allow := 0xFFFFFFFF |> <| u_root_path := Some (lit "/restricted") |> in
  pid ← sys_fork_with_sandbox sb;
  _ ← (if pid =? 0 then r ← sys_exec (lit "/mnt/shell.elf") (Some []); _ ← put_ok (r <? 0) "sb path_denied"; sys_exit 0
       else mret tt);
  _ ← wait_child pid;
  let sb := sb <| u_caps_allow := 0xFFFFFFFF |> <| u_mem_limit := 4096 |> in
  pid ← sys_fork_with_sandbox sb;
  _ ← put_ok (pid <? 0) "sb mem_limit_reject";
  _ ← (if pid =? 0 then sys_exit 0 else mret tt);
  _ ← wait_child pid;
  q ← sys_sandbox_query;
  _ ← put_ok (match q with
              | inr st => (0 <? us_pid st) && negb (us_caps st =? 0) && (char_at (us_root_path st) 0 =? 0)
              | inl _ => false
              end) "sb query";
  let sb := sb <| u_caps_allow := 0xFFFFFFFF |> <| u_mem_limit := 0 |> <| u_root_path := None |> in
  pid ← sys_fork_with_sandbox sb;
  sandbox_last pid.

(** ** cpp_lib/ *)

Module CppLib.
Definition cpp_alloc := povi_alloc.
Definition cpp_memcpy := pv_memcpy.
Definition cpp_strcmp := pv_strcmp.
Definition string_clear := str_clear.
Definition string_append_char := append_char.
Definition string_append := append.
Definition string_set := str_set.
Definition string_assign := assign.
Definition string_reserve := reserve.
Definition vector_push_back := push_back.
Definition vector_grow := grow.
Definition vector_clear := vclear.

(** [memset]: [n] bytes [c] from [at_] on. *)
Fixpoint cpp_memset (dst : list Z) (at_ c : Z) (n : nat) : option (list Z) :=
  match n with
  | O => Some dst
  | S n' => dst ← aset dst at_ (c mod 256); cpp_memset dst (at_ + 1) c n'
  end.

(** [memmove] inside one array: forwards when the destination is below the source, backwards
    otherwise. *)
Fixpoint copy_fwd (l : list Z) (d s : Z) (i : Z) (n : nat) : option (list Z) :=
  match n with
  | O => Some l
  | S n' => x ← aget l (s + i); l ← aset l (d + i) x; copy_fwd l d s (i + 1) n'
  end.
Fixpoint copy_back (l : list Z) (d s : Z) (n : nat) : option (list Z) :=
  match n with
  | O => Some l
  | S n' => x ← aget l (s + Z.of_nat n'); l ← aset l (d + Z.of_nat n') x; copy_back l d s n'
  end.
Definition memmove (l : list Z) (d s : Z) (n : nat) : option (list Z) :=
  if d <? s then copy_fwd l d s 0 n else copy_back l d s n.
End CppLib.

(** ** cppdemo.cpp *)

(** [do ... while (v > 0)]: the digits of a number that is not negative. *)
Fixpoint demo_digits (fuel : nat) (v n : Z) (buf : list Z) : option (Z * list Z) :=
  match fuel with
  | O => None
  | S fuel' =>
      buf ← aset buf n (48 + Z.rem v 10);
      let v := Z.quot v 10 in
      if 0 <? v then demo_digits fuel' v (n + 1) buf else Some (n + 1, buf)
  end.

Definition demo_print_dec (v : Z) : prog unit :=
  let neg := v <? 0 in
  let v := if neg then - v else v in
  '(n, buf) ← lift (demo_digits 11 v 0 (replicate 12 0));
  '(n, buf) ← lift (if neg then buf ← aset buf n 45; Some (n + 1, buf) else Some (n, buf));
  put_back (Z.to_nat n) buf.

(** [sys_write_fd(1, s, cpp_strlen(s))] *)
Definition demo_print_str (s : list Z) : prog unit :=
  t ← lift (cstring s);
  _ ← sys_write_fd 1 t;
  mret tt.

(** [for (i = 0; i < 3; i++) nums.push_back(i * 10);] *)
Fixpoint push_nums (n : nat) (i : Z) (v : Vector) (a : arena) : prog (Vector * arena) :=
  match n with
  | O => mret (v, a)
  | S n' => '(v, a) ← CppLib.vector_push_back (i * 10) v a; push_nums n' (i + 1) v a
  end.

(** [for (i = 0; i < nums.size(); i++)], [n] rounds left. *)
Fixpoint print_nums (n : nat) (i : Z) (v : Vector) : prog unit :=
  match n with
  | O => mret tt
  | S n' =>
      x ← lift (aget (arr_ v) i);
      _ ← demo_print_dec x;
      _ ← (if i + 1 <? count_ v then sys_putchar 44 else mret tt);
      print_nums n' (i + 1) v
  end.

Definition cppdemo_main (argv : list (list Z)) : prog Z :=
  '(who, a) ← CppLib.string_set (lit "world" ++ [0]) empty_string (mk_arena 0 ∅);
  let nums := empty_vector in
  _ ← demo_print_str (lit "hello " ++ [0]);
  _ ← demo_print_str (c_str who);
  _ ← demo_print_str (line "" ++ [0]);
  '(nums, a) ← push_nums 3 0 nums a;
  _ ← print_nums (Z.to_nat (count_ nums)) 0 nums;
  _ ← sys_putchar 10;
  _ ← (match argv with
       | _ :: x :: _ => _ ← demo_print_str (lit "arg: " ++ [0]); _ ← demo_print_str (x ++ [0]); demo_print_str (line "" ++ [0])
       | _ => mret tt
       end);
  mret 0.

(** ** Theorems: memmove and memset *)

Lemma copy_fwd_spec l d s i n :
  0 <= d -> d < s -> 0 <= i -> s + i + Z.of_nat n <= Z.of_nat (length l) ->
  exists l', CppLib.copy_fwd l d s i n = Some l' /\ length l' = length l /\
    forall k, l' !! k = if decide (d + i <= Z.of_nat k < d + i + Z.of_nat n) then l !! Z.to_nat (s + (Z.of_nat k - d)) else l !! k.
Proof.
  revert l i. induction n as [|n IH]; intros l i Hd Hds Hi Hl; cbn [CppLib.copy_fwd].
  - exists l. splits; [done|done|]. intros k. by rewrite decide_False by lia.
  - unfold aget. replace (0 <=? s + i) with true by lia. destruct (lookup_lt_is_Some_2 l (Z.to_nat (s + i))) as [x Hx]; [lia|].
    rewrite Hx. cbn [mbind option_bind]. rewrite aset_Some by lia. cbn [mbind option_bind].
    destruct (IH (<[Z.to_nat (d + i) := x]> l) (i + 1)) as (l' & E & Hlen & Hk); [lia|lia|lia|rewrite length_insert; lia|].
    exists l'. rewrite E, Hlen, length_insert. splits; [done|done|]. intros k. rewrite Hk. clear Hk E.
    destruct (decide (Z.of_nat k = d + i)) as [Ek|Hne].
    + rewrite decide_False, decide_True by lia. replace k with (Z.to_nat (d + i)) by lia. rewrite list_lookup_insert_eq by lia.
      rewrite <- Hx. f_equal. lia.
    + repeat case_decide; try lia; rewrite list_lookup_insert_ne by lia; done.
Qed.

Lemma copy_back_spec l d s n :
  0 <= s -> s <= d -> d + Z.of_nat n <= Z.of_nat (length l) ->
  exists l', CppLib.copy_back l d s n = Some l' /\ length l' = length l /\
    forall k, l' !! k = if decide (d <= Z.of_nat k < d + Z.of_nat n) then l !! Z.to_nat (s + (Z.of_nat k - d)) else l !! k.
Proof.
  revert l. induction n as [|n IH]; intros l Hs Hsd Hl; cbn [CppLib.copy_back].
  - exists l. splits; [done|done|]. intros k. by rewrite decide_False by lia.
  - unfold aget. replace (0 <=? s + Z.of_nat n) with true by lia.
    destruct (lookup_lt_is_Some_2 l (Z.to_nat (s + Z.of_nat n))) as [x Hx]; [lia|].
    rewrite Hx. cbn [mbind option_bind]. rewrite aset_Some by lia. cbn [mbind option_bind].
    destruct (IH (<[Z.to_nat (d + Z.of_nat n) := x]> l)) as (l' & E & Hlen & Hk); [lia|lia|rewrite length_insert; lia|].
    exists l'. rewrite E, Hlen, length_insert. splits; [done|done|]. intros k. rewrite Hk. clear Hk E.
    destruct (decide (Z.of_nat k = d + Z.of_nat n)) as [Ek|Hne].
    + rewrite decide_False, decide_True by lia. replace k with (Z.to_nat (d + Z.of_nat n)) by lia.
      rewrite list_lookup_insert_eq by lia. rewrite <- Hx. f_equal. lia.
    + repeat case_decide; try lia; rewrite list_lookup_insert_ne by lia; done.
Qed.

(** [memmove] between two ranges of an array that may overlap in either direction copies the
    bytes the source range held before. *)
Theorem memmove_copies l d s n :
  0 <= d -> 0 <= s -> s + Z.of_nat n <= Z.of_nat (length l) -> d + Z.of_nat n <= Z.of_nat (length l) ->
  exists l', CppLib.memmove l d s n = Some l' /\ length l' = length l /\
    forall k, l' !! k = if decide (d <= Z.of_nat k < d + Z.of_nat n) then l !! Z.to_nat (s + (Z.of_nat k - d)) else l !! k.
Proof.
  intros Hd Hs Hl1 Hl2. unfold CppLib.memmove. destruct (Z.ltb_spec d s) as [Hds|Hds].
  - destruct (copy_fwd_spec l d s 0 n) as (l' & E & Hlen & Hk); [lia..|]. exists l'. rewrite Z.add_0_r in Hk. done.
  - apply copy_back_spec; lia.
Qed.

Lemma memset_fills l at_ c n :
  0 <= at_ -> at_ + Z.of_nat n <= Z.of_nat (length l) ->
  exists l', CppLib.cpp_memset l at_ c n = Some l' /\ length l' = length l /\
    forall k, l' !! k = if decide (at_ <= Z.of_nat k < at_ + Z.of_nat n) then Some (c mod 256) else l !! k.
Proof.
  revert l at_. induction n as [|n IH]; intros l a Ha Hl; cbn [CppLib.cpp_memset].
  - exists l. splits; [done|done|]. intros k. by rewrite decide_False by lia.
  - rewrite aset_Some by lia. cbn [mbind option_bind].
    destruct (IH (<[Z.to_nat a := c mod 256]> l) (a + 1)) as (l' & E & Hlen & Hk); [lia|rewrite length_insert; lia|].
    exists l'. rewrite E, Hlen, length_insert. splits; [done|done|]. intros k. rewrite Hk.
    destruct (decide (Z.of_nat k = a)) as [Ek|Hne].
    + rewrite decide_False, decide_True by lia. replace k with (Z.to_nat a) by lia. by rewrite list_lookup_insert_eq by lia.
    + repeat case_decide; try lia; rewrite ?list_lookup_insert_ne by lia; done.
Qed.

(** ** Theorems: the programs *)

(** burner ends with exit code 5 whatever the kernel answers. *)
Theorem burner_exits ok tr : wp ok (_start burner_main) tr (fun _ _ => False) (fun code _ => code = 5).
Proof.
  repeat intros ? _. reflexivity.
Qed.

(** *** sandbox_test.c *)

Definition good_status (q : Z + sandbox_status_user) : Prop :=
  match q with
  | inr st => 0 < us_pid st /\ us_caps st <> 0 /\ char_at (us_root_path st) 0 = 0
  | inl _ => False
  end.

(** A kernel that lets the program make sandboxes: it refuses the one of a single page, a
    killed child ends with -9. *)
Definition sandbox_kernel (c : call) : resp c -> Prop :=
  match c as c return resp c -> Prop with
  | ForkWithSandbox cfg => fun r => if u_mem_limit cfg =? 4096 then r < 0 else 0 < r
  | Kill _ => fun r => r = 0
  | Wait _ => fun r => r = -9
  | SandboxQuery => good_status
  | _ => fun _ => True
  end.

(** A kernel that refuses every sandbox, as it does for a program without [CAP_SANDBOX]. *)
Definition refusing_kernel (c : call) : resp c -> Prop :=
  match c as c return resp c -> Prop with
  | ForkWithSandbox _ => fun r => r < 0
  | SandboxQuery => good_status
  | _ => fun _ => True
  end.

Lemma good_status_ok q : good_status q ->
  match q with
  | inr st => (0 <? us_pid st) && negb (us_caps st =? 0) && (char_at (us_root_path st) 0 =? 0)
  | inl _ => false
  end = true.
Proof.
  destruct q as [|st]; [done|]. intros (H1 & H2 & H3). rewrite H3. replace (0 <? us_pid st) with true by lia.
  by destruct (Z.eqb_spec (us_caps st) 0).
Qed.

Lemma prints_conv {A} ok (p : prog A) t t' Q : prints ok p t Q -> t = t' -> prints ok p t' Q.
Proof. by intros Hp <-. Qed.

(** Calls that print nothing. *)
Lemma prints_fork ok cfg : prints ok (sys_fork_with_sandbox cfg) [] (ok (ForkWithSandbox cfg)).
Proof. intros tr r Hr. split; [|exact Hr]. by rewrite printed_app. Qed.
Lemma prints_wait ok pid : prints ok (sys_wait pid) [] (ok (Wait pid)).
Proof. intros tr r Hr. split; [|exact Hr]. by rewrite printed_app. Qed.
Lemma prints_kill ok pid : prints ok (sys_kill pid) [] (ok (Kill pid)).
Proof. intros tr r Hr. split; [|exact Hr]. by rewrite printed_app. Qed.
Lemma prints_query ok : prints ok sys_sandbox_query [] (ok SandboxQuery).
Proof. intros tr r Hr. split; [|exact Hr]. by rewrite printed_app. Qed.

Lemma prints_put_ok ok b s : b = true -> prints ok (put_ok b s) (line (s ++ " ok")) (fun _ => True).
Proof. intros ->. apply prints_write. Qed.

Lemma prints_wait_child ok pid : prints ok (wait_child pid) [] (fun _ => True).
Proof.
  unfold wait_child. destruct (0 <? pid); [|by apply prints_ret].
  eapply (prints_bind _ _ _ [] []); [apply prints_wait|]. intros r _. by apply prints_ret.
Qed.

(** A branch of the child, for the parent. *)
Lemma prints_parent ok pid (child : prog unit) :
  pid <> 0 -> prints ok (if pid =? 0 then child else mret tt) [] (fun _ => True).
Proof. intros Hp. destruct (Z.eqb_spec pid 0); [done|]. by apply prints_ret. Qed.

(** The first four tests, in the parent. *)
Lemma sandbox_first_tests (ok : forall c, resp c -> Prop) t R :
  (forall cfg r, ok (ForkWithSandbox cfg) r -> r <> 0) ->
  (forall cfg r, u_mem_limit cfg = 4096 -> ok (ForkWithSandbox cfg) r -> r < 0) ->
  (forall q, ok SandboxQuery q -> good_status q) ->
  (forall cfg pid, u_mem_limit cfg = 0 -> ok (ForkWithSandbox cfg) pid -> prints ok (sandbox_last pid) t R) ->
  prints ok sandbox_test_main (line "sandbox_test: start" ++ line "sb mem_limit_reject ok" ++ line "sb query ok" ++ t) R.
Proof.
  intros Hf Hm Hq Hl. eapply prints_conv; [unfold sandbox_test_main|].
  { eapply prints_bind; [apply prints_write|intros _ _]. cbv zeta.
    do 2 (eapply prints_bind; [apply prints_fork|intros ? ?%Hf];
      eapply prints_bind; [by apply prints_parent|intros _ _]; eapply prints_bind; [apply prints_wait_child|intros _ _]).
    eapply prints_bind; [apply prints_fork|]. intros p3 H3%Hm; [|reflexivity].
    eapply prints_bind; [apply prints_put_ok; lia|intros _ _]. eapply prints_bind; [apply prints_parent; lia|intros _ _].
    eapply prints_bind; [apply prints_wait_child|intros _ _].
    eapply prints_bind; [apply prints_query|]. intros q Hq'%Hq. eapply prints_bind; [apply prints_put_ok, good_status_ok, Hq'|intros _ _].
    eapply prints_bind; [apply prints_fork|]. intros p4 H4. eapply Hl; [|exact H4]. reflexivity. }
  rewrite !app_nil_l. reflexivity.
Qed.

(** With such a kernel the parent of all tests prints that they passed. *)
Theorem sandbox_test_passes :
  prints sandbox_kernel sandbox_test_main
    (line "sandbox_test: start" ++ line "sb mem_limit_reject ok" ++ line "sb query ok" ++ line "sb kill_mark ok" ++
     line "sb kill ok" ++ line "sandbox_test: done") (fun r => r = Some 0).
Proof.
  apply sandbox_first_tests.
  - intros cfg r Hr. cbn in Hr. destruct (_ =? _); lia.
  - intros cfg r Hm Hr. cbn in Hr. by rewrite Hm in Hr.
  - done.
  - intros cfg pid Hm Hr. cbn in Hr. rewrite Hm in Hr. cbn [Z.eqb] in Hr. unfold sandbox_last.
    replace (pid =? 0) with false by lia. replace (0 <? pid) with true by lia. eapply prints_conv; [unfold sandbox_kill_test|].
    { eapply prints_bind; [|intros _ _; eapply prints_bind; [apply prints_write|intros _ _; by apply prints_ret]].
      eapply prints_bind; [apply prints_kill|]. intros k Hk. assert (k = 0) as -> by exact Hk.
      eapply prints_bind; [by apply prints_put_ok|intros _ _].
      eapply prints_bind; [apply prints_wait|]. intros w Hw. assert (w = -9) as -> by exact Hw.
      eapply (prints_bind _ _ _ [] _ (fun _ => True)); [by apply prints_ret|intros _ _].
      eapply prints_bind; [apply prints_write|intros _ _]. by apply (prints_ret _ tt (fun _ => True)). }
    vm_compute. reflexivity.
Qed.

(** With a kernel that refuses all of them the program also reports no failure, and that the
    limit on memory works. *)
Theorem sandbox_test_refused :
  prints refusing_kernel sandbox_test_main
    (line "sandbox_test: start" ++ line "sb mem_limit_reject ok" ++ line "sb query ok" ++ line "sandbox_test: done")
    (fun r => r = Some 0).
Proof.
  apply sandbox_first_tests.
  - intros cfg r Hr. cbn in Hr. lia.
  - intros cfg r Hm Hr. exact Hr.
  - done.
  - intros cfg pid Hm Hr. cbn in Hr. unfold sandbox_last. replace (pid =? 0) with false by lia. replace (0 <? pid) with false by lia.
    eapply prints_conv; [|by rewrite <- (app_nil_r (line _)), <- (app_nil_l (line _ ++ _))].
    eapply (prints_bind _ _ _ [] _ (fun _ => True)); [by apply prints_ret|intros _ _].
    eapply prints_bind; [apply prints_write|intros _ _]. by apply prints_ret.
Qed.

(** The test of kill reports success also when the exit code is wrong. *)
Lemma sandbox_kill_reports_both (ok : forall c, resp c -> Prop) pid :
  (forall r, ok (Wait pid) r -> Z.land r 0xFF <> 0xF7) -> (forall r, ok (Kill pid) r -> r = 0) ->
  prints ok (sandbox_kill_test pid)
    (line "sb kill_mark ok" ++ line "sb kill exit_code FAIL" ++ line "sb kill ok") (fun _ => True).
Proof.
  intros Hw Hk. eapply prints_conv; [unfold sandbox_kill_test|].
  { eapply prints_bind; [apply prints_kill|]. intros k Ek%Hk. subst k.
    eapply prints_bind; [by apply prints_put_ok|intros _ _].
    eapply prints_bind; [apply prints_wait|]. intros r Hr%Hw. destruct (Z.eqb_spec (Z.land r 0xFF) 0xF7); [done|]. cbn [negb].
    eapply prints_bind; [apply prints_write|intros _ _].
    eapply prints_bind; [apply prints_write|intros _ _]. by apply prints_ret. }
  vm_compute. reflexivity.
Qed.

(** *** cppdemo.cpp *)

Lemma cstring_nul s : 0 ∉ s -> cstring (s ++ [0]) = Some s.
Proof. intros Hs. apply cstring_spec. by exists []. Qed.

Lemma demo_print_str_prints ok s : 0 ∉ s -> prints ok (demo_print_str (s ++ [0])) s (fun _ => True).
Proof.
  intros Hs. unfold demo_print_str. rewrite cstring_nul by done.
  change (prints ok (sys_write_fd 1 s ≫= fun _ => mret tt) s (fun _ => True)). rewrite <- (app_nil_r s) at 2.
  eapply (prints_bind _ _ _ s _ (fun _ => True)); [|intros _ _; by apply prints_ret].
  intros tr r _. split; [|done]. rewrite printed_app. cbn. by rewrite app_nil_r.
Qed.

(** A closed text without a NUL. *)
Ltac no_nul := apply (bool_decide_unpack _); vm_compute; exact I.

(** Printing from an array with NULs behind the text. *)
Lemma wide_str_prints ok s n : 0 ∉ s -> prints ok (demo_print_str (s ++ replicate (S n) 0)) s (fun _ => True).
Proof.
  intros Hs tr. pose proof (demo_print_str_prints ok s Hs tr) as Hp. unfold demo_print_str in *.
  rewrite cstring_nul in Hp by done.
  assert (cstring (s ++ replicate (S n) 0) = Some s) as -> by (apply cstring_spec; by exists (replicate n 0)). exact Hp.
Qed.

Lemma print_nums_prints ok :
  prints ok (print_nums 3 0 (mk_Vector [0; 10; 20; 0; 0; 0; 0; 0] 3)) (lit "0,10,20") (fun _ => True).
Proof.
  intros tr. cbn. repeat intros ? _. split; [|done]. rewrite !printed_app. rewrite <- !app_assoc. reflexivity.
Qed.

(** The program prints its greeting, the numbers of its vector and its first argument, within
    the arena and its arrays, whatever the kernel answers. *)
Theorem cppdemo_prints ok argv :
  Forall (fun a => 0 ∉ a) argv ->
  prints ok (cppdemo_main argv)
    (line "hello world" ++ line "0,10,20" ++ (match argv with _ :: x :: _ => lit "arg: " ++ x ++ line "" | _ => [] end))
    (fun code => code = 0).
Proof.
  intros Ha. unfold cppdemo_main.
  assert (exists who a nums a', CppLib.string_set (lit "world" ++ [0]) empty_string (mk_arena 0 ∅) = mret (who, a) /\
    c_str who = lit "world" ++ replicate 11 0 /\ push_nums 3 0 empty_vector a = mret (nums, a') /\
    nums = mk_Vector [0; 10; 20; 0; 0; 0; 0; 0] 3) as (who & a & nums & a' & -> & Ew & En & ->).
  { eexists _, _, _, _. split; [by vm_compute|]. split; [done|]. split; [by vm_compute|done]. }
  eapply prints_conv.
  { eapply (prints_bind _ _ _ [] _ (fun x => x = (who, a))); [by apply prints_ret|intros ? ->]. cbv zeta beta iota.
    eapply prints_bind; [apply demo_print_str_prints; no_nul|intros _ _]. rewrite Ew.
    eapply prints_bind; [apply (wide_str_prints ok (lit "world") 10); no_nul|intros _ _].
    eapply prints_bind; [apply (demo_print_str_prints ok (line "")); no_nul|intros _ _]. rewrite En.
    eapply (prints_bind _ _ _ [] _ (fun x => x = (mk_Vector [0; 10; 20; 0; 0; 0; 0; 0] 3, a'))); [by apply prints_ret|intros ? ->].
    cbv beta iota. eapply prints_bind; [apply print_nums_prints|intros _ _].
    eapply prints_bind; [apply prints_char|intros _ _].
    eapply (prints_bind _ _ _ (match argv with _ :: x :: _ => lit "arg: " ++ x ++ line "" | _ => [] end) [] (fun _ => True));
      [|intros _ _; by apply prints_ret].
    destruct argv as [|x0 [|x argv]]; [by apply prints_ret..|]. inv Ha. match goal with H : Forall _ (x :: _) |- _ => inv H end.
    eapply prints_bind; [apply demo_print_str_prints; no_nul|intros _ _].
    eapply prints_bind; [by apply demo_print_str_prints|intros _ _]. apply demo_print_str_prints; no_nul. }
  rewrite app_nil_r. reflexivity.
Qed.
