(* ===== verification/Tailq.v ===== *)
(** * Tail queues (src/include/sys/queue.h)

    The TAILQ macros on word memory.  A head at [h] is the two words [tqh_first] and
    [tqh_last]; the entry of an element [e] is the two words [tqe_next] and [tqe_prev] at
    [e + f], [f] being the offset of the field.  [tqe_prev] and [tqh_last] hold the address of
    a word that points to an element, and [TAILQ_LAST] and [TAILQ_PREV] read an entry as if it
    were a head.  [tailq m l]: the queue holds the elements [l]. *)

From S2P Require Import Prelude.

(** ** Words that a structure owns

    [owns m C]: the memory has the words [C], pairs of an address and a value, at different
    addresses.  A list of words may be put in any order. *)
Definition owns (m : gmap Z Z) (C : list (Z * Z)) : Prop := NoDup C.*1 /\ Forall (fun c => rd m c.1 = c.2) C.

#[global] Instance owns_proper : Proper ((=) ==> (≡ₚ) ==> iff) owns.
Proof. intros m ? <- C C' E. unfold owns. by rewrite E. Qed.

Lemma owns_rd m a v C : owns m ((a, v) :: C) -> rd m a = v.
Proof. intros [_ H]. by apply Forall_cons in H as [H _]. Qed.

Lemma owns_wr m a v w C : owns m ((a, v) :: C) -> owns (wr m a w) ((a, w) :: C).
Proof.
  intros [Hn Hf]. split; [done|]. apply Forall_cons in Hf as [_ Hf]. apply NoDup_cons in Hn as [Hne _].
  constructor; [apply rd_wr_eq|]. rewrite Forall_forall in Hf |- *. intros [b u] Hb. cbn. rewrite rd_wr_ne; [by apply (Hf (b, u))|].
  intros ->. apply Hne. apply list_elem_of_fmap. by exists (b, u).
Qed.

(** [focus H a]: bring the word at [a] to the front of what [H] owns. *)
Ltac take_out a C := lazymatch C with
  | (a, ?v) :: ?C1 => constr:((v, C1))
  | ?x :: ?C1 => let r := take_out a C1 in lazymatch r with (?v, ?C2) => constr:((v, x :: C2)) end
  | ?C1 ++ ?C2 => match constr:(Set) with
      | _ => let r := take_out a C1 in lazymatch r with (?v, ?C3) => constr:((v, C3 ++ C2)) end
      | _ => let r := take_out a C2 in lazymatch r with (?v, ?C3) => constr:((v, C1 ++ C3)) end
      end
  end.
Ltac focus H a := lazymatch type of H with owns ?m ?C =>
  let r := take_out a C in lazymatch r with (?v, ?C') =>
    assert (owns m ((a, v) :: C')) as H' by (eapply owns_proper; [reflexivity| |exact H]; solve_Permutation);
    clear H; rename H' into H end end.
Ltac load H a := focus H a; rewrite !(owns_rd _ _ _ _ H).
Ltac store H a w := focus H a; apply (owns_wr _ _ _ w) in H.
Ltac finish H := eapply owns_proper; [reflexivity| |exact H]; solve_Permutation.

Section Tailq.
Variable f : Z.
Implicit Types (m : gmap Z Z) (h e : Z) (l : list Z).

Definition tqh_first h : Z := h.
Definition tqh_last h : Z := h + 4.
Definition tqe_next e : Z := e + f.
Definition tqe_prev e : Z := e + f + 4.

Definition TAILQ_INIT h m : gmap Z Z :=
  let m := wr m (tqh_first h) 0 in
  wr m (tqh_last h) (tqh_first h).

Definition TAILQ_FIRST h m : Z := rd m (tqh_first h).
Definition TAILQ_EMPTY h m : bool := TAILQ_FIRST h m =? 0.
Definition TAILQ_NEXT e m : Z := rd m (tqe_next e).

(** [*(((struct headname * )(head->tqh_last))->tqh_last)] *)
Definition TAILQ_LAST h m : Z := rd m (rd m (tqh_last (rd m (tqh_last h)))).
Definition TAILQ_PREV e m : Z := rd m (rd m (tqh_last (rd m (tqe_prev e)))).

Definition TAILQ_INSERT_HEAD h e m : gmap Z Z :=
  let m := wr m (tqe_next e) (TAILQ_FIRST h m) in
  let m := if negb (TAILQ_NEXT e m =? 0) then wr m (tqe_prev (TAILQ_FIRST h m)) (tqe_next e)
           else wr m (tqh_last h) (tqe_next e) in
  let m := wr m (tqh_first h) e in
  wr m (tqe_prev e) (tqh_first h).

Definition TAILQ_INSERT_TAIL h e m : gmap Z Z :=
  let m := wr m (tqe_next e) 0 in
  let m := wr m (tqe_prev e) (rd m (tqh_last h)) in
  let m := wr m (rd m (tqh_last h)) e in
  wr m (tqh_last h) (tqe_next e).

Definition TAILQ_INSERT_AFTER h listelm e m : gmap Z Z :=
  let m := wr m (tqe_next e) (TAILQ_NEXT listelm m) in
  let m := if negb (TAILQ_NEXT e m =? 0) then wr m (tqe_prev (TAILQ_NEXT e m)) (tqe_next e)
           else wr m (tqh_last h) (tqe_next e) in
  let m := wr m (tqe_next listelm) e in
  wr m (tqe_prev e) (tqe_next listelm).

Definition TAILQ_INSERT_BEFORE listelm e m : gmap Z Z :=
  let m := wr m (tqe_prev e) (rd m (tqe_prev listelm)) in
  let m := wr m (tqe_next e) listelm in
  let m := wr m (rd m (tqe_prev listelm)) e in
  wr m (tqe_prev listelm) (tqe_next e).

Definition TAILQ_REMOVE h e m : gmap Z Z :=
  let m := if negb (TAILQ_NEXT e m =? 0) then wr m (tqe_prev (TAILQ_NEXT e m)) (rd m (tqe_prev e))
           else wr m (tqh_last h) (rd m (tqe_prev e)) in
  wr m (rd m (tqe_prev e)) (TAILQ_NEXT e m).

(** The elements that the loops visit; [None] is a loop that goes on. *)
Fixpoint foreach (fuel : nat) (next : Z -> Z) (e : Z) : option (list Z) :=
  if e =? 0 then Some []
  else match fuel with O => None | S fuel' => cons e <$> foreach fuel' next (next e) end.
Definition TAILQ_FOREACH (fuel : nat) h m : option (list Z) := foreach fuel (fun e => TAILQ_NEXT e m) (TAILQ_FIRST h m).
Definition TAILQ_FOREACH_REVERSE (fuel : nat) h m : option (list Z) :=
  foreach fuel (fun e => TAILQ_PREV e m) (TAILQ_LAST h m).

(** ** The queue as a list *)

(** The word behind the last element of a chain that starts with the word at [p]. *)
Fixpoint lend (p : Z) l : Z := match l with [] => p | e :: l' => lend (tqe_next e) l' end.

(** The words of a chain: the word at [p] points to the first element, every element back to
    the word that points to it. *)
Fixpoint links (p : Z) l : list (Z * Z) :=
  match l with [] => [] | e :: l' => (p, e) :: (tqe_prev e, p) :: links (tqe_next e) l' end.

(** The words of a queue with the elements [l], and of an element that is in no queue. *)
Definition tailq h l : list (Z * Z) :=
  (tqh_last h, lend (tqh_first h) l) :: (lend (tqh_first h) l, 0) :: links (tqh_first h) l.
Definition entry e (n p : Z) : list (Z * Z) := [(tqe_next e, n); (tqe_prev e, p)].

Lemma lend_app p l1 l2 : lend p (l1 ++ l2) = lend (lend p l1) l2.
Proof. revert p. induction l1 as [|e l1 IH]; intros p; cbn; auto. Qed.

Lemma links_app p l1 l2 : links p (l1 ++ l2) = links p l1 ++ links (lend p l1) l2.
Proof. revert p. induction l1 as [|e l1 IH]; intros p; cbn; [done|]. by rewrite IH. Qed.

Ltac queue_words := unfold TAILQ_INSERT_HEAD, TAILQ_INSERT_TAIL, TAILQ_INSERT_AFTER, TAILQ_INSERT_BEFORE, TAILQ_REMOVE,
  TAILQ_LAST, TAILQ_PREV, TAILQ_NEXT, TAILQ_FIRST, TAILQ_INIT, tailq, entry, tqh_first in *; cbv zeta;
  rewrite ?lend_app, ?links_app, ?lend_app in *; cbn [lend links app] in *.

(** ** The operations

    Each holds in any memory that has the words of the queue, of the element, and others [R],
    which stay as they are. *)

Lemma init_spec h x y m R : owns m ((tqh_first h, x) :: (tqh_last h, y) :: R) -> owns (TAILQ_INIT h m) (tailq h [] ++ R).
Proof. intros H. queue_words. store H h 0. store H (tqh_last h) h. finish H. Qed.

Lemma insert_head_spec h e l n p m R : Forall (fun x => x <> 0) l ->
  owns m (tailq h l ++ entry e n p ++ R) -> owns (TAILQ_INSERT_HEAD h e m) (tailq h (e :: l) ++ R).
Proof.
  intros Hl H. destruct Hl as [|x l Hx _]; queue_words; load H h.
  - store H (tqe_next e) 0. load H (tqe_next e). cbn [negb Z.eqb].
    store H (tqh_last h) (tqe_next e). store H h e. store H (tqe_prev e) h. finish H.
  - store H (tqe_next e) x. load H (tqe_next e). load H h. replace (x =? 0) with false by lia. cbn [negb].
    store H (tqe_prev x) (tqe_next e). store H h e. store H (tqe_prev e) h. finish H.
Qed.

Lemma insert_tail_spec h e l n p m R :
  owns m (tailq h l ++ entry e n p ++ R) -> owns (TAILQ_INSERT_TAIL h e m) (tailq h (l ++ [e]) ++ R).
Proof.
  intros H. queue_words. set (q := lend h l) in *. store H (tqe_next e) 0. load H (tqh_last h).
  store H (tqe_prev e) q. load H (tqh_last h). store H q e. store H (tqh_last h) (tqe_next e). finish H.
Qed.

Lemma insert_after_spec h x e l1 l2 n p m R : Forall (fun x => x <> 0) l2 ->
  owns m (tailq h (l1 ++ x :: l2) ++ entry e n p ++ R) -> owns (TAILQ_INSERT_AFTER h x e m) (tailq h (l1 ++ x :: e :: l2) ++ R).
Proof.
  intros Hl H. destruct Hl as [|y l2 Hy _]; queue_words; set (q := lend h l1) in *; load H (tqe_next x).
  - store H (tqe_next e) 0. load H (tqe_next e). cbn [negb Z.eqb].
    store H (tqh_last h) (tqe_next e). store H (tqe_next x) e. store H (tqe_prev e) (tqe_next x). finish H.
  - store H (tqe_next e) y. load H (tqe_next e). replace (y =? 0) with false by lia. cbn [negb].
    store H (tqe_prev y) (tqe_next e). store H (tqe_next x) e. store H (tqe_prev e) (tqe_next x). finish H.
Qed.

Lemma insert_before_spec h x e l1 l2 n p m R :
  owns m (tailq h (l1 ++ x :: l2) ++ entry e n p ++ R) -> owns (TAILQ_INSERT_BEFORE x e m) (tailq h (l1 ++ e :: x :: l2) ++ R).
Proof.
  intros H. queue_words. set (q := lend h l1) in *. load H (tqe_prev x). store H (tqe_prev e) q. store H (tqe_next e) x.
  load H (tqe_prev x). store H q e. store H (tqe_prev x) (tqe_next e). finish H.
Qed.

Lemma remove_spec h e l1 l2 m R : Forall (fun x => x <> 0) l2 ->
  owns m (tailq h (l1 ++ e :: l2) ++ R) -> exists n p, owns (TAILQ_REMOVE h e m) (tailq h (l1 ++ l2) ++ entry e n p ++ R).
Proof.
  intros Hl H. destruct Hl as [|y l2 Hy _]; queue_words; set (q := lend h l1) in *; load H (tqe_next e); load H (tqe_prev e).
  - cbn [negb Z.eqb]. store H (tqh_last h) q. load H (tqe_prev e). load H (tqe_next e). store H q 0.
    exists 0, q. finish H.
  - replace (y =? 0) with false by lia. cbn [negb]. store H (tqe_prev y) q. load H (tqe_prev e). load H (tqe_next e).
    store H q y. exists y, q. finish H.
Qed.

(** ** Reading *)

Lemma first_spec h l m R : owns m (tailq h l ++ R) -> TAILQ_FIRST h m = hd 0 l.
Proof. intros H. destruct l as [|x l]; queue_words; by load H h. Qed.

Lemma next_spec h e l1 l2 m R : owns m (tailq h (l1 ++ e :: l2) ++ R) -> TAILQ_NEXT e m = hd 0 l2.
Proof. intros H. destruct l2 as [|y l2]; queue_words; by load H (tqe_next e). Qed.

(** The word that points to the element [e] behind [l1], as a head, is followed by the word
    that says where [l1] ends. *)
Lemma last_spec h l m R : owns m (tailq h l ++ R) -> TAILQ_LAST h m = default 0 (last l).
Proof.
  intros H. destruct l as [|x l _] using rev_ind; queue_words.
  - load H (tqh_last h). change (rd m h = 0). by load H h.
  - set (q := lend h l) in *. load H (tqh_last h). change (tqh_last (tqe_next x)) with (tqe_prev x). load H (tqe_prev x).
    load H q. by rewrite last_snoc.
Qed.

Lemma prev_spec h e l1 l2 m R : owns m (tailq h (l1 ++ e :: l2) ++ R) -> TAILQ_PREV e m = default 0 (last l1).
Proof.
  intros H. destruct l1 as [|x l1 _] using rev_ind; queue_words.
  - load H (tqe_prev e). load H (tqh_last h). set (q := lend (tqe_next e) l2) in *. by load H q.
  - set (q := lend h l1) in *. load H (tqe_prev e). change (tqh_last (tqe_next x)) with (tqe_prev x). load H (tqe_prev x).
    load H q. by rewrite last_snoc.
Qed.

(** The two loops visit the elements in order, and in reverse order. *)
Lemma foreach_spec h l1 l2 m R fuel : Forall (fun x => x <> 0) l2 -> (length l2 <= fuel)%nat ->
  owns m (tailq h (l1 ++ l2) ++ R) -> foreach fuel (fun e => TAILQ_NEXT e m) (hd 0 l2) = Some l2.
Proof.
  revert l1 fuel. induction l2 as [|e l2 IH]; intros l1 fuel Hz Hl H; [by destruct fuel|]. cbn in Hl.
  destruct fuel as [|fuel]; [lia|]. apply Forall_cons in Hz as [He Hz]. cbn [hd foreach]. replace (e =? 0) with false by lia.
  rewrite (next_spec h e l1 l2 m R H), (IH (l1 ++ [e])); [done|done|lia|]. by rewrite <- app_assoc.
Qed.

Lemma foreach_reverse_spec h l1 l2 m R fuel : Forall (fun x => x <> 0) l1 -> (length l1 <= fuel)%nat ->
  owns m (tailq h (l1 ++ l2) ++ R) -> foreach fuel (fun e => TAILQ_PREV e m) (default 0 (last l1)) = Some (reverse l1).
Proof.
  revert l2 fuel. induction l1 as [|e l1 IH] using rev_ind; intros l2 fuel Hz Hl H; [by destruct fuel|].
  rewrite length_app in Hl. cbn in Hl. destruct fuel as [|fuel]; [lia|]. apply Forall_app in Hz as [Hz He].
  apply Forall_cons in He as [He _]. rewrite last_snoc, reverse_snoc. cbn [default from_option id foreach].
  replace (e =? 0) with false by lia. rewrite <- app_assoc in H. cbn [app] in H.
  rewrite (prev_spec h e l1 l2 m R H), (IH (e :: l2)); [done|done|lia|done].
Qed.
End Tailq.

(** ** A queue refines a list under every sequence of operations *)

Inductive tq_op := InsertHead (e : Z) | InsertTail (e : Z) | InsertAfter (x e : Z) | InsertBefore (x e : Z) | Remove (e : Z).

Definition tq_run (f h : Z) (o : tq_op) (m : gmap Z Z) : gmap Z Z :=
  match o with
  | InsertHead e => TAILQ_INSERT_HEAD f h e m
  | InsertTail e => TAILQ_INSERT_TAIL f h e m
  | InsertAfter x e => TAILQ_INSERT_AFTER f h x e m
  | InsertBefore x e => TAILQ_INSERT_BEFORE f x e m
  | Remove e => TAILQ_REMOVE f h e m
  end.

(** The same on lists; [None] for an operation that the callers must not do: an element that
    is queued already, or a position that is not in the queue. *)
Fixpoint split_at (x : Z) (l : list Z) : option (list Z * list Z) :=
  match l with
  | [] => None
  | y :: l' => if x =? y then Some ([], l') else '(l1, l2) ← split_at x l'; Some (y :: l1, l2)
  end.

Definition fresh_in (e : Z) (univ l : list Z) : bool := bool_decide (e ∈ univ) && negb (bool_decide (e ∈ l)).

Definition tq_spec (univ : list Z) (o : tq_op) (l : list Z) : option (list Z) :=
  match o with
  | InsertHead e => if fresh_in e univ l then Some (e :: l) else None
  | InsertTail e => if fresh_in e univ l then Some (l ++ [e]) else None
  | InsertAfter x e => '(l1, l2) ← split_at x l; if fresh_in e univ l then Some (l1 ++ x :: e :: l2) else None
  | InsertBefore x e => '(l1, l2) ← split_at x l; if fresh_in e univ l then Some (l1 ++ e :: x :: l2) else None
  | Remove e => '(l1, l2) ← split_at e l; Some (l1 ++ l2)
  end.

Fixpoint tq_specs (univ : list Z) (os : list tq_op) (l : list Z) : option (list Z) :=
  match os with [] => Some l | o :: os => l ← tq_spec univ o l; tq_specs univ os l end.

Section Refines.
Context (f h : Z) (univ : list Z) (R : list (Z * Z)).

(** Elements outside of the queue, with the words of their entries. *)
Definition names (out : list (Z * Z * Z)) : list Z := (fun o => o.1.1) <$> out.
Definition spare (out : list (Z * Z * Z)) : list (Z * Z) := out ≫= (fun o => entry f o.1.1 o.1.2 o.2).

(** The memory holds the queue [l] of elements of [univ], an entry for each of the rest, and
    the words [R]. *)
Definition queue_of (m : gmap Z Z) (l : list Z) : Prop :=
  exists out, univ ≡ₚ l ++ names out /\ owns m (tailq f h l ++ spare out ++ R).

Lemma split_at_spec x l l1 l2 : split_at x l = Some (l1, l2) -> l = l1 ++ x :: l2.
Proof.
  revert l1 l2. induction l as [|y l IH]; intros l1 l2 E; cbn in E; [done|]. destruct (Z.eqb_spec x y) as [->|]; [by simplify_eq|].
  destruct (split_at x l) as [[k1 k2]|]; [|done]. cbn in E. simplify_eq. by rewrite (IH k1 l2).
Qed.

(** An element that is not queued, with its entry. *)
Lemma fresh_entry m l e : queue_of m l -> fresh_in e univ l = true ->
  exists n p out, univ ≡ₚ e :: l ++ names out /\ owns m (tailq f h l ++ entry f e n p ++ spare out ++ R).
Proof.
  intros (out & Hu & Ho) Hf. unfold fresh_in in Hf. bool_prop. apply bool_decide_eq_true in H. apply bool_decide_eq_false in H0.
  rewrite Hu, elem_of_app in H. destruct H as [?|H]; [done|]. apply list_elem_of_fmap in H as ([[e' n] p] & E & H).
  cbn in E. subst e'. apply list_elem_of_split in H as (o1 & o2 & ->). exists n, p, (o1 ++ o2).
  unfold names, spare in *. rewrite fmap_app, fmap_cons in Hu. rewrite bind_app, bind_cons in Ho. cbn [fst snd] in Hu, Ho.
  split.
  - rewrite Hu, fmap_app. solve_Permutation.
  - eapply owns_proper; [reflexivity| |exact Ho]. rewrite bind_app. solve_Permutation.
Qed.

Lemma tq_run_spec o m l l' : 0 ∉ univ -> queue_of m l -> tq_spec univ o l = Some l' -> queue_of (tq_run f h o m) l'.
Proof.
  intros H0 Hq E.
  assert (Hz : forall k, (forall x, x ∈ k -> x ∈ l) -> Forall (fun x => x <> 0) k).
  { intros k Hk. apply Forall_forall. intros x Hx ->. apply H0. destruct Hq as (out & Hu & _). rewrite Hu. set_solver. }
  assert (Hput : forall e l2, fresh_in e univ l = true -> l2 ≡ₚ e :: l ->
    (forall n p R', owns m (tailq f h l ++ entry f e n p ++ R') -> owns (tq_run f h o m) (tailq f h l2 ++ R')) ->
    queue_of (tq_run f h o m) l2).
  { intros e l2 Hf Hp Hs. destruct (fresh_entry m l e Hq Hf) as (n & p & out & Hu & Ho). exists out. split; [by rewrite Hp|eauto]. }
  destruct o as [e|e|x e|x e|e]; cbn [tq_spec] in E.
  - destruct (fresh_in e univ l) eqn:Hf; simplify_eq. apply (Hput e); [done|done|]. intros n p R'. apply insert_head_spec. by apply Hz.
  - destruct (fresh_in e univ l) eqn:Hf; simplify_eq. apply (Hput e); [done|solve_Permutation|]. intros n p R'. apply insert_tail_spec.
  - destruct (split_at x l) as [[l1 l2]|] eqn:Hx; [|done]. cbn in E. apply split_at_spec in Hx as ->.
    destruct (fresh_in e univ _) eqn:Hf; simplify_eq. apply (Hput e); [done|solve_Permutation|].
    intros n p R'. apply insert_after_spec. apply Hz. set_solver.
  - destruct (split_at x l) as [[l1 l2]|] eqn:Hx; [|done]. cbn in E. apply split_at_spec in Hx as ->.
    destruct (fresh_in e univ _) eqn:Hf; simplify_eq. apply (Hput e); [done|solve_Permutation|]. intros n p R'. apply insert_before_spec.
  - destruct (split_at e l) as [[l1 l2]|] eqn:Hx; [|done]. cbn in E. simplify_eq. apply split_at_spec in Hx as ->.
    destruct Hq as (out & Hu & Ho). destruct (remove_spec f h e l1 l2 m (spare out ++ R)) as (n & p & Ho'); [apply Hz; set_solver|done|].
    exists ((e, n, p) :: out). split; [rewrite Hu; cbn; solve_Permutation|exact Ho'].
Qed.

(** C12: The TAILQ macros implement a list.  After any sequence of insertions at the head, at
    the tail, before and after an element, and of removals, each allowed, TAILQ_FIRST,
    TAILQ_LAST, TAILQ_NEXT and TAILQ_PREV give the first, last, next and previous element or
    NULL, and the two loops visit the elements in order and in reverse order. *)
Theorem tailq_refines_list m l os l' :
  0 ∉ univ -> queue_of m l -> tq_specs univ os l = Some l' ->
  let m' := foldl (fun m o => tq_run f h o m) m os in
  TAILQ_FIRST h m' = hd 0 l' /\ TAILQ_LAST h m' = default 0 (last l') /\ TAILQ_EMPTY h m' = bool_decide (l' = []) /\
  (forall l1 e l2, l' = l1 ++ e :: l2 -> TAILQ_NEXT f e m' = hd 0 l2 /\ TAILQ_PREV f e m' = default 0 (last l1)) /\
  TAILQ_FOREACH f (length univ) h m' = Some l' /\ TAILQ_FOREACH_REVERSE f (length univ) h m' = Some (reverse l').
Proof.
  intros H0. revert m l. induction os as [|o os IH]; intros m l Hq E.
  2:{ cbn [tq_specs] in E. destruct (tq_spec univ o l) as [l1|] eqn:E1; [|done]. cbn in E. cbn [foldl].
      apply (IH _ l1); [by eapply tq_run_spec|done]. }
  cbn in E. injection E as ->. cbv zeta. cbn [foldl]. destruct Hq as (out & Hu & Ho).
  assert (Hz : Forall (fun x => x <> 0) l') by (apply Forall_forall; intros x Hx ->; apply H0; rewrite Hu; set_solver).
  assert (Hlen : (length l' <= length univ)%nat) by (rewrite Hu, length_app; lia).
  assert (Hf : TAILQ_FIRST h m = hd 0 l') by (by eapply first_spec).
  assert (Hl : TAILQ_LAST h m = default 0 (last l')) by (by eapply last_spec).
  split; [done|]. split; [done|]. split; [|split; [|split]].
  - unfold TAILQ_EMPTY. rewrite Hf. destruct Hz as [|x k Hx _]; [done|]. cbn [hd]. rewrite bool_decide_false by done. lia.
  - intros l1 e l2 ->. split; [by eapply next_spec|by eapply prev_spec].
  - unfold TAILQ_FOREACH. rewrite Hf. by eapply (foreach_spec f h []).
  - unfold TAILQ_FOREACH_REVERSE. rewrite Hl. eapply (foreach_reverse_spec f h l' []); [done|done|]. rewrite (app_nil_r l'). exact Ho.
Qed.
End Refines.

Lemma tailq_refines_list_witness :
  let m := foldl (fun m o => tq_run 0 0x10 o m) (TAILQ_INIT 0x10 ∅)
             [InsertTail 0x100; InsertHead 0x200; InsertAfter 0x200 0x300; Remove 0x200] in
  TAILQ_FOREACH 0 3 0x10 m = Some [0x300; 0x100] /\ TAILQ_FOREACH_REVERSE 0 3 0x10 m = Some [0x100; 0x300].
Proof.
  intros m.
  assert (Hq : queue_of 0 0x10 [0x100; 0x200; 0x300] [] (TAILQ_INIT 0x10 ∅) []).
  { exists [(0x100, 0, 0); (0x200, 0, 0); (0x300, 0, 0)]. split; [done|]. split; [by apply (bool_decide_unpack _)|].
    repeat constructor. }
  destruct (tailq_refines_list 0 0x10 [0x100; 0x200; 0x300] [] (TAILQ_INIT 0x10 ∅) []
    [InsertTail 0x100; InsertHead 0x200; InsertAfter 0x200 0x300; Remove 0x200] [0x300; 0x100])
    as (_ & _ & _ & _ & H1 & H2); [set_solver|exact Hq|reflexivity|]. split; [exact H1|exact H2].
Defined.
