(* ===== verification/PageQueue.v ===== *)
(** * The frame pool in memory (src/kernel/paging.c, src/include/vm/vm.h)

    [Paging] keeps the free frames as a list of indices.  Here is the code on the memory it
    really works on: the array of [struct vm_page] at [A], whose free pages hang in the tail
    queue at [H], and a proof that it does what the definitions of [Paging] do. *)

From S2P Require Import Prelude Heap Task Paging Tailq.

(** [sizeof(struct vm_page)], and the offsets of [pageq], [object], [phys_addr], [ref_count]
    and [flags]. *)
Definition SIZEOF_VM_PAGE : Z := 32.
Definition o_pageq : Z := 0.
Definition o_object : Z := 16.
Definition o_phys_addr : Z := 20.
Definition o_ref_count : Z := 24.
Definition o_flags : Z := 28.

Section Pool.
Context (H A : Z).
Implicit Types m : gmap Z Z.

(** [&vm_page_array[i]] *)
Definition vm_page (i : Z) : Z := A + SIZEOF_VM_PAGE * i.

Definition _alloc_phys_page m : Z * gmap Z Z :=
  let pg := TAILQ_FIRST H m in
  if pg =? 0 then (0, m)
  else
    let m := TAILQ_REMOVE o_pageq H pg m in
    let m := wr m (pg + o_flags) (Z.ldiff (rd m (pg + o_flags)) PG_FREE) in
    (rd m (pg + o_phys_addr), m).

Definition _free_phys_page (phys_addr : Z) m : gmap Z Z :=
  let idx := Z.shiftr phys_addr 12 in
  if (PAGE_START_INDEX <=? idx) && (idx <? NUM_PAGES) then
    let pg := vm_page idx in
    let m := wr m (pg + o_flags) (Z.lor (rd m (pg + o_flags)) PG_FREE) in
    TAILQ_INSERT_HEAD o_pageq H pg m
  else m.

(** The count of TAILQ_FOREACH; [None] is a loop that goes on. *)
Definition free_pages (fuel : nat) m : option Z := Z.of_nat ∘ length <$> TAILQ_FOREACH o_pageq fuel H m.

(** The loop of [paging_init] over [vm_page_array], [n] pages from [i] on. *)
Fixpoint init_pages_loop (n : nat) (i : Z) m : gmap Z Z :=
  match n with
  | O => m
  | S n' =>
      let pg := vm_page i in
      let m := wr m (pg + o_phys_addr) (i * PAGE_SIZE) in
      let m := wr m (pg + o_ref_count) 0 in
      let m := wr m (pg + o_flags) PG_FREE in
      let m := wr m (pg + o_object) 0 in
      let m := if PAGE_START_INDEX <=? i then TAILQ_INSERT_TAIL o_pageq H pg m else m in
      init_pages_loop n' (i + 1) m
  end.
Definition init_page_array m : gmap Z Z := init_pages_loop (Z.to_nat NUM_PAGES) 0 (TAILQ_INIT H m).

(** ** The pool represents the free queue of [Paging] *)

(** The pages that can be queued, and the words of a page that the queue does not use. *)
Definition all_pages : list Z := vm_page <$> init_freeq.
Definition fields (rc fl : gmap Z Z) (i : Z) : list (Z * Z) :=
  [(vm_page i + o_phys_addr, i * PAGE_SIZE); (vm_page i + o_ref_count, rd rc i); (vm_page i + o_flags, rd fl i)].
Definition array (rc fl : gmap Z Z) : list (Z * Z) := seqZ 0 NUM_PAGES ≫= fields rc fl.

Definition pool (p : paging) m : Prop :=
  queue_of o_pageq H all_pages (array (ref_count p) (pg_flags p)) m (vm_page <$> freeq p).

(** The array is not at address 0. *)
Hypothesis array_ok : 0 < A.

Lemma vm_page_inj i j : vm_page i = vm_page j -> i = j.
Proof. unfold vm_page, SIZEOF_VM_PAGE. lia. Qed.

Lemma pages_nonzero l : Forall (fun i => 0 <= i) l -> Forall (fun x => x <> 0) (vm_page <$> l).
Proof. intros Hl. apply Forall_fmap. eapply Forall_impl; [exact Hl|]. intros i Hi. unfold compose, vm_page, SIZEOF_VM_PAGE. cbn beta in *. lia. Qed.

(** The words of one page, taken out of the array. *)
Lemma seqZ_split i : 0 <= i < NUM_PAGES -> seqZ 0 NUM_PAGES ≡ₚ i :: seqZ 0 i ++ seqZ (i + 1) (NUM_PAGES - 1 - i).
Proof.
  intros Hi. assert (E : seqZ 0 (i + (1 + (NUM_PAGES - 1 - i))) = seqZ 0 i ++ [i] ++ seqZ (i + 1) (NUM_PAGES - 1 - i)).
  { rewrite seqZ_app by lia. rewrite (seqZ_app _ 1) by lia. by rewrite Z.add_0_l. }
  replace (i + (1 + (NUM_PAGES - 1 - i))) with NUM_PAGES in E by lia. rewrite E. solve_Permutation.
Qed.

Lemma fields_other rc fl i v l : i ∉ l -> l ≫= fields rc (wr fl i v) = l ≫= fields rc fl.
Proof.
  intros Hi. induction l as [|j l IH]; [done|]. rewrite !bind_cons, IH by set_solver. unfold fields. by rewrite rd_wr_ne by set_solver.
Qed.

Lemma array_split rc fl i : 0 <= i < NUM_PAGES -> exists rest, array rc fl ≡ₚ fields rc fl i ++ rest /\
  forall v, array rc (wr fl i v) ≡ₚ fields rc (wr fl i v) i ++ rest.
Proof.
  intros Hi. set (l := seqZ 0 i ++ seqZ (i + 1) (NUM_PAGES - 1 - i)).
  assert (Hni : i ∉ l) by (unfold l; rewrite elem_of_app, !elem_of_seqZ; lia).
  exists (l ≫= fields rc fl). unfold array. split; [|intros v]; rewrite (seqZ_split i Hi); fold l; rewrite bind_cons; [done|].
  by rewrite fields_other.
Qed.

(** The free pages are pages of the array. *)
Lemma pool_range p m i : pool p m -> i ∈ freeq p -> PAGE_START_INDEX <= i < NUM_PAGES.
Proof.
  intros (out & Hu & _) Hi. assert (Hin : vm_page i ∈ all_pages).
  { rewrite Hu. apply elem_of_app. left. apply list_elem_of_fmap. eauto. }
  apply list_elem_of_fmap in Hin as (j & E & Hj). apply vm_page_inj in E as <-. apply elem_of_seqZ in Hj. lia.
Qed.

Lemma pool_nonneg p m l : pool p m -> (forall i, i ∈ l -> i ∈ freeq p) -> Forall (fun x => x <> 0) (vm_page <$> l).
Proof.
  intros Hp Hl. apply pages_nonzero, Forall_forall. intros i Hi. destruct (pool_range p m i Hp (Hl i Hi)). unfold PAGE_START_INDEX in *. lia.
Qed.

Lemma alloc_sim p m : pool p m ->
  fst (_alloc_phys_page m) = fst (alloc_phys_page p) /\ pool (snd (alloc_phys_page p)) (snd (_alloc_phys_page m)).
Proof.
  intros Hp. pose proof Hp as (out & Hu & Ho). unfold _alloc_phys_page, alloc_phys_page.
  rewrite (first_spec _ _ _ _ _ Ho). destruct (freeq p) as [|i q] eqn:Eq; [done|]. cbn [fmap list_fmap hd].
  assert (Hi : PAGE_START_INDEX <= i < NUM_PAGES) by (apply (pool_range p m); [done|rewrite Eq; set_solver]).
  assert (Hz : Forall (fun x => x <> 0) (vm_page <$> q)) by (apply (pool_nonneg p m); [done|rewrite Eq; set_solver]).
  assert (Hpg : vm_page i <> 0) by (unfold vm_page, SIZEOF_VM_PAGE, PAGE_START_INDEX in *; lia).
  replace (vm_page i =? 0) with false by lia. cbn [fmap list_fmap] in Hu, Ho.
  destruct (remove_spec o_pageq H (vm_page i) [] (vm_page <$> q) m _ Hz Ho) as (n & b & Ho1). cbn [app] in Ho1.
  destruct (array_split (ref_count p) (pg_flags p) i) as (rest & E1 & E2); [unfold PAGE_START_INDEX in *; lia|].
  rewrite E1 in Ho1. unfold fields in Ho1. set (m1 := TAILQ_REMOVE _ _ _ _) in *. cbn [app] in Ho1.
  load Ho1 (vm_page i + o_flags). set (v := Z.ldiff (rd (pg_flags p) i) PG_FREE). store Ho1 (vm_page i + o_flags) v.
  load Ho1 (vm_page i + o_phys_addr). split; [done|]. exists ((vm_page i, n, b) :: out). cbn [freeq pg_flags]. split.
  - rewrite Hu. unfold names. cbn. solve_Permutation.
  - change (array _ _) with (array (ref_count p) (wr (pg_flags p) i v)). rewrite (E2 v). unfold fields. rewrite rd_wr_eq.
    unfold spare. rewrite bind_cons. cbn [fst snd freeq]. finish Ho1.
Qed.

(** A frame that may be freed: one of the pool that is not free, or one outside of the pool. *)
Definition can_free (phys_addr : Z) (p : paging) : Prop := Z.shiftr phys_addr 12 ∉ freeq p.

Lemma free_sim phys p m : pool p m -> can_free phys p -> pool (free_phys_page phys p) (_free_phys_page phys m).
Proof.
  intros Hp Hf. unfold _free_phys_page, free_phys_page. unfold can_free in Hf. set (i := Z.shiftr phys 12) in *.
  destruct ((PAGE_START_INDEX <=? i) && (i <? NUM_PAGES)) eqn:Ei; [|done]. bool_prop.
  assert (Hfr : fresh_in (vm_page i) all_pages (vm_page <$> freeq p) = true).
  { unfold fresh_in. rewrite bool_decide_true, bool_decide_false; [done| |].
    - intros (j & E & Hj)%list_elem_of_fmap. apply vm_page_inj in E as <-. done.
    - apply list_elem_of_fmap. exists i. split; [done|]. unfold init_freeq. apply elem_of_seqZ. lia. }
  destruct (fresh_entry _ _ _ _ m _ _ Hp Hfr) as (n & b & out & Hu & Ho).
  destruct (array_split (ref_count p) (pg_flags p) i) as (rest & E1 & E2); [unfold PAGE_START_INDEX in *; lia|].
  rewrite E1 in Ho. unfold fields in Ho. cbn [app] in Ho. load Ho (vm_page i + o_flags).
  set (v := Z.lor (rd (pg_flags p) i) PG_FREE). store Ho (vm_page i + o_flags) v. set (m1 := wr m _ v) in *.
  exists out. cbn [freeq pg_flags]. split; [rewrite Hu; cbn; solve_Permutation|].
  change (array _ _) with (array (ref_count p) (wr (pg_flags p) i v)). rewrite (E2 v). unfold fields. rewrite rd_wr_eq.
  assert (Hz : Forall (fun x => x <> 0) (vm_page <$> freeq p)) by (apply (pool_nonneg p m); [done|auto]).
  match goal with |- owns _ (_ ++ ?R) => apply (insert_head_spec o_pageq H (vm_page i) (vm_page <$> freeq p) n b m1 R Hz) end.
  finish Ho.
Qed.

Lemma count_sim p m : pool p m -> free_pages (Z.to_nat NUM_PAGES) m = Some (free_pages_count p).
Proof.
  intros Hp. pose proof Hp as (out & Hu & Ho). unfold free_pages, TAILQ_FOREACH. rewrite (first_spec _ _ _ _ _ Ho).
  assert (Hl : (length (vm_page <$> freeq p) <= Z.to_nat NUM_PAGES)%nat).
  { transitivity (length all_pages); [rewrite Hu, length_app; lia|].
    unfold all_pages, init_freeq. rewrite length_fmap, length_seqZ. unfold NUM_PAGES, PAGE_START_INDEX. lia. }
  rewrite (foreach_spec o_pageq H [] _ m _ _ (pool_nonneg p m _ Hp (fun _ x => x)) Hl Ho).
  cbn. unfold free_pages_count. by rewrite length_fmap.
Qed.

(** ** Sequences of requests *)

Inductive frame_op := AllocFrame | FreeFrame (phys_addr : Z).

Definition frame_run (o : frame_op) m : Z * gmap Z Z :=
  match o with AllocFrame => _alloc_phys_page m | FreeFrame a => (0, _free_phys_page a m) end.
Definition frame_spec (o : frame_op) (p : paging) : Z * paging :=
  match o with AllocFrame => alloc_phys_page p | FreeFrame a => (0, free_phys_page a p) end.

Fixpoint frame_runs (os : list frame_op) m : list Z * gmap Z Z :=
  match os with [] => ([], m) | o :: os => let '(r, m) := frame_run o m in let '(rs, m) := frame_runs os m in (r :: rs, m) end.
Fixpoint frame_specs (os : list frame_op) (p : paging) : list Z * paging :=
  match os with [] => ([], p) | o :: os => let '(r, p) := frame_spec o p in let '(rs, p) := frame_specs os p in (r :: rs, p) end.

(** No frame is freed that is free. *)
Fixpoint no_double_free (os : list frame_op) (p : paging) : Prop :=
  match os with
  | [] => True
  | o :: os => match o with FreeFrame a => can_free a p | AllocFrame => True end /\ no_double_free os (snd (frame_spec o p))
  end.

(** C11: The frame pool in memory, an array of page records threaded by a tail queue, refines
    the list of free frames that the rest of the development uses: any sequence of
    allocations and releases without a double release returns the same frames, and the loop
    that counts the free pages ends with their number. *)
Theorem frame_pool_refines os p m : pool p m -> no_double_free os p ->
  fst (frame_runs os m) = fst (frame_specs os p) /\ pool (snd (frame_specs os p)) (snd (frame_runs os m)) /\
  free_pages (Z.to_nat NUM_PAGES) (snd (frame_runs os m)) = Some (free_pages_count (snd (frame_specs os p))).
Proof.
  revert p m. induction os as [|o os IH]; intros p m Hp Hv; cbn [frame_runs frame_specs].
  - split; [done|]. split; [done|]. by apply count_sim.
  - destruct Hv as [Ho Hv].
    assert (Hs : fst (frame_run o m) = fst (frame_spec o p) /\ pool (snd (frame_spec o p)) (snd (frame_run o m))).
    { destruct o as [|a]; cbn; [by apply alloc_sim|]. split; [done|]. by apply free_sim. }
    destruct (frame_run o m) as [r m1], (frame_spec o p) as [r' p1]. cbn [fst snd] in *. destruct Hs as [-> Hp1].
    destruct (IH p1 m1 Hp1 Hv) as (E & Hp2 & Hc). destruct (frame_runs os m1), (frame_specs os p1). cbn in *. by subst.
Qed.

(** ** Initialisation *)

(** The words of page [i], as they are in [m0] and after the loop. *)
Definition words (i : Z) : list Z :=
  let pg := vm_page i in [pg + o_pageq; pg + o_pageq + 4; pg + o_object; pg + o_phys_addr; pg + o_ref_count; pg + o_flags].
Definition raw (m0 : gmap Z Z) (a : Z) : Z * Z := (a, rd m0 a).
Definition low_entry (m0 : gmap Z Z) (i : Z) : list (Z * Z) :=
  if PAGE_START_INDEX <=? i then [] else entry o_pageq (vm_page i) (rd m0 (vm_page i + o_pageq)) (rd m0 (vm_page i + o_pageq + 4)).
Definition ready_page (m0 : gmap Z Z) (i : Z) : list (Z * Z) :=
  fields ∅ {[i := PG_FREE]} i ++ (vm_page i + o_object, 0) :: low_entry m0 i.
Definition queued (i : Z) : list Z := if PAGE_START_INDEX <=? i then [vm_page i] else [].

Lemma init_pages_loop_spec m0 n i m L R :
  owns m (tailq o_pageq H L ++ R ++ (seqZ i (Z.of_nat n) ≫= words) ≫= (fun a => [raw m0 a])) ->
  owns (init_pages_loop n i m) (tailq o_pageq H (L ++ (seqZ i (Z.of_nat n) ≫= queued)) ++ R ++ (seqZ i (Z.of_nat n) ≫= ready_page m0)).
Proof.
  revert i m L R. induction n as [|n IH]; intros i m L R Ho.
  { change (seqZ i (Z.of_nat 0)) with (@nil Z) in *. cbn [mbind list_bind init_pages_loop] in *.
    rewrite (app_nil_r L). exact Ho. }
  cbn [init_pages_loop]. rewrite Nat2Z.inj_succ, seqZ_cons in * by lia. rewrite Z.pred_succ in *. rewrite !bind_cons in *.
  change (Z.succ i) with (i + 1) in *. rewrite bind_app in Ho. set (tl := (_ ≫= (fun a => [raw m0 a]))) in Ho at 2.
  unfold words in Ho. cbn [fmap list_fmap mbind list_bind app] in Ho. unfold raw in Ho at 1 2 3 4 5 6.
  store Ho (vm_page i + o_phys_addr) (i * PAGE_SIZE). store Ho (vm_page i + o_ref_count) 0.
  store Ho (vm_page i + o_flags) PG_FREE. store Ho (vm_page i + o_object) 0.
  set (m1 := wr _ (vm_page i + o_object) 0) in *.
  unfold ready_page at 1, queued at 1, low_entry at 1, fields at 1.
  assert (Ef : rd {[i := PG_FREE]} i = PG_FREE) by (unfold rd; by rewrite lookup_singleton_eq). rewrite Ef.
  change (rd ∅ i) with 0. rewrite (assoc_L (++) R). destruct (PAGE_START_INDEX <=? i).
  - rewrite (assoc_L (++) L). apply IH. eapply (insert_tail_spec _ _ _ _ (rd m0 (vm_page i + o_pageq)) (rd m0 (vm_page i + o_pageq + 4))).
    unfold entry, tqe_next, tqe_prev. finish Ho.
  - apply IH. cbn [app]. unfold entry, tqe_next, tqe_prev. finish Ho.
Qed.

Lemma words_range i n a : a ∈ seqZ i (Z.of_nat n) ≫= words -> vm_page i <= a < vm_page (i + Z.of_nat n).
Proof.
  intros (j & Ha & Hj)%list_elem_of_bind. apply elem_of_seqZ in Hj. unfold words in Ha.
  unfold vm_page, SIZEOF_VM_PAGE, o_pageq, o_object, o_phys_addr, o_ref_count, o_flags in *. set_unfold. lia.
Qed.

Lemma words_nodup i n : NoDup (seqZ i (Z.of_nat n) ≫= words).
Proof.
  revert i. induction n as [|n IH]; intros i; [constructor|]. rewrite Nat2Z.inj_succ, seqZ_cons by lia. rewrite Z.pred_succ, bind_cons.
  apply NoDup_app. split; [|split; [|apply IH]].
  - unfold words, o_pageq, o_object, o_phys_addr, o_ref_count, o_flags. repeat (constructor; [set_unfold; lia|]). constructor.
  - intros a Ha Hb. apply words_range in Hb. unfold words in Ha.
    unfold vm_page, SIZEOF_VM_PAGE, o_pageq, o_object, o_phys_addr, o_ref_count, o_flags in *. set_unfold. lia.
Qed.

(** Any words at different addresses. *)
Lemma owns_raw m0 l : NoDup l -> owns m0 (l ≫= (fun a => [raw m0 a])).
Proof.
  intros Hn. assert (E : l ≫= (fun a => [raw m0 a]) = raw m0 <$> l) by (clear; induction l; cbn; f_equal; auto).
  rewrite E. split; [|by apply Forall_fmap, Forall_true]. rewrite <- list_fmap_compose.
  change (NoDup (id <$> l)). by rewrite list_fmap_id.
Qed.

Lemma owns_sub m C1 C2 : owns m (C1 ++ C2) -> owns m C1.
Proof. intros [Hn Hf]. rewrite fmap_app in Hn. apply NoDup_app in Hn as (Hn & _). apply Forall_app in Hf as [Hf _]. done. Qed.

Lemma bind_split {X Y} (g1 g2 : X -> list Y) l : l ≫= (fun x => g1 x ++ g2 x) ≡ₚ (l ≫= g1) ++ (l ≫= g2).
Proof. induction l as [|x l IH]; [done|]. rewrite !bind_cons, IH. solve_Permutation. Qed.

Lemma queued_pages : seqZ 0 NUM_PAGES ≫= queued = all_pages.
Proof.
  unfold all_pages, init_freeq. replace NUM_PAGES with (PAGE_START_INDEX + (NUM_PAGES - PAGE_START_INDEX)) at 1 by lia.
  rewrite seqZ_app, bind_app by done. rewrite Z.add_0_l.
  assert (E1 : forall l, Forall (fun i => i < PAGE_START_INDEX) l -> l ≫= queued = []).
  { intros l Hl. induction Hl as [|i l Hi _ IH]; [done|]. rewrite bind_cons, IH. unfold queued.
    by replace (PAGE_START_INDEX <=? i) with false by lia. }
  assert (E2 : forall l, Forall (fun i => PAGE_START_INDEX <= i) l -> l ≫= queued = vm_page <$> l).
  { intros l Hl. induction Hl as [|i l Hi _ IH]; [done|]. rewrite bind_cons, IH. unfold queued.
    by replace (PAGE_START_INDEX <=? i) with true by lia. }
  rewrite E1, E2; [done|apply Forall_seqZ; lia|apply Forall_seqZ; lia].
Qed.

Lemma rd_written (v : Z) l r i : i ∈ l -> rd (foldl (fun r i => wr r i v) r l) i = v.
Proof.
  revert r. induction l as [|j l IH] using rev_ind; intros r Hi; [by apply elem_of_nil in Hi|]. rewrite foldl_app. cbn [foldl].
  rewrite rd_wr. case_decide; [done|]. apply IH. set_solver.
Qed.

Lemma fields_init rc fl l : (forall i, i ∈ l -> rd rc i = 0 /\ rd fl i = PG_FREE) ->
  l ≫= fields rc fl = l ≫= (fun i => fields ∅ {[i := PG_FREE]} i).
Proof.
  induction l as [|j l IH]; intros Hl; [done|]. rewrite !bind_cons, IH by set_solver. f_equal. unfold fields.
  destruct (Hl j) as [-> ->]; [set_solver|]. unfold rd. by rewrite lookup_singleton_eq.
Qed.

Lemma paging_init_frames pd pt0 physmap mem_start p :
  let p' := snd (paging_init pd pt0 physmap mem_start p) in
  freeq p' = init_freeq /\ ref_count p' = foldl (fun r i => wr r i 0) (ref_count p) (seqZ 0 NUM_PAGES) /\
  pg_flags p' = foldl (fun r i => wr r i PG_FREE) (pg_flags p) (seqZ 0 NUM_PAGES).
Proof. unfold paging_init. cbv zeta. cbn [snd freeq ref_count pg_flags]. done. Qed.

(** The loop over the first [n] pages, from any memory. *)
Lemma init_array_owns n m0 :
  H + 8 <= A \/ vm_page (Z.of_nat n) <= H ->
  owns (init_pages_loop n 0 (TAILQ_INIT H m0))
    (tailq o_pageq H (seqZ 0 (Z.of_nat n) ≫= queued) ++ (seqZ 0 (Z.of_nat n) ≫= (fun i => fields ∅ {[i := PG_FREE]} i))).
Proof.
  intros Hh. set (pages := seqZ 0 (Z.of_nat n) ≫= words).
  assert (Ho : owns (TAILQ_INIT H m0) (tailq o_pageq H [] ++ [] ++ pages ≫= (fun a => [raw m0 a]))).
  { apply (init_spec o_pageq H (rd m0 H) (rd m0 (tqh_last H))).
    apply (owns_raw m0 (H :: tqh_last H :: pages)). unfold tqh_last.
    assert (Hout : forall a, a ∈ pages -> a <> H /\ a <> H + 4).
    { intros a Ha. apply words_range in Ha. unfold vm_page, SIZEOF_VM_PAGE in *. lia. }
    constructor; [|constructor; [|apply words_nodup]].
    - intros Hin. apply elem_of_cons in Hin as [?|Hin]; [lia|]. by destruct (Hout _ Hin).
    - intros Hin. by destruct (Hout _ Hin). }
  apply (init_pages_loop_spec m0 n 0) in Ho. cbn [app] in Ho.
  unfold ready_page in Ho. rewrite bind_split, (assoc_L (++)) in Ho. exact (owns_sub _ _ _ Ho).
Qed.

(** The queue that holds every page, over any memory and any records. *)
Lemma full_pool p m :
  freeq p = init_freeq -> owns m (tailq o_pageq H all_pages ++ array (ref_count p) (pg_flags p)) -> pool p m.
Proof.
  intros Eq Ho. exists []. rewrite Eq. fold all_pages. generalize dependent all_pages. intros l Ho. split; [|exact Ho].
  change (names []) with (@nil Z). by rewrite (app_nil_r l).
Qed.

(** [paging_init] builds the pool in memory: its queue and records are those of the state that
    [Paging.paging_init] returns. *)
Lemma pool_init pd pt0 physmap mem_start p m0 :
  H + 8 <= A \/ vm_page NUM_PAGES <= H ->
  pool (snd (paging_init pd pt0 physmap mem_start p)) (init_page_array m0).
Proof.
  intros Hh. destruct (paging_init_frames pd pt0 physmap mem_start p) as (E1 & E2 & E3).
  apply full_pool; [exact E1|]. rewrite E2, E3. unfold init_page_array, array. rewrite <- queued_pages.
  assert (EN : NUM_PAGES = Z.of_nat (Z.to_nat NUM_PAGES)) by (symmetry; apply Z2Nat.id; done).
  revert Hh EN. generalize (Z.to_nat NUM_PAGES) as n. generalize NUM_PAGES as N. intros N n Hh ->.
  rewrite fields_init; [by apply init_array_owns|]. intros i Hi. split; apply rd_written, Hi.
Qed.
End Pool.


(** ** A machine after [paging_init] *)
Lemma frame_pool_refines_witness :
  let p := snd (paging_init 0x1000 0x2000 0x3000 0x100000 (mk_paging ∅ [] ∅ ∅ 0)) in
  let m := init_page_array 0x10 0x8000 ∅ in
  fst (frame_runs 0x10 0x8000 [AllocFrame; AllocFrame; FreeFrame 0x400000; AllocFrame] m) = [0x400000; 0x401000; 0; 0x400000].
Proof.
  intros p m. assert (Hp : pool 0x10 0x8000 p m) by (apply pool_init; unfold vm_page, SIZEOF_VM_PAGE; lia).
  assert (Hq : exists q, freeq p = 1024 :: 1025 :: q /\ forall i, i ∈ q -> 1026 <= i).
  { exists (seqZ 1026 (NUM_PAGES - 1026)). split; [|intros i; rewrite elem_of_seqZ; lia].
    transitivity (seqZ 1024 (NUM_PAGES - 1024)); [reflexivity|]. do 2 (rewrite seqZ_cons by reflexivity). reflexivity. }
  clearbody p m. destruct Hq as (q & Hq & Hr). destruct p as [pm fq rc fl pr]. cbn in Hq. subst fq.
  destruct (frame_pool_refines 0x10 0x8000 ltac:(lia) [AllocFrame; AllocFrame; FreeFrame 0x400000; AllocFrame] _ m Hp)
    as (E & _); [|rewrite E].
  - cbn -[Z.shiftr]. split; [done|]. split; [done|]. split; [|done]. intros Hi%Hr. revert Hi. by vm_compute.
  - reflexivity.
Defined.
