(* ===== verification/KernelMain.v ===== *)
(** * The end of kernel_main and the console of init.c (src/kernel/kernel.c, src/init/init.c)

    What [kernel_main] does after the initialisers: the file systems, the files it reads to
    try them, the first program, and the idle loop, which runs in the idle task.  [bout] is
    what it passes to [serial_write].  [process_char] of init.c is a line editor with two
    commands; nothing calls [init_start]. *)

From S2P Require Import Prelude LList Cstr Alloc Vfs Memfs Tar Ramfs FsBoot Task TaskInv Watchdog Sched SchedSpec SchedSteps SchedFrame SchedTheorems.
From S2P Require Import Paging UserMem Elf Vm Process Vga Ports FsTheorems User.

(** ** kernel_main *)

(** How a part of [kernel_main] ends: it goes on, or halts the machine for ever. *)
Inductive boot_end := Goes | Halts.

Record boot (A : Type) := mk_boot { bk : kernel A; bwd : wdog; bout : list Z }.
Arguments mk_boot {A} _ _ _. Arguments bk {A} _. Arguments bwd {A} _. Arguments bout {A} _.
#[export] Instance eta_boot A : Eta (boot A) := fun b => mk_boot (bk b) (bwd b) (bout b).

Section KernelMain.
Context {A : Type} `{Allocator A}.
Implicit Types v : vfs A.
Implicit Types b : boot A.
Variables (user_process_entry exit_handler kernel_pd : Z).
Variable iops : Z -> option (inode_operations (vfs A)).
Variable fops : Z -> option (file_operations (vfs A)).
Variable junk : Z -> Z.
(** Blocks of the disk. *)
Variable read_block : Z -> option (list Z).

(** [mod_start]: the first module of the multiboot information, [None] without one; [ata0]: the
    device [bdev_lookup("ata0")] found, 0 if none. *)
Definition boot_mounts (fuel : nat) (mod_start : option Z) (ata0 : Z) v : option (boot_end * list Z * vfs A) :=
  '(e, out, v) ← (match mod_start with
    | None => Some (Goes, [], v)
    | Some start =>
        if 4 * 1024 * 1024 <=? start then Some (Halts, line "[fs] initrd above 4MB, not directly mapped", v)
        else
          '(ram_sb, v) ← ramfs_mount fuel start v;
          if negb (ram_sb =? 0) then
            b ← supers v !! ram_sb;
            Some (if negb (s_root b =? 0) then (Goes, line "[fs] ramfs as root", v <| vfs_root := s_root b |>) else (Goes, [], v))
          else Some (Goes, [], v)
    end);
  match e with
  | Halts => Some (Halts, out, v)
  | Goes =>
      '(tar_sb, v) ← tarfs_mount read_block fuel ata0 v;
      v ← (if negb (tar_sb =? 0) then '(_, v) ← vfs_mount (lit "/mnt") tar_sb v; Some v else Some v);
      '(home_sb, v) ← memfs_mount v;
      v ← (if negb (home_sb =? 0) then '(_, v) ← vfs_mount (lit "/home") home_sb v; Some v else Some v);
      Some (Goes, out, v)
  end.

(** [f = vfs_open(path, O_RDONLY); if (f) { body; vfs_close(f); }]: what was printed. *)
Definition with_file (root path : list Z) (body : Z -> vfs A -> option (list Z * vfs A)) v : option (bool * list Z * vfs A) :=
  '(f, v) ← vfs_open iops fops root path O_RDONLY v;
  if negb (f =? 0) then
    '(out, v) ← body f v;
    '(_, v) ← Vfs.vfs_close fops f v;
    Some (true, out, v)
  else Some (false, [], v).

(** Read at most [len] bytes; [say bytes content] is printed. *)
Definition read_and_say (len : Z) (say : Z -> list Z -> list Z) (f : Z) v : option (list Z * vfs A) :=
  '(bytes, bs, v) ← vfs_read fops f len v;
  Some (say bytes bs, v).

Definition if_read (text : list Z) (bytes : Z) (bs : list Z) : list Z := if 0 <? bytes then text else [].

(** The files that are read to try the file systems. *)
Definition boot_files (root : list Z) v : option (list Z * vfs A) :=
  '(_, motd, v) ← with_file root (lit "motd")
    (read_and_say 255 (fun bytes bs => if 0 <? bytes then until_nul bs ++ [NL] else [])) v;
  '(found, warm, v) ← with_file root (lit "/mnt/shell.elf") (read_and_say 64 (if_read (line "[fs] cache warm read ok"))) v;
  '(_, again, v) ← (if (found : bool)
    then with_file root (lit "/mnt/shell.elf") (read_and_say 64 (if_read (line "[fs] cache re-read ok"))) v
    else Some (false, [], v));
  '(_, big, v) ← with_file root (lit "/mnt/big.txt") (fun f v =>
    '(big, v) ← malloc 32768 v;
    if negb (big =? 0) then
      '(bytes, _, v) ← vfs_read fops f 32768 v;
      v ← free big v;
      Some (lit "[fs] big.txt read " ++ serial_hex_loop 8 (wrap32 bytes) [] ++ line " bytes", v)
    else Some ([], v)) v;
  Some (motd ++ warm ++ again ++ big, v).

(** From the mounts to the idle loop. *)
Definition kernel_main_end (fuel : nat) (mod_start : option Z) (ata0 : Z) b : option (boot_end * boot A) :=
  let root := root_path (tk (ks (bk b)) (current_task (ks (bk b)))) in
  '(e, out, v) ← boot_mounts fuel mod_start ata0 (kv (bk b));
  let b := b <| bout := bout b ++ out |> <| bk := (bk b) <| kv := v |> |> in
  match e with
  | Halts => Some (Halts, b)
  | Goes =>
      '(out, v) ← (if negb (vfs_root v =? 0) then boot_files root v else Some ([], v));
      let b := b <| bout := bout b ++ out |> <| bk := (bk b) <| kv := v |> |> in
      '(shell, k) ← spawn_user_process user_process_entry exit_handler kernel_pd iops fops junk root (lit "/mnt/shell.elf") (bk b);
      let b := b <| bk := k |> in
      if shell =? 0 then Some (Halts, b <| bout := bout b ++ line "[boot] spawn shell failed" |>)
      else
        let '(_, (wd, s)) := watchdog_register (Some (lit "/mnt/shell.elf")) TIER_SYSTEM shell (bwd b, ks k) in
        Some (Goes, b <| bwd := wd |> <| bk := k <| ks := s |> |> <| bout := bout b ++ line "[boot] entering idle loop" |>)
  end.

(** The spawn of [watchdog_check]: the rest of the kernel beside the scheduler state, [None]
    after a fault. *)
Definition wd_spawn (path : list Z) (st : option (kernel A) * sched) : Z * (option (kernel A) * sched) :=
  match st.1 with
  | None => (0, st)
  | Some k =>
      match spawn_user_process user_process_entry exit_handler kernel_pd iops fops junk
              (root_path (tk st.2 (current_task st.2))) path (k <| ks := st.2 |>) with
      | Some (t, k) => (t, (Some k, ks k))
      | None => (0, (None, st.2))
      end
  end.

(** One round of the idle loop: [watchdog_check(); schedule();] *)
Definition idle_round b : option (boot A) :=
  let '(wd, (ok, s)) := watchdog_check wd_spawn (bwd b) (Some (bk b), ks (bk b)) in
  k ← ok;
  s ← schedule s;
  Some (b <| bwd := wd |> <| bk := k <| ks := s |> |>).
End KernelMain.

(** ** init.c *)

Definition CMD_BUF_SIZE : Z := 128.

(** [outb(0x64, 0xFE)] is recorded in [reboots]. *)
Record cmd_console := mk_console { cmd_buf : list Z; cmd_len : Z; cscreen : vga; reboots : nat }.
#[export] Instance eta_console : Eta cmd_console := fun c => mk_console (cmd_buf c) (cmd_len c) (cscreen c) (reboots c).

(** The [strcmp] of init.c; equality is all that is used of it. *)
Fixpoint init_strcmp (s1 s2 : list Z) : Z :=
  match s1, s2 with
  | x :: s1', y :: s2' => if x =? y then init_strcmp s1' s2' else x - y
  | _, _ => char_at s1 0 - char_at s2 0
  end.

Definition process_char (c : Z) (st : cmd_console) : option cmd_console :=
  if c =? NL then
    buf ← aset (cmd_buf st) (cmd_len st) 0;
    let scr := vga_putchar NL (cscreen st) in
    let cmd := until_nul buf in
    Some (if init_strcmp cmd (lit "clear") =? 0 then mk_console buf 0 (vga_clear scr) (reboots st)
          else if init_strcmp cmd (lit "reboot") =? 0 then mk_console buf 0 scr (S (reboots st))
          else mk_console buf 0 scr (reboots st))
  else if c =? 8 then
    Some (if 0 <? cmd_len st then st <| cmd_len := cmd_len st - 1 |> <| cscreen := vga_putchar 8 (cscreen st) |> else st)
  else if cmd_len st <? CMD_BUF_SIZE - 1 then
    buf ← aset (cmd_buf st) (cmd_len st) c;
    Some (st <| cmd_buf := buf |> <| cmd_len := cmd_len st + 1 |> <| cscreen := vga_putchar c (cscreen st) |>)
  else Some st.

(** ** The idle loop *)

Section Idle.
Context {A : Type} `{Allocator A}.
Variables (user_process_entry exit_handler kernel_pd : Z).
Variable iops : Z -> option (inode_operations (vfs A)).
Variable fops : Z -> option (file_operations (vfs A)).
Variable junk : Z -> Z.

Lemma wd_check_quiet {B} (spawn : list Z -> B * sched -> Z * (B * sched)) now es st :
  Forall (fun e => active e = 0 \/ spawn_due e = 0) es -> wd_check_loop spawn now es st = (es, st).
Proof.
  induction 1 as [|e es He _ IH]; cbn [wd_check_loop]; [done|]. unfold wd_entry_check.
  assert ((active e =? 0) || (spawn_due e =? 0) = true) as ->; [|by rewrite IH].
  apply orb_true_iff. destruct He as [-> | ->]; auto.
Qed.

(** A round of the idle loop with nothing to restart always completes, and when a task is
    READY the idle task does not run after it. *)
Theorem idle_round_runs_ready (b : boot A) qs :
  Forall (fun e => active e = 0 \/ spawn_due e = 0) (wd_table (bwd b)) ->
  calm (ks (bk b)) qs -> current_task (ks (bk b)) = IDLE ->
  exists b' qs', idle_round user_process_entry exit_handler kernel_pd iops fops junk b = Some b' /\
    sched_ok (ks (bk b')) qs' /\
    forall t, slot t -> in_use (tk (ks (bk b)) t) <> 0 -> state (tk (ks (bk b)) t) = TASK_READY ->
      current_task (ks (bk b')) <> IDLE.
Proof.
  intros Hw [Hok Hr] Hc. unfold idle_round, watchdog_check. rewrite wd_check_quiet by done. cbn [mbind option_bind].
  set (s := ks (bk b)) in *. pose proof (sched_ok_pre _ _ Hok) as Hp.
  destruct (schedule_spec s qs Hp) as (s' & qs' & E & Hok' & Hch); [by apply no_quota_not_starved|].
  rewrite E. cbn [mbind option_bind]. eexists _, qs'. split; [done|]. split; [exact Hok'|].
  intros t Ht Hu Hst Hi. change (current_task s' = IDLE) in Hi.
  assert (Hti : t <> IDLE) by (unfold slot, IDLE in *; lia).
  destruct (schedule_out s s' qs Hp E) as ([_ Hs'] & _). rewrite Hi, Hc in Hs'.
  pose proof (same_schedule in_use ltac:(by repeat split) s s' E t) as Eu.
  destruct (qo_all _ _ _ (so_queues _ _ Hok') t Ht) as (q & Hq & Hin).
  - rewrite Hi. set_solver.
  - by rewrite Eu.
  - by rewrite Hs'.
  - pose proof (ch_idle _ _ _ _ Hch Hi q t Hq Hin) as Hn. unfold ready in Hn. destruct (Hr t) as (_ & Hd & _). by rewrite Hd in Hn.
Qed.
End Idle.

(** ** Booting without a disk *)

Definition motd_image : gmap Z Z :=
  list_to_map (zip (seqZ 0x200000 2048) (tar_encode [mk_tfile (lit "motd") 48 (lit "Welcome!")])).
Definition motd_boot : boot bump :=
  mk_boot (mk_kernel (mk_paging ∅ [] ∅ ∅ 0) (task_init 0x1000 0x2000 0x3000 (mk_sched ∅ ∅ ∅ 0 1 0 0 0))
             (blank_fs <| image := motd_image |>) ∅ ∅) (mk_wdog [] 0) [].

(** With a boot image that holds a message and no disk, the kernel prints the message, finds no
    shell and halts. *)
Example boot_without_disk :
  option_map (fun x => (x.1, bout x.2))
    (kernel_main_end 0x4000 0x2000 0x1000 iops_at (fops_at no_tarfs) (fun _ => 0) (fun _ => None) 3 (Some 0x200000) 0 motd_boot) =
  Some (Halts, line "[fs] ramfs as root" ++ line "Welcome!" ++ line "[boot] spawn shell failed").
Proof. vm_compute. reflexivity. Qed.

(** A boot image above 4 MB is not mapped, and the kernel halts before it reads it. *)
Theorem high_initrd_halts {A} `{Allocator A} user_entry exit_handler kernel_pd iops fops junk rd fuel start ata0 (b : boot A) :
  4 * 1024 * 1024 <= start ->
  exists b', kernel_main_end user_entry exit_handler kernel_pd iops fops junk rd fuel (Some start) ata0 b = Some (Halts, b') /\
    bout b' = bout b ++ line "[fs] initrd above 4MB, not directly mapped" /\ ks (bk b') = ks (bk b) /\ kp (bk b') = kp (bk b).
Proof.
  intros Hs. unfold kernel_main_end, boot_mounts. destruct (Z.leb_spec (4 * 1024 * 1024) start) as [_|]; [|lia].
  cbn [mbind option_bind]. by eexists.
Qed.

(** ** The console *)

(** The line that is being edited, and the number of lines that said "reboot". *)
Definition console_edit (st : list Z * nat) (c : Z) : list Z * nat :=
  let '(t, n) := st in
  if c =? NL then ([], if decide (t = lit "reboot") then S n else n)
  else if c =? 8 then (take (length t - 1) t, n)
  else if (length t <? 127)%nat then (t ++ [c], n) else (t, n).

Definition process_chars (cs : list Z) (st : cmd_console) : option cmd_console :=
  foldl (fun o c => st ← o; process_char c st) (Some st) cs.

Record console_ok (st : cmd_console) (t : list Z) : Prop := {
  co_size : length (cmd_buf st) = 128%nat;
  co_len : cmd_len st = Z.of_nat (length t);
  co_text : take (length t) (cmd_buf st) = t;
  co_max : (length t <= 127)%nat;
  co_nul : 0 ∉ t;
}.

Lemma init_strcmp_eq s1 s2 : 0 ∉ s1 -> 0 ∉ s2 -> init_strcmp s1 s2 = 0 <-> s1 = s2.
Proof.
  revert s2. induction s1 as [|x s1 IH]; intros [|y s2] H1 H2; cbn [init_strcmp char_at nth_default]; [done|..].
  - rewrite not_elem_of_cons in H2. unfold char_at. cbn. split; [|done]. intros. lia.
  - rewrite not_elem_of_cons in H1. unfold char_at. cbn. split; [|done]. intros. lia.
  - rewrite not_elem_of_cons in H1, H2. destruct (Z.eqb_spec x y) as [->|Hxy].
    + rewrite IH by tauto. split; [by intros ->|by intros [= ->]].
    + split; [lia|]. intros [= ? ?]. done.
Qed.

Lemma until_nul_app t l : 0 ∉ t -> until_nul (t ++ 0 :: l) = t.
Proof.
  induction t as [|c t IH]; intros Ht; cbn [until_nul app]; [done|]. rewrite not_elem_of_cons in Ht.
  destruct (Z.eqb_spec c 0); [lia|]. rewrite IH by tauto. done.
Qed.

Lemma process_char_ok c st t :
  console_ok st t -> c <> 0 ->
  exists st', process_char c st = Some st' /\
    let '(t', n') := console_edit (t, reboots st) c in console_ok st' t' /\ reboots st' = n'.
Proof.
  intros [H1 H2 H3 H4 H5] Hc. unfold process_char, console_edit. destruct (Z.eqb_spec c NL) as [->|Hnl].
  - rewrite aset_Some by lia. cbn [mbind option_bind]. set (buf := <[_ := 0]> (cmd_buf st)).
    assert (Hl : length buf = 128%nat) by (unfold buf; by rewrite length_insert).
    assert (Hb : until_nul buf = t).
    { unfold buf. rewrite <- (take_drop (length t) (cmd_buf st)) at 1. rewrite H3, H2, Nat2Z.id.
      rewrite insert_app_r_alt by lia. rewrite Nat.sub_diag. destruct (drop (length t) (cmd_buf st)) as [|y l] eqn:Ed.
      - apply (f_equal length) in Ed. rewrite length_drop in Ed. cbn in Ed. lia.
      - cbn [insert list_insert]. by apply until_nul_app. }
    rewrite Hb. assert (Hok : forall scr n, console_ok (mk_console buf 0 scr n) []).
    { intros. split; [done..| |set_solver]. cbn. lia. }
    assert (Hn : forall s, 0 ∉ lit s -> (init_strcmp t (lit s) =? 0) = bool_decide (t = lit s)).
    { intros s Hs. destruct (Z.eqb_spec (init_strcmp t (lit s)) 0) as [E|E]; symmetry.
      - apply bool_decide_eq_true, (init_strcmp_eq t (lit s)); done.
      - apply bool_decide_eq_false. intros Et. by apply E, (init_strcmp_eq t (lit s)). }
    rewrite !Hn by (apply (bool_decide_unpack _); vm_compute; exact I).
    eexists. split; [reflexivity|]. destruct (decide (t = lit "reboot")) as [->|Hr].
    + rewrite bool_decide_eq_false_2 by done. by rewrite bool_decide_eq_true_2.
    + destruct (bool_decide (t = lit "clear")); [done|]. by rewrite bool_decide_eq_false_2.
  - destruct (Z.eqb_spec c 8) as [->|Hb].
    + eexists. split; [reflexivity|]. destruct (Z.ltb_spec 0 (cmd_len st)) as [Hp|Hp]; split; try done.
      * split; cbn [cmd_buf cmd_len set_field]; rewrite ?length_take; [done|lia| |lia|].
        -- rewrite Nat.min_l by lia. transitivity (take (length t - 1) (take (length t) (cmd_buf st))); [|by rewrite H3].
           rewrite take_take. f_equal. lia.
        -- intros Hin. apply H5. rewrite <- (take_drop (length t - 1) t). by apply elem_of_app; left.
      * assert (t = []) as -> by (destruct t; [done|cbn in H2; lia]). by split.
    + replace (cmd_len st <? CMD_BUF_SIZE - 1) with (length t <? 127)%nat
        by (unfold CMD_BUF_SIZE; destruct (Nat.ltb_spec (length t) 127), (Z.ltb_spec (cmd_len st) (128 - 1)); lia || done).
      destruct (Nat.ltb_spec (length t) 127) as [Hlt|Hge]; [|by eexists].
      rewrite aset_Some by lia. cbn [mbind option_bind]. eexists. split; [reflexivity|]. split; [|done].
      split; cbn [cmd_buf cmd_len set_field]; rewrite ?length_insert, ?length_app; cbn [length]; [done|lia| |lia|set_solver].
      rewrite H2, Nat2Z.id, Nat.add_1_r. rewrite User.take_insert_end by lia. by rewrite H3.
Qed.

(** Whatever is typed, the console keeps to its buffer, edits the line, and reboots once for
    every line that says "reboot". *)
Theorem console_refines cs st :
  Forall (fun c => c <> 0) cs -> console_ok st [] ->
  exists st', process_chars cs st = Some st' /\
    let '(t, n) := foldl console_edit ([], reboots st) cs in console_ok st' t /\ reboots st' = n.
Proof.
  intros Hcs Hok. unfold process_chars.
  enough (Hg : forall t st, console_ok st t -> exists st',
    foldl (fun o c => st ← o; process_char c st) (Some st) cs = Some st' /\
    let '(t, n) := foldl console_edit (t, reboots st) cs in console_ok st' t /\ reboots st' = n) by (by apply Hg).
  clear st Hok. induction Hcs as [|c cs Hc _ IH]; intros t st Hok; cbn [foldl]; [by exists st|].
  destruct (process_char_ok c st t Hok Hc) as (st1 & E & Hst). cbn [mbind option_bind]. rewrite E.
  destruct (console_edit (t, reboots st) c) as [t1 n1]. destruct Hst as [Hok1 <-]. by apply IH.
Qed.
